(* ===== verification/_CoqProject ===== *)
-Q . S2P
Prelude.v
PyStr.v
PyNum.v
PyDate.v
Value.v
Expr.v
Expression.v
ExpressionFacts.v
Text.v
Surface.v
Grammar.v
SurfaceFacts.v
FloatText.v
Printer.v
PrinterFacts.v
SurfaceShape.v
Datasets.v
Document.v
Topo.v
Compile.v
CompileFacts.v
Runtime.v
RuntimeFrame.v
Recalculate.v
Instances.v
Screens.v
Reachability.v
ScreenFacts.v
Projection.v
ProjectionFacts.v
Fold.v
Status.v
CaseKey.v
DatasetKeys.v
PublishGate.v
PyJson.v
TextFormats.v
Server.v
Catalog.v
Media.v
MediaFacts.v
Identity.v
People.v
AuthorityFacts.v
Quality.v
Push.v
PushFacts.v
Forms.v
Entities.v
Cases.v
Pull.v
Cells.v
ExportPlan.v
Statistical.v
ExportManifest.v
ExportService.v
CatalogFacts.v
CatalogSound.v
DeltaFacts.v
CellFacts.v
PlanFacts.v
ReadbackFacts.v
ExportFacts.v
StatisticalFacts.v
ExportServiceFacts.v
Samples.v
SyncSamples.v
EngineTheorems.v
RuntimeTheorems.v
SyncTheorems.v
ServerTheorems.v
SurfaceTheorems.v
CatalogSamples.v
ExportSamples.v
CatalogTheorems.v
DeliveryTheorems.v
ExportTheorems.v
AuthorityTheorems.v
CaseTheorems.v
Findings.v
