(* ===== verification/Prelude.v ===== *)
(** * The form engine of the data collection platform, verified

    The repository collects data offline with forms.  A form is a JSON
    document (the Form IR); the Python engine under
    [src/backend/app/modules/form_engine] compiles it and runs it, and is the
    reference the Kotlin and TypeScript clients are tested against.  A device
    records what a respondent does as a log of operations, which the server
    folds into a submission, moves through review, and exports.  This
    development models the engine and the parts of the server that decide
    (publishing, reference data, sync, media, review, rules, export, people and
    their authority), function by function, and proves what makes them
    correct.

    ** Files and the code they model

    Python's own built-ins, written out where the source relies on them:
    - [Prelude]: strings as code points, exceptions and the result type [res],
      dictionaries in insertion order ([odict]), the lemmas and tactics shared
      by every file.
    - [PyStr] ([str] methods, [str(int)], [int(str)]), [PyNum] (unbounded
      [int] and IEEE-754 [float], [repr], [float(str)], mixed comparisons),
      [PyDate] ([datetime.date] over the proleptic Gregorian calendar), [Value]
      (JSON values with Python's equality and truth).

    The engine ([form_engine/]):
    - [Expr], [Expression], [ExpressionFacts]: [expression.py].  [expr_of]
      decodes a JSON node; [evaluate] is [evaluate], [FUNCTIONS] the function
      table, [resolve_] the path resolver over an [eval_ctx] ([EvalContext]).
    - [Text]: [text.py].  [Datasets]: [datasets.py], [rows.py] and the filter
      half of choice lists in [runtime.py].  [Document]: [document.py].
    - [Topo], [Compile], [CompileFacts]: [CompiledForm] of [runtime.py];
      [compile] is the constructor, a [cform] its attributes, and each pass
      ([link_rows_choices], [check_interpolation], [check_references],
      [topological_order], [lint_field]) its method.
    - [Runtime]: [FormInstance] of [runtime.py].  An [inst] holds its mutable
      attributes, a [world] its form, clock, metadata and datasets.  A method
      is a function in the state-and-exception monad [M], which keeps the
      state a raising method leaves behind.  [RuntimeFrame] (what an
      evaluation depends on), [Recalculate] (the topological pass) and
      [Instances] (repeat instances and sessions of operations) are its
      theory.
    - [Surface]: the tokenizer and recursive-descent parser of expression text
      ([forms/xlsform/expressions.py]); [Printer]: [forms/expression_text.py]
      and the endpoint that parses and prints.  [Grammar] is the specification
      of the text, [SurfaceFacts], [PrinterFacts] and [SurfaceShape] the
      theory of the two.
    - [Screens], [ScreenFacts]: [screens.py].  [Reachability]:
      [reachability.py] and [answerability.py].  [Projection],
      [ProjectionFacts]: [projection.py].

    The server:
    - [Fold]: [submissions/fold.py].  [Status]: [submissions/status.py],
      [decide] of [quality/review.py] and the status half of
      [_fold_submission] of [sync/service.py], as steps on a database of
      statuses and reviews.  [CaseKey], [DatasetKeys]: [entities/case_key.py]
      and [entities/rows.py].
    - [Server]: the tables the services below read and write, as one record
      [server] with a row type per SQLAlchemy model, and the monad [ST] their
      handlers run in.
    - [Push], [PushFacts]: [push] of [sync/service.py] with the validators of
      [sync/schemas.py] and the route of [api/v1/sync.py].  [prepare] is
      everything up to the insertion ([take_in], [admit_all] through [gate],
      [admit_content_keys], [stage_one]), [settle] the insertion ([insert_ops])
      and what follows from it ([refold], the rules, the outbox, the devices).
      [Pull]: the op and tombstone streams of [pull] as the asking person sees
      them ([sees_submission] is the policy of [migrations/schema/016_review.sql],
      [sees_op] and [sees_tombstone] those that follow it), and a client
      [drain]ing them.
    - [Media], [MediaFacts]: [media/service.py] and the chunk store of
      [infrastructure/media_storage.py]; [transact] is the route's
      transaction, which the store is not part of.
    - [Quality]: [quality/service.py].
    - [PublishGate]: [check_publishable] of [forms/service.py] with
      [forms/collectability.py] and the sensitivity check of
      [crypto/envelope.py].
    - [Catalog]: the tables of forms and datasets as one record [catalog]
      around the [server], with an insertion per table that applies its
      constraints, and [atomically], the route's transaction.  [PyJson]:
      [bytes.fromhex], [bytes.hex] and [json.dumps] as the checksums use it.
    - [Forms]: [forms/service.py] ([publish_version] with its pins,
      [deploy_version], the manifest of a device, drafts, compiled forms).
      [Entities]: [entities/service.py] (publishing a dataset, manifests,
      pages of rows, deltas).
    - [CatalogFacts] ([request], [serve], what requests keep), [CatalogSound]
      (the invariant [sound]) and [DeltaFacts] (deployments; a client
      [follow]ing a cursor) are their theory.
    - [FloatText] ([repr] of a float and back) and [TextFormats] (the [csv]
      module's writer and reader, [json.loads]) are the text the export's
      files are made of.  [Cells]: [export/cells.py].  [ExportPlan]:
      [export/plan.py] and [export/shape.py]; [build_plan] is the column
      plan, a [building] the dictionaries its closures share, [build_tables]
      both shapes.  [Statistical]: [export/statistical.py] up to the call of
      pyreadstat.  [ExportManifest]: [export/manifest.py], the CSV half of
      [export/writers.py] and [read_bundle] of [export/readback.py].
      [ExportService]: [export_form] of [export/service.py] over the catalog.
      [CellFacts], [PlanFacts], [ReadbackFacts], [ExportFacts],
      [StatisticalFacts] and [ExportServiceFacts] are their theory.
    - [Identity]: the tables of people, memberships, roles, grants, teams and
      sessions ([auth/models.py], [projects/models.py]) as one record
      [directory]; [principal_for] ([dcp_principal_for]) and the row-level
      policies of [migrations/schema/010_people.sql] as predicates on rows;
      [auth/service.py] ([login], [resolve], [logout]) and the [guard] of
      [api/access.py].  [People]: [people/service.py] with its routes;
      [perform] is a route's handler, [handle] a request from its cookies to
      its answer, [serve_person] the tables after it; [install] is
      [auth/builtin_roles.py].  [AuthorityFacts]: the statements a handler is
      made of as the relation [does], and what each keeps.
    - [Cases]: [cases/service.py] with the functions and policies of
      [migrations/schema/012_cases.sql] and 014: [casework] is the tables of
      cases and assignments beside the [directory] and the [catalog],
      [case_in_scope] the one rule of who sees a case, [dcp_assign_case] and
      [dcp_upsert_cases] the two writers, [upload_sample] the upload that
      publishes a dataset and makes the cases, [handle_work] a request.

    [Samples], [SyncSamples], [CatalogSamples] and [ExportSamples] hold the
    forms, server, batches, catalog and records the witnesses run.
    [EngineTheorems], [RuntimeTheorems], [SyncTheorems], [ServerTheorems],
    [SurfaceTheorems], [CatalogTheorems], [DeliveryTheorems],
    [ExportTheorems], [AuthorityTheorems] and [CaseTheorems] state the
    properties, the last with the theory of [Cases]; the witnesses of the last
    two run the organisation [Acme] of [People] and the sample of [Fieldwork]
    in [Cases].  [Findings] records, as computations, where the code and its
    documentation part.

    ** How the parts interact

    [compile] checks the document, collects each field's references with
    [collect_refs] and orders the fields.  [construct] builds an instance and
    [recalculate] resolves row sources, applies count expressions and
    evaluates every field in order through [evaluate], which reads answers
    back through [resolve_].  [set_many], [add_instance], [delete_instance]
    and [restore] change answers or instances and recalculate.  The screens
    read the resulting states; the projection restores a folded log into a
    fresh instance and reads its answers.  A push stores ops under arrival
    numbers, pairs them with media rows, folds each touched submission with
    [fold_ops], moves its status with [next_status] and runs the project's
    rules with [evaluate] on the fold; a pull relays the stored ops.

    A form reaches a device through [publish_version]: [check_publishable]
    compiles it and runs every gate, [resolve_dataset_pins] ties each dataset
    it names to a published version, and [deploy_version] says where it runs.
    The manifests then tell a device which form versions
    ([deployed_versions_for_device]) and which dataset versions
    ([deployed_dataset_versions_for_device]) to hold; pages and deltas bring
    the rows.  A push resolves the version an op names through the same
    tables ([joined], [served]).  An author's expression text goes through
    [translate] and comes back through [render].

    An export takes the submissions of a form from the server's tables, folds
    each one's ops, compiles the version it was collected under
    ([compiled_forms_for_submissions]), projects the fold through that version
    ([project_for_export]) and names its choices through the rows the
    version's pins resolve to ([dataset_rows_for_submissions]).  The plan of
    all the versions gives the tables, the manifest says what each column is,
    and the readback needs nothing but the manifest and the files.

    A console or app request names an organisation and a session by its
    cookies.  [current_identity] resolves the session under the organisation
    alone and computes the person's [principal]; [guard] reads it for the
    route's permission; every statement of the handler is then decided by the
    policies, which read the principal and the tables, and a refusal rolls the
    request back.  Grants, roles and memberships are therefore what decides
    who may write grants, roles and memberships.

    A sample is keyed by [key_of], published by [publish_dataset_version], and
    its keys become cases.  A case is given to a team and, under it, to a
    person the tables of people say is an active member of both; what a device
    is told it holds ([assigned_to], in a pull) is read back from those rows.

    ** What the theorems show

    - Expressions: results depend on nothing but the collected references
      ([evaluation_reads_its_references]), which carries recalculation and
      the export; a well formed expression raises only on integer overflow
      ([evaluation_total]); 64-bit arithmetic and date arithmetic obey their
      laws.
    - Compilation: unique ids, closed references, one repeat; the evaluation
      order is the unique one the rule determines and fails exactly on a
      cycle ([compiled_topological], [topological_error_iff_cycle]); the
      document check decides a specification.
    - Datasets and text: the selector and residual of a filter are exact over
      text ([selector_decomposition_exact]); rendering.
    - The runtime: in a form whose calculates do not read themselves
      recalculation settles ([recalculation_settles]); instances keep
      identity, order and bounds through any session.
    - Screens: every question is asked once; navigation is the nearest
      relevant screen; a blocked form opens at a blocker.
    - The log: any sequence of pushes keeps it unique and its states its folds
      ([pushes_keep_the_log]); the fold is last-writer-wins; every op is
      answered, gated, and safe to send again; the insertion's fast path is
      its fallback; a client pulls every row its person sees once, and pulls
      what was pushed.
    - Review: the status machine under any interleaving of reviewers and
      devices, and a push alone as its device half; rules are all answered and
      their flags are those of the last run.
    - Media: a complete file is whole whatever calls interleave, under ids
      that are plain ([complete_files_are_whole]); completion decides by
      content; a chunk may be sent again.
    - Expression text: the parser reads exactly the grammar
      ([translate_reads_the_grammar]) and what is printed reads back
      ([printed_text_reads_back]).
    - Publishing: the tables stay what the gates let in
      ([catalog_stays_sound]); what is published never changes; publishing
      again changes nothing; a stale draft is refused; sensitive answers do
      not flow into others.
    - Delivery: what a device is told to run is what push accepts
      ([manifest_is_what_push_accepts]); its dataset manifest covers its
      forms; pages give every row; a copy brought up to date by a delta is
      chosen from like the pinned version
      ([delta_brings_the_copy_up_to_date]).
    - Export: every matching submission of the tables as the session sees
      them once, each read under its own version
      ([export_of_every_submission]); the plan is the union of the versions
      with distinct names ([plan_is_the_union], [column_names_are_distinct]);
      what is unreadable is the token wherever it is and is marked
      ([unreadable_answers_are_marked]); long CSV files whose key columns kept
      their names and whose versions agree on types read back as what was
      exported ([export_reads_back]); the names and types of a statistical
      file are legal and its columns convert ([statistical_names_are_legal],
      [planned_columns_convert]).
    - Authority, over any sequence of requests: permissions come only from
      those who hold them ([permissions_come_from_holders]); grants stay in
      their maker's organisation and, the organisation-wide aside, in their
      maker's projects and teams ([grants_stay_in_scope]); only approved members act
      and only approvers approve ([only_the_approved_act]); the standard roles
      stay ([standard_roles_stay]); a principal is what the live grants say
      ([principal_is_the_live_grants]); a login opens exactly the session its
      token names ([login_opens_the_session]).
    - Cases: assigning moves exactly one case's holders
      ([assigning_moves_the_holder]); an upload by someone who sees the
      project's cases makes the cases its keys name and is idempotent ([upload_makes_the_cases]); through any sequence of
      requests no case, key or assignment is lost and a person holds only
      under a team ([cases_keep_their_history]), put there by someone who
      could ([only_assigners_assign]); a device is told exactly what its
      person holds ([assigned_to_is_what_is_held]).
    - Keys: composite keys and dataset versions.

    ** Fuel and bounds

    [kahn] has one unit of fuel per field and one more; each turn places a
    field, and [topological_error_iff_cycle] shows that is enough.  [grow]
    and [shrink] have as fuel the difference between the wanted and the
    present count, and [count_expression_applied] that they reach it.
    [drain], a client, has a unit per page; one more than the rows left is
    enough ([pull_relays_everything]); so has [follow], one more than the rows
    ([row_pages_are_the_version], [delta_brings_the_copy_up_to_date]).
    [first_free], the loops that look for a name, has one unit more than
    there are names taken, and one of that many candidates is free
    ([column_names_are_distinct], [statistical_names_are_legal]); [loads] has
    twice the length of its text.  [team_closure], the recursive query over
    teams, has one unit more than there are teams, since each round but the
    last finds one ([principal_is_the_live_grants] shows it finds them all).  The
    tokenizer and the parser spend a unit per character and per token, and
    [translate_always_answers] shows that they never run out.  [dec_rev] (decimal digits) has the bits of the number, and
    [str_N_spec] that all digits come out.  Everything else is structural.
    Integers are unbounded, as in Python, with the engine's own 64-bit checks
    where it has them; floats are the standard library's binary64.

    ** Modelling choices

    - Answers and documents are JSON values; the engine never stores a Python
      date in an answer.  Arguments, items and languages are read as arrays
      and string tables as objects, where the document check does not force
      it; an [args] key on a literal or a reference is dropped by [expr_of].
    - The text of messages is not modelled: an exception carries the raise
      site and the identifiers its message names.  Python sets are iterated
      in an unspecified order, so an error found in a set names its field.
    - Regular expression matching, Unicode case mapping and the C math
      library are the class [PyEnv]; [ascii_env] is an instance for ASCII.
      SHA-256, UTF-8, canonical JSON and case folding are section variables,
      a dataset store is a [dataset_source].
    - [sum] is that of CPython 3.12, which compensates float additions.
    - In an export the moments of a submission are their ISO text, and
      [received_at], which the [server] does not keep, is a parameter.  Which
      characters are letters or alphanumeric is the class [CharClasses].  An
      export reads the tables as its session sees them: the row-level policies
      that hide rows from its asker are outside the model of
      [ExportService].  Those of a pull are in it: [Pull] takes the asking
      [principal] and the tables of people and cases they are decided over.
    - Of a server's transactions, [push] takes what others commit between its
      reads and its insertion as a function on the tables; [id] is a push
      alone.  A row object the session holds is written back by the columns
      that changed ([orm_write]).  Pydantic's decoding of an op's fields
      ([decode]), the row-level policy on opening a submission ([may_open]),
      the database's collation ([collate]), ULIDs, SHA-256 and the session
      lifetime are parameters; the person pushing is taken to see the rows
      the push reads.  Numbers a failed insertion drew from the sequence are
      drawn again, where the database leaves gaps; an answer comes back from
      its JSON column as it went in.
    - An integer too wide for its column is [DataError] where the batch first
      binds it.  In the catalog's handlers each request is one transaction;
      rows no query orders come in the order of their insertion, a JSON
      column gives back what was stored, and the server's own tables do not
      change underneath.  A document's identifiers are text.  Routes'
      permission checks are left out there.  Duplicate wraps of one media
      request, NUL in text and symbolic links in the store are outside the
      model.
    - In [Identity] and [People] a request's two transactions run on one
      state with nothing committed between them.  A statement is checked by
      the policy first and the constraints after, as the database does.  A
      principal's lists reach the policies comma-joined and are split again
      ([setting_list]), so the theorems on scopes ask that the identifiers of
      projects and teams have no comma; permissions have none.  [argon2] and
      the token's hash are parameters, and so are the ULIDs.  A function the
      database calls STABLE reads the tables as its statement found them.  The
      [casework] has the projects twice, in the [directory] for the policies
      and in the [catalog] for its references; no request modelled writes
      either.

    ** Not modelled

    The HTTP API around the services but for the people, team, role, case and
    sign-in routes; the database schema and migrations but for the policies
    and constraints named above; the services that are SQL around rows
    (projects, monitoring, rule routes) and the returned work a pull adds;
    the encryption envelope, which calls a cryptography library; what
    pyreadstat and openpyxl write and read in an export, its zip file and the
    JSON of its manifest; the workbook importer, whose own part is reading
    cells openpyxl hands it; the conformance generators and scripts. *)

From stdpp Require Export base list strings gmap.
From Stdlib Require Export ZArith Lia ZifyN ZifyNat.
From Stdlib Require Import Strings.Ascii.

(* Integer literals are read in [Z] unless a scope says otherwise. *)
#[global] Open Scope Z_scope.

(** ** Python strings

    A [str] is its sequence of code points, so [len], slicing and comparison
    are those of the list.  String literals of the source are ASCII and enter
    through the coercion [lit]. *)

Abbreviation pystr := (list N) (only parsing).

Fixpoint lit (s : string) : pystr :=
  match s with
  | EmptyString => []
  | String c r => Ascii.N_of_ascii c :: lit r
  end.

Coercion lit : string >-> list.
#[global] Arguments lit : simpl never.

Definition str_eqb (a b : pystr) : bool := bool_decide (a = b).

Lemma str_eqb_refl x : str_eqb x x = true.
Proof. by apply bool_decide_eq_true. Qed.

Lemma str_eqb_ne x y : x <> y -> str_eqb x y = false.
Proof. intros. by apply bool_decide_eq_false. Qed.

Lemma str_eqb_eq s t : str_eqb s t = true <-> s = t.
Proof. apply bool_decide_eq_true. Qed.

Lemma str_eqb_sym s t : str_eqb s t = str_eqb t s.
Proof. unfold str_eqb. apply bool_decide_ext. naive_solver. Qed.

(** ** Exceptions

    One constructor per exception class the modelled code raises or lets
    through.  The message text is not modelled: [what] names the raise site
    and [about] the identifiers interpolated into the message. *)

Inductive exn :=
| CompileError (what : pystr) (about : list pystr)
| EvaluationError (what : pystr)
| DocumentError (reason where_ : pystr)
| RenderError (what : pystr)
| KeyError
| IndexError
| TypeError
| ValueError
| OverflowError
| AssertionError
| AttributeError.

(** [DocumentError] is a subclass of [CompileError] (document.py). *)
Definition is_compile_error (e : exn) : bool :=
  match e with CompileError _ _ | DocumentError _ _ => true | _ => false end.

(** ** Results: a value, or the exception that propagates *)

Inductive res (A : Type) :=
| Ok (a : A)
| Raise (e : exn).
Arguments Ok {A} a.
Arguments Raise {A} e.

#[global] Instance res_ret : MRet res := @Ok.
#[global] Instance res_bind : MBind res := fun A B f m =>
  match m with Ok a => f a | Raise e => Raise e end.
#[global] Instance res_fmap : FMap res := fun A B f m =>
  match m with Ok a => Ok (f a) | Raise e => Raise e end.

Definition is_ok {A} (r : res A) : bool := match r with Ok _ => true | Raise _ => false end.

Definition of_option {A} (e : exn) (o : option A) : res A :=
  match o with Some a => Ok a | None => Raise e end.

(** A [for] loop whose body may raise. *)
Fixpoint foldM {A S} (f : S -> A -> res S) (s : S) (l : list A) : res S :=
  match l with
  | [] => Ok s
  | a :: r => match f s a with Ok s' => foldM f s' r | Raise e => Raise e end
  end.

(** [mapR f l] is the list comprehension [[f(x) for x in l]]. *)
Fixpoint mapR {A B} (f : A -> res B) (l : list A) : res (list B) :=
  match l with
  | [] => Ok []
  | a :: r =>
      match f a with
      | Ok b => match mapR f r with Ok bs => Ok (b :: bs) | Raise e => Raise e end
      | Raise e => Raise e
      end
  end.

(** [[x for x in l if p(x)]] with a raising condition. *)
Fixpoint filterR {A} (p : A -> res bool) (l : list A) : res (list A) :=
  match l with
  | [] => Ok []
  | a :: r =>
      match p a with
      | Ok b =>
          match filterR p r with
          | Ok bs => Ok (if b then a :: bs else bs)
          | Raise e => Raise e
          end
      | Raise e => Raise e
      end
  end.

(** ** Python dictionaries

    Insertion-ordered: assigning to a present key keeps its position, a new
    key goes last. *)

Abbreviation odict A := (list (pystr * A)) (only parsing).

Section Dict.
Context {A : Type}.
Implicit Types (d : odict A) (k : pystr).

Fixpoint dget d k : option A :=
  match d with
  | [] => None
  | (k', v) :: r => if decide (k = k') then Some v else dget r k
  end.

Definition dhas d k : bool := match dget d k with Some _ => true | None => false end.

Fixpoint dset d k (v : A) : odict A :=
  match d with
  | [] => [(k, v)]
  | (k', v') :: r => if decide (k = k') then (k', v) :: r else (k', v') :: dset r k v
  end.

Fixpoint dpop d k : odict A :=
  match d with
  | [] => []
  | (k', v') :: r => if decide (k = k') then r else (k', v') :: dpop r k
  end.

Definition dkeys d : list pystr := d.*1.

Lemma dget_dset_eq d k v : dget (dset d k v) k = Some v.
Proof. induction d as [|[k' v'] r IH]; simpl; repeat (case_decide; simpl); congruence. Qed.

Lemma dget_dset_ne d k k' v : k' <> k -> dget (dset d k v) k' = dget d k'.
Proof.
  intros Hne. induction d as [|[k2 v2] r IH]; simpl; repeat (case_decide; simpl); congruence.
Qed.

Lemma dget_dset d k k' v :
  dget (dset d k v) k' = if decide (k' = k) then Some v else dget d k'.
Proof. case_decide; subst; [apply dget_dset_eq | by apply dget_dset_ne]. Qed.

Lemma dget_dpop_ne d k k' : k' <> k -> dget (dpop d k) k' = dget d k'.
Proof.
  intros Hne. induction d as [|[k2 v2] r IH]; simpl; repeat (case_decide; simpl); congruence.
Qed.

Lemma dget_Some_elem d k v : dget d k = Some v -> (k, v) ∈ d.
Proof.
  induction d as [|[k2 v2] r IH]; simpl; [done|]. case_decide; set_solver.
Qed.

Lemma dget_elem d k : is_Some (dget d k) <-> k ∈ dkeys d.
Proof.
  unfold dkeys. induction d as [|[k2 v2] r IH]; simpl.
  - split; [by intros [? ?]|set_solver].
  - case_decide; subst; [split; [set_solver|by eauto]|].
    rewrite IH, elem_of_cons. naive_solver.
Qed.

Lemma dget_None d k : dget d k = None <-> k ∉ dkeys d.
Proof. rewrite <- dget_elem, eq_None_not_Some. done. Qed.

Lemma dhas_spec d k : dhas d k = true <-> k ∈ dkeys d.
Proof. unfold dhas. rewrite <- dget_elem. destruct (dget d k); naive_solver. Qed.

Lemma dget_app d1 d2 k :
  dget (d1 ++ d2) k = match dget d1 k with Some v => Some v | None => dget d2 k end.
Proof. induction d1 as [|[k2 v2] r IH]; simpl; repeat case_decide; congruence. Qed.

Lemma dkeys_dset_in d k v : k ∈ dkeys d -> dkeys (dset d k v) = dkeys d.
Proof.
  unfold dkeys. induction d as [|[k2 v2] r IH]; simpl; [set_solver|].
  rewrite elem_of_cons. intros H. case_decide; simpl; [done|].
  f_equal. apply IH. naive_solver.
Qed.

Lemma dset_fresh d k v : k ∉ dkeys d -> dset d k v = d ++ [(k, v)].
Proof.
  unfold dkeys. induction d as [|[k2 v2] r IH]; simpl; [done|].
  rewrite elem_of_cons. intros H. case_decide; simpl; [naive_solver|].
  f_equal. apply IH. naive_solver.
Qed.

Lemma dkeys_dset_notin d k v : k ∉ dkeys d -> dkeys (dset d k v) = dkeys d ++ [k].
Proof. intros H. rewrite dset_fresh by done. unfold dkeys. by rewrite fmap_app. Qed.

Lemma elem_dkeys_dset d k k' v : k' ∈ dkeys (dset d k v) <-> k' = k \/ k' ∈ dkeys d.
Proof.
  destruct (decide (k ∈ dkeys d)) as [H|H].
  - rewrite dkeys_dset_in by done. naive_solver.
  - rewrite dkeys_dset_notin by done. set_solver.
Qed.

Lemma NoDup_dkeys_dset d k v : NoDup (dkeys d) -> NoDup (dkeys (dset d k v)).
Proof.
  intros Hn. destruct (decide (k ∈ dkeys d)) as [H|H].
  - by rewrite dkeys_dset_in.
  - rewrite dkeys_dset_notin by done. apply NoDup_app. split_and!; [done| |apply NoDup_singleton].
    set_solver.
Qed.

Lemma dkeys_dpop_sublist d k : sublist (dkeys (dpop d k)) (dkeys d).
Proof.
  unfold dkeys. induction d as [|[k2 v2] r IH]; simpl; [constructor|].
  case_decide; simpl; by constructor.
Qed.

Lemma NoDup_dkeys_dpop d k : NoDup (dkeys d) -> NoDup (dkeys (dpop d k)).
Proof. intros H. eapply sublist_NoDup; [done|apply dkeys_dpop_sublist]. Qed.

Lemma dget_dpop_eq d k : NoDup (dkeys d) -> dget (dpop d k) k = None.
Proof.
  unfold dkeys. induction d as [|[k2 v2] r IH]; simpl; [done|].
  intros [Hx Hn]%NoDup_cons. case_decide; subst; simpl.
  - by apply dget_None.
  - case_decide; [done|]. by apply IH.
Qed.

Lemma dget_dpop d k k' :
  NoDup (dkeys d) -> dget (dpop d k) k' = if decide (k' = k) then None else dget d k'.
Proof. intros. case_decide; subst; [by apply dget_dpop_eq | by apply dget_dpop_ne]. Qed.

Lemma dget_elem_NoDup d k v : NoDup (dkeys d) -> (k, v) ∈ d -> dget d k = Some v.
Proof.
  unfold dkeys. induction d as [|[k2 v2] r IH]; simpl; [set_solver|].
  intros [Hx Hn]%NoDup_cons [?|Hin]%elem_of_cons; simplify_eq; [by rewrite decide_True|].
  rewrite decide_False; [by apply IH|]. intros ->. apply Hx, list_elem_of_fmap. by exists (k2, v).
Qed.

Lemma dset_same_get d k v : dget d k = Some v -> dset d k v = d.
Proof.
  induction d as [|[k2 v2] r IH]; simpl; [done|]. case_decide; intros; simplify_eq/=; [done|].
  f_equal. auto.
Qed.
End Dict.

(** Values of a dictionary, in order ([d.values()]). *)
Definition dvalues {A} (d : odict A) : list A := d.*2.

(** ** Positions in a list *)

(** [l.index(x)]: the first position of [x]; the caller knows it occurs. *)
Fixpoint index_of (x : pystr) (l : list pystr) : nat :=
  match l with
  | [] => 0%nat
  | y :: r => if decide (x = y) then 0%nat else S (index_of x r)
  end.

Lemma index_of_lookup x (l : list pystr) : x ∈ l -> l !! index_of x l = Some x.
Proof.
  induction l as [|y r IH]; simpl; [set_solver|]. rewrite elem_of_cons.
  case_decide; subst; [done|]. intros [?|?]; [done|]. by apply IH.
Qed.

Lemma index_of_lt x (l : list pystr) : x ∈ l -> (index_of x l < length l)%nat.
Proof. intros H. eapply lookup_lt_Some. by apply index_of_lookup. Qed.

(** ** Results: the laws the components use *)

Lemma mapR_Ok {A B} (f : A -> res B) l bs :
  mapR f l = Ok bs <-> Forall2 (fun a b => f a = Ok b) l bs.
Proof.
  revert bs. induction l as [|a r IH]; intros bs; simpl.
  - split; intros H; [simplify_eq; constructor|by inversion H].
  - destruct (f a) as [b|e] eqn:E.
    + destruct (mapR f r) as [bs'|e].
      * split; intros H.
        -- simplify_eq. constructor; [done|]. by apply IH.
        -- inversion H as [|? b' ? bs2 H1 H2]; subst. apply IH in H2. congruence.
      * split; intros H; [done|]. inversion H as [|? b' ? bs2 H1 H2]; subst.
        apply IH in H2. done.
    + split; intros H; [done|]. inversion H; congruence.
Qed.

Lemma mapR_ext {A B} (f g : A -> res B) l :
  Forall (fun a => f a = g a) l -> mapR f l = mapR g l.
Proof. induction 1 as [|a r E _ IH]; simpl; [done|]. by rewrite E, IH. Qed.

Lemma mapR_length {A B} (f : A -> res B) l bs : mapR f l = Ok bs -> length bs = length l.
Proof. intros H%mapR_Ok. symmetry. by eapply Forall2_length. Qed.

Lemma mapR_app {A B} (f : A -> res B) l1 l2 :
  mapR f (l1 ++ l2) =
  match mapR f l1 with
  | Ok b1 => match mapR f l2 with Ok b2 => Ok (b1 ++ b2) | Raise e => Raise e end
  | Raise e => Raise e
  end.
Proof.
  induction l1 as [|a r IH]; simpl; [by destruct (mapR f l2)|]. destruct (f a); [|done].
  rewrite IH. destruct (mapR f r); [|done]. by destruct (mapR f l2).
Qed.

Lemma filterR_ext {A} (p q : A -> res bool) l :
  Forall (fun a => p a = q a) l -> filterR p l = filterR q l.
Proof. induction 1 as [|a r E _ IH]; simpl; [done|]. by rewrite E, IH. Qed.

Lemma filterR_sublist {A} (p : A -> res bool) l l' : filterR p l = Ok l' -> sublist l' l.
Proof.
  revert l'. induction l as [|a r IH]; intros l'; simpl; intros H; simplify_eq; [constructor|].
  destruct (p a) as [b|]; [|done]. destruct (filterR p r) as [bs|] eqn:E; [|done].
  simplify_eq. destruct b; constructor; by apply IH.
Qed.

Lemma filterR_Ok_elem {A} (p : A -> res bool) l l' x :
  filterR p l = Ok l' -> x ∈ l' <-> x ∈ l /\ p x = Ok true.
Proof.
  revert l'. induction l as [|a r IH]; intros l'; simpl; intros H; simplify_eq; [set_solver|].
  destruct (p a) as [b|] eqn:Ep; [|done]. destruct (filterR p r) as [bs|] eqn:E; [|done].
  simplify_eq. specialize (IH _ eq_refl). rewrite elem_of_cons.
  destruct b; rewrite ?elem_of_cons, IH; naive_solver congruence.
Qed.

Lemma foldM_app {A S} (f : S -> A -> res S) s l1 l2 :
  foldM f s (l1 ++ l2) = match foldM f s l1 with Ok s' => foldM f s' l2 | Raise e => Raise e end.
Proof. revert s. induction l1 as [|a r IH]; intros s; simpl; [done|]. destruct (f s a); auto. Qed.

(** An invariant of the body is an invariant of the loop. *)
Lemma foldM_ind {A S} (P : S -> Prop) (f : S -> A -> res S) l s s' :
  (forall s a s', a ∈ l -> P s -> f s a = Ok s' -> P s') ->
  P s -> foldM f s l = Ok s' -> P s'.
Proof.
  revert s. induction l as [|a r IH]; intros s Hstep HP H; simpl in H; simplify_eq; [done|].
  destruct (f s a) as [s1|] eqn:E; [|done].
  eapply IH; [| |done]; [|eapply Hstep; [|done|done]; set_solver].
  intros; eapply Hstep; [|done|done]; set_solver.
Qed.

(** ** Propositions *)

(** Two conjunctions that agree under their shared first part. *)
Lemma and_iff_compat_l_iff (P Q R : Prop) : (P -> (Q <-> R)) -> (P /\ Q <-> P /\ R).
Proof. tauto. Qed.

(** ** Tactics *)

(** Case analysis on the results and options a definition inspects. *)
Ltac res_cases :=
  repeat match goal with
  | H : context [match ?x with Ok _ => _ | Raise _ => _ end] |- _ =>
      let E := fresh "E" in destruct x eqn:E; simplify_eq/=
  | |- context [match ?x with Ok _ => _ | Raise _ => _ end] =>
      let E := fresh "E" in destruct x eqn:E; simplify_eq/=
  end.

(** Closed goals about literals, decided by computation. *)
Ltac by_compute := solve [vm_compute; first [done | congruence | reflexivity]].

Create HintDb dict.
#[export] Hint Resolve NoDup_dkeys_dset NoDup_dkeys_dpop dget_dset_eq : dict.
#[export] Hint Rewrite @dget_dset_eq str_eqb_refl : dict.
