(* ===== verification/PyStr.v ===== *)
(** * Python string operations the source uses

    [str] methods ([split] with a maximum of one cut, [startswith],
    [endswith], [strip], slicing, [in], [join]), decimal digits, and
    [str]/[int] on integers.  Everything is over code points. *)

From S2P Require Import Prelude.

(** ** Searching and cutting *)

Fixpoint prefixb (p s : pystr) : bool :=
  match p, s with
  | [], _ => true
  | a :: p', b :: s' => if decide (a = b) then prefixb p' s' else false
  | _ :: _, [] => false
  end.

(** [s.startswith(p)], [s.endswith(p)] *)
Definition startswith (s p : pystr) : bool := prefixb p s.
Definition endswith (s p : pystr) : bool := prefixb (reverse p) (reverse s).

(** [s.split(sep, 1)] when [sep] occurs: what is before and after the first
    occurrence; [None] when it does not occur. *)
Fixpoint cut (sep s : pystr) : option (pystr * pystr) :=
  if prefixb sep s then Some ([], drop (length sep) s)
  else match s with
       | [] => None
       | c :: r => match cut sep r with Some (a, b) => Some (c :: a, b) | None => None end
       end.

(** [needle in hay] *)
Definition str_in (needle hay : pystr) : bool :=
  match cut needle hay with Some _ => true | None => false end.

(** [s.split(sep)[0]]: everything before the first [sep]. *)
Definition before (sep s : pystr) : pystr :=
  match cut sep s with Some (a, _) => a | None => s end.

(** [s.split(sep)] for a one-character separator. *)
Fixpoint split_char (c : N) (s : pystr) : list pystr :=
  match s with
  | [] => [[]]
  | a :: r =>
      if decide (a = c) then [] :: split_char c r
      else match split_char c r with
           | [] => [[a]]
           | w :: ws => (a :: w) :: ws
           end
  end.

(** [sep.join(parts)] *)
Fixpoint join (sep : pystr) (parts : list pystr) : pystr :=
  match parts with
  | [] => []
  | [p] => p
  | p :: r => p ++ sep ++ join sep r
  end.

(** [s.replace(c, w)] for a one-character pattern. *)
Definition replace_char (c : N) (w s : pystr) : pystr :=
  concat (map (fun a => if decide (a = c) then w else [a]) s).

(** ** Whitespace *)

(** The code points [str.isspace] accepts, which are those [str.strip]
    removes. *)
Definition is_space (c : N) : bool :=
  bool_decide (c ∈ ([9; 10; 11; 12; 13; 28; 29; 30; 31; 32; 133; 160; 5760; 8192; 8193; 8194;
    8195; 8196; 8197; 8198; 8199; 8200; 8201; 8202; 8232; 8233; 8239; 8287; 12288]%N)).

Fixpoint lstrip (s : pystr) : pystr :=
  match s with
  | c :: r => if is_space c then lstrip r else s
  | [] => []
  end.

Definition strip (s : pystr) : pystr := reverse (lstrip (reverse (lstrip s))).

(** ** Slicing *)

(** A slice bound, clamped the way [text[i:j]] clamps it. *)
Definition clamp_index (len i : Z) : Z :=
  if i <? 0 then Z.max 0 (len + i) else Z.min i len.

Definition slice (s : pystr) (i : Z) (j : option Z) : pystr :=
  let len := Z.of_nat (length s) in
  let a := clamp_index len i in
  let b := match j with Some j => clamp_index len j | None => len end in
  take (Z.to_nat (b - a)) (drop (Z.to_nat a) s).

(** ** Decimal digits *)

(** The zeros of Unicode's decimal digit ranges (category Nd): [\d] in a
    regular expression, [int()] and [float()] accept them all. *)
Definition nd_zeros : list N :=
  [48; 1632; 1776; 1984; 2406; 2534; 2662; 2790; 2918; 3046; 3174; 3302; 3430; 3558; 3664; 3792;
   3872; 4160; 4240; 6112; 6160; 6470; 6608; 6784; 6800; 6992; 7088; 7232; 7248; 42528; 43216;
   43264; 43472; 43504; 43600; 44016; 65296; 66720; 68912; 69734; 69872; 69942; 70096; 70384;
   70736; 70864; 71248; 71360; 71472; 71904; 72016; 72784; 73040; 73120; 73552; 92768; 92864;
   93008; 120782; 120792; 120802; 120812; 120822; 123200; 123632; 124144; 125264; 130032]%N.

(** The value of a decimal digit, [None] for any other character. *)
Definition digit_val (c : N) : option N :=
  match list_find (fun z => (z <= c < z + 10)%N) nd_zeros with
  | Some (_, z) => Some (c - z)%N
  | None => None
  end.

Definition is_digit (c : N) : bool := bool_decide (is_Some (digit_val c)).

(** Characters [str.isdigit] accepts beyond the decimal ones (superscripts,
    circled digits): ranges of code points. *)
Definition other_digits : list (N * N) :=
  [(178, 179); (185, 185); (4969, 4977); (6618, 6618); (8304, 8304); (8308, 8313); (8320, 8329);
   (9312, 9320); (9332, 9340); (9352, 9360); (9450, 9450); (9461, 9469); (9471, 9471);
   (10102, 10110); (10112, 10120); (10122, 10130); (68160, 68163); (69216, 69224);
   (69714, 69722); (127232, 127242)]%N.

(** [s.isdigit()] *)
Definition isdigit (s : pystr) : bool :=
  match s with
  | [] => false
  | _ => forallb (fun c => is_digit c ||
                   existsb (fun r => bool_decide (r.1 <= c <= r.2)%N) other_digits) s
  end.

(** A nonempty run of decimal digits, [\d+]. *)
Definition all_digits (s : pystr) : bool :=
  match s with [] => false | _ => forallb is_digit s end.

(** ASCII digits only, as the C parser of [date.fromisoformat] reads them. *)
Definition ascii_digit (c : N) : option N :=
  if bool_decide (48 <= c <= 57)%N then Some (c - 48)%N else None.

(** ** [str(n)] and [int(text)] *)

Fixpoint dec_rev (fuel : nat) (n : N) : pystr :=
  match fuel with
  | O => []
  | S f => (48 + n mod 10)%N :: (if (n <? 10)%N then [] else dec_rev f (n / 10)%N)
  end.

(** The decimal digits of a natural number; a bit of fuel per binary digit is
    always enough ([str_N_spec]). *)
Definition str_N (n : N) : pystr := reverse (dec_rev (S (N.size_nat n)) n).

Definition str_Z (z : Z) : pystr :=
  if z <? 0 then ("-" : pystr) ++ str_N (Z.to_N (- z)) else str_N (Z.to_N z).

Definition str_nat (n : nat) : pystr := str_N (N.of_nat n).

(** The number a digit string denotes. *)
Definition digits_val (s : pystr) : N :=
  fold_left (fun acc c => (10 * acc + default 0 (digit_val c))%N) s 0%N.

(** Single underscores between digits are allowed in [int()] and [float()]
    text; [strip_underscores] removes them, [None] when one is misplaced.
    [prev] says whether the previous character was a digit. *)
Fixpoint strip_underscores (prev : bool) (s : pystr) : option pystr :=
  match s with
  | [] => Some []
  | c :: r =>
      if bool_decide (c = 95%N) then
        match r with
        | d :: _ => if prev && is_digit d then strip_underscores false r else None
        | [] => None
        end
      else match strip_underscores (is_digit c) r with
           | Some t => Some (c :: t)
           | None => None
           end
  end.

(** An optional sign: [(negative, rest)]. *)
Definition read_sign (s : pystr) : bool * pystr :=
  match s with
  | c :: r => if bool_decide (c = 45%N) then (true, r)
              else if bool_decide (c = 43%N) then (false, r) else (false, s)
  | [] => (false, [])
  end.

(** [int(text)]; [None] is the [ValueError]. *)
Definition parse_int (s : pystr) : option Z :=
  let '(neg, r) := read_sign (strip s) in
  match strip_underscores false r with
  | Some t => if all_digits t
              then Some (let v := Z.of_N (digits_val t) in if neg then - v else v)
              else None
  | None => None
  end.

(** ** Lemmas *)

Lemma prefixb_app p s : prefixb p (p ++ s) = true.
Proof. induction p as [|a p IH]; simpl; [by destruct s|]. by case_decide. Qed.

Lemma prefixb_spec p s : prefixb p s = true <-> exists t, s = p ++ t.
Proof.
  split.
  - revert s. induction p as [|a p IH]; intros s; simpl; [by eauto|].
    destruct s as [|b s]; [done|]. case_decide; subst; [|done].
    intros (t & ->)%IH. by exists t.
  - intros (t & ->). apply prefixb_app.
Qed.

Lemma cut_Some sep s a b : cut sep s = Some (a, b) -> s = a ++ sep ++ b.
Proof.
  revert a b. induction s as [|c r IH]; intros a b; simpl.
  - destruct sep; simpl; [|done]. intros; simplify_eq/=. done.
  - destruct (prefixb sep (c :: r)) eqn:E.
    + intros; simplify_eq. apply prefixb_spec in E as (t & E). rewrite E.
      by rewrite drop_app_length.
    + destruct (cut sep r) as [[a' b']|] eqn:E'; [|done]. intros; simplify_eq/=.
      f_equal. by apply IH.
Qed.

(** No occurrence of a one-character separator in the first part. *)
Lemma cut_char (c : N) a b : c ∉ a -> cut [c] (a ++ c :: b) = Some (a, b).
Proof.
  induction a as [|x a IH]; simpl; intros H.
  - rewrite decide_True by done. done.
  - apply not_elem_of_cons in H as [Hne H]. rewrite decide_False by congruence.
    rewrite IH by done. done.
Qed.

Lemma cut_char_None (c : N) s : c ∉ s -> cut [c] s = None.
Proof.
  induction s as [|x s IH]; simpl; intros H; [done|].
  apply not_elem_of_cons in H as [Hne H]. rewrite decide_False by congruence.
  by rewrite IH.
Qed.

(** Cutting passes over text without the separator's first character. *)
Lemma cut_skip (c : N) sep a t :
  c ∉ a -> cut (c :: sep) (a ++ t) =
           match cut (c :: sep) t with Some (x, y) => Some (a ++ x, y) | None => None end.
Proof.
  induction a as [|x a IH]; intros H; cbn [app].
  - destruct (cut (c :: sep) t) as [[]|]; done.
  - apply not_elem_of_cons in H as [Hne H]. cbn [cut prefixb]. rewrite decide_False by congruence.
    rewrite IH by done. destruct (cut (c :: sep) t) as [[]|]; done.
Qed.

Lemma cut_char_absent (c : N) sep s : c ∉ s -> cut (c :: sep) s = None.
Proof. intros H. rewrite <- (app_nil_r s), cut_skip by done. done. Qed.

(** The first occurrence of a two-character separator, when its first
    character does not occur before it. *)
Lemma cut_two (c d : N) a b : c ∉ a -> cut [c; d] (a ++ c :: d :: b) = Some (a, b).
Proof.
  induction a as [|x a IH]; simpl; intros H.
  - rewrite !decide_True by done. done.
  - apply not_elem_of_cons in H as [Hne H]. rewrite decide_False by congruence.
    rewrite IH by done. done.
Qed.

Lemma cut_two_None (c d : N) s : c ∉ s -> cut [c; d] s = None.
Proof.
  induction s as [|x s IH]; simpl; intros H; [done|].
  apply not_elem_of_cons in H as [Hne H]. rewrite decide_False by congruence.
  by rewrite IH.
Qed.

Lemma digit_val_ascii (n : N) : (n < 10)%N -> digit_val (48 + n) = Some n.
Proof.
  intros H.
  assert (n ∈ ([0;1;2;3;4;5;6;7;8;9]%N)) as Hin.
  { rewrite !elem_of_cons. lia. }
  repeat (apply elem_of_cons in Hin as [->|Hin]; [by vm_compute|]). by apply not_elem_of_nil in Hin.
Qed.

Lemma digits_val_app s t :
  digits_val (s ++ t) =
  fold_left (fun acc c => (10 * acc + default 0 (digit_val c))%N) t (digits_val s).
Proof. unfold digits_val. by rewrite fold_left_app. Qed.

Lemma dec_rev_spec fuel n :
  (n < 2 ^ N.of_nat fuel)%N -> (0 < fuel)%nat ->
  digits_val (reverse (dec_rev fuel n)) = n /\ Forall (fun c => 48 <= c < 58)%N (dec_rev fuel n)
  /\ dec_rev fuel n <> [].
Proof.
  revert n. induction fuel as [|f IH]; intros n Hn Hf; [lia|]. simpl dec_rev.
  assert (n mod 10 < 10)%N as Hm by (apply N.mod_lt; lia).
  assert (48 <= 48 + n mod 10 < 58)%N as Hr by (clear - Hm; lia).
  rewrite reverse_cons, digits_val_app. simpl.
  rewrite digit_val_ascii by done. simpl default.
  destruct (N.ltb_spec n 10) as [Hlt|Hge].
  - split_and!; [|constructor; [exact Hr|constructor]|done].
    rewrite N.mod_small by lia. unfold digits_val; simpl. lia.
  - assert (n / 10 < 2 ^ N.of_nat f)%N as Hd.
    { apply N.Div0.div_lt_upper_bound.
      rewrite Nat2N.inj_succ, N.pow_succ_r' in Hn. lia. }
    destruct f as [|f].
    { simpl in Hd. assert (1 <= n / 10)%N; [|lia]. apply N.div_le_lower_bound; lia. }
    destruct (IH _ Hd) as (E1 & E2 & E3); [lia|].
    split_and!; [|by constructor|done].
    rewrite E1. pose proof (N.div_mod n 10). lia.
Qed.

Lemma size_nat_size (p : positive) : N.of_nat (Pos.size_nat p) = N.pos (Pos.size p).
Proof. induction p as [p IH|p IH|]; simpl Pos.size_nat; simpl Pos.size; lia. Qed.

Lemma size_nat_bound n : (n < 2 ^ N.of_nat (S (N.size_nat n)))%N.
Proof.
  destruct n as [|p]; [done|]. pose proof (N.size_gt (N.pos p)) as H.
  rewrite Nat2N.inj_succ, N.pow_succ_r'. simpl N.size_nat. rewrite size_nat_size. simpl N.size in H.
  lia.
Qed.

(** [str] of a natural number is a nonempty string of ASCII digits that
    reads back as the number. *)
Lemma str_N_spec n :
  digits_val (str_N n) = n /\ Forall (fun c => 48 <= c < 58)%N (str_N n) /\ str_N n <> [].
Proof.
  unfold str_N. destruct (dec_rev_spec (S (N.size_nat n)) n) as (E1 & E2 & E3);
    [apply size_nat_bound|lia|].
  split_and!; [done| |].
  - by apply Forall_reverse.
  - intros H. apply E3. apply (f_equal reverse) in H. by rewrite reverse_involutive in H.
Qed.

Lemma str_N_inj m n : str_N m = str_N n -> m = n.
Proof. intros H. by rewrite <- (proj1 (str_N_spec m)), H, (proj1 (str_N_spec n)). Qed.

Lemma str_nat_inj m n : str_nat m = str_nat n -> m = n.
Proof. intros H%str_N_inj. lia. Qed.

Lemma is_digit_ascii c : (48 <= c < 58)%N -> is_digit c = true.
Proof.
  intros H. unfold is_digit. apply bool_decide_eq_true.
  replace c with (48 + (c - 48))%N by lia. rewrite digit_val_ascii by lia. by eauto.
Qed.

Lemma all_digits_str_N n : all_digits (str_N n) = true.
Proof.
  destruct (str_N_spec n) as (_ & H & Hne). unfold all_digits.
  destruct (str_N n) as [|c s]; [done|]. apply forallb_forall. intros x Hx%list_elem_of_In.
  rewrite Forall_forall in H. by apply is_digit_ascii, H.
Qed.

(** No digit string produced by [str] holds a bracket or a dot. *)
Lemma str_N_no_char n c : (c < 48 \/ 58 <= c)%N -> c ∉ str_N n.
Proof.
  intros Hc Hin. destruct (str_N_spec n) as (_ & H & _).
  rewrite Forall_forall in H. specialize (H _ Hin). simpl in H. lia.
Qed.
