(* ===== verification/PyNum.v ===== *)
(** * Python numbers

    [int] is [Z].  [float] is IEEE 754 binary64, as [spec_float] with
    precision 53 and exponent bound 1024: every operation below is the
    correctly rounded one, computed on exact integers.  What CPython computes
    by a C library call ([sin], [cos], ...) is not here; see Expression.v. *)

From S2P Require Import Prelude PyStr.
From Stdlib Require Export Floats.SpecFloat.

Abbreviation pyfloat := spec_float (only parsing).

Inductive num :=
| NInt (z : Z)
| NFloat (f : pyfloat).

(** ** Conversions *)

(** [float(n)] before its overflow check. *)
Definition float_of_Z (z : Z) : pyfloat := binary_normalize 53 1024 z 0 false.

Definition is_inf (f : pyfloat) : bool := match f with S754_infinity _ => true | _ => false end.
Definition is_nan (f : pyfloat) : bool := match f with S754_nan => true | _ => false end.

(** [float(n)]: [OverflowError] when the integer is too large. *)
Definition float_of_int (z : Z) : res pyfloat :=
  let f := float_of_Z z in if is_inf f then Raise OverflowError else Ok f.

(** The correctly rounded quotient of two integers, [d > 0]; [s] is the sign
    of a zero result. *)
Definition float_ratio (s : bool) (n d : Z) : pyfloat :=
  match n with
  | Z0 => S754_zero s
  | Zpos p => let '(m, e, l) := SFdiv_core_binary 53 1024 (Zpos p) 0 d 0 in
              binary_round_aux 53 1024 false m e l
  | Zneg p => let '(m, e, l) := SFdiv_core_binary 53 1024 (Zpos p) 0 d 0 in
              binary_round_aux 53 1024 true m e l
  end.

(** The exact value of a finite float as [m * 2^e]. *)
Definition float_me (f : pyfloat) : option (Z * Z) :=
  match f with
  | S754_zero _ => Some (0, 0)
  | S754_finite s m e => Some (if s then Zneg m else Zpos m, e)
  | _ => None
  end.

Definition floor_me (m e : Z) : Z := if 0 <=? e then m * 2 ^ e else m / 2 ^ (- e).
Definition trunc_me (m e : Z) : Z := if 0 <=? e then m * 2 ^ e else Z.quot m (2 ^ (- e)).

(** An integer of a float: [OverflowError] on an infinity, [ValueError] on
    NaN. *)
Definition int_of_float (round : Z -> Z -> Z) (f : pyfloat) : res Z :=
  match f with
  | S754_infinity _ => Raise OverflowError
  | S754_nan => Raise ValueError
  | S754_zero _ => Ok 0
  | S754_finite s m e => Ok (round (if s then Zneg m else Zpos m) e)
  end.

(** [int(x)], [math.floor(x)], [math.ceil(x)] of a float *)
Definition float_trunc : pyfloat -> res Z := int_of_float trunc_me.
Definition float_floor : pyfloat -> res Z := int_of_float floor_me.
Definition float_ceil : pyfloat -> res Z := int_of_float (fun m e => - floor_me (- m) e).

(** [x.is_integer()] *)
Definition float_is_integer (f : pyfloat) : bool :=
  match float_me f with
  | Some (m, e) => (0 <=? e) || (m mod 2 ^ (- e) =? 0)
  | None => false
  end.

(** The largest integral float not above a finite one, as [floor()] of the C
    library returns it (a zero keeps its sign). *)
Definition float_floor_f (f : pyfloat) : pyfloat :=
  match f with
  | S754_finite s m e => binary_normalize 53 1024 (floor_me (if s then Zneg m else Zpos m) e) 0 s
  | _ => f
  end.

(** ** Comparison

    Exact, across [int] and [float]; NaN compares with nothing. *)

Definition cmp_me (m1 e1 m2 e2 : Z) : comparison :=
  let e := Z.min e1 e2 in Z.compare (m1 * 2 ^ (e1 - e)) (m2 * 2 ^ (e2 - e)).

Definition num_cmp (a b : num) : option comparison :=
  match a, b with
  | NInt x, NInt y => Some (Z.compare x y)
  | NInt x, NFloat f =>
      match f with
      | S754_nan => None
      | S754_infinity s => Some (if s then Gt else Lt)
      | _ => match float_me f with Some (m, e) => Some (cmp_me x 0 m e) | None => None end
      end
  | NFloat f, NInt y =>
      match f with
      | S754_nan => None
      | S754_infinity s => Some (if s then Lt else Gt)
      | _ => match float_me f with Some (m, e) => Some (cmp_me m e y 0) | None => None end
      end
  | NFloat f, NFloat g => SFcompare f g
  end.

Definition num_eqb (a b : num) : bool :=
  match num_cmp a b with Some Eq => true | _ => false end.
Definition num_ltb (a b : num) : bool :=
  match num_cmp a b with Some Lt => true | _ => false end.
Definition num_leb (a b : num) : bool :=
  match num_cmp a b with Some Lt | Some Eq => true | _ => false end.

(** ** Arithmetic *)

Definition fadd := SFadd 53 1024.
Definition fsub := SFsub 53 1024.
Definition fmul := SFmul 53 1024.
Definition fdiv := SFdiv 53 1024.
Definition fsqrt := SFsqrt 53 1024.

(** Both operands as floats, for a mixed operation. *)
Definition as_float (a : num) : res pyfloat :=
  match a with NInt z => float_of_int z | NFloat f => Ok f end.

Definition num_op (zop : Z -> Z -> Z) (fop : pyfloat -> pyfloat -> pyfloat) (a b : num) : res num :=
  match a, b with
  | NInt x, NInt y => Ok (NInt (zop x y))
  | _, _ => x ← as_float a; y ← as_float b; Ok (NFloat (fop x y))
  end.

Definition num_add := num_op Z.add fadd.
Definition num_sub := num_op Z.sub fsub.
Definition num_mul := num_op Z.mul fmul.

Definition num_neg (a : num) : num :=
  match a with NInt z => NInt (- z) | NFloat f => NFloat (SFopp f) end.

(** The sign bit of a float, as [copysign] reads it. *)
Definition float_sign (f : pyfloat) : bool :=
  match f with
  | S754_zero s | S754_infinity s | S754_finite s _ _ => s
  | S754_nan => false
  end.

(** [fmod(x, y)] of the C library, for [y <> 0]: exact, with the sign of [x]. *)
Definition fmod (x y : pyfloat) : pyfloat :=
  match x, y with
  | S754_nan, _ | _, S754_nan | S754_infinity _, _ => S754_nan
  | _, S754_infinity _ => x
  | _, _ =>
      match float_me x, float_me y with
      | Some (mx, ex), Some (my, ey) =>
          let e := Z.min ex ey in
          binary_normalize 53 1024 (Z.rem (mx * 2 ^ (ex - e)) (my * 2 ^ (ey - e))) e (float_sign x)
      | _, _ => S754_nan
      end
  end.

Definition fzero (f : pyfloat) : bool := match f with S754_zero _ => true | _ => false end.
Definition fneg (f : pyfloat) : bool := match SFcompare f (S754_zero false) with Some Lt => true | _ => false end.

(** [x % y] of floats (CPython's [float_rem]). *)
Definition float_mod (x y : pyfloat) : pyfloat :=
  let m := fmod x y in
  if fzero m then S754_zero (float_sign y)
  else if eqb (fneg y) (fneg m) then m else fadd m y.

(** [x // y] of floats (CPython's [_float_div_mod]). *)
Definition float_floordiv (x y : pyfloat) : pyfloat :=
  let m := fmod x y in
  let d := fdiv (fsub x m) y in
  let d := if fzero m then d
           else if eqb (fneg y) (fneg m) then d else fsub d (float_of_Z 1) in
  if fzero d then S754_zero (float_sign (fdiv x y))
  else let fl := float_floor_f d in
       match SFcompare (fsub d fl) (float_ratio false 1 2) with
       | Some Gt => fadd fl (float_of_Z 1)
       | _ => fl
       end.

(** [a % b] and [a // b], for [b <> 0] *)
Definition num_mod := num_op Z.modulo float_mod.
Definition num_floordiv := num_op Z.div float_floordiv.

(** [a / b], for [b <> 0]; two integers divide exactly and round once. *)
Definition num_truediv (a b : num) : res pyfloat :=
  match a, b with
  | NInt x, NInt y =>
      let f := if y <? 0 then float_ratio (negb (x <? 0)) (- x) (- y)
               else float_ratio (x <? 0) x y in
      if is_inf f then Raise OverflowError else Ok f
  | _, _ => x ← as_float a; y ← as_float b; Ok (fdiv x y)
  end.

(** [int(a)] of a number *)
Definition num_trunc (a : num) : res Z :=
  match a with NInt z => Ok z | NFloat f => float_trunc f end.

(** ** [float(text)] *)

(** A run of decimal digits and what follows it. *)
Fixpoint span_digits (s : pystr) : pystr * pystr :=
  match s with
  | c :: r => if is_digit c then let '(d, t) := span_digits r in (c :: d, t) else ([], s)
  | [] => ([], [])
  end.

Definition ascii_lower (c : N) : N := if bool_decide (65 <= c <= 90)%N then (c + 32)%N else c.

(** [digits * 10^exp], rounded once. *)
Definition float_of_decimal (s : bool) (digits exp : Z) : pyfloat :=
  let f := if 0 <=? exp then float_ratio false (digits * 10 ^ exp) 1
           else float_ratio false digits (10 ^ (- exp)) in
  if s then SFopp f else f.

(** The exponent part: [Some 0] when there is none. *)
Definition read_exponent (s : pystr) : option Z :=
  match s with
  | [] => Some 0
  | c :: r =>
      if bool_decide (ascii_lower c = 101%N) then
        let '(neg, t) := read_sign r in
        if all_digits t then Some (let v := Z.of_N (digits_val t) in if neg then - v else v)
        else None
      else None
  end.

(** [float(text)] on text already stripped of surrounding whitespace;
    [None] is the [ValueError]. *)
Definition parse_float (text : pystr) : option pyfloat :=
  match strip_underscores false text with
  | None => None
  | Some t =>
      let '(neg, r) := read_sign t in
      let word := map ascii_lower r in
      if str_eqb word "inf" || str_eqb word "infinity" then Some (S754_infinity neg)
      else if str_eqb word "nan" then Some S754_nan
      else
        let '(whole, r1) := span_digits r in
        let '(frac, r2) := match r1 with
                           | c :: r' => if bool_decide (c = 46%N) then span_digits r' else ([], r1)
                           | [] => ([], [])
                           end in
        match whole ++ frac with
        | [] => None
        | digits =>
            match read_exponent r2 with
            | Some e => Some (float_of_decimal neg (Z.of_N (digits_val digits))
                                (e - Z.of_nat (length frac)))
            | None => None
            end
        end
  end.

(** ** [repr(x)] of a float: the shortest digits that read back *)

(** The decimal exponent [k] with [10^(k-1) <= n/d < 10^k]. *)
Fixpoint decpt_up (fuel : nat) (n d k : Z) : Z :=
  match fuel with
  | O => k
  | S f => if n <? d * 10 ^ k then k else decpt_up f n d (k + 1)
  end.
Fixpoint decpt_down (fuel : nat) (n d k : Z) : Z :=
  match fuel with
  | O => k
  | S f => if n * 10 ^ (- k + 1) <? d then decpt_down f n d (k - 1) else k
  end.

Definition decpt (n d : Z) : Z :=
  if d <=? n then decpt_up 400 n d 1 else decpt_down 400 n d 0.

(** [n/d] to [p] significant digits: the two neighbouring candidates that
    read back as [f], nearest first. *)
Definition shortest_at (f : pyfloat) (n d k : Z) (p : nat) : option (Z * Z) :=
  let e := k - Z.of_nat p in
  let '(nn, dd) := if 0 <=? e then (n, d * 10 ^ e) else (n * 10 ^ (- e), d) in
  let lo := nn / dd in
  let r := nn mod dd in
  let reads c := match SFcompare (float_of_decimal false c e) f with Some Eq => true | _ => false end in
  let up_first := (dd <? 2 * r) || ((2 * r =? dd) && Z.odd lo) in
  let c1 := if up_first then lo + 1 else lo in
  let c2 := if up_first then lo else lo + 1 in
  if reads c1 then Some (c1, e)
  else if negb (r =? 0) && reads c2 then Some (c2, e) else None.

Fixpoint shortest_from (f : pyfloat) (n d k : Z) (p : nat) (left : nat) : Z * Z :=
  match shortest_at f n d k p, left with
  | Some c, _ => c
  | None, S left' => shortest_from f n d k (S p) left'
  | None, O => (0, 0)
  end.

(** Trailing zeros of the digits moved into the exponent. *)
Fixpoint strip_zeros (fuel : nat) (c e : Z) : Z * Z :=
  match fuel with
  | S f => if (c mod 10 =? 0) && negb (c =? 0) then strip_zeros f (c / 10) (e + 1) else (c, e)
  | O => (c, e)
  end.

(** Digits and the position of the decimal point of a positive finite float. *)
Definition shortest_digits (m : positive) (e : Z) : pystr * Z :=
  let f := S754_finite false m e in
  let '(n, d) := if 0 <=? e then (Zpos m * 2 ^ e, 1) else (Zpos m, 2 ^ (- e)) in
  let '(c, x) := shortest_from f n d (decpt n d) 1 17 in
  let '(c, x) := strip_zeros 20 c x in
  let ds := str_Z c in
  (ds, Z.of_nat (length ds) + x).

Definition zeros (n : Z) : pystr := replicate (Z.to_nat n) 48%N.

(** Python's float formatting: positional for [-4 < decpt <= 16]. *)
Definition format_digits (ds : pystr) (dp : Z) : pystr :=
  let len := Z.of_nat (length ds) in
  if (-4 <? dp) && (dp <=? 16) then
    if dp <=? 0 then ("0." : pystr) ++ zeros (- dp) ++ ds
    else if len <=? dp then ds ++ zeros (dp - len) ++ (".0" : pystr)
    else take (Z.to_nat dp) ds ++ ("." : pystr) ++ drop (Z.to_nat dp) ds
  else
    let x := dp - 1 in
    let mant := take 1 ds ++ (if 1 <? len then ("." : pystr) ++ drop 1 ds else []) in
    let digits := str_Z (Z.abs x) in
    mant ++ ("e" : pystr) ++ (if x <? 0 then "-" : pystr else "+" : pystr)
      ++ (if Z.abs x <? 10 then ("0" : pystr) ++ digits else digits).

(** [repr(x)], which is also [str(x)] *)
Definition float_repr (f : pyfloat) : pystr :=
  match f with
  | S754_nan => "nan"
  | S754_infinity s => if s then "-inf" else "inf"
  | S754_zero s => if s then "-0.0" else "0.0"
  | S754_finite s m e =>
      let '(ds, dp) := shortest_digits m e in
      (if s then ("-" : pystr) else []) ++ format_digits ds dp
  end.

(** [round(x, 3)] of a float: the exact value rounded half to even at the
    third decimal, then to the nearest float. *)
Definition float_round3 (f : pyfloat) : pyfloat :=
  match f with
  | S754_finite s m e =>
      let '(n, d) := if 0 <=? e then (Zpos m * 2 ^ e * 1000, 1) else (Zpos m * 1000, 2 ^ (- e)) in
      let lo := n / d in
      let r := n mod d in
      let c := if (d <? 2 * r) || ((2 * r =? d) && Z.odd lo) then lo + 1 else lo in
      let g := float_ratio false c 1000 in
      if s then SFopp g else g
  | _ => f
  end.

(** ** Lemmas *)

Lemma num_cmp_int x y : num_cmp (NInt x) (NInt y) = Some (Z.compare x y).
Proof. done. Qed.

Lemma num_eqb_int x y : num_eqb (NInt x) (NInt y) = (x =? y).
Proof.
  unfold num_eqb. simpl. destruct (Z.compare_spec x y); subst; symmetry;
    rewrite ?Z.eqb_refl, ?Z.eqb_neq; lia.
Qed.

Lemma num_ltb_int x y : num_ltb (NInt x) (NInt y) = (x <? y).
Proof.
  unfold num_ltb. simpl. destruct (Z.compare_spec x y); subst; symmetry;
    rewrite ?Z.ltb_lt, ?Z.ltb_ge; lia.
Qed.

Lemma num_leb_int x y : num_leb (NInt x) (NInt y) = (x <=? y).
Proof.
  unfold num_leb. simpl. destruct (Z.compare_spec x y); subst; symmetry;
    rewrite ?Z.leb_le, ?Z.leb_gt; lia.
Qed.

(** Two finite values compare equal one way iff they do the other. *)
Lemma cmp_me_swap m1 e1 m2 e2 : cmp_me m1 e1 m2 e2 = CompOpp (cmp_me m2 e2 m1 e1).
Proof. unfold cmp_me. rewrite (Z.min_comm e1 e2). by rewrite Z.compare_antisym. Qed.

Lemma SFcompare_swap f g :
  SFcompare f g = option_map CompOpp (SFcompare g f).
Proof.
  destruct f as [[]|[]| |[] m1 e1], g as [[]|[]| |[] m2 e2]; simpl; try done.
  all: rewrite (Z.compare_antisym e2 e1); destruct (e2 ?= e1); simpl; try done.
  all: rewrite ?(Pos.compare_cont_antisym); simpl; try done.
Qed.

Lemma num_cmp_swap a b : num_cmp a b = option_map CompOpp (num_cmp b a).
Proof.
  destruct a as [x|f], b as [y|g]; simpl; try apply SFcompare_swap.
  - by rewrite (Z.compare_antisym y x).
  - destruct g as [[]|[]| |[] m e]; simpl; try done; by rewrite cmp_me_swap.
  - destruct f as [[]|[]| |[] m e]; simpl; try done; by rewrite cmp_me_swap.
Qed.

Lemma num_eqb_sym a b : num_eqb a b = num_eqb b a.
Proof. unfold num_eqb. rewrite num_cmp_swap. by destruct (num_cmp b a) as [[]|]. Qed.

Lemma num_leb_swap a b : num_ltb a b = true -> num_leb b a = false.
Proof. unfold num_ltb, num_leb. rewrite (num_cmp_swap b a). by destruct (num_cmp a b) as [[]|]. Qed.

Create HintDb pynum.
#[export] Hint Rewrite num_eqb_int num_ltb_int num_leb_int : pynum.
