(* ===== verification/PyDate.v ===== *)
(** * [datetime.date], as far as the source uses it

    The proleptic Gregorian calendar of the standard library: ordinals,
    [isoformat], [fromisoformat] (with the ISO week forms and the trailing
    characters CPython's C parser leaves unread), subtraction and the
    addition of days. *)

From S2P Require Import Prelude PyStr.

Record date := Date { year : Z; month : Z; day : Z }.

#[global] Instance date_eq_dec : EqDecision date.
Proof. solve_decision. Defined.

Definition MAXYEAR : Z := 9999.
Definition MAXORDINAL : Z := 3652059.

Definition is_leap (y : Z) : bool :=
  (y mod 4 =? 0) && (negb (y mod 100 =? 0) || (y mod 400 =? 0)).

(** Days in the months before month [m] of a common year. *)
Definition days_before_month_common (m : Z) : Z :=
  match m with
  | 2 => 31 | 3 => 59 | 4 => 90 | 5 => 120 | 6 => 151 | 7 => 181 | 8 => 212
  | 9 => 243 | 10 => 273 | 11 => 304 | 12 => 334 | _ => 0
  end.

Definition days_in_month (y m : Z) : Z :=
  match m with
  | 2 => if is_leap y then 29 else 28
  | 4 | 6 | 9 | 11 => 30
  | _ => 31
  end.

Definition valid_date (d : date) : bool :=
  (1 <=? year d) && (year d <=? MAXYEAR) && (1 <=? month d) && (month d <=? 12)
  && (1 <=? day d) && (day d <=? days_in_month (year d) (month d)).

(** ** Ordinals *)

Definition days_before_year (y : Z) : Z :=
  let y := y - 1 in y * 365 + y / 4 - y / 100 + y / 400.

Definition days_before_month (y m : Z) : Z :=
  days_before_month_common m + (if (2 <? m) && is_leap y then 1 else 0).

(** [date.toordinal()] *)
Definition toordinal (d : date) : Z :=
  days_before_year (year d) + days_before_month (year d) (month d) + day d.

(** The month and day of the [n]th day of a year, from 0: an estimate of the
    month, corrected when it is one too high. *)
Definition month_of (leap : bool) (n : Z) : Z * Z :=
  let m := Z.shiftr (n + 50) 5 in
  let preceding := days_before_month_common m + (if (2 <? m) && leap then 1 else 0) in
  if n <? preceding then
    let m := m - 1 in
    let dim := match m with 2 => if leap then 29 else 28 | 4 | 6 | 9 | 11 => 30 | _ => 31 end in
    (m, n - (preceding - dim) + 1)
  else (m, n - preceding + 1).

(** [date.fromordinal(n)], for [1 <= n <= MAXORDINAL] *)
Definition fromordinal (n : Z) : date :=
  let n := n - 1 in
  let n400 := n / 146097 in let n := n mod 146097 in
  let n100 := n / 36524 in let n := n mod 36524 in
  let n4 := n / 1461 in let n := n mod 1461 in
  let n1 := n / 365 in let n := n mod 365 in
  let y := n400 * 400 + 1 + n100 * 100 + n4 * 4 + n1 in
  if (n1 =? 4) || (n100 =? 4) then Date (y - 1) 12 31
  else
    let leap := (n1 =? 3) && (negb (n4 =? 24) || (n100 =? 3)) in
    let '(m, d) := month_of leap n in Date y m d.

(** [d + timedelta(days=n)]; [None] is the [OverflowError]. *)
Definition date_plus (d : date) (n : Z) : option date :=
  let o := toordinal d + n in
  if (1 <=? o) && (o <=? MAXORDINAL) then Some (fromordinal o) else None.

(** [(a - b).days] *)
Definition date_minus (a b : date) : Z := toordinal a - toordinal b.

(** ** Text *)

Definition pad2 (n : Z) : pystr := [48 + Z.to_N (n / 10 mod 10); 48 + Z.to_N (n mod 10)]%N.
Definition pad4 (n : Z) : pystr :=
  [48 + Z.to_N (n / 1000 mod 10); 48 + Z.to_N (n / 100 mod 10)]%N ++ pad2 n.

(** [date.isoformat()] *)
Definition isoformat (d : date) : pystr :=
  pad4 (year d) ++ ("-" : pystr) ++ pad2 (month d) ++ ("-" : pystr) ++ pad2 (day d).

(** [n] ASCII digits at the front of the text. *)
Fixpoint read_digits (n : nat) (acc : Z) (s : pystr) : option (Z * pystr) :=
  match n with
  | O => Some (acc, s)
  | S n' => match s with
            | c :: r => match ascii_digit c with
                        | Some v => read_digits n' (10 * acc + Z.of_N v) r
                        | None => None
                        end
            | [] => None
            end
  end.

(** One expected character. *)
Definition read_char (c : N) (s : pystr) : option pystr :=
  match s with d :: r => if decide (c = d) then Some r else None | [] => None end.

Definition weekday (d : date) : Z := (toordinal d + 6) mod 7.

(** The ordinal of the Monday of ISO week 1. *)
Definition iso_week1_monday (y : Z) : Z :=
  let first := toordinal (Date y 1 1) in
  let wd := (first + 6) mod 7 in
  first - wd + (if 3 <? wd then 7 else 0).

Definition iso_to_date (y w d : Z) : option date :=
  if (y <? 1) || (MAXYEAR <? y) then None else
  let long := let wd := weekday (Date y 1 1) in (wd =? 3) || ((wd =? 2) && is_leap y) in
  if ((w <=? 0) || (53 <=? w)) && negb ((w =? 53) && long) then None else
  if (d <=? 0) || (8 <=? d) then None else
  Some (fromordinal (iso_week1_monday y + (w - 1) * 7 + d - 1)).

(** [date.fromisoformat(text)]; [None] is the [ValueError].  The parser
    checks the length first and does not look at what follows the day, so a
    ten-character text without separators keeps two unread characters. *)
Definition fromisoformat (text : pystr) : option date :=
  let len := length text in
  if negb ((len =? 7)%nat || (len =? 8)%nat || (len =? 10)%nat) then None else
  match read_digits 4 0 text with
  | None => None
  | Some (y, r) =>
      let '(sep, r) := match read_char 45 r with Some r' => (true, r') | None => (false, r) end in
      let found :=
        match read_char 87 r with
        | Some r =>
            match read_digits 2 0 r with
            | None => None
            | Some (w, []) => iso_to_date y w 1
            | Some (w, r) =>
                match (if sep then read_char 45 r else Some r) with
                | None => None
                | Some r => match read_digits 1 0 r with
                            | Some (d, _) => iso_to_date y w d
                            | None => None
                            end
                end
            end
        | None =>
            match read_digits 2 0 r with
            | None => None
            | Some (m, r) =>
                match (if sep then read_char 45 r else Some r) with
                | None => None
                | Some r => match read_digits 2 0 r with
                            | Some (d, _) => Some (Date y m d)
                            | None => None
                            end
                end
            end
        end in
      match found with
      | Some d => if valid_date d then Some d else None
      | None => None
      end
  end.

(** ** Lemmas *)

(** [p] holds of the [2^k] integers from [lo] on. *)
Fixpoint all_range (lo : Z) (k : nat) (p : Z -> bool) : bool :=
  match k with
  | O => p lo
  | S j => all_range lo j p && all_range (lo + 2 ^ Z.of_nat j) j p
  end.

(** [p] holds of every integer of [0, n). *)
Definition all_below (k : nat) (n : Z) (p : Z -> bool) : bool :=
  all_range 0 k (fun z => (n <=? z) || p z).

Lemma all_range_spec lo k p z :
  all_range lo k p = true -> lo <= z < lo + 2 ^ Z.of_nat k -> p z = true.
Proof.
  revert lo. induction k as [|j IH]; intros lo; cbn [all_range]; intros H Hz.
  - change (2 ^ Z.of_nat 0) with 1 in Hz. by replace z with lo by lia.
  - apply andb_true_iff in H as [H1 H2].
    rewrite Nat2Z.inj_succ, Z.pow_succ_r in Hz by lia.
    destruct (decide (z < lo + 2 ^ Z.of_nat j)); [apply (IH lo)|apply (IH (lo + 2 ^ Z.of_nat j))];
      solve [done | lia].
Qed.

Lemma all_below_spec k n p z :
  all_below k n p = true -> (n <=? 2 ^ Z.of_nat k) = true -> 0 <= z < n -> p z = true.
Proof.
  intros H Hk%Z.leb_le Hz. unfold all_below in H. apply (all_range_spec _ _ _ z) in H; [|lia].
  apply orb_true_iff in H as [H%Z.leb_le|H]; [lia|done].
Qed.

(** The month arithmetic, checked on every day of a year. *)
Definition dim (leap : bool) (m : Z) : Z :=
  match m with 2 => if leap then 29 else 28 | 4 | 6 | 9 | 11 => 30 | _ => 31 end.
Definition dbm (leap : bool) (m : Z) : Z :=
  days_before_month_common m + (if (2 <? m) && leap then 1 else 0).

Definition month_ok (leap : bool) (n : Z) : bool :=
  (negb leap && (365 <=? n)) ||
  let '(m, d) := month_of leap n in
  (1 <=? m) && (m <=? 12) && (1 <=? d) && (d <=? dim leap m) && (dbm leap m + d =? n + 1).

Lemma month_of_spec (leap : bool) n :
  0 <= n < (if leap then 366 else 365) ->
  let '(m, d) := month_of leap n in
  1 <= m <= 12 /\ 1 <= d <= dim leap m /\ dbm leap m + d = n + 1.
Proof.
  intros Hn.
  assert (all_below 9 366 (fun z => month_ok true z && month_ok false z) = true) as Hall
    by (vm_compute; reflexivity).
  apply (all_below_spec _ _ _ n) in Hall; [|done|destruct leap; lia].
  apply andb_true_iff in Hall as [Ht Hf].
  assert (month_ok leap n = true) as H by (by destruct leap). clear Ht Hf.
  unfold month_ok in H. apply orb_true_iff in H as [H|H].
  - apply andb_true_iff in H as [?%negb_true_iff ?%Z.leb_le]; subst; lia.
  - destruct (month_of leap n) as [m d]. rewrite !andb_true_iff, !Z.leb_le, Z.eqb_eq in H. lia.
Qed.

Lemma dim_days_in_month y m : days_in_month y m = dim (is_leap y) m.
Proof. done. Qed.

Lemma is_leap_decomp a b c d :
  0 <= b <= 3 -> 0 <= c <= 24 -> 0 <= d <= 3 ->
  is_leap (a * 400 + 1 + b * 100 + c * 4 + d) = (d =? 3) && (negb (c =? 24) || (b =? 3)).
Proof.
  intros Hb Hc Hd. unfold is_leap.
  set (y := a * 400 + 1 + b * 100 + c * 4 + d).
  assert (y mod 4 = (1 + d) mod 4) as -> by (unfold y; Z.div_mod_to_equations; lia).
  assert (y mod 100 = (1 + c * 4 + d) mod 100) as -> by (unfold y; Z.div_mod_to_equations; lia).
  assert (y mod 400 = (1 + b * 100 + c * 4 + d) mod 400) as ->
    by (unfold y; Z.div_mod_to_equations; lia).
  destruct (Z.eqb_spec ((1 + d) mod 4) 0), (Z.eqb_spec ((1 + c * 4 + d) mod 100) 0),
    (Z.eqb_spec ((1 + b * 100 + c * 4 + d) mod 400) 0), (Z.eqb_spec d 3), (Z.eqb_spec c 24),
    (Z.eqb_spec b 3); simpl; try done; exfalso; Z.div_mod_to_equations; lia.
Qed.

Lemma days_before_year_decomp a b c d :
  0 <= b <= 3 -> 0 <= c <= 24 -> 0 <= d <= 3 ->
  days_before_year (a * 400 + 1 + b * 100 + c * 4 + d) = a * 146097 + b * 36524 + c * 1461 + d * 365.
Proof. intros. unfold days_before_year. Z.div_mod_to_equations. lia. Qed.

(** [fromordinal] yields a calendar date whose ordinal is the given one. *)
Lemma fromordinal_spec n :
  let d := fromordinal n in
  toordinal d = n /\ 1 <= month d <= 12 /\ 1 <= day d <= days_in_month (year d) (month d).
Proof.
  unfold fromordinal. cbv zeta.
  set (a := (n - 1) / 146097). set (r1 := (n - 1) mod 146097).
  set (b := r1 / 36524). set (r2 := r1 mod 36524).
  set (c := r2 / 1461). set (r3 := r2 mod 1461).
  set (d := r3 / 365). set (r4 := r3 mod 365).
  assert (n = 146097 * a + 36524 * b + 1461 * c + 365 * d + r4 + 1 /\ 0 <= b <= 4 /\ 0 <= c <= 24
    /\ 0 <= d <= 4 /\ 0 <= r4 < 365 /\ (b = 4 -> c = 0 /\ d = 0 /\ r4 = 0)
    /\ (d = 4 -> r4 = 0) /\ (d = 4 -> c = 24 -> b = 4 \/ b = 3)) as H.
  { unfold r4, d, r3, c, r2, b, r1, a. Z.div_mod_to_equations. lia. }
  clearbody a r1 b r2 c r3 d r4.
  destruct (Z.eqb_spec d 4) as [Ed|Ed]; [|destruct (Z.eqb_spec b 4) as [Eb|Eb]]; simpl.
  - assert (a * 400 + 1 + b * 100 + c * 4 + d - 1 = a * 400 + 1 + b * 100 + c * 4 + 3) as -> by lia.
    assert (b <= 3) by lia.
    unfold toordinal, days_before_month; simpl. rewrite days_before_year_decomp by lia.
    rewrite is_leap_decomp by lia.
    destruct (Z.eqb_spec c 24), (Z.eqb_spec b 3); simpl; lia.
  - assert (a * 400 + 1 + b * 100 + c * 4 + d - 1 = a * 400 + 1 + 3 * 100 + 24 * 4 + 3) as -> by lia.
    unfold toordinal, days_before_month; simpl. rewrite days_before_year_decomp by lia.
    rewrite is_leap_decomp by lia. simpl. lia.
  - set (leap := (d =? 3) && (negb (c =? 24) || (b =? 3))).
    pose proof (month_of_spec leap r4) as Hm.
    destruct (month_of leap r4) as [m dd]; simpl.
    rewrite dim_days_in_month, is_leap_decomp by lia. fold leap.
    destruct Hm as (H1 & H2 & H3); [destruct leap; lia|].
    unfold toordinal, days_before_month; simpl.
    rewrite days_before_year_decomp, is_leap_decomp by lia. fold leap.
    unfold dbm in H3. lia.
Qed.

Lemma to_from_ordinal n : toordinal (fromordinal n) = n.
Proof. apply fromordinal_spec. Qed.

Lemma days_before_year_succ y : days_before_year (y + 1) = days_before_year y + 365 + (if is_leap y then 1 else 0).
Proof.
  unfold days_before_year, is_leap. replace (y + 1 - 1) with y by lia.
  destruct (Z.eqb_spec (y mod 4) 0), (Z.eqb_spec (y mod 100) 0), (Z.eqb_spec (y mod 400) 0); simpl;
    Z.div_mod_to_equations; lia.
Qed.

Lemma days_before_year_mono y y' : y <= y' -> days_before_year y <= days_before_year y'.
Proof. intros. unfold days_before_year. Z.div_mod_to_equations. lia. Qed.

(** The day of the year is between 1 and the length of the year. *)
Lemma day_of_year y m d :
  1 <= m <= 12 -> 1 <= d <= days_in_month y m ->
  1 <= days_before_month y m + d <= 365 + (if is_leap y then 1 else 0).
Proof.
  intros Hm Hd. rewrite dim_days_in_month in Hd. unfold days_before_month.
  assert (m ∈ [1;2;3;4;5;6;7;8;9;10;11;12]) as Hin by (rewrite !elem_of_cons; lia).
  repeat (apply elem_of_cons in Hin as [->|Hin]; [simpl in *; destruct (is_leap y); simpl in *; lia|]).
  by apply not_elem_of_nil in Hin.
Qed.

Lemma month_day_inj leap m d m' d' :
  1 <= m <= 12 -> 1 <= m' <= 12 -> 1 <= d <= dim leap m -> 1 <= d' <= dim leap m' ->
  dbm leap m + d = dbm leap m' + d' -> m = m' /\ d = d'.
Proof.
  intros Hm Hm' Hd Hd' H. enough (m = m') by (subst; lia).
  assert (m ∈ [1;2;3;4;5;6;7;8;9;10;11;12]) as Hin by (rewrite !elem_of_cons; lia).
  assert (m' ∈ [1;2;3;4;5;6;7;8;9;10;11;12]) as Hin' by (rewrite !elem_of_cons; lia).
  unfold dbm in H. clear Hm Hm'.
  repeat (apply elem_of_cons in Hin as [->|Hin]; [
    repeat (apply elem_of_cons in Hin' as [->|Hin']; [simpl in *; destruct leap; simpl in *; lia|]);
    by apply not_elem_of_nil in Hin'|]).
  by apply not_elem_of_nil in Hin.
Qed.

(** Two calendar dates with one ordinal are one date. *)
Lemma toordinal_inj d d' :
  1 <= month d <= 12 -> 1 <= day d <= days_in_month (year d) (month d) ->
  1 <= month d' <= 12 -> 1 <= day d' <= days_in_month (year d') (month d') ->
  toordinal d = toordinal d' -> d = d'.
Proof.
  destruct d as [y m d], d' as [y' m' d']; unfold toordinal; simpl. intros Hm Hd Hm' Hd' H.
  pose proof (day_of_year y m d Hm Hd). pose proof (day_of_year y' m' d' Hm' Hd').
  assert (y = y') as ->.
  { destruct (Z.lt_trichotomy y y') as [Hlt|[?|Hlt]]; [|done|];
      [pose proof (days_before_year_mono (y + 1) y')|pose proof (days_before_year_mono (y' + 1) y)];
      rewrite days_before_year_succ in *; lia. }
  destruct (month_day_inj (is_leap y') m d m' d') as [-> ->]; try done.
  unfold dbm, days_before_month in *. lia.
Qed.

Lemma from_to_ordinal d : valid_date d = true -> fromordinal (toordinal d) = d.
Proof.
  unfold valid_date. rewrite !andb_true_iff, !Z.leb_le. intros H.
  destruct (fromordinal_spec (toordinal d)) as (H1 & H2 & H3).
  apply toordinal_inj; auto; lia.
Qed.

Lemma fromordinal_valid n : 1 <= n <= MAXORDINAL -> valid_date (fromordinal n) = true.
Proof.
  intros Hn. destruct (fromordinal_spec n) as (H1 & H2 & H3).
  unfold valid_date. rewrite !andb_true_iff, !Z.leb_le.
  pose proof (day_of_year _ _ _ H2 H3) as Hd. unfold toordinal in H1. unfold MAXORDINAL in Hn.
  assert (1 <= year (fromordinal n)).
  { destruct (Z.le_gt_cases 1 (year (fromordinal n))) as [|Hlt]; [done|].
    pose proof (days_before_year_mono (year (fromordinal n) + 1) 1 ltac:(lia)) as Hy.
    rewrite days_before_year_succ in Hy. change (days_before_year 1) with 0 in Hy. lia. }
  assert (year (fromordinal n) <= MAXYEAR).
  { destruct (Z.le_gt_cases (year (fromordinal n)) MAXYEAR) as [|Hlt]; [done|]. unfold MAXYEAR in *.
    pose proof (days_before_year_mono 10000 (year (fromordinal n)) ltac:(lia)) as Hy.
    change (days_before_year 10000) with 3652059 in Hy. lia. }
  lia.
Qed.

Lemma valid_ordinal d : valid_date d = true -> 1 <= toordinal d <= MAXORDINAL.
Proof.
  unfold valid_date. rewrite !andb_true_iff, !Z.leb_le. intros H.
  pose proof (day_of_year (year d) (month d) (day d) ltac:(lia) ltac:(lia)) as Hd. unfold toordinal, MAXORDINAL, MAXYEAR in *.
  pose proof (days_before_year_mono 1 (year d) ltac:(lia)) as Hlo.
  pose proof (days_before_year_mono (year d + 1) 10000 ltac:(lia)) as Hhi.
  rewrite days_before_year_succ in Hhi. change (days_before_year 1) with 0 in Hlo.
  change (days_before_year 10000) with 3652059 in Hhi. lia.
Qed.

Lemma ascii_digit_to_N z : 0 <= z < 10 -> ascii_digit (48 + Z.to_N z) = Some (Z.to_N z).
Proof.
  intros H. unfold ascii_digit. rewrite bool_decide_eq_true_2 by lia. f_equal. lia.
Qed.

Lemma read_pad2 n acc r : 0 <= n < 100 -> read_digits 2 acc (pad2 n ++ r) = Some (100 * acc + n, r).
Proof.
  intros H. unfold pad2. simpl.
  rewrite ascii_digit_to_N by (apply Z.mod_pos_bound; lia).
  rewrite ascii_digit_to_N by (apply Z.mod_pos_bound; lia).
  rewrite !Z2N.id by (apply Z.mod_pos_bound; lia).
  match goal with |- Some (?x, _) = Some (?y, _) => enough (x = y) as -> by done end.
  rewrite (Z.mod_small (n / 10)) by (split; [apply Z.div_pos|apply Z.div_lt_upper_bound]; lia).
  pose proof (Z.div_mod n 10). lia.
Qed.

Lemma read_pad4 n r : 0 <= n < 10000 -> read_digits 4 0 (pad4 n ++ r) = Some (n, r).
Proof.
  intros H. unfold pad4. change (read_digits 4 0 ?s) with (read_digits (2 + 2) 0 s). simpl.
  rewrite !ascii_digit_to_N by (apply Z.mod_pos_bound; lia).
  rewrite !Z2N.id by (apply Z.mod_pos_bound; lia).
  match goal with |- Some (?x, _) = Some (?y, _) => enough (x = y) as -> by done end.
  assert (n / 100 = n / 10 / 10) as -> by (rewrite Z.div_div by lia; done).
  assert (n / 1000 = n / 10 / 10 / 10) as -> by (rewrite !Z.div_div by lia; done).
  pose proof (Z.div_mod n 10). pose proof (Z.div_mod (n / 10) 10).
  pose proof (Z.div_mod (n / 10 / 10) 10).
  rewrite (Z.mod_small (n / 10 / 10 / 10)); [lia|].
  rewrite !Z.div_div by lia. split; [apply Z.div_pos|apply Z.div_lt_upper_bound]; lia.
Qed.

(** Reading back what [isoformat] writes. *)
Lemma fromisoformat_isoformat d : valid_date d = true -> fromisoformat (isoformat d) = Some d.
Proof.
  intros Hv. pose proof Hv as H.
  unfold valid_date in H. rewrite !andb_true_iff, !Z.leb_le in H.
  assert (days_in_month (year d) (month d) <= 31) by (unfold days_in_month; repeat case_match; lia).
  unfold fromisoformat, isoformat. unfold MAXYEAR in H. change (lit "-") with [45%N].
  replace (length _) with 10%nat by reflexivity. simpl negb. cbv iota.
  rewrite read_pad4 by lia. cbn [app]. unfold read_char at 1. rewrite decide_True by done.
  assert (read_char 87 (pad2 (month d) ++ 45%N :: pad2 (day d)) = None) as Hw.
  { unfold read_char, pad2; simpl. rewrite decide_False; [done|].
    pose proof (Z.mod_pos_bound (month d / 10) 10). lia. }
  rewrite Hw, read_pad2 by lia. unfold read_char. rewrite decide_True by done.
  pose proof (read_pad2 (day d) 0 []) as Hd. rewrite app_nil_r in Hd. rewrite Hd by lia.
  rewrite !Z.mul_0_r, !Z.add_0_l. destruct d; simpl in *. by rewrite Hv.
Qed.

Lemma fromisoformat_valid s d : fromisoformat s = Some d -> valid_date d = true.
Proof.
  unfold fromisoformat. destruct (negb _); [done|].
  destruct (read_digits 4 0 s) as [[y r]|]; [|done].
  match goal with |- context [let '(_, _) := ?x in _] => destruct x as [sep r'] end.
  intros H. repeat case_match; simplify_eq; done.
Qed.

Create HintDb pydate.
#[export] Hint Resolve fromisoformat_valid fromordinal_valid : pydate.
