(* ===== verification/Value.v ===== *)
(** * Runtime values: what a JSON document and an answer hold

    Answers, literals and documents are the values [json.loads] produces.
    Dates are text (the engine's date functions read and write ISO text), so
    no other Python type reaches the evaluator. *)

From S2P Require Import Prelude PyStr PyNum.

Inductive value :=
| VNone
| VBool (b : bool)
| VInt (z : Z)
| VFloat (f : pyfloat)
| VStr (s : pystr)
| VList (l : list value)
| VDict (d : list (pystr * value)).

Section ValueInd.
Variable P : value -> Prop.
Hypothesis HNone : P VNone.
Hypothesis HBool : forall b, P (VBool b).
Hypothesis HInt : forall z, P (VInt z).
Hypothesis HFloat : forall f, P (VFloat f).
Hypothesis HStr : forall s, P (VStr s).
Hypothesis HList : forall l, Forall P l -> P (VList l).
Hypothesis HDict : forall d, Forall (fun kv => P kv.2) d -> P (VDict d).

Fixpoint value_ind' (v : value) : P v :=
  match v with
  | VNone => HNone
  | VBool b => HBool b
  | VInt z => HInt z
  | VFloat f => HFloat f
  | VStr s => HStr s
  | VList l =>
      HList l ((fix go l : Forall P l :=
                  match l with
                  | [] => Forall_nil_2 P
                  | x :: r => Forall_cons_2 P x r (value_ind' x) (go r)
                  end) l)
  | VDict d =>
      HDict d ((fix go (d : list (pystr * value)) : Forall (fun kv => P kv.2) d :=
                  match d with
                  | [] => Forall_nil_2 _
                  | kv :: r => Forall_cons_2 (fun kv => P kv.2) kv r (value_ind' kv.2) (go r)
                  end) d)
  end.
End ValueInd.

(** ** Type tests *)

Definition is_null (v : value) : bool := match v with VNone => true | _ => false end.
Definition is_bool (v : value) : bool := match v with VBool _ => true | _ => false end.
Definition is_str (v : value) : bool := match v with VStr _ => true | _ => false end.
Definition is_list (v : value) : bool := match v with VList _ => true | _ => false end.
Definition is_dict (v : value) : bool := match v with VDict _ => true | _ => false end.

(** [type(v)], as a number *)
Definition type_tag (v : value) : nat :=
  match v with
  | VNone => 0 | VBool _ => 1 | VInt _ => 2 | VFloat _ => 3 | VStr _ => 4
  | VList _ => 5 | VDict _ => 6
  end%nat.

(** A number, counting a boolean as one: [isinstance(v, int | float)]. *)
Definition as_num (v : value) : option num :=
  match v with
  | VBool b => Some (NInt (if b then 1 else 0))
  | VInt z => Some (NInt z)
  | VFloat f => Some (NFloat f)
  | _ => None
  end.

Definition of_num (n : num) : value :=
  match n with NInt z => VInt z | NFloat f => VFloat f end.

(** ** [a == b] *)

Fixpoint py_eq (a b : value) {struct a} : bool :=
  match a, b with
  | VNone, VNone => true
  | VStr s, VStr t => str_eqb s t
  | VList l, VList m =>
      (fix go (l m : list value) : bool :=
         match l, m with
         | [], [] => true
         | x :: l', y :: m' => py_eq x y && go l' m'
         | _, _ => false
         end) l m
  | VDict d, VDict d' =>
      (length d =? length d')%nat &&
      (fix go (d : list (pystr * value)) : bool :=
         match d with
         | [] => true
         | (k, x) :: r => match dget d' k with Some y => py_eq x y && go r | None => false end
         end) d
  | VBool _, (VBool _ | VInt _ | VFloat _) | VInt _, (VBool _ | VInt _ | VFloat _)
  | VFloat _, (VBool _ | VInt _ | VFloat _) =>
      match as_num a, as_num b with Some x, Some y => num_eqb x y | _, _ => false end
  | _, _ => false
  end.

(** ** Truthiness, as [if not v] reads it *)

Definition truthy (v : value) : bool :=
  match v with
  | VNone => false
  | VBool b => b
  | VInt z => negb (z =? 0)
  | VFloat f => negb (fzero f)
  | VStr s => negb (bool_decide (s = []))
  | VList l => negb (bool_decide (length l = 0%nat))
  | VDict d => negb (bool_decide (length d = 0%nat))
  end.

(** ** Dictionary access *)

(** [d.get(k)]: a missing key and a null one read the same. *)
Definition vget (d : list (pystr * value)) (k : pystr) : value := default VNone (dget d k).

(** [v.get(k)] where the code has established that [v] is a mapping. *)
Definition vfield (v : value) (k : pystr) : value :=
  match v with VDict d => vget d k | _ => VNone end.

(** The elements of a list, [v or []] for an absent one. *)
Definition vlist (v : value) : list value := match v with VList l => l | _ => [] end.
Definition vdict (v : value) : list (pystr * value) := match v with VDict d => d | _ => [] end.

(** [int(v)] *)
Definition py_int (v : value) : res Z :=
  match v with
  | VBool b => Ok (if b then 1 else 0)
  | VInt z => Ok z
  | VFloat f => float_trunc f
  | VStr s => of_option ValueError (parse_int s)
  | VNone | VList _ | VDict _ => Raise TypeError
  end.

(** A value a Python set may hold. *)
Definition hashable (v : value) : bool := match v with VList _ | VDict _ => false | _ => true end.

(** [x in xs] for a list or a set of hashable values *)
Definition value_in (x : value) (xs : list value) : bool := existsb (fun y => py_eq y x) xs.

(** ** Lemmas *)
