(* ===== verification/Expr.v ===== *)
(** * Expression nodes (Form IR 4.1) and what can be read off them statically

    The document's JSON nodes, decoded once: a node keeps the operator and
    the decoded arguments, and a node the evaluator would choke on keeps the
    way it does.  [collect_refs] and the two walks behind [is_static] are
    those of form_engine/expression.py, and [paths_of] is runtime.py's
    [_paths]. *)

From S2P Require Import Prelude PyStr PyNum Value.

Inductive operator :=
| OpIf | OpAnd | OpOr | OpNot | OpNeg | OpDiv | OpIdiv
| OpAdd | OpSub | OpMul | OpMod | OpEq | OpNe | OpLt | OpLte | OpGt | OpGte
| OpSelected | OpIn.

#[global] Instance operator_eq_dec : EqDecision operator.
Proof. solve_decision. Defined.

Inductive expr :=
| ELit (v : value)
| ERef (path : pystr)
| EOp (op : operator) (args : list expr)
| ECall (fn : pystr) (args : list expr)
| EUnknown (op : pystr) (args : list expr)   (* an operator the engine does not have *)
| EMissing (args : list expr)                (* a key the operator reads is absent *)
| ENoOp (args : list expr)                   (* an object with no [op] *)
| ENotDict.                                  (* not an object at all *)

Section ExprInd.
Variable P : expr -> Prop.
Hypothesis HLit : forall v, P (ELit v).
Hypothesis HRef : forall p, P (ERef p).
Hypothesis HOp : forall op args, Forall P args -> P (EOp op args).
Hypothesis HCall : forall fn args, Forall P args -> P (ECall fn args).
Hypothesis HUnknown : forall op args, Forall P args -> P (EUnknown op args).
Hypothesis HMissing : forall args, Forall P args -> P (EMissing args).
Hypothesis HNoOp : forall args, Forall P args -> P (ENoOp args).
Hypothesis HNotDict : P ENotDict.

Fixpoint expr_ind' (e : expr) : P e :=
  let go := fix go l : Forall P l :=
    match l with
    | [] => Forall_nil_2 P
    | x :: r => Forall_cons_2 P x r (expr_ind' x) (go r)
    end in
  match e with
  | ELit v => HLit v
  | ERef p => HRef p
  | EOp op args => HOp op args (go args)
  | ECall fn args => HCall fn args (go args)
  | EUnknown op args => HUnknown op args (go args)
  | EMissing args => HMissing args (go args)
  | ENoOp args => HNoOp args (go args)
  | ENotDict => HNotDict
  end.
End ExprInd.

(** ** Decoding *)

Definition operators : odict operator :=
  [(lit "if", OpIf); (lit "and", OpAnd); (lit "or", OpOr); (lit "not", OpNot); (lit "neg", OpNeg);
   (lit "div", OpDiv); (lit "idiv", OpIdiv); (lit "add", OpAdd); (lit "sub", OpSub);
   (lit "mul", OpMul); (lit "mod", OpMod); (lit "eq", OpEq); (lit "ne", OpNe); (lit "lt", OpLt);
   (lit "lte", OpLte); (lit "gt", OpGt); (lit "gte", OpGte); (lit "selected", OpSelected);
   (lit "in", OpIn)].

(** One node, its arguments already decoded; [None] when it has no list of
    arguments. *)
Definition decode_node (d : list (pystr * value)) (args : option (list expr)) : expr :=
  let given := default [] args in
  match dget d "op" with
  | None => ENoOp given
  | Some (VStr op) =>
      if str_eqb op "lit" then
        match dget d "value" with Some v => ELit v | None => EMissing given end
      else if str_eqb op "ref" then
        match dget d "path" with Some (VStr p) => ERef p | _ => EMissing given end
      else if str_eqb op "call" then
        match dget d "fn" with Some (VStr f) => ECall f given | _ => EMissing given end
      else match dget operators op with
           | Some o => match args with Some a => EOp o a | None => EMissing [] end
           | None => EUnknown op given
           end
  | Some _ => EUnknown [] given
  end.

Fixpoint expr_of (v : value) : expr :=
  match v with
  | VDict d =>
      decode_node d
        ((fix look (d : list (pystr * value)) : option (list expr) :=
            match d with
            | [] => None
            | (k, x) :: r =>
                if decide (k = lit "args")
                then match x with VList l => Some (map expr_of l) | _ => None end
                else look r
            end) d)
  | _ => ENotDict
  end.

(** The arguments of a node ([expr.get("args") or []]). *)
Definition expr_args (e : expr) : list expr :=
  match e with
  | EOp _ a | ECall _ a | EUnknown _ a | EMissing a | ENoOp a => a
  | ELit _ | ERef _ | ENotDict => []
  end.

(** [isinstance(expr, dict)] *)
Definition is_node (e : expr) : bool := match e with ENotDict => false | _ => true end.

(** ** References *)

(** [members[].age], [members[0].age] and [members[.].age] all read [age]. *)
Definition field_part (path : pystr) : pystr :=
  match cut "]." path with Some (_, f) => f | None => path end.

Definition off_form (path : pystr) : bool :=
  startswith path "$row." || startswith path "_metadata.".

Fixpoint collect_refs (e : expr) : gset pystr :=
  match e with
  | ERef path => if off_form path then ∅ else {[ field_part path ]}
  | EOp _ a | ECall _ a | EUnknown _ a | EMissing a | ENoOp a => ⋃ (map collect_refs a)
  | ELit _ | ENotDict => ∅
  end.

(** Any [ref] at all, the [$row.] ones included. *)
Fixpoint paths_any (e : expr) : bool :=
  match e with
  | ERef _ => true
  | EOp _ a | ECall _ a | EUnknown _ a | EMissing a | ENoOp a => existsb paths_any a
  | ELit _ | ENotDict => false
  end.

Fixpoint calls_clock (e : expr) : bool :=
  match e with
  | ECall f a => str_eqb f "today" || str_eqb f "now" || existsb calls_clock a
  | EOp _ a | EUnknown _ a | EMissing a | ENoOp a => existsb calls_clock a
  | ELit _ | ERef _ | ENotDict => false
  end.

(** 10.3: decidable without answers and without a clock. *)
Definition is_static (e : expr) : bool :=
  is_node e && bool_decide (collect_refs e = ∅) && negb (paths_any e) && negb (calls_clock e).

(** Every path of the expression, runtime.py's [_paths]. *)
Fixpoint paths_of (e : expr) : gset pystr :=
  match e with
  | ERef path => {[ path ]}
  | EOp _ a | ECall _ a | EUnknown _ a | EMissing a | ENoOp a => ⋃ (map paths_of a)
  | ELit _ | ENotDict => ∅
  end.

(** The walk every one of these shares: whether a property holds of the node
    or of something below it. *)
Fixpoint expr_any (p : expr -> bool) (e : expr) : bool :=
  p e || match e with
         | EOp _ a | ECall _ a | EUnknown _ a | EMissing a | ENoOp a => existsb (expr_any p) a
         | ELit _ | ERef _ | ENotDict => false
         end.

(** Does the expression call the function named [f]? *)
Definition calls (f : pystr) : expr -> bool :=
  expr_any (fun e => match e with ECall g _ => str_eqb g f | _ => false end).

(** ** Lemmas *)

Lemma elem_of_union_map {A} (f : A -> gset pystr) (l : list A) x :
  x ∈ ⋃ (map f l) <-> exists a, a ∈ l /\ x ∈ f a.
Proof.
  induction l as [|a l IH]; simpl.
  - set_solver.
  - rewrite elem_of_union, IH. setoid_rewrite elem_of_cons. naive_solver.
Qed.

Lemma existsb_false {A} (p : A -> bool) l : existsb p l = false <-> Forall (fun a => p a = false) l.
Proof.
  induction l as [|a l IH]; simpl.
  - split; [constructor|done].
  - rewrite orb_false_iff, IH, Forall_cons. done.
Qed.

(** No path at all means nothing collected: the second test of [is_static]
    implies the first. *)
Lemma paths_any_collect e : paths_any e = false -> collect_refs e = ∅.
Proof.
  induction e as [v|p|op a IH|f a IH|op a IH|a IH|a IH|] using expr_ind'; simpl; intros H; try done.
  all: apply existsb_false in H; apply set_eq; intros x; rewrite elem_of_union_map.
  all: rewrite Forall_forall in H, IH; split; [|set_solver].
  all: intros (e & He & Hx); rewrite (IH e He (H e He)) in Hx; set_solver.
Qed.

Lemma is_static_spec e :
  is_static e = true <-> is_node e = true /\ paths_any e = false /\ calls_clock e = false.
Proof.
  unfold is_static. rewrite !andb_true_iff, !negb_true_iff, bool_decide_eq_true.
  pose proof (paths_any_collect e). naive_solver.
Qed.

(** ** Raw nodes

    What the passes that read the document's JSON directly see of a node, and
    the induction over nodes they recurse by. *)

(** [expr.get("op") == op], on a value that may be no object at all. *)
Definition has_op (e : value) (op : pystr) : bool :=
  match vfield e "op" with VStr o => str_eqb o op | _ => false end.

(** [expr.get("args") or []] *)
Definition raw_args (e : value) : list value := vlist (vfield e "args").

Lemma raw_args_dget d :
  raw_args (VDict d) = match dget d "args" with Some (VList l) => l | _ => [] end.
Proof. unfold raw_args, vfield, vget. destruct (dget d "args") as [[]|]; done. Qed.

Lemma node_ind (P : value -> Prop) :
  (forall e, (forall a, a ∈ raw_args e -> P a) -> P e) -> forall e, P e.
Proof.
  intros Hstep e.
  assert (P e /\ match e with VList l => Forall P l | _ => True end) as [? _]; [|done].
  induction e as [| | | | |l IH|d IH] using value_ind';
    try (split; [apply Hstep; intros a Ha; by apply not_elem_of_nil in Ha|done]).
  - split; [apply Hstep; intros a Ha; by apply not_elem_of_nil in Ha|].
    eapply Forall_impl; [exact IH|]. by intros a [].
  - split; [|done]. apply Hstep. intros a. rewrite raw_args_dget.
    destruct (dget d "args") as [x|] eqn:E; [|by intros ?%not_elem_of_nil].
    apply dget_Some_elem in E. rewrite Forall_forall in IH. destruct (IH _ E) as [_ Hx]. simpl in Hx.
    destruct x; try by intros ?%not_elem_of_nil. rewrite Forall_forall in Hx. apply Hx.
Qed.

Lemma expr_of_dict d :
  expr_of (VDict d) =
  decode_node d (match dget d "args" with Some (VList l) => Some (map expr_of l) | _ => None end).
Proof.
  cbn [expr_of]. f_equal. set (look := fix look (d : list (pystr * value)) := _).
  assert (forall d, look d = match dget d "args" with Some (VList l) => Some (map expr_of l) | _ => None end) as ->;
    [|done].
  clear d. induction d as [|[k x] d IH]; [done|]. cbn [dget]. subst look. cbn -[lit decide].
  destruct (decide (k = lit "args")), (decide (lit "args" = k)); congruence || by destruct x.
Qed.
