(* ===== verification/Expression.v ===== *)
(** * The expression evaluator: form_engine/expression.py

    Null-aware primitives, the function table of section 4.3, reference
    resolution and [evaluate].  A result is [Ok v] or the exception that
    propagates; [None] of a [tri] is the null of three-valued logic.

    Code that is not Python: the regular-expression engine, Unicode case
    mapping and the C library's transcendental functions are the operations
    of the class [PyEnv], which every definition takes as a parameter. *)

From S2P Require Import Prelude PyStr PyNum PyDate Value Expr.

Class PyEnv := {
  str_upper : pystr -> pystr;
  str_lower : pystr -> pystr;
  re_search : pystr -> pystr -> option bool;   (* pattern, subject; [None] is [re.error] *)
  libm_sin : pyfloat -> pyfloat;
  libm_cos : pyfloat -> pyfloat;
  libm_tan : pyfloat -> pyfloat;
  libm_atan : pyfloat -> pyfloat;
  libm_asin : pyfloat -> pyfloat;
  libm_pow : pyfloat -> pyfloat -> pyfloat
}.

Definition INT_MIN : Z := - 2 ^ 63.
Definition INT_MAX : Z := 2 ^ 63 - 1.

(** ** The evaluation context *)

Abbreviation row := (odict value) (only parsing).

(** The [DatasetSource] protocol (datasets.py): the rows of a dataset matching
    a selector and, optionally, one more equality. *)
Definition dataset_source : Type :=
  pystr -> odict value -> option (pystr * value) -> list row.

Record eval_ctx := EvalCtx {
  ctx_values : odict value;
  ctx_today : date;
  ctx_now : pystr;                             (* [now.isoformat()] *)
  ctx_row : option row;
  ctx_metadata : odict value;
  ctx_scope : option (pystr * pystr);
  ctx_instances : odict (list pystr);
  ctx_datasets : option dataset_source
}.

Abbreviation tri := (option bool) (only parsing).
Definition of_tri (t : tri) : value := match t with Some b => VBool b | None => VNone end.

(** ** Typed argument access (4.7) *)

Definition text_ (v : value) : option pystr := match v with VStr s => Some s | _ => None end.

Definition number_ (v : value) : option num :=
  match v with VInt z => Some (NInt z) | VFloat f => Some (NFloat f) | _ => None end.

Definition integer_ (v : value) : option Z :=
  match number_ v with
  | Some (NInt z) => Some z
  | Some (NFloat f) =>
      if float_is_integer f then match float_trunc f with Ok z => Some z | Raise _ => None end
      else None
  | None => None
  end.

Definition date_or_none (v : value) : option date :=
  match v with VStr s => fromisoformat s | _ => None end.

Definition boolean_ (v : value) : option bool := match v with VBool b => Some b | _ => None end.

Definition geopoint_ (v : value) : option (num * num) :=
  match v with
  | VDict d =>
      match as_num (vget d "lat"), as_num (vget d "lon") with
      | Some a, Some b => Some (a, b)
      | _, _ => None
      end
  | _ => None
  end.

(** ** Null-aware primitives (4.4) *)

Definition arith (op : num -> num -> res num) (a b : value) : res value :=
  match number_ a, number_ b with
  | Some x, Some y =>
      r ← op x y;
      match r with
      | NInt z => if (z <? INT_MIN) || (INT_MAX <? z) then Raise (EvaluationError "integer overflow")
                  else Ok (VInt z)
      | NFloat f => Ok (VFloat f)
      end
  | _, _ => Ok VNone
  end.

(** Lexicographic comparison of code points. *)
Fixpoint str_cmp (s t : pystr) : comparison :=
  match s, t with
  | [], [] => Eq
  | [], _ :: _ => Lt
  | _ :: _, [] => Gt
  | a :: s', b :: t' => match N.compare a b with Eq => str_cmp s' t' | c => c end
  end.

Definition ordered (nop : num -> num -> bool) (sop : comparison -> bool) (a b : value) : tri :=
  if is_null a || is_null b then None else
  match number_ a, number_ b with
  | Some x, Some y => Some (nop x y)
  | _, _ => match text_ a, text_ b with
            | Some s, Some t => Some (sop (str_cmp s t))
            | _, _ => None
            end
  end.

Definition equal_ (a b : value) : tri :=
  if is_null a || is_null b then None
  else if negb (eqb (is_bool a) (is_bool b)) then Some false
  else match number_ a, number_ b with
       | Some x, Some y => Some (num_eqb x y)
       | _, _ => if negb (type_tag a =? type_tag b)%nat && negb (is_str a && is_str b) then Some false
                 else Some (py_eq a b)
       end.

Definition text1 (op : pystr -> pystr) (a : value) : value :=
  match text_ a with Some s => VStr (op s) | None => VNone end.

Definition text2 (op : pystr -> pystr -> bool) (a b : value) : value :=
  match text_ a, text_ b with Some x, Some y => VBool (op x y) | _, _ => VNone end.

Definition num_is_zero (n : num) : bool := num_eqb n (NInt 0).

Definition mod_ (a b : value) : res value :=
  match number_ a, number_ b with
  | Some x, Some y => if num_is_zero y then Ok VNone else r ← num_mod x y; Ok (of_num r)
  | _, _ => Ok VNone
  end.

(** False dominates null; otherwise null propagates. *)
Definition and_ (args : list value) : tri :=
  let vs := map boolean_ args in
  if existsb (fun v => bool_decide (v = Some false)) vs then Some false
  else if existsb (fun v => bool_decide (v = None)) vs then None
  else Some true.

(** True dominates null; otherwise null propagates. *)
Definition or_ (args : list value) : tri :=
  let vs := map boolean_ args in
  if existsb (fun v => bool_decide (v = Some true)) vs then Some true
  else if existsb (fun v => bool_decide (v = None)) vs then None
  else Some false.

Definition not_ (a : value) : tri := option_map negb (boolean_ a).

(** Boundary coercion (4.4.7). *)
Definition coerce_boolean (v : value) (null_is : bool) : res bool :=
  match v with
  | VNone => Ok null_is
  | VBool b => Ok b
  | _ => Raise (EvaluationError "expected boolean at boundary")
  end.

(** ** Functions (4.3) *)

Definition seq_ (v : value) : list value :=
  match v with VNone => [] | VList l => l | _ => [v] end.

Definition non_null (l : list value) : list value := List.filter (fun v => negb (is_null v)) l.

Definition numbers_ (v : value) : list num := omap number_ (seq_ v).

(** An argument the arity check has established. *)
Definition arg (args : list value) (i : nat) : value := nth i args VNone.

Definition fn_count (args : list value) : value :=
  VInt (Z.of_nat (length (non_null (seq_ (arg args 0))))).

(** The running state of CPython's [sum]: exact on integers that fit a C
    [long], a compensated float once a float has been met, plain addition
    after that. *)
Inductive sum_state := SumInt (i : Z) | SumFloat (f c : pyfloat) | SumAny (n : num).

Definition fits_long (z : Z) : bool := (INT_MIN <=? z) && (z <=? INT_MAX).

Definition is_finite_f (f : pyfloat) : bool :=
  match f with S754_zero _ | S754_finite _ _ _ => true | _ => false end.

Definition sum_close (f c : pyfloat) : pyfloat :=
  if negb (fzero c) && is_finite_f c then fadd f c else f.

Definition neumaier (f c x : pyfloat) : pyfloat * pyfloat :=
  let t := fadd f x in
  let big := match SFcompare (SFabs f) (SFabs x) with Some Gt | Some Eq => true | _ => false end in
  let c := if big then fadd c (fadd (fsub f t) x) else fadd c (fadd (fsub x t) f) in
  (t, c).

Definition sum_step (s : sum_state) (n : num) : res sum_state :=
  match s, n with
  | SumInt i, NInt z =>
      if fits_long z && fits_long (i + z) then Ok (SumInt (i + z)) else Ok (SumAny (NInt (i + z)))
  | SumInt i, NFloat f => x ← float_of_int i; Ok (SumFloat (fadd x f) (S754_zero false))
  | SumFloat f c, NFloat x => let '(t, c') := neumaier f c x in Ok (SumFloat t c')
  | SumFloat f c, NInt z =>
      if fits_long z then Ok (SumFloat (fadd f (float_of_Z z)) c)
      else x ← float_of_int z; Ok (SumAny (NFloat (fadd (sum_close f c) x)))
  | SumAny a, _ => r ← num_add a n; Ok (SumAny r)
  end.

Definition py_sum (ns : list num) : res num :=
  s ← foldM sum_step (SumInt 0) ns;
  Ok match s with
     | SumInt i => NInt i
     | SumFloat f c => NFloat (sum_close f c)
     | SumAny n => n
     end.

Definition fn_sum (args : list value) : res value :=
  match numbers_ (arg args 0) with
  | [] => Ok (VInt 0)
  | ns => r ← py_sum ns; Ok (of_num r)
  end.

Definition fn_min (args : list value) : value :=
  match numbers_ (arg args 0) with
  | [] => VNone
  | n :: ns => of_num (fold_left (fun m x => if num_ltb x m then x else m) ns n)
  end.

Definition fn_max (args : list value) : value :=
  match numbers_ (arg args 0) with
  | [] => VNone
  | n :: ns => of_num (fold_left (fun m x => if num_ltb m x then x else m) ns n)
  end.

Definition fn_count_selected (args : list value) : value :=
  if is_null (arg args 0) then VInt 0 else VInt (Z.of_nat (length (seq_ (arg args 0)))).

Fixpoint fn_coalesce (args : list value) : value :=
  match args with
  | [] => VNone
  | a :: r => if is_null a then fn_coalesce r else a
  end.

Definition fn_today (ctx : eval_ctx) : value := VStr (isoformat (ctx_today ctx)).
Definition fn_now (ctx : eval_ctx) : value := VStr (ctx_now ctx).

Definition years_between (born ref : date) : Z :=
  let years := year ref - year born in
  if (month ref <? month born) || ((month ref =? month born) && (day ref <? day born))
  then years - 1 else years.

Definition fn_age_years (ctx : eval_ctx) (args : list value) : value :=
  match date_or_none (arg args 0) with
  | None => VNone
  | Some born =>
      let ref := if (1 <? length args)%nat && negb (is_null (arg args 1))
                 then date_or_none (arg args 1) else Some (ctx_today ctx) in
      match ref with Some r => VInt (years_between born r) | None => VNone end
  end.

Definition fn_date_diff_days (args : list value) : value :=
  match date_or_none (arg args 0), date_or_none (arg args 1) with
  | Some a, Some b => VInt (date_minus a b)
  | _, _ => VNone
  end.

Definition fn_date_add_days (args : list value) : value :=
  match date_or_none (arg args 0), integer_ (arg args 1) with
  | Some a, Some n => match date_plus a n with Some d => VStr (isoformat d) | None => VNone end
  | _, _ => VNone
  end.

Definition fn_len (args : list value) : value :=
  match text_ (arg args 0) with Some s => VInt (Z.of_nat (length s)) | None => VNone end.

(** [str()]: [None] is null. *)
Definition cast_str (v : value) : option pystr :=
  match v with
  | VNone => None
  | VBool b => Some (if b then lit "true" else lit "false")
  | VFloat f =>
      if float_is_integer f
      then match float_trunc f with Ok z => Some (str_Z z) | Raise _ => None end
      else Some (float_repr f)
  | VDict _ | VList _ => None
  | VInt z => Some (str_Z z)
  | VStr s => Some s
  end.

Definition of_text (o : option pystr) : value := match o with Some s => VStr s | None => VNone end.

Definition fn_concat (args : list value) : value :=
  VStr (concat (map (fun a => default [] (cast_str a)) args)).

Definition fn_substr (args : list value) : value :=
  match text_ (arg args 0), integer_ (arg args 1) with
  | Some s, Some start =>
      if (2 <? length args)%nat && negb (is_null (arg args 2)) then
        match integer_ (arg args 2) with
        | Some len => VStr (slice s start (Some (start + len)))
        | None => VNone
        end
      else VStr (slice s start None)
  | _, _ => VNone
  end.

Definition FORBIDDEN_REGEX_FEATURES : list pystr :=
  [lit "(?="; lit "(?!"; lit "(?<="; lit "(?<!"; lit "\1"; lit "\2"].

Definition forbidden_regex_feature (pattern : pystr) : option pystr :=
  List.find (fun f => str_in f pattern) FORBIDDEN_REGEX_FEATURES.

Definition MAX_ROUND_DIGITS : Z := 15.

(** [10 ** digits]: an integer, or the float power of a negative exponent. *)
Definition pow10 (digits : Z) : num :=
  if 0 <=? digits then NInt (10 ^ digits) else NFloat (float_ratio false 1 (10 ^ (- digits))).

Definition half : num := NFloat (float_ratio false 1 2).

Definition floor_num (n : num) : res Z :=
  match n with NInt z => Ok z | NFloat f => float_floor f end.
Definition ceil_num (n : num) : res Z :=
  match n with NInt z => Ok z | NFloat f => float_ceil f end.

Definition fn_round (args : list value) : res value :=
  match number_ (arg args 0) with
  | None => Ok VNone
  | Some number =>
      let digits := if (1 <? length args)%nat && negb (is_null (arg args 1))
                    then match integer_ (arg args 1) with
                         | Some d => if MAX_ROUND_DIGITS <? Z.abs d then None else Some d
                         | None => None
                         end
                    else Some 0 in
      match digits with
      | None => Ok VNone
      | Some digits =>
          scaled ← num_mul number (pow10 digits);
          rounded ← (if num_leb (NInt 0) scaled
                     then s ← num_add scaled half; floor_num s
                     else s ← num_sub scaled half; ceil_num s);
          if 0 <? digits then f ← num_truediv (NInt rounded) (pow10 digits); Ok (VFloat f)
          else Ok (VInt rounded)
      end
  end.

Definition fn_sqrt (args : list value) : res value :=
  match number_ (arg args 0) with
  | Some n => if num_ltb n (NInt 0) then Ok VNone else f ← as_float n; Ok (VFloat (fsqrt f))
  | None => Ok VNone
  end.

(** The wrapper CPython's math module puts round a C function: [ValueError]
    on a domain error. *)
Definition math_1 (f : pyfloat -> pyfloat) (x : pyfloat) : res pyfloat :=
  let r := f x in
  if is_nan r && negb (is_nan x) then Raise ValueError
  else if is_inf r && is_finite_f x then Raise ValueError else Ok r.

Definition trig (f : pyfloat -> pyfloat) (args : list value) : res value :=
  match number_ (arg args 0) with
  | Some n => x ← as_float n; r ← math_1 f x; Ok (VFloat r)
  | None => Ok VNone
  end.

(** [pi / 180] and the mean radius of the earth, as the floats they are. *)
Definition pi : pyfloat := S754_finite false 7074237752028440 (-51).
Definition deg_to_rad : pyfloat := fdiv pi (float_of_Z 180).
Definition earth_radius : pyfloat := float_ratio false 63710088 10.

Definition radians (n : num) : res pyfloat := x ← as_float n; Ok (fmul x deg_to_rad).

Definition as_number (v : value) : res (option pyfloat) :=
  match v with
  | VInt z => f ← float_of_int z; Ok (Some f)
  | VFloat f => Ok (Some f)
  | VStr s => Ok (parse_float (strip s))
  | _ => Ok None
  end.

Definition cast_int (args : list value) : res value :=
  n ← as_number (arg args 0);
  match n with Some f => z ← float_trunc f; Ok (VInt z) | None => Ok VNone end.

Definition cast_dec (args : list value) : res value :=
  n ← as_number (arg args 0);
  match n with Some f => Ok (VFloat f) | None => Ok VNone end.

Section WithEnv.
Context `{PyEnv}.

Definition fn_regex (args : list value) : value :=
  match text_ (arg args 0), text_ (arg args 1) with
  | Some subject, Some pattern =>
      match forbidden_regex_feature pattern with
      | Some _ => VNone
      | None => match re_search pattern subject with Some b => VBool b | None => VNone end
      end
  | _, _ => VNone
  end.

Definition fn_distance (args : list value) : res value :=
  match geopoint_ (arg args 0), geopoint_ (arg args 1) with
  | Some (lat1, lon1), Some (lat2, lon2) =>
      lat1 ← radians lat1; lon1 ← radians lon1;
      lat2 ← radians lat2; lon2 ← radians lon2;
      let dlat := fsub lat2 lat1 in
      let dlon := fsub lon2 lon1 in
      let two := float_of_Z 2 in
      s1 ← math_1 libm_sin (fdiv dlat two);
      c1 ← math_1 libm_cos lat1;
      c2 ← math_1 libm_cos lat2;
      s2 ← math_1 libm_sin (fdiv dlon two);
      let h := fadd (libm_pow s1 two) (fmul (fmul c1 c2) (libm_pow s2 two)) in
      r ← math_1 fsqrt h;
      a ← math_1 libm_asin r;
      Ok (VFloat (float_round3 (fmul (fmul two earth_radius) a)))
  | _, _ => Ok VNone
  end.

Definition fn_pulldata (ctx : eval_ctx) (args : list value) : value :=
  match text_ (arg args 0), text_ (arg args 1), text_ (arg args 2) with
  | Some dataset, Some column, Some key_column =>
      match ctx_datasets ctx with
      | None => VNone
      | Some source =>
          if is_null (arg args 3) then VNone
          else match source dataset [(key_column, arg args 3)] None with
               | r :: _ => vget r column
               | [] => VNone
               end
      end
  | _, _, _ => VNone
  end.

Definition fn_impl : Type := eval_ctx -> list value -> res value.

(** The function table: implementation, least and greatest arity. *)
Definition FUNCTIONS : odict (fn_impl * nat * nat) :=
  let pure (f : list value -> value) : fn_impl := fun _ a => Ok (f a) in
  let fallible (f : list value -> res value) : fn_impl := fun _ a => f a in
  [(lit "count", (pure fn_count, 1, 1));
   (lit "sum", (fallible fn_sum, 1, 1));
   (lit "min", (pure fn_min, 1, 1));
   (lit "max", (pure fn_max, 1, 1));
   (lit "count_selected", (pure fn_count_selected, 1, 1));
   (lit "coalesce", (pure fn_coalesce, 1, 99));
   (lit "today", (fun ctx _ => Ok (fn_today ctx), 0, 0));
   (lit "now", (fun ctx _ => Ok (fn_now ctx), 0, 0));
   (lit "age_years", (fun ctx a => Ok (fn_age_years ctx a), 1, 2));
   (lit "date_diff_days", (pure fn_date_diff_days, 2, 2));
   (lit "date_add_days", (pure fn_date_add_days, 2, 2));
   (lit "len", (pure fn_len, 1, 1));
   (lit "upper", (pure (fun a => text1 str_upper (arg a 0)), 1, 1));
   (lit "lower", (pure (fun a => text1 str_lower (arg a 0)), 1, 1));
   (lit "trim", (pure (fun a => text1 strip (arg a 0)), 1, 1));
   (lit "concat", (pure fn_concat, 1, 99));
   (lit "substr", (pure fn_substr, 2, 3));
   (lit "contains", (pure (fun a => text2 (fun x y => str_in y x) (arg a 0) (arg a 1)), 2, 2));
   (lit "starts_with", (pure (fun a => text2 startswith (arg a 0) (arg a 1)), 2, 2));
   (lit "ends_with", (pure (fun a => text2 endswith (arg a 0) (arg a 1)), 2, 2));
   (lit "regex", (pure fn_regex, 2, 2));
   (lit "round", (fallible fn_round, 1, 2));
   (lit "int", (fallible cast_int, 1, 1));
   (lit "dec", (fallible cast_dec, 1, 1));
   (lit "str", (pure (fun a => of_text (cast_str (arg a 0))), 1, 1));
   (lit "distance", (fallible fn_distance, 2, 2));
   (lit "pulldata", (fun ctx a => Ok (fn_pulldata ctx a), 4, 4));
   (lit "sqrt", (fallible fn_sqrt, 1, 1));
   (lit "sin", (fallible (trig libm_sin), 1, 1));
   (lit "cos", (fallible (trig libm_cos), 1, 1));
   (lit "tan", (fallible (trig libm_tan), 1, 1));
   (lit "atan", (fallible (trig libm_atan), 1, 1));
   (lit "is_null", (pure (fun a => VBool (is_null (arg a 0))), 1, 1));
   (lit "is_not_null", (pure (fun a => VBool (negb (is_null (arg a 0)))), 1, 1))]%nat.

#[global] Arguments FUNCTIONS : simpl never.

(** ** Reference resolution (4.2) *)

(** [members[i3].age], the storage path of a field of an instance. *)
Definition inst_path (repeat_id instance_id field : pystr) : pystr :=
  repeat_id ++ lit "[" ++ instance_id ++ lit "]." ++ field.

Definition resolve_ (path : pystr) (ctx : eval_ctx) : res value :=
  let values_get k := vget (ctx_values ctx) k in
  if startswith path "$row." then
    match ctx_row ctx with
    | None => Raise (CompileError "$row reference outside a choice filter" [path])
    | Some r => Ok (vget r (drop 5 path))
    end
  else if startswith path "_metadata." then Ok (vget (ctx_metadata ctx) (drop 10 path))
  else match cut "[]." path with
  | Some (repeat_id, suffix) =>
      Ok (VList (map (fun iid => values_get (inst_path repeat_id iid suffix))
                     (default [] (dget (ctx_instances ctx) repeat_id))))
  | None =>
  if str_in "[" path && str_in "]." path then
    match cut "[" path with
    | None => Raise ValueError
    | Some (repeat_id, rest) =>
    match cut "]." rest with
    | None => Raise ValueError
    | Some (index_text, suffix) =>
        if str_eqb index_text "." then
          match ctx_scope ctx with
          | Some (srepeat, siid) =>
              if str_eqb srepeat repeat_id then Ok (values_get (inst_path repeat_id siid suffix))
              else Raise (CompileError "[.] reference outside its repeat" [path])
          | None => Raise (CompileError "[.] reference outside its repeat" [path])
          end
        else
          let ordered := default [] (dget (ctx_instances ctx) repeat_id) in
          match parse_int index_text with
          | None => Raise ValueError
          | Some index =>
              if (index <? 0) || (Z.of_nat (length ordered) <=? index) then Ok VNone
              else match ordered !! Z.to_nat index with
                   | Some iid => Ok (values_get (inst_path repeat_id iid suffix))
                   | None => Raise IndexError
                   end
          end
    end end
  else
    let bare := of_option (CompileError "unresolvable reference" [path]) (dget (ctx_values ctx) path) in
    match ctx_scope ctx with
    | Some (srepeat, siid) =>
        match dget (ctx_values ctx) (inst_path srepeat siid path) with
        | Some v => Ok v
        | None => bare
        end
    | None => bare
    end
  end.

(** ** The evaluator *)

(** The result of the [i]th argument; an absent one is an [IndexError]. *)
Definition nth_res (evs : list (res value)) (i : nat) : res value :=
  nth i evs (Raise IndexError).

Definition all_res (evs : list (res value)) : res (list value) := mapR id evs.

Definition member (needle haystack : value) : value :=
  if is_null haystack || is_null needle then VNone
  else VBool (existsb (fun item => bool_decide (equal_ item needle = Some true)) (seq_ haystack)).

Definition div_ (a b : value) : res value :=
  match number_ a, number_ b with
  | Some x, Some y => if num_is_zero y then Ok VNone else f ← num_truediv x y; Ok (VFloat f)
  | _, _ => Ok VNone
  end.

Definition idiv_ (a b : value) : res value :=
  match number_ a, number_ b with
  | Some x, Some y =>
      if num_is_zero y then Ok VNone else q ← num_floordiv x y; z ← num_trunc q; Ok (VInt z)
  | _, _ => Ok VNone
  end.

Definition neg_ (a : value) : value :=
  match number_ a with Some n => of_num (num_neg n) | None => VNone end.

Definition is_gt (c : comparison) : bool := match c with Gt => true | _ => false end.
Definition is_lt (c : comparison) : bool := match c with Lt => true | _ => false end.

(** The table of binary operators and the operators [evaluate] writes out, on
    two evaluated operands. *)
Definition eval_binary (op : operator) (a b : value) : res value :=
  match op with
  | OpAdd => arith num_add a b
  | OpSub => arith num_sub a b
  | OpMul => arith num_mul a b
  | OpMod => mod_ a b
  | OpDiv => div_ a b
  | OpIdiv => idiv_ a b
  | OpEq => Ok (of_tri (equal_ a b))
  | OpNe => Ok (of_tri (option_map negb (equal_ a b)))
  | OpLt => Ok (of_tri (ordered num_ltb is_lt a b))
  | OpLte => Ok (of_tri (ordered num_leb (fun c => negb (is_gt c)) a b))
  | OpGt => Ok (of_tri (ordered (fun x y => num_ltb y x) is_gt a b))
  | OpGte => Ok (of_tri (ordered (fun x y => num_leb y x) (fun c => negb (is_lt c)) a b))
  | OpSelected => Ok (member b a)
  | OpIn => Ok (member a b)
  | _ => Ok VNone
  end.

(** An operator on the results of its arguments: [if] looks at one branch
    only, [and] and [or] at every argument, the rest at one or two. *)
Definition eval_op (op : operator) (evs : list (res value)) : res value :=
  match op with
  | OpIf =>
      c ← nth_res evs 0;
      match boolean_ c with
      | None => Ok VNone
      | Some b => nth_res evs (if b then 1 else 2)
      end
  | OpAnd => vs ← all_res evs; Ok (of_tri (and_ vs))
  | OpOr => vs ← all_res evs; Ok (of_tri (or_ vs))
  | OpNot => a ← nth_res evs 0; Ok (of_tri (not_ a))
  | OpNeg => a ← nth_res evs 0; Ok (neg_ a)
  | _ => a ← nth_res evs 0; b ← nth_res evs 1; eval_binary op a b
  end.

Definition eval_call (ctx : eval_ctx) (fn : pystr) (evs : list (res value)) : res value :=
  match dget FUNCTIONS fn with
  | None => Raise (CompileError "unknown function" [fn])
  | Some (impl, min_arity, max_arity) =>
      args ← all_res evs;
      if (min_arity <=? length args)%nat && (length args <=? max_arity)%nat then impl ctx args
      else Raise (CompileError "wrong number of arguments" [fn])
  end.

Fixpoint evaluate (ctx : eval_ctx) (e : expr) : res value :=
  match e with
  | ELit v => Ok v
  | ERef path => resolve_ path ctx
  | EOp op args => eval_op op (map (evaluate ctx) args)
  | ECall fn args => eval_call ctx fn (map (evaluate ctx) args)
  | EUnknown op _ => Raise (CompileError "unknown operator" [op])
  | EMissing _ => Raise KeyError
  | ENoOp _ | ENotDict => Raise (CompileError "malformed expression node" [])
  end.

(** ** Static expressions (10.3) *)

Definition empty_ctx : eval_ctx :=
  EvalCtx [] (Date 2000 1 1) "2000-01-01T00:00:00+00:00" None [] None [] None.

Definition static_value (e : expr) : res value := evaluate empty_ctx e.

(** [statically_false(expr)]; an absent expression is [ENotDict]. *)
Definition statically_false (e : expr) : res bool :=
  if is_static e then v ← static_value e; Ok (match v with VBool false => true | _ => false end)
  else Ok false.

End WithEnv.

(** An instance for closed examples: ASCII case mapping, a pattern engine that
    knows literal text only, and no transcendental function. *)
Definition ascii_env : PyEnv := {|
  str_upper := map (fun c => if bool_decide (97 <= c <= 122)%N then (c - 32)%N else c);
  str_lower := map ascii_lower;
  re_search := fun p s => Some (str_in p s);
  libm_sin := id; libm_cos := id; libm_tan := id; libm_atan := id; libm_asin := id;
  libm_pow := fmul
|}.
