(* ===== verification/ExpressionFacts.v ===== *)
(** * What the evaluator guarantees

    Three-valued logic, equality and arithmetic bounds; which exceptions can
    come out; that a static expression has one value; and the frame theorem:
    evaluation reads the fields [collect_refs] names and no other, which is
    what makes the dependency graph of section 5 sound. *)

From S2P Require Import Prelude PyStr PyNum PyDate Value Expr Expression.

(** ** Kleene logic: the specification of [and], [or] and [not] *)

Definition kleene_and (a b : option bool) : option bool :=
  match a, b with
  | Some false, _ | _, Some false => Some false
  | Some true, Some true => Some true
  | _, _ => None
  end.

Definition kleene_or (a b : option bool) : option bool :=
  option_map negb (kleene_and (option_map negb a) (option_map negb b)).

Lemma and_cons v vs : and_ (v :: vs) = kleene_and (boolean_ v) (and_ vs).
Proof.
  unfold and_. simpl. destruct (boolean_ v) as [[]|]; simpl; repeat case_match; done.
Qed.

Lemma or_cons v vs : or_ (v :: vs) = kleene_or (boolean_ v) (or_ vs).
Proof.
  unfold or_. simpl. destruct (boolean_ v) as [[]|]; simpl; repeat case_match; done.
Qed.

(** ** Equality *)

(** Dictionaries of a JSON document have each key once. *)
Fixpoint wf_value (v : value) : bool :=
  match v with
  | VList l => forallb wf_value l
  | VDict d => bool_decide (NoDup (dkeys d)) && forallb (fun kv => wf_value kv.2) d
  | _ => true
  end.

Definition py_eq_list := fix go (l m : list value) : bool :=
  match l, m with
  | [], [] => true
  | x :: l', y :: m' => py_eq x y && go l' m'
  | _, _ => false
  end.

Definition py_eq_dict (d' : odict value) := fix go (d : odict value) : bool :=
  match d with
  | [] => true
  | (k, x) :: r => match dget d' k with Some y => py_eq x y && go r | None => false end
  end.

Lemma py_eq_dict_spec d d' :
  py_eq_dict d' d = true <-> Forall (fun kv => exists y, dget d' kv.1 = Some y /\ py_eq kv.2 y = true) d.
Proof.
  induction d as [|[k x] r IH]; simpl.
  - split; [constructor|done].
  - rewrite Forall_cons. simpl. destruct (dget d' k) as [y|].
    + rewrite andb_true_iff, IH. naive_solver.
    + naive_solver.
Qed.

(** Both have the same keys when one's are among the other's and the counts
    agree. *)
Lemma same_keys (d d' : odict value) :
  NoDup (dkeys d) -> NoDup (dkeys d') -> length d = length d' ->
  dkeys d ⊆ dkeys d' -> dkeys d' ⊆ dkeys d.
Proof.
  intros Hn Hn' Hl Hsub. unfold dkeys in *.
  assert (d.*1 ≡ₚ d'.*1) as Hp.
  { apply submseteq_length_Permutation; [by apply NoDup_submseteq|]. rewrite !length_fmap. lia. }
  intros x. by rewrite Hp.
Qed.

Lemma py_eq_dict_sym d d' :
  Forall (fun kv => forall b, wf_value b = true -> wf_value kv.2 = true ->
                    py_eq kv.2 b = true -> py_eq b kv.2 = true) d ->
  wf_value (VDict d) = true -> wf_value (VDict d') = true ->
  length d = length d' -> py_eq_dict d' d = true -> py_eq_dict d d' = true.
Proof.
  simpl. rewrite !andb_true_iff, !bool_decide_eq_true, !forallb_forall, !py_eq_dict_spec, !Forall_forall.
  setoid_rewrite <- list_elem_of_In. intros IH [Hn Hw] [Hn' Hw'] Hl Hd [k y] Hin; simpl.
  assert (dkeys d ⊆ dkeys d') as Hsub.
  { intros k' Hk'. apply list_elem_of_fmap in Hk' as ([k2 x] & -> & Hx).
    destruct (Hd _ Hx) as (y' & Hy' & _). apply dget_elem. by exists y'. }
  pose proof (same_keys _ _ Hn Hn' Hl Hsub k) as Hk.
  assert (k ∈ dkeys d') as Hkin by (apply list_elem_of_fmap; by exists (k, y)).
  specialize (Hk Hkin). apply list_elem_of_fmap in Hk as ([k2 x] & ? & Hx); simpl in *; subst.
  exists x. split; [by apply dget_elem_NoDup|].
  destruct (Hd _ Hx) as (y' & Hy' & He); simpl in *.
  rewrite (dget_elem_NoDup _ _ _ Hn' Hin) in Hy'. simplify_eq.
  apply (IH _ Hx y'); [exact (Hw' _ Hin)|exact (Hw _ Hx)|exact He].
Qed.

Lemma py_eq_num a b x y : as_num a = Some x -> as_num b = Some y -> py_eq a b = num_eqb x y.
Proof. destruct a, b; intros; simplify_eq/=; done. Qed.

Lemma py_eq_sym_imp a b : wf_value a = true -> wf_value b = true -> py_eq a b = true -> py_eq b a = true.
Proof.
  revert b. induction a as [|x|z|f|s|l IH|d IH] using value_ind'; intros b Hwa Hwb H.
  all: destruct b as [|y|z'|g|t|m|d']; try done.
  all: try (erewrite py_eq_num in H by done; erewrite py_eq_num by done; by rewrite num_eqb_sym).
  - change (str_eqb s t = true) in H. change (str_eqb t s = true). by rewrite str_eqb_sym.
  - change (py_eq_list m l = true). change (py_eq_list l m = true) in H.
    change (forallb wf_value l = true) in Hwa. change (forallb wf_value m = true) in Hwb.
    revert m Hwb H. induction IH as [|x l Hx _ IHl]; intros [|y m]; simpl; try done.
    simpl in Hwa. rewrite !andb_true_iff in *. intros [] []. split; [apply Hx|apply IHl]; naive_solver.
  - change ((length d' =? length d)%nat && py_eq_dict d d' = true).
    change ((length d =? length d')%nat && py_eq_dict d' d = true) in H.
    apply andb_true_iff in H as [Hl%Nat.eqb_eq H]. apply andb_true_iff. split; [by apply Nat.eqb_eq|].
    apply py_eq_dict_sym; try done. eapply Forall_impl; [exact IH|]. simpl. auto.
Qed.

Lemma py_eq_sym a b : wf_value a = true -> wf_value b = true -> py_eq a b = py_eq b a.
Proof.
  intros. destruct (py_eq a b) eqn:E, (py_eq b a) eqn:E'; try done.
  - apply py_eq_sym_imp in E; congruence.
  - apply py_eq_sym_imp in E'; congruence.
Qed.

Lemma equal_null a b : equal_ a b = None <-> a = VNone \/ b = VNone.
Proof.
  unfold equal_. destruct a, b; simpl; repeat case_match; naive_solver.
Qed.

(** ** Exceptions *)

Definition overflow_only (e : exn) : Prop :=
  e = EvaluationError "integer overflow" \/ e = OverflowError.

Definition total_or_overflow {A} (r : res A) : Prop :=
  match r with Ok _ => True | Raise e => overflow_only e end.

Lemma too_ok {A} (a : A) : total_or_overflow (Ok a).
Proof. done. Qed.

Lemma too_bind {A B} (r : res A) (f : A -> res B) :
  total_or_overflow r -> (forall a, r = Ok a -> total_or_overflow (f a)) -> total_or_overflow (r ≫= f).
Proof. destruct r; simpl; [|done]. intros _ H. by apply H. Qed.

Lemma too_foldM {A S} (f : S -> A -> res S) s l :
  (forall s a, total_or_overflow (f s a)) -> total_or_overflow (foldM f s l).
Proof.
  intros H. revert s. induction l as [|a l IH]; intros s; simpl; [done|].
  specialize (H s a). by destruct (f s a).
Qed.

Lemma too_float_of_int z : total_or_overflow (float_of_int z).
Proof. unfold float_of_int. case_match; simpl; unfold overflow_only; auto. Qed.

Lemma too_as_float n : total_or_overflow (as_float n).
Proof. destruct n; [apply too_float_of_int|done]. Qed.

Create HintDb too.
#[export] Hint Resolve too_ok too_float_of_int too_as_float too_bind : too.

Lemma too_num_op zop fop a b : total_or_overflow (num_op zop fop a b).
Proof. destruct a, b; cbn; eauto 10 with too. Qed.

Lemma too_truediv a b : total_or_overflow (num_truediv a b).
Proof.
  destruct a, b; cbn; eauto 10 with too.
  case_match; simpl; unfold overflow_only; auto.
Qed.
#[export] Hint Resolve too_num_op too_truediv : too.

Lemma too_arith zop fop a b : total_or_overflow (arith (num_op zop fop) a b).
Proof.
  unfold arith. destruct (number_ a), (number_ b); try done.
  apply too_bind; [apply too_num_op|]. intros [z|f] _; [|done].
  case_match; simpl; unfold overflow_only; auto.
Qed.

Lemma too_sum args : total_or_overflow (fn_sum args).
Proof.
  unfold fn_sum. destruct (numbers_ _); [done|]. apply too_bind; [|done].
  unfold py_sum. apply too_bind; [|done]. apply too_foldM.
  intros [i|f c|m] [z|x]; simpl; try case_match; unfold num_add; eauto 6 with too.
Qed.

Lemma too_sqrt args : total_or_overflow (fn_sqrt args).
Proof. unfold fn_sqrt. destruct (number_ _); [case_match|]; eauto with too. Qed.

Lemma too_dec args : total_or_overflow (cast_dec args).
Proof.
  unfold cast_dec, as_number.
  destruct (arg args 0); simpl; eauto 6 with too; try done.
  - apply too_bind; [eauto with too|]. by intros [].
  - destruct (parse_float _); done.
Qed.

Section Facts.
Context `{PyEnv}.

(** The functions that let another exception through: the casts and
    roundings of a non-finite float, and the math module's domain errors. *)
Definition partial_functions : list pystr :=
  [lit "int"; lit "round"; lit "distance"; lit "sin"; lit "cos"; lit "tan"; lit "atan"].

(** An expression the compiler and the arity checks have accepted: operators
    have their operands, functions exist and have theirs, and nothing in
    [partial_functions] or [idiv] occurs. *)
Definition op_arity (op : operator) (n : nat) : bool :=
  match op with
  | OpIf => (3 <=? n)%nat
  | OpAnd | OpOr => true
  | OpNot | OpNeg => (1 <=? n)%nat
  | _ => (2 <=? n)%nat
  end.

Fixpoint well_formed (e : expr) : bool :=
  match e with
  | ELit _ | ERef _ => true
  | EOp op a => negb (bool_decide (op = OpIdiv)) && op_arity op (length a) && forallb well_formed a
  | ECall f a =>
      negb (bool_decide (f ∈ partial_functions)) &&
      match dget FUNCTIONS f with
      | Some (_, lo, hi) => (lo <=? length a)%nat && (length a <=? hi)%nat
      | None => false
      end && forallb well_formed a
  | EUnknown _ _ | EMissing _ | ENoOp _ | ENotDict => false
  end.

Lemma too_all_res evs : Forall total_or_overflow evs -> total_or_overflow (all_res evs).
Proof.
  unfold all_res. induction 1 as [|r evs Hr _ IH]; simpl; [done|].
  destruct r; simpl in *; [|done]. by destruct (mapR id evs).
Qed.

Lemma too_nth evs i : Forall total_or_overflow evs -> (i < length evs)%nat -> total_or_overflow (nth_res evs i).
Proof.
  intros Hall Hi. unfold nth_res. rewrite Forall_forall in Hall. apply Hall, list_elem_of_In, nth_In, Hi.
Qed.

Lemma too_eval_binary op a b : op <> OpIdiv -> total_or_overflow (eval_binary op a b).
Proof.
  intros Hop. destruct op; simpl; try done; try apply too_arith.
  - unfold div_. repeat case_match; eauto with too.
  - unfold mod_, num_mod. repeat case_match; eauto with too.
Qed.

Lemma too_eval_op op evs :
  op <> OpIdiv -> op_arity op (length evs) = true -> Forall total_or_overflow evs ->
  total_or_overflow (eval_op op evs).
Proof.
  intros Hop Har Hall.
  assert (forall i, (i < length evs)%nat -> total_or_overflow (nth_res evs i)) as Hnth
    by (intros; by apply too_nth).
  destruct op; unfold op_arity in Har; apply Nat.leb_le in Har || idtac;
    try (apply too_bind; [apply Hnth; lia|]; intros a _; apply too_bind; [apply Hnth; lia|];
         intros b _; by apply too_eval_binary).
  - apply too_bind; [apply Hnth; lia|]. intros a _. destruct (boolean_ a) as [[]|]; [| |done];
      apply Hnth; lia.
  - apply too_bind; [by apply too_all_res|done].
  - apply too_bind; [by apply too_all_res|done].
  - apply too_bind; [apply Hnth; lia|done].
  - apply too_bind; [apply Hnth; lia|done].
Qed.

(** Every function outside [partial_functions], on any arguments. *)
Lemma FUNCTIONS_total f impl lo hi ctx args :
  dget FUNCTIONS f = Some (impl, lo, hi) -> f ∉ partial_functions -> total_or_overflow (impl ctx args).
Proof.
  intros Hget Hnot. apply dget_Some_elem in Hget. unfold FUNCTIONS in Hget.
  repeat (apply elem_of_cons in Hget as [Heq|Hget];
          [apply pair_equal_spec in Heq as [-> Heq]; apply pair_equal_spec in Heq as [Heq _];
           apply pair_equal_spec in Heq as [-> _];
           first [exact I | apply too_sum | apply too_sqrt | apply too_dec
                 | exfalso; apply Hnot; vm_compute; set_solver]|]).
  by apply not_elem_of_nil in Hget.
Qed.

Lemma evaluate_total ctx e :
  well_formed e = true -> (forall p, p ∈ paths_of e -> is_ok (resolve_ p ctx) = true) ->
  total_or_overflow (evaluate ctx e).
Proof.
  induction e as [v|p|op a IH|f a IH|op a IH|a IH|a IH|] using expr_ind'; intros Hwf Hrefs; try done.
  - specialize (Hrefs p). simpl in *. destruct (resolve_ p ctx); [done|]. by set_solver.
  - cbn [well_formed] in Hwf. rewrite !andb_true_iff, negb_true_iff, bool_decide_eq_false in Hwf.
    destruct Hwf as [[Hop Har] Hargs]. simpl. apply too_eval_op; [done|by rewrite length_map|].
    apply Forall_map. rewrite forallb_forall in Hargs. rewrite Forall_forall in IH |- *.
    intros x Hx. apply IH; [done|by apply Hargs, list_elem_of_In|].
    intros p Hp. apply Hrefs. simpl. apply elem_of_union_map. eauto.
  - cbn [well_formed] in Hwf. rewrite !andb_true_iff, negb_true_iff, bool_decide_eq_false in Hwf.
    destruct Hwf as [[Hf Har] Hargs]. cbn [evaluate]. unfold eval_call.
    destruct (dget FUNCTIONS f) as [[[impl lo] hi]|] eqn:E; [|done].
    apply too_bind.
    { apply too_all_res, Forall_map. rewrite forallb_forall in Hargs. rewrite Forall_forall in IH |- *.
      intros x Hx. apply IH; [done|by apply Hargs, list_elem_of_In|].
      intros p Hp. apply Hrefs. simpl. apply elem_of_union_map. eauto. }
    intros args Hok. apply mapR_length in Hok. rewrite length_map in Hok. rewrite Hok, Har.
    by eapply FUNCTIONS_total.
Qed.

(** ** One value in every context *)

(** The functions whose result depends on the context they run in. *)
Definition context_functions : list pystr :=
  [lit "today"; lit "now"; lit "age_years"; lit "pulldata"].

Lemma FUNCTIONS_pure f impl lo hi c1 c2 args :
  dget FUNCTIONS f = Some (impl, lo, hi) -> f ∉ context_functions -> impl c1 args = impl c2 args.
Proof.
  intros Hget Hnot. apply dget_Some_elem in Hget. unfold FUNCTIONS in Hget.
  repeat (apply elem_of_cons in Hget as [Heq|Hget];
          [apply pair_equal_spec in Heq as [-> Heq]; apply pair_equal_spec in Heq as [Heq _];
           apply pair_equal_spec in Heq as [-> _];
           first [reflexivity | exfalso; apply Hnot; vm_compute; set_solver]|]).
  by apply not_elem_of_nil in Hget.
Qed.

Lemma eval_call_ext c1 c2 f evs :
  (forall impl lo hi args, dget FUNCTIONS f = Some (impl, lo, hi) -> impl c1 args = impl c2 args) ->
  eval_call c1 f evs = eval_call c2 f evs.
Proof.
  intros Himpl. unfold eval_call. destruct (dget FUNCTIONS f) as [[[impl lo] hi]|]; [|done].
  destruct (all_res evs); simpl; [|done]. case_match; [|done]. by eapply Himpl.
Qed.

Lemma map_evaluate_ext c1 c2 args :
  Forall (fun e => evaluate c1 e = evaluate c2 e) args ->
  map (evaluate c1) args = map (evaluate c2) args.
Proof. induction 1 as [|e l He _ IH]; simpl; [done|]. by rewrite He, IH. Qed.

Lemma static_one_value c1 c2 e :
  paths_any e = false -> calls_clock e = false ->
  calls "age_years" e = false -> calls "pulldata" e = false ->
  evaluate c1 e = evaluate c2 e.
Proof.
  unfold calls.
  induction e as [v|p|op a IH|f a IH|op a IH|a IH|a IH|] using expr_ind';
    cbn [paths_any calls_clock expr_any evaluate]; rewrite ?orb_false_iff, ?existsb_false;
    intros Hp Hc Ha Hd; try done.
  - f_equal. apply map_evaluate_ext. rewrite Forall_forall in *. destruct Ha, Hd.
    rewrite ?Forall_forall in *. naive_solver.
  - destruct Hc as [[Ht Hn] Hc], Ha as [Ha Ha'], Hd as [Hd Hd'].
    assert (map (evaluate c1) a = map (evaluate c2) a) as ->.
    { apply map_evaluate_ext. rewrite Forall_forall in *. naive_solver. }
    apply eval_call_ext. intros impl lo hi args Hget. eapply FUNCTIONS_pure; [done|].
    unfold str_eqb in *. rewrite bool_decide_eq_false in *. unfold context_functions.
    rewrite !elem_of_cons, elem_of_nil. intuition congruence.
Qed.

(** ** The frame of an evaluation *)

(** A reference spelled as section 4.2 spells one: a bare name, or one
    bracketed instance before a field. *)
Definition no_brackets (s : pystr) : bool := bool_decide (91%N ∉ s) && bool_decide (93%N ∉ s).

Definition path_ok (p : pystr) : bool :=
  match cut "[" p with
  | None => no_brackets p
  | Some (r, rest) =>
      match cut "]." rest with
      | Some (idx, f) => no_brackets r && no_brackets idx && no_brackets f
      | None => false
      end
  end.

(** No instance id holds a closing bracket. *)
Definition ids_ok (ctx : eval_ctx) : Prop :=
  (forall r i, ctx_scope ctx = Some (r, i) -> 93%N ∉ r /\ 93%N ∉ i) /\
  (forall r ids, dget (ctx_instances ctx) r = Some ids -> Forall (fun i => 93%N ∉ i) ids).

(** Two rows, or two absences of one, that agree on the columns in [R]. *)
Definition rows_agree (R : gset pystr) (r1 r2 : option (odict value)) : Prop :=
  match r1, r2 with
  | Some a, Some b => forall k, k ∈ R -> vget a k = vget b k
  | None, None => True
  | _, _ => False
  end.

(** Two contexts that differ only in values of fields outside [S] and in
    columns of the candidate row outside [R]. *)
Record ctx_agree (S R : gset pystr) (c1 c2 : eval_ctx) : Prop := {
  agree_today : ctx_today c1 = ctx_today c2;
  agree_now : ctx_now c1 = ctx_now c2;
  agree_row : rows_agree R (ctx_row c1) (ctx_row c2);
  agree_metadata : ctx_metadata c1 = ctx_metadata c2;
  agree_scope : ctx_scope c1 = ctx_scope c2;
  agree_instances : ctx_instances c1 = ctx_instances c2;
  agree_datasets : ctx_datasets c1 = ctx_datasets c2;
  agree_values k : field_part k ∈ S -> dget (ctx_values c1) k = dget (ctx_values c2) k
}.

Lemma field_part_inst r i f : 93%N ∉ r -> 93%N ∉ i -> field_part (inst_path r i f) = f.
Proof.
  intros Hr Hi. unfold field_part, inst_path. change (lit "].") with [93; 46]%N. change (lit "[") with [91%N].
  replace (r ++ [91%N] ++ i ++ [93%N; 46%N] ++ f) with ((r ++ [91%N] ++ i) ++ 93%N :: 46%N :: f)
    by (by rewrite <- !app_assoc).
  rewrite cut_two; [done|]. rewrite !elem_of_app, list_elem_of_singleton. intuition congruence.
Qed.

Lemma field_part_bare f : 93%N ∉ f -> field_part f = f.
Proof. intros Hf. unfold field_part. change (lit "].") with [93; 46]%N. by rewrite cut_two_None. Qed.

Lemma agree_get S R c1 c2 k :
  ctx_agree S R c1 c2 -> field_part k ∈ S -> vget (ctx_values c1) k = vget (ctx_values c2) k.
Proof. intros Ha Hk. unfold vget. by rewrite (agree_values _ _ _ _ Ha k Hk). Qed.

Lemma no_brackets_spec s : no_brackets s = true <-> 91%N ∉ s /\ 93%N ∉ s.
Proof. unfold no_brackets. by rewrite andb_true_iff, !bool_decide_eq_true. Qed.

(** A well-spelled reference is bare, or [r[idx].f]. *)
Lemma path_ok_shape p :
  path_ok p = true ->
  no_brackets p = true \/
  exists r idx f, p = inst_path r idx f /\ no_brackets r = true /\ no_brackets idx = true /\ no_brackets f = true.
Proof.
  unfold path_ok. destruct (cut "[" p) as [[r rest]|] eqn:E; [|by left].
  destruct (cut "]." rest) as [[idx f]|] eqn:E2; [|done]. rewrite !andb_true_iff. intros [[] ].
  right. exists r, idx, f. split_and!; try done.
  apply cut_Some in E, E2. unfold inst_path. by rewrite E, E2.
Qed.

(** How the three separators cut a qualified path. *)
Lemma cut_once (c : N) sep a t :
  c ∉ a -> c ∉ t ->
  cut (c :: sep) (a ++ c :: t) = if prefixb sep t then Some (a, drop (length sep) t) else None.
Proof.
  intros Ha Ht. rewrite cut_skip by done. cbn [cut prefixb]. rewrite decide_True by done.
  rewrite (cut_char_absent c sep t) by done. change (drop (length (c :: sep)) (c :: t)) with (drop (length sep) t).
  destruct (prefixb sep t); [|done]. by rewrite app_nil_r.
Qed.

Lemma inst_path_cons r i f : inst_path r i f = r ++ 91%N :: (i ++ 93%N :: 46%N :: f).
Proof. reflexivity. Qed.

Lemma cut_inst_open r i f :
  91%N ∉ r -> 91%N ∉ i -> 93%N ∉ i -> 91%N ∉ f ->
  cut "[]." (inst_path r i f) = if decide (i = []) then Some (r, f) else None.
Proof.
  intros Hr Hi Hi' Hf. rewrite inst_path_cons. change (lit "[].") with [91; 93; 46]%N.
  rewrite cut_once; [|done|rewrite elem_of_app, !elem_of_cons; intuition lia].
  destruct i as [|x i]; simpl; [done|]. apply not_elem_of_cons in Hi' as [Hx _].
  rewrite decide_False by congruence. done.
Qed.

Lemma cut_inst_bracket r i f :
  91%N ∉ r -> 91%N ∉ i -> 91%N ∉ f ->
  cut "[" (inst_path r i f) = Some (r, i ++ 93%N :: 46%N :: f).
Proof.
  intros Hr Hi Hf. rewrite inst_path_cons. change (lit "[") with [91]%N.
  rewrite cut_once; [done|done|rewrite elem_of_app, !elem_of_cons; intuition lia].
Qed.

Lemma str_in_close r i f : str_in "]." (inst_path r i f) = true.
Proof.
  unfold str_in. rewrite inst_path_cons. change (lit "].") with [93; 46]%N.
  replace (r ++ 91%N :: (i ++ 93%N :: 46%N :: f)) with ((r ++ 91%N :: i) ++ [93; 46]%N ++ f)
    by (by rewrite <- !app_assoc).
  assert (forall sep a b, cut sep (a ++ sep ++ b) <> None) as Hc.
  { clear. intros sep a b. induction a as [|x a IH].
    - cbn [app]. destruct (sep ++ b) eqn:E; cbn [cut]; rewrite <- E, prefixb_app; done.
    - cbn [app cut]. destruct (prefixb _ _); [done|]. by destruct (cut sep _) as [[]|]. }
  specialize (Hc [93; 46]%N (r ++ 91%N :: i) f). by destruct (cut _ _).
Qed.

(** A function reads the clock and the datasets of its context, nothing else. *)
Lemma FUNCTIONS_env f impl lo hi c1 c2 args :
  dget FUNCTIONS f = Some (impl, lo, hi) ->
  ctx_today c1 = ctx_today c2 -> ctx_now c1 = ctx_now c2 -> ctx_datasets c1 = ctx_datasets c2 ->
  impl c1 args = impl c2 args.
Proof.
  intros Hget Ht Hn Hd. apply dget_Some_elem in Hget. unfold FUNCTIONS in Hget.
  repeat (apply elem_of_cons in Hget as [Heq|Hget];
          [apply pair_equal_spec in Heq as [-> Heq]; apply pair_equal_spec in Heq as [Heq _];
           apply pair_equal_spec in Heq as [-> _];
           first [reflexivity
                 | unfold fn_today, fn_now, fn_age_years, fn_pulldata; by rewrite ?Ht, ?Hn, ?Hd]|]).
  by apply not_elem_of_nil in Hget.
Qed.

(** The columns of the candidate row an expression reads. *)
Definition row_columns (e : expr) : gset pystr :=
  list_to_set (map (drop 5) (List.filter (fun p => startswith p "$row.") (elements (paths_of e)))).

Lemma row_columns_spec e k :
  k ∈ row_columns e <-> exists p, p ∈ paths_of e /\ startswith p "$row." = true /\ k = drop 5 p.
Proof.
  unfold row_columns. rewrite elem_of_list_to_set, list_elem_of_In, in_map_iff.
  setoid_rewrite filter_In. setoid_rewrite <- list_elem_of_In. setoid_rewrite elem_of_elements.
  naive_solver.
Qed.

Lemma resolve_frame S R c1 c2 p :
  off_form p = true \/ (path_ok p = true /\ field_part p ∈ S) ->
  (startswith p "$row." = true -> drop 5 p ∈ R) -> ids_ok c1 -> ctx_agree S R c1 c2 ->
  resolve_ p c1 = resolve_ p c2.
Proof.
  intros Hp Hrow [Hscope Hids] Ha. pose proof (agree_row _ _ _ _ Ha) as Hrows.
  unfold resolve_. rewrite <- (agree_metadata _ _ _ _ Ha),
    <- (agree_scope _ _ _ _ Ha), <- (agree_instances _ _ _ _ Ha).
  unfold off_form in Hp.
  destruct (startswith p "$row.").
  { unfold rows_agree in Hrows. repeat case_match; try done. f_equal. by apply Hrows, Hrow. }
  clear Hrow. destruct (startswith p "_metadata."); [done|].
  destruct Hp as [Hp|[Hok Hin]]; [done|].
  destruct (path_ok_shape _ Hok) as [Hb|(r & idx & f & -> & Hr & Hi & Hf)].
  - apply no_brackets_spec in Hb as [H91 H93].
    change (lit "[].") with [91; 93; 46]%N. rewrite cut_char_absent by done.
    unfold str_in at 1 3. change (lit "[") with [91%N] at 1 3. rewrite cut_char_absent by done. simpl.
    rewrite field_part_bare in Hin by done.
    assert (dget (ctx_values c1) p = dget (ctx_values c2) p) as Hbare.
    { apply (agree_values _ _ _ _ Ha). by rewrite field_part_bare. }
    rewrite <- Hbare. destruct (ctx_scope c1) as [[sr si]|] eqn:Es; [|done].
    destruct (Hscope sr si eq_refl) as [Hsr Hsi].
    rewrite (agree_values _ _ _ _ Ha (inst_path sr si p)); [done|]. by rewrite field_part_inst.
  - apply no_brackets_spec in Hr as [Hr1 Hr2], Hi as [Hi1 Hi2], Hf as [Hf1 Hf2].
    rewrite field_part_inst in Hin by done.
    assert (forall i, 93%N ∉ i -> vget (ctx_values c1) (inst_path r i f) = vget (ctx_values c2) (inst_path r i f)) as Hget.
    { intros i Hi'. eapply agree_get; [done|]. by rewrite field_part_inst. }
    assert (forall i, i ∈ default [] (dget (ctx_instances c1) r) -> 93%N ∉ i) as Hinst.
    { intros i. destruct (dget (ctx_instances c1) r) as [l|] eqn:El; simpl; [|set_solver].
      specialize (Hids r l El). rewrite Forall_forall in Hids. auto. }
    rewrite cut_inst_open, cut_inst_bracket, str_in_close by done.
    unfold str_in. rewrite cut_inst_bracket by done. simpl andb.
    case_decide; subst.
    { f_equal. f_equal. apply map_ext_in. intros i Hi'%list_elem_of_In. auto. }
    cbv iota. change (lit "].") with [93; 46]%N. rewrite cut_two by done.
    destruct (str_eqb _ _).
    + destruct (ctx_scope c1) as [[sr si]|] eqn:Es; [|done].
      destruct (Hscope sr si eq_refl) as [Hsr Hsi].
      destruct (str_eqb sr r); [|done]. f_equal. auto.
    + destruct (parse_int _) as [z|]; [|done]. destruct (_ || _); [done|].
      destruct (_ !! _) as [i|] eqn:El; [|done]. f_equal. apply Hget, Hinst.
      by eapply list_elem_of_lookup_2.
Qed.

(** Evaluation reads the fields [collect_refs] names, and no other. *)
Lemma evaluate_frame e c1 c2 :
  (forall p, p ∈ paths_of e -> off_form p = true \/ path_ok p = true) ->
  ids_ok c1 -> ctx_agree (collect_refs e) (row_columns e) c1 c2 -> evaluate c1 e = evaluate c2 e.
Proof.
  intros Hp Hids Ha.
  assert (forall S R, collect_refs e ⊆ S -> (forall p, p ∈ paths_of e -> startswith p "$row." = true -> drop 5 p ∈ R) ->
          ctx_agree S R c1 c2 -> evaluate c1 e = evaluate c2 e) as H'.
  2:{ eapply H'; [done| |done]. intros p Hin Hrow. apply row_columns_spec. eauto. }
  clear Ha. revert Hp.
  induction e as [v|p|op a IH|f a IH|op a IH|a IH|a IH|] using expr_ind';
    intros Hp S R Hsub Hrow Ha; try done.
  - cbn [evaluate]. eapply resolve_frame; [|apply Hrow; set_solver|done|done].
    destruct (Hp p) as [|Hok]; [set_solver|by left|].
    simpl in Hsub. destruct (off_form p); [by left|right]. split; [done|set_solver].
  - simpl. f_equal. apply map_evaluate_ext. rewrite Forall_forall in *. intros x Hx.
    eapply (IH x Hx); [|intros y Hy; apply Hsub| |done].
    + intros p Hpx. apply Hp. simpl. apply elem_of_union_map. eauto.
    + simpl. apply elem_of_union_map. eauto.
    + intros p Hpx. apply Hrow. simpl. apply elem_of_union_map. eauto.
  - cbn [evaluate]. assert (map (evaluate c1) a = map (evaluate c2) a) as ->.
    { apply map_evaluate_ext. rewrite Forall_forall in *. intros x Hx.
      eapply (IH x Hx); [|intros y Hy; apply Hsub| |done].
      + intros p Hpx. apply Hp. simpl. apply elem_of_union_map. eauto.
      + simpl. apply elem_of_union_map. eauto.
      + intros p Hpx. apply Hrow. simpl. apply elem_of_union_map. eauto. }
    apply eval_call_ext. intros impl lo hi args Hget. eapply FUNCTIONS_env; [done|apply Ha..].
Qed.

End Facts.
