(* ===== verification/Text.v ===== *)
(** * Interpolated labels: form_engine/text.py (Form IR 7.1)

    A template is read once, left to right, by the pattern
    [\{\{|\}\}|\{(\d+)\}]; [scan] is that reading, and [slot_indices] and
    [render] are folds over it. *)

From S2P Require Import Prelude PyStr PyNum PyDate Value Expr Expression.

Definition LBRACE : N := 123.
Definition RBRACE : N := 125.
Definition FIRST_STRONG_ISOLATE : N := 8296.
Definition POP_DIRECTIONAL_ISOLATE : N := 8297.

(** What one match of [_SLOT], or one character outside any match, is. *)
Inductive piece :=
| PChar (c : N)
| POpen                (* [{{] *)
| PClose               (* [}}] *)
| PSlot (index : N).   (* [{n}] *)

(** [\{(\d+)\}] at the start of the text: the digits and the length matched. *)
Definition slot_at (s : pystr) : option (N * nat) :=
  match s with
  | c :: r =>
      if decide (c = LBRACE) then
        let '(ds, r') := span_digits r in
        match ds, r' with
        | _ :: _, e :: _ =>
            if decide (e = RBRACE) then Some (digits_val ds, 2 + length ds)%nat else None
        | _, _ => None
        end
      else None
  | [] => None
  end.

(** The match at the start of the text, with the number of characters it
    takes; the alternatives in the pattern's order. *)
Definition next_piece (c : N) (r : pystr) : piece * nat :=
  if prefixb [LBRACE; LBRACE] (c :: r) then (POpen, 2%nat)
  else if prefixb [RBRACE; RBRACE] (c :: r) then (PClose, 2%nat)
  else match slot_at (c :: r) with
       | Some (i, n) => (PSlot i, n)
       | None => (PChar c, 1%nat)
       end.

(** [skip] characters belong to a match already emitted. *)
Fixpoint scan_from (skip : nat) (s : pystr) : list piece :=
  match s with
  | [] => []
  | c :: r =>
      match skip with
      | S k => scan_from k r
      | O => let '(p, n) := next_piece c r in p :: scan_from (n - 1) r
      end
  end.

Definition scan : pystr -> list piece := scan_from 0.

Definition slot_indices (template : pystr) : list N :=
  omap (fun p => match p with PSlot i => Some i | _ => None end) (scan template).

Definition isolate (text : pystr) : pystr :=
  match text with
  | [] => []
  | _ => FIRST_STRONG_ISOLATE :: text ++ [POP_DIRECTIONAL_ISOLATE]
  end.

Definition fill (values : list pystr) (p : piece) : pystr :=
  match p with
  | PChar c => [c]
  | POpen => [LBRACE]
  | PClose => [RBRACE]
  | PSlot i => match values !! N.to_nat i with Some v => isolate v | None => [] end
  end.

Definition render (template : pystr) (values : list pystr) : pystr :=
  concat (map (fill values) (scan template)).

(** [node.get(args_key) or []], the expressions of a template. *)
Definition text_args (node : odict value) (args_key : pystr) : list value :=
  vlist (vget node args_key).

(** One label or message in one language. *)
Definition render_field_text `{PyEnv} (node : odict value) (key args_key language : pystr)
    (ctx : eval_ctx) : res (option pystr) :=
  match vget node key with
  | VDict strings =>
      match vget strings language with
      | VStr template =>
          match text_args node args_key with
          | [] => Ok (Some template)
          | args =>
              values ← mapR (fun e => v ← evaluate ctx (expr_of e);
                                      Ok (default [] (cast_str v))) args;
              Ok (Some (render template values))
          end
      | _ => Ok None
      end
  | _ => Ok None
  end.

(** ** Properties *)

(** A literal text, its braces doubled. *)
Definition escape (s : pystr) : pystr :=
  concat (map (fun c => if decide (c = LBRACE) then [LBRACE; LBRACE]
                        else if decide (c = RBRACE) then [RBRACE; RBRACE] else [c]) s).

Definition lit_piece (c : N) : piece :=
  if decide (c = LBRACE) then POpen else if decide (c = RBRACE) then PClose else PChar c.

Lemma scan_lit c t :
  scan ((if decide (c = LBRACE) then [LBRACE; LBRACE]
         else if decide (c = RBRACE) then [RBRACE; RBRACE] else [c]) ++ t) = lit_piece c :: scan t.
Proof.
  unfold lit_piece, scan. case_decide; subst; [done|]. case_decide; subst; [done|].
  cbn [app scan_from]. unfold next_piece. cbn [prefixb]. rewrite !decide_False by congruence.
  unfold slot_at. by rewrite decide_False by congruence.
Qed.

Lemma scan_escape s t : scan (escape s ++ t) = map lit_piece s ++ scan t.
Proof.
  unfold escape. induction s as [|c s IH]; [done|].
  cbn [map concat]. by rewrite <- app_assoc, scan_lit, IH.
Qed.

Lemma span_digits_app ds e r :
  forallb is_digit ds = true -> is_digit e = false -> span_digits (ds ++ e :: r) = (ds, e :: r).
Proof.
  induction ds as [|d ds IH]; simpl; intros H He; [by rewrite He|].
  apply andb_true_iff in H as [Hd H]. rewrite Hd, IH by done. done.
Qed.

Lemma scan_skip s t : scan_from (length s) (s ++ t) = scan t.
Proof. unfold scan. induction s as [|c s IH]; simpl; [done|]. exact IH. Qed.

(** The slot [{n}] as an author writes it. *)
Definition slot (n : N) : pystr := LBRACE :: str_N n ++ [RBRACE].

Lemma scan_slot n t : scan (slot n ++ t) = PSlot n :: scan t.
Proof.
  pose proof (str_N_spec n) as (Hval & Hd & Hne). pose proof (all_digits_str_N n) as Hall.
  unfold slot, scan. cbn [app scan_from]. unfold next_piece.
  assert (prefixb [LBRACE; LBRACE] (LBRACE :: (str_N n ++ [RBRACE]) ++ t) = false) as ->.
  { cbn [prefixb]. rewrite decide_True by done. destruct (str_N n) as [|d ds]; [done|].
    apply Forall_cons in Hd as [Hd _]. cbn [app]. rewrite decide_False; [done|]. unfold LBRACE. lia. }
  assert (prefixb [RBRACE; RBRACE] (LBRACE :: (str_N n ++ [RBRACE]) ++ t) = false) as -> by done.
  unfold slot_at. rewrite decide_True by done. rewrite <- app_assoc. cbn [app].
  assert (forallb is_digit (str_N n) = true) as Hdig by (unfold all_digits in Hall; by destruct (str_N n)).
  rewrite span_digits_app by done.
  destruct (str_N n) as [|d ds] eqn:E; [done|]. rewrite decide_True by done.
  rewrite Hval, <- E.
  f_equal. replace (2 + length (str_N n) - 1)%nat with (length (str_N n ++ [RBRACE]))
    by (rewrite length_app; simpl; lia).
  replace (str_N n ++ RBRACE :: t) with ((str_N n ++ [RBRACE]) ++ t) by (by rewrite <- app_assoc).
  apply scan_skip.
Qed.

Lemma render_app_scan a b vs t :
  scan (a ++ b) = t -> render (a ++ b) vs = concat (map (fill vs) t).
Proof. unfold render. by intros ->. Qed.

Lemma fill_lit vs s : concat (map (fill vs) (map lit_piece s)) = s.
Proof.
  induction s as [|c s IH]; cbn [map concat]; [done|]. rewrite IH. unfold lit_piece.
  repeat case_decide; subst; done.
Qed.

Lemma render_literal s vs : render (escape s) vs = s.
Proof.
  rewrite <- (app_nil_r (escape s)). erewrite render_app_scan by apply scan_escape.
  rewrite map_app, concat_app, fill_lit. apply app_nil_r.
Qed.

Lemma render_slot s n t vs :
  render (escape s ++ slot n ++ t) vs =
  s ++ match vs !! N.to_nat n with Some v => isolate v | None => [] end ++ render t vs.
Proof.
  unfold render. rewrite scan_escape, scan_slot, map_app, concat_app, fill_lit. done.
Qed.

(** A value comes back out of its isolates, and nothing else of the text is
    inside them. *)
Definition unisolate (s : pystr) : pystr :=
  match s with
  | [] => []
  | _ :: r => removelast r
  end.

Lemma unisolate_isolate s : unisolate (isolate s) = s.
Proof. destruct s as [|c s]; [done|]. cbn [isolate unisolate app]. apply (removelast_last (c :: s)). Qed.

Lemma slot_indices_escape s n t :
  slot_indices (escape s ++ slot n ++ t) = n :: slot_indices t.
Proof.
  unfold slot_indices. rewrite scan_escape, scan_slot, omap_app.
  replace (omap _ (map lit_piece s)) with ([] : list N); [done|].
  induction s as [|c s IH]; [done|]. simpl. unfold lit_piece at 1. repeat case_decide; done.
Qed.

(** Which pieces a template has is all [render] reads of it: slots beyond
    [values] are the only ones rendered empty. *)
Lemma render_values_ext template vs vs' :
  (forall i, i ∈ slot_indices template -> vs !! N.to_nat i = vs' !! N.to_nat i) ->
  render template vs = render template vs'.
Proof.
  unfold render, slot_indices. induction (scan template) as [|p ps IH]; intros H; [done|]. simpl.
  rewrite IH by (intros i Hi; apply H; destruct p; simpl; set_solver).
  f_equal. destruct p; simpl; try done. rewrite H; [done|]. simpl. set_solver.
Qed.
