(* ===== verification/Surface.v ===== *)
(** * Expression text: forms/xlsform/expressions.py

    The tokenizer, the precedence ladder and [translate], which compile
    XLSForm's XPath and the builder's code field into Form IR nodes.  The
    ladder's functions take the tokens left and give the node with the tokens
    left after it; [parse_or] recurses on fuel, and a token per step is
    enough of it ([SurfaceFacts.parse_or_fuel]).  The dicts the code builds
    are the nodes of [Expr].

    The Unicode database is the class [UnicodeDB]: [\w] in a regular
    expression, and the [str()] of a list or an object, whose strings are
    escaped by Unicode category.  Case mapping is [PyEnv]'s [str_lower]. *)

From S2P Require Import Prelude PyStr PyNum Value Expr Expression.

Class UnicodeDB := {
  is_word : N -> bool;                  (* [\w], one character *)
  str_container : value -> pystr        (* [str()] of a list or a dict *)
}.

(** ** Errors *)

Inductive problem :=
| MissingBrace                                   (* a [${...}] never closed *)
| MissingQuote
| UnexpectedCharacter (c : N)
| EndsSooner
| Expected (text : pystr) (found : option pystr)
| Trailing (text : pystr)
| NoCurrentQuestion                              (* [.] with no [self_path] *)
| BareName (text : pystr)
| UnexpectedText (text : pystr)
| Arity (fn : pystr)                             (* not(), selected(), if(), null() *)
| UnknownFunction (name : pystr)
| Empty.

Record expression_error := ExpressionError {
  err_problem : problem;
  err_function : option pystr;
  err_offset : option nat
}.

(** What leaves [translate] other than a node: its own error, an exception
    it does not catch, or (never, [parse_or_fuel]) the end of the fuel. *)
Inductive failure :=
| Refused (e : expression_error)
| Crashed (x : exn)
| OutOfFuel.

Inductive outcome (A : Type) := Done (a : A) | Halted (f : failure).
Arguments Done {A} a.
Arguments Halted {A} f.

#[global] Instance outcome_ret : MRet outcome := @Done.
#[global] Instance outcome_bind : MBind outcome := fun A B f m =>
  match m with Done a => f a | Halted e => Halted e end.

Definition refuse {A} (p : problem) (at_ : nat) : outcome A :=
  Halted (Refused (ExpressionError p None (Some at_))).

(** ** Tables *)

(** XPath function -> Form IR function. *)
Definition XPATH_FUNCTIONS : odict pystr :=
  [(lit "count", lit "count"); (lit "sum", lit "sum"); (lit "min", lit "min");
   (lit "max", lit "max"); (lit "count-selected", lit "count_selected");
   (lit "coalesce", lit "coalesce"); (lit "today", lit "today"); (lit "now", lit "now");
   (lit "string-length", lit "len"); (lit "upper-case", lit "upper");
   (lit "lower-case", lit "lower"); (lit "normalize-space", lit "trim");
   (lit "concat", lit "concat"); (lit "substr", lit "substr"); (lit "contains", lit "contains");
   (lit "starts-with", lit "starts_with"); (lit "ends-with", lit "ends_with");
   (lit "regex", lit "regex"); (lit "round", lit "round"); (lit "int", lit "int");
   (lit "number", lit "dec"); (lit "string", lit "str"); (lit "distance", lit "distance");
   (lit "pulldata", lit "pulldata"); (lit "sqrt", lit "sqrt"); (lit "sin", lit "sin");
   (lit "cos", lit "cos"); (lit "tan", lit "tan"); (lit "atan", lit "atan")].

Definition COMPARISONS : odict operator :=
  [(lit "=", OpEq); (lit "==", OpEq); (lit "!=", OpNe); (lit "<", OpLt); (lit "<=", OpLte);
   (lit ">", OpGt); (lit ">=", OpGte)].

(** The straight and curly quotes, and what closes each. *)
Definition CLOSERS : list (N * list N) :=
  [(39, [39]); (34, [34]); (8216, [8216; 8217]); (8217, [8216; 8217]);
   (8220, [8220; 8221]); (8221, [8220; 8221])]%N.

Definition closers_of (c : N) : option (list N) :=
  match list_find (fun q => q.1 = c) CLOSERS with Some (_, q) => Some q.2 | None => None end.

(** ** Tokens *)

Inductive kind := KRef | KString | KNumber | KDot | KOp | KName.

#[global] Instance kind_eq_dec : EqDecision kind.
Proof. solve_decision. Defined.

Record token := Token { t_kind : kind; t_text : pystr; t_offset : nat }.

(** [_closing_quote]: the text up to the first closer, and what follows it. *)
Fixpoint closing_quote (closers : list N) (s : pystr) : option (pystr * pystr) :=
  match s with
  | [] => None
  | c :: r =>
      if bool_decide (c ∈ closers) then Some ([], r)
      else match closing_quote closers r with
           | Some (body, rest) => Some (c :: body, rest)
           | None => None
           end
  end.

(** The regular expression [\d+(\.\d+)?|\.\d+], matched at the start: the
    text and what follows it. *)
Definition match_number (s : pystr) : option (pystr * pystr) :=
  match span_digits s with
  | ([], _) =>
      match s with
      | c :: r =>
          if bool_decide (c = 46%N) then
            match span_digits r with
            | ([], _) => None
            | (frac, rest) => Some (c :: frac, rest)
            end
          else None
      | [] => None
      end
  | (whole, c :: r) =>
      if bool_decide (c = 46%N) then
        match span_digits r with
        | ([], _) => Some (whole, c :: r)
        | (frac, rest) => Some (whole ++ c :: frac, rest)
        end
      else Some (whole, c :: r)
  | (whole, []) => Some (whole, [])
  end.

Section WithUnicode.
Context `{!PyEnv} `{!UnicodeDB}.

Definition name_start (c : N) : bool :=
  bool_decide (65 <= c <= 90)%N || bool_decide (97 <= c <= 122)%N || bool_decide (c = 95%N).
Definition name_char (c : N) : bool :=
  is_word c || bool_decide (c = 46%N) || bool_decide (c = 45%N).

Fixpoint span_name (s : pystr) : pystr * pystr :=
  match s with
  | c :: r => if name_char c then let '(n, t) := span_name r in (c :: n, t) else ([], s)
  | [] => ([], [])
  end.

(** The regular expression [[A-Za-z_][\w.\-]*] *)
Definition match_name (s : pystr) : option (pystr * pystr) :=
  match s with
  | c :: r => if name_start c then let '(n, t) := span_name r in Some (c :: n, t) else None
  | [] => None
  end.

Definition two_char_ops : list pystr := [lit "!="; lit "<="; lit ">="; lit "=="].
Definition one_char_ops : pystr := lit "=<>+-*(),".

(** [isdigit] of one character *)
Definition digit_char (c : N) : bool := isdigit [c].

(** One step of [_tokenize]'s loop, at a nonempty suffix: the token read
    there, if any, and the suffix to go on with. *)
Definition next_token (index : nat) (s : pystr) : outcome (option token * pystr) :=
  match s with
  | [] => Done (None, [])
  | c :: r =>
      if is_space c then Done (None, r)
      else if startswith s "${" then
        match cut "}" s with
        | None => refuse MissingBrace index
        | Some (before_, rest) => Done (Some (Token KRef (strip (drop 2 before_)) index), rest)
        end
      else match closers_of c with
      | Some closers =>
          match closing_quote closers r with
          | None => refuse MissingQuote index
          | Some (body, rest) => Done (Some (Token KString body index), rest)
          end
      | None =>
      if digit_char c || (bool_decide (c = 46%N) &&
                          match r with d :: _ => digit_char d | [] => false end) then
        match match_number s with
        | None => Halted (Crashed AssertionError)
        | Some (text, rest) => Done (Some (Token KNumber text index), rest)
        end
      else if bool_decide (c = 46%N) && negb (startswith s "..") then
        Done (Some (Token KDot "." index), r)
      else if bool_decide (take 2 s ∈ two_char_ops) then
        Done (Some (Token KOp (take 2 s) index), drop 2 s)
      else if bool_decide (c ∈ one_char_ops) then Done (Some (Token KOp [c] index), r)
      else match match_name s with
           | Some (text, rest) => Done (Some (Token KName text index), rest)
           | None => refuse (UnexpectedCharacter c) index
           end
      end
  end.

(** [_tokenize] from the suffix [s] at position [index]. *)
Fixpoint tokenize_from (fuel index : nat) (s : pystr) : outcome (list token) :=
  match s with
  | [] => Done []
  | _ =>
      match fuel with
      | O => Halted OutOfFuel
      | S f =>
          '(t, rest) ← next_token index s;
          more ← tokenize_from f (index + (length s - length rest)) rest;
          Done (match t with Some t => t :: more | None => more end)
      end
  end.

Definition tokenize (source : pystr) : outcome (list token) :=
  tokenize_from (length source) 0 source.

(** ** The parser *)

(** [token.text.lower() == text], of a token of the kind given. *)
Definition is_tok (k : kind) (text : pystr) (t : token) : bool :=
  bool_decide (t_kind t = k) && str_eqb (str_lower (t_text t)) text.

(** [accept(kind, text)]: the tokens after the one accepted. *)
Definition accept (k : kind) (text : pystr) (ts : list token) : option (list token) :=
  match ts with t :: r => if is_tok k text t then Some r else None | [] => None end.

Definition next_text_is (text : pystr) (ts : list token) : bool :=
  match ts with t :: _ => str_eqb (t_text t) text | [] => false end.

Definition next_op_is (text : pystr) (ts : list token) : bool :=
  match ts with t :: _ => bool_decide (t_kind t = KOp) && str_eqb (t_text t) text | [] => false end.

(** CPython refuses [int] of a longer text (sys.int_info). *)
Definition INT_TEXT_LIMIT : nat := 4300.

(** [float(text)] or [int(text)] of a number token. *)
Definition number_value (text : pystr) : outcome value :=
  if bool_decide (46%N ∈ text) then
    match parse_float text with Some f => Done (VFloat f) | None => Halted (Crashed ValueError) end
  else if bool_decide (INT_TEXT_LIMIT < length text)%nat then Halted (Crashed ValueError)
  else match parse_int text with Some z => Done (VInt z) | None => Halted (Crashed ValueError) end.

(** [{op: ..., args: ...}] for a chain: one operand is itself. *)
Definition chain (op : operator) (args : list expr) : expr :=
  match args with [a] => a | _ => EOp op args end.

Section Parser.
Variable end_ : nat.                  (* where the source ends *)
Variable self_path : option pystr.
Variable row_scope : bool.
Variable ir_functions : bool.

(** [self.functions.get(name)], [{**_FUNCTIONS, **_IR_ONLY_FUNCTIONS}] *)
Definition function_target (name : pystr) : option pystr :=
  if ir_functions && dhas FUNCTIONS name then Some name else dget XPATH_FUNCTIONS name.

Definition expect_op (text : pystr) (ts : list token) : outcome (list token) :=
  match accept KOp text ts with
  | Some r => Done r
  | None =>
      match ts with
      | found :: _ => refuse (Expected text (Some (t_text found))) (t_offset found)
      | [] => refuse (Expected text None) end_
      end
  end.

(** What [parse_call] makes of a name and its arguments. *)
Definition call_node (name : pystr) (offset : nat) (args : list expr) : outcome expr :=
  let lowered := str_lower name in
  if str_eqb lowered "not" then
    if bool_decide (length args <> 1%nat) then refuse (Arity "not") offset else Done (EOp OpNot args)
  else if str_eqb lowered "selected" then
    if bool_decide (length args <> 2%nat) then refuse (Arity "selected") offset
    else Done (EOp OpSelected args)
  else if str_eqb lowered "if" then
    if bool_decide (length args <> 3%nat) then refuse (Arity "if") offset else Done (EOp OpIf args)
  else if str_eqb lowered "null" && ir_functions then
    match args with [] => Done (ELit VNone) | _ => refuse (Arity "null") offset end
  else match function_target lowered with
       | None => Halted (Refused (ExpressionError (UnknownFunction name) (Some lowered) (Some offset)))
       | Some target => Done (ECall target args)
       end.

(** The comparison operator a token is, [token.text in _COMPARISONS]. *)
Definition comparison_op (t : token) : option operator :=
  if bool_decide (t_kind t = KOp) then dget COMPARISONS (t_text t) else None.

(** The operator a token is at the additive level: [+], [-] and the words. *)
Definition additive_op (t : token) : option operator :=
  if bool_decide (t_kind t = KOp) then
    if str_eqb (t_text t) "+" then Some OpAdd
    else if str_eqb (t_text t) "-" then Some OpSub else None
  else if bool_decide (t_kind t = KName) then
    let w := str_lower (t_text t) in
    if str_eqb w "div" then Some OpDiv
    else if str_eqb w "mod" then Some OpMod
    else if ir_functions && str_eqb w "idiv" then Some OpIdiv else None
  else None.

Definition is_times (t : token) : bool := bool_decide (t_kind t = KOp) && str_eqb (t_text t) "*".

Abbreviation parsed := (outcome (expr * list token)) (only parsing).

(** The ladder over [parse_or] of a smaller fuel; [fuel] also bounds the
    loops, each of which reads a token a round. *)
Section Ladder.
Variable parse_or : list token -> parsed.

Fixpoint more_args (fuel : nat) (ts : list token) : outcome (list expr * list token) :=
  match fuel with
  | O => Halted OutOfFuel
  | S f =>
      match accept KOp "," ts with
      | None => Done ([], ts)
      | Some r =>
          '(a, r) ← parse_or r;
          '(more, r) ← more_args f r;
          Done (a :: more, r)
      end
  end.

Definition parse_call (fuel : nat) (name : pystr) (offset : nat) (ts : list token) : parsed :=
  ts ← expect_op "(" ts;
  '(args, ts) ← (if next_op_is ")" ts then Done ([], ts)
                 else '(a, ts) ← parse_or ts;
                      '(more, ts) ← more_args fuel ts;
                      Done (a :: more, ts));
  ts ← expect_op ")" ts;
  node ← call_node name offset args;
  Done (node, ts).

Definition parse_name (fuel : nat) (t : token) (r : list token) : parsed :=
  let lowered := str_lower (t_text t) in
  if (str_eqb lowered "true" || str_eqb lowered "false") && next_text_is "(" r then
    r ← expect_op ")" (drop 1 r);
    Done (ELit (VBool (str_eqb lowered "true")), r)
  else if next_op_is "(" r then parse_call fuel (t_text t) (t_offset t) r
  else if row_scope then Done (ERef (lit "$row." ++ t_text t), r)
  else refuse (BareName (t_text t)) (t_offset t).

Definition parse_primary (fuel : nat) (ts : list token) : parsed :=
  match ts with
  | [] => refuse EndsSooner end_
  | t :: r =>
      match t_kind t with
      | KNumber => v ← number_value (t_text t); Done (ELit v, r)
      | KString => Done (ELit (VStr (t_text t)), r)
      | KRef => Done (ERef (t_text t), r)
      | KDot =>
          match self_path with
          | None => refuse NoCurrentQuestion (t_offset t)
          | Some p => Done (ERef p, r)
          end
      | KOp =>
          if str_eqb (t_text t) "(" then
            '(node, r) ← parse_or r;
            r ← expect_op ")" r;
            Done (node, r)
          else refuse (UnexpectedText (t_text t)) (t_offset t)
      | KName => parse_name fuel t r
      end
  end.

Fixpoint parse_unary (fuel : nat) (ts : list token) : parsed :=
  match ts with
  | t :: r =>
      if is_tok KOp "-" t then '(node, r) ← parse_unary fuel r; Done (EOp OpNeg [node], r)
      else parse_primary fuel ts
  | [] => parse_primary fuel ts
  end.

Fixpoint mul_loop (fuel : nat) (node : expr) (ts : list token) : parsed :=
  match fuel with
  | O => Halted OutOfFuel
  | S f =>
      match ts with
      | t :: r =>
          if is_times t then
            '(rhs, r) ← parse_unary f r;
            mul_loop f (EOp OpMul [node; rhs]) r
          else Done (node, ts)
      | [] => Done (node, ts)
      end
  end.

Definition parse_multiplicative (fuel : nat) (ts : list token) : parsed :=
  '(node, ts) ← parse_unary fuel ts;
  mul_loop fuel node ts.

Fixpoint add_loop (fuel : nat) (node : expr) (ts : list token) : parsed :=
  match fuel with
  | O => Halted OutOfFuel
  | S f =>
      match ts with
      | t :: r =>
          match additive_op t with
          | Some op =>
              '(rhs, r) ← parse_multiplicative f r;
              add_loop f (EOp op [node; rhs]) r
          | None => Done (node, ts)
          end
      | [] => Done (node, ts)
      end
  end.

Definition parse_additive (fuel : nat) (ts : list token) : parsed :=
  '(node, ts) ← parse_multiplicative fuel ts;
  add_loop fuel node ts.

Definition parse_comparison (fuel : nat) (ts : list token) : parsed :=
  '(lhs, ts) ← parse_additive fuel ts;
  match ts with
  | t :: r =>
      match comparison_op t with
      | Some op => '(rhs, r) ← parse_additive fuel r; Done (EOp op [lhs; rhs], r)
      | None => Done (lhs, ts)
      end
  | [] => Done (lhs, ts)
  end.

(** The operands of a chain of [and] (or [or]) after the first one. *)
Fixpoint chain_loop (word : pystr) (operand : nat -> list token -> parsed)
    (fuel : nat) (ts : list token) : outcome (list expr * list token) :=
  match fuel with
  | O => Halted OutOfFuel
  | S f =>
      match accept KName word ts with
      | None => Done ([], ts)
      | Some r =>
          '(a, r) ← operand f r;
          '(more, r) ← chain_loop word operand f r;
          Done (a :: more, r)
      end
  end.

Definition parse_and (fuel : nat) (ts : list token) : parsed :=
  '(a, ts) ← parse_comparison fuel ts;
  '(more, ts) ← chain_loop "and" parse_comparison fuel ts;
  Done (chain OpAnd (a :: more), ts).

Definition parse_or_with (fuel : nat) (ts : list token) : parsed :=
  '(a, ts) ← parse_and fuel ts;
  '(more, ts) ← chain_loop "or" parse_and fuel ts;
  Done (chain OpOr (a :: more), ts).
End Ladder.

Fixpoint parse_or (fuel : nat) (ts : list token) : parsed :=
  match fuel with
  | O => Halted OutOfFuel
  | S f => parse_or_with (parse_or f) fuel ts
  end.

(** [_Parser.parse] *)
Definition parse_tokens (ts : list token) : outcome expr :=
  '(node, rest) ← parse_or (S (length ts)) ts;
  match rest with
  | t :: _ => refuse (Trailing (t_text t)) (t_offset t)
  | [] => Done node
  end.
End Parser.

(** The caret moves by the whitespace [strip] took off the front. *)
Definition shift_error (lead : nat) (f : failure) : failure :=
  match f with
  | Refused (ExpressionError p fn (Some o)) => Refused (ExpressionError p fn (Some (o + lead)%nat))
  | _ => f
  end.

Definition translate (source : pystr) (self_path : option pystr) (row_scope ir_functions : bool)
  : outcome expr :=
  let text := strip source in
  match text with
  | [] => Halted (Refused (ExpressionError Empty None None))
  | _ =>
      let lead := (length source - length (lstrip source))%nat in
      match (ts ← tokenize text; parse_tokens (length text) self_path row_scope ir_functions ts) with
      | Done e => Done e
      | Halted f => Halted (shift_error lead f)
      end
  end.

(** expression_text.py's [parse]: the builder's function surface is on. *)
Definition parse (source : pystr) (self_path : option pystr) (row_scope : bool) : outcome expr :=
  translate source self_path row_scope true.

(** [references]: every path the expression reads, [$row.] ones included. *)
Fixpoint references (e : expr) : gset pystr :=
  match e with
  | ERef path => {[ path ]}
  | EOp _ a | ECall _ a | EUnknown _ a | EMissing a | ENoOp a => ⋃ (map references a)
  | ELit _ | ENotDict => ∅
  end.

(** [substitutions]: the names of the [${...}] of a label; whitespace may
    surround the name, which is spelled as a name token is. *)
Definition match_substitution (s : pystr) : option (pystr * pystr) :=
  match s with
  | a :: b :: r =>
      if bool_decide (a = 36%N) && bool_decide (b = 123%N) then
        match match_name (lstrip r) with
        | Some (name, t) =>
            match lstrip t with
            | c :: rest => if bool_decide (c = 125%N) then Some (name, rest) else None
            | [] => None
            end
        | None => None
        end
      else None
  | _ => None
  end.

Fixpoint substitutions_from (fuel : nat) (s : pystr) : list pystr :=
  match fuel, s with
  | S f, _ :: r =>
      match match_substitution s with
      | Some (name, rest) => name :: substitutions_from f rest
      | None => substitutions_from f r
      end
  | _, _ => []
  end.

Definition substitutions (text : pystr) : list pystr := substitutions_from (length text) text.

End WithUnicode.

(** An instance for closed examples: the ASCII word characters. *)
Definition ascii_word (c : N) : bool :=
  bool_decide (48 <= c <= 57)%N || bool_decide (65 <= c <= 90)%N || bool_decide (97 <= c <= 122)%N
  || bool_decide (c = 95%N).
Definition ascii_unicode : UnicodeDB := {| is_word := ascii_word; str_container := fun _ => [] |}.
