(* ===== verification/Grammar.v ===== *)
(** * The grammar of expression text, and the parser against it

    The precedence ladder the header of xlsform/expressions.py names, as
    inductive predicates on token lists: [g_or e ts] when the tokens spell
    the node.  [parse_or] reads a spelling whenever it answers, its carets
    stay inside the source and its fuel never runs out ([parse_or_reads]);
    and it reads every spelling ([parse_or_complete]), so a text has at most
    one reading. *)

From S2P Require Import Prelude PyStr PyNum Value Expr Expression Surface.

(** What the proofs use of the Unicode database: on ASCII text [lower] is
    ASCII case mapping and [\w] the letters, the digits and the underscore,
    no other character is the capital of an ASCII symbol, and no space is a
    word character. *)
Class UnicodeLaws `{!PyEnv} `{!UnicodeDB} := {
  lower_ascii s : Forall (fun c => (c < 128)%N) s -> str_lower s = map ascii_lower s;
  lower_symbol s c : (c < 65)%N -> str_lower s = [c] -> s = [c];
  word_ascii c : (c < 128)%N -> is_word c = ascii_word c;
  word_no_space c : is_word c = true -> is_space c = false
}.

#[global] Instance ascii_laws : @UnicodeLaws ascii_env ascii_unicode.
Proof.
  split; [done| |done|].
  - intros s c Hc. destruct s as [|x [|]]; [done| |done]. simpl. unfold ascii_lower.
    case_bool_decide; intros [= ?]; [lia|by subst].
  - intros c Hc. destruct (is_space c) eqn:E; [|done]. unfold is_space in E.
    apply bool_decide_eq_true in E.
    repeat (apply elem_of_cons in E as [->|E]; [by vm_compute in Hc|]). by apply not_elem_of_nil in E.
Qed.

(** A token text that is already lower case, such as an operator. *)
Definition plain (s : pystr) : bool :=
  forallb (fun c => bool_decide (c < 128)%N && bool_decide (ascii_lower c = c)) s.

Lemma lower_plain `{UnicodeLaws} s : plain s = true -> str_lower s = s.
Proof.
  unfold plain. rewrite forallb_forall. intros Hs.
  assert (Forall (fun c => (c < 128)%N /\ ascii_lower c = c) s) as Hf.
  { apply Forall_forall. intros c Hc%list_elem_of_In%Hs.
    apply andb_true_iff in Hc. by rewrite !bool_decide_eq_true in Hc. }
  rewrite lower_ascii by (eapply Forall_impl; [exact Hf|]; by intros ? []).
  rewrite <- (map_id s) at 2. apply map_ext_in. intros c Hc%list_elem_of_In.
  rewrite Forall_forall in Hf. by apply Hf.
Qed.

Section Grammar.
Context `{!PyEnv} `{!UnicodeDB}.
Variable self_path : option pystr.
Variable row_scope ir_functions : bool.

Inductive g_or : expr -> list token -> Prop :=
| G_or a l ts ts' : g_and a ts -> g_or_more l ts' -> g_or (chain OpOr (a :: l)) (ts ++ ts')
with g_or_more : list expr -> list token -> Prop :=
| G_or_nil : g_or_more [] []
| G_or_cons t a l ts ts' :
    is_tok KName "or" t = true -> g_and a ts -> g_or_more l ts' ->
    g_or_more (a :: l) (t :: ts ++ ts')
with g_and : expr -> list token -> Prop :=
| G_and a l ts ts' : g_cmp a ts -> g_and_more l ts' -> g_and (chain OpAnd (a :: l)) (ts ++ ts')
with g_and_more : list expr -> list token -> Prop :=
| G_and_nil : g_and_more [] []
| G_and_cons t a l ts ts' :
    is_tok KName "and" t = true -> g_cmp a ts -> g_and_more l ts' ->
    g_and_more (a :: l) (t :: ts ++ ts')
with g_cmp : expr -> list token -> Prop :=
| G_cmp_one a ts : g_add a ts -> g_cmp a ts
| G_cmp_two t op a b ts ts' :
    g_add a ts -> comparison_op t = Some op -> g_add b ts' ->
    g_cmp (EOp op [a; b]) (ts ++ t :: ts')
with g_add : expr -> list token -> Prop :=
| G_add a e ts ts' : g_mul a ts -> g_add_more a e ts' -> g_add e (ts ++ ts')
with g_add_more : expr -> expr -> list token -> Prop :=
| G_add_nil a : g_add_more a a []
| G_add_cons t op a b e ts ts' :
    additive_op ir_functions t = Some op -> g_mul b ts -> g_add_more (EOp op [a; b]) e ts' ->
    g_add_more a e (t :: ts ++ ts')
with g_mul : expr -> list token -> Prop :=
| G_mul a e ts ts' : g_unary a ts -> g_mul_more a e ts' -> g_mul e (ts ++ ts')
with g_mul_more : expr -> expr -> list token -> Prop :=
| G_mul_nil a : g_mul_more a a []
| G_mul_cons t a b e ts ts' :
    is_times t = true -> g_unary b ts -> g_mul_more (EOp OpMul [a; b]) e ts' ->
    g_mul_more a e (t :: ts ++ ts')
with g_unary : expr -> list token -> Prop :=
| G_neg t a ts : is_tok KOp "-" t = true -> g_unary a ts -> g_unary (EOp OpNeg [a]) (t :: ts)
| G_primary a ts : g_primary a ts -> g_unary a ts
with g_primary : expr -> list token -> Prop :=
| G_number t v : t_kind t = KNumber -> number_value (t_text t) = Done v -> g_primary (ELit v) [t]
| G_string t : t_kind t = KString -> g_primary (ELit (VStr (t_text t))) [t]
| G_ref t : t_kind t = KRef -> g_primary (ERef (t_text t)) [t]
| G_dot t p : t_kind t = KDot -> self_path = Some p -> g_primary (ERef p) [t]
| G_paren t t' a ts :
    t_kind t = KOp -> t_text t = lit "(" -> g_or a ts -> is_tok KOp ")" t' = true ->
    g_primary a (t :: ts ++ [t'])
| G_bool t u t' :
    t_kind t = KName -> str_lower (t_text t) = lit "true" \/ str_lower (t_text t) = lit "false" ->
    t_text u = lit "(" -> is_tok KOp ")" t' = true ->
    g_primary (ELit (VBool (str_eqb (str_lower (t_text t)) "true"))) [t; u; t']
| G_row t :
    t_kind t = KName -> row_scope = true -> g_primary (ERef (lit "$row." ++ t_text t)) [t]
| G_call t u t' args e ts :
    t_kind t = KName -> str_lower (t_text t) <> lit "true" -> str_lower (t_text t) <> lit "false" ->
    t_kind u = KOp -> t_text u = lit "(" -> g_args args ts -> is_tok KOp ")" t' = true ->
    call_node ir_functions (t_text t) (t_offset t) args = Done e ->
    g_primary e (t :: u :: ts ++ [t'])
with g_args : list expr -> list token -> Prop :=
| G_args_nil : g_args [] []
| G_args a l ts ts' : g_or a ts -> g_args_more l ts' -> g_args (a :: l) (ts ++ ts')
with g_args_more : list expr -> list token -> Prop :=
| G_args_more_nil : g_args_more [] []
| G_args_more_cons t a l ts ts' :
    is_tok KOp "," t = true -> g_or a ts -> g_args_more l ts' ->
    g_args_more (a :: l) (t :: ts ++ ts').

End Grammar.

Scheme g_or_mut := Minimality for g_or Sort Prop
with g_or_more_mut := Minimality for g_or_more Sort Prop
with g_and_mut := Minimality for g_and Sort Prop
with g_and_more_mut := Minimality for g_and_more Sort Prop
with g_cmp_mut := Minimality for g_cmp Sort Prop
with g_add_mut := Minimality for g_add Sort Prop
with g_add_more_mut := Minimality for g_add_more Sort Prop
with g_mul_mut := Minimality for g_mul Sort Prop
with g_mul_more_mut := Minimality for g_mul_more Sort Prop
with g_unary_mut := Minimality for g_unary Sort Prop
with g_primary_mut := Minimality for g_primary Sort Prop
with g_args_mut := Minimality for g_args Sort Prop
with g_args_more_mut := Minimality for g_args_more Sort Prop.

#[global] Hint Constructors g_or g_or_more g_and g_and_more g_cmp g_add g_add_more g_mul g_mul_more
  g_unary g_primary g_args g_args_more : grammar.

(** ** Outcomes that satisfy a postcondition

    [wp limit crash Q m]: an answer satisfies [Q], a refusal's caret is at
    most [limit], an exception satisfies [crash], and the fuel did not run
    out. *)

Definition caret_ok (limit : nat) (e : expression_error) : Prop :=
  match err_offset e with Some o => (o <= limit)%nat | None => True end.

Definition wp {A} (limit : nat) (crash : exn -> Prop) (Q : A -> Prop) (m : outcome A) : Prop :=
  match m with
  | Done a => Q a
  | Halted (Refused e) => caret_ok limit e
  | Halted (Crashed x) => crash x
  | Halted OutOfFuel => False
  end.

Lemma wp_bind {A B} limit crash (Q : B -> Prop) (R : A -> Prop) (m : outcome A) (f : A -> outcome B) :
  wp limit crash R m -> (forall a, R a -> wp limit crash Q (f a)) -> wp limit crash Q (m ≫= f).
Proof. destruct m as [a|[]]; simpl; eauto. Qed.

Lemma wp_mono {A} limit crash (Q R : A -> Prop) (m : outcome A) :
  wp limit crash R m -> (forall a, R a -> Q a) -> wp limit crash Q m.
Proof. destruct m as [a|[]]; simpl; eauto. Qed.

Lemma wp_refuse {A} limit crash (Q : A -> Prop) p o : (o <= limit)%nat -> wp limit crash Q (refuse p o).
Proof. done. Qed.

(** ** Whatever the parser reads is spelled by the grammar *)

Lemma accept_Some `{!PyEnv} k x ts r :
  accept k x ts = Some r -> exists t, ts = t :: r /\ is_tok k x t = true.
Proof. destruct ts as [|t ts]; simpl; [done|]. destruct is_tok eqn:E; [|done]. naive_solver. Qed.

Lemma next_op_is_true x ts :
  next_op_is x ts = true -> exists t r, ts = t :: r /\ t_kind t = KOp /\ t_text t = x.
Proof.
  destruct ts as [|t r]; simpl; [done|]. rewrite andb_true_iff, bool_decide_eq_true, str_eqb_eq. naive_solver.
Qed.

Lemma number_value_cases text :
  (exists v, number_value text = Done v) \/ number_value text = Halted (Crashed ValueError).
Proof. unfold number_value. repeat case_match; eauto. Qed.

Section Sound.
Context {env : PyEnv} {uni : UnicodeDB}.
Variable end_ : nat.
Variable crash : exn -> Prop.
Variable self_path : option pystr.
Variable row_scope ir_functions : bool.

Abbreviation gram G := (G self_path row_scope ir_functions).

(** Every caret a token can give is inside the source, and every exception
    the conversion of a number can raise is accounted for. *)
Definition in_source (ts : list token) : Prop :=
  Forall (fun t => (t_offset t <= end_)%nat /\
                   (t_kind t = KNumber -> forall x, number_value (t_text t) = Halted (Crashed x) -> crash x)) ts.

(** [m] reads a prefix of [ts] that [G] spells. *)
Definition reads {A} (G : A -> list token -> Prop) (ts : list token) (m : outcome (A * list token)) :=
  wp end_ crash (fun '(a, rest) => exists used, ts = used ++ rest /\ G a used) m.

Lemma in_source_app ts ts' : in_source (ts ++ ts') -> in_source ts'.
Proof. by intros [_ ?]%Forall_app. Qed.

Lemma in_source_cons t ts : in_source (t :: ts) -> (t_offset t <= end_)%nat /\ in_source ts.
Proof. by intros [[? _] ?]%Forall_cons. Qed.

Lemma number_value_reads t ts x :
  in_source (t :: ts) -> t_kind t = KNumber -> number_value (t_text t) = Halted (Crashed x) -> crash x.
Proof. intros [[_ Hn] _]%Forall_cons. auto. Qed.

(** Reading [ts] with [m], then going on with what is left: the step of every
    sequence in the ladder. *)
Lemma reads_bind {A B} (G : A -> list token -> Prop) (G' : B -> list token -> Prop) ts m f :
  in_source ts -> reads G ts m ->
  (forall a used rest, ts = used ++ rest -> G a used -> in_source rest ->
     (length rest <= length ts)%nat -> reads (fun b used' => G' b (used ++ used')) rest (f (a, rest))) ->
  reads G' ts (m ≫= f).
Proof.
  intros Hin Hm Hf. eapply wp_bind; [exact Hm|]. intros [a rest] (used & -> & Ha). simpl.
  eapply wp_mono; [apply (Hf a used rest); eauto using in_source_app; rewrite length_app; lia|].
  intros [b rest'] (used' & -> & Hb). exists (used ++ used'). by rewrite app_assoc.
Qed.

Lemma reads_done {A} (G : A -> list token -> Prop) ts a : G a [] -> reads G ts (Done (a, ts)).
Proof. intros. by exists []. Qed.

Lemma reads_take {A} (G : A -> list token -> Prop) t ts m :
  reads (fun a used => G a (t :: used)) ts m -> reads G (t :: ts) m.
Proof. intros H. eapply wp_mono; [exact H|]. intros [a r] (u & -> & ?). by exists (t :: u). Qed.

Lemma reads_mono {A} (G G' : A -> list token -> Prop) ts m :
  reads G ts m -> (forall a used, G a used -> G' a used) -> reads G' ts m.
Proof. intros H HG. eapply wp_mono; [exact H|]. intros [a r] (u & ? & ?). eauto. Qed.

Lemma reads_expect {B} (G' : B -> list token -> Prop) x ts (f : list token -> outcome (B * list token)) :
  in_source ts ->
  (forall t r, ts = t :: r -> is_tok KOp x t = true -> in_source r ->
     reads (fun b used => G' b (t :: used)) r (f r)) ->
  reads G' ts (expect_op end_ x ts ≫= f).
Proof.
  intros Hin Hf. unfold expect_op. destruct (accept KOp x ts) as [r|] eqn:E.
  - apply accept_Some in E as (t & -> & Ht). apply in_source_cons in Hin as [_ Hin].
    apply reads_take, Hf; done.
  - destruct ts as [|t r]; [by apply wp_refuse|].
    apply in_source_cons in Hin as [? _]. by apply wp_refuse.
Qed.

(** Nothing more is read. *)
Ltac here := hnf; exists []; split; [reflexivity|]; rewrite ?app_nil_r.

Section Ladder.
Variable k : nat.
Abbreviation por := (parse_or end_ self_path row_scope ir_functions k).
Hypothesis por_reads : forall ts, in_source ts -> (length ts < k)%nat -> reads (gram g_or) ts (por ts).

(** The bounds every function of the ladder is called under. *)
Definition fits (fuel : nat) (ts : list token) : Prop :=
  in_source ts /\ (length ts <= k)%nat /\ (length ts < fuel)%nat.

Lemma fits_rest fuel ts rest :
  fits fuel ts -> in_source rest -> (length rest <= length ts)%nat -> fits fuel rest.
Proof. intros (? & ? & ?) ??. split_and!; [done|lia|lia]. Qed.

Lemma fits_tail fuel t ts : fits (S fuel) (t :: ts) -> fits fuel ts.
Proof. intros (?%in_source_cons & ? & ?). simpl in *. split_and!; [naive_solver|lia|lia]. Qed.

Lemma more_args_reads fuel ts :
  in_source ts -> (length ts < k)%nat -> (length ts < fuel)%nat ->
  reads (gram g_args_more) ts (more_args por fuel ts).
Proof.
  revert ts. induction fuel as [|f IH]; intros ts Hin Hk Hf; [lia|]. simpl.
  destruct (accept KOp "," ts) as [r|] eqn:E; [|apply reads_done; constructor].
  apply accept_Some in E as (t & -> & Ht). apply in_source_cons in Hin as [_ Hin]. simpl in *.
  apply reads_take. eapply reads_bind; [done|apply por_reads; [done|lia]|].
  intros a used rest -> Ha Hin' Hl. simpl.
  eapply reads_bind; [done|apply IH; [done|lia|lia]|]. intros l used' rest' -> Hl' _ _.
  here. by constructor.
Qed.

Lemma parse_call_reads fuel t ts :
  fits fuel ts -> (t_offset t <= end_)%nat -> t_kind t = KName -> next_op_is "(" ts = true ->
  str_lower (t_text t) <> lit "true" -> str_lower (t_text t) <> lit "false" ->
  reads (fun e used => gram g_primary e (t :: used)) ts
    (parse_call end_ ir_functions por fuel (t_text t) (t_offset t) ts).
Proof.
  intros (Hin & Hk & Hf) Ho Hkind Hnext Ht Hfa. unfold parse_call.
  apply next_op_is_true in Hnext as (u & r & -> & Hu1 & Hu2).
  apply reads_expect; [done|]. intros u' r' [= <- <-] _ Hin'. simpl in *.
  eapply (reads_bind (gram g_args)); [done| |].
  - destruct (next_op_is ")" r); [apply reads_done; constructor|].
    eapply reads_bind; [done|apply por_reads; [done|lia]|]. intros a used rest -> Ha Hr Hl. simpl.
    eapply reads_bind; [done|apply more_args_reads; [done|lia|lia]|]. intros l used' rest' -> ? _ _.
    here. by constructor.
  - intros args used rest -> Hargs Hr Hl. simpl.
    apply reads_expect; [done|]. intros t' rest' -> Ht' _.
    destruct (call_node ir_functions (t_text t) (t_offset t) args) as [e|fl] eqn:Hc; simpl.
    + here. eapply G_call; eauto.
    + revert Hc. unfold call_node. repeat case_match; intros [= <-]; simpl; done || lia.
Qed.

Lemma parse_name_reads fuel t ts :
  fits fuel ts -> (t_offset t <= end_)%nat -> t_kind t = KName ->
  reads (fun e used => gram g_primary e (t :: used)) ts
    (parse_name end_ row_scope ir_functions por fuel t ts).
Proof.
  intros Hfits Ho Hkind. unfold parse_name.
  destruct (_ && next_text_is "(" ts) eqn:Eb.
  - apply andb_true_iff in Eb as [Hw Hu]. destruct ts as [|u r]; [done|]. simpl in Hu |- *.
    apply str_eqb_eq in Hu. destruct Hfits as ([_ Hin]%in_source_cons & _ & _).
    apply reads_take. rewrite ?drop_0. apply (reads_expect _ _ r); [done|]. intros t' r' -> Ht' _.
    here. apply G_bool; try done. by rewrite orb_true_iff, !str_eqb_eq in Hw.
  - destruct (next_op_is "(" ts) eqn:En.
    + assert (next_text_is "(" ts = true) as Hu.
      { apply next_op_is_true in En as (u & r & -> & _ & Hu). simpl. by rewrite Hu, str_eqb_refl. }
      rewrite Hu, andb_true_r, orb_false_iff in Eb. destruct Eb as [E1 E2].
      apply parse_call_reads; try done; intros Hw; by rewrite Hw, str_eqb_refl in *.
    + destruct row_scope eqn:Er; [|by apply wp_refuse]. here. by apply G_row.
Qed.

Lemma parse_primary_reads fuel ts :
  fits fuel ts -> reads (gram g_primary) ts (parse_primary end_ self_path row_scope ir_functions por fuel ts).
Proof.
  intros Hfits. destruct ts as [|t r]; [by apply wp_refuse|]. simpl.
  pose proof Hfits as ([Ho Hin]%in_source_cons & Hk & Hf). simpl in *.
  destruct (t_kind t) eqn:Hkind.
  - apply reads_take. here. by apply G_ref.
  - apply reads_take. here. by apply G_string.
  - apply reads_take. destruct (number_value_cases (t_text t)) as [[v Hv]|Hv]; rewrite Hv; simpl.
    + here. by apply G_number.
    + by eapply number_value_reads; [apply Hfits| |].
  - destruct self_path eqn:Es; [|by apply wp_refuse]. apply reads_take. here. by apply G_dot.
  - destruct (str_eqb (t_text t) "(") eqn:E; [|by apply wp_refuse].
    apply str_eqb_eq in E. apply reads_take.
    eapply reads_bind; [done|apply por_reads; [done|lia]|]. intros a used rest -> Ha Hr _. simpl.
    apply reads_expect; [done|]. intros t' rest' -> Ht' _. here. by apply G_paren.
  - apply reads_take, parse_name_reads; [|done|done]. split_and!; [done|lia|lia].
Qed.

Lemma parse_unary_reads fuel ts :
  fits fuel ts -> reads (gram g_unary) ts (parse_unary end_ self_path row_scope ir_functions por fuel ts).
Proof.
  induction ts as [|t r IH]; intros Hfits; simpl.
  { exact (le_n end_). }
  destruct (is_tok KOp "-" t) eqn:E.
  - apply reads_take. destruct Hfits as ([_ Hin]%in_source_cons & Hk & Hf). simpl in *.
    eapply reads_bind; [done|apply IH; split_and!; [done|lia|lia]|]. intros a used rest -> Ha _ _.
    here. by apply G_neg.
  - eapply reads_mono; [apply (parse_primary_reads fuel (t :: r)); done|]. intros. by apply G_primary.
Qed.

Lemma mul_loop_reads fuel a ts :
  fits fuel ts ->
  reads (gram g_mul_more a) ts (mul_loop end_ self_path row_scope ir_functions por fuel a ts).
Proof.
  revert a ts. induction fuel as [|f IH]; intros a ts Hfits; [destruct Hfits; lia|]. simpl.
  destruct ts as [|t r]; [here; constructor|].
  destruct (is_times t) eqn:E; [|here; constructor]. apply reads_take.
  apply fits_tail in Hfits.
  eapply reads_bind; [apply Hfits|by apply parse_unary_reads|]. intros b used rest -> Hb Hr Hl. simpl.
  eapply reads_mono; [apply IH; by eapply fits_rest|]. intros e used' He. by eapply G_mul_cons.
Qed.

Lemma parse_multiplicative_reads fuel ts :
  fits fuel ts ->
  reads (gram g_mul) ts (parse_multiplicative end_ self_path row_scope ir_functions por fuel ts).
Proof.
  intros Hfits. eapply reads_bind; [apply Hfits|by apply parse_unary_reads|].
  intros a used rest -> Ha Hr Hl. simpl.
  eapply reads_mono; [apply mul_loop_reads; by eapply fits_rest|]. intros e used' He. by eapply G_mul.
Qed.

Lemma add_loop_reads fuel a ts :
  fits fuel ts ->
  reads (gram g_add_more a) ts (add_loop end_ self_path row_scope ir_functions por fuel a ts).
Proof.
  revert a ts. induction fuel as [|f IH]; intros a ts Hfits; [destruct Hfits; lia|]. simpl.
  destruct ts as [|t r]; [here; constructor|].
  destruct (additive_op ir_functions t) as [op|] eqn:E; [|here; constructor]. apply reads_take.
  apply fits_tail in Hfits.
  eapply reads_bind; [apply Hfits|by apply parse_multiplicative_reads|].
  intros b used rest -> Hb Hr Hl. simpl.
  eapply reads_mono; [apply IH; by eapply fits_rest|]. intros e used' He. by eapply G_add_cons.
Qed.

Lemma parse_additive_reads fuel ts :
  fits fuel ts ->
  reads (gram g_add) ts (parse_additive end_ self_path row_scope ir_functions por fuel ts).
Proof.
  intros Hfits. eapply reads_bind; [apply Hfits|by apply parse_multiplicative_reads|].
  intros a used rest -> Ha Hr Hl. simpl.
  eapply reads_mono; [apply add_loop_reads; by eapply fits_rest|]. intros e used' He. by eapply G_add.
Qed.

Lemma parse_comparison_reads fuel ts :
  fits fuel ts ->
  reads (gram g_cmp) ts (parse_comparison end_ self_path row_scope ir_functions por fuel ts).
Proof.
  intros Hfits. eapply reads_bind; [apply Hfits|by apply parse_additive_reads|].
  intros a used rest -> Ha Hr Hl. simpl. destruct rest as [|t r]; [here; by apply G_cmp_one|].
  destruct (comparison_op t) as [op|] eqn:E; [|here; by apply G_cmp_one].
  apply reads_take. apply in_source_cons in Hr as [_ Hr].
  assert (fits fuel r) as Hfr by (eapply fits_rest; [done|done|simpl in *; lia]).
  eapply reads_bind; [done|by apply parse_additive_reads|]. intros b used' rest -> Hb _ _.
  here. by apply G_cmp_two.
Qed.

(** The loop of a chain, for any operand the ladder reads. *)
Lemma chain_loop_reads word operand (G : expr -> list token -> Prop) (Gs : list expr -> list token -> Prop) :
  Gs [] [] ->
  (forall t a l ts ts', is_tok KName word t = true -> G a ts -> Gs l ts' -> Gs (a :: l) (t :: ts ++ ts')) ->
  (forall fuel ts, fits fuel ts -> reads G ts (operand fuel ts)) ->
  forall fuel ts, fits fuel ts -> reads Gs ts (chain_loop word operand fuel ts).
Proof.
  intros Hnil Hcons Hop fuel. induction fuel as [|f IH]; intros ts Hfits; [destruct Hfits; lia|]. simpl.
  destruct (accept KName word ts) as [r|] eqn:E; [|by here].
  apply accept_Some in E as (t & -> & Ht). apply fits_tail in Hfits. apply reads_take.
  eapply reads_bind; [apply Hfits|by apply Hop|]. intros a used rest -> Ha Hr Hl. simpl.
  eapply reads_bind; [done|apply IH; by eapply fits_rest|]. intros l used' rest' -> Hl' _ _.
  here. by apply Hcons.
Qed.

Lemma parse_and_reads fuel ts :
  fits fuel ts -> reads (gram g_and) ts (parse_and end_ self_path row_scope ir_functions por fuel ts).
Proof.
  intros Hfits. eapply reads_bind; [apply Hfits|by apply parse_comparison_reads|].
  intros a used rest -> Ha Hr Hl. simpl.
  eapply reads_bind; [done| |].
  - apply (chain_loop_reads _ _ (gram g_cmp) (gram g_and_more)); eauto using parse_comparison_reads with grammar.
    by eapply fits_rest.
  - intros l used' rest' -> Hl' _ _. here. by apply G_and.
Qed.

Lemma parse_or_with_reads fuel ts :
  fits fuel ts -> reads (gram g_or) ts (parse_or_with end_ self_path row_scope ir_functions por fuel ts).
Proof.
  intros Hfits. eapply reads_bind; [apply Hfits|by apply parse_and_reads|].
  intros a used rest -> Ha Hr Hl. simpl.
  eapply reads_bind; [done| |].
  - apply (chain_loop_reads _ _ (gram g_and) (gram g_or_more)); eauto using parse_and_reads with grammar.
    by eapply fits_rest.
  - intros l used' rest' -> Hl' _ _. here. by apply G_or.
Qed.

End Ladder.

(** A token of fuel a round is enough, the carets stay in the source, and an
    answer is a reading of the tokens it took. *)
Lemma parse_or_reads k ts :
  in_source ts -> (length ts < k)%nat ->
  reads (gram g_or) ts (parse_or end_ self_path row_scope ir_functions k ts).
Proof.
  revert ts. induction k as [|k IH]; intros ts Hin Hk; [lia|]. simpl.
  apply (parse_or_with_reads k IH). split_and!; [done|lia|lia].
Qed.

End Sound.

(** ** Whatever the grammar spells, the parser reads *)

Definition head_ok (p : token -> bool) (rest : list token) : Prop :=
  match rest with t :: _ => p t = true | [] => True end.

Section Complete.
Context {env : PyEnv} {uni : UnicodeDB} {laws : UnicodeLaws}.
Variable end_ : nat.
Variable self_path : option pystr.
Variable row_scope ir_functions : bool.

Abbreviation gram G := (G self_path row_scope ir_functions).
Abbreviation por k := (parse_or end_ self_path row_scope ir_functions k).

(** What may follow an operand of each level without being taken for more of
    it. *)
Definition ends_primary (t : token) : bool := negb (str_eqb (t_text t) "(").
Definition ends_mul (t : token) : bool := ends_primary t && negb (is_times t).
Definition ends_add (t : token) : bool :=
  ends_mul t && bool_decide (additive_op ir_functions t = None).
Definition ends_cmp (t : token) : bool := ends_add t && bool_decide (comparison_op t = None).
Definition ends_and (t : token) : bool := ends_cmp t && negb (is_tok KName "and" t).
Definition ends_or (t : token) : bool := ends_and t && negb (is_tok KName "or" t).

Lemma head_ok_mono (p q : token -> bool) rest :
  (forall t, p t = true -> q t = true) -> head_ok p rest -> head_ok q rest.
Proof. destruct rest; simpl; eauto. Qed.

Lemma ends_and_cmp t : ends_and t = true -> ends_cmp t = true.
Proof. unfold ends_and. by intros [? _]%andb_true_iff. Qed.
Lemma ends_or_and t : ends_or t = true -> ends_and t = true.
Proof. unfold ends_or. by intros [? _]%andb_true_iff. Qed.
Lemma ends_cmp_add t : ends_cmp t = true -> ends_add t = true.
Proof. unfold ends_cmp. by intros [? _]%andb_true_iff. Qed.
Lemma ends_add_mul t : ends_add t = true -> ends_mul t = true.
Proof. unfold ends_add. by intros [? _]%andb_true_iff. Qed.
Lemma ends_mul_primary t : ends_mul t = true -> ends_primary t = true.
Proof. unfold ends_mul. by intros [? _]%andb_true_iff. Qed.

(** A token whose lower-cased text is known has no other plain text. *)
Lemma is_tok_text k x t : is_tok k x t = true -> t_kind t = k /\ str_lower (t_text t) = x.
Proof. unfold is_tok. by rewrite andb_true_iff, bool_decide_eq_true, str_eqb_eq. Qed.

Lemma text_other t x y :
  str_lower (t_text t) = x -> plain y = true -> x <> y -> str_eqb (t_text t) y = false.
Proof. intros Hx Hy Hne. apply str_eqb_ne. intros E. by rewrite E, lower_plain in Hx. Qed.

Lemma word_ends_cmp x t :
  is_tok KName x t = true -> x <> lit "(" -> x <> lit "div" -> x <> lit "mod" -> x <> lit "idiv" ->
  ends_cmp t = true.
Proof.
  intros [Hk Hx]%is_tok_text H1 H2 H3 H4.
  unfold ends_cmp, ends_add, ends_mul, ends_primary, is_times, additive_op, comparison_op.
  rewrite Hk, Hx, (text_other _ _ "(" Hx) by done. simpl.
  rewrite (str_eqb_ne x "div"), (str_eqb_ne x "mod"), (str_eqb_ne x "idiv"), andb_false_r by done.
  done.
Qed.

Lemma punctuation_ends_or x t :
  is_tok KOp x t = true -> x = lit "," \/ x = lit ")" -> ends_or t = true.
Proof.
  intros [Hk Hx]%is_tok_text Hxs.
  assert (forall y, plain y = true -> y <> lit "," -> y <> lit ")" -> str_eqb (t_text t) y = false) as Ho.
  { intros y Hy H1 H2. eapply text_other; [exact Hx|done|]. destruct Hxs; congruence. }
  assert (dget COMPARISONS (t_text t) = None) as Hc.
  { apply dget_None. intros Hin. cbn in Hin.
    repeat (apply elem_of_cons in Hin as [E|Hin];
      [pose proof (str_eqb_refl (t_text t)) as Hr; rewrite E in Hr at 2; by rewrite Ho in Hr|]).
    by apply not_elem_of_nil in Hin. }
  unfold ends_or, ends_and, ends_cmp, ends_add, ends_mul, ends_primary, is_times, additive_op,
    comparison_op, is_tok.
  rewrite Hk, Hc. simpl. by rewrite !Ho by done.
Qed.

Lemma comparison_ends_add t op : comparison_op t = Some op -> ends_add t = true.
Proof.
  unfold comparison_op. case_bool_decide as Hk; [|done]. intros Hin%dget_Some_elem.
  unfold ends_add, ends_mul, ends_primary, is_times, additive_op. rewrite Hk. simpl.
  repeat (apply elem_of_cons in Hin as [[= -> ->]|Hin]; [by vm_compute|]). by apply not_elem_of_nil in Hin.
Qed.

Lemma additive_ends_mul t op : additive_op ir_functions t = Some op -> ends_mul t = true.
Proof.
  unfold additive_op, ends_mul, ends_primary, is_times. case_bool_decide as Hk.
  - repeat case_match; try done; intros _;
      match goal with E : str_eqb _ _ = true |- _ => apply str_eqb_eq in E; rewrite E end; by vm_compute.
  - case_bool_decide as Hn; [|done]. simpl. rewrite andb_true_r.
    intros Ho. apply negb_true_iff, str_eqb_ne. intros E. revert Ho. rewrite E, lower_plain by done.
    by destruct ir_functions.
Qed.

Lemma times_ends_primary t : is_times t = true -> ends_primary t = true.
Proof. unfold is_times, ends_primary. rewrite andb_true_iff, str_eqb_eq. by intros [_ ->]. Qed.

(** What follows an operand of a chain is its operator or what follows the
    chain. *)
Lemma or_more_head l ts rest :
  gram g_or_more l ts -> head_ok ends_or rest -> head_ok ends_and (ts ++ rest).
Proof.
  destruct 1 as [|t a l ts ts' Ht]; simpl; [by apply head_ok_mono, ends_or_and|]. intros _.
  unfold ends_and. rewrite (word_ends_cmp "or") by done.
  unfold is_tok in *. apply andb_true_iff in Ht as [_ ->%str_eqb_eq]. by rewrite andb_false_r.
Qed.
Lemma and_more_head l ts rest :
  gram g_and_more l ts -> head_ok ends_and rest -> head_ok ends_cmp (ts ++ rest).
Proof.
  destruct 1 as [|t a l ts ts' Ht]; simpl; [by apply head_ok_mono, ends_and_cmp|]. intros _.
  by apply (word_ends_cmp "and").
Qed.
Lemma add_more_head a e ts rest :
  gram g_add_more a e ts -> head_ok ends_add rest -> head_ok ends_mul (ts ++ rest).
Proof.
  destruct 1; simpl; [by apply head_ok_mono, ends_add_mul|]. eauto using additive_ends_mul.
Qed.
Lemma mul_more_head a e ts rest :
  gram g_mul_more a e ts -> head_ok ends_mul rest -> head_ok ends_primary (ts ++ rest).
Proof.
  destruct 1; simpl; [by apply head_ok_mono, ends_mul_primary|]. eauto using times_ends_primary.
Qed.
Lemma args_more_head l ts t rest :
  gram g_args_more l ts -> is_tok KOp ")" t = true -> head_ok ends_or (ts ++ t :: rest).
Proof. destruct 1; simpl; intros ?; eapply punctuation_ends_or; eauto. Qed.

(** Room for a list of tokens: [k] for [parse_or] below, [fuel] for the
    loops. *)
Definition room (k fuel : nat) (ts : list token) : Prop :=
  (length ts <= k)%nat /\ (length ts < fuel)%nat.

Abbreviation p_primary k := (parse_primary end_ self_path row_scope ir_functions (por k)).
Abbreviation p_unary k := (parse_unary end_ self_path row_scope ir_functions (por k)).
Abbreviation p_mul k := (parse_multiplicative end_ self_path row_scope ir_functions (por k)).
Abbreviation p_add k := (parse_additive end_ self_path row_scope ir_functions (por k)).
Abbreviation p_cmp k := (parse_comparison end_ self_path row_scope ir_functions (por k)).
Abbreviation p_and k := (parse_and end_ self_path row_scope ir_functions (por k)).

Definition C_or (e : expr) (ts : list token) := forall k rest,
  head_ok ends_or rest -> (length (ts ++ rest) < k)%nat -> por k (ts ++ rest) = Done (e, rest).
Definition C_or_more (l : list expr) (ts : list token) := forall k fuel rest,
  head_ok ends_or rest -> room k fuel (ts ++ rest) ->
  chain_loop "or" (p_and k) fuel (ts ++ rest) = Done (l, rest).
Definition C_and (e : expr) (ts : list token) := forall k fuel rest,
  head_ok ends_and rest -> room k fuel (ts ++ rest) -> p_and k fuel (ts ++ rest) = Done (e, rest).
Definition C_and_more (l : list expr) (ts : list token) := forall k fuel rest,
  head_ok ends_and rest -> room k fuel (ts ++ rest) ->
  chain_loop "and" (p_cmp k) fuel (ts ++ rest) = Done (l, rest).
Definition C_cmp (e : expr) (ts : list token) := forall k fuel rest,
  head_ok ends_cmp rest -> room k fuel (ts ++ rest) -> p_cmp k fuel (ts ++ rest) = Done (e, rest).
Definition C_add (e : expr) (ts : list token) := forall k fuel rest,
  head_ok ends_add rest -> room k fuel (ts ++ rest) -> p_add k fuel (ts ++ rest) = Done (e, rest).
Definition C_add_more (a e : expr) (ts : list token) := forall k fuel rest,
  head_ok ends_add rest -> room k fuel (ts ++ rest) ->
  add_loop end_ self_path row_scope ir_functions (por k) fuel a (ts ++ rest) = Done (e, rest).
Definition C_mul (e : expr) (ts : list token) := forall k fuel rest,
  head_ok ends_mul rest -> room k fuel (ts ++ rest) -> p_mul k fuel (ts ++ rest) = Done (e, rest).
Definition C_mul_more (a e : expr) (ts : list token) := forall k fuel rest,
  head_ok ends_mul rest -> room k fuel (ts ++ rest) ->
  mul_loop end_ self_path row_scope ir_functions (por k) fuel a (ts ++ rest) = Done (e, rest).
Definition C_unary (e : expr) (ts : list token) := forall k fuel rest,
  head_ok ends_primary rest -> room k fuel (ts ++ rest) -> p_unary k fuel (ts ++ rest) = Done (e, rest).
Definition C_primary (e : expr) (ts : list token) := forall k fuel rest,
  head_ok ends_primary rest -> room k fuel (ts ++ rest) ->
  p_primary k fuel (ts ++ rest) = Done (e, rest) /\ p_unary k fuel (ts ++ rest) = Done (e, rest).
Definition C_args (l : list expr) (ts : list token) := forall k fuel t rest,
  is_tok KOp ")" t = true -> (length (ts ++ t :: rest) < k)%nat -> (length (ts ++ t :: rest) < fuel)%nat ->
  (if next_op_is ")" (ts ++ t :: rest) then Done ([], ts ++ t :: rest)
   else '(a, ts) ← por k (ts ++ t :: rest);
        '(more, ts) ← more_args (por k) fuel ts;
        Done (a :: more, ts)) = Done (l, t :: rest).
Definition C_args_more (l : list expr) (ts : list token) := forall k fuel t rest,
  is_tok KOp ")" t = true -> (length (ts ++ t :: rest) < k)%nat -> (length (ts ++ t :: rest) < fuel)%nat ->
  more_args (por k) fuel (ts ++ t :: rest) = Done (l, t :: rest).

Lemma room_app k fuel ts rest : room k fuel (ts ++ rest) -> room k fuel rest.
Proof. unfold room. rewrite length_app. lia. Qed.

Lemma room_cons k fuel t rest :
  room k fuel (t :: rest) -> exists f, fuel = S f /\ room k f rest /\ (length rest < k)%nat.
Proof. intros [? Hf]. simpl in *. destruct fuel as [|f]; [lia|]. exists f. unfold room. lia. Qed.

Lemma expect_tok x t rest : is_tok KOp x t = true -> expect_op end_ x (t :: rest) = Done rest.
Proof. intros Ht. unfold expect_op. simpl. by rewrite Ht. Qed.

Lemma symbol_text c t : (c < 65)%N -> is_tok KOp [c] t = true -> t_kind t = KOp /\ t_text t = [c].
Proof. intros Hc [? ?]%is_tok_text. eauto using lower_symbol. Qed.

Lemma next_close t rest : is_tok KOp ")" t = true -> next_op_is ")" (t :: rest) = true.
Proof. intros [Hk Ht]%(symbol_text 41); [|done]. simpl. by rewrite Hk, Ht. Qed.

(** No node begins with a closing parenthesis. *)
Lemma close_is_no_node k ts e rest :
  next_op_is ")" ts = true -> por k ts <> Done (e, rest).
Proof.
  intros (t & r & -> & Hk & Ht)%next_op_is_true. destruct k as [|k]; [done|]. cbn.
  unfold is_tok. rewrite Hk, Ht, lower_plain by done. done.
Qed.

(** The loops stop where nothing continues them. *)
Lemma chain_stop word operand fuel rest :
  (0 < fuel)%nat -> head_ok (fun t => negb (is_tok KName word t)) rest ->
  chain_loop word operand fuel rest = Done ([], rest).
Proof.
  destruct fuel as [|f]; [lia|]. intros _ Hh. destruct rest as [|t r]; [done|]. simpl in *.
  by apply negb_true_iff in Hh as ->.
Qed.

Lemma chain_step word operand k fuel t ts ts' rest a l :
  is_tok KName word t = true -> room k fuel (t :: (ts ++ ts') ++ rest) ->
  (forall f, room k f (ts ++ ts' ++ rest) -> operand f (ts ++ ts' ++ rest) = Done (a, ts' ++ rest)) ->
  (forall f, room k f (ts' ++ rest) -> chain_loop word operand f (ts' ++ rest) = Done (l, rest)) ->
  chain_loop word operand fuel (t :: (ts ++ ts') ++ rest) = Done (a :: l, rest).
Proof.
  intros Ht Hr Ha Hl. rewrite <- app_assoc in *. apply room_cons in Hr as (f & -> & Hr & _).
  simpl. rewrite Ht, Ha by done. simpl. by rewrite Hl by eauto using room_app.
Qed.

Lemma args_step t a l ts ts' :
  is_tok KOp "," t = true -> gram g_args_more l ts' -> C_or a ts -> C_args_more l ts' ->
  C_args_more (a :: l) (t :: ts ++ ts').
Proof.
  intros Ht Hg Ha Hl k fuel u rest Hu Hk Hf. simpl in *. rewrite <- app_assoc in *.
  destruct fuel as [|f]; [lia|]. simpl. rewrite Ht, Ha; [|by eapply args_more_head|lia]. simpl.
  rewrite length_app in *. by rewrite Hl by (done || lia).
Qed.

Lemma args_first a l ts ts' :
  gram g_args_more l ts' -> C_or a ts -> C_args_more l ts' -> C_args (a :: l) (ts ++ ts').
Proof.
  intros Hg Ha Hl k fuel u rest Hu Hk Hf. rewrite <- app_assoc in *.
  specialize (Ha k (ts' ++ u :: rest)). rewrite Ha; [|by eapply args_more_head|done].
  destruct (next_op_is ")" (ts ++ ts' ++ u :: rest)) eqn:E.
  - exfalso. eapply close_is_no_node; [exact E|]. apply Ha; [by eapply args_more_head|done].
  - simpl. rewrite length_app in *. by rewrite Hl by (done || lia).
Qed.

Lemma unary_of_primary k fuel ts rest e :
  p_primary k fuel (ts ++ rest) = Done (e, rest) -> p_unary k fuel (ts ++ rest) = Done (e, rest).
Proof.
  destruct (ts ++ rest) as [|t r]; [done|]. simpl. intros Hp.
  destruct (is_tok KOp "-" t) eqn:E; [|done]. exfalso. revert Hp.
  apply (symbol_text 45) in E as [-> ->]; done.
Qed.

Lemma primary_paren t t' a ts :
  t_kind t = KOp -> t_text t = lit "(" -> C_or a ts -> is_tok KOp ")" t' = true ->
  forall k fuel rest, room k fuel ((t :: ts ++ [t']) ++ rest) ->
    p_primary k fuel ((t :: ts ++ [t']) ++ rest) = Done (a, rest).
Proof.
  intros Hk Ht Ha Ht' k fuel rest Hr. rewrite <- app_comm_cons, <- app_assoc in *.
  apply room_cons in Hr as (f & -> & Hr & Hl). simpl in *. rewrite Hk, Ht, str_eqb_refl, Ha; [|by eapply punctuation_ends_or; eauto|done].
  simpl. by rewrite expect_tok.
Qed.

Lemma primary_call t u t' args e ts :
  t_kind t = KName -> str_lower (t_text t) <> lit "true" -> str_lower (t_text t) <> lit "false" ->
  t_kind u = KOp -> t_text u = lit "(" -> C_args args ts -> is_tok KOp ")" t' = true ->
  call_node ir_functions (t_text t) (t_offset t) args = Done e ->
  forall k fuel rest, room k fuel ((t :: u :: ts ++ [t']) ++ rest) ->
    p_primary k fuel ((t :: u :: ts ++ [t']) ++ rest) = Done (e, rest).
Proof.
  intros Hk H1 H2 Hu1 Hu2 Ha Ht' Hc k fuel rest [Hr1 Hr2].
  rewrite <- !app_comm_cons, <- app_assoc in *. simpl in *.
  rewrite Hk. unfold parse_name, parse_call. rewrite (str_eqb_ne _ _ H1), (str_eqb_ne _ _ H2). simpl.
  rewrite Hu1, Hu2, str_eqb_refl. simpl.
  assert (is_tok KOp "(" u = true) as Hu.
  { unfold is_tok. rewrite Hu1, Hu2, lower_plain by done. done. }
  rewrite expect_tok by done. simpl. rewrite Ha by (done || lia). simpl.
  rewrite expect_tok by done. simpl. by rewrite Hc.
Qed.

Lemma primary_name_free rest :
  head_ok ends_primary rest -> next_text_is "(" rest = false /\ next_op_is "(" rest = false.
Proof.
  destruct rest as [|u r]; [done|]. simpl. unfold ends_primary. rewrite negb_true_iff.
  intros ->. by rewrite andb_false_r.
Qed.

(** ** Each construct is read, given that its parts are *)

Lemma c_or a l ts ts' :
  gram g_or_more l ts' -> C_and a ts -> C_or_more l ts' -> C_or (chain OpOr (a :: l)) (ts ++ ts').
Proof.
  intros Hg Ha Hl k rest Hh Hk. rewrite <- app_assoc in *. destruct k as [|k]; [lia|].
  cbn [parse_or]. unfold parse_or_with. assert (room k (S k) (ts ++ ts' ++ rest)) as Hr by (split; lia).
  rewrite Ha; [|by eapply or_more_head|done]. cbn [mbind outcome_bind]. by rewrite Hl by eauto using room_app.
Qed.

Lemma c_and a l ts ts' :
  gram g_and_more l ts' -> C_cmp a ts -> C_and_more l ts' -> C_and (chain OpAnd (a :: l)) (ts ++ ts').
Proof.
  intros Hg Ha Hl k fuel rest Hh Hr. rewrite <- app_assoc in *. unfold parse_and.
  rewrite Ha; [|by eapply and_more_head|done]. simpl. by rewrite Hl by eauto using room_app.
Qed.

Lemma c_or_cons t a l ts ts' :
  is_tok KName "or" t = true -> gram g_or_more l ts' -> C_and a ts -> C_or_more l ts' ->
  C_or_more (a :: l) (t :: ts ++ ts').
Proof.
  intros Ht Hg Ha Hl k fuel rest Hh Hr. eapply chain_step; eauto. intros f Hf.
  apply Ha; [by eapply or_more_head|done].
Qed.

Lemma c_and_cons t a l ts ts' :
  is_tok KName "and" t = true -> gram g_and_more l ts' -> C_cmp a ts -> C_and_more l ts' ->
  C_and_more (a :: l) (t :: ts ++ ts').
Proof.
  intros Ht Hg Ha Hl k fuel rest Hh Hr. eapply chain_step; eauto. intros f Hf.
  apply Ha; [by eapply and_more_head|done].
Qed.

Lemma c_cmp_one a ts : C_add a ts -> C_cmp a ts.
Proof.
  intros Ha k fuel rest Hh Hr. unfold parse_comparison.
  rewrite Ha; [|by eapply head_ok_mono, Hh; apply ends_cmp_add|done].
  destruct rest as [|t r]; [done|]. simpl in *. unfold ends_cmp in Hh.
  apply andb_true_iff in Hh as [_ ->%bool_decide_eq_true]. done.
Qed.

Lemma c_cmp_two t op a b ts ts' :
  comparison_op t = Some op -> C_add a ts -> C_add b ts' -> C_cmp (EOp op [a; b]) (ts ++ t :: ts').
Proof.
  intros Ht Ha Hb k fuel rest Hh Hr. unfold parse_comparison. rewrite <- app_assoc, <- app_comm_cons in *.
  rewrite Ha; [|by apply (comparison_ends_add _ _ Ht)|done]. simpl. rewrite Ht.
  apply room_app in Hr. destruct Hr as [Hr1 Hr2]. simpl in *.
  rewrite Hb; [done|by eapply head_ok_mono, Hh; apply ends_cmp_add|split; lia].
Qed.

Lemma c_add a e ts ts' :
  gram g_add_more a e ts' -> C_mul a ts -> C_add_more a e ts' -> C_add e (ts ++ ts').
Proof.
  intros Hg Ha Hl k fuel rest Hh Hr. rewrite <- app_assoc in *. unfold parse_additive.
  rewrite Ha; [|by eapply add_more_head|done]. simpl. by rewrite Hl by eauto using room_app.
Qed.

Lemma c_mul a e ts ts' :
  gram g_mul_more a e ts' -> C_unary a ts -> C_mul_more a e ts' -> C_mul e (ts ++ ts').
Proof.
  intros Hg Ha Hl k fuel rest Hh Hr. rewrite <- app_assoc in *. unfold parse_multiplicative.
  rewrite Ha; [|by eapply mul_more_head|done]. simpl. by rewrite Hl by eauto using room_app.
Qed.

Lemma c_add_nil a : C_add_more a a [].
Proof.
  intros k fuel rest Hh [_ Hf]. destruct fuel as [|f]; [lia|]. destruct rest as [|t r]; [done|].
  simpl in *. unfold ends_add in Hh. by apply andb_true_iff in Hh as [_ ->%bool_decide_eq_true].
Qed.

Lemma c_mul_nil a : C_mul_more a a [].
Proof.
  intros k fuel rest Hh [_ Hf]. destruct fuel as [|f]; [lia|]. destruct rest as [|t r]; [done|].
  simpl in *. unfold ends_mul in Hh. by apply andb_true_iff in Hh as [_ ->%negb_true_iff].
Qed.

Lemma c_add_cons t op a b e ts ts' :
  additive_op ir_functions t = Some op -> gram g_add_more (EOp op [a; b]) e ts' ->
  C_mul b ts -> C_add_more (EOp op [a; b]) e ts' -> C_add_more a e (t :: ts ++ ts').
Proof.
  intros Ht Hg Hb He k fuel rest Hh Hr. rewrite <- app_comm_cons, <- app_assoc in *.
  apply room_cons in Hr as (f & -> & Hr & _). simpl. rewrite Ht, Hb; [|by eapply add_more_head|done].
  simpl. by rewrite He by eauto using room_app.
Qed.

Lemma c_mul_cons t a b e ts ts' :
  is_times t = true -> gram g_mul_more (EOp OpMul [a; b]) e ts' ->
  C_unary b ts -> C_mul_more (EOp OpMul [a; b]) e ts' -> C_mul_more a e (t :: ts ++ ts').
Proof.
  intros Ht Hg Hb He k fuel rest Hh Hr. rewrite <- app_comm_cons, <- app_assoc in *.
  apply room_cons in Hr as (f & -> & Hr & _). simpl. rewrite Ht, Hb; [|by eapply mul_more_head|done].
  simpl. by rewrite He by eauto using room_app.
Qed.

Lemma c_neg t a ts : is_tok KOp "-" t = true -> C_unary a ts -> C_unary (EOp OpNeg [a]) (t :: ts).
Proof.
  intros Ht Ha k fuel rest Hh [Hr1 Hr2]. simpl in *. rewrite Ht, Ha; [done|done|split; lia].
Qed.

Lemma c_primary e ts :
  (forall k fuel rest, head_ok ends_primary rest -> room k fuel (ts ++ rest) ->
     p_primary k fuel (ts ++ rest) = Done (e, rest)) -> C_unary e ts.
Proof. intros Hp k fuel rest Hh Hr. by apply unary_of_primary, Hp. Qed.

Lemma c_bool t u t' :
  t_kind t = KName -> str_lower (t_text t) = lit "true" \/ str_lower (t_text t) = lit "false" ->
  t_text u = lit "(" -> is_tok KOp ")" t' = true ->
  C_unary (ELit (VBool (str_eqb (str_lower (t_text t)) "true"))) [t; u; t'].
Proof.
  intros Hk Hw Hu Ht'. apply c_primary. intros k fuel rest Hh Hr. simpl. rewrite Hk. unfold parse_name.
  simpl. rewrite Hu, str_eqb_refl, andb_true_r, expect_tok by done.
  by destruct Hw as [-> | ->].
Qed.

Lemma c_row t :
  t_kind t = KName -> row_scope = true -> C_unary (ERef (lit "$row." ++ t_text t)) [t].
Proof.
  intros Hk Hs. apply c_primary. intros k fuel rest [H1 H2]%primary_name_free Hr. simpl. rewrite Hk.
  unfold parse_name. by rewrite H1, H2, andb_false_r, Hs.
Qed.

(** Every spelling is read back, whatever follows it. *)
Lemma parse_or_complete e ts : gram g_or e ts -> C_or e ts.
Proof.
  apply (g_or_mut env self_path row_scope ir_functions C_or C_or_more C_and C_and_more C_cmp C_add
           C_add_more C_mul C_mul_more C_unary C_unary C_args C_args_more);
    eauto using c_or, c_or_cons, c_and, c_and_cons, c_cmp_one, c_cmp_two, c_add, c_add_cons, c_mul,
      c_mul_cons, c_neg, c_bool, c_row, c_add_nil, c_mul_nil, args_step, args_first.
  - intros k fuel rest Hh Hr. apply chain_stop; [destruct Hr; simpl in *; lia|].
    eapply head_ok_mono, Hh. intros t. unfold ends_or. by intros [_ ?]%andb_true_iff.
  - intros k fuel rest Hh Hr. apply chain_stop; [destruct Hr; simpl in *; lia|].
    eapply head_ok_mono, Hh. intros t. unfold ends_and. by intros [_ ?]%andb_true_iff.
  - intros t v Hk Hv. apply c_primary. intros k fuel rest _ _. simpl. by rewrite Hk, Hv.
  - intros t Hk. apply c_primary. intros k fuel rest _ _. simpl. by rewrite Hk.
  - intros t Hk. apply c_primary. intros k fuel rest _ _. simpl. by rewrite Hk.
  - intros t p Hk Hp. apply c_primary. intros k fuel rest _ _. simpl. by rewrite Hk, Hp.
  - intros t t' a ts' Hk Ht _ Ha Ht'. apply c_primary. intros k fuel rest _ Hr. by apply primary_paren.
  - intros t u t' args a ts' Hk H1 H2 Hu1 Hu2 _ Ha Ht' Hc. apply c_primary. intros k fuel rest _ Hr.
    by eapply primary_call.
  - intros k fuel t rest Ht Hk Hf. simpl ([] ++ _). by rewrite next_close.
  - intros k fuel t rest Ht Hk Hf. destruct fuel as [|f]; [lia|]. simpl.
    unfold is_tok. apply (symbol_text 41) in Ht as [-> ->]; [|done]. by rewrite lower_plain.
Qed.

End Complete.
