(* ===== verification/SurfaceFacts.v ===== *)
(** * The tokenizer and [translate]

    Every round of the tokenizer takes at least a character, so its fuel is
    enough; the tokens' offsets are inside the text; what can leave
    [translate] besides a node or its own error is an [AssertionError] on a
    digit that is not a decimal one, or a [ValueError] on a number longer than
    CPython converts. *)

From S2P Require Import Prelude PyStr PyNum Value Expr Expression Surface Grammar.

(** ** Splitting functions take what they say *)

Lemma cut_length sep s a b : cut sep s = Some (a, b) -> (length b <= length s)%nat.
Proof. intros ->%cut_Some. rewrite !length_app. lia. Qed.

Lemma closing_quote_app qs s body rest :
  closing_quote qs s = Some (body, rest) -> exists c, s = body ++ c :: rest /\ c ∈ qs.
Proof.
  revert body rest. induction s as [|c s IH]; intros body rest; simpl; [done|].
  case_bool_decide as Hc.
  - intros [= <- <-]. by exists c.
  - destruct closing_quote as [[b r]|]; [|done]. intros [= <- <-].
    destruct (IH b r) as (d & -> & ?); [done|]. by exists d.
Qed.

Lemma closing_quote_spec qs body c rest :
  Forall (fun x => x ∉ qs) body -> c ∈ qs -> closing_quote qs (body ++ c :: rest) = Some (body, rest).
Proof.
  intros Hb Hc. induction Hb as [|x body Hx Hb IH]; simpl.
  - by rewrite bool_decide_eq_true_2.
  - by rewrite bool_decide_eq_false_2, IH.
Qed.

Lemma span_digits_split s d t :
  span_digits s = (d, t) ->
  s = d ++ t /\ Forall (fun c => is_digit c = true) d /\ match t with c :: _ => is_digit c = false | [] => True end.
Proof.
  revert d t. induction s as [|c s IH]; intros d t; simpl; [by intros [= <- <-]|].
  destruct (is_digit c) eqn:E; [|by intros [= <- <-]].
  destruct (span_digits s) as [d' t'] eqn:E'. intros [= <- <-].
  destruct (IH _ _ eq_refl) as (-> & ? & ?). split_and!; [done|by constructor|done].
Qed.

Lemma span_digits_spec d t :
  Forall (fun c => is_digit c = true) d -> match t with c :: _ => is_digit c = false | [] => True end ->
  span_digits (d ++ t) = (d, t).
Proof.
  intros Hd Ht. induction Hd as [|c d Hc Hd IH]; simpl; [destruct t; [done|by simpl; rewrite Ht]|].
  by rewrite Hc, IH.
Qed.

(** The texts the number pattern matches. *)
Definition number_text (s : pystr) : Prop :=
  exists whole frac,
    Forall (fun c => is_digit c = true) whole /\ Forall (fun c => is_digit c = true) frac /\
    ((s = whole /\ whole <> []) \/ (s = whole ++ 46%N :: frac /\ frac <> [])).

Lemma match_number_app s text rest :
  match_number s = Some (text, rest) -> s = text ++ rest /\ number_text text.
Proof.
  unfold match_number. destruct (span_digits s) as [w t] eqn:Es.
  apply span_digits_split in Es as (-> & Hw & Ht). destruct w as [|c w].
  - simpl. destruct t as [|c r]; [done|]. case_bool_decide; [subst c|done].
    destruct (span_digits r) as [f t'] eqn:Ef. apply span_digits_split in Ef as (-> & Hf & _).
    destruct f as [|d f]; [done|]. intros [= <- <-]. split; [done|]. exists [], (d :: f). naive_solver.
  - destruct t as [|d r].
    { intros [= <- <-]. split; [done|]. exists (c :: w), []. naive_solver. }
    case_bool_decide; [subst d|intros [= <- <-]; split; [done|]; exists (c :: w), []; naive_solver].
    destruct (span_digits r) as [f t'] eqn:Ef. apply span_digits_split in Ef as (-> & Hf & _).
    destruct f as [|d f].
    + intros [= <- <-]. split; [done|]. exists (c :: w), []. naive_solver.
    + intros [= <- <-]. split; [simpl; by rewrite <- app_assoc|]. exists (c :: w), (d :: f). naive_solver.
Qed.

Section Names.
Context {uni : UnicodeDB}.

Lemma span_name_app s n t : span_name s = (n, t) -> s = n ++ t.
Proof.
  revert n t. induction s as [|c s IH]; intros n t; simpl; [by intros [= <- <-]|].
  destruct (name_char c); [|by intros [= <- <-]].
  destruct (span_name s) as [n' t'] eqn:E'. intros [= <- <-]. by rewrite (IH _ _ eq_refl).
Qed.

Lemma span_name_spec n t :
  forallb name_char n = true -> match t with c :: _ => name_char c = false | [] => True end ->
  span_name (n ++ t) = (n, t).
Proof.
  intros Hn Ht. induction n as [|c n IH]; simpl; [destruct t; [done|by simpl; rewrite Ht]|].
  simpl in Hn. apply andb_true_iff in Hn as [-> Hn]. by rewrite IH.
Qed.

Lemma match_name_app s n t : match_name s = Some (n, t) -> s = n ++ t /\ n <> [].
Proof.
  destruct s as [|c r]; simpl; [done|]. destruct (name_start c); [|done].
  destruct (span_name r) as [n' t'] eqn:E. intros [= <- <-]. by rewrite (span_name_app _ _ _ E).
Qed.

(** ** One round of the tokenizer *)

(** A character [isdigit] accepts and [\d] does not: a superscript, a
    circled digit. *)
Definition odd_digit (c : N) : bool := digit_char c && negb (is_digit c).

(** What a round can give: a token that starts here, and a shorter suffix;
    a refusal here; or the assertion. *)
Definition round_ok (index : nat) (s : pystr) (o : outcome (option token * pystr)) : Prop :=
  match o with
  | Done (t, rest) =>
      (exists took, s = took ++ rest /\ took <> []) /\
      match t with
      | Some t => t_offset t = index /\ (t_kind t = KNumber -> number_text (t_text t)) /\
                  (length (t_text t) <= length s)%nat
      | None => True
      end
  | Halted (Refused e) => err_offset e = Some index
  | Halted (Crashed x) => x = AssertionError /\ exists c, c ∈ s /\ odd_digit c = true
  | Halted OutOfFuel => False
  end.

Lemma digit_char_ascii c : is_digit c = true -> digit_char c = true.
Proof. intros Hc. unfold digit_char, isdigit. simpl. by rewrite Hc. Qed.

Lemma strip_length s : (length (strip s) <= length s)%nat.
Proof.
  assert (forall s, (length (lstrip s) <= length s)%nat) as Hl.
  { clear. induction s as [|c s IH]; simpl; [done|]. destruct (is_space c); simpl; lia. }
  unfold strip. rewrite length_reverse.
  pose proof (Hl (reverse (lstrip s))) as H1. rewrite length_reverse in H1. pose proof (Hl s). lia.
Qed.

(** The assertion of the number branch fails on an odd digit. *)
Lemma match_number_None c r :
  digit_char c || (bool_decide (c = 46%N) && match r with d :: _ => digit_char d | [] => false end) = true ->
  match_number (c :: r) = None -> exists d, d ∈ c :: r /\ odd_digit d = true.
Proof.
  intros Hd Hm. unfold match_number in Hm. destruct (span_digits (c :: r)) as [w t] eqn:Es.
  destruct w as [|x w].
  2: { destruct t as [|y t]; [done|]. case_bool_decide; [|done]. by destruct (span_digits t) as [[] ?]. }
  assert (is_digit c = false) as Hc.
  { simpl in Es. destruct (is_digit c); [|done]. by destruct (span_digits r). }
  unfold odd_digit. destruct (digit_char c) eqn:Ec.
  { exists c. rewrite Ec, Hc. split; [left|done]. }
  simpl in Hd. apply andb_true_iff in Hd as [Hdot Hr]. rewrite Hdot in Hm.
  destruct r as [|d r]; [done|]. exists d. split; [right; left|]. rewrite Hr. simpl.
  simpl in Hm. destruct (is_digit d); [|done]. by destruct (span_digits r).
Qed.

Lemma next_token_ok index s : s <> [] -> round_ok index s (next_token index s).
Proof.
  destruct s as [|c r]; [done|]. intros _. unfold next_token, round_ok.
  destruct (is_space c); [split; [by exists [c]|done]|].
  destruct (startswith (c :: r) "${").
  { destruct (cut "}" (c :: r)) as [[b rest]|] eqn:E; [|done]. pose proof (cut_length _ _ _ _ E).
    apply cut_Some in E. split; [exists (b ++ lit "}"); rewrite E, <- app_assoc; split; [done|by destruct b]|].
    split_and!; [done|done|]. cbn [t_text]. etrans; [apply strip_length|].
    rewrite length_drop, E, length_app. lia. }
  destruct (closers_of c) as [qs|].
  { destruct (closing_quote qs r) as [[b rest]|] eqn:E; [|done].
    apply closing_quote_app in E as (q & -> & _).
    split; [exists (c :: b ++ [q]); by rewrite <- app_comm_cons, <- app_assoc|].
    split_and!; [done|done|]. simpl. rewrite length_app. lia. }
  destruct (_ || _) eqn:Ed.
  { destruct (match_number (c :: r)) as [[text rest]|] eqn:E.
    - apply match_number_app in E as [E Hn]. rewrite E. split.
      + exists text. split; [done|]. destruct Hn as (w & f & _ & _ & [[-> ?]|[-> ?]]); [done|by destruct w].
      + split_and!; [done|done|]. simpl. rewrite length_app. lia.
    - split; [done|]. by apply match_number_None. }
  destruct (_ && negb _); [split; [by exists [c]|by split_and!; [| |simpl; lia]]|].
  destruct (bool_decide (take 2 (c :: r) ∈ two_char_ops)).
  { split; [exists (take 2 (c :: r)); by rewrite take_drop|]. split_and!; [done|done|].
    cbn [t_text]. rewrite length_take. lia. }
  destruct (bool_decide (c ∈ one_char_ops)); [split; [by exists [c]|by split_and!; [| |simpl; lia]]|].
  destruct (match_name (c :: r)) as [[n rest]|] eqn:E; [|done].
  apply match_name_app in E as [E ?]. rewrite E. split; [by exists n|].
  split_and!; [done|done|]. simpl. rewrite length_app. lia.
Qed.

(** ** The whole text *)

Definition token_ok (limit : nat) (t : token) : Prop :=
  (t_offset t <= limit)%nat /\ (t_kind t = KNumber -> number_text (t_text t)) /\
  (length (t_text t) <= limit)%nat.

Definition tokens_ok (limit : nat) (s : pystr) (o : outcome (list token)) : Prop :=
  match o with
  | Done ts => Forall (token_ok limit) ts
  | Halted (Refused e) => caret_ok limit e
  | Halted (Crashed x) => x = AssertionError /\ exists c, c ∈ s /\ odd_digit c = true
  | Halted OutOfFuel => False
  end.

Lemma tokenize_from_ok fuel index s :
  (length s <= fuel)%nat -> tokens_ok (index + length s) s (tokenize_from fuel index s).
Proof.
  revert index s. induction fuel as [|f IH]; intros index s Hf.
  { destruct s; [apply Forall_nil_2|simpl in Hf; lia]. }
  destruct s as [|c r]; [apply Forall_nil_2|].
  cbn [tokenize_from]. pose proof (next_token_ok index (c :: r) ltac:(done)) as Hn.
  destruct (next_token index (c :: r)) as [[t rest]|[e|x|]]; [|by unfold tokens_ok, caret_ok; simpl; rewrite Hn; lia|done|done].
  destruct Hn as [(took & E & Htook) Ht]. cbn [mbind outcome_bind].
  assert (length rest < length (c :: r))%nat as Hl.
  { rewrite E, length_app. destruct took; [done|simpl; lia]. }
  specialize (IH (index + (length (c :: r) - length rest))%nat rest ltac:(lia)).
  replace (index + (length (c :: r) - length rest) + length rest)%nat
    with (index + length (c :: r))%nat in IH by lia.
  destruct (tokenize_from f _ rest) as [ts|[e|x|]]; try done.
  - simpl in IH |- *. destruct t as [t|]; [|done]. constructor; [|done].
    destruct Ht as (Hi & ? & ?). unfold token_ok. rewrite Hi. split_and!; [lia|done|simpl in *; lia].
  - destruct IH as (-> & d & Hd & ?). split; [done|]. exists d. split; [|done]. rewrite E. set_solver.
Qed.

Lemma tokenize_ok s : tokens_ok (length s) s (tokenize s).
Proof. by apply (tokenize_from_ok (length s) 0). Qed.

(** More fuel than characters reads no differently. *)
Lemma tokenize_from_fuel f g index s :
  (length s <= f)%nat -> (length s <= g)%nat -> tokenize_from f index s = tokenize_from g index s.
Proof.
  revert g index s. induction f as [|f IH]; intros g index s Hf Hg; destruct s as [|c r];
    [by destruct g|simpl in Hf; lia|by destruct g|].
  destruct g as [|g]; [simpl in Hg; lia|]. cbn [tokenize_from].
  pose proof (next_token_ok index (c :: r) ltac:(done)) as Hn.
  destruct (next_token index (c :: r)) as [[t rest]|]; [|done]. destruct Hn as [(took & E & Htook) _].
  assert (length rest < length (c :: r))%nat as Hl.
  { rewrite E, length_app. destruct took; [done|simpl; lia]. }
  cbn [mbind outcome_bind]. by rewrite (IH g) by lia.
Qed.

End Names.

(** ** Numbers read *)

Lemma space_no_digit c : is_space c = true -> is_digit c = false.
Proof.
  unfold is_space. rewrite bool_decide_eq_true. intros Hin.
  repeat (apply elem_of_cons in Hin as [->|Hin]; [by vm_compute|]). by apply not_elem_of_nil in Hin.
Qed.

(** The ends of a text that [strip] leaves alone. *)
Definition trimmed (s : pystr) : Prop :=
  (exists c r, s = c :: r /\ is_space c = false) /\ (exists r c, s = r ++ [c] /\ is_space c = false).

Lemma strip_trimmed s : trimmed s -> strip s = s.
Proof.
  intros [(c & r & -> & Hc) (r' & d & E & Hd)]. unfold strip. simpl. rewrite Hc, E, reverse_app. simpl.
  rewrite Hd. change (d :: reverse r') with (reverse [d] ++ reverse r').
  by rewrite <- reverse_app, reverse_involutive.
Qed.

Lemma trimmed_digits s : Forall (fun c => is_digit c = true) s -> s <> [] -> trimmed s.
Proof.
  intros Hs Hne.
  assert (forall c, is_digit c = true -> is_space c = false) as Hd.
  { intros c Hc. destruct (is_space c) eqn:E; [|done]. apply space_no_digit in E. congruence. }
  split.
  - destruct Hs as [|c r Hc Hs]; [done|]. eauto.
  - destruct s as [|c s] using rev_ind; [done|]. apply Forall_app in Hs as [_ [Hc _]%Forall_cons]. eauto.
Qed.

Lemma strip_underscores_none s b : 95%N ∉ s -> strip_underscores b s = Some s.
Proof.
  revert b. induction s as [|c s IH]; intros b Hs; simpl; [done|].
  apply not_elem_of_cons in Hs as [Hc Hs]. rewrite bool_decide_eq_false_2 by done. by rewrite IH.
Qed.

Lemma digits_no_char s c :
  Forall (fun c => is_digit c = true) s -> is_digit c = false -> c ∉ s.
Proof. rewrite Forall_forall. intros Hs Hc Hin. specialize (Hs _ Hin). simpl in Hs. congruence. Qed.

Lemma read_sign_digit c s : is_digit c = true \/ c = 46%N -> read_sign (c :: s) = (false, c :: s).
Proof.
  intros Hc. unfold read_sign. rewrite !bool_decide_eq_false_2; [done| |];
    intros ->; destruct Hc as [Hc|Hc]; by vm_compute in Hc.
Qed.

Lemma parse_int_digits s :
  Forall (fun c => is_digit c = true) s -> s <> [] -> parse_int s = Some (Z.of_N (digits_val s)).
Proof.
  intros Hs Hne. unfold parse_int. rewrite strip_trimmed by by apply trimmed_digits.
  destruct s as [|c s]; [done|]. rewrite read_sign_digit by (left; by inversion Hs).
  rewrite strip_underscores_none by (by apply digits_no_char).
  assert (all_digits (c :: s) = true) as ->; [|done].
  apply forallb_forall. intros x Hx%list_elem_of_In. rewrite Forall_forall in Hs. auto.
Qed.

Lemma no_word c s : is_digit c = true \/ c = 46%N ->
  str_eqb (map ascii_lower (c :: s)) "inf" = false /\
  str_eqb (map ascii_lower (c :: s)) "infinity" = false /\
  str_eqb (map ascii_lower (c :: s)) "nan" = false.
Proof.
  intros Hc. assert (ascii_lower c <> 105%N /\ ascii_lower c <> 110%N) as [Hi Hn].
  { unfold ascii_lower. destruct Hc as [Hc| ->]; [|by vm_compute].
    case_bool_decide as Hr.
    - exfalso. apply bool_decide_eq_true in Hc as [d Hd]. unfold digit_val in Hd.
      destruct (list_find _ nd_zeros) as [[k z]|] eqn:E; [|done].
      apply list_find_Some in E as (Hin%list_elem_of_lookup_2 & Hz & _). clear Hd.
      repeat (apply elem_of_cons in Hin as [->|Hin]; [lia|]). by apply not_elem_of_nil in Hin.
    - split; intros ->; by vm_compute in Hc. }
  split_and!; apply str_eqb_ne; intros E%(f_equal head).
  - by change (Some (ascii_lower c) = Some 105%N) in E; injection E.
  - by change (Some (ascii_lower c) = Some 105%N) in E; injection E.
  - by change (Some (ascii_lower c) = Some 110%N) in E; injection E.
Qed.

(** [float(text)] of a number token with a point. *)
Lemma parse_float_point w f :
  Forall (fun c => is_digit c = true) w -> Forall (fun c => is_digit c = true) f -> f <> [] ->
  parse_float (w ++ 46%N :: f) =
  Some (float_of_decimal false (Z.of_N (digits_val (w ++ f))) (- Z.of_nat (length f))).
Proof.
  intros Hw Hf Hne. unfold parse_float. rewrite strip_underscores_none.
  2: { rewrite not_elem_of_app, not_elem_of_cons. split_and!; [|done|];
       by apply digits_no_char. }
  assert (exists c s, w ++ 46%N :: f = c :: s /\ (is_digit c = true \/ c = 46%N)) as (c & s & E & Hc).
  { destruct Hw as [|c w Hc Hw]; [by exists 46%N, f; auto|exists c, (w ++ 46%N :: f); auto]. }
  rewrite E, read_sign_digit by done. destruct (no_word c s Hc) as (-> & -> & ->). simpl orb. cbv iota.
  rewrite <- E, span_digits_spec by done. cbv iota beta. rewrite bool_decide_eq_true_2 by done.
  rewrite <- (app_nil_r f) at 1. rewrite span_digits_spec by done. cbv iota beta.
  destruct (w ++ f) as [|d r] eqn:Ed; [by apply app_eq_nil in Ed as [_ ->]|]. simpl read_exponent.
  by rewrite <- Ed.
Qed.

(** A number token converts unless it is an integer longer than CPython
    takes. *)
Lemma number_value_ok text :
  number_text text ->
  (exists v, number_value text = Done v) \/ (INT_TEXT_LIMIT < length text)%nat.
Proof.
  intros (w & f & Hw & Hf & [[-> Hne]|[-> Hne]]); unfold number_value.
  - rewrite bool_decide_eq_false_2 by (by apply digits_no_char).
    case_bool_decide; [by right|left]. rewrite parse_int_digits by done. eauto.
  - rewrite bool_decide_eq_true_2 by set_solver. left. rewrite parse_float_point by done. eauto.
Qed.

(** ** [translate] *)

(** What can leave [translate] besides its own error, and of what source. *)
Definition crash_of (source : pystr) (x : exn) : Prop :=
  (x = AssertionError /\ exists c, c ∈ source /\ odd_digit c = true) \/
  (x = ValueError /\ (INT_TEXT_LIMIT < length source)%nat).

Section Translate.
Context {env : PyEnv} {uni : UnicodeDB}.

Lemma in_source_tokens s ts :
  Forall (token_ok (length s)) ts -> in_source (length s) (crash_of s) ts.
Proof.
  intros Hf. eapply Forall_impl; [exact Hf|]. intros t (Ho & Hn & Hl). split; [done|]. intros Hk x Hx.
  right. destruct (number_value_ok _ (Hn Hk)) as [[v Hv]|Hv]; [congruence|].
  destruct (number_value_cases (t_text t)) as [[v Hv']|Hv']; [congruence|]. rewrite Hv' in Hx.
  split; [congruence|lia].
Qed.

Lemma parse_tokens_reads end_ crash self_path row_scope ir ts :
  in_source end_ crash ts ->
  wp end_ crash (fun e => g_or self_path row_scope ir e ts)
    (parse_tokens end_ self_path row_scope ir ts).
Proof.
  intros Hin. eapply wp_bind; [apply parse_or_reads; [done|lia]|].
  intros [e rest] (used & -> & He). destruct rest as [|t r]; [by rewrite app_nil_r|].
  apply in_source_app, in_source_cons in Hin as [Ho _]. by apply wp_refuse.
Qed.

Lemma lstrip_suffix s : exists ws, s = ws ++ lstrip s.
Proof.
  induction s as [|c s [ws IH]]; simpl; [by exists []|].
  destruct (is_space c); [|by exists []]. exists (c :: ws). by rewrite IH at 1.
Qed.

(** What [strip] leaves is a part of the text. *)
Lemma strip_part s : exists b, lstrip s = strip s ++ b.
Proof.
  destruct (lstrip_suffix (reverse (lstrip s))) as [ws E].
  exists (reverse ws). unfold strip. apply (f_equal reverse) in E.
  by rewrite reverse_involutive, reverse_app in E.
Qed.

Lemma translate_wp source self_path row_scope ir :
  wp (length source) (crash_of source)
    (fun e => exists ts, tokenize (strip source) = Done ts /\ g_or self_path row_scope ir e ts)
    (translate source self_path row_scope ir).
Proof.
  unfold translate. destruct (strip source) as [|c r] eqn:Es; [done|]. rewrite <- Es. clear c r Es.
  destruct (lstrip_suffix source) as [ws Ew]. destruct (strip_part source) as [b Eb].
  assert (length source = length ws + length (strip source) + length b)%nat as Hlen.
  { rewrite Ew at 1. rewrite Eb, !length_app. lia. }
  assert (length source - length (lstrip source) = length ws)%nat as ->.
  { rewrite Ew at 1. rewrite length_app. lia. }
  assert (forall x, crash_of (strip source) x -> crash_of source x) as Hcrash.
  { intros x [[-> (d & Hd & Ho)]|[-> Hl]]; [left|right; split; [done|lia]]. split; [done|].
    exists d. split; [|done]. rewrite Ew, Eb. set_solver. }
  pose proof (tokenize_ok (strip source)) as Ht.
  destruct (tokenize (strip source)) as [ts|[[p fn [o|]]|x|]] eqn:E; try done.
  2: { simpl in Ht |- *. unfold caret_ok in *. simpl in *. lia. }
  2: { destruct Ht as (-> & Ho). apply Hcrash. by left. }
  cbn [mbind outcome_bind].
  pose proof (parse_tokens_reads _ _ self_path row_scope ir ts (in_source_tokens _ _ Ht)) as Hp.
  destruct (parse_tokens _ _ _ _ ts) as [e|[[p fn [o|]]|x|]]; simpl in *; eauto.
  unfold caret_ok in *. simpl in *. lia.
Qed.

End Translate.
