(* ===== verification/FloatText.v ===== *)
(** * Decimal text of binary64 floats

    What rounding to binary64 gives, as a relation that determines its
    result, and that the shortest text a float prints as reads back as the
    float. *)

From S2P Require Import Prelude PyStr PyNum Value Expr Expression Surface SurfaceFacts.

Abbreviation fexp := (SpecFloat.fexp 53 1024) (only parsing).
Abbreviation rounded := (binary_round_aux 53 1024) (only parsing).

(** [2^z] for a non-negative [z], 1 below. *)
Definition up (z : Z) : Z := 2 ^ Z.max 0 z.

Lemma up_pos z : 0 < up z.
Proof. unfold up. apply Z.pow_pos_nonneg; lia. Qed.

Lemma up_add z k : 0 <= z -> 0 <= k -> up (z + k) = up z * 2 ^ k.
Proof. intros. unfold up. rewrite !Z.max_r by lia. apply Z.pow_add_r; lia. Qed.

Lemma up_neg z : z <= 0 -> up z = 1.
Proof. intros. unfold up. by rewrite Z.max_l. Qed.

(** ** The quotient with a round and a sticky bit *)

Definition rec_of (n d : Z) : shr_record :=
  {| shr_m := n / d; shr_r := d <=? 2 * (n mod d); shr_s := negb ((2 * (n mod d)) mod d =? 0) |}.

Lemma rec_scale n d k : 0 < d -> 0 < k -> rec_of (n * k) (d * k) = rec_of n d.
Proof.
  intros Hd Hk. unfold rec_of. rewrite Z.div_mul_cancel_r, Z.mul_mod_distr_r by lia. f_equal.
  - apply Bool.eq_iff_eq_true. rewrite !Z.leb_le. nia.
  - rewrite (Z.mul_assoc 2), Z.mul_mod_distr_r by lia. f_equal. apply Bool.eq_iff_eq_true. rewrite !Z.eqb_eq. nia.
Qed.

Lemma shr_1_nonneg m r s : 0 <= m ->
  shr_1 {| shr_m := m; shr_r := r; shr_s := s |} = {| shr_m := m / 2; shr_r := Z.odd m; shr_s := r || s |}.
Proof. intros Hm. rewrite <- Z.div2_div. by destruct m as [|[p|p|]|]. Qed.

Lemma rec_half n d : 0 <= n -> 0 < d -> shr_1 (rec_of n d) = rec_of n (2 * d).
Proof.
  intros Hn Hd. unfold rec_of at 1. rewrite shr_1_nonneg by (by apply Z.div_pos).
  pose proof (Z.div_mod n d ltac:(lia)) as Hq. pose proof (Z.mod_pos_bound n d Hd) as Hf.
  pose proof (Z.div_mod (n / d) 2 ltac:(lia)) as Hp. pose proof (Z.mod_pos_bound (n / d) 2 ltac:(lia)) as Hb.
  assert (n / (2 * d) = n / d / 2) as Hdiv by (rewrite Z.mul_comm, Z.div_div; lia).
  assert (n mod (2 * d) = n mod d + d * ((n / d) mod 2)) as Hmod.
  { rewrite Z.mod_eq, Hdiv by lia. nia. }
  assert (Z.odd (n / d) = ((n / d) mod 2 =? 1)) as Hodd.
  { rewrite Zmod_odd. by destruct (Z.odd (n / d)). }
  unfold rec_of. rewrite Hdiv, Hmod, Hodd. clear Hdiv Hmod Hodd.
  set (f := n mod d) in *. set (b := (n / d) mod 2) in *. f_equal.
  - apply Bool.eq_iff_eq_true. rewrite Z.eqb_eq, Z.leb_le. nia.
  - assert ((2 * (f + d * b)) mod (2 * d) = 2 * f) as ->.
    { replace (2 * (f + d * b)) with (2 * f + b * (2 * d)) by ring. rewrite Z.mod_add, Z.mod_small by lia. done. }
    apply Bool.eq_iff_eq_true. rewrite orb_true_iff, !negb_true_iff, Z.leb_le, !Z.eqb_neq.
    destruct (Z.lt_ge_cases (2 * f) d) as [Hl|Hl]; [rewrite Z.mod_small by lia; lia|]. split; [lia|tauto].
Qed.

(** ** A value at an exponent *)

(** [n / d] in units of [2^e]. *)
Definition at_exp (n d e : Z) : shr_record := rec_of (n * up (- e)) (d * up e).
Definition units (n d e : Z) : Z := n * up (- e) / (d * up e).

Lemma at_exp_m n d e : shr_m (at_exp n d e) = units n d e.
Proof. reflexivity. Qed.

Section Value.
Context (n d : Z) (Hn : 0 < n) (Hd : 0 < d).

Lemma den_pos e : 0 < d * up e.
Proof using Hd. apply Z.mul_pos_pos; [exact Hd|apply up_pos]. Qed.
Lemma num_pos e : 0 < n * up (- e).
Proof using Hn. apply Z.mul_pos_pos; [exact Hn|apply up_pos]. Qed.

Lemma units_nonneg e : 0 <= units n d e.
Proof. pose proof (num_pos e). pose proof (den_pos e). apply Z.div_pos; lia. Qed.

Lemma at_exp_next e : shr_1 (at_exp n d e) = at_exp n d (e + 1).
Proof.
  pose proof (num_pos e). pose proof (den_pos e). unfold at_exp. rewrite rec_half by lia.
  destruct (Z.lt_ge_cases e 0) as [He|He].
  - rewrite (up_neg e), (up_neg (e + 1)) by lia. replace (- e) with (- (e + 1) + 1) by lia. rewrite up_add by lia.
    replace (2 * (d * 1)) with (d * 1 * 2) by ring. rewrite Z.mul_assoc. apply rec_scale; lia.
  - rewrite (up_neg (- e)), (up_neg (- (e + 1))) by lia. rewrite up_add by lia. f_equal. ring.
Qed.

Lemma at_exp_iter p : forall e, iter_pos shr_1 p (at_exp n d e) = at_exp n d (e + Z.pos p).
Proof.
  induction p as [p IH|p IH|]; intros e; cbn [iter_pos].
  - rewrite at_exp_next, !IH. f_equal. lia.
  - rewrite !IH. f_equal. lia.
  - apply at_exp_next.
Qed.

Lemma units_add e k : 0 <= k -> units n d (e + k) = units n d e / 2 ^ k.
Proof.
  intros Hk. revert e. pattern k. apply natlike_ind; [| |done].
  - intros e. by rewrite Z.add_0_r, Z.div_1_r.
  - intros j Hj IH e. replace (e + Z.succ j) with (e + 1 + j) by lia. rewrite IH.
    rewrite Z.pow_succ_r, <- Z.div_div by (try apply Z.pow_pos_nonneg; lia). f_equal.
    rewrite <- !at_exp_m, <- at_exp_next. pose proof (units_nonneg e) as Hu. rewrite <- at_exp_m in Hu.
    destruct (at_exp n d e) as [m r s]. simpl in Hu. by rewrite shr_1_nonneg.
Qed.

(** The exponent the value is rounded at, seen from [e]. *)
Definition target (e : Z) : Z := fexp (Zdigits2 (units n d e) + e).

Lemma digits_log2 m : 0 < m -> Zdigits2 m = Z.log2 m + 1.
Proof.
  intros Hm. destruct m as [|p|]; try lia. unfold Zdigits2.
  assert (Z.pos (digits2_pos p) = Z.log2 (Z.pos p) + 1) as ->; [|done].
  clear Hm. induction p as [p IH|p IH|]; [| |reflexivity]; cbn [digits2_pos]; rewrite Pos2Z.inj_succ, IH.
  - rewrite Pos2Z.inj_xI, Z.log2_succ_double by lia. lia.
  - rewrite Pos2Z.inj_xO, Z.log2_double by lia. lia.
Qed.

Lemma fexp_eq x : fexp x = Z.max (x - 53) (-1074).
Proof. reflexivity. Qed.

(** It is the same from anywhere below. *)
Lemma target_same e k : 0 <= k -> e <= target e -> e + k <= target (e + k) -> target (e + k) = target e.
Proof.
  intros Hk H1 H2. unfold target in *. rewrite units_add in * by lia. pose proof (units_nonneg e) as Hu.
  set (q := units n d e) in *. rewrite !fexp_eq in *.
  destruct (Z.lt_ge_cases q (2 ^ k)) as [Hq|Hq].
  - rewrite Z.div_small in * by lia. cbn [Zdigits2] in *.
    destruct (Z.eq_dec q 0) as [->|Hne]; [cbn [Zdigits2] in *; lia|].
    rewrite digits_log2 in * by lia. assert (Z.log2 q < k) by (apply Z.log2_lt_pow2; lia). lia.
  - assert (0 < 2 ^ k) by (apply Z.pow_pos_nonneg; lia).
    assert (0 < q / 2 ^ k) by (apply Z.div_str_pos; lia). rewrite !digits_log2 in * by lia.
    assert (Z.log2 (q / 2 ^ k) = Z.log2 q - k) as ->; [|lia].
    rewrite <- Z.shiftr_div_pow2, Z.log2_shiftr by lia.
    assert (k <= Z.log2 q) by (apply Z.log2_le_pow2; lia). lia.
Qed.

(** A record of the value at [e] is taken to the target. *)
Lemma shr_to_target e l :
  shr_record_of_loc (units n d e) l = at_exp n d e -> e <= target e ->
  shr_fexp 53 1024 (units n d e) e l = (at_exp n d (target e), target e).
Proof.
  intros Hl He. unfold shr_fexp. fold (target e). rewrite Hl. unfold shr.
  destruct (target e - e) as [|p|p] eqn:Ep; [|rewrite at_exp_iter|lia]; rewrite <- ?Ep; f_equal; f_equal; lia.
Qed.

(** The rounded value does not depend on the exponent it was written at. *)
Lemma rounded_same s e k l l' :
  0 <= k -> e <= target e -> e + k <= target (e + k) ->
  shr_record_of_loc (units n d e) l = at_exp n d e ->
  shr_record_of_loc (units n d (e + k)) l' = at_exp n d (e + k) ->
  rounded s (units n d e) e l = rounded s (units n d (e + k)) (e + k) l'.
Proof.
  intros Hk H1 H2 Hl Hl'. unfold binary_round_aux. rewrite !shr_to_target by done. by rewrite target_same.
Qed.

(** The location every value has. *)
Lemma loc_record m r s : shr_record_of_loc m (loc_of_shr_record {| shr_m := m; shr_r := r; shr_s := s |}) =
  {| shr_m := m; shr_r := r; shr_s := s |}.
Proof. by destruct r, s. Qed.

Lemma loc_at e : shr_record_of_loc (units n d e) (loc_of_shr_record (at_exp n d e)) = at_exp n d e.
Proof. unfold at_exp, rec_of. apply loc_record. Qed.

Lemma rounded_any s e e' l l' :
  e <= target e -> e' <= target e' ->
  shr_record_of_loc (units n d e) l = at_exp n d e -> shr_record_of_loc (units n d e') l' = at_exp n d e' ->
  rounded s (units n d e) e l = rounded s (units n d e') e' l'.
Proof.
  intros H1 H2 Hl Hl'. destruct (Z.le_ge_cases e e') as [Hle|Hle].
  - replace e' with (e + (e' - e)) in * by lia. by apply rounded_same; try lia.
  - symmetry. replace e with (e' + (e - e')) in * by lia. by apply rounded_same; try lia.
Qed.
End Value.

Lemma at_exp_scale n d k e : 0 < d -> 0 < k -> at_exp (n * k) (d * k) e = at_exp n d e.
Proof.
  intros Hd Hk. unfold at_exp. pose proof (up_pos e).
  replace (n * k * up (- e)) with (n * up (- e) * k) by ring. replace (d * k * up e) with (d * up e * k) by ring.
  apply rec_scale; [nia|done].
Qed.

Lemma units_scale n d k e : 0 < d -> 0 < k -> units (n * k) (d * k) e = units n d e.
Proof. intros. rewrite <- !at_exp_m. by rewrite at_exp_scale. Qed.

(** [f] is the value [n / d] rounded, with sign [s]. *)
Definition rounds_to (s : bool) (n d : Z) (f : pyfloat) : Prop :=
  exists e l, e <= target n d e /\ shr_record_of_loc (units n d e) l = at_exp n d e /\ f = rounded s (units n d e) e l.

Lemma rounds_unique s n d f g : 0 < n -> 0 < d -> rounds_to s n d f -> rounds_to s n d g -> f = g.
Proof. intros Hn Hd (e & l & H1 & H2 & ->) (e' & l' & H1' & H2' & ->). by apply rounded_any. Qed.

Lemma rounds_scale s n d k f : 0 < d -> 0 < k -> rounds_to s n d f -> rounds_to s (n * k) (d * k) f.
Proof.
  intros Hd Hk (e & l & H1 & H2 & ->). exists e, l. unfold target in *. by rewrite units_scale, at_exp_scale.
Qed.

(** Two ways to write one value. *)
Lemma rounds_equal s n d n' d' f g :
  0 < n -> 0 < d -> 0 < n' -> 0 < d' -> n * d' = n' * d -> rounds_to s n d f -> rounds_to s n' d' g -> f = g.
Proof.
  intros Hn Hd Hn' Hd' Heq Hf Hg. apply (rounds_unique s (n * d') (d * d')); [nia..| |].
  - by apply rounds_scale.
  - rewrite Heq, (Z.mul_comm d). by apply rounds_scale.
Qed.

Lemma rounds_opp s n d f : rounds_to s n d f -> rounds_to (negb s) n d (SFopp f).
Proof.
  intros (e & l & H1 & H2 & ->). exists e, l. split_and!; [done..|]. unfold binary_round_aux.
  destruct (shr_fexp _ _ _ _ _) as [mrs e1]. destruct (shr_fexp _ _ _ _ _) as [mrs' e2].
  destruct (shr_m mrs'); [done| |done]. by destruct (_ <=? _).
Qed.

Lemma new_location_rec q d r : 0 < d -> 0 <= r < d ->
  shr_record_of_loc q (new_location d r) =
  {| shr_m := q; shr_r := d <=? 2 * r; shr_s := negb ((2 * r) mod d =? 0) |}.
Proof.
  intros Hd Hr. destruct (Z.eq_dec r 0) as [->|Hne].
  { rewrite Z.mul_0_r, Z.mod_0_l by lia. rewrite (proj2 (Z.leb_gt d 0)) by lia. unfold new_location. by destruct (Z.even d). }
  assert (new_location d r = loc_Inexact (if Z.even d then 2 * r ?= d else match 2 * r + 1 ?= d with Gt => Gt | _ => Lt end)) as ->.
  { unfold new_location, new_location_even, new_location_odd.
    destruct (Z.even d); rewrite (proj2 (Z.eqb_neq r 0)) by done; [done|by destruct (2 * r + 1 ?= d)]. }
  destruct (Z.lt_ge_cases (2 * r) d) as [Hl|Hl].
  - rewrite (proj2 (Z.leb_gt _ _)), Z.mod_small, (proj2 (Z.eqb_neq _ _)) by lia.
    destruct (Z.even d); [destruct (Z.compare_spec (2 * r) d); [lia|done|lia]|].
    destruct (Z.compare_spec (2 * r + 1) d); [done|done|lia].
  - rewrite (proj2 (Z.leb_le _ _)) by lia.
    assert ((2 * r) mod d = 2 * r - d) as ->.
    { symmetry. apply (Z.mod_unique_pos _ _ 1); lia. }
    destruct (Z.even d) eqn:Ed.
    + destruct (Z.compare_spec (2 * r) d); [|lia|].
      * by rewrite (proj2 (Z.eqb_eq _ _)) by lia.
      * by rewrite (proj2 (Z.eqb_neq _ _)) by lia.
    + assert (2 * r <> d). { intros <-. by rewrite Z.even_mul in Ed. }
      rewrite (proj2 (Z.eqb_neq _ _)) by lia. destruct (Z.compare_spec (2 * r + 1) d); [lia|lia|done].
Qed.

Lemma units_neg n d e : e <= 0 -> units n d e = n * 2 ^ (- e) / d /\ at_exp n d e = rec_of (n * 2 ^ (- e)) d.
Proof.
  intros He. unfold units, at_exp. rewrite (up_neg e) by done. unfold up. rewrite Z.max_r, Z.mul_1_r by lia. done.
Qed.

Lemma log2_bounds n : 0 < n -> 2 ^ Z.log2 n <= n < 2 ^ (Z.log2 n + 1).
Proof. intros. rewrite Z.add_1_r. by apply Z.log2_spec. Qed.

(** An exponent low enough to keep 53 digits of the quotient. *)
Lemma low_target n d e : 0 < n -> 0 < d -> e <= 0 ->
  e = -1074 \/ e <= Z.log2 n - Z.log2 d - 53 -> e <= target n d e.
Proof.
  intros Hn Hd He [->|Hlow]; unfold target; rewrite fexp_eq; [lia|]. destruct (units_neg n d e He) as [-> _].
  pose proof (log2_bounds n Hn) as [Hn1 _]. pose proof (log2_bounds d Hd) as [_ Hd2].
  pose proof (Z.log2_nonneg n). pose proof (Z.log2_nonneg d).
  assert (2 ^ 52 <= n * 2 ^ (- e) / d) as Hq.
  { apply Z.div_le_lower_bound; [done|]. trans (2 ^ Z.log2 n * 2 ^ (- e)).
    - rewrite <- Z.pow_add_r by lia. trans (2 ^ (Z.log2 d + 1) * 2 ^ 52).
      + apply Z.mul_le_mono_nonneg_r; [lia|]. lia.
      + rewrite <- Z.pow_add_r by lia. apply Z.pow_le_mono_r; lia.
    - apply Z.mul_le_mono_nonneg_r; [apply Z.pow_nonneg; lia|done]. }
  rewrite digits_log2 by lia. apply Z.log2_le_mono in Hq. change (Z.log2 (2 ^ 52)) with 52 in Hq. lia.
Qed.

Lemma float_ratio_rounds s n d : 0 < n -> 0 < d -> rounds_to false n d (float_ratio s n d).
Proof.
  intros Hn Hd. destruct n as [|p|]; try lia. unfold float_ratio, SFdiv_core_binary.
  rewrite !digits_log2 by done. rewrite !Z.add_0_r, Z.sub_0_r, fexp_eq.
  set (e := Z.min _ _). assert (e <= 0) as He by lia.
  assert (e = -1074 \/ e <= Z.log2 (Z.pos p) - Z.log2 d - 53) as Hlow by lia.
  assert (match 0 - e with 0 => Z.pos p | Z.pos _ => Z.shiftl (Z.pos p) (0 - e) | Z.neg _ => 0 end = Z.pos p * 2 ^ (- e)) as ->.
  { replace (0 - e) with (- e) by lia. rewrite <- Z.shiftl_mul_pow2 by lia. destruct (- e) eqn:E; [by rewrite Z.shiftl_0_r|done|lia]. }
  pose proof (Z.div_eucl_eq (Z.pos p * 2 ^ (- e)) d ltac:(lia)) as _. clearbody e.
  destruct (Z.div_eucl (Z.pos p * 2 ^ (- e)) d) as [q r] eqn:Eq.
  assert (q = units (Z.pos p) d e /\ r = (Z.pos p * 2 ^ (- e)) mod d) as [-> ->].
  { rewrite (proj1 (units_neg _ _ _ He)). unfold Z.div, Z.modulo. by rewrite Eq. }
  exists e, (new_location d ((Z.pos p * 2 ^ (- e)) mod d)). split_and!; [by apply low_target| |done].
  rewrite new_location_rec; [|done|by apply Z.mod_pos_bound]. rewrite (proj2 (units_neg _ _ _ He)), (proj1 (units_neg _ _ _ He)).
  done.
Qed.

Lemma iter_xO p k : Z.pos (Pos.iter xO p k) = Z.pos p * 2 ^ Z.pos k.
Proof.
  revert p. induction k as [|k IH] using Pos.peano_ind; intros p; [simpl; lia|].
  rewrite Pos.iter_succ, Pos2Z.inj_xO, IH, Pos2Z.inj_succ, Z.pow_succ_r by lia. ring.
Qed.

Lemma float_of_Z_rounds z : 0 < z -> rounds_to false z 1 (float_of_Z z).
Proof.
  intros Hz. destruct z as [|p|]; try lia. unfold float_of_Z, binary_normalize, binary_round, shl_align.
  assert (Z.pos (digits2_pos p) = Z.log2 (Z.pos p) + 1) as -> by (by apply (digits_log2 (Z.pos p))).
  rewrite fexp_eq, Z.add_0_r, Z.sub_0_r. set (x := Z.max _ _).
  assert (forall e, e <= 0 -> at_exp (Z.pos p) 1 e = {| shr_m := Z.pos p * 2 ^ (- e); shr_r := false; shr_s := false |}) as Hexact.
  { intros e He. rewrite (proj2 (units_neg _ _ _ He)). unfold rec_of. by rewrite Z.div_1_r, Z.mod_1_r. }
  assert (forall e, e <= 0 -> target (Z.pos p) 1 e = x) as Htarget.
  { intros e He. unfold target. rewrite <- at_exp_m, Hexact by done. cbn [shr_m].
    rewrite digits_log2, Z.log2_mul_pow2 by (try apply Z.mul_pos_pos; try apply Z.pow_pos_nonneg; lia).
    rewrite fexp_eq. subst x. f_equal. lia. }
  destruct x as [|k|k] eqn:Ex.
  - exists 0, loc_Exact. rewrite Htarget, <- at_exp_m, Hexact, Z.mul_1_r by lia. done.
  - exists 0, loc_Exact. rewrite Htarget, <- at_exp_m, Hexact, Z.mul_1_r by lia. done.
  - exists (Z.neg k), loc_Exact. rewrite Htarget, <- at_exp_m, Hexact by lia. split_and!; [done..|]. cbn [shr_m]. by rewrite iter_xO.
Qed.

(** ** What a value near a float rounds to *)

(** A float's own digits and exponent. *)
Definition canonical (m : positive) (e : Z) : Prop := bounded 53 1024 m e = true.

Lemma canonical_inv m e : canonical m e ->
  fexp (Z.log2 (Z.pos m) + 1 + e) = e /\ e <= 971 /\ -1074 <= e /\ Z.pos m < 2 ^ 53 /\ (Z.pos m < 2 ^ 52 -> e = -1074).
Proof.
  unfold canonical, bounded, canonical_mantissa. intros [Hc He]%andb_true_iff. apply Z.eqb_eq in Hc. apply Z.leb_le in He.
  assert (Z.pos (digits2_pos m) = Z.log2 (Z.pos m) + 1) as Hd by (by apply (digits_log2 (Z.pos m))). rewrite Hd in Hc.
  rewrite fexp_eq in *. split_and!; [done|exact He|lia| |].
  - apply Z.log2_lt_pow2; lia.
  - intros Hm%Z.log2_lt_pow2; lia.
Qed.

Lemma second_round s m e : canonical m e ->
  (let '(mrs, e') := shr_fexp 53 1024 (Z.pos m) e loc_Exact in
   match shr_m mrs with
   | 0 => S754_zero s
   | Z.pos m => if e' <=? 971 then S754_finite s m e' else S754_infinity s
   | Z.neg _ => S754_nan
   end) = S754_finite s m e.
Proof.
  intros (Hf & He & _)%canonical_inv. unfold shr_fexp. rewrite digits_log2, Hf, Z.sub_diag by done. simpl.
  by rewrite (proj2 (Z.leb_le _ _)).
Qed.

(** A value whose nearest number of units at the target is a float's. *)
Lemma rounded_at s n d m e :
  0 < n -> 0 < d -> canonical m e -> target n d e = e ->
  round_nearest_even (units n d e) (loc_of_shr_record (at_exp n d e)) = Z.pos m ->
  rounds_to s n d (S754_finite s m e).
Proof.
  intros Hn Hd Hc Ht Hr. exists e, (loc_of_shr_record (at_exp n d e)). split_and!; [lia|apply loc_at|].
  unfold binary_round_aux. rewrite shr_to_target by (try apply loc_at; lia). rewrite Ht, at_exp_m, Hr. symmetry.
  by apply second_round.
Qed.

Lemma round_rec n d :
  0 <= n -> 0 < d ->
  let r := round_nearest_even (n / d) (loc_of_shr_record (rec_of n d)) in
  forall m, 2 * Z.abs (n - m * d) < d -> r = m.
Proof.
  intros Hn Hd r m Hm. subst r. unfold rec_of.
  pose proof (Z.div_mod n d ltac:(lia)) as Hq. pose proof (Z.mod_pos_bound n d Hd) as Hf.
  set (q := n / d) in *. set (f := n mod d) in *.
  destruct (Z.lt_ge_cases (2 * f) d) as [Hl|Hl].
  - rewrite (proj2 (Z.leb_gt _ _)) by lia. assert (q = m) by nia. by destruct (negb _).
  - rewrite (proj2 (Z.leb_le _ _)) by lia. assert (q + 1 = m) as Hqm by nia.
    assert ((2 * f) mod d = 2 * f - d) as -> by (symmetry; apply (Z.mod_unique_pos _ _ 1); lia).
    destruct (Z.eqb_spec (2 * f - d) 0); [nia|]. done.
Qed.

(** Below a power of two the units are half as large. *)
Lemma rounded_below s n d e :
  0 < n -> 0 < d -> -1074 < e -> e <= 971 -> n * up (- e) < 2 ^ 52 * (d * up e) ->
  4 * Z.abs (n * up (- e) - 2 ^ 52 * (d * up e)) < d * up e -> rounds_to s n d (S754_finite s (2 ^ 52)%positive e).
Proof.
  intros Hn Hd He He' Hlt Hclose.
  assert (2 * Z.abs (n * up (- (e - 1)) - 2 ^ 53 * (d * up (e - 1))) < d * up (e - 1) /\
          n * up (- (e - 1)) < 2 ^ 53 * (d * up (e - 1))) as [Hc Hl].
  { destruct (Z.le_gt_cases e 0) as [H0|H0].
    - rewrite (up_neg e), (up_neg (e - 1)) in * by lia. replace (- (e - 1)) with (- e + 1) by lia. rewrite up_add by lia. lia.
    - rewrite (up_neg (- e)), (up_neg (- (e - 1))) in * by lia. replace e with (e - 1 + 1) in Hclose, Hlt by lia.
      rewrite up_add in Hclose, Hlt by lia. lia. }
  pose proof (den_pos d Hd (e - 1)) as HD. pose proof (num_pos n Hn (e - 1)) as HN.
  assert (2 ^ 52 <= units n d (e - 1) < 2 ^ 53) as Hu.
  { unfold units. split; [apply Z.div_le_lower_bound; lia|apply Z.div_lt_upper_bound; lia]. }
  assert (target n d (e - 1) = e - 1) as Ht.
  { unfold target. rewrite digits_log2 by lia. replace (Z.log2 (units n d (e - 1))) with 52; [rewrite fexp_eq; lia|].
    symmetry. by apply Z.log2_unique. }
  exists (e - 1), (loc_of_shr_record (at_exp n d (e - 1))). split_and!; [lia|apply loc_at|].
  unfold binary_round_aux. rewrite shr_to_target by (try apply loc_at; lia). rewrite Ht, at_exp_m.
  pose proof (round_rec (n * up (- (e - 1))) (d * up (e - 1)) ltac:(lia) HD (2 ^ 53) Hc) as Hr. cbv zeta in Hr.
  unfold units, at_exp. rewrite Hr. unfold shr_fexp. rewrite digits_log2 by done.
  change (Z.log2 (2 ^ 53)) with 53. rewrite fexp_eq. replace (Z.max _ _ - (e - 1)) with 1 by lia. simpl.
  rewrite (proj2 (Z.leb_le _ _)) by lia. f_equal. lia.
Qed.

Lemma target_units s n d m e :
  0 < n -> 0 < d -> canonical m e -> target n d e = e ->
  2 * Z.abs (n * up (- e) - Z.pos m * (d * up e)) < d * up e -> rounds_to s n d (S754_finite s m e).
Proof.
  intros Hn Hd Hc Ht Hclose. apply rounded_at; [done..|].
  pose proof (num_pos n Hn e). pose proof (den_pos d Hd e). by apply round_rec; try lia.
Qed.

(** A value within 2^-54 of a float, relatively, rounds to it. *)
Lemma close_rounds s n d m e :
  0 < n -> 0 < d -> canonical m e ->
  Z.abs (n * up (- e) - Z.pos m * (d * up e)) * 2 ^ 54 < Z.pos m * (d * up e) -> rounds_to s n d (S754_finite s m e).
Proof.
  intros Hn Hd Hc Hclose. destruct (canonical_inv m e Hc) as (Hf & He & He' & Hm & Hsub).
  pose proof (num_pos n Hn e) as HN. pose proof (den_pos d Hd e) as HD.
  assert (2 * Z.abs (n * up (- e) - Z.pos m * (d * up e)) < d * up e) as Hhalf by nia.
  destruct (Z.le_gt_cases (Z.pos m * (d * up e)) (n * up (- e))) as [Hge|Hlt].
  - apply target_units; [done..| |done]. unfold target, units. replace (n * up (- e) / (d * up e)) with (Z.pos m).
    + by rewrite digits_log2.
    + apply Z.div_unique_pos with (n * up (- e) - Z.pos m * (d * up e)); lia.
  - assert (units n d e = Z.pos m - 1) as Hu.
    { unfold units. symmetry. apply Z.div_unique_pos with (n * up (- e) - (Z.pos m - 1) * (d * up e)); lia. }
    destruct (Z.eq_dec e (-1074)) as [->|Hne].
    + apply target_units; [done..| |done]. unfold target. rewrite Hu. rewrite fexp_eq in *.
      destruct (Z.eq_dec (Z.pos m) 1) as [->|]; [reflexivity|]. rewrite digits_log2 by lia.
      pose proof (Z.log2_le_mono (Z.pos m - 1) (Z.pos m) ltac:(lia)). lia.
    + assert (2 ^ 52 <= Z.pos m) as Hbig by (destruct (Z.le_gt_cases (2 ^ 52) (Z.pos m)) as [|H%Hsub]; lia).
      destruct (Z.eq_dec (Z.pos m) (2 ^ 52)) as [Heq|Hbelow].
      * assert (m = (2 ^ 52)%positive) as -> by lia. apply rounded_below; lia.
      * apply target_units; [done..| |done]. unfold target. rewrite Hu. rewrite digits_log2 by lia.
        assert (Z.log2 (Z.pos m) = 52) as El by (apply Z.log2_unique; lia).
        assert (Z.log2 (Z.pos m - 1) = 52) as -> by (apply Z.log2_unique; lia). by rewrite El in Hf.
Qed.

(** ** Decimal values *)

(** [c * 10^x] as a quotient. *)
Definition dec_num (c x : Z) : Z := c * 10 ^ Z.max 0 x.
Definition dec_den (x : Z) : Z := 10 ^ Z.max 0 (- x).

Lemma dec_den_pos x : 0 < dec_den x.
Proof. apply Z.pow_pos_nonneg; lia. Qed.

Lemma dec_num_pos c x : 0 < c -> 0 < dec_num c x.
Proof. intros. apply Z.mul_pos_pos; [done|apply Z.pow_pos_nonneg; lia]. Qed.

Lemma float_of_decimal_ratio c x : float_of_decimal false c x = float_ratio false (dec_num c x) (dec_den x).
Proof.
  unfold float_of_decimal, dec_num, dec_den. destruct (Z.leb_spec 0 x).
  - by rewrite !Z.max_r, Z.max_l by lia.
  - by rewrite Z.max_l, Z.max_r, Z.mul_1_r by lia.
Qed.

Lemma decimal_rounds c x : 0 < c -> rounds_to false (dec_num c x) (dec_den x) (float_of_decimal false c x).
Proof. intros Hc. rewrite float_of_decimal_ratio. apply float_ratio_rounds; [by apply dec_num_pos|apply dec_den_pos]. Qed.

(** Zeros moved into the exponent. *)
Lemma decimal_shift c j x : 0 < c -> 0 <= j -> float_of_decimal false (c * 10 ^ j) x = float_of_decimal false c (x + j).
Proof.
  intros Hc Hj. assert (0 < 10 ^ j) by (apply Z.pow_pos_nonneg; lia).
  eapply rounds_equal; [..|apply decimal_rounds; lia|by apply decimal_rounds];
    [apply dec_num_pos; lia|apply dec_den_pos|by apply dec_num_pos|apply dec_den_pos|].
  unfold dec_num, dec_den. rewrite <- !Z.mul_assoc. f_equal. rewrite <- !Z.pow_add_r by lia. f_equal. lia.
Qed.

Lemma decimal_sign s c x : float_of_decimal s c x = (if s then SFopp (float_of_decimal false c x) else float_of_decimal false c x).
Proof. unfold float_of_decimal. by destruct s, (0 <=? x). Qed.

(** ** The digits found *)

(** [10^(k-1) <= n/d] *)
Definition at_least (n d k : Z) : Prop := d * 10 ^ Z.max 0 (k - 1) <= n * 10 ^ Z.max 0 (1 - k).

Lemma decpt_up_least fuel n d : forall k, 1 <= k -> at_least n d k -> at_least n d (decpt_up fuel n d k).
Proof.
  induction fuel as [|fuel IH]; intros k Hk H; simpl; [done|]. destruct (Z.ltb_spec n (d * 10 ^ k)); [done|].
  apply IH; [lia|]. unfold at_least. rewrite Z.max_r, Z.max_l, Z.pow_0_r by lia. replace (k + 1 - 1) with k by lia. lia.
Qed.

Lemma decpt_down_least fuel n d : forall k, k <= 0 ->
  at_least n d (k - Z.of_nat fuel) -> at_least n d (decpt_down fuel n d k).
Proof.
  induction fuel as [|fuel IH]; intros k Hk H; simpl; [by rewrite Z.sub_0_r in H|].
  destruct (Z.ltb_spec (n * 10 ^ (- k + 1)) d) as [Hl|Hl].
  - apply IH; [lia|]. by replace (k - 1 - Z.of_nat fuel) with (k - Z.of_nat (S fuel)) by lia.
  - unfold at_least. rewrite Z.max_l, Z.max_r, Z.pow_0_r by lia. replace (1 - k) with (- k + 1) by lia. lia.
Qed.

Lemma decpt_least n d : 0 < n -> 0 < d -> d <= n * 10 ^ 401 -> at_least n d (decpt n d).
Proof.
  intros Hn Hd Hb. unfold decpt. destruct (Z.leb_spec d n).
  - apply decpt_up_least; [lia|]. unfold at_least. change (d * 1 <= n * 1). lia.
  - apply decpt_down_least; [lia|]. unfold at_least. rewrite Z.max_l, Z.max_r, Z.pow_0_r by lia.
    change (1 - (0 - Z.of_nat 400)) with 401. lia.
Qed.

Lemma SFcompare_finite g m e : SFcompare g (S754_finite false m e) = Some Eq -> g = S754_finite false m e.
Proof.
  destruct g as [s|s| |s m' e']; cbn [SFcompare]; [done|by destruct s|done|]. destruct s; [done|]. intros H.
  destruct (Z.compare_spec e' e) as [->| |]; [|done..]. injection H as H. apply (Pos.compare_eq m' m) in H. by subst.
Qed.

(** What is found reads back. *)
Lemma shortest_at_reads m e n d k p c x :
  0 < n -> 0 < d -> shortest_at (S754_finite false m e) n d k p = Some (c, x) ->
  0 < c /\ float_of_decimal false c x = S754_finite false m e.
Proof.
  intros Hn Hd. unfold shortest_at. set (e10 := k - Z.of_nat p).
  assert (exists nn dd, (if 0 <=? e10 then (n, d * 10 ^ e10) else (n * 10 ^ (- e10), d)) = (nn, dd) /\ 0 < nn /\ 0 < dd)
    as (nn & dd & -> & Hnn & Hdd).
  { destruct (Z.leb_spec 0 e10); eexists _, _; split_and!; try done; apply Z.mul_pos_pos; try apply Z.pow_pos_nonneg; lia. }
  assert (forall c, 0 <= c -> match SFcompare (float_of_decimal false c e10) (S754_finite false m e) with Some Eq => true | _ => false end = true ->
    0 < c /\ float_of_decimal false c e10 = S754_finite false m e) as Hreads.
  { intros c' Hc'. destruct (SFcompare _ _) as [[]|] eqn:E; try done. intros _. apply SFcompare_finite in E. split; [|done].
    destruct (Z.eq_dec c' 0) as [->|]; [|lia]. rewrite float_of_decimal_ratio in E. unfold dec_num in E. by rewrite Z.mul_0_l in E. }
  assert (0 <= nn / dd) by (apply Z.div_pos; lia). cbv zeta.
  set (b := (_ <? _) || _). match goal with |- (if ?x then _ else _) = _ -> _ => destruct x eqn:E1 end.
  { intros [= <- <-]. apply Hreads; [destruct b; lia|done]. }
  match goal with |- (if ?x then _ else _) = _ -> _ => destruct x eqn:E2 end; [|done]. apply andb_true_iff in E2 as [_ E2]. intros [= <- <-].
  apply Hreads; [destruct b; lia|done].
Qed.

(** A candidate is within half a unit. *)
Lemma nearest_unit nn dd :
  0 < dd -> let c := if (dd <? 2 * (nn mod dd)) || ((2 * (nn mod dd) =? dd) && Z.odd (nn / dd)) then nn / dd + 1 else nn / dd in
  2 * Z.abs (c * dd - nn) <= dd.
Proof.
  intros Hd c. pose proof (Z.div_mod nn dd ltac:(lia)). pose proof (Z.mod_pos_bound nn dd Hd). subst c.
  destruct (Z.ltb_spec dd (2 * (nn mod dd))); simpl; [lia|]. destruct (Z.eqb_spec (2 * (nn mod dd)) dd); simpl; [|lia].
  destruct (Z.odd _); lia.
Qed.

(** Seventeen digits of a float read back as it. *)
Lemma seventeen_digits m e n d :
  canonical m e -> 0 < n -> 0 < d -> n * up (- e) = Z.pos m * (d * up e) -> d <= n * 10 ^ 401 ->
  is_Some (shortest_at (S754_finite false m e) n d (decpt n d) 17).
Proof.
  intros Hc Hn Hd Hval Hb. pose proof (decpt_least n d Hn Hd Hb) as Hk. set (k := decpt n d) in *.
  unfold shortest_at. set (x := k - Z.of_nat 17).
  assert (exists nn dd, (if 0 <=? x then (n, d * 10 ^ x) else (n * 10 ^ (- x), d)) = (nn, dd) /\
    nn = n * dec_den x /\ dd = dec_num d x /\ dd * 10 ^ 16 <= nn) as (nn & dd & -> & Hnn & Hdd & Hbig).
  { unfold dec_den, dec_num, at_least in *. destruct (Z.leb_spec 0 x); eexists _, _; split_and!; try reflexivity.
    - by rewrite Z.max_l, Z.mul_1_r by lia.
    - by rewrite Z.max_r by lia.
    - rewrite Z.max_r, Z.max_l, Z.mul_1_r in Hk by lia. rewrite <- Z.mul_assoc, <- Z.pow_add_r by lia.
      replace (x + 16) with (k - 1) by lia. done.
    - by rewrite Z.max_r by lia.
    - by rewrite Z.max_l, Z.mul_1_r by lia.
    - destruct (Z.le_gt_cases 1 k).
      + rewrite Z.max_r, Z.max_l, Z.mul_1_r in Hk by lia. replace (10 ^ 16) with (10 ^ (k - 1) * 10 ^ (- x)).
        * rewrite Z.mul_assoc. apply Z.mul_le_mono_nonneg_r; [apply Z.pow_nonneg; lia|done].
        * rewrite <- Z.pow_add_r by lia. f_equal. lia.
      + rewrite Z.max_l, Z.max_r, Z.mul_1_r in Hk by lia. replace (- x) with (1 - k + 16) by lia. rewrite Z.pow_add_r by lia. lia. }
  pose proof (dec_den_pos x) as HB. pose proof (dec_num_pos d x Hd) as HA. rewrite <- Hdd in HA.
  pose proof (nearest_unit nn dd HA) as Hnear. cbv zeta in *. set (b := (_ <? _) || _) in *.
  set (c := if b then nn / dd + 1 else nn / dd) in *.
  assert (float_of_decimal false c x = S754_finite false m e) as ->.
  { assert (0 < c) as Hcpos by nia. eapply rounds_unique; [..|by apply decimal_rounds|]; [by apply dec_num_pos|done|].
    apply close_rounds; [by apply dec_num_pos|done..|].
    pose proof (up_pos e) as He. pose proof (up_pos (- e)) as He'.
    assert (dec_num c x * d = c * dd) as Hcd by (rewrite Hdd; unfold dec_num; ring).
    apply (Zmult_lt_reg_r _ _ d); [done|].
    replace (Z.pos m * (dec_den x * up e) * d) with (nn * up (- e)) by (rewrite Hnn; nia).
    replace (Z.abs (dec_num c x * up (- e) - Z.pos m * (dec_den x * up e)) * 2 ^ 54 * d)
      with (Z.abs (c * dd - nn) * up (- e) * 2 ^ 54).
    - nia.
    - replace (Z.abs (c * dd - nn) * up (- e)) with (Z.abs (dec_num c x * up (- e) - Z.pos m * (dec_den x * up e)) * d); [ring|].
      rewrite <- (Z.abs_eq d) at 1 by lia. rewrite <- (Z.abs_eq (up (- e))) at 2 by lia. rewrite <- !Z.abs_mul. f_equal. nia. }
  simpl. rewrite Z.compare_refl. change (Pos.compare_cont Eq m m) with (Pos.compare m m). rewrite Pos.compare_refl. by eexists.
Qed.

Lemma shortest_from_reads m e n d k : 0 < n -> 0 < d -> forall left p,
  (exists q, (p <= q <= p + left)%nat /\ is_Some (shortest_at (S754_finite false m e) n d k q)) ->
  let '(c, x) := shortest_from (S754_finite false m e) n d k p left in
  0 < c /\ float_of_decimal false c x = S754_finite false m e.
Proof.
  intros Hn Hd left. induction left as [|left IH]; intros p (q & Hq & Hs); cbn [shortest_from];
    destruct (shortest_at (S754_finite false m e) n d k p) as [[c x]|] eqn:E;
    try (by eapply shortest_at_reads; [..|exact E]).
  - replace q with p in Hs by lia. rewrite E in Hs. by destruct Hs.
  - apply IH. exists q. split; [|done]. destruct (decide (q = p)) as [->|]; [|lia]. rewrite E in Hs. by destruct Hs.
Qed.

Lemma strip_zeros_value fuel : forall c x, 0 < c ->
  let '(c', x') := strip_zeros fuel c x in 0 < c' /\ exists j, 0 <= j /\ c = c' * 10 ^ j /\ x' = x + j.
Proof.
  induction fuel as [|fuel IH]; intros c x Hc; simpl; [split; [done|]; exists 0; lia|].
  destruct (Z.eqb_spec (c mod 10) 0) as [Hm|Hm]; simpl; [|split; [done|]; exists 0; lia].
  rewrite (proj2 (Z.eqb_neq c 0)) by lia. simpl. pose proof (Z.div_mod c 10 ltac:(lia)) as Hdiv.
  specialize (IH (c / 10) (x + 1) ltac:(lia)). destruct (strip_zeros fuel (c / 10) (x + 1)) as [c' x'].
  destruct IH as (Hc' & j & Hj & Hcj & Hx). split; [done|]. exists (j + 1). split_and!; [lia| |lia].
  rewrite Z.pow_add_r by lia. lia.
Qed.

(** The digits and the point [repr] chooses are a way to write the float. *)
Lemma shortest_digits_read m e : canonical m e ->
  exists c, 0 < c /\ shortest_digits m e = (str_Z c, (shortest_digits m e).2) /\
    float_of_decimal false c ((shortest_digits m e).2 - Z.of_nat (length (str_Z c))) = S754_finite false m e.
Proof.
  intros Hc. destruct (canonical_inv m e Hc) as (_ & He & He' & Hm & _). unfold shortest_digits.
  set (nd := if 0 <=? e then (Z.pos m * 2 ^ e, 1) else (Z.pos m, 2 ^ (- e))).
  assert (0 < nd.1 /\ 0 < nd.2 /\ nd.1 * up (- e) = Z.pos m * (nd.2 * up e) /\ nd.2 <= nd.1 * 10 ^ 401) as (Hn & Hd & Hval & Hb).
  { subst nd. destruct (Z.leb_spec 0 e); simpl fst; simpl snd.
    - rewrite (up_neg (- e)) by lia. unfold up. rewrite Z.max_r by lia. assert (0 < 2 ^ e) by (apply Z.pow_pos_nonneg; lia).
      assert (1 <= 10 ^ 401) by (apply Z.leb_le; vm_compute; reflexivity). split_and!; [lia|lia|lia|]. nia.
    - rewrite (up_neg e) by lia. unfold up. rewrite Z.max_r by lia. assert (0 < 2 ^ (- e)) by (apply Z.pow_pos_nonneg; lia).
      split_and!; [lia|done|lia|]. trans (2 ^ 1074); [apply Z.pow_le_mono_r; lia|].
      trans (1 * 10 ^ 401); [apply Z.leb_le; vm_compute; reflexivity|]. apply Z.mul_le_mono_nonneg_r; [apply Z.pow_nonneg; lia|lia]. }
  destruct nd as [n d]. cbn [fst snd] in *.
  pose proof (shortest_from_reads m e n d (decpt n d) Hn Hd 17 1) as Hs.
  destruct (shortest_from (S754_finite false m e) n d (decpt n d) 1 17) as [c x].
  destruct Hs as [Hcpos Hreads]; [exists 17%nat; split; [lia|by apply seventeen_digits]|].
  pose proof (strip_zeros_value 20 c x Hcpos) as Hz. destruct (strip_zeros 20 c x) as [c' x'].
  destruct Hz as (Hc' & j & Hj & -> & ->). exists c'. split_and!; [done|done|]. cbn [snd].
  rewrite decimal_shift in Hreads by done. rewrite <- Hreads. f_equal. lia.
Qed.

(** ** The text *)

Abbreviation digits s := (Forall (fun c => is_digit c = true) s) (only parsing).

Lemma digits_str_Z c : 0 <= c -> digits (str_Z c) /\ str_Z c <> [] /\ Z.of_N (digits_val (str_Z c)) = c.
Proof.
  intros Hc. unfold str_Z. rewrite (proj2 (Z.ltb_ge c 0)) by done.
  destruct (str_N_spec (Z.to_N c)) as (Hv & Hd & Hne). split_and!; [|done|rewrite Hv; lia].
  eapply Forall_impl; [exact Hd|]. intros x Hx. by apply is_digit_ascii.
Qed.

Lemma digits_val_leading n s : digits_val (zeros n ++ s) = digits_val s.
Proof.
  unfold zeros. induction (Z.to_nat n) as [|k IH]; [done|]. cbn [replicate app].
  unfold digits_val in *. cbn [fold_left]. replace (10 * 0 + default 0 (digit_val 48))%N with 0%N by reflexivity. exact IH.
Qed.

Lemma digits_zeros n : digits (zeros n).
Proof. unfold zeros. by apply Forall_replicate. Qed.

(** A text [w.f] or [w] followed by an exponent, with a sign or none. *)
Definition sign_text (neg : bool) : pystr := if neg then [45%N] else [].
Definition point_text (f : pystr) : pystr := match f with [] => [] | _ => 46%N :: f end.

Lemma parse_decimal (neg : bool) (w f r : pystr) (e : Z) :
  digits w -> digits f -> w <> [] -> 95%N ∉ r -> read_exponent r = Some e ->
  (r = [] \/ exists c t, r = c :: t /\ is_digit c = false /\ c <> 46%N) ->
  parse_float (sign_text neg ++ w ++ point_text f ++ r) =
  Some (float_of_decimal neg (Z.of_N (digits_val (w ++ f))) (e - Z.of_nat (length f))).
Proof.
  intros Hw Hf Hne Hr He Hstop. destruct w as [|c w]; [done|]. apply Forall_cons in Hw as [Hc Hw].
  unfold parse_float. rewrite strip_underscores_none.
  2: { rewrite !not_elem_of_app. split_and!; [by destruct neg; set_solver| | |done].
       - apply digits_no_char; [by constructor|done].
       - unfold point_text. destruct f; [set_solver|]. apply not_elem_of_cons. split; [done|by apply digits_no_char]. }
  assert (read_sign (sign_text neg ++ (c :: w) ++ point_text f ++ r) = (neg, (c :: w) ++ point_text f ++ r)) as ->.
  { destruct neg; [done|]. cbn [app]. apply read_sign_digit. by left. }
  destruct (no_word c (w ++ point_text f ++ r)) as (H1 & H2 & H3); [by left|]. cbn [app]. rewrite H1, H2, H3. cbn [orb].
  change (c :: w ++ point_text f ++ r) with ((c :: w) ++ point_text f ++ r).
  assert (forall s t, digits s -> (t = [] \/ exists c u, t = c :: u /\ is_digit c = false) -> span_digits (s ++ t) = (s, t)) as Hspan.
  { clear. intros s t Hs Ht. induction Hs as [|x s Hx Hs IH]; cbn [app span_digits]; [|by rewrite Hx, IH].
    destruct Ht as [->|(x & u & -> & Hx)]; [done|]. cbn [span_digits]. by rewrite Hx. }
  rewrite Hspan; [|by constructor|].
  2: { unfold point_text. destruct f; [destruct Hstop as [->|(x & t & -> & Hx & _)]; [by left|right; by eauto]|right; by eauto]. }
  destruct f as [|d f].
  - cbn [point_text app]. assert (forall X, (match r with c0 :: r' => if bool_decide (c0 = 46%N) then span_digits r' else ([], r) | [] => ([], []) end) = X -> X = ([], r)) as Hx.
    { intros X <-. destruct Hstop as [->|(x & t & -> & _ & Hx)]; [done|]. by rewrite bool_decide_eq_false_2. }
    rewrite (Hx _ eq_refl). rewrite app_nil_r. cbn [app length]. rewrite He. by rewrite Z.sub_0_r.
  - cbn [point_text app]. rewrite bool_decide_eq_true_2 by done. rewrite (app_comm_cons f r d).
    rewrite Hspan; [|done|destruct Hstop as [->|(x & t & -> & Hx & _)]; [by left|right; by eauto]].
    cbn [app]. by rewrite He.
Qed.

Lemma decimal_value neg c j x y :
  0 < c -> 0 <= j -> y = x + j -> float_of_decimal neg (c * 10 ^ j) x = float_of_decimal neg c y.
Proof. intros Hc Hj ->. rewrite !(decimal_sign neg). by rewrite decimal_shift. Qed.

Lemma digits_val_lit_zeros s n : Z.of_N (digits_val (s ++ zeros n)) = Z.of_N (digits_val s) * 10 ^ Z.of_nat (length (zeros n)).
Proof.
  unfold zeros. induction (Z.to_nat n) as [|k IH]; [rewrite app_nil_r; simpl; lia|].
  rewrite replicate_S_end, app_assoc, digits_val_app. cbn [fold_left].
  replace (default 0 (digit_val 48))%N with 0%N by reflexivity. rewrite N.add_0_r, N2Z.inj_mul, IH.
  rewrite length_app. cbn [length]. rewrite Nat2Z.inj_add, Z.pow_add_r by lia. change (10 ^ Z.of_nat 1) with 10. lia.
Qed.

Lemma exponent_text x :
  read_exponent (101%N :: (if x <? 0 then "-" : pystr else "+") ++ (if Z.abs x <? 10 then ("0" : pystr) ++ str_Z (Z.abs x) else str_Z (Z.abs x))) = Some x.
Proof.
  destruct (digits_str_Z (Z.abs x) ltac:(lia)) as (Hd & Hne & Hv).
  set (ds := if Z.abs x <? 10 then ("0" : pystr) ++ str_Z (Z.abs x) else str_Z (Z.abs x)).
  assert (digits ds /\ ds <> [] /\ Z.of_N (digits_val ds) = Z.abs x) as (Hds & Hds' & Hv').
  { subst ds. destruct (Z.abs x <? 10); [|done]. split_and!; [by constructor|done|].
    by rewrite <- Hv at 2. }
  clearbody ds. unfold read_exponent. rewrite bool_decide_eq_true_2 by done.
  assert (read_sign ((if x <? 0 then "-" : pystr else "+") ++ ds) = (x <? 0, ds)) as -> by by destruct (x <? 0).
  assert (all_digits ds = true) as ->.
  { unfold all_digits. destruct ds; [done|]. apply forallb_forall. intros y Hy%list_elem_of_In. rewrite Forall_forall in Hds. auto. }
  rewrite Hv'. f_equal. destruct (Z.ltb_spec x 0); lia.
Qed.

(** The notation with an exponent. *)
Lemma exponent_reads neg c dp : 0 < c ->
  let ds := str_Z c in
  parse_float (sign_text neg ++ take 1 ds ++ (if 1 <? Z.of_nat (length ds) then ("." : pystr) ++ drop 1 ds else []) ++
    ("e" : pystr) ++ (if dp - 1 <? 0 then "-" : pystr else "+") ++
    (if Z.abs (dp - 1) <? 10 then ("0" : pystr) ++ str_Z (Z.abs (dp - 1)) else str_Z (Z.abs (dp - 1)))) =
  Some (float_of_decimal neg c (dp - Z.of_nat (length ds))).
Proof.
  intros Hc ds. destruct (digits_str_Z c ltac:(lia)) as (Hd & Hne & Hv). fold ds in Hd, Hne, Hv.
  destruct (digits_str_Z (Z.abs (dp - 1)) ltac:(lia)) as (Hd' & _ & _).
  pose proof (exponent_text (dp - 1)) as He.
  set (r := ("e" : pystr) ++ _). change (read_exponent r = Some (dp - 1)) in He.
  pose proof (parse_decimal neg (take 1 ds) (drop 1 ds) r (dp - 1)) as Hp.
  assert ((if 1 <? Z.of_nat (length ds) then ("." : pystr) ++ drop 1 ds else []) = point_text (drop 1 ds)) as ->.
  { destruct ds as [|d [|d' ds']]; [done..|]. rewrite (proj2 (Z.ltb_lt _ _)) by (simpl; lia). done. }
  rewrite Hp; [|by apply Forall_take|by apply Forall_drop|by destruct ds|..|done|].
  - rewrite take_drop, Hv, length_drop. f_equal. f_equal. destruct ds; [done|simpl; lia].
  - subst r. rewrite !not_elem_of_app. split_and!; [set_solver|by destruct (_ <? 0); set_solver|].
    destruct (_ <? 10); [apply not_elem_of_app; split; [set_solver|]|]; by apply digits_no_char.
  - right. exists 101%N. subst r. by eexists.
Qed.

(** Whatever notation is chosen for the digits of [c], the value is
    [c * 10^(dp - len)]. *)
Lemma format_reads neg c dp : 0 < c ->
  parse_float (sign_text neg ++ format_digits (str_Z c) dp) =
  Some (float_of_decimal neg c (dp - Z.of_nat (length (str_Z c)))).
Proof.
  intros Hc. destruct (digits_str_Z c ltac:(lia)) as (Hd & Hne & Hv). unfold format_digits.
  set (ds := str_Z c) in *. assert (1 <= Z.of_nat (length ds)) as Hlen by (destruct ds; [done|simpl; lia]).
  destruct (Z.ltb_spec (-4) dp) as [Hlo|Hlo], (Z.leb_spec dp 16) as [Hhi|Hhi]; cbn [andb]; try lia;
    [destruct (Z.leb_spec dp 0) as [H0|H0]; [|destruct (Z.leb_spec (Z.of_nat (length ds)) dp) as [Hl|Hl]]|..].
  - rewrite <- (app_nil_r ds) at 1. assert (zeros (- dp) ++ ds <> []) as Hf by by intros [_ ?]%app_eq_nil.
    pose proof (parse_decimal neg [48%N] (zeros (- dp) ++ ds) [] 0) as Hp.
    unfold point_text in Hp. destruct (zeros (- dp) ++ ds) as [|d f] eqn:Ef; [done|].
    rewrite <- Ef in Hp. rewrite app_nil_r in Hp.
    change (lit "0." ++ zeros (- dp) ++ ds ++ []) with ([48%N] ++ 46%N :: zeros (- dp) ++ ds ++ []). rewrite app_nil_r.
    rewrite Hp; [|by repeat constructor|apply Forall_app; by split; [apply digits_zeros|]|done|set_solver|done|by left].
    f_equal. cbn [app]. change (digits_val (48%N :: zeros (- dp) ++ ds)) with (digits_val (zeros (- dp) ++ ds)).
    rewrite digits_val_leading, Hv. f_equal. rewrite length_app. unfold zeros. rewrite length_replicate. lia.
  - pose proof (parse_decimal neg (ds ++ zeros (dp - Z.of_nat (length ds))) [48%N] [] 0) as Hp. cbn [point_text] in Hp.
    rewrite <- !app_assoc in Hp. cbn [app] in Hp.
    change (lit ".0") with ([46; 48]%N). rewrite Hp; [|apply Forall_app; by split; [|apply digits_zeros]|by repeat constructor|
      by intros [? _]%app_eq_nil|set_solver|done|by left].
    f_equal. rewrite app_assoc. change [48%N] with (zeros 1) at 1. rewrite !digits_val_lit_zeros, Hv.
    rewrite <- Z.mul_assoc, <- Z.pow_add_r by lia. apply decimal_value; [done|lia|].
    unfold zeros. rewrite !length_replicate. simpl length. lia.
  - pose proof (parse_decimal neg (take (Z.to_nat dp) ds) (drop (Z.to_nat dp) ds) [] 0) as Hp.
    assert (drop (Z.to_nat dp) ds <> []) as Hf.
    { intros E%(f_equal length). rewrite length_drop in E. simpl in E. lia. }
    assert (take (Z.to_nat dp) ds <> []) as Hw.
    { intros E%(f_equal length). rewrite length_take in E. simpl in E. lia. }
    unfold point_text in Hp. destruct (drop (Z.to_nat dp) ds) as [|d f] eqn:Ef; [done|]. rewrite <- Ef in *.
    rewrite app_nil_r in Hp. change (lit ".") with ([46%N]). cbn [app]. rewrite Hp; [|by apply Forall_take|by apply Forall_drop|
      done|set_solver|done|by left].
    rewrite take_drop, Hv, length_drop. f_equal. f_equal. lia.
  - rewrite <- !app_assoc. by apply exponent_reads.
  - rewrite <- !app_assoc. by apply exponent_reads.
Qed.

(** [float(repr(x))] is [x]. *)
Lemma repr_reads_back f : valid_binary 53 1024 f = true -> parse_float (float_repr f) = Some f.
Proof.
  intros Hf. destruct f as [s|s| |s m e]; [by destruct s|by destruct s|done|].
  destruct (shortest_digits_read m e Hf) as (c & Hc & Hds & Hval). unfold float_repr.
  destruct (shortest_digits m e) as [ds dp]. injection Hds as ->. cbn [snd] in Hval.
  change (if s then ("-" : pystr) else []) with (sign_text s). rewrite format_reads by done.
  rewrite decimal_sign, Hval. by destruct s.
Qed.
