(* ===== verification/Printer.v ===== *)
(** * Nodes as text: forms/expression_text.py

    [render] writes a node of the document (raw JSON, as the request carries
    it) the way the parser of [Surface] reads it, parenthesised by
    precedence; [expressions] is the endpoint of api/v1/forms.py that does
    both directions. *)

From S2P Require Import Prelude PyStr PyNum Value Expr Expression Surface.

(** ** Tables *)

(** [_BINARY]: the level the parser reads the operator at, and its symbol. *)
Definition BINARY : odict (nat * pystr) :=
  [(lit "or", (1%nat, lit "or")); (lit "and", (2%nat, lit "and")); (lit "eq", (3%nat, lit "="));
   (lit "ne", (3%nat, lit "!=")); (lit "lt", (3%nat, lit "<")); (lit "lte", (3%nat, lit "<="));
   (lit "gt", (3%nat, lit ">")); (lit "gte", (3%nat, lit ">=")); (lit "add", (4%nat, lit "+"));
   (lit "sub", (4%nat, lit "-")); (lit "div", (4%nat, lit "div")); (lit "mod", (4%nat, lit "mod"));
   (lit "idiv", (4%nat, lit "idiv")); (lit "mul", (5%nat, lit "*"))].

Definition NARY : list pystr := [lit "and"; lit "or"].
Definition LEFT_ASSOCIATIVE : list pystr :=
  [lit "add"; lit "sub"; lit "mul"; lit "div"; lit "mod"; lit "idiv"].
Definition UNARY_PRECEDENCE : nat := 6.

(** ** Literals *)

(** [format(Decimal(text), "f")] of the digits [ds] with the decimal point
    after [dp] of them. *)
Definition format_fixed (ds : pystr) (dp : Z) : pystr :=
  let len := Z.of_nat (length ds) in
  if dp <=? 0 then lit "0." ++ zeros (- dp) ++ ds
  else if len <=? dp then ds ++ zeros (dp - len)
  else take (Z.to_nat dp) ds ++ lit "." ++ drop (Z.to_nat dp) ds.

(** [_number] of a finite float. *)
Definition float_text (f : pyfloat) : pystr :=
  let text := float_repr f in
  let text :=
    if bool_decide (101%N ∈ text) then
      match f with
      | S754_finite s m e =>
          let '(ds, dp) := shortest_digits m e in
          (if s then lit "-" else []) ++ format_fixed ds dp
      | _ => text
      end
    else text in
  if bool_decide (46%N ∈ text) then text else text ++ lit ".0".

Definition is_finite (f : pyfloat) : bool := negb (is_inf f || is_nan f).

Definition is_negative_number (v : value) : bool :=
  match v with
  | VInt z => z <? 0
  | VFloat f => float_sign f
  | _ => false
  end.

(** CPython converts no integer of more digits, either way. *)
Definition int_too_long (z : Z) : bool := bool_decide (INT_TEXT_LIMIT < length (str_Z (Z.abs z)))%nat.

(** [-value] of a number *)
Definition negated (v : value) : value :=
  match v with VInt z => VInt (- z) | VFloat f => VFloat (SFopp f) | v => v end.

Section WithUnicode.
Context {env : PyEnv} {uni : UnicodeDB}.

(** [str(value)] *)
Definition py_str (v : value) : pystr :=
  match v with
  | VNone => lit "None"
  | VBool b => if b then lit "True" else lit "False"
  | VInt z => str_Z z
  | VFloat f => float_repr f
  | VStr s => s
  | VList _ | VDict _ => str_container v
  end.

(** [_literal] *)
Definition literal (v : value) : res pystr :=
  match v with
  | VBool true => Ok (lit "true()")
  | VBool false => Ok (lit "false()")
  | VNone => Ok (lit "null()")
  | VInt z => if int_too_long z then Raise ValueError else Ok (str_Z z)
  | VFloat f => if is_finite f then Ok (float_text f) else Raise (RenderError "not a number a form can hold")
  | _ =>
      let text := py_str v in
      if bool_decide (39%N ∉ text) then Ok ([39%N] ++ text ++ [39%N])
      else if bool_decide (34%N ∉ text) then Ok ([34%N] ++ text ++ [34%N])
      else Raise (RenderError "both quote characters")
  end.

(** ** Nodes *)

Definition paren (text : pystr) : pystr := lit "(" ++ text ++ lit ")".

Definition paren_below (precedence parent : nat) (text : pystr) : pystr :=
  if (precedence <? parent)%nat then paren text else text.

(** The renderers of a node's [args], by the type of sequence they come in: a
    list (or a string, whose characters are no nodes), an object, which is
    iterated by its keys and has no item 0, or something with no length. *)
Inductive kids :=
| Seq (l : list (nat -> res pystr))
| Keyed (l : list (nat -> res pystr))
| NoSeq.

Definition not_a_node : nat -> res pystr := fun _ => Raise (RenderError "not an expression node").

(** [node.get("args") or []], the children already renderers. *)
Definition kids_of (args : value) (children : list (nat -> res pystr)) : kids :=
  if negb (truthy args) then Seq []
  else match args with
       | VList _ => Seq children
       | VStr s => Seq (map (fun _ => not_a_node) s)
       | VDict d => Keyed (map (fun _ => not_a_node) d)
       | _ => NoSeq
       end.

(** [len(args)], and what iterating them gives. *)
Definition items (k : kids) : res (list (nat -> res pystr)) :=
  match k with Seq l | Keyed l => Ok l | NoSeq => Raise TypeError end.

(** [_render(args[i], precedence)] *)
Definition item (k : kids) (i precedence : nat) : res pystr :=
  match k with
  | Seq l => match l !! i with Some r => r precedence | None => Raise IndexError end
  | Keyed _ => Raise KeyError
  | NoSeq => Raise TypeError
  end.

(** [sep.join(_render(a, precedence) for a in args)] *)
Definition joined (sep : pystr) (precedence : nat) (l : list (nat -> res pystr)) : res pystr :=
  ts ← mapR (fun r => r precedence) l; Ok (join sep ts).

(** The branch of [_render] for an operator of [_BINARY]. *)
Definition render_binary (op : pystr) (precedence : nat) (symbol : pystr) (args : kids) (parent : nat)
  : res pystr :=
  let spaced := lit " " ++ symbol ++ lit " " in
  l ← items args;
  if bool_decide (op ∈ NARY) then
    if (length l <? 2)%nat then Raise (RenderError "takes two or more arguments")
    else rendered ← joined spaced (S precedence) l; Ok (paren_below precedence parent rendered)
  else if negb (length l =? 2)%nat then Raise (RenderError "takes two arguments")
  else
    lhs ← item args 0 (if bool_decide (op ∈ LEFT_ASSOCIATIVE) then precedence else S precedence);
    rhs ← item args 1 (S precedence);
    Ok (paren_below precedence parent (lhs ++ spaced ++ rhs)).

(** [_render] of an object, its children already renderers. *)
Definition render_node (d : list (pystr * value)) (args : kids) (parent : nat) : res pystr :=
  match dget d "op" with
  | None => not_a_node parent
  | Some (VStr op) =>
      if str_eqb op "lit" then
        let value := vget d "value" in
        if is_negative_number value then
          text ← literal (negated value);
          Ok (paren_below UNARY_PRECEDENCE parent (lit "-" ++ text))
        else literal value
      else if str_eqb op "ref" then
        let path := py_str (default (VStr []) (dget d "path")) in
        if startswith path "$row." then Ok (drop 5 path) else Ok (lit "${" ++ path ++ lit "}")
      else match dget BINARY op with
      | Some (precedence, symbol) => render_binary op precedence symbol args parent
      | None =>
      if str_eqb op "not" then text ← item args 0 0; Ok (lit "not(" ++ text ++ lit ")")
      else if str_eqb op "neg" then
        text ← item args 0 UNARY_PRECEDENCE;
        Ok (paren_below UNARY_PRECEDENCE parent (lit "-" ++ text))
      else if str_eqb op "selected" then
        a ← item args 0 0;
        b ← item args 1 0;
        Ok (lit "selected(" ++ a ++ lit ", " ++ b ++ lit ")")
      else if str_eqb op "if" then
        l ← items args;
        rendered ← joined (lit ", ") 0 l;
        Ok (lit "if(" ++ rendered ++ lit ")")
      else if str_eqb op "in" then Raise (RenderError "in has no surface syntax")
      else if str_eqb op "call" then
        let name := py_str (default (VStr []) (dget d "fn")) in
        if str_eqb name "null" then Raise (RenderError "the null function")
        else
          l ← items args;
          rendered ← joined (lit ", ") 0 l;
          Ok (name ++ lit "(" ++ rendered ++ lit ")")
      else Raise (RenderError "unknown operator")
      end
  | Some (VList _ | VDict _) => Raise TypeError      (* unhashable, at [op in _BINARY] *)
  | Some _ => Raise (RenderError "unknown operator")
  end.

Fixpoint render_at (node : value) (parent : nat) {struct node} : res pystr :=
  match node with
  | VDict d =>
      render_node d
        ((fix look (d : list (pystr * value)) : kids :=
            match d with
            | [] => Seq []
            | (k, x) :: r =>
                if decide (k = lit "args")
                then kids_of x (match x with VList l => map render_at l | _ => [] end)
                else look r
            end) d) parent
  | _ => not_a_node parent
  end.

Definition render (node : value) : res pystr := render_at node 0.

End WithUnicode.

(** ** The nodes the parser builds, as JSON *)

Definition op_name (op : operator) : pystr :=
  match op with
  | OpIf => lit "if" | OpAnd => lit "and" | OpOr => lit "or" | OpNot => lit "not"
  | OpNeg => lit "neg" | OpDiv => lit "div" | OpIdiv => lit "idiv" | OpAdd => lit "add"
  | OpSub => lit "sub" | OpMul => lit "mul" | OpMod => lit "mod" | OpEq => lit "eq"
  | OpNe => lit "ne" | OpLt => lit "lt" | OpLte => lit "lte" | OpGt => lit "gt"
  | OpGte => lit "gte" | OpSelected => lit "selected" | OpIn => lit "in"
  end.

Fixpoint node_of (e : expr) : value :=
  match e with
  | ELit v => VDict [(lit "op", VStr "lit"); (lit "value", v)]
  | ERef p => VDict [(lit "op", VStr "ref"); (lit "path", VStr p)]
  | EOp op args => VDict [(lit "op", VStr (op_name op)); (lit "args", VList (map node_of args))]
  | ECall fn args =>
      VDict [(lit "op", VStr "call"); (lit "fn", VStr fn); (lit "args", VList (map node_of args))]
  | EUnknown op args => VDict [(lit "op", VStr op); (lit "args", VList (map node_of args))]
  | EMissing args => VDict [(lit "op", VStr "ref"); (lit "args", VList (map node_of args))]
  | ENoOp args => VDict [(lit "args", VList (map node_of args))]
  | ENotDict => VNone
  end.

(** ** The endpoint: api/v1/forms.py [expressions] *)

Record expression_request := ExpressionRequest {
  req_text : option pystr;
  req_expression : option (list (pystr * value));
  req_self_path : option pystr;
  req_row_scope : bool
}.

Inductive response_error :=
| NotRendered (e : exn)                 (* the text of a [RenderError] *)
| NotParsed (p : problem)
| NothingSent.

Record expression_response := ExpressionResponse {
  resp_expression : option value;
  resp_text : option pystr;
  resp_error : option response_error;
  resp_offset : option nat
}.

Definition is_render_error (e : exn) : bool := match e with RenderError _ => true | _ => false end.

(** [Raise] is an exception that leaves the handler. *)
Definition expressions {env : PyEnv} {uni : UnicodeDB} (request : expression_request)
  : res expression_response :=
  match req_expression request with
  | Some node =>
      match render (VDict node) with
      | Ok text => Ok (ExpressionResponse (Some (VDict node)) (Some text) None None)
      | Raise e =>
          if is_render_error e
          then Ok (ExpressionResponse (Some (VDict node)) None (Some (NotRendered e)) None)
          else Raise e
      end
  | None =>
      match req_text request with
      | None => Ok (ExpressionResponse None None (Some NothingSent) None)
      | Some text =>
          match parse text (req_self_path request) (req_row_scope request) with
          | Halted (Refused e) =>
              Ok (ExpressionResponse None None (Some (NotParsed (err_problem e))) (err_offset e))
          | Halted (Crashed x) => Raise x
          | Halted OutOfFuel => Raise AssertionError   (* never: [parse_answers] *)
          | Done e =>
              match render (node_of e) with
              | Ok text => Ok (ExpressionResponse (Some (node_of e)) (Some text) None None)
              | Raise x =>
                  if is_render_error x
                  then Ok (ExpressionResponse (Some (node_of e)) None None None)
                  else Raise x
              end
          end
      end
  end.
