(* ===== verification/PrinterFacts.v ===== *)
(** * The printer against the tokenizer and the grammar

    What [render] writes of a node the surface can express is cut back into
    tokens that spell the node at the level it was asked for
    ([render_spells]), so the parser reads it back ([parse_render]). *)

From S2P Require Import Prelude PyStr PyNum Value Expr Expression Surface Grammar SurfaceFacts Printer.

(** A check over a range of characters, done by computation. *)
Lemma char_range (P : N -> bool) (a n : nat) c :
  forallb P (map N.of_nat (seq a n)) = true -> (N.of_nat a <= c < N.of_nat (a + n))%N -> P c = true.
Proof.
  rewrite forallb_forall. intros HP Hc. apply HP. rewrite <- list_elem_of_In, list_elem_of_fmap.
  exists (N.to_nat c). split; [lia|]. apply elem_of_seq. lia.
Qed.

#[global] Instance pyfloat_eq_dec : EqDecision pyfloat.
Proof. solve_decision. Defined.

Section Printed.
Context {env : PyEnv} {uni : UnicodeDB} {laws : UnicodeLaws}.

(** ** The tokenizer, a piece of text at a time *)

Definition tok (index : nat) (s : pystr) : outcome (list token) := tokenize_from (length s) index s.

Definition prepend (used : list token) (m : outcome (list token)) : outcome (list token) :=
  ts ← m; Done (used ++ ts).

Lemma prepend_app a b m : prepend a (prepend b m) = prepend (a ++ b) m.
Proof. destruct m; simpl; [by rewrite app_assoc|done]. Qed.

Lemma prepend_nil m : prepend [] m = m.
Proof. by destruct m. Qed.

Lemma tok_step index s t rest :
  s <> [] -> next_token index s = Done (t, rest) ->
  tok index s = prepend (option_list t) (tok (index + (length s - length rest)) rest).
Proof.
  intros Hs Hn. destruct s as [|c r]; [done|]. unfold tok at 1.
  pose proof (next_token_ok index (c :: r) Hs) as Hok. rewrite Hn in Hok.
  destruct Hok as [(took & E & Ht) _]. assert (length rest < length (c :: r))%nat.
  { rewrite E, length_app. destruct took; [done|simpl; lia]. }
  cbn [tokenize_from length]. rewrite Hn. cbn [mbind outcome_bind].
  unfold tok, prepend. rewrite (tokenize_from_fuel (length r) (length rest)); [|simpl in *; lia|lia].
  destruct (tokenize_from (length rest) _ rest); [|done]. by destruct t.
Qed.

(** Text read as the tokens it begins with, whatever they are read as. *)
Lemma tok_take index took t rest :
  took <> [] -> next_token index (took ++ rest) = Done (Some t, rest) ->
  tok index (took ++ rest) = prepend [t] (tok (index + length took) rest).
Proof.
  intros Ht Hn. rewrite (tok_step _ (took ++ rest) (Some t) rest); [|by destruct took|done].
  simpl option_list. do 2 f_equal. rewrite length_app. lia.
Qed.

Lemma tok_space index rest : tok index (32%N :: rest) = tok (S index) rest.
Proof.
  rewrite (tok_step index (32%N :: rest) None rest) by done. simpl option_list. rewrite prepend_nil.
  f_equal. simpl length. lia.
Qed.

(** An operator of one character that begins no longer one. *)
Definition single (c : N) : bool :=
  bool_decide (c ∈ one_char_ops) && bool_decide (c <> 60%N /\ c <> 61%N /\ c <> 62%N).

Lemma no_double c r : (c <> 33 /\ c <> 60 /\ c <> 61 /\ c <> 62)%N -> take 2 (c :: r) ∉ two_char_ops.
Proof.
  intros Hc Hin. simpl in Hin.
  repeat (apply elem_of_cons in Hin as [[= -> _]|Hin]; [lia|]). by apply not_elem_of_nil in Hin.
Qed.

Lemma tok_single index c rest :
  single c = true -> tok index (c :: rest) = prepend [Token KOp [c] index] (tok (S index) rest).
Proof.
  unfold single. rewrite andb_true_iff, !bool_decide_eq_true. intros [Hin Hne].
  change (c :: rest) with ([c] ++ rest).
  rewrite (tok_take index [c] (Token KOp [c] index)); [simpl length; do 2 f_equal; lia|done|].
  assert (next_token index (c :: rest) =
          if bool_decide (take 2 (c :: rest) ∈ two_char_ops)
          then Done (Some (Token KOp (take 2 (c :: rest)) index), drop 2 (c :: rest))
          else Done (Some (Token KOp [c] index), rest)) as E.
  { repeat (apply elem_of_cons in Hin as [->|Hin]; [reflexivity|]). by apply not_elem_of_nil in Hin. }
  change ([c] ++ rest) with (c :: rest). rewrite E, bool_decide_eq_false_2; [done|]. apply no_double. split_and!; try apply Hne.
  intros ->. repeat (apply elem_of_cons in Hin as [[=]|Hin]). by apply not_elem_of_nil in Hin.
Qed.

(** What may follow a printed node: the end, a space, a closing parenthesis
    or a comma. *)
Definition boundary (rest : pystr) : Prop :=
  match rest with [] => True | c :: _ => c = 32%N \/ c = 41%N \/ c = 44%N end.

Definition after_name (rest : pystr) : Prop :=
  match rest with [] => True | c :: _ => name_char c = false end.

Lemma boundary_after_name rest : boundary rest -> after_name rest.
Proof.
  destruct rest as [|c r]; [done|]. simpl. unfold name_char.
  intros [->|[->| ->]]; by rewrite word_ascii.
Qed.

(** A name, as the tokenizer takes it whole. *)
Definition name_ok (n : pystr) : bool :=
  match n with c :: r => name_start c && forallb name_char r | [] => false end.

(** A name of ASCII letters, digits and underscores is one whatever the
    Unicode database says. *)
Definition ascii_name (n : pystr) : bool :=
  match n with
  | c :: r => name_start c && forallb (fun c => bool_decide (c < 128)%N && ascii_word c) r
  | [] => false
  end.

Lemma ascii_name_ok n : ascii_name n = true -> name_ok n = true.
Proof.
  destruct n as [|c r]; [done|]. simpl. rewrite !andb_true_iff, !forallb_forall. intros [Hc Hr].
  split; [done|]. intros d Hd%Hr. apply andb_true_iff in Hd as [Hlt%bool_decide_eq_true Hw].
  unfold name_char. by rewrite word_ascii, Hw.
Qed.

(** A letter or an underscore begins nothing but a name. *)
Definition only_name (c : N) : bool :=
  negb (is_space c) && negb (bool_decide (c = 36%N)) && bool_decide (closers_of c = None)
  && negb (digit_char c) && negb (bool_decide (c = 46%N)) && negb (bool_decide (c ∈ one_char_ops))
  && bool_decide (c <> 33 /\ c <> 60 /\ c <> 61 /\ c <> 62)%N.

Lemma name_start_only c : name_start c = true -> only_name c = true.
Proof.
  unfold name_start. rewrite !orb_true_iff, !bool_decide_eq_true. intros [[Hc|Hc]| ->]; [| |by vm_compute].
  - apply (char_range only_name 65 26); [by vm_compute|lia].
  - apply (char_range only_name 97 26); [by vm_compute|lia].
Qed.

Lemma tok_name index n rest :
  name_ok n = true -> after_name rest ->
  tok index (n ++ rest) = prepend [Token KName n index] (tok (index + length n) rest).
Proof.
  intros Hn Hr. destruct n as [|c n]; [done|]. simpl in Hn. apply andb_true_iff in Hn as [Hc Hn].
  apply tok_take; [done|]. pose proof (name_start_only c Hc) as Ho. unfold only_name in Ho.
  rewrite !andb_true_iff, !negb_true_iff, !bool_decide_eq_true in Ho.
  destruct Ho as ((((((H1 & H2) & H3) & H4) & H5) & H6) & H7).
  rewrite <- app_comm_cons. unfold next_token. rewrite H1.
  assert (startswith (c :: n ++ rest) "${" = false) as ->.
  { unfold startswith. change (lit "${") with [36; 123]%N. simpl. apply bool_decide_eq_false in H2.
    by rewrite decide_False by congruence. }
  rewrite H3, H4, H5. simpl (false || _). cbn [andb].
  rewrite bool_decide_eq_false_2 by (by apply no_double). rewrite H6. simpl. rewrite Hc.
  by rewrite span_name_spec.
Qed.

(** A name with the parenthesis of its call. *)
Lemma tok_call index n rest :
  name_ok n = true ->
  tok index (n ++ 40%N :: rest) =
  prepend [Token KName n index; Token KOp "(" (index + length n)] (tok (S (index + length n)) rest).
Proof.
  intros Hn. rewrite tok_name; [|done|unfold after_name, name_char; by rewrite word_ascii].
  rewrite tok_single by done. by rewrite prepend_app.
Qed.

Lemma tok_string index q s rest :
  q = 39%N \/ q = 34%N -> q ∉ s ->
  tok index ((q :: s ++ [q]) ++ rest) =
  prepend [Token KString s index] (tok (index + length (q :: s ++ [q])) rest).
Proof.
  intros Hq Hs. apply tok_take; [done|].
  assert (closing_quote [q] ((s ++ [q]) ++ rest) = Some (s, rest)) as Hc.
  { rewrite <- app_assoc. apply closing_quote_spec; [|set_solver]. apply Forall_forall. set_solver. }
  destruct Hq as [-> | ->]; rewrite <- app_comm_cons; unfold next_token; simpl; by rewrite Hc.
Qed.

Lemma tok_ref index p rest :
  125%N ∉ p -> strip p = p ->
  tok index ((lit "${" ++ p ++ lit "}") ++ rest) =
  prepend [Token KRef p index] (tok (index + length (lit "${" ++ p ++ lit "}")) rest).
Proof.
  intros Hp Hs. apply tok_take; [done|].
  change (lit "${" ++ p ++ lit "}") with (36%N :: 123%N :: p ++ [125%N]).
  assert (cut [125%N] (36%N :: 123%N :: (p ++ [125%N]) ++ rest) = Some (36%N :: 123%N :: p, rest)) as Hc.
  { rewrite <- app_assoc. apply (cut_char 125 (36 :: 123 :: p)%N). set_solver. }
  rewrite <- !app_comm_cons. unfold next_token. change (lit "}") with [125%N]. rewrite Hc.
  change (drop 2 (36%N :: 123%N :: p)) with p. by rewrite Hs.
Qed.

Lemma digit_begins_number c :
  is_digit c = true -> is_space c = false /\ closers_of c = None /\ digit_char c = true /\ c <> 36%N.
Proof.
  intros Hc. split_and!.
  - destruct (is_space c) eqn:E; [|done]. apply space_no_digit in E. congruence.
  - unfold closers_of. destruct (list_find _ CLOSERS) as [[k q]|] eqn:E; [|done].
    apply list_find_Some in E as (Hin%list_elem_of_lookup_2 & <- & _). exfalso. revert Hc. unfold CLOSERS in Hin.
    repeat (apply elem_of_cons in Hin as [->|Hin]; [by vm_compute|]). by apply not_elem_of_nil in Hin.
  - by apply digit_char_ascii.
  - intros ->. by vm_compute in Hc.
Qed.

Lemma match_number_spec text rest :
  number_text text -> boundary rest -> match_number (text ++ rest) = Some (text, rest).
Proof.
  intros (w & f & Hw & Hf & Hcase) Hb.
  assert (match rest with c :: _ => is_digit c = false | [] => True end) as Hnd.
  { destruct rest as [|c r]; [done|]. destruct Hb as [->|[->| ->]]; by vm_compute. }
  unfold match_number. destruct Hcase as [[-> Hne]|[-> Hne]].
  - rewrite span_digits_spec by done. destruct w as [|c w]; [done|].
    destruct rest as [|d r]; [done|]. rewrite bool_decide_eq_false_2; [done|].
    intros ->. by destruct Hb as [?|[?|?]].
  - pose proof (span_digits_spec f rest Hf Hnd) as Ef.
    rewrite <- app_assoc, <- app_comm_cons, span_digits_spec by done.
    destruct w as [|c w]; cbn [app]; rewrite bool_decide_eq_true_2, Ef by done; by destruct f.
Qed.

(** A number that begins with a digit. *)
Lemma tok_number index text rest c r :
  text = c :: r -> is_digit c = true -> number_text text -> boundary rest ->
  tok index (text ++ rest) = prepend [Token KNumber text index] (tok (index + length text) rest).
Proof.
  intros Et Hc Hn Hb. apply tok_take; [by rewrite Et|]. pose proof (match_number_spec _ _ Hn Hb) as Hm.
  rewrite Et in *. rewrite <- app_comm_cons in *. unfold next_token.
  destruct (digit_begins_number c Hc) as (-> & -> & -> & Hne).
  assert (startswith (c :: r ++ rest) "${" = false) as ->.
  { unfold startswith. change (lit "${") with [36; 123]%N. simpl. by rewrite decide_False by congruence. }
  simpl orb. cbv iota. by rewrite Hm.
Qed.

(** ** Text that spells something

    [lexes G a text]: wherever the text stands before a boundary, it is cut
    into tokens that [G] relates to [a]; [spells] adds that it neither begins
    nor ends with whitespace. *)

Definition lexes {A} (G : A -> list token -> Prop) (a : A) (text : pystr) : Prop :=
  forall index rest, boundary rest ->
    exists used, G a used /\ tok index (text ++ rest) = prepend used (tok (index + length text) rest).

Definition starts_well (s : pystr) : Prop := exists c r, s = c :: r /\ is_space c = false.
Definition ends_well (s : pystr) : Prop := exists r c, s = r ++ [c] /\ is_space c = false.

Definition spells (G : expr -> list token -> Prop) (e : expr) (text : pystr) : Prop :=
  lexes G e text /\ starts_well text /\ ends_well text.

Lemma starts_well_app s t : starts_well s -> starts_well (s ++ t).
Proof. intros (c & r & -> & ?). by exists c, (r ++ t). Qed.

Lemma ends_well_app s t : ends_well t -> ends_well (s ++ t).
Proof. intros (r & c & -> & ?). exists (s ++ r), c. by rewrite app_assoc. Qed.

Lemma starts_well_cons c s : is_space c = false -> starts_well (c :: s).
Proof. intros. by exists c, s. Qed.

Lemma ends_well_last s c : is_space c = false -> ends_well (s ++ [c]).
Proof. intros. by exists s, c. Qed.

(** One text after another, the second going on where the first may end. *)
Lemma lexes_app {A B C} (G1 : A -> _) (G2 : B -> _) (G : C -> _) a b c t1 t2 :
  lexes G1 a t1 -> lexes G2 b t2 -> (forall rest, boundary rest -> boundary (t2 ++ rest)) ->
  (forall ts1 ts2, G1 a ts1 -> G2 b ts2 -> G c (ts1 ++ ts2)) ->
  lexes G c (t1 ++ t2).
Proof.
  intros H1 H2 Hb HG index rest Hr. rewrite <- app_assoc.
  destruct (H1 index (t2 ++ rest) (Hb _ Hr)) as (u1 & ? & E1).
  destruct (H2 (index + length t1)%nat rest Hr) as (u2 & ? & E2).
  exists (u1 ++ u2). split; [by apply HG|]. rewrite E1, E2, prepend_app, length_app. do 2 f_equal. lia.
Qed.

(** One token before a text, whatever follows it. *)
Definition opens (P : token -> Prop) (text : pystr) : Prop :=
  forall index rest, exists t, P t /\ tok index (text ++ rest) = prepend [t] (tok (index + length text) rest).

Lemma lexes_opens {A B} P (G : A -> _) (G' : B -> _) a b t1 t2 :
  opens P t1 -> lexes G a t2 -> (forall t ts, P t -> G a ts -> G' b (t :: ts)) ->
  lexes G' b (t1 ++ t2).
Proof.
  intros H1 H2 HG index rest Hr. rewrite <- app_assoc.
  destruct (H1 index (t2 ++ rest)) as (t & ? & E1).
  destruct (H2 (index + length t1)%nat rest Hr) as (u2 & ? & E2).
  exists (t :: u2). split; [by apply HG|]. rewrite E1, E2, prepend_app, length_app. simpl.
  do 2 f_equal. lia.
Qed.

Lemma opens_single c : single c = true -> opens (fun t => is_tok KOp [c] t = true) [c].
Proof.
  intros Hc index rest. exists (Token KOp [c] index). split.
  - unfold is_tok. simpl. rewrite lower_plain, str_eqb_refl; [done|].
    unfold single in Hc. apply andb_true_iff in Hc as [Hin%bool_decide_eq_true _].
    repeat (apply elem_of_cons in Hin as [->|Hin]; [by vm_compute|]). by apply not_elem_of_nil in Hin.
  - simpl app. rewrite tok_single by done. simpl length. do 2 f_equal. lia.
Qed.

(** A spaced symbol: [ + ], [ and ]. *)
Definition symbol_token (symbol : pystr) (t : token) : Prop :=
  t_text t = symbol /\ t_kind t = (if ascii_name symbol then KName else KOp).

Definition symbols : list pystr := map (fun b => b.2.2) BINARY.

Lemma opens_symbol symbol :
  symbol ∈ symbols -> opens (symbol_token symbol) (lit " " ++ symbol ++ lit " ").
Proof.
  intros Hin index rest. change (lit " ") with [32%N]. rewrite <- !app_assoc. simpl app. rewrite tok_space.
  unfold symbol_token. destruct (ascii_name symbol) eqn:Hn.
  - exists (Token KName symbol (S index)). split; [done|].
    rewrite tok_name; [|by apply ascii_name_ok|unfold after_name, name_char; by rewrite word_ascii].
    rewrite tok_space. do 2 f_equal. simpl. rewrite length_app. simpl. lia.
  - exists (Token KOp symbol (S index)). split; [done|].
    rewrite (tok_take _ _ (Token KOp symbol (S index))).
    + rewrite tok_space. do 2 f_equal. simpl. rewrite length_app. simpl. lia.
    + assert (forallb (fun x => negb (str_eqb x [])) symbols = true) as Hs by by_compute.
      rewrite forallb_forall in Hs. apply list_elem_of_In, Hs in Hin. by intros ->.
    + unfold symbols in Hin. cbn [map snd BINARY] in Hin.
      repeat (apply elem_of_cons in Hin as [->|Hin]; [first [reflexivity | by vm_compute in Hn]|]).
      by apply not_elem_of_nil in Hin.
Qed.

Lemma spells_mono (G G' : expr -> list token -> Prop) e text :
  spells G e text -> (forall ts, G e ts -> G' e ts) -> spells G' e text.
Proof.
  intros (Hl & ? & ?) HG. split_and!; [|done|done]. intros index rest Hr.
  destruct (Hl index rest Hr) as (used & ? & ?). eauto.
Qed.

(** An operand, a symbol and another operand. *)
Lemma spells_infix (G1 G2 G : expr -> list token -> Prop) a b c t1 t2 symbol :
  symbol ∈ symbols -> spells G1 a t1 -> spells G2 b t2 ->
  (forall t ts1 ts2, symbol_token symbol t -> G1 a ts1 -> G2 b ts2 -> G c (ts1 ++ t :: ts2)) ->
  spells G c (t1 ++ (lit " " ++ symbol ++ lit " ") ++ t2).
Proof.
  intros Hin (H1 & S1 & _) (H2 & _ & E2) HG. split_and!; [|by apply starts_well_app|by do 2 apply ends_well_app].
  eapply (lexes_app G1 (fun b ts => exists t ts2, ts = t :: ts2 /\ symbol_token symbol t /\ G2 b ts2)); [done| | |].
  - eapply lexes_opens; [by apply opens_symbol|exact H2|]. eauto 10.
  - intros rest _. change (lit " ") with [32%N]. simpl. by left.
  - intros ts1 ? Ha (t & ts2 & -> & ? & ?). by apply HG.
Qed.

(** ** Levels *)

Variable self_path : option pystr.
Variable row_scope : bool.
Abbreviation gram G := (G self_path row_scope true).

(** The grammar of the levels [_render] is called with. *)
Definition level (precedence : nat) : expr -> list token -> Prop :=
  match precedence with
  | 0 | 1 => gram g_or
  | 2 => gram g_and
  | 3 => gram g_cmp
  | 4 => gram g_add
  | 5 => gram g_mul
  | 6 => gram g_unary
  | _ => gram g_primary
  end%nat.

Lemma level_S p e ts : level (S p) e ts -> level p e ts.
Proof.
  destruct p as [|[|[|[|[|[|[|p]]]]]]]; simpl; intros Hg; try done.
  - rewrite <- (app_nil_r ts). exact (G_or _ _ _ e [] ts [] Hg (G_or_nil _ _ _)).
  - rewrite <- (app_nil_r ts). exact (G_and _ _ _ e [] ts [] Hg (G_and_nil _ _ _)).
  - by apply G_cmp_one.
  - rewrite <- (app_nil_r ts). exact (G_add _ _ _ e e ts [] Hg (G_add_nil _ _ _ e)).
  - rewrite <- (app_nil_r ts). exact (G_mul _ _ _ e e ts [] Hg (G_mul_nil _ _ _ e)).
  - by apply G_primary.
Qed.

Lemma level_le p q e ts : (p <= q)%nat -> level q e ts -> level p e ts.
Proof. induction 1 as [|q Hle IH]; [done|]. intros Hg. by apply IH, level_S. Qed.

Lemma spells_le p q e text : (p <= q)%nat -> spells (level q) e text -> spells (level p) e text.
Proof. intros Hle Hs. eapply spells_mono; [exact Hs|]. intros ts. by apply level_le. Qed.

(** A left-nested operator goes on the chain its left operand is. *)
Lemma add_more_snoc a l r t op ts ts2 :
  gram g_add_more a l ts -> additive_op true t = Some op -> gram g_mul r ts2 ->
  gram g_add_more a (EOp op [l; r]) (ts ++ t :: ts2).
Proof.
  intros Hg Ht Hr. induction Hg as [a|u op' a b e ts1 ts' Hu Hb He IH].
  - simpl. rewrite <- (app_nil_r ts2). econstructor; [done|done|constructor].
  - simpl. rewrite <- app_assoc. by econstructor.
Qed.

Lemma add_left l r t op ts ts2 :
  gram g_add l ts -> additive_op true t = Some op -> gram g_mul r ts2 ->
  gram g_add (EOp op [l; r]) (ts ++ t :: ts2).
Proof.
  intros Hg Ht Hr. destruct Hg as [a e ts1 ts' Ha He]. rewrite <- app_assoc.
  eapply G_add; [done|]. by apply add_more_snoc.
Qed.

Lemma mul_more_snoc a l r t ts ts2 :
  gram g_mul_more a l ts -> is_times t = true -> gram g_unary r ts2 ->
  gram g_mul_more a (EOp OpMul [l; r]) (ts ++ t :: ts2).
Proof.
  intros Hg Ht Hr. induction Hg as [a|u a b e ts1 ts' Hu Hb He IH].
  - simpl. rewrite <- (app_nil_r ts2). econstructor; [done|done|constructor].
  - simpl. rewrite <- app_assoc. by econstructor.
Qed.

Lemma mul_left l r t ts ts2 :
  gram g_mul l ts -> is_times t = true -> gram g_unary r ts2 ->
  gram g_mul (EOp OpMul [l; r]) (ts ++ t :: ts2).
Proof.
  intros Hg Ht Hr. destruct Hg as [a e ts1 ts' Ha He]. rewrite <- app_assoc.
  eapply G_mul; [done|]. by apply mul_more_snoc.
Qed.

(** ** Lists of texts *)

Lemma lexes_more (P : token -> Prop) (G : expr -> list token -> Prop) Gs sep :
  opens P sep -> (forall s, boundary (sep ++ s)) -> Gs [] [] ->
  (forall t a l ts ts', P t -> G a ts -> Gs l ts' -> Gs (a :: l) (t :: ts ++ ts')) ->
  forall args texts, Forall2 (lexes G) args texts -> lexes Gs args (concat (map (fun s => sep ++ s) texts)).
Proof.
  intros Hsep Hb Hnil Hcons args texts Hf.
  induction Hf as [|a text args texts Ha Hf IH]; simpl.
  - intros index rest Hr. exists []. split; [done|]. simpl. by rewrite prepend_nil, Nat.add_0_r.
  - eapply (lexes_app (fun a ts => exists t ts', ts = t :: ts' /\ P t /\ G a ts')); [|exact IH| |].
    + eapply lexes_opens; [done|exact Ha|]. eauto 10.
    + intros rest Hr. destruct texts; simpl; [done|]. rewrite <- !app_assoc. apply Hb.
    + intros ? ts2 (t & ts & -> & ? & ?) ?. by apply Hcons.
Qed.

Lemma join_cons sep (x : pystr) xs : join sep (x :: xs) = x ++ concat (map (fun s => sep ++ s) xs).
Proof.
  revert x. induction xs as [|y xs IH]; intros x; [by rewrite app_nil_r|].
  change (join sep (x :: y :: xs)) with (x ++ sep ++ join sep (y :: xs)). rewrite IH. simpl.
  by rewrite <- app_assoc.
Qed.

Lemma join_ends sep xs : xs <> [] -> Forall ends_well xs -> ends_well (join sep xs).
Proof.
  intros Hne Hf. induction Hf as [|x xs Hx Hf IH]; [done|]. destruct xs as [|y xs]; [done|].
  change (join sep (x :: y :: xs)) with (x ++ sep ++ join sep (y :: xs)).
  by do 2 apply ends_well_app; apply IH.
Qed.

Lemma spells_lexes G args texts :
  Forall2 (spells G) args texts -> Forall2 (lexes G) args texts.
Proof. intros Hf. eapply Forall2_impl; [exact Hf|]. by intros a t (? & _). Qed.

Lemma opens_comma : opens (fun t => is_tok KOp "," t = true) (lit ", ").
Proof.
  intros index rest. destruct (opens_single 44 eq_refl index (32%N :: rest)) as (t & Ht & E).
  exists t. split; [done|]. change (lit ", " ++ rest) with ([44%N] ++ 32%N :: rest).
  rewrite E, tok_space. do 2 f_equal. simpl. lia.
Qed.

(** A call: the name, and the arguments between parentheses. *)
Lemma spells_call fn args texts e :
  ascii_name fn = true -> plain fn = true -> fn <> lit "true" -> fn <> lit "false" ->
  Forall2 (spells (gram g_or)) args texts ->
  (forall offset, call_node true fn offset args = Done e) ->
  spells (gram g_primary) e (fn ++ lit "(" ++ join ", " texts ++ lit ")").
Proof.
  intros Hn%ascii_name_ok Hp H1 H2 Hf Hc. split_and!.
  2: { destruct fn as [|c fn]; [done|]. simpl in Hn. apply andb_true_iff in Hn as [Hs%name_start_only _].
       unfold only_name in Hs. rewrite !andb_true_iff, negb_true_iff in Hs.
       apply starts_well_cons. apply Hs. }
  2: { rewrite !app_assoc. by apply ends_well_last. }
  assert (lexes (gram g_args) args (join ", " texts)) as Ha.
  { apply spells_lexes in Hf. destruct Hf as [|a t args texts Ha Hf].
    - intros index rest _. exists []. split; [constructor|]. simpl. by rewrite prepend_nil, Nat.add_0_r.
    - rewrite join_cons. eapply (lexes_app _ (gram g_args_more)); [exact Ha| | |].
      + eapply (lexes_more (fun t => is_tok KOp "," t = true) (gram g_or) (gram g_args_more)); [apply opens_comma| |constructor| |exact Hf].
        * intros s. change (lit ", ") with [44; 32]%N. simpl. auto.
        * intros. by constructor.
      + intros rest Hr. destruct texts; [done|]. change (lit ", ") with [44; 32]%N. simpl. auto.
      + intros. by constructor. }
  intros index rest Hr. change (lit "(") with [40%N]. change (lit ")") with [41%N].
  rewrite <- !app_assoc. simpl app. rewrite tok_call by done.
  destruct (Ha (S (index + length fn)) (41%N :: rest)) as (used & Hu & E); [simpl; auto|]. rewrite E.
  rewrite tok_single, !prepend_app by done. eexists. split; [|f_equal; f_equal; rewrite !length_app; simpl; rewrite length_app; simpl; lia].
  rewrite <- app_assoc. simpl. eapply G_call; simpl; eauto; try by rewrite lower_plain.
  unfold is_tok. simpl. by rewrite lower_plain.
Qed.

(** ** What the surface can express *)

(** A float written as digits, a point and digits that read back as it: what
    [repr] promises of every finite one. *)
Definition float_surface (f : pyfloat) : bool :=
  let t := float_text f in
  match span_digits t with
  | (_ :: _, c :: r) => bool_decide (c = 46%N) && all_digits r && bool_decide (parse_float t = Some f)
  | _ => false
  end.

Definition literal_surface (v : value) : bool :=
  match v with
  | VNone | VBool _ => true
  | VInt z => negb (int_too_long z)
  | VFloat f => float_surface (if float_sign f then SFopp f else f)
  | VStr s => bool_decide (39%N ∉ s) || bool_decide (34%N ∉ s)
  | VList _ | VDict _ => false
  end.

Definition path_surface (p : pystr) : bool :=
  if startswith p "$row." then row_scope && name_ok (drop 5 p)
  else bool_decide (125%N ∉ p) && bool_decide (strip p = p).

Definition arity_ok (op : operator) (n : nat) : bool :=
  match op with
  | OpIf => n =? 3
  | OpAnd | OpOr => 2 <=? n
  | OpNot | OpNeg => n =? 1
  | OpIn => false
  | _ => n =? 2
  end%nat.

(** The nodes the surface can express, in a choice filter or out of one. *)
Fixpoint surface (e : expr) : bool :=
  match e with
  | ELit v => literal_surface v
  | ERef p => path_surface p
  | EOp op args => arity_ok op (length args) && forallb surface args
  | ECall fn args => dhas FUNCTIONS fn && forallb surface args
  | EUnknown _ _ | EMissing _ | ENoOp _ | ENotDict => false
  end.

(** The shape a node comes back in: a negative number is the negation of a
    positive one (A.4). *)
Fixpoint normal (e : expr) : expr :=
  match e with
  | ELit v => if is_negative_number v then EOp OpNeg [ELit (negated v)] else e
  | EOp op args => EOp op (map normal args)
  | ECall fn args => ECall fn (map normal args)
  | _ => e
  end.

(** ** Literals *)

Lemma spells_number text v :
  (exists c r, text = c :: r /\ is_digit c = true) -> (exists r c, text = r ++ [c] /\ is_digit c = true) ->
  number_text text -> number_value text = Done v ->
  spells (gram g_primary) (ELit v) text.
Proof.
  intros (c & r & E & Hc) (r' & d & E' & Hd) Hn Hv.
  assert (forall x, is_digit x = true -> is_space x = false) as Hs.
  { intros x Hx. destruct (is_space x) eqn:Ex; [|done]. apply space_no_digit in Ex. congruence. }
  split_and!; [|exists c, r; auto|exists r', d; auto].
  intros index rest Hr. exists [Token KNumber text index].
  split; [by apply (G_number _ _ _ (Token KNumber text index))|by eapply tok_number].
Qed.

Lemma spells_int z :
  0 <= z -> (length (str_Z z) <= INT_TEXT_LIMIT)%nat -> spells (gram g_primary) (ELit (VInt z)) (str_Z z).
Proof.
  intros Hz Hl. assert (str_Z z = str_N (Z.to_N z)) as E.
  { unfold str_Z. destruct (Z.ltb_spec z 0); [lia|done]. }
  rewrite E in *. destruct (str_N_spec (Z.to_N z)) as (Hval & Hd & Hne).
  assert (Forall (fun c => is_digit c = true) (str_N (Z.to_N z))) as Hds.
  { eapply Forall_impl; [exact Hd|]. intros c. apply is_digit_ascii. }
  apply spells_number.
  - destruct (str_N (Z.to_N z)) as [|c s]; [done|]. exists c, s. split; [done|by inversion Hds].
  - destruct (str_N (Z.to_N z)) as [|c s _] using rev_ind; [done|]. exists s, c.
    split; [done|]. by apply Forall_app in Hds as [_ [? _]%Forall_cons].
  - exists (str_N (Z.to_N z)), []. naive_solver.
  - unfold number_value. rewrite bool_decide_eq_false_2 by (by apply digits_no_char).
    rewrite bool_decide_eq_false_2 by lia. rewrite parse_int_digits, Hval by done.
    by rewrite Z2N.id by lia.
Qed.

Lemma spells_float f :
  float_surface f = true -> spells (gram g_primary) (ELit (VFloat f)) (float_text f).
Proof.
  unfold float_surface. destruct (span_digits (float_text f)) as [[|c w] [|x r]] eqn:E; try done.
  apply span_digits_split in E as (E & Hw & _). rewrite !andb_true_iff, !bool_decide_eq_true.
  intros [[-> Hr] Hp]. assert (Forall (fun c => is_digit c = true) r /\ r <> []) as [Hrd Hne].
  { unfold all_digits in Hr. destruct r; [done|]. split; [|done]. rewrite forallb_forall in Hr.
    apply Forall_forall. intros y Hy%list_elem_of_In. auto. }
  apply spells_number.
  - rewrite E. exists c, (w ++ 46%N :: r). split; [done|by inversion Hw].
  - rewrite E. destruct r as [|d r _] using rev_ind; [done|]. exists ((c :: w) ++ 46%N :: r), d.
    split; [by rewrite <- app_assoc|]. by apply Forall_app in Hrd as [_ [? _]%Forall_cons].
  - rewrite E. exists (c :: w), r. naive_solver.
  - unfold number_value. rewrite bool_decide_eq_true_2 by (rewrite E; set_solver). by rewrite Hp.
Qed.

Lemma spells_quoted q s :
  q = 39%N \/ q = 34%N -> q ∉ s -> spells (gram g_primary) (ELit (VStr s)) ([q] ++ s ++ [q]).
Proof.
  intros Hq Hs. split_and!.
  - intros index rest _. exists [Token KString s index].
    split; [by apply (G_string _ _ _ (Token KString s index))|]. simpl. by apply tok_string.
  - apply starts_well_cons. by destruct Hq as [-> | ->].
  - rewrite app_assoc. apply ends_well_last. by destruct Hq as [-> | ->].
Qed.

(** [true()], [false()] and [null()]. *)
Lemma spells_word w v :
  ascii_name w = true -> plain w = true ->
  (forall index, g_primary self_path row_scope true (ELit v)
     [Token KName w index; Token KOp "(" (index + length w)%nat;
      Token KOp ")" (S (index + length w))%nat]) ->
  spells (gram g_primary) (ELit v) (w ++ lit "()").
Proof.
  intros Hn%ascii_name_ok Hp Hg. split_and!.
  - intros index rest _. eexists. split; [apply Hg|]. change (lit "()") with [40; 41]%N.
    rewrite <- app_assoc. simpl app. rewrite tok_call, tok_single, prepend_app by done.
    simpl. do 2 f_equal. rewrite length_app. simpl. lia.
  - destruct w as [|c w]; [done|]. simpl in Hn. apply andb_true_iff in Hn as [Hs%name_start_only _].
    unfold only_name in Hs. rewrite !andb_true_iff, negb_true_iff in Hs. apply starts_well_cons, Hs.
  - apply (ends_well_app w). by exists [40%N], 41%N.
Qed.

Lemma spells_literal v :
  literal_surface v = true -> is_negative_number v = false ->
  exists text, literal v = Ok text /\ spells (gram g_primary) (ELit v) text.
Proof.
  assert (forall i, is_tok KOp ")" (Token KOp ")" i) = true) as Hclose.
  { intros i. unfold is_tok. simpl. by rewrite lower_plain. }
  destruct v as [|b|z|f|s|l|d]; simpl; intros Hs Hn; try done.
  - exists (lit "null()"). split; [done|]. apply (spells_word (lit "null")); [done|done|]. intros i.
    eapply (G_call _ _ _ (Token KName (lit "null") i) _ _ [] _ []); try done; try constructor; simpl;
      unfold call_node; rewrite ?lower_plain by done; done.
  - exists (if b then lit "true()" else lit "false()"). split; [by destruct b|].
    destruct b; [apply (spells_word (lit "true"))|apply (spells_word (lit "false"))]; try done; intros i.
    + pose proof (G_bool self_path row_scope true (Token KName (lit "true") i)
        (Token KOp "(" (i + 4)) (Token KOp ")" (S (i + 4)))) as Hg. simpl in Hg.
      rewrite lower_plain in Hg by done. by apply Hg; auto.
    + pose proof (G_bool self_path row_scope true (Token KName (lit "false") i)
        (Token KOp "(" (i + 5)) (Token KOp ")" (S (i + 5)))) as Hg. simpl in Hg.
      rewrite lower_plain in Hg by done. by apply Hg; auto.
  - apply Z.ltb_ge in Hn. apply negb_true_iff in Hs. rewrite Hs. unfold int_too_long in Hs.
    apply bool_decide_eq_false in Hs. rewrite Z.abs_eq in Hs by done. eexists. split; [done|].
    apply spells_int; [done|lia].
  - rewrite Hn in Hs. exists (float_text f). split; [|by apply spells_float].
    destruct f; try done; by destruct s.
  - case_bool_decide as H1; [eauto using spells_quoted|]. simpl in Hs. apply bool_decide_eq_true in Hs.
    rewrite bool_decide_eq_true_2 by done. eauto using spells_quoted.
Qed.

(** ** References and parentheses *)

Lemma name_char_no_space c : name_char c = true -> is_space c = false.
Proof.
  unfold name_char. rewrite !orb_true_iff, !bool_decide_eq_true.
  intros [[Hc| ->]| ->]; [by apply word_no_space|done|done].
Qed.

Lemma name_edges n : name_ok n = true -> starts_well n /\ ends_well n.
Proof.
  destruct n as [|c n]; [done|]. simpl. rewrite andb_true_iff. intros [Hs%name_start_only Hn].
  unfold only_name in Hs. rewrite !andb_true_iff, negb_true_iff in Hs.
  assert (is_space c = false) as Hc by apply Hs. split; [by apply starts_well_cons|].
  destruct n as [|d n _] using rev_ind; [by exists [], c|].
  rewrite forallb_app, andb_true_iff in Hn. destruct Hn as [_ Hd]. simpl in Hd.
  rewrite andb_true_r in Hd. exists (c :: n), d. split; [done|by apply name_char_no_space].
Qed.

Lemma spells_ref p :
  path_surface p = true ->
  spells (gram g_primary) (ERef p)
    (if startswith p "$row." then drop 5 p else lit "${" ++ p ++ lit "}").
Proof.
  unfold path_surface. destruct (startswith p "$row.") eqn:E.
  - apply prefixb_spec in E as [n ->]. change (drop 5 (lit "$row." ++ n)) with n.
    rewrite andb_true_iff. intros [Hrow Hn]. split; [|by apply name_edges].
    intros index rest Hr. exists [Token KName n index].
    split; [by apply (G_row _ _ _ (Token KName n index))|]. by apply tok_name, boundary_after_name.
  - rewrite andb_true_iff, !bool_decide_eq_true. intros [Hp Hs]. split_and!.
    + intros index rest _. exists [Token KRef p index].
      split; [by apply (G_ref _ _ _ (Token KRef p index))|by apply tok_ref].
    + by exists 36%N, (123%N :: p ++ [125%N]).
    + rewrite app_assoc. by apply ends_well_last.
Qed.

Lemma spells_paren e text : spells (gram g_or) e text -> spells (gram g_primary) e (paren text).
Proof.
  intros (Hl & _ & _). unfold paren. split_and!; [|by exists 40%N, (text ++ [41%N])|rewrite app_assoc; by apply ends_well_last].
  intros index rest Hr. change (lit "(") with [40%N]. change (lit ")") with [41%N].
  rewrite <- !app_assoc. simpl app. rewrite tok_single by done.
  destruct (Hl (S index) (41%N :: rest)) as (used & Hu & E); [simpl; auto|]. rewrite E.
  rewrite tok_single, !prepend_app by done.
  exists (Token KOp [40%N] index :: used ++ [Token KOp [41%N] (S index + length text)]). split.
  - apply G_paren; [done|done|exact Hu|]. unfold is_tok. simpl. by rewrite lower_plain.
  - do 2 f_equal. simpl. rewrite length_app. simpl. lia.
Qed.

(** Parentheses where the level asked for is tighter than the text's. *)
Lemma spells_paren_below precedence parent e text :
  spells (level precedence) e text -> (parent <= 7)%nat ->
  spells (level parent) e (paren_below precedence parent text).
Proof.
  intros Hs Hp. unfold paren_below. destruct (Nat.ltb_spec precedence parent).
  - apply (spells_le parent 7); [done|]. apply spells_paren.
    apply (spells_le 0 precedence); [lia|done].
  - by apply (spells_le parent precedence).
Qed.

Lemma spells_neg e text :
  spells (gram g_unary) e text -> spells (level 6) (EOp OpNeg [e]) (lit "-" ++ text).
Proof.
  intros (Hl & _ & He). split_and!; [|by exists 45%N, text|by apply ends_well_app].
  eapply (lexes_opens (fun t => is_tok KOp "-" t = true)); [by apply (opens_single 45)|exact Hl|].
  intros t ts Ht Hts. by apply G_neg.
Qed.

Definition symbol_of (op : operator) : pystr := default [] (snd <$> dget BINARY (op_name op)).

(** The text of [and] and [or]. *)
Lemma spells_chain op (G G' : expr -> list token -> Prop) (Gs : list expr -> list token -> Prop) args texts :
  symbol_of op ∈ symbols -> (2 <= length args)%nat ->
  Gs [] [] ->
  (forall t a l ts ts', symbol_token (symbol_of op) t -> G a ts -> Gs l ts' -> Gs (a :: l) (t :: ts ++ ts')) ->
  (forall a l ts ts', l <> [] -> G a ts -> Gs l ts' -> G' (EOp op (a :: l)) (ts ++ ts')) ->
  Forall2 (spells G) args texts ->
  spells G' (EOp op args) (join (lit " " ++ symbol_of op ++ lit " ") texts).
Proof.
  intros Hin Hlen Hnil Hcons HG Hf.
  assert (Forall ends_well texts /\ Forall starts_well texts) as [Hends Hstarts].
  { split; clear - Hf; induction Hf as [|a t args texts (_ & ? & ?) _ IH]; by constructor. }
  destruct Hf as [|a t args texts Ha Hf]; [simpl in Hlen; lia|]. split_and!.
  - rewrite join_cons. eapply (lexes_app G Gs); [apply Ha| | |].
    + eapply (lexes_more (symbol_token (symbol_of op)) G Gs);
        [by apply opens_symbol| |done|done|by apply spells_lexes].
      intros s. change (lit " ") with [32%N]. simpl. auto.
    + intros rest Hr. destruct Hf; [by simpl|]. change (lit " ") with [32%N]. simpl. auto.
    + intros ts1 ts2 H1 H2. apply HG; [destruct args; [simpl in Hlen; lia|done]|done|done].
  - rewrite join_cons. by apply starts_well_app, Ha.
  - by apply join_ends.
Qed.

(** ** Rendering a node *)

Lemma render_dict d p :
  render_at (VDict d) p =
  render_node d (match dget d "args" with
                 | Some x => kids_of x (match x with VList l => map render_at l | _ => [] end)
                 | None => Seq []
                 end) p.
Proof.
  cbn [render_at]. f_equal. induction d as [|[k x] d IH]; [done|]. cbn [dget].
  destruct (decide (k = lit "args")), (decide (lit "args" = k)); congruence || done.
Qed.

Definition printers (args : list expr) : list (nat -> res pystr) :=
  map (fun a => render_at (node_of a)) args.

Lemma kids_of_list args :
  kids_of (VList (map node_of args)) (map render_at (map node_of args)) = Seq (printers args).
Proof. unfold kids_of, printers. rewrite map_map. by destruct args. Qed.

Lemma render_op op args p :
  render_at (node_of (EOp op args)) p =
  render_node [(lit "op", VStr (op_name op)); (lit "args", VList (map node_of args))]
    (Seq (printers args)) p.
Proof. cbn [node_of]. rewrite render_dict, <- kids_of_list. done. Qed.

Lemma render_call fn args p :
  render_at (node_of (ECall fn args)) p =
  render_node [(lit "op", VStr "call"); (lit "fn", VStr fn); (lit "args", VList (map node_of args))]
    (Seq (printers args)) p.
Proof. cbn [node_of]. rewrite render_dict, <- kids_of_list. done. Qed.

(** Printing every argument at one level. *)
Lemma mapR_printers args p texts :
  Forall2 (fun a t => render_at (node_of a) p = Ok t) args texts ->
  mapR (fun r => r p) (printers args) = Ok texts.
Proof. induction 1 as [|a t args texts Ha _ IH]; simpl; [done|]. by rewrite Ha, IH. Qed.

(** What is shown of a node: at every level, text that spells it there. *)
Definition shown (e : expr) : Prop :=
  forall parent, (parent <= 6)%nat ->
    exists text, render_at (node_of e) parent = Ok text /\ spells (level parent) (normal e) text.

Lemma shown_all args p :
  (p <= 6)%nat -> Forall shown args ->
  exists texts, mapR (fun r => r p) (printers args) = Ok texts /\
                Forall2 (spells (level p)) (map normal args) texts.
Proof.
  intros Hp Hf. induction Hf as [|a args Ha Hf (texts & Hm & Hs)]; [by exists []|].
  destruct (Ha p Hp) as (t & Ht & Hst). exists (t :: texts).
  simpl. rewrite Ht, Hm. split; [done|by constructor].
Qed.

Lemma shown_lit v : literal_surface v = true -> shown (ELit v).
Proof.
  intros Hs parent Hp. cbn [node_of]. rewrite render_dict. cbn [normal].
  change (render_node _ _ parent) with
    (if is_negative_number v
     then text ← literal (negated v); Ok (paren_below UNARY_PRECEDENCE parent (lit "-" ++ text))
     else literal v).
  destruct (is_negative_number v) eqn:En.
  - destruct (spells_literal (negated v)) as (text & -> & Ht).
    + destruct v as [| |z|f| | |]; try done; simpl in *; [by unfold int_too_long; rewrite Z.abs_opp|].
      rewrite En in Hs. by destruct f as [[]|[]| |[]].
    + destruct v as [| |z|f| | |]; try done; simpl in *; [lia|]. by destruct f as [[]|[]| |[]].
    + eexists. split; [done|]. apply (spells_paren_below 6); [|lia]. apply spells_neg.
      eapply spells_mono; [exact Ht|]. intros ts. apply G_primary.
  - destruct (spells_literal v) as (text & -> & Ht); [done|done|]. exists text. split; [done|].
    apply (spells_le parent 7); [lia|done].
Qed.

Lemma shown_ref p : path_surface p = true -> shown (ERef p).
Proof.
  intros Hs parent Hp. apply spells_ref in Hs. cbn [node_of normal]. rewrite render_dict.
  change (render_node _ _ parent) with
    (if startswith p "$row." then Ok (drop 5 p) else Ok (lit "${" ++ p ++ lit "}")).
  exists (if startswith p "$row." then drop 5 p else lit "${" ++ p ++ lit "}").
  split; [by destruct (startswith p "$row.")|]. by apply (spells_le parent 7); [lia|].
Qed.

(** One row of the table of operators. *)
Ltac row H := try discriminate H; injection H; intros; subst.

(** The operators by the branch of [_render] that prints them. *)
Lemma render_binary_op op args p precedence symbol :
  dget BINARY (op_name op) = Some (precedence, symbol) ->
  render_at (node_of (EOp op args)) p =
  render_binary (op_name op) precedence symbol (Seq (printers args)) p.
Proof. intros Hb. rewrite render_op. destruct op; row Hb; reflexivity. Qed.

(** The chain loops' grammar, built on symbols. *)
Lemma or_token t : symbol_token (lit "or") t -> is_tok KName "or" t = true.
Proof. intros [Ht Hk]. unfold is_tok. rewrite Ht, Hk, lower_plain by done. done. Qed.
Lemma and_token t : symbol_token (lit "and") t -> is_tok KName "and" t = true.
Proof. intros [Ht Hk]. unfold is_tok. rewrite Ht, Hk, lower_plain by done. done. Qed.

Lemma shown_or args :
  (2 <= length args)%nat -> Forall shown args -> shown (EOp OpOr args).
Proof.
  intros Hlen Hf parent Hp. destruct (shown_all args 2 ltac:(lia) Hf) as (texts & Hm & Hs).
  rewrite (render_binary_op OpOr args parent 1 "or") by done. unfold render_binary, joined. simpl items.
  cbn [mbind res_bind]. rewrite bool_decide_eq_true_2 by compute_done.
  assert ((length (printers args) <? 2)%nat = false) as ->.
  { unfold printers. rewrite length_map. by apply Nat.ltb_ge. }
  rewrite Hm. eexists. split; [done|]. apply (spells_paren_below 1); [|lia].
  apply (spells_chain OpOr (gram g_and) (gram g_or) (gram g_or_more)).
  - compute_done.
  - by rewrite length_map.
  - constructor.
  - intros t a l ts ts' Ht%or_token ? ?. by constructor.
  - intros a l ts ts' Hl Ha Hg. pose proof (G_or _ _ _ a l _ _ Ha Hg) as Hr. by destruct l.
  - done.
Qed.

Lemma shown_and args :
  (2 <= length args)%nat -> Forall shown args -> shown (EOp OpAnd args).
Proof.
  intros Hlen Hf parent Hp. destruct (shown_all args 3 ltac:(lia) Hf) as (texts & Hm & Hs).
  rewrite (render_binary_op OpAnd args parent 2 "and") by done. unfold render_binary, joined. simpl items.
  cbn [mbind res_bind]. rewrite bool_decide_eq_true_2 by compute_done.
  assert ((length (printers args) <? 2)%nat = false) as ->.
  { unfold printers. rewrite length_map. by apply Nat.ltb_ge. }
  rewrite Hm. eexists. split; [done|]. apply (spells_paren_below 2); [|lia].
  apply (spells_chain OpAnd (gram g_cmp) (gram g_and) (gram g_and_more)).
  - compute_done.
  - by rewrite length_map.
  - constructor.
  - intros t a l ts ts' Ht%and_token ? ?. by constructor.
  - intros a l ts ts' Hl Ha Hg. pose proof (G_and _ _ _ a l _ _ Ha Hg) as Hr. by destruct l.
  - done.
Qed.

(** A binary operator, its operands printed at the levels the grammar reads
    them at. *)
Lemma shown_binary op a b precedence symbol lhs :
  dget BINARY (op_name op) = Some (precedence, symbol) -> op_name op ∉ NARY ->
  lhs = (if bool_decide (op_name op ∈ LEFT_ASSOCIATIVE) then precedence else S precedence) ->
  (lhs <= 6 /\ precedence <= 5)%nat -> symbol ∈ symbols ->
  (forall x y t ts1 ts2, symbol_token symbol t -> level lhs x ts1 -> level (S precedence) y ts2 ->
     level precedence (EOp op [x; y]) (ts1 ++ t :: ts2)) ->
  shown a -> shown b -> shown (EOp op [a; b]).
Proof.
  intros Hb Hn Hlhs [Hl Hp] Hin Hg Ha Hs parent Hpar.
  destruct (Ha lhs Hl) as (t1 & E1 & S1). destruct (Hs (S precedence) ltac:(lia)) as (t2 & E2 & S2).
  rewrite (render_binary_op op [a; b] parent precedence symbol) by done. unfold render_binary. simpl items.
  cbn [mbind res_bind]. rewrite bool_decide_eq_false_2 by done. simpl length. cbn [Nat.eqb negb printers map].
  rewrite <- Hlhs. simpl item. rewrite E1. cbn [mbind res_bind]. rewrite E2. cbn [mbind res_bind].
  eexists. split; [done|]. apply spells_paren_below; [|lia].
  eapply spells_infix; [done|exact S1|exact S2|]. intros. by apply Hg.
Qed.

Lemma symbol_add op symbol t :
  additive_op true (Token (if ascii_name symbol then KName else KOp) symbol 0) = Some op ->
  plain symbol = true -> symbol_token symbol t -> additive_op true t = Some op.
Proof. unfold symbol_token, additive_op. intros Ha Hp [-> ->]. exact Ha. Qed.

Lemma symbol_cmp op symbol t :
  comparison_op (Token (if ascii_name symbol then KName else KOp) symbol 0) = Some op ->
  symbol_token symbol t -> comparison_op t = Some op.
Proof. unfold symbol_token, comparison_op. intros Ha [-> ->]. exact Ha. Qed.

Lemma additive_symbol op symbol :
  dget BINARY (op_name op) = Some (4%nat, symbol) ->
  additive_op true (Token (if ascii_name symbol then KName else KOp) symbol 0) = Some op.
Proof.
  intros Hb. destruct op; row Hb; unfold additive_op; simpl; rewrite ?lower_plain by done; done.
Qed.

Lemma shown_level4 op a b symbol :
  dget BINARY (op_name op) = Some (4%nat, symbol) -> shown a -> shown b -> shown (EOp op [a; b]).
Proof.
  intros Hb. pose proof (additive_symbol op symbol Hb) as Ha. apply (shown_binary op a b 4 symbol 4); try done.
  - destruct op; row Hb; compute_done.
  - destruct op; row Hb; compute_done.
  - lia.
  - destruct op; row Hb; compute_done.
  - intros x y t ts1 ts2 Ht H1 H2. apply add_left; [done| |done]. eapply symbol_add; [exact Ha| |done].
    by destruct op; row Hb.
Qed.

Lemma shown_level3 op a b symbol :
  dget BINARY (op_name op) = Some (3%nat, symbol) -> shown a -> shown b -> shown (EOp op [a; b]).
Proof.
  intros Hb. apply (shown_binary op a b 3 symbol 4); try done.
  - destruct op; row Hb; compute_done.
  - destruct op; row Hb; compute_done.
  - lia.
  - destruct op; row Hb; compute_done.
  - intros x y t ts1 ts2 Ht H1 H2. eapply G_cmp_two; [done| |done]. eapply symbol_cmp; [|done].
    by destruct op; row Hb.
Qed.

Lemma shown_mul a b : shown a -> shown b -> shown (EOp OpMul [a; b]).
Proof.
  apply (shown_binary OpMul a b 5 "*" 5); try done; [compute_done|lia|compute_done|].
  intros x y t ts1 ts2 [Ht Hk] H1 H2. apply mul_left; [done| |done]. unfold is_times.
  by rewrite Ht, Hk.
Qed.

(** ** Calls *)

(** A printed call, at any level. *)
Lemma shown_call fn args e parent :
  ascii_name fn = true -> plain fn = true -> fn <> lit "true" -> fn <> lit "false" -> (parent <= 6)%nat ->
  (forall offset, call_node true fn offset (map normal args) = Done e) -> Forall shown args ->
  exists texts, mapR (fun r => r 0%nat) (printers args) = Ok texts /\ length texts = length args /\
    spells (level parent) e (fn ++ lit "(" ++ join ", " texts ++ lit ")").
Proof.
  intros Hn Hp H1 H2 Hpar Hc Hf. destruct (shown_all args 0 ltac:(lia) Hf) as (texts & Hm & Hs).
  exists texts. split_and!; [done| |].
  - apply Forall2_length in Hs. by rewrite length_map in Hs.
  - apply (spells_le parent 7); [lia|]. by eapply spells_call.
Qed.

Lemma shown_not a : shown a -> shown (EOp OpNot [a]).
Proof.
  intros Ha parent Hp.
  destruct (shown_call "not" [a] (EOp OpNot [normal a]) parent) as ([|t [|]] & Hm & Hl & Hs); try done.
  - intros offset. unfold call_node. by rewrite lower_plain.
  - by constructor.
  - simpl in Hm. rewrite render_op. cbn [printers map op_name].
    change (render_node _ (Seq [?r]) parent) with (text ← r 0%nat; Ok (lit "not(" ++ text ++ lit ")")).
    destruct (render_at (node_of a) 0) as [t'|]; [|done]. injection Hm as ->. by eexists.
Qed.

Lemma shown_neg a : shown a -> shown (EOp OpNeg [a]).
Proof.
  intros Ha parent Hp. destruct (Ha 6%nat ltac:(lia)) as (t & E & Hs). rewrite render_op.
  cbn [printers map op_name].
  change (render_node _ (Seq [?r]) parent) with
    (text ← r 6%nat; Ok (paren_below UNARY_PRECEDENCE parent (lit "-" ++ text))).
  rewrite E. eexists. split; [done|]. apply (spells_paren_below 6); [|lia]. by apply spells_neg.
Qed.

Lemma shown_selected a b : shown a -> shown b -> shown (EOp OpSelected [a; b]).
Proof.
  intros Ha Hb parent Hp.
  destruct (shown_call "selected" [a; b] (EOp OpSelected [normal a; normal b]) parent)
    as ([|t [|u [|]]] & Hm & Hl & Hs); try done.
  - intros offset. unfold call_node. by rewrite lower_plain.
  - by repeat constructor.
  - simpl in Hm. rewrite render_op. cbn [printers map op_name].
    change (render_node _ (Seq [?r; ?s]) parent) with
      (a ← r 0%nat; b ← s 0%nat; Ok (lit "selected(" ++ a ++ lit ", " ++ b ++ lit ")")).
    destruct (render_at (node_of a) 0) as [t'|]; [|done]. destruct (render_at (node_of b) 0) as [u'|]; [|done].
    injection Hm as -> ->. eexists. split; [done|]. cbn [join] in Hs. by rewrite <- !app_assoc in Hs.
Qed.

Lemma shown_if args : length args = 3%nat -> Forall shown args -> shown (EOp OpIf args).
Proof.
  intros Hlen Hf parent Hp.
  destruct (shown_call "if" args (EOp OpIf (map normal args)) parent) as (texts & Hm & Hl & Hs); try done.
  - intros offset. unfold call_node. rewrite lower_plain, length_map, Hlen by done. done.
  - rewrite render_op. cbn [op_name].
    change (render_node _ (Seq ?l) parent) with
      (rendered ← joined (lit ", ") 0 l; Ok (lit "if(" ++ rendered ++ lit ")")).
    unfold joined. rewrite Hm. eexists. split; [done|]. exact Hs.
Qed.

(** Every function of section 4.3 has a name the parser takes for itself. *)
Definition function_name_ok (fn : pystr) : bool :=
  ascii_name fn && plain fn
  && negb (bool_decide (fn ∈ [lit "true"; lit "false"; lit "not"; lit "selected"; lit "if"; lit "null"])).

Lemma functions_ok fn : dhas FUNCTIONS fn = true -> function_name_ok fn = true.
Proof.
  assert (forallb function_name_ok (dkeys FUNCTIONS) = true) as Hall by (vm_compute; reflexivity).
  rewrite forallb_forall in Hall. intros Hin%dhas_spec%list_elem_of_In. auto.
Qed.

Lemma shown_function fn args :
  dhas FUNCTIONS fn = true -> Forall shown args -> shown (ECall fn args).
Proof.
  intros Hfn Hf parent Hp. pose proof (functions_ok fn Hfn) as Hok. unfold function_name_ok in Hok.
  rewrite !andb_true_iff, negb_true_iff, bool_decide_eq_false in Hok. destruct Hok as [[Hn Hpl] Hne].
  rewrite !not_elem_of_cons in Hne. destruct Hne as (H1 & H2 & H3 & H4 & H5 & H6 & _).
  destruct (shown_call fn args (ECall fn (map normal args)) parent) as (texts & Hm & _ & Hs); try done.
  - intros offset. unfold call_node, function_target. rewrite lower_plain, !str_eqb_ne, Hfn by done. done.
  - rewrite render_call.
    change (render_node _ (Seq ?l) parent) with
      (if str_eqb fn "null" then Raise (RenderError "the null function")
       else rendered ← joined (lit ", ") 0 l; Ok (fn ++ lit "(" ++ rendered ++ lit ")")).
    rewrite str_eqb_ne by done. unfold joined. rewrite Hm. eexists. split; [done|]. exact Hs.
Qed.

(** Every operator of two operands. *)
Lemma shown_pair op a b :
  op <> OpOr -> op <> OpAnd -> arity_ok op 2 = true -> shown a -> shown b -> shown (EOp op [a; b]).
Proof.
  intros H1 H2 Har Ha Hb. destruct op; try done;
    lazymatch goal with
    | |- shown (EOp OpSelected _) => by apply shown_selected
    | |- shown (EOp OpMul _) => by apply shown_mul
    | |- shown (EOp ?op _) =>
        lazymatch eval vm_compute in (fst <$> dget BINARY (op_name op)) with
        | Some 4%nat => by eapply (shown_level4 op)
        | Some 3%nat => by eapply (shown_level3 op)
        end
    end.
Qed.

(** ** Every node the surface can express is shown *)

Lemma surface_shown e : surface e = true -> shown e.
Proof.
  induction e as [v|p|op args IH|fn args IH|op args IH|args IH|args IH|] using expr_ind'; cbn [surface]; try done.
  - apply shown_lit.
  - apply shown_ref.
  - rewrite andb_true_iff, forallb_forall. intros [Ha Hs].
    assert (Forall shown args) as Hf.
    { rewrite Forall_forall in IH |- *. intros a Hin. apply IH; [done|]. by apply Hs, list_elem_of_In. }
    clear IH Hs. destruct (decide (op = OpOr)) as [->|Hor].
    { apply shown_or; [|done]. by apply Nat.leb_le. }
    destruct (decide (op = OpAnd)) as [->|Hand].
    { apply shown_and; [|done]. by apply Nat.leb_le. }
    destruct (decide (op = OpIf)) as [->|Hif].
    { apply shown_if; [|done]. by apply Nat.eqb_eq. }
    destruct args as [|a [|b [|]]]; try by destruct op.
    + apply Forall_cons in Hf as [H1 _]. destruct op; try done; [by apply shown_not|by apply shown_neg].
    + apply Forall_cons in Hf as [H1 [H2 _]%Forall_cons]. by apply shown_pair.
  - rewrite andb_true_iff, forallb_forall. intros [Ha Hs]. apply shown_function; [done|].
    rewrite Forall_forall in IH |- *. intros a Hin. apply IH; [done|]. by apply Hs, list_elem_of_In.
Qed.

End Printed.
