(* ===== verification/SurfaceShape.v ===== *)
(** * The nodes the parser builds

    Whatever the grammar spells is a node the engine has ([engine_node]):
    known operators at their arity, functions of section 4.3, scalar literals
    and no negative one; printing such a node either answers or reports, and
    the endpoint's own crashes are those of the tokenizer. *)

From S2P Require Import Prelude PyStr PyNum Value Expr Expression Surface Grammar SurfaceFacts.
From S2P Require Import Printer PrinterFacts.

(** A scalar literal, an integer being one Python can write. *)
Definition scalar (v : value) : bool :=
  match v with
  | VList _ | VDict _ => false
  | VInt z => negb (int_too_long z)
  | _ => true
  end.

(** Operators at their arity, functions the engine has, scalar literals. *)
Fixpoint engine_node `{!PyEnv} (e : expr) : bool :=
  match e with
  | ELit v => scalar v
  | ERef _ => true
  | EOp op args => arity_ok op (length args) && forallb engine_node args
  | ECall fn args => dhas FUNCTIONS fn && forallb engine_node args
  | EUnknown _ _ | EMissing _ | ENoOp _ | ENotDict => false
  end.

Lemma float_of_decimal_sign d e : 0 <= d -> float_sign (float_of_decimal false d e) = false.
Proof.
  assert (forall sx mx ex lx, float_sign (binary_round_aux 53 1024 sx mx ex lx) = true -> sx = true) as Hr.
  { intros sx mx ex lx. unfold binary_round_aux.
    destruct (shr_fexp 53 1024 mx ex lx) as [m1 e1].
    destruct (shr_fexp 53 1024 _ e1 loc_Exact) as [m2 e2]. repeat case_match; simpl; done. }
  assert (forall n d, 0 <= n -> float_sign (float_ratio false n d) = false) as Hf.
  { intros n dd Hn. unfold float_ratio. destruct n as [|p|p]; [done| |lia].
    destruct (SFdiv_core_binary _ _ _ _ _ _) as [[m x] l].
    destruct (float_sign _) eqn:E; [|done]. by apply Hr in E. }
  intros Hd. unfold float_of_decimal. destruct (0 <=? e) eqn:E; apply Hf; [|done].
  apply Z.leb_le in E. apply Z.mul_nonneg_nonneg; [done|]. by apply Z.pow_nonneg.
Qed.

Lemma digits_val_bound s : (digits_val s < 10 ^ N.of_nat (length s))%N.
Proof.
  induction s as [|c s IH] using rev_ind; [done|]. rewrite digits_val_app, length_app. simpl.
  assert (default 0%N (digit_val c) < 10)%N as Hc.
  { unfold digit_val. destruct (list_find _ nd_zeros) as [[k z]|] eqn:E; simpl; [|lia].
    apply list_find_Some in E as (_ & ? & _). lia. }
  rewrite Nat.add_1_r, Nat2N.inj_succ, N.pow_succ_r'. lia.
Qed.

(** As many digits as the number needs. *)
Lemma str_N_length n k : (n < 10 ^ N.of_nat k)%N -> (0 < k)%nat -> (length (str_N n) <= k)%nat.
Proof.
  intros Hn Hk. unfold str_N. rewrite length_reverse. generalize (S (N.size_nat n)). intros fuel.
  revert n k Hn Hk. induction fuel as [|f IH]; intros n k Hn Hk; simpl; [lia|].
  destruct (N.ltb_spec n 10); simpl; [lia|]. destruct k as [|[|k]]; [lia|simpl in Hn; lia|].
  apply le_n_S, IH; [|lia]. rewrite (Nat2N.inj_succ (S k)), N.pow_succ_r' in Hn.
  by apply N.Div0.div_lt_upper_bound.
Qed.

(** A number token gives a number, and no negative one. *)
Lemma number_value_shape text v :
  number_text text -> number_value text = Done v ->
  scalar v = true /\ is_negative_number v = false.
Proof.
  intros (w & f & Hw & Hf & [[-> Hne]|[-> Hne]]); unfold number_value.
  - rewrite bool_decide_eq_false_2 by (by apply digits_no_char). case_bool_decide; [done|].
    rewrite parse_int_digits by done. intros [= <-]. split; [|by apply Z.ltb_ge; lia].
    simpl. unfold int_too_long. rewrite Z.abs_eq, negb_true_iff, bool_decide_eq_false by lia.
    pose proof (digits_val_bound w). unfold str_Z.
    destruct (Z.ltb_spec (Z.of_N (digits_val w)) 0); [lia|]. rewrite N2Z.id.
    pose proof (str_N_length (digits_val w) (length w) ltac:(done) ltac:(by destruct w; simpl; [|lia])).
    lia.
  - rewrite bool_decide_eq_true_2 by set_solver. rewrite parse_float_point by done.
    intros [= <-]. split; [done|]. apply float_of_decimal_sign. lia.
Qed.

Section Shape.
Context {env : PyEnv} {uni : UnicodeDB}.
Variable self_path : option pystr.
Variable row_scope ir_functions : bool.

(** The tokens of a text: number tokens hold numbers. *)
Definition numbered (ts : list token) : Prop :=
  Forall (fun t => t_kind t = KNumber -> number_text (t_text t)) ts.

Definition shaped (e : expr) : Prop := engine_node e = true /\ normal e = e.

Lemma shaped_op op args : arity_ok op (length args) = true -> Forall shaped args -> shaped (EOp op args).
Proof.
  intros Ha Hs. unfold shaped. simpl. rewrite Ha. split.
  - apply forallb_forall. intros a Hin%list_elem_of_In. rewrite Forall_forall in Hs. by apply Hs.
  - f_equal. rewrite <- (map_id args) at 2. apply map_ext_in. intros a Hin%list_elem_of_In.
    rewrite Forall_forall in Hs. by apply Hs.
Qed.

Lemma shaped_call fn args : dhas FUNCTIONS fn = true -> Forall shaped args -> shaped (ECall fn args).
Proof.
  intros Ha Hs. unfold shaped. simpl. rewrite Ha. split.
  - apply forallb_forall. intros a Hin%list_elem_of_In. rewrite Forall_forall in Hs. by apply Hs.
  - f_equal. rewrite <- (map_id args) at 2. apply map_ext_in. intros a Hin%list_elem_of_In.
    rewrite Forall_forall in Hs. by apply Hs.
Qed.

Lemma shaped_two op a b : arity_ok op 2 = true -> shaped a -> shaped b -> shaped (EOp op [a; b]).
Proof. intros. apply shaped_op; [done|]. apply Forall_cons_2; [done|]. by apply Forall_singleton. Qed.

Lemma shaped_chain op a l :
  op = OpOr \/ op = OpAnd -> shaped a -> Forall shaped l -> shaped (chain op (a :: l)).
Proof.
  intros Hop Ha Hl. destruct l as [|b l]; [done|]. apply shaped_op; [by destruct Hop as [-> | ->]|].
  by constructor.
Qed.

Lemma comparison_arity t op : comparison_op t = Some op -> arity_ok op 2 = true.
Proof.
  unfold comparison_op. case_bool_decide; [|done]. intros Hin%dget_Some_elem.
  repeat (apply elem_of_cons in Hin as [[= _ ->]|Hin]; [done|]). by apply not_elem_of_nil in Hin.
Qed.

Lemma additive_arity t op : additive_op ir_functions t = Some op -> arity_ok op 2 = true.
Proof. unfold additive_op. repeat case_match; by intros [= <-]. Qed.

Lemma function_target_known fn target :
  function_target ir_functions fn = Some target -> dhas FUNCTIONS target = true.
Proof.
  unfold function_target. destruct (ir_functions && dhas FUNCTIONS fn) eqn:E.
  { intros [= <-]. by apply andb_true_iff in E as [_ ?]. }
  assert (forallb (fun kv => dhas FUNCTIONS kv.2) XPATH_FUNCTIONS = true) as Hall by (vm_compute; reflexivity).
  rewrite forallb_forall in Hall. intros Hin%dget_Some_elem%list_elem_of_In. by apply (Hall _ Hin).
Qed.

Lemma call_node_shaped name offset args e :
  call_node ir_functions name offset args = Done e -> Forall shaped args -> shaped e.
Proof.
  unfold call_node. intros Hc Hs.
  repeat (case_match; try case_bool_decide); simplify_eq/=; try done;
    first [apply shaped_op; [by apply Nat.eqb_eq|done]
          | apply shaped_call; [by eapply function_target_known|done]].
Qed.

Lemma grammar_shaped e ts :
  g_or self_path row_scope ir_functions e ts -> numbered ts -> shaped e.
Proof.
  set (one (e : expr) (ts : list token) := numbered ts -> shaped e).
  set (many (l : list expr) (ts : list token) := numbered ts -> Forall shaped l).
  set (more (a e : expr) (ts : list token) := numbered ts -> shaped a -> shaped e).
  intros Hg. cut (one e ts); [done|]. revert e ts Hg.
  apply (g_or_mut env self_path row_scope ir_functions one many one many one one more one more one one
           many many); unfold one, many, more, numbered; clear one many more; intros;
    repeat match goal with
           | H : Forall _ (_ ++ _) |- _ => apply Forall_app in H as [? ?]
           | H : Forall _ (_ :: _) |- _ => apply Forall_cons in H as [? ?]
           end; eauto using shaped_chain, Forall_cons_2; try done.
  - apply shaped_two; eauto using comparison_arity.
  - eauto using shaped_two, additive_arity.
  - eauto using shaped_two.
  - apply shaped_op; [done|]. eauto.
  - destruct (number_value_shape (t_text t) v) as [Hl Hn]; [eauto|done|]. unfold shaped. simpl.
    by rewrite Hl, Hn.
  - eauto using call_node_shaped.
Qed.

(** ** Printing a node of the engine *)

Definition reports {A} (r : res A) : Prop :=
  match r with Ok _ => True | Raise e => is_render_error e = true end.

Lemma reports_bind {A B} (m : res A) (f : A -> res B) :
  reports m -> (forall a, reports (f a)) -> reports (m ≫= f).
Proof. destruct m; simpl; auto. Qed.

Lemma reports_joined sep p l : Forall (fun r => reports (r p)) l -> reports (joined sep p l).
Proof.
  intros Hf. unfold joined. apply reports_bind; [|done].
  induction Hf as [|r l Hr Hf IH]; [done|]. simpl. destruct (r p); [|done]. by destruct (mapR _ l).
Qed.

Lemma literal_reports v : scalar v = true -> reports (literal v).
Proof.
  destruct v as [|[]|z|f|s| |]; simpl; try done.
  - intros Hz%negb_true_iff. by rewrite Hz.
  - by destruct (is_finite f).
  - intros _. unfold literal. simpl. by repeat case_bool_decide.
Qed.

Lemma scalar_negated v : scalar v = true -> scalar (negated v) = true.
Proof. destruct v; try done. simpl. unfold int_too_long. by rewrite Z.abs_opp. Qed.

Definition safe (e : expr) : Prop := forall p, reports (render_at (node_of e) p).

Lemma safe_printers args p :
  Forall safe args -> Forall (fun r => reports (r p)) (printers args).
Proof. intros Hf. unfold printers. apply Forall_fmap. eapply Forall_impl; [exact Hf|]. intros a Ha. apply Ha. Qed.

Lemma item_reports args i p :
  Forall safe args -> (i < length args)%nat -> reports (item (Seq (printers args)) i p).
Proof.
  intros Hf Hi. simpl. unfold printers. rewrite list_lookup_fmap.
  destruct (args !! i) as [a|] eqn:E; [|apply lookup_ge_None in E; lia]. simpl.
  rewrite Forall_forall in Hf. by apply Hf, list_elem_of_lookup_2 with i.
Qed.

Lemma binary_reports op precedence symbol args p :
  Forall safe args -> (length args = 2)%nat \/ op ∈ NARY -> reports (render_binary op precedence symbol (Seq (printers args)) p).
Proof.
  intros Hf Hlen. unfold render_binary. cbn [items mbind res_bind].
  destruct (bool_decide (op ∈ NARY)) eqn:En.
  - destruct (_ <? 2)%nat; [done|]. apply reports_bind; [|done]. by apply reports_joined, safe_printers.
  - apply bool_decide_eq_false in En. destruct Hlen as [Hlen|]; [|done].
    destruct (negb _); [done|]. apply reports_bind; [apply item_reports; [done|lia]|]. intros t.
    apply reports_bind; [apply item_reports; [done|lia]|]. done.
Qed.

Lemma safe_op op args :
  arity_ok op (length args) = true -> Forall safe args -> safe (EOp op args).
Proof.
  intros Ha Hf p. destruct (dget BINARY (op_name op)) as [[precedence symbol]|] eqn:E.
  - rewrite (render_binary_op op args p precedence symbol) by done. apply binary_reports; [done|].
    destruct op; try done; [right; compute_done|right; compute_done|..]; left; by apply Nat.eqb_eq.
  - rewrite render_op. pose proof (item_reports args) as Hi.
    set (k := Seq (printers args)) in *.
    destruct op; try done; apply Nat.eqb_eq in Ha.
    + change (reports (rendered ← joined (lit ", ") 0 (printers args); Ok (lit "if(" ++ rendered ++ lit ")"))).
      apply reports_bind; [by apply reports_joined, safe_printers|done].
    + change (reports (text ← item k 0 0; Ok (lit "not(" ++ text ++ lit ")"))).
      apply reports_bind; [apply Hi; [done|lia]|done].
    + change (reports (text ← item k 0 6; Ok (paren_below UNARY_PRECEDENCE p (lit "-" ++ text)))).
      apply reports_bind; [apply Hi; [done|lia]|done].
    + change (reports (a ← item k 0 0; b ← item k 1 0;
        Ok (lit "selected(" ++ a ++ lit ", " ++ b ++ lit ")"))).
      apply reports_bind; [apply Hi; [done|lia]|]. intros a.
      apply reports_bind; [apply Hi; [done|lia]|done].
Qed.

Lemma engine_node_safe e : engine_node e = true -> safe e.
Proof.
  induction e as [v|q|op args IH|fn args IH|op args IH|args IH|args IH|] using expr_ind';
    cbn [engine_node]; try done.
  - intros Hv p. cbn [node_of]. rewrite render_dict.
    change (render_node _ _ p) with
      (if is_negative_number v
       then text ← literal (negated v); Ok (paren_below UNARY_PRECEDENCE p (lit "-" ++ text))
       else literal v).
    destruct (is_negative_number v); [|by apply literal_reports].
    apply reports_bind; [by apply literal_reports, scalar_negated|done].
  - intros _ p. cbn [node_of]. rewrite render_dict.
    change (render_node _ _ p) with
      (if startswith q "$row." then Ok (drop 5 q) else Ok (lit "${" ++ q ++ lit "}")).
    by destruct (startswith q "$row.").
  - rewrite andb_true_iff, forallb_forall. intros [Ha Hs]. apply safe_op; [done|].
    rewrite Forall_forall in IH |- *. intros a Hin. apply IH; [done|]. by apply Hs, list_elem_of_In.
  - rewrite andb_true_iff, forallb_forall. intros [Ha Hs].
    assert (Forall safe args) as Hf.
    { rewrite Forall_forall in IH |- *. intros a Hin. apply IH; [done|]. by apply Hs, list_elem_of_In. }
    intros p. rewrite render_call.
    change (render_node _ (Seq ?l) p) with
      (if str_eqb fn "null" then Raise (RenderError "the null function")
       else rendered ← joined (lit ", ") 0 l; Ok (fn ++ lit "(" ++ rendered ++ lit ")")).
    destruct (str_eqb fn "null"); [done|].
    apply reports_bind; [by apply reports_joined, safe_printers|done].
Qed.

(** Decoding the JSON of such a node gives the node back. *)
Lemma expr_of_node_of e : engine_node e = true -> expr_of (node_of e) = e.
Proof.
  induction e as [v|q|op args IH|fn args IH|op args IH|args IH|args IH|] using expr_ind';
    cbn [engine_node]; try done; rewrite andb_true_iff, forallb_forall; intros [Ha Hs];
    assert (map expr_of (map node_of args) = args) as E;
    try (rewrite map_map; rewrite <- (map_id args) at 2; apply map_ext_in; intros a Hin;
         rewrite Forall_forall in IH; apply IH; [by apply list_elem_of_In|by apply Hs]).
  - cbn [node_of]. rewrite expr_of_dict.
    change (dget _ "args") with (Some (VList (map node_of args))). cbv iota. rewrite E.
    by destruct op.
  - cbn [node_of]. rewrite expr_of_dict.
    change (dget _ "args") with (Some (VList (map node_of args))). cbv iota. by rewrite E.
Qed.

End Shape.
