(* ===== verification/Datasets.v ===== *)
(** * Choice lists: form_engine/datasets.py and form_engine/rows.py

    A dataset-backed filter is decomposed once into a selector a store can
    answer from an index and a residual evaluated per row (Form IR 3.2); a
    rows list keeps its filter whole (3.3).  Filters are the document's JSON,
    as the source reads them; [expr_of] decodes what is evaluated. *)

From S2P Require Import Prelude PyStr PyNum PyDate Value Expr Expression ExpressionFacts.

Definition ROW_PREFIX : pystr := "$row.".

Definition vtext (v : value) : pystr := match v with VStr s => s | _ => [] end.

(** The column name when the expression is exactly [$row.something]. *)
Definition row_column (e : value) : option pystr :=
  if has_op e "ref" then
    let path := vtext (vfield e "path") in
    if startswith path ROW_PREFIX then Some (drop (length ROW_PREFIX) path) else None
  else None.

(** Whether [$row] appears anywhere in the subtree. *)
Fixpoint mentions_row (e : value) : bool :=
  match e with
  | VDict d =>
      (has_op e "ref" && startswith (vtext (vfield e "path")) ROW_PREFIX) ||
      (fix look (d : list (pystr * value)) : bool :=
         match d with
         | [] => false
         | (k, x) :: r =>
             if decide (k = lit "args")
             then match x with VList l => existsb mentions_row l | _ => false end
             else look r
         end) d
  | VList l => existsb mentions_row l
  | _ => false
  end.

(** Top-level [and] flattened, fully. *)
Fixpoint conjuncts (e : value) : list value :=
  match e with
  | VDict d =>
      if has_op e "and" then
        (fix look (d : list (pystr * value)) : list value :=
           match d with
           | [] => []
           | (k, x) :: r =>
               if decide (k = lit "args")
               then match x with VList l => concat (map conjuncts l) | _ => [] end
               else look r
           end) d
      else [e]
  | _ => [e]
  end.

Record choice_query := ChoiceQuery {
  cq_dataset : pystr;
  cq_value_column : pystr;
  cq_label_columns : odict value;
  cq_selector : odict value;      (* column -> expression, ordered by column *)
  cq_residual : option value
}.

(** [ChoiceQuery.scans]: nothing narrows. *)
Definition scans (q : choice_query) : bool := bool_decide (length (cq_selector q) = 0%nat).

(** [(column, expression)] when the conjunct is [$row.col = <no $row>]. *)
Definition selector_term (conjunct : value) : option (pystr * value) :=
  if has_op conjunct "eq" then
    match vlist (vfield conjunct "args") with
    | [a; b] =>
        let second := match row_column b with
                      | Some c => if mentions_row a then None else Some (c, a)
                      | None => None
                      end in
        match row_column a with
        | Some c => if mentions_row b then second else Some (c, b)
        | None => second
        end
    | _ => None
    end
  else None.

(** The loop of [compile_choices]: the first binding of a column wins. *)
Definition split_step (acc : odict value * list value) (conjunct : value) : odict value * list value :=
  let '(selector, residuals) := acc in
  match selector_term conjunct with
  | Some (c, e) => if dhas selector c then (selector, residuals ++ [conjunct])
                   else (dset selector c e, residuals)
  | None => (selector, residuals ++ [conjunct])
  end.

Definition split_conjuncts (cs : list value) : odict value * list value :=
  fold_left split_step cs ([], []).

(** [sorted(selector)] on the keys, with their values. *)
Fixpoint insert_key {A} (kv : pystr * A) (d : odict A) : odict A :=
  match d with
  | [] => [kv]
  | kv' :: r => match str_cmp kv.1 kv'.1 with
                | Gt => kv' :: insert_key kv r
                | _ => kv :: d
                end
  end.

Definition sort_keys {A} (d : odict A) : odict A := foldr insert_key [] d.

Definition and_node (args : list value) : value :=
  VDict [(lit "op", VStr "and"); (lit "args", VList args)].

Definition residual_of (residuals : list value) : option value :=
  match residuals with
  | [] => None
  | [r] => Some r
  | _ => Some (and_node residuals)
  end.

Definition compile_choices (choices : odict value) : option choice_query :=
  if py_eq (vget choices "kind") (VStr "dataset") then
    let filter := vget choices "filter" in
    let '(selector, residuals) :=
      split_conjuncts (if truthy filter then conjuncts filter else []) in
    Some (ChoiceQuery (vtext (vget choices "dataset")) (vtext (vget choices "valueColumn"))
            (vdict (vget choices "labelColumn")) (sort_keys selector) (residual_of residuals))
  else None.

(** ** The in-memory source *)

(** [_plain]: [1], not [1.0]. *)
Definition plain (n : num) : pystr :=
  match n with
  | NInt z => str_Z z
  | NFloat f =>
      if float_is_integer f
      then match float_trunc f with Ok z => str_Z z | Raise _ => float_repr f end
      else float_repr f
  end.

(** [_same]: exact, with a number compared to a text cell by its digits. *)
Definition same (cell v : value) : bool :=
  if py_eq cell v then true
  else if is_null cell || is_null v then false
  else if is_bool v || is_bool cell then false
  else match number_ v, cell with
       | Some n, VStr s => str_eqb s (plain n)
       | _, _ => match number_ cell, v with
                 | Some n, VStr s => str_eqb s (plain n)
                 | _, _ => false
                 end
       end.

Definition matches (r : odict value) (selector : odict value) : bool :=
  forallb (fun cv => same (vget r cv.1) cv.2) selector.

Definition in_memory (datasets : odict (list (odict value))) : dataset_source :=
  fun dataset selector equals =>
    match dget datasets dataset with
    | None => []
    | Some found =>
        let matched := List.filter (fun r => matches r selector) found in
        match equals with
        | None => matched
        | Some (column, v) => List.filter (fun r => same (vget r column) v) matched
        end
    end.

(** ** Rows of a repeat (3.3) *)

Record rows_query := RowsQuery {
  rq_repeat : pystr;
  rq_exclude_self : bool;
  rq_filter : option value        (* [None] is an absent or null filter *)
}.

Definition opt_node (v : value) : option value := if is_null v then None else Some v.

Definition compile_rows_choices (choices : odict value) : option rows_query :=
  if py_eq (vget choices "kind") (VStr "rows") then
    Some (RowsQuery (vtext (vget choices "repeat"))
            (match vget choices "excludeSelf" with VBool b => b | _ => false end)
            (opt_node (vget choices "filter")))
  else None.

(** ** Resolving a list

    [_selector_values], the source's answer and [_rows_after_residual] of
    runtime.py, over an arbitrary context. *)

(** [dataclasses.replace(ctx, row=row)] *)
Definition with_row (ctx : eval_ctx) (r : odict value) : eval_ctx :=
  EvalCtx (ctx_values ctx) (ctx_today ctx) (ctx_now ctx) (Some r) (ctx_metadata ctx)
    (ctx_scope ctx) (ctx_instances ctx) (ctx_datasets ctx).

Section Resolve.
Context `{PyEnv}.

Definition selector_values (q : choice_query) (ctx : eval_ctx) : res (odict value) :=
  mapR (fun ce => v ← evaluate ctx (expr_of ce.2); Ok (ce.1, v)) (cq_selector q).

(** One candidate row against a filter: undecidable is not permitted. *)
Definition row_permitted (ctx : eval_ctx) (filter : value) (r : odict value) : res bool :=
  v ← evaluate (with_row ctx r) (expr_of filter);
  coerce_boolean v false.

Definition after_residual (q : choice_query) (ctx : eval_ctx) (rows : list (odict value))
    : res (list (odict value)) :=
  match cq_residual q with
  | None => Ok rows
  | Some r => filterR (row_permitted ctx r) rows
  end.

(** ** The decomposition is faithful to the filter *)

Lemma mentions_row_dict d :
  mentions_row (VDict d) =
  (has_op (VDict d) "ref" && startswith (vtext (vfield (VDict d) "path")) ROW_PREFIX)
  || existsb mentions_row (raw_args (VDict d)).
Proof.
  cbn [mentions_row]. f_equal. rewrite raw_args_dget.
  set (look := fix look (d : list (pystr * value)) : bool := _).
  assert (forall d, look d = existsb mentions_row (match dget d "args" with Some (VList l) => l | _ => [] end)) as ->;
    [|done].
  clear d. induction d as [|[k x] d IH]; [done|]. cbn [dget]. subst look. cbn -[lit decide].
  destruct (decide (k = lit "args")), (decide (lit "args" = k)); congruence || by destruct x.
Qed.

Lemma conjuncts_dict d :
  conjuncts (VDict d) =
  if has_op (VDict d) "and" then concat (map conjuncts (raw_args (VDict d))) else [VDict d].
Proof.
  cbn [conjuncts]. destruct (has_op _ _); [|done]. rewrite raw_args_dget.
  set (look := fix look (d : list (pystr * value)) : list value := _).
  assert (forall d, look d = concat (map conjuncts (match dget d "args" with Some (VList l) => l | _ => [] end))) as ->;
    [|done].
  clear d. induction d as [|[k x] d IH]; [done|]. cbn [dget]. subst look. cbn -[lit decide].
  destruct (decide (k = lit "args")), (decide (lit "args" = k)); congruence || by destruct x.
Qed.

(** The paths of a decoded node: its own, or its arguments'. *)
Lemma paths_of_node e p :
  p ∈ paths_of (expr_of e) ->
  (has_op e "ref" = true /\ vtext (vfield e "path") = p) \/
  exists a, a ∈ raw_args e /\ p ∈ paths_of (expr_of a).
Proof.
  destruct e as [| | | | |l|d]; try (by intros ?%not_elem_of_empty).
  rewrite expr_of_dict, raw_args_dget. set (args := dget d "args"). clearbody args.
  assert (forall given, p ∈ ⋃ (map paths_of given) ->
          given = default [] (match args with Some (VList l) => Some (map expr_of l) | _ => None end) ->
          exists a, a ∈ (match args with Some (VList l) => l | _ => [] end) /\ p ∈ paths_of (expr_of a)) as Hgiven.
  { intros given Hp ->. apply elem_of_union_map in Hp as (x & Hx & Hp).
    destruct args as [[| | | | |l|]|]; simpl in Hx; try by apply not_elem_of_nil in Hx.
    apply list_elem_of_fmap in Hx as (a & -> & Ha). eauto. }
  unfold decode_node, has_op, vfield, vget.
  destruct (dget d "op") as [[| | | |op| |]|]; cbn [default paths_of option_map from_option id]; try (intros Hp; right; by eapply Hgiven).
  destruct (str_eqb op "lit") eqn:El.
  { destruct (dget d "value"); simpl; intros Hp; [set_solver|right; by eapply Hgiven]. }
  destruct (str_eqb op "ref") eqn:Er.
  { destruct (dget d "path") as [[| | | |q| |]|]; simpl; intros Hp;
      try (right; by eapply Hgiven). left. split; [done|set_solver]. }
  destruct (str_eqb op "call").
  { destruct (dget d "fn") as [[]|]; simpl; intros Hp; right; by eapply Hgiven. }
  destruct (dget operators op); [|intros Hp; right; by eapply Hgiven].
  destruct args as [[| | | | |l|]|]; intros Hp; cbn [paths_of map] in Hp;
    try (exfalso; revert Hp; apply not_elem_of_empty).
  right. by eapply Hgiven.
Qed.

Lemma mentions_row_paths e :
  mentions_row e = false -> forall p, p ∈ paths_of (expr_of e) -> startswith p ROW_PREFIX = false.
Proof.
  induction e as [e IH] using node_ind. intros Hm p Hp.
  destruct e as [| | | | |l|d]; try (by apply not_elem_of_empty in Hp).
  rewrite mentions_row_dict in Hm. apply orb_false_iff in Hm as [Hm1 Hm2].
  apply paths_of_node in Hp as [[Hr <-]|(a & Ha & Hp)].
  - rewrite Hr in Hm1. done.
  - eapply IH; [done| |done]. apply existsb_false in Hm2. rewrite Forall_forall in Hm2. by apply Hm2.
Qed.

Lemma evaluate_no_row ctx r e :
  (forall p, p ∈ paths_of e -> startswith p ROW_PREFIX = false) ->
  evaluate (with_row ctx r) e = evaluate ctx e.
Proof.
  induction e as [v|p|op a IH|f a IH|op a IH|a IH|a IH|] using expr_ind'; intros Hp; try done.
  - cbn [evaluate]. unfold resolve_. unfold ROW_PREFIX in Hp. rewrite Hp by set_solver. reflexivity.
  - cbn [evaluate]. f_equal. apply map_evaluate_ext. rewrite Forall_forall in *. intros x Hx.
    apply IH; [done|]. intros p Hpx. apply Hp. simpl. apply elem_of_union_map. eauto.
  - cbn [evaluate]. rewrite (map_evaluate_ext (with_row ctx r) ctx).
    + apply eval_call_ext. intros impl lo hi args Hget. by eapply FUNCTIONS_env.
    + rewrite Forall_forall in *. intros x Hx.
      apply IH; [done|]. intros p Hpx. apply Hp. simpl. apply elem_of_union_map. eauto.
Qed.

(** Two candidate rows alike in the columns an expression names. *)
Lemma evaluate_rows_alike ctx r r' e :
  (forall p, p ∈ paths_of e -> startswith p ROW_PREFIX = true -> vget r (drop (length ROW_PREFIX) p) = vget r' (drop (length ROW_PREFIX) p)) ->
  evaluate (with_row ctx r) e = evaluate (with_row ctx r') e.
Proof.
  induction e as [v|p|op a IH|f a IH|op a IH|a IH|a IH|] using expr_ind'; intros Hp; try done.
  - cbn [evaluate]. unfold resolve_. specialize (Hp p ltac:(simpl; set_solver)). unfold ROW_PREFIX in Hp.
    destruct (startswith p "$row."); [|reflexivity]. cbn [ctx_row with_row]. f_equal. by apply Hp.
  - cbn [evaluate]. f_equal. apply map_evaluate_ext. rewrite Forall_forall in *. intros x Hx.
    apply IH; [done|]. intros p Hpx. apply Hp. simpl. apply elem_of_union_map. eauto.
  - cbn [evaluate]. rewrite (map_evaluate_ext (with_row ctx r) (with_row ctx r')).
    + apply eval_call_ext. intros impl lo hi args Hget. by eapply FUNCTIONS_env.
    + rewrite Forall_forall in *. intros x Hx.
      apply IH; [done|]. intros p Hpx. apply Hp. simpl. apply elem_of_union_map. eauto.
Qed.

Lemma row_permitted_alike ctx filter r r' :
  (forall p, p ∈ paths_of (expr_of filter) -> startswith p ROW_PREFIX = true ->
     vget r (drop (length ROW_PREFIX) p) = vget r' (drop (length ROW_PREFIX) p)) ->
  row_permitted ctx filter r = row_permitted ctx filter r'.
Proof. intros Hp. unfold row_permitted. by rewrite (evaluate_rows_alike ctx r r'). Qed.

Lemma matches_alike r r' (selector : odict value) :
  (forall k, k ∈ dkeys selector -> vget r k = vget r' k) -> matches r selector = matches r' selector.
Proof.
  unfold matches. induction selector as [|[k v] selector IH]; intros Hk; [done|]. cbn. rewrite (Hk k) by (by left).
  f_equal. apply IH. intros x Hx. apply Hk. by right.
Qed.

(** Conjunction of a list, in three-valued logic. *)
Definition kleene_all (bs : list (option bool)) : option bool := foldr kleene_and (Some true) bs.

Lemma and_kleene_all vs : and_ vs = kleene_all (map boolean_ vs).
Proof. induction vs as [|v vs IH]; [done|]. by rewrite and_cons, IH. Qed.

Lemma kleene_all_app bs bs' : kleene_all (bs ++ bs') = kleene_and (kleene_all bs) (kleene_all bs').
Proof.
  unfold kleene_all. induction bs as [|b bs IH]; simpl.
  - destruct (foldr _ _ bs') as [[]|]; done.
  - rewrite IH. destruct b as [[]|], (foldr _ _ bs) as [[]|], (foldr _ _ bs') as [[]|]; done.
Qed.

Lemma kleene_all_true bs : kleene_all bs = Some true <-> Forall (eq (Some true)) bs.
Proof.
  unfold kleene_all. induction bs as [|b bs IH]; simpl; [split; [constructor|done]|].
  rewrite Forall_cons, <- IH. destruct b as [[]|], (foldr _ _ bs) as [[]|]; naive_solver.
Qed.

Lemma boolean_of_tri t : boolean_ (of_tri t) = t.
Proof. by destruct t as [[]|]. Qed.

(** A node with a given operator, decoded. *)
Lemma has_op_operator e op o :
  has_op e op = true -> dget operators op = Some o ->
  str_eqb op "lit" = false -> str_eqb op "ref" = false -> str_eqb op "call" = false ->
  expr_of e = EOp o (map expr_of (raw_args e)) \/ expr_of e = EMissing [].
Proof.
  intros Hop Ho Hl Hr Hc. destruct e as [| | | | |l|d]; try done.
  rewrite expr_of_dict, raw_args_dget. unfold has_op, vfield, vget in Hop.
  unfold decode_node. destruct (dget d "op") as [[| | | |op'| |]|]; try done.
  apply str_eqb_eq in Hop as ->. rewrite Hl, Hr, Hc, Ho.
  destruct (dget d "args") as [[]|]; auto.
Qed.

(** The filter's value is the conjunction of its flattened conjuncts. *)
Lemma conjuncts_eval ctx e v :
  evaluate ctx (expr_of e) = Ok v ->
  exists vs, mapR (fun k => evaluate ctx (expr_of k)) (conjuncts e) = Ok vs /\
             boolean_ v = kleene_all (map boolean_ vs).
Proof.
  revert v. induction e as [e IH] using node_ind. intros v Hv.
  assert (conjuncts e = [e] ->
          exists vs, mapR (fun k => evaluate ctx (expr_of k)) (conjuncts e) = Ok vs /\
                     boolean_ v = kleene_all (map boolean_ vs)) as Hself.
  { intros ->. exists [v]. simpl. rewrite Hv. split; [done|]. by destruct (boolean_ v) as [[]|]. }
  destruct e as [| | | | |l|d]; try by apply Hself.
  destruct (has_op (VDict d) "and") eqn:Hop; [|by apply Hself; rewrite conjuncts_dict, Hop].
  clear Hself. rewrite conjuncts_dict, Hop.
  destruct (has_op_operator _ _ OpAnd Hop) as [E|E]; [done..|rewrite E in Hv|by rewrite E in Hv].
  cbn [evaluate eval_op] in Hv. unfold all_res in Hv.
  destruct (mapR id _) as [ws|] eqn:Ews; [|done]. cbn in Hv. simplify_eq.
  rewrite boolean_of_tri, and_kleene_all. clear Hop E.
  generalize dependent ws. induction (raw_args (VDict d)) as [|a l IHl]; intros ws Hws; simpl in *; simplify_eq.
  - by exists [].
  - destruct (evaluate ctx (expr_of a)) as [w|] eqn:Ea; [|done]. cbn in Hws.
    destruct (mapR id _) as [ws'|] eqn:E'; [|done]. simplify_eq.
    destruct (IH a) with (v := w) as (vs1 & H1 & K1); [set_solver|done|].
    destruct IHl with (ws := ws') as (vs2 & H2 & K2); [intros; eapply IH; [set_solver|done]|done|].
    exists (vs1 ++ vs2). rewrite mapR_app, H1, H2. split; [done|].
    by rewrite map_app, kleene_all_app, <- K1, <- K2.
Qed.

(** What a selector term says of one row, and what the store answers. *)
Lemma selector_term_spec k c e :
  selector_term k = Some (c, e) ->
  mentions_row e = false /\
  forall ctx r v, evaluate (with_row ctx r) (expr_of k) = Ok v ->
    exists x, evaluate ctx (expr_of e) = Ok x /\
      (v = of_tri (equal_ (vget r c) x) \/ v = of_tri (equal_ x (vget r c))).
Proof.
  unfold selector_term. intros Hk. destruct (has_op k "eq") eqn:Hop; [|done].
  change (vlist (vfield k "args")) with (raw_args k) in Hk.
  destruct (has_op_operator k "eq" OpEq Hop) as [E|E]; [done..| |].
  2:{ split; [|intros ctx r v; by rewrite E].
      destruct (raw_args k) as [|a [|b []]]; try done.
      repeat case_match; simplify_eq; done. }
  destruct (raw_args k) as [|a [|b []]]; try done. cbn [map] in E.
  assert (forall a c ctx r, row_column a = Some c -> evaluate (with_row ctx r) (expr_of a) = Ok (vget r c)) as Hcol.
  { clear. intros a c ctx r. unfold row_column. destruct (has_op a "ref") eqn:Hr; [|done].
    destruct (startswith _ _) eqn:Hs; [|done]. intros; simplify_eq.
    destruct a as [| | | | |l|d]; try done. rewrite expr_of_dict.
    unfold has_op, vfield, vget in *. unfold decode_node.
    destruct (dget d "op") as [[| | | |o| |]|]; try done. apply str_eqb_eq in Hr as ->. cbn [str_eqb].
    change (str_eqb "ref" "lit") with false. change (str_eqb "ref" "ref") with true. cbv iota.
    destruct (dget d "path") as [[| | | |q| |]|]; cbn [default vtext from_option id] in Hs |- *; try done.
    cbn [evaluate]. unfold resolve_. fold ROW_PREFIX. rewrite Hs. done. }
  assert (forall e ctx r, mentions_row e = false -> evaluate (with_row ctx r) (expr_of e) = evaluate ctx (expr_of e)) as Hno.
  { intros. apply evaluate_no_row. by apply mentions_row_paths. }
  assert ((row_column a = Some c /\ e = b /\ mentions_row b = false) \/
          (row_column b = Some c /\ e = a /\ mentions_row a = false)) as [(Ha & -> & Hm)|(Hb & -> & Hm)].
  { repeat case_match; simplify_eq; auto. }
  all: split; [done|]; intros ctx r v; rewrite E; cbn [evaluate map eval_op nth_res nth].
  - rewrite (Hcol _ _ ctx r Ha), Hno by done. destruct (evaluate ctx (expr_of b)) as [x|]; [|done].
    cbn. intros; simplify_eq. eauto.
  - rewrite (Hcol _ _ ctx r Hb), Hno by done. destruct (evaluate ctx (expr_of a)) as [x|]; [|done].
    cbn. intros; simplify_eq. eauto.
Qed.

(** A text cell against a text or null selector value: the store's comparison
    and the language's equality agree. *)
Lemma same_equal s x :
  is_str x || is_null x = true ->
  (same (VStr s) x = true <-> equal_ (VStr s) x = Some true) /\ equal_ x (VStr s) = equal_ (VStr s) x.
Proof.
  destruct x as [| | | |t| |]; try done; intros _.
  unfold same, equal_. cbn. rewrite (str_eqb_sym t s).
  destruct (str_eqb s t); naive_solver.
Qed.

(** The loop keeps every conjunct: as a selector entry or in the residual. *)
Lemma split_spec (T : value -> Prop) (E : pystr -> value -> Prop) cs S R :
  exists S2 R2,
    fold_left split_step cs (S, R) = (S ++ S2, R ++ R2) /\
    Forall (fun k => k ∈ cs) R2 /\
    ((forall k c e, k ∈ cs -> selector_term k = Some (c, e) -> (c, e) ∈ S2 -> (T k <-> E c e)) ->
     (Forall T cs <-> Forall (fun ce => E ce.1 ce.2) S2 /\ Forall T R2)).
Proof.
  revert S R. induction cs as [|k cs IH]; intros S R; simpl.
  { exists [], []. rewrite !app_nil_r. split_and!; [done|constructor|]. rewrite !Forall_nil. tauto. }
  assert (forall R2, Forall (fun k => k ∈ cs) R2 -> Forall (fun x => x ∈ k :: cs) R2) as Hw.
  { intros R2 HR2. eapply Forall_impl; [exact HR2|]. set_solver. }
  destruct (selector_term k) as [[c e]|] eqn:Ek; [destruct (dhas S c) eqn:Ec|].
  - destruct (IH S (R ++ [k])) as (S2 & R2 & -> & Hin & Heq). exists S2, (k :: R2).
    rewrite <- app_assoc. split_and!; [done|constructor; [set_solver|by eapply Hw]|]. intros HTE.
    rewrite !Forall_cons, Heq; [tauto|]. intros; eapply HTE; set_solver.
  - rewrite dset_fresh; [|rewrite <- dhas_spec; congruence].
    destruct (IH (S ++ [(c, e)]) R) as (S2 & R2 & -> & Hin & Heq). exists ((c, e) :: S2), R2.
    rewrite <- app_assoc. split_and!; [done|by eapply Hw|]. intros HTE.
    rewrite !Forall_cons, Heq by (intros; eapply HTE; set_solver). simpl.
    rewrite (HTE k c e); [tauto|set_solver..].
  - destruct (IH S (R ++ [k])) as (S2 & R2 & -> & Hin & Heq). exists S2, (k :: R2).
    rewrite <- app_assoc. split_and!; [done|constructor; [set_solver|by eapply Hw]|]. intros HTE.
    rewrite !Forall_cons, Heq; [tauto|]. intros; eapply HTE; set_solver.
Qed.

Lemma insert_key_perm {A} kv (d : odict A) : insert_key kv d ≡ₚ kv :: d.
Proof.
  induction d as [|kv' d IH]; simpl; [done|]. case_match; [done|done|]. rewrite IH. apply Permutation_swap.
Qed.

Lemma sort_keys_perm {A} (d : odict A) : sort_keys d ≡ₚ d.
Proof. induction d as [|kv d IH]; simpl; [done|]. by rewrite insert_key_perm, IH. Qed.

(** What the decomposition assumes of one candidate row: the filter and every
    top-level conjunct of it evaluate to a boolean or to null. *)
Definition decidable_row (ctx : eval_ctx) (filter : value) (r : odict value) : Prop :=
  is_ok (row_permitted ctx filter r) = true /\
  Forall (fun k => exists t, evaluate (with_row ctx r) (expr_of k) = Ok (of_tri t)) (conjuncts filter).

Lemma evaluate_and_node ctx args vs :
  mapR (fun k => evaluate ctx (expr_of k)) args = Ok vs ->
  evaluate ctx (expr_of (and_node args)) = Ok (of_tri (and_ vs)).
Proof.
  intros Hvs. assert (expr_of (and_node args) = EOp OpAnd (map expr_of args)) as -> by reflexivity.
  cbn [evaluate eval_op]. unfold all_res. rewrite map_map.
  assert (mapR id (map (fun x => evaluate ctx (expr_of x)) args) = Ok vs) as E; [|by rewrite E].
  revert vs Hvs. induction args as [|a args IH]; intros vs; simpl; [done|].
  destruct (evaluate ctx (expr_of a)); [|done].
  destruct (mapR (fun k => evaluate ctx (expr_of k)) args) as [ws|]; [|done].
  intros; simplify_eq. by rewrite (IH _ eq_refl).
Qed.

(** The residual is true exactly when every conjunct left to it is. *)
Lemma residual_permits ctx r R :
  Forall (fun k => exists t, evaluate (with_row ctx r) (expr_of k) = Ok (of_tri t)) R ->
  let T k := evaluate (with_row ctx r) (expr_of k) = Ok (VBool true) in
  match residual_of R with
  | None => Forall T R
  | Some f => exists b, row_permitted ctx f r = Ok b /\ (b = true <-> Forall T R)
  end.
Proof.
  intros HR T. assert (forall k t, evaluate (with_row ctx r) (expr_of k) = Ok (of_tri t) ->
    exists b, row_permitted ctx k r = Ok b /\ (b = true <-> T k)) as Hone.
  { intros k t Ht. unfold row_permitted, T. rewrite Ht.
    destruct t as [[]|]; cbn; eexists; (split; [done|]); naive_solver. }
  destruct R as [|k [|k' R]]; cbn [residual_of].
  - constructor.
  - apply Forall_singleton in HR as (t & Ht). destruct (Hone k t Ht) as (b & Hb & HbT).
    exists b. split; [done|]. rewrite HbT. by rewrite Forall_singleton.
  - remember (k :: k' :: R) as L. clear HeqL.
    assert (exists ts, mapR (fun k => evaluate (with_row ctx r) (expr_of k)) L = Ok (map of_tri ts) /\
            (Forall (eq (Some true)) ts <-> Forall T L)) as (ts & Hts & Hiff).
    { clear Hone. induction HR as [|x l [t Ht] _ (ts & Hts & IH)]; [by exists []|].
      exists (t :: ts). simpl. rewrite Ht, Hts. split; [done|]. rewrite !Forall_cons, IH. unfold T.
      rewrite Ht. destruct t as [[]|]; naive_solver. }
    destruct (Hone (and_node L) (kleene_all ts)) as (b & Hb & HbT).
    { erewrite evaluate_and_node by exact Hts. rewrite and_kleene_all, map_map.
      do 3 f_equal. rewrite <- (map_id ts) at 2. apply map_ext. apply boolean_of_tri. }
    exists b. split; [done|]. rewrite HbT, <- Hiff, <- kleene_all_true. unfold T.
    erewrite evaluate_and_node by exact Hts. rewrite and_kleene_all, map_map.
    rewrite (map_ext _ id) by apply boolean_of_tri. rewrite map_id.
    destruct (kleene_all ts) as [[]|]; naive_solver.
Qed.

(** The filter permits a row exactly when every conjunct is true of it. *)
Lemma filter_permits ctx filter r :
  decidable_row ctx filter r ->
  row_permitted ctx filter r = Ok true <->
  Forall (fun k => evaluate (with_row ctx r) (expr_of k) = Ok (VBool true)) (conjuncts filter).
Proof.
  intros [Hok Hall]. unfold row_permitted in *.
  destruct (evaluate (with_row ctx r) (expr_of filter)) as [v|] eqn:Ev; [|done].
  destruct (conjuncts_eval _ _ _ Ev) as (vs & Hvs & Hv).
  cbn in Hok |- *. transitivity (boolean_ v = Some true).
  { destruct v as [|[]| | | | |]; cbn; naive_solver. }
  rewrite Hv, kleene_all_true. apply mapR_Ok in Hvs. clear Hv Hok Ev.
  induction Hvs as [|k w ks ws Hk _ IH]; [split; constructor|].
  apply Forall_cons in Hall as [(t & Ht) Hall]. cbn [map]. rewrite !Forall_cons, IH by done.
  rewrite Hk in Ht |- *. simplify_eq. destruct t as [[]|]; naive_solver.
Qed.

(** The parts of a compiled dataset list. *)
Lemma compile_choices_parts choices q :
  compile_choices choices = Some q -> truthy (vget choices "filter") = true ->
  exists S R, split_conjuncts (conjuncts (vget choices "filter")) = (S, R) /\
    cq_selector q = sort_keys S /\ cq_residual q = residual_of R.
Proof.
  unfold compile_choices. intros Hq Ht. destruct (py_eq _ _); [|done]. rewrite Ht in Hq.
  destruct (split_conjuncts _) as [S R]. simplify_eq. eauto.
Qed.

(** One row: the store's answer and the residual, against the whole filter. *)
Lemma decomposed_row choices q ctx sel r :
  let filter := vget choices "filter" in
  compile_choices choices = Some q -> truthy filter = true ->
  selector_values q ctx = Ok sel ->
  Forall (fun cv => is_str cv.2 || is_null cv.2 = true) sel ->
  Forall (fun cv => is_str (vget r cv.1) = true) sel ->
  decidable_row ctx filter r ->
  match cq_residual q with
  | None => row_permitted ctx filter r = Ok (matches r sel)
  | Some f => exists b, row_permitted ctx f r = Ok b /\
                        row_permitted ctx filter r = Ok (matches r sel && b)
  end.
Proof.
  intros filter Hq Ht Hsel Htext Hcell Hdec.
  destruct (compile_choices_parts _ _ Hq Ht) as (S & R & Hsplit & HS & HR). fold filter in Hsplit.
  set (T k := evaluate (with_row ctx r) (expr_of k) = Ok (VBool true)).
  set (E (c : pystr) (e : value) := exists x, (c, x) ∈ sel /\ evaluate ctx (expr_of e) = Ok x /\ same (vget r c) x = true).
  destruct (split_spec T E (conjuncts filter) [] []) as (S2 & R2 & Hfold & Hin & Heq).
  unfold split_conjuncts in Hsplit. rewrite Hfold in Hsplit. simpl in Hsplit. simplify_eq.
  apply mapR_Ok in Hsel.
  assert (forall c e, (c, e) ∈ S -> exists x, (c, x) ∈ sel /\ evaluate ctx (expr_of e) = Ok x) as Hval.
  { intros c e Hce. rewrite <- (sort_keys_perm S), <- HS in Hce.
    apply list_elem_of_lookup in Hce as (i & Hi). destruct (Forall2_lookup_l _ _ _ _ _ Hsel Hi) as ([c' x] & Hx & Hev).
    simpl in Hev. destruct (evaluate ctx (expr_of e)) as [w|] eqn:Ew; [|done]. cbn in Hev. simplify_eq.
    exists x. split; [by eapply list_elem_of_lookup_2|done]. }
  assert (forall c x, (c, x) ∈ sel -> exists e, (c, e) ∈ S /\ evaluate ctx (expr_of e) = Ok x) as Hval'.
  { intros c x Hcx. apply list_elem_of_lookup in Hcx as (i & Hi).
    destruct (Forall2_lookup_r _ _ _ _ _ Hsel Hi) as ([c' e] & Hx & Hev).
    simpl in Hev. destruct (evaluate ctx (expr_of e)) as [w|] eqn:Ew; [|done]. cbn in Hev. simplify_eq.
    exists e. split; [|done]. rewrite <- (sort_keys_perm S), <- HS. by eapply list_elem_of_lookup_2. }
  rewrite Forall_forall in Htext, Hcell.
  assert (Forall T (conjuncts filter) <-> Forall (fun ce => E ce.1 ce.2) S /\ Forall T R) as Hiff.
  { apply Heq. intros k c e Hk Hterm Hce. destruct (selector_term_spec _ _ _ Hterm) as [_ Hspec].
    destruct Hdec as [_ Hconj]. rewrite Forall_forall in Hconj. destruct (Hconj k Hk) as (t & Hkt).
    destruct (Hspec ctx r _ Hkt) as (x & Hx & Hv). destruct (Hval c e Hce) as (x' & Hin' & Hx').
    rewrite Hx in Hx'. simplify_eq. specialize (Htext _ Hin'). specialize (Hcell _ Hin'). simpl in *.
    destruct (vget r c) as [| | | |cell| |] eqn:Ecell; try done.
    destruct (same_equal cell x' Htext) as [Hse Hsym]. unfold T, E. rewrite Hkt, Ecell.
    rewrite Hsym in Hv. transitivity (equal_ (VStr cell) x' = Some true).
    - assert (of_tri t = of_tri (equal_ (VStr cell) x')) as -> by (by destruct Hv).
      destruct (equal_ (VStr cell) x') as [[]|]; naive_solver.
    - rewrite <- Hse. split; [eauto|]. intros (x & _ & Hx2 & Hs). rewrite Hx in Hx2. by simplify_eq. }
  assert (matches r sel = true <-> Forall (fun ce => E ce.1 ce.2) S) as Hmatch.
  { unfold matches. rewrite forallb_forall, Forall_forall. split.
    - intros Hall [c e] Hce. destruct (Hval c e Hce) as (x & Hin' & Hx). exists x. split_and!; [done..|].
      apply (Hall (c, x)). by apply list_elem_of_In.
    - intros Hall [c x] Hcx%list_elem_of_In. destruct (Hval' c x Hcx) as (e & Hce & Hx).
      destruct (Hall _ Hce) as (x' & _ & Hx' & Hs). simpl in *. rewrite Hx in Hx'. by simplify_eq. }
  pose proof (filter_permits ctx filter r Hdec) as Hperm. fold T in Hperm.
  rewrite Hiff, <- Hmatch in Hperm.
  assert (exists b, row_permitted ctx filter r = Ok b) as (b & Hb).
  { destruct Hdec as [Hok _]. destruct (row_permitted ctx filter r); [eauto|done]. }
  assert (Forall (fun k => exists t, evaluate (with_row ctx r) (expr_of k) = Ok (of_tri t)) R) as HRdec.
  { destruct Hdec as [_ Hconj]. rewrite Forall_forall in Hconj, Hin |- *. auto. }
  pose proof (residual_permits ctx r R HRdec) as Hres. cbv zeta in Hres. fold T in Hres. rewrite HR.
  destruct (residual_of R) as [f|].
  - destruct Hres as (b' & Hb' & HbT). exists b'. split; [done|]. rewrite Hb. f_equal.
    rewrite Hb, <- HbT in Hperm. destruct b, b', (matches r sel); naive_solver.
  - rewrite Hb. f_equal. rewrite Hb in Hperm. destruct b, (matches r sel); naive_solver.
Qed.

(** The decomposed list is the filtered dataset, in dataset order. *)
Lemma decomposed_rows choices q ctx sel found :
  let filter := vget choices "filter" in
  compile_choices choices = Some q -> truthy filter = true ->
  selector_values q ctx = Ok sel ->
  Forall (fun cv => is_str cv.2 || is_null cv.2 = true) sel ->
  Forall (fun r => Forall (fun cv => is_str (vget r cv.1) = true) sel /\ decidable_row ctx filter r) found ->
  after_residual q ctx (List.filter (fun r => matches r sel) found) = filterR (row_permitted ctx filter) found.
Proof.
  intros filter Hq Ht Hsel Htext. induction 1 as [|r found [Hcell Hdec] _ IH].
  { unfold after_residual. by case_match. }
  pose proof (decomposed_row _ _ _ _ _ Hq Ht Hsel Htext Hcell Hdec) as Hrow.
  fold filter in Hrow. unfold after_residual in *. cbn [List.filter filterR].
  destruct (cq_residual q) as [f|].
  - destruct Hrow as (b & Hb & ->). destruct (matches r sel); cbn [filterR andb].
    + by rewrite Hb, IH.
    + rewrite IH. by destruct (filterR _ found).
  - rewrite Hrow, <- IH. by destruct (matches r sel).
Qed.

End Resolve.
