(* ===== verification/Document.v ===== *)
(** * Document-shape validation: form_engine/document.py (Form IR 10.1)

    [check_document] on the raw JSON value, and the node tree the compiler
    walks afterwards: a node is the object's own attributes and the decoded
    children. *)

From S2P Require Import Prelude PyStr PyNum Value.

Definition SUPPORTED_IR_VERSION : Z * Z := (0, 1).
Definition NODE_TYPES : list pystr := [lit "question"; lit "group"; lit "repeat"].

Inductive kind := KStr | KInt.

(** [isinstance(value, kind)], a boolean never counting as an integer. *)
Definition has_kind (k : kind) (v : value) : bool :=
  match k, v with
  | KStr, VStr _ => true
  | KInt, VInt _ => true
  | _, _ => false
  end.

(** One required field of an object: present, and of the right type. *)
Definition require_ (node : odict value) (key : pystr) (k : kind) (where_ : pystr) : res value :=
  match dget node key with
  | None => Raise (DocumentError "missing_field" (where_ ++ key))
  | Some v => if has_kind k v then Ok v else Raise (DocumentError "wrong_type" (where_ ++ key))
  end.

Definition check_ir_version (raw : pystr) : res unit :=
  let unknown := Raise (DocumentError "unknown_ir_version" "irVersion") in
  match split_char 46 raw with
  | p0 :: p1 :: _ =>
      match parse_int p0, parse_int p1 with
      | Some major, Some minor =>
          if negb (major =? SUPPORTED_IR_VERSION.1) || (SUPPORTED_IR_VERSION.2 <? minor)
          then unknown else Ok tt
      | _, _ => unknown
      end
  | _ => unknown
  end.

(** [f"{where}[{index}]"] *)
Definition at_index (where_ : pystr) (index : nat) : pystr :=
  where_ ++ lit "[" ++ str_nat index ++ lit "]".

(** What [_check_children] asks of one node before its children: its type. *)
Definition check_node (node : odict value) (at_ : pystr) : res pystr :=
  t ← require_ node "type" KStr (at_ ++ ".");
  let node_type := match t with VStr s => s | _ => [] end in
  if bool_decide (node_type ∈ NODE_TYPES) then
    _ ← require_ node "id" KStr (at_ ++ ".");
    if str_eqb node_type "question"
    then _ ← require_ node "dataType" KStr (at_ ++ "."); Ok node_type
    else Ok node_type
  else Raise (DocumentError "unknown_node_type" (at_ ++ ".type")).

Fixpoint check_children (children : value) (where_ : pystr) : res unit :=
  match children with
  | VList l =>
      (fix go (index : nat) (l : list value) : res unit :=
         match l with
         | [] => Ok tt
         | node :: rest =>
             let at_ := at_index where_ index in
             match node with
             | VDict d =>
                 t ← check_node d at_;
                 _ ← (if str_eqb t "question" then Ok tt
                      else (fix look (d : list (pystr * value)) : res unit :=
                              match d with
                              | [] => Ok tt
                              | (k, x) :: r =>
                                  if decide (k = lit "children")
                                  then check_children x (at_ ++ ".children")
                                  else look r
                              end) d);
                 go (S index) rest
             | _ => Raise (DocumentError "not_an_object" at_)
             end
         end) 0%nat l
  | _ => Raise (DocumentError "wrong_type" where_)
  end.

Definition check_document (ir : value) : res unit :=
  match ir with
  | VDict d =>
      v ← require_ d "irVersion" KStr "";
      _ ← check_ir_version (match v with VStr s => s | _ => [] end);
      _ ← require_ d "formId" KStr "";
      _ ← require_ d "version" KInt "";
      match dget d "children" with
      | Some c => check_children c "children"
      | None => Ok tt
      end
  | _ => Raise (DocumentError "not_an_object" "")
  end.

(** ** The node tree *)

Inductive node := Node (attrs : odict value) (children : list node).

Definition attrs (n : node) : odict value := match n with Node a _ => a end.
Definition children (n : node) : list node := match n with Node _ c => c end.

Fixpoint node_of (v : value) : node :=
  match v with
  | VDict d =>
      Node d ((fix look (d : list (pystr * value)) : list node :=
                 match d with
                 | [] => []
                 | (k, x) :: r =>
                     if decide (k = lit "children")
                     then match x with VList l => map node_of l | _ => [] end
                     else look r
                 end) d)
  | _ => Node [] []
  end.

Section NodeInd.
Variable P : node -> Prop.
Hypothesis HNode : forall a c, Forall P c -> P (Node a c).
Fixpoint node_ind' (n : node) : P n :=
  match n with
  | Node a c => HNode a c ((fix go c : Forall P c :=
                              match c with
                              | [] => Forall_nil_2 P
                              | x :: r => Forall_cons_2 P x r (node_ind' x) (go r)
                              end) c)
  end.
End NodeInd.

(** The keys the compiler and the runtime read off a checked node. *)
Definition atext (a : odict value) (k : pystr) : pystr :=
  match vget a k with VStr s => s | _ => [] end.
Definition node_type (n : node) : pystr := atext (attrs n) "type".
Definition node_id (n : node) : pystr := atext (attrs n) "id".

(** ** What a document is

    10.1 as a predicate, independently of the order the checks run in. *)

Definition version_ok (raw : pystr) : bool := is_ok (check_ir_version raw).

Definition node_keys_ok (d : odict value) : bool :=
  match vget d "type", vget d "id" with
  | VStr t, VStr _ =>
      bool_decide (t ∈ NODE_TYPES) && (negb (str_eqb t "question") || is_str (vget d "dataType"))
  | _, _ => false
  end.

(** A tree is shaped when each node has its keys, and each container's
    [children] is absent or an array of shaped nodes. *)
Inductive shaped : value -> Prop :=
| shaped_question d :
    node_keys_ok d = true -> atext d "type" = "question" -> shaped (VDict d)
| shaped_leaf d :
    node_keys_ok d = true -> dget d "children" = None -> shaped (VDict d)
| shaped_container d l :
    node_keys_ok d = true -> dget d "children" = Some (VList l) -> Forall shaped l ->
    shaped (VDict d).

Inductive is_document : value -> Prop :=
| is_document_intro d v n :
    dget d "irVersion" = Some (VStr v) -> version_ok v = true ->
    is_str (vget d "formId") = true -> dget d "version" = Some (VInt n) ->
    match dget d "children" with
    | None => True
    | Some (VList l) => Forall shaped l
    | Some _ => False
    end -> is_document (VDict d).

(** ** The check decides the predicate *)

Definition document_error_only {A} (r : res A) : Prop :=
  match r with Ok _ => True | Raise e => exists reason where_, e = DocumentError reason where_ end.

Lemma require_spec node key k where_ v :
  require_ node key k where_ = Ok v <-> dget node key = Some v /\ has_kind k v = true.
Proof.
  unfold require_. destruct (dget node key) as [x|]; [|by split; [|intros []]].
  destruct (has_kind k x) eqn:E; split; [by intros [= ->]|by intros [[= ->] _]|done|].
  intros [[= ->] ?]. congruence.
Qed.

Lemma require_errors node key k where_ : document_error_only (require_ node key k where_).
Proof. unfold require_. repeat case_match; simpl; eauto. Qed.

Lemma errors_bind {A B} (r : res A) (f : A -> res B) :
  document_error_only r -> (forall a, document_error_only (f a)) -> document_error_only (r ≫= f).
Proof. destruct r; simpl; auto. Qed.

Create HintDb docerr.
#[export] Hint Resolve require_errors errors_bind : docerr.
#[export] Hint Extern 1 (document_error_only _) => (simpl; solve [eauto]) : docerr.

Lemma check_ir_version_errors raw : document_error_only (check_ir_version raw).
Proof. unfold check_ir_version. repeat case_match; simpl; eauto. Qed.

Lemma check_node_errors d at_ : document_error_only (check_node d at_).
Proof.
  unfold check_node. apply errors_bind; [auto with docerr|]. intros t. cbn zeta.
  case_match; [|simpl; eauto]. apply errors_bind; [auto with docerr|]. intros _.
  destruct (str_eqb _ _); [|done]. apply errors_bind; [auto with docerr|done].
Qed.

Lemma check_node_spec d at_ : is_ok (check_node d at_) = node_keys_ok d.
Proof.
  unfold check_node, node_keys_ok, require_, vget.
  destruct (dget d "type") as [[| | | |t| |]|]; try done. simpl.
  destruct (bool_decide (t ∈ NODE_TYPES)); simpl; [|by repeat case_match].
  destruct (dget d "id") as [[| | | |i| |]|]; simpl; try done.
  destruct (str_eqb t "question"); simpl; [|done].
  destruct (dget d "dataType") as [[]|]; done.
Qed.

Lemma check_node_type d at_ t : check_node d at_ = Ok t -> t = atext d "type".
Proof.
  unfold check_node, require_, atext, vget. destruct (dget d "type") as [[| | | |t'| |]|]; try done.
  simpl. destruct (bool_decide (t' ∈ NODE_TYPES)); [|done].
  destruct (dget d "id") as [[]|]; simpl; try done.
  destruct (str_eqb t' "question"); simpl; [|naive_solver].
  destruct (dget d "dataType") as [[]|]; naive_solver.
Qed.

(** The loop over an array of nodes, unfolded one node at a time. *)
Fixpoint check_nodes (where_ : pystr) (index : nat) (l : list value) : res unit :=
  match l with
  | [] => Ok tt
  | node :: rest =>
      let at_ := at_index where_ index in
      match node with
      | VDict d =>
          t ← check_node d at_;
          _ ← (if str_eqb t "question" then Ok tt
               else match dget d "children" with
                    | Some c => check_children c (at_ ++ ".children")
                    | None => Ok tt
                    end);
          check_nodes where_ (S index) rest
      | _ => Raise (DocumentError "not_an_object" at_)
      end
  end.

Lemma check_children_list l where_ : check_children (VList l) where_ = check_nodes where_ 0 l.
Proof.
  cbn [check_children]. generalize 0%nat. induction l as [|node l IH]; intros i; [done|].
  cbn [check_nodes]. destruct node as [| | | | | |d]; try done.
  destruct (check_node d (at_index where_ i)) as [t|]; cbn [mbind res_bind]; [|done].
  destruct (str_eqb t "question"); cbn [mbind res_bind]; [apply IH|].
  set (look := fix look (d : list (pystr * value)) : res unit := _).
  assert (look d = match dget d "children" with
                   | Some c => check_children c (at_index where_ i ++ ".children")
                   | None => Ok tt end) as ->.
  { clear IH. induction d as [|[k x] d IHd]; [done|]. cbn [dget]. subst look. cbn -[lit decide check_children].
    destruct (decide (k = lit "children")), (decide (lit "children" = k)); congruence || done. }
  destruct (match dget d "children" with Some _ => _ | None => _ end); [|done]. apply IH.
Qed.

Lemma check_children_spec v :
  forall where_, document_error_only (check_children v where_) /\
  (is_ok (check_children v where_) = true <-> exists l, v = VList l /\ Forall shaped l).
Proof.
  assert (forall v, match v with
    | VList l => Forall (fun x => match x with VDict d =>
        Forall (fun kv => forall where_, document_error_only (check_children kv.2 where_) /\
          (is_ok (check_children kv.2 where_) = true <-> exists l, kv.2 = VList l /\ Forall shaped l)) d | _ => True end) l ->
        forall where_, document_error_only (check_children v where_) /\
          (is_ok (check_children v where_) = true <-> exists l, v = VList l /\ Forall shaped l)
    | _ => True end) as Hlist.
  { intros [| | | | |l|]; try done. intros IH where_. rewrite check_children_list.
    generalize 0%nat. induction IH as [|x l Hx _ IHl]; intros i; cbn [check_nodes].
    { split; [done|]. split; [|done]. intros _. exists []. by split. }
    destruct x as [| | | | | |d]; try (split; [simpl; by eauto|split; [done|]];
      intros (l' & ? & Hl'); simplify_eq; inversion Hl' as [|? ? Hs]; subst; by inversion Hs).
    pose proof (check_node_errors d (at_index where_ i)) as He.
    pose proof (check_node_spec d (at_index where_ i)) as Hs.
    pose proof (check_node_type d (at_index where_ i)) as Ht.
    destruct (check_node d _) as [t|e]; cbn [mbind res_bind]; cycle 1.
    { split; [done|]. split; [done|]. intros (l' & ? & Hl'); simplify_eq.
      inversion Hl' as [|? ? Hsh]; subst. inversion Hsh; subst; simpl in Hs; congruence. }
    specialize (Ht t eq_refl). simpl in Hs. symmetry in Hs.
    assert (forall l', (exists l2, VList (VDict d :: l') = VList l2 /\ Forall shaped l2) <->
                       shaped (VDict d) /\ Forall shaped l') as Hcons.
    { intros l'. split; [intros (? & ? & H); simplify_eq; by apply Forall_cons in H|].
      intros []. eexists. split; [done|]. by constructor. }
    rewrite Hcons. clear Hcons.
    destruct (IHl (S i)) as [He' Hl'].
    assert (is_ok (check_nodes where_ (S i) l) = true <-> Forall shaped l) as Hl.
    { rewrite Hl'. split; [intros (? & ? & ?); by simplify_eq|eauto]. }
    destruct (str_eqb t "question") eqn:Eq; cbn [mbind res_bind].
    { split; [done|]. rewrite Hl. split; [|naive_solver]. intros. split; [|done].
      apply shaped_question; [done|]. rewrite <- Ht. by apply str_eqb_eq. }
    destruct (dget d "children") as [c|] eqn:Ec; cbn [mbind res_bind].
    - rewrite Forall_forall in Hx. destruct (Hx _ (dget_Some_elem _ _ _ Ec) (at_index where_ i ++ ".children")) as [Hce Hcs].
      simpl in Hce, Hcs. destruct (check_children c _) as [[]|e]; cbn [mbind res_bind].
      + split; [done|]. rewrite Hl. destruct (proj1 Hcs eq_refl) as (l2 & -> & Hl2).
        split; [|tauto]. intros. split; [by eapply shaped_container|done].
      + split; [done|]. split; [done|]. intros [Hsh _]. exfalso.
        assert (is_ok (Raise (A:=unit) e) = true) as H; [|done]. apply Hcs.
        inversion Hsh as [d' Hk Htq|d' Hk Hn|d' l2 Hk Hc Hf]; subst; [|congruence|].
        * rewrite Htq, str_eqb_refl in Eq. done.
        * rewrite Hc in Ec. simplify_eq. eauto.
    - split; [done|]. rewrite Hl. split; [|tauto]. intros. split; [by apply shaped_leaf|done]. }
  assert (forall v, (forall where_, document_error_only (check_children v where_) /\
    (is_ok (check_children v where_) = true <-> exists l, v = VList l /\ Forall shaped l)) /\
    match v with VDict d => Forall (fun kv => forall where_, document_error_only (check_children kv.2 where_) /\
      (is_ok (check_children kv.2 where_) = true <-> exists l, kv.2 = VList l /\ Forall shaped l)) d | _ => True end) as H;
    [|apply H].
  clear v. intros v. induction v as [| | | | |l IH|d IH] using value_ind'.
  1-5: split; [|done]; intros; split; [simpl; eauto|]; split; [done|]; by intros (? & ? & ?).
  - split; [|done]. apply (Hlist (VList l)). eapply Forall_impl; [exact IH|]. intros [] [_ H]; done.
  - split; [intros; split; [simpl; eauto|]; split; [done|]; by intros (? & ? & ?)|].
    eapply Forall_impl; [exact IH|]. by intros kv [].
Qed.

Lemma check_document_errors v : document_error_only (check_document v).
Proof.
  destruct v as [| | | | | |d]; try (simpl; by eauto). unfold check_document.
  apply errors_bind; [auto with docerr|]. intros v. apply errors_bind; [apply check_ir_version_errors|].
  intros _. apply errors_bind; [auto with docerr|]. intros _.
  apply errors_bind; [auto with docerr|]. intros _.
  destruct (dget d "children") as [c|]; [|done]. apply check_children_spec.
Qed.

Lemma check_document_spec v : is_ok (check_document v) = true <-> is_document v.
Proof.
  split.
  - destruct v as [| | | | | |d]; try done. unfold check_document.
    destruct (require_ d "irVersion" KStr "") as [v|] eqn:E1; [|done]. cbn [mbind res_bind].
    apply require_spec in E1 as [E1 K1]. destruct v as [| | | |v| |]; try done.
    destruct (check_ir_version v) as [[]|] eqn:E2; [|done]. cbn [mbind res_bind].
    destruct (require_ d "formId" KStr "") as [f|] eqn:E3; [|done]. cbn [mbind res_bind].
    apply require_spec in E3 as [E3 K3].
    destruct (require_ d "version" KInt "") as [n|] eqn:E4; [|done]. cbn [mbind res_bind].
    apply require_spec in E4 as [E4 K4]. destruct n as [| |n| | | |]; try done. intros Hc.
    econstructor; [done|by unfold version_ok; rewrite E2| |done|].
    + unfold vget. rewrite E3. by destruct f.
    + destruct (dget d "children") as [c|]; [|done].
      apply check_children_spec in Hc as (l & -> & Hl). done.
  - intros [d' ver n Hv Hver Hf Hn Hc]. unfold check_document.
    rewrite (proj2 (require_spec d' "irVersion" KStr "" (VStr ver))) by done. cbn [mbind res_bind].
    unfold version_ok in Hver. destruct (check_ir_version ver) as [[]|]; [|done]. cbn [mbind res_bind].
    unfold vget in Hf. destruct (dget d' "formId") as [f|] eqn:Ef; [|done].
    rewrite (proj2 (require_spec d' "formId" KStr "" f)) by (split; [done|by destruct f]). cbn [mbind res_bind].
    rewrite (proj2 (require_spec d' "version" KInt "" (VInt n))) by done. cbn [mbind res_bind].
    destruct (dget d' "children") as [[| | | | |l|]|] eqn:Ec; try done.
    apply check_children_spec. eauto.
Qed.

Lemma node_of_dict d :
  node_of (VDict d) = Node d (map node_of (vlist (vget d "children"))).
Proof.
  cbn [node_of]. f_equal. unfold vget.
  set (look := fix look (d : list (pystr * value)) : list node := _).
  assert (forall d, look d = map node_of (vlist (default VNone (dget d "children")))) as ->; [|done].
  clear d. induction d as [|[k x] d IH]; [done|]. cbn [dget]. subst look. cbn -[lit decide].
  destruct (decide (k = lit "children")), (decide (lit "children" = k)); congruence || by destruct x.
Qed.
