(* ===== verification/Topo.v ===== *)
(** * Kahn's algorithm: [CompiledForm._topological_order] (Form IR 5)

    Over the field ids in document order and, for each, the fields it depends
    on ([deps], with a repetition per reference and never the field itself).
    The ready set is a heap of document positions: the sorted list of its
    members, [heappop] taking the least. *)

From S2P Require Import Prelude.

(** [heapq], as the sorted sequence of the heap's members. *)
Fixpoint heappush (x : nat) (h : list nat) : list nat :=
  match h with
  | [] => [x]
  | y :: r => if (x <=? y)%nat then x :: h else y :: heappush x r
  end.

Definition heapify (l : list nat) : list nat := foldr heappush [] l.

Section Topo.
Variable fields : list pystr.
Variable deps : pystr -> list pystr.

Definition position (p : pystr) : nat := index_of p fields.

(** [dependents[b]]: a field once per reference it makes to [b]. *)
Definition dependents (b : pystr) : list pystr :=
  concat (map (fun p => map (fun _ => p) (List.filter (str_eqb b) (deps p))) fields).

Definition indegree0 : gmap pystr nat :=
  list_to_map (map (fun p => (p, length (deps p))) fields).

(** One dependent of the field just placed. *)
Definition release (st : gmap pystr nat * list nat) (dep : pystr) : gmap pystr nat * list nat :=
  let '(indegree, ready) := st in
  let d := (default 0 (indegree !! dep) - 1)%nat in
  (<[dep := d]> indegree, if (d =? 0)%nat then heappush (position dep) ready else ready).

Fixpoint kahn (fuel : nat) (ready : list nat) (indegree : gmap pystr nat) (result : list pystr)
    : option (list pystr) :=
  match fuel with
  | O => None
  | S fuel =>
      match ready with
      | [] => Some result
      | i :: rest =>
          let current := nth i fields [] in
          let '(indegree', ready') := fold_left release (dependents current) (indegree, rest) in
          kahn fuel ready' indegree' (result ++ [current])
      end
  end.

Definition initial_ready : list nat :=
  heapify (map position (List.filter (fun p => (length (deps p) =? 0)%nat) fields)).

Definition topological_order : res (list pystr) :=
  match kahn (S (length fields)) initial_ready indegree0 [] with
  | None => Raise AssertionError                       (* out of fuel: never, [kahn_run] *)
  | Some result =>
      if (length result =? length fields)%nat then Ok result
      else Raise (CompileError "dependency cycle"
                    (List.filter (fun p => negb (bool_decide (p ∈ result))) fields))
  end.

(** ** What an order must be *)

(** A permutation of the fields with every dependency placed before its
    dependent. *)
Definition topo_sorted (ord : list pystr) : Prop :=
  ord ≡ₚ fields /\ forall k p, ord !! k = Some p -> forall d, d ∈ deps p -> d ∈ take k ord.

(** At every place, the lowest document position among the fields that could
    go there. *)
Definition lowest_first (ord : list pystr) : Prop :=
  forall k p q, ord !! k = Some p -> q ∈ fields -> q ∉ take k ord ->
    (forall d, d ∈ deps q -> d ∈ take k ord) -> (position p <= position q)%nat.

(** A set of fields each of which depends on another of the set. *)
Definition cyclic (C : list pystr) : Prop :=
  C <> [] /\ C ⊆ fields /\ forall p, p ∈ C -> exists d, d ∈ deps p /\ d ∈ C.

(** ** Correctness *)

Hypothesis fields_nodup : NoDup fields.
Hypothesis deps_known : forall p d, p ∈ fields -> d ∈ deps p -> d ∈ fields /\ d <> p.

Lemma heappush_elem x h y : y ∈ heappush x h <-> y = x \/ y ∈ h.
Proof.
  induction h as [|z h IH]; simpl; [set_solver|]. destruct (x <=? z)%nat; [set_solver|].
  rewrite !elem_of_cons, IH. tauto.
Qed.

(** Strictly increasing: a heap of distinct positions. *)
Fixpoint increasing (h : list nat) : Prop :=
  match h with
  | [] => True
  | x :: r => (forall y, y ∈ r -> (x < y)%nat) /\ increasing r
  end.

Lemma heappush_increasing x h : x ∉ h -> increasing h -> increasing (heappush x h).
Proof.
  induction h as [|y h IH]; cbn [heappush increasing]; [set_solver|].
  intros [Hne Hx]%not_elem_of_cons [Hy Hh].
  destruct (Nat.leb_spec x y) as [Hle|Hlt]; cbn [increasing].
  - split; [|done]. intros z [->|Hz]%elem_of_cons; [lia|]. specialize (Hy z Hz). lia.
  - split; [|by apply IH]. intros z Hz. apply heappush_elem in Hz as [->|Hz]; [done|auto].
Qed.

Lemma position_lookup p : p ∈ fields -> fields !! position p = Some p.
Proof. apply index_of_lookup. Qed.

Lemma position_of i p : fields !! i = Some p -> position p = i.
Proof.
  intros Hi. eapply NoDup_lookup; [exact fields_nodup| |exact Hi].
  apply position_lookup. by eapply list_elem_of_lookup_2.
Qed.

(** How many times [x] occurs in [l]. *)
Definition count (x : pystr) (l : list pystr) : nat := length (List.filter (str_eqb x) l).

Lemma count_dependents b p : p ∈ fields -> count p (dependents b) = count b (deps p).
Proof.
  unfold dependents, count. intros Hp.
  assert (forall l, NoDup l ->
    length (List.filter (str_eqb p)
      (concat (map (fun q => map (fun _ => q) (List.filter (str_eqb b) (deps q))) l))) =
    if decide (p ∈ l) then length (List.filter (str_eqb b) (deps p)) else 0%nat) as H.
  { induction l as [|q l IH]; intros Hn; [by rewrite decide_False by set_solver|].
    apply NoDup_cons in Hn as [Hq Hn]. cbn [map concat]. rewrite List.filter_app, length_app, IH by done.
    assert (forall (m : list pystr), length (List.filter (str_eqb p) (map (fun _ => q) m)) =
            if decide (p = q) then length m else 0%nat) as Hm.
    { intros m. destruct (decide (p = q)) as [->|Hne];
        induction m as [|x m IHm]; cbn [map List.filter length]; try done.
      - rewrite str_eqb_refl. cbn [length]. by rewrite IHm.
      - by rewrite str_eqb_ne. }
    rewrite Hm. destruct (decide (p = q)) as [->|Hne].
    - rewrite decide_False by done. rewrite decide_True by set_solver. lia.
    - destruct (decide (p ∈ l)); [rewrite decide_True by set_solver|rewrite decide_False by set_solver]; lia. }
  rewrite H by done. by rewrite decide_True.
Qed.

(** References of [p] still to be placed. *)
Definition missing (result : list pystr) (p : pystr) : nat :=
  length (List.filter (fun d => negb (bool_decide (d ∈ result))) (deps p)).

Lemma missing_nil p : missing [] p = length (deps p).
Proof.
  unfold missing. f_equal. induction (deps p) as [|d l IH]; [done|]. cbn [List.filter].
  rewrite bool_decide_eq_false_2 by set_solver. cbn [negb]. by rewrite IH.
Qed.

Lemma missing_snoc result c p :
  c ∉ result -> missing result p = (missing (result ++ [c]) p + count c (deps p))%nat.
Proof.
  intros Hc. unfold missing, count. induction (deps p) as [|d l IH]; simpl; [done|].
  assert (d ∈ result ++ [c] <-> d ∈ result \/ d = c) as Happ by set_solver.
  rewrite (bool_decide_ext _ _ Happ).
  destruct (decide (d ∈ result)) as [Hd|Hd].
  - rewrite !bool_decide_eq_true_2 by auto. simpl. rewrite str_eqb_ne; [done|]. by intros ->.
  - rewrite (bool_decide_eq_false_2 (d ∈ result)) by done. simpl. destruct (decide (d = c)) as [->|Hne].
    + rewrite str_eqb_refl, bool_decide_eq_true_2 by auto. simpl. lia.
    + rewrite str_eqb_ne, bool_decide_eq_false_2 by naive_solver. simpl. lia.
Qed.

Lemma missing_zero result p : missing result p = 0%nat <-> forall d, d ∈ deps p -> d ∈ result.
Proof.
  unfold missing. induction (deps p) as [|d l IH]; simpl; [set_solver|].
  case_bool_decide as Hd; simpl.
  - rewrite IH. setoid_rewrite elem_of_cons. naive_solver.
  - split; [done|]. intros H. exfalso. apply Hd, H. set_solver.
Qed.

(** The heap holds the positions of the unplaced fields of indegree zero. *)
Definition ready_inv (result : list pystr) (indegree : gmap pystr nat) (ready : list nat) : Prop :=
  increasing ready /\
  forall i, i ∈ ready <-> exists p, fields !! i = Some p /\ p ∉ result /\ indegree !! p = Some 0%nat.

Lemma release_inv result dep n indegree ready indegree' ready' :
  ready_inv result indegree ready -> dep ∈ fields -> dep ∉ result ->
  indegree !! dep = Some (S n) -> release (indegree, ready) dep = (indegree', ready') ->
  ready_inv result indegree' ready' /\ indegree' = <[dep := n]> indegree.
Proof.
  intros [Hinc Hr] Hf Hnr Hd. unfold release. rewrite Hd. cbn [default from_option id].
  assert (S n - 1 = n)%nat as -> by lia.
  intros [= <- <-]. split; [|done].
  assert (forall i, (exists p, fields !! i = Some p /\ p ∉ result /\ <[dep:=n]> indegree !! p = Some 0%nat) <->
                    i ∈ ready \/ (n = 0%nat /\ i = position dep)) as Hiff.
  { intros i. rewrite Hr. split.
    - intros (p & Hp & Hpr & Hi). destruct (decide (p = dep)) as [->|Hne].
      + rewrite lookup_insert_eq in Hi. simplify_eq. right. split; [done|]. symmetry. by apply position_of.
      + rewrite lookup_insert_ne in Hi by done. left. eauto.
    - intros [(p & Hp & Hpr & Hi)|[-> ->]].
      + exists p. split_and!; try done. rewrite lookup_insert_ne; [done|]. intros ->. congruence.
      + exists dep. rewrite lookup_insert_eq. split_and!; try done. by apply position_lookup. }
  destruct (Nat.eqb_spec n 0) as [->|Hn].
  - split.
    + apply heappush_increasing; [|done]. rewrite Hr. intros (p & Hp & _ & Hi).
      rewrite position_lookup in Hp by done. simplify_eq.
    + intros i. rewrite heappush_elem, Hiff. naive_solver.
  - split; [done|]. intros i. rewrite Hiff. naive_solver.
Qed.

Lemma release_all result ds indegree ready indegree' ready' :
  ready_inv result indegree ready ->
  (forall p, p ∈ ds -> p ∈ fields /\ p ∉ result) ->
  (forall p, p ∈ ds -> exists n, indegree !! p = Some n /\ (count p ds <= n)%nat) ->
  fold_left release ds (indegree, ready) = (indegree', ready') ->
  ready_inv result indegree' ready' /\
  forall p n, indegree !! p = Some n -> indegree' !! p = Some (n - count p ds)%nat.
Proof.
  revert indegree ready. induction ds as [|d ds IH]; intros indegree ready Hinv Hf Hcount; cbn [fold_left].
  { intros [= <- <-]. split; [done|]. intros p n Hp. unfold count. simpl. by rewrite Nat.sub_0_r. }
  destruct (release (indegree, ready) d) as [ind1 ready1] eqn:Er.
  destruct (Hcount d) as (n & Hn & Hle); [set_solver|].
  assert (count d (d :: ds) = S (count d ds)) as Hcd by (unfold count; simpl; by rewrite str_eqb_refl).
  rewrite Hcd in Hle. destruct n as [|n]; [lia|].
  destruct (Hf d) as [Hdf Hdr]; [set_solver|].
  destruct (release_inv result d n indegree ready ind1 ready1) as [Hinv1 ->]; [done..|].
  assert (forall p, p <> d -> count p (d :: ds) = count p ds) as Hcne
    by (intros p Hp; unfold count; simpl; by rewrite str_eqb_ne).
  intros Hfold. destruct (IH (<[d:=n]> indegree) ready1 Hinv1) as [Hfinal Hind]; [set_solver| |done|].
  { intros p Hp. destruct (decide (p = d)) as [->|Hne].
    - exists n. rewrite lookup_insert_eq. split; [done|lia].
    - rewrite lookup_insert_ne by done. destruct (Hcount p) as (m & Hm & Hle'); [set_solver|].
      exists m. split; [done|]. by rewrite <- Hcne. }
  split; [done|]. intros p m Hm. destruct (decide (p = d)) as [->|Hne].
  - rewrite (Hind d n) by apply lookup_insert_eq. f_equal. simplify_eq. lia.
  - rewrite (Hind p m) by (by rewrite lookup_insert_ne). by rewrite Hcne.
Qed.

(** The state between two placements. *)
Record kahn_inv (ready : list nat) (indegree : gmap pystr nat) (result : list pystr) : Prop := {
  ki_ready : ready_inv result indegree ready;
  ki_nodup : NoDup result;
  ki_fields : result ⊆ fields;
  ki_indegree : forall p, p ∈ fields -> indegree !! p = Some (missing result p);
  ki_before : forall k p, result !! k = Some p -> forall d, d ∈ deps p -> d ∈ take k result;
  ki_lowest : lowest_first result
}.

Lemma dependents_elem b p : p ∈ dependents b <-> p ∈ fields /\ b ∈ deps p.
Proof.
  unfold dependents. rewrite list_elem_of_In, in_concat. setoid_rewrite in_map_iff. split.
  - intros (l & (q & <- & Hq) & Hp). apply in_map_iff in Hp as (d & <- & Hd).
    apply filter_In in Hd as [Hd Heq]. apply bool_decide_eq_true in Heq as <-.
    by rewrite !list_elem_of_In.
  - rewrite !list_elem_of_In. intros [Hp Hb]. eexists. split; [by exists p|].
    apply in_map_iff. exists b. split; [done|]. apply filter_In. split; [done|]. apply str_eqb_refl.
Qed.

Lemma kahn_inv_step i rest indegree result indegree' ready' :
  kahn_inv (i :: rest) indegree result ->
  fold_left release (dependents (nth i fields [])) (indegree, rest) = (indegree', ready') ->
  kahn_inv ready' indegree' (result ++ [nth i fields []]) /\ nth i fields [] ∈ fields /\ nth i fields [] ∉ result.
Proof.
  intros [[Hinc Hr] Hnd Hsub Hind Hbef Hlow] Hfold.
  destruct (proj1 (Hr i)) as (c & Hc & Hcr & Hc0); [set_solver|].
  assert (nth i fields [] = c) as Hnth by (by apply nth_lookup_Some). rewrite Hnth in *. clear Hnth.
  assert (c ∈ fields) as Hcf by (by eapply list_elem_of_lookup_2).
  pose proof (Hind c Hcf) as Hmiss. rewrite Hc0 in Hmiss. apply Some_inj in Hmiss. symmetry in Hmiss.
  rewrite missing_zero in Hmiss.
  assert (forall p, p ∈ dependents c -> p ∉ result ++ [c]) as Hdep.
  { intros p Hp Hin. apply dependents_elem in Hp as [Hpf Hcd].
    apply elem_of_app in Hin as [Hin|Hin%list_elem_of_singleton].
    - apply list_elem_of_lookup in Hin as (k & Hk). apply Hcr.
      specialize (Hbef k p Hk c Hcd). apply elem_of_take in Hbef as (j & Hj & _).
      by eapply list_elem_of_lookup_2.
    - subst. by destruct (deps_known c c). }
  destruct (release_all (result ++ [c]) (dependents c) indegree rest indegree' ready') as [Hready' Hind'].
  - split; [apply Hinc|]. intros j. split.
    + intros Hj. destruct (proj1 (Hr j)) as (p & Hp & Hpr & Hp0); [set_solver|]. exists p.
      split_and!; try done. rewrite elem_of_app, list_elem_of_singleton. intros [|Hpc]; [done|]. subst p.
      apply position_of in Hc, Hp. destruct Hinc as [Hinc _]. specialize (Hinc j Hj). lia.
    + intros (p & Hp & Hpr & Hp0). apply not_elem_of_app in Hpr as [Hpr1 Hpr2]. rewrite list_elem_of_singleton in Hpr2.
      assert (j ∈ i :: rest) as Hin by (apply Hr; by exists p).
      apply elem_of_cons in Hin as [->|]; [congruence|done].
  - intros p Hp. split; [apply dependents_elem in Hp; tauto|by apply Hdep].
  - intros p Hp. apply dependents_elem in Hp as [Hpf _]. exists (missing result p).
    split; [by apply Hind|]. rewrite count_dependents, (missing_snoc result c) by done. lia.
  - exact Hfold.
  - split; [|by split]. constructor; [done|..].
    + apply NoDup_app. split_and!; [done|set_solver|apply NoDup_singleton].
    + set_solver.
    + intros p Hp. rewrite (Hind' p _ (Hind p Hp)). f_equal.
      rewrite count_dependents, (missing_snoc result c) by done. lia.
    + intros k p Hk d Hd. apply lookup_app_Some in Hk as [Hk|[Hle Hk]].
      * rewrite take_app_le by (apply Nat.lt_le_incl; by eapply lookup_lt_Some). by eapply Hbef.
      * apply list_lookup_singleton_Some in Hk as [Hk <-].
        rewrite take_app_ge, elem_of_app by done. left. by apply Hmiss.
    + intros k p q Hk Hq Hqn Hqd. apply lookup_app_Some in Hk as [Hk|[Hle Hk]].
      * rewrite take_app_le in Hqn, Hqd by (apply Nat.lt_le_incl; by eapply lookup_lt_Some). by eapply Hlow.
      * apply list_lookup_singleton_Some in Hk as [Hk <-].
        assert (k = length result) as -> by lia. rewrite take_app_length in Hqn, Hqd.
        rewrite (position_of _ _ Hc).
        assert (position q ∈ i :: rest) as Hin.
        { apply Hr. exists q. split_and!; [by apply position_lookup|done|].
          rewrite Hind by done. f_equal. by apply missing_zero. }
        destruct Hinc as [Hinc _]. apply elem_of_cons in Hin as [->|Hin]; [done|]. specialize (Hinc _ Hin). lia.
Qed.

Lemma heapify_spec l : NoDup l -> increasing (heapify l) /\ forall i, i ∈ heapify l <-> i ∈ l.
Proof.
  unfold heapify. induction 1 as [|x l Hx _ [Hi He]]; simpl; [by split|].
  split; [apply heappush_increasing; [by rewrite He|done]|].
  intros i. rewrite heappush_elem, He. set_solver.
Qed.

Lemma kahn_inv_initial : kahn_inv initial_ready indegree0 [].
Proof.
  assert (forall p, p ∈ fields -> indegree0 !! p = Some (length (deps p))) as Hind.
  { intros p Hp. unfold indegree0. apply elem_of_list_to_map_1.
    - rewrite <- list_fmap_compose. by rewrite list_fmap_id.
    - apply list_elem_of_fmap. eauto. }
  constructor; try done.
  - assert (NoDup (map position (List.filter (fun p => (length (deps p) =? 0)%nat) fields))) as Hnd.
    { apply NoDup_fmap_2_strong.
      - intros p q Hp Hq Heq. apply list_elem_of_In, filter_In in Hp as [Hp _], Hq as [Hq _].
        apply list_elem_of_In in Hp, Hq. apply position_lookup in Hp, Hq. congruence.
      - apply NoDup_ListNoDup. apply List.NoDup_filter. by apply NoDup_ListNoDup. }
    destruct (heapify_spec _ Hnd) as [Hinc He]. split; [done|]. intros i. unfold initial_ready. rewrite He.
    rewrite list_elem_of_In, in_map_iff. setoid_rewrite filter_In. setoid_rewrite Nat.eqb_eq.
    setoid_rewrite <- list_elem_of_In. split.
    + intros (p & <- & Hp & Hz). exists p. split_and!; [by apply position_lookup|set_solver|].
      rewrite Hind by done. by rewrite Hz.
    + intros (p & Hp & _ & Hz). assert (p ∈ fields) as Hpf by (by eapply list_elem_of_lookup_2).
      exists p. rewrite Hind in Hz by done. split_and!; [by apply position_of|done|congruence].
  - constructor.
  - set_solver.
  - intros p Hp. rewrite missing_nil. auto.
Qed.

(** The fuel is enough: a placement per field. *)
Lemma kahn_run fuel ready indegree result :
  kahn_inv ready indegree result -> (length fields < length result + fuel)%nat ->
  exists out ind, kahn fuel ready indegree result = Some out /\ kahn_inv [] ind out.
Proof.
  revert ready indegree result. induction fuel as [|fuel IH]; intros ready indegree result Hinv Hlen.
  - exfalso. assert (length result <= length fields)%nat; [|lia].
    apply submseteq_length, NoDup_submseteq; apply Hinv.
  - cbn [kahn]. destruct ready as [|i rest]; [by eexists _, _|].
    destruct (fold_left release _ _) as [ind' ready'] eqn:E.
    destruct (kahn_inv_step _ _ _ _ _ _ Hinv E) as [Hinv' _].
    apply IH; [done|]. rewrite length_app. simpl. lia.
Qed.

Lemma topological_order_cases :
  exists result ind, kahn_inv [] ind result /\
    ((length result = length fields /\ topological_order = Ok result) \/
     ((length result < length fields)%nat /\ is_ok topological_order = false /\
      forall e, topological_order = Raise e -> is_compile_error e = true)).
Proof.
  destruct (kahn_run (S (length fields)) _ _ _ kahn_inv_initial) as (out & ind & Hk & Hinv); [simpl; lia|].
  exists out, ind. split; [done|]. unfold topological_order. rewrite Hk.
  assert (length out <= length fields)%nat.
  { apply submseteq_length, NoDup_submseteq; apply Hinv. }
  destruct (Nat.eqb_spec (length out) (length fields)); [by left|right].
  split_and!; [lia|done|]. by intros e [= <-].
Qed.

Lemma topological_order_Ok ord :
  topological_order = Ok ord -> topo_sorted ord /\ lowest_first ord.
Proof.
  intros Hok. destruct topological_order_cases as (result & ind & Hinv & [[Hlen E]|(_ & E & _)]);
    rewrite Hok in E; [simplify_eq|done].
  split; [|apply Hinv]. split; [|apply Hinv].
  apply submseteq_length_Permutation; [apply NoDup_submseteq; apply Hinv|lia].
Qed.

(** A form with no order has a cycle: the fields that were never placed. *)
Lemma topological_order_cyclic :
  is_ok topological_order = false -> exists C, cyclic C.
Proof.
  intros Hno. destruct topological_order_cases as (result & ind & Hinv & [[_ E]|(Hlen & _ & _)]);
    [by rewrite E in Hno|].
  exists (filter (fun p => p ∉ result) fields). destruct Hinv as [[_ Hr] Hnd Hsub Hind _ _]. split_and!.
  - intros Hnil. assert (fields ⊆ result) as Hall.
    { intros p Hp. destruct (decide (p ∈ result)); [done|]. exfalso.
      assert (p ∈ filter (fun p => p ∉ result) fields) as Hin by (by apply list_elem_of_filter).
      rewrite Hnil in Hin. set_solver. }
    assert (length fields <= length result)%nat; [|lia].
    by apply submseteq_length, NoDup_submseteq.
  - intros p Hp. by apply list_elem_of_filter in Hp as [_ ?].
  - intros p [Hpr Hpf]%list_elem_of_filter.
    destruct (decide (Forall (fun d => d ∈ result) (deps p))) as [Hall|Hsome].
    + exfalso. rewrite Forall_forall in Hall. assert (position p ∈ ([] : list nat)) as Hin; [|set_solver].
      apply Hr. exists p. split_and!; [by apply position_lookup|done|].
      rewrite Hind by done. f_equal. by apply missing_zero.
    + apply not_Forall_Exists in Hsome; [|apply _]. apply Exists_exists in Hsome as (d & Hd & Hdr).
      exists d. split; [done|]. apply list_elem_of_filter. split; [done|]. by apply (deps_known p).
Qed.

Lemma cyclic_no_order C ord : cyclic C -> ~ topo_sorted ord.
Proof.
  intros (Hne & Hsub & Hc) [Hperm Hbef].
  assert (forall k p, ord !! k = Some p -> p ∉ C) as Hnone.
  { intros k. induction (Nat.lt_wf_0 k) as [k _ IH]. intros p Hk Hp.
    destruct (Hc p Hp) as (d & Hd & HdC). specialize (Hbef k p Hk d Hd).
    apply list_elem_of_lookup in Hbef as (j & Hj). apply lookup_take_Some in Hj as [Hj Hlt].
    by apply (IH j Hlt d Hj). }
  destruct C as [|p C]; [done|]. assert (p ∈ ord) as Hp by (rewrite Hperm; set_solver).
  apply list_elem_of_lookup in Hp as (k & Hk). apply (Hnone k p Hk). set_solver.
Qed.

End Topo.
