(* ===== verification/Compile.v ===== *)
(** * The form compiler: [CompiledForm] of form_engine/runtime.py

    [check_document], the walk that registers fields and containers, the
    passes that run once every node is known, the dependency order and the
    lint.  The compiled form is what the runtime, the screens and the publish
    gate read. *)

From S2P Require Import Prelude PyStr PyNum PyDate Value Expr Expression ExpressionFacts Datasets Text.
From S2P Require Import Document Topo.

(** ** The compiled form *)

Record cfield := CompiledField {
  cf_id : pystr;
  cf_node : odict value;
  cf_data_type : pystr;
  cf_depends_on : gset pystr;
  cf_ancestors : list pystr;
  cf_repeat : option pystr;
  cf_choice_query : option choice_query;
  cf_rows_query : option rows_query
}.

(** The lint's findings; the wording is not modelled. *)
Inductive warning :=
| WUnfilledSlots (node_id key : pystr) (slots : list N)
| WMissingTranslation (field_id : pystr) (languages : list pystr)
| WDecimalEquality (field_id : pystr)
| WUnreachable (field_id : pystr)
| WRowsWithoutSummary (field_id repeat : pystr).

Record cform := CompiledForm {
  f_ir : odict value;
  f_fields : odict cfield;
  f_containers : odict (odict value);
  f_container_children : odict (list node);
  f_container_ancestors : odict (list pystr);
  f_repeats : odict (odict value);
  f_container_expr_deps : odict (odict (gset pystr));
  f_warnings : list warning;
  f_order : list pystr;
  f_topo_order : list pystr
}.

Definition set_fields (f : cform) (fields : odict cfield) : cform :=
  CompiledForm (f_ir f) fields (f_containers f) (f_container_children f) (f_container_ancestors f)
    (f_repeats f) (f_container_expr_deps f) (f_warnings f) (f_order f) (f_topo_order f).
Definition warn (f : cform) (w : warning) : cform :=
  CompiledForm (f_ir f) (f_fields f) (f_containers f) (f_container_children f) (f_container_ancestors f)
    (f_repeats f) (f_container_expr_deps f) (f_warnings f ++ [w]) (f_order f) (f_topo_order f).

Definition err {A} (what : string) (about : list pystr) : res A := Raise (CompileError what about).

(** [ID_PATTERN.match(s)]: [^[a-z][a-z0-9_]*$], where [$] also matches before
    one trailing newline. *)
Definition is_lower (c : N) : bool := bool_decide (97 <= c <= 122)%N.
Definition id_char (c : N) : bool :=
  is_lower c || bool_decide (48 <= c <= 57)%N || bool_decide (c = 95%N).
Definition id_body (s : pystr) : bool :=
  match s with c :: r => is_lower c && forallb id_char r | [] => false end.
Definition id_pattern (s : pystr) : bool :=
  id_body s || (match reverse s with c :: r => bool_decide (c = 10%N) && id_body (reverse r) | [] => false end).

(** ** [_walk]: every node in document order, with its ancestors' ids *)

Fixpoint walk_node (ancestors : list pystr) (n : node) : list (node * list pystr) :=
  match n with
  | Node a c =>
      (n, ancestors) ::
      (if bool_decide (atext a "type" ∈ [lit "group"; lit "repeat"])
       then concat (map (walk_node (ancestors ++ [atext a "id"])) c)
       else [])
  end.

Definition walk (nodes : list node) (ancestors : list pystr) : list (node * list pystr) :=
  concat (map (walk_node ancestors) nodes).

(** ** [_check_row_source] *)

Definition own_questions (n : node) : list pystr :=
  map (fun na => node_id na.1)
    (List.filter (fun na => str_eqb (node_type na.1) "question") (walk (children n) [])).

Definition check_row_source (n : node) : res unit :=
  let repeat_id := node_id n in
  let source := vget (attrs n) "rowSource" in
  if is_null source then Ok tt
  else if negb (is_null (vget (attrs n) "countExpr")) then
    err "both countExpr and rowSource" [repeat_id]
  else
    let kind := vfield source "kind" in
    if py_eq kind (VStr "dataset") then err "rowSource kind 'dataset'" [repeat_id]
    else if negb (py_eq kind (VStr "inline")) then err "unknown rowSource kind" [repeat_id]
    else
      foldM (fun _ (qc : pystr * value) =>
        let '(question_id, column) := qc in
        if negb (bool_decide (question_id ∈ own_questions n)) then
          err "binds a question that is not inside it" [repeat_id; question_id]
        else if py_eq column (VStr "label") then err "binds the row's label" [repeat_id; question_id]
        else if negb (py_eq column (VStr "value")) then err "an inline row has only 'value'" [repeat_id; question_id]
        else Ok tt) tt (vdict (vfield source "bind")).

(** ** What a node reads *)

(** [collect_refs(expr)] guarded by [isinstance(expr, dict)]. *)
Definition refs_of (v : value) : gset pystr := collect_refs (expr_of v).

Definition arg_refs (a : odict value) (key : pystr) : gset pystr :=
  ⋃ (map refs_of (vlist (vget a key))).

(** The branch of [_compile] that records what a repeat's own expressions
    read, per key. *)
Definition repeat_expr_deps (a : odict value) : odict (gset pystr) :=
  let count := refs_of (vget a "countExpr") in
  let summary := arg_refs a "summaryLabelArgs" in
  (if bool_decide (count = ∅) then [] else [(lit "countExpr", count)]) ++
  (if bool_decide (summary = ∅) then [] else [(lit "summaryLabelArgs", summary)]).

Definition FIELD_EXPRESSIONS : list pystr :=
  [lit "relevant"; lit "constraint"; lit "calculate"; lit "required"; lit "readOnly"; lit "default"].

(** A field's own expressions, its text arguments and its ancestors'
    relevance. *)
Definition field_expr_deps (containers : odict (odict value)) (a : odict value) (ancestors : list pystr)
    : gset pystr :=
  ⋃ (map (fun k => refs_of (vget a k)) FIELD_EXPRESSIONS) ∪
  arg_refs a "labelArgs" ∪ arg_refs a "constraintMessageArgs" ∪
  ⋃ (map (fun anc => match dget containers anc with
                     | Some c => refs_of (vget c "relevant")
                     | None => ∅
                     end) ancestors).

(** A rows filter reads the answering scope, and through [$row.] the answers
    of the candidate. *)
Definition rows_filter_deps (q : rows_query) : gset pystr :=
  match rq_filter q with
  | None => ∅
  | Some f => refs_of f ∪ row_columns (expr_of f)
  end.

(** A dataset list reads what its selector and its residual read. *)
Definition dataset_filter_deps (q : choice_query) : gset pystr :=
  ⋃ (map refs_of (dvalues (cq_selector q))) ∪
  match cq_residual q with Some r => refs_of r | None => ∅ end.

Definition opt_deps {A} (f : A -> gset pystr) (o : option A) : gset pystr :=
  match o with Some a => f a | None => ∅ end.

(** ** [_compile]: one node of the walk *)

Definition enclosing_repeats (f : cform) (ancestors : list pystr) : list pystr :=
  List.filter (fun a => dhas (f_repeats f) a) ancestors.

(** A container joins [containers] with its ancestor chain. *)
Definition add_container (f : cform) (n : node) (ancestors : list pystr) : cform :=
  let i := node_id n in
  CompiledForm (f_ir f) (f_fields f) (dset (f_containers f) i (attrs n))
    (dset (f_container_children f) i (children n)) (dset (f_container_ancestors f) i ancestors)
    (f_repeats f) (f_container_expr_deps f) (f_warnings f) (f_order f) (f_topo_order f).

Definition field_list_ancestor (f : cform) (ancestors : list pystr) : option pystr :=
  List.find (fun anc => match dget (f_containers f) anc with
                        | Some c => py_eq (vget c "appearance") (VStr "field-list")
                        | None => false
                        end) ancestors.

Definition compile_repeat (f : cform) (n : node) (ancestors : list pystr) : res cform :=
  let i := node_id n in
  match enclosing_repeats f ancestors with
  | _ :: _ => err "nested repeats are not supported (repeat)" [i]
  | [] =>
      match field_list_ancestor f ancestors with
      | Some anc => err "a repeat cannot appear inside a field-list group" [i; anc]
      | None =>
          _ ← check_row_source n;
          let deps := repeat_expr_deps (attrs n) in
          Ok (CompiledForm (f_ir f) (f_fields f) (dset (f_containers f) i (attrs n))
                (dset (f_container_children f) i (children n))
                (dset (f_container_ancestors f) i ancestors) (dset (f_repeats f) i (attrs n))
                (match deps with [] => f_container_expr_deps f
                               | _ => dset (f_container_expr_deps f) i deps end)
                (f_warnings f) (f_order f) (f_topo_order f))
      end
  end.

Definition compile_question (f : cform) (n : node) (ancestors : list pystr) : res cform :=
  let i := node_id n in
  let a := attrs n in
  let enclosing := enclosing_repeats f ancestors in
  let choices := vget a "choices" in
  let query := match choices with VDict c => compile_choices c | _ => None end in
  let rows := match choices with VDict c => compile_rows_choices c | _ => None end in
  _ ← match rows with
      | Some q =>
          if rq_exclude_self q && negb (bool_decide (rq_repeat q ∈ enclosing))
          then err "choices.excludeSelf outside its repeat" [i; rq_repeat q] else Ok tt
      | None => Ok tt
      end;
  let deps := field_expr_deps (f_containers f) a ancestors ∪
              opt_deps rows_filter_deps rows ∪ opt_deps dataset_filter_deps query in
  let cf := CompiledField i a (atext a "dataType") deps ancestors (head enclosing) query rows in
  Ok (CompiledForm (f_ir f) (dset (f_fields f) i cf) (f_containers f) (f_container_children f)
        (f_container_ancestors f) (f_repeats f) (f_container_expr_deps f) (f_warnings f)
        (f_order f ++ [i]) (f_topo_order f)).

Definition compile_node (st : gset pystr * cform) (na : node * list pystr) : res (gset pystr * cform) :=
  let '(seen, f) := st in
  let '(n, ancestors) := na in
  let i := node_id n in
  if negb (id_pattern i) then err "invalid id format" [i]
  else if bool_decide (i ∈ seen) then err "duplicate id" [i]
  else
    let seen := {[ i ]} ∪ seen in
    if (1 <? length (enclosing_repeats f ancestors))%nat
    then err "nested repeats are not supported (field)" [i]
    else if str_eqb (node_type n) "repeat" then f ← compile_repeat f n ancestors; Ok (seen, f)
    else if str_eqb (node_type n) "group" then Ok (seen, add_container f n ancestors)
    else f ← compile_question f n ancestors; Ok (seen, f).

(** ** The passes after the walk *)

(** [_link_rows_choices]: the repeat exists, and its option labels are read. *)
Definition link_field (f : cform) (cf : cfield) : res cfield :=
  match cf_rows_query cf with
  | None => Ok cf
  | Some q =>
      if negb (dhas (f_repeats f) (rq_repeat q))
      then err "choices name a repeat that is not one" [cf_id cf; rq_repeat q]
      else
        let summary := default [] (dget (f_container_expr_deps f) (rq_repeat q)) in
        let more := default ∅ (dget summary "summaryLabelArgs") in
        Ok (CompiledField (cf_id cf) (cf_node cf) (cf_data_type cf) (cf_depends_on cf ∪ more)
              (cf_ancestors cf) (cf_repeat cf) (cf_choice_query cf) (cf_rows_query cf))
  end.

Definition link_rows_choices (f : cform) : res cform :=
  fields ← mapR (fun kf => cf ← link_field f kf.2; Ok (kf.1, cf)) (f_fields f);
  Ok (set_fields f fields).

(** The text templates of a node, in every language. *)
Definition templates (a : odict value) (key : pystr) : list (pystr * pystr) :=
  omap (fun lv => match lv.2 with VStr t => Some (lv.1, t) | _ => None end) (vdict (vget a key)).

Definition unfilled (t : pystr) (arg_count : nat) : list N :=
  List.filter (fun i => (N.of_nat arg_count <=? i)%N) (slot_indices t).

Definition warn_unfilled_slots (f : cform) (node_id key : pystr) (a : odict value) (arg_count : nat) : cform :=
  match concat (map (fun lt => unfilled lt.2 arg_count) (templates a key)) with
  | [] => f
  | slots => warn f (WUnfilledSlots node_id key slots)
  end.

(** One template key of one node: 7.1's rules. *)
Definition check_text (f : cform) (node_id : pystr) (a : odict value) (key args_key : pystr) : res cform :=
  match text_args a args_key with
  | [] => Ok (warn_unfilled_slots f node_id key a 0)
  | args =>
      if existsb (fun lt => match unfilled lt.2 (length args) with [] => false | _ => true end) (templates a key)
      then err "a slot has no argument" [node_id; key]
      else if existsb (fun e => existsb (fun p => startswith p ROW_PREFIX) (elements (paths_of (expr_of e)))) args
      then err "a label has no candidate row" [node_id; args_key]
      else Ok f
  end.

Definition check_interpolation (f : cform) : res cform :=
  f1 ← foldM (fun g (kf : pystr * cfield) =>
         g ← check_text g kf.1 (cf_node kf.2) "label" "labelArgs";
         check_text g kf.1 (cf_node kf.2) "constraintMessage" "constraintMessageArgs") f (f_fields f);
  foldM (fun g (kr : pystr * odict value) =>
         check_text g kr.1 kr.2 "summaryLabel" "summaryLabelArgs") f1 (f_repeats f).

(** [dep.split("[")[0].split(".")[0]] *)
Definition base_of (dep : pystr) : pystr := before "." (before "[" dep).

Definition check_references (f : cform) : res unit :=
  foldM (fun _ (kf : pystr * cfield) =>
    if existsb (fun dep => negb (dhas (f_fields f) (base_of dep) || dhas (f_containers f) (base_of dep)))
         (elements (cf_depends_on kf.2))
    then err "unresolvable reference" [kf.1] else Ok tt) tt (f_fields f).

(** The fields a field must come after, one per reference. *)
Definition field_deps (f : cform) (path : pystr) : list pystr :=
  match dget (f_fields f) path with
  | None => []
  | Some cf =>
      List.filter (fun b => dhas (f_fields f) b && negb (str_eqb b path))
        (map base_of (elements (cf_depends_on cf)))
  end.

Section WithEnv.
Context `{PyEnv}.

(** [_lint], one field *)
Definition lint_field (f : cform) (kf : pystr * cfield) : res cform :=
  let '(i, cf) := kf in
  let a := cf_node cf in
  let languages := map vtext (vlist (vget (f_ir f) "languages")) in
  let missing := List.filter (fun l => negb (dhas (vdict (vget a "label")) l)) languages in
  let f := match missing with [] => f | _ => warn f (WMissingTranslation i missing) end in
  let f := if str_eqb (cf_data_type cf) "decimal" && has_op (vget a "constraint") "eq"
           then warn f (WDecimalEquality i) else f in
  never ← statically_false (expr_of (vget a "relevant"));
  let f := if (never : bool) then warn f (WUnreachable i) else f in
  Ok match cf_rows_query cf with
     | Some q =>
         if truthy (vget (default [] (dget (f_repeats f) (rq_repeat q))) "summaryLabel") then f
         else warn f (WRowsWithoutSummary i (rq_repeat q))
     | None => f
     end.

Definition empty_form (ir : odict value) : cform := CompiledForm ir [] [] [] [] [] [] [] [] [].

Definition set_topo (f : cform) (ord : list pystr) : cform :=
  CompiledForm (f_ir f) (f_fields f) (f_containers f) (f_container_children f) (f_container_ancestors f)
    (f_repeats f) (f_container_expr_deps f) (f_warnings f) (f_order f) ord.

Definition form_topological_order (f : cform) : res (list pystr) :=
  topological_order (f_order f) (field_deps f).

(** [CompiledForm(ir)] *)
Definition compile (ir : value) : res cform :=
  _ ← check_document ir;
  let doc := node_of ir in
  st ← foldM compile_node (∅, empty_form (attrs doc)) (walk (children doc) []);
  f ← link_rows_choices st.2;
  f ← check_interpolation f;
  _ ← check_references f;
  ord ← form_topological_order f;
  foldM lint_field (set_topo f ord) (f_fields f).

End WithEnv.
