(* ===== verification/CompileFacts.v ===== *)
(** * What a compiled form guarantees

    The invariant of the walk, and what the later passes add to it: unique
    well-formed ids, at most one enclosing repeat, a dependency set that
    covers every expression of a field, closed references, filled template
    slots and a topological order. *)

From S2P Require Import Prelude PyStr PyNum PyDate Value Expr Expression ExpressionFacts Datasets Text.
From S2P Require Import Document Topo Compile.

(** ** The walk visits a container before what it holds *)

Definition is_container (n : node) : bool := bool_decide (node_type n ∈ [lit "group"; lit "repeat"]).

Fixpoint ordered_walk (known : list pystr) (l : list (node * list pystr)) : Prop :=
  match l with
  | [] => True
  | (n, a) :: r =>
      a ⊆ known /\ ordered_walk (if is_container n then known ++ [node_id n] else known) r
  end.

Lemma ordered_walk_mono known known' l : known ⊆ known' -> ordered_walk known l -> ordered_walk known' l.
Proof.
  revert known known'. induction l as [|[n a] l IH]; intros known known' Hk; cbn [ordered_walk]; [done|].
  intros [Ha Hl]. split; [set_solver|]. eapply IH; [|exact Hl]. destruct (is_container n); set_solver.
Qed.

Lemma ordered_walk_app known l1 l2 :
  ordered_walk known l1 -> ordered_walk known l2 -> ordered_walk known (l1 ++ l2).
Proof.
  revert known. induction l1 as [|[n a] l1 IH]; intros known; cbn [app ordered_walk]; [done|].
  intros [Ha H1] H2. split; [done|]. apply IH; [done|].
  eapply ordered_walk_mono; [|exact H2]. destruct (is_container n); set_solver.
Qed.

Lemma ordered_walk_concat known (f : node -> list (node * list pystr)) c :
  Forall (fun n => ordered_walk known (f n)) c -> ordered_walk known (concat (map f c)).
Proof. induction 1; cbn [map concat]; [done|]. by apply ordered_walk_app. Qed.

Lemma walk_node_ordered n : forall known anc, anc ⊆ known -> ordered_walk known (walk_node anc n).
Proof.
  induction n as [a c IH] using node_ind'. intros known anc Hanc. cbn [walk_node ordered_walk].
  split; [done|]. unfold is_container, node_type, node_id. cbn [attrs].
  destruct (bool_decide (atext a "type" ∈ [lit "group"; lit "repeat"])) eqn:E; [|done].
  apply ordered_walk_concat. eapply Forall_impl; [exact IH|].
  intros n Hn. apply Hn. set_solver.
Qed.

Lemma walk_ordered nodes : ordered_walk [] (walk nodes []).
Proof. apply ordered_walk_concat, Forall_true. intros n. apply walk_node_ordered. set_solver. Qed.

(** ** The invariant of [compile_node] *)

(** What a registered field satisfies, in the form it is registered in. *)
Record field_inv (f : cform) (i : pystr) (cf : cfield) : Prop := {
  fv_id : cf_id cf = i;
  fv_pattern : id_pattern i = true;
  fv_type : cf_data_type cf = atext (cf_node cf) "dataType";
  fv_ancestors : cf_ancestors cf ⊆ dkeys (f_containers f);
  fv_one_repeat : (length (enclosing_repeats f (cf_ancestors cf)) <= 1)%nat;
  fv_repeat : cf_repeat cf = head (enclosing_repeats f (cf_ancestors cf));
  fv_query : cf_choice_query cf =
    match vget (cf_node cf) "choices" with VDict c => compile_choices c | _ => None end;
  fv_rows : cf_rows_query cf =
    match vget (cf_node cf) "choices" with VDict c => compile_rows_choices c | _ => None end;
  fv_self : forall q, cf_rows_query cf = Some q -> rq_exclude_self q = true ->
    cf_repeat cf = Some (rq_repeat q);
  fv_deps : field_expr_deps (f_containers f) (cf_node cf) (cf_ancestors cf) ∪
            opt_deps rows_filter_deps (cf_rows_query cf) ∪
            opt_deps dataset_filter_deps (cf_choice_query cf) ⊆ cf_depends_on cf
}.

Record form_inv (f : cform) : Prop := {
  fm_fields : NoDup (dkeys (f_fields f));
  fm_repeats : NoDup (dkeys (f_repeats f));
  fm_order : f_order f = dkeys (f_fields f);
  fm_repeat_container : dkeys (f_repeats f) ⊆ dkeys (f_containers f);
  fm_disjoint : forall i, i ∈ dkeys (f_fields f) -> i ∉ dkeys (f_containers f);
  fm_pattern : forall i, i ∈ dkeys (f_containers f) -> id_pattern i = true;
  fm_field : forall i cf, dget (f_fields f) i = Some cf -> field_inv f i cf
}.

(** The containers of [f] read the same in [f']. *)
Record extends (f f' : cform) : Prop := {
  ex_containers : forall i, i ∈ dkeys (f_containers f) -> dget (f_containers f') i = dget (f_containers f) i;
  ex_keys : dkeys (f_containers f) ⊆ dkeys (f_containers f');
  ex_repeats : forall i, i ∈ dkeys (f_containers f) -> dhas (f_repeats f') i = dhas (f_repeats f) i
}.

Lemma extends_refl f : extends f f.
Proof. by split. Qed.

Lemma enclosing_extends f f' anc :
  extends f f' -> anc ⊆ dkeys (f_containers f) -> enclosing_repeats f' anc = enclosing_repeats f anc.
Proof.
  intros He Ha. unfold enclosing_repeats. apply filter_ext_in. intros a Hin%list_elem_of_In.
  apply He. auto.
Qed.

Lemma expr_deps_extends f f' a anc :
  extends f f' -> anc ⊆ dkeys (f_containers f) ->
  field_expr_deps (f_containers f') a anc = field_expr_deps (f_containers f) a anc.
Proof.
  intros He Ha. unfold field_expr_deps. do 2 f_equal. apply map_ext_in. intros x Hx%list_elem_of_In.
  by rewrite (ex_containers _ _ He) by auto.
Qed.

Lemma field_inv_extends f f' i cf : extends f f' -> field_inv f i cf -> field_inv f' i cf.
Proof.
  intros He [? ? ? Ha H1 H2 ? ? ? Hd]. pose proof (enclosing_extends _ _ _ He Ha) as Henc.
  constructor; try done.
  - etransitivity; [exact Ha|apply He].
  - by rewrite Henc.
  - by rewrite Henc.
  - by rewrite (expr_deps_extends _ _ _ _ He Ha).
Qed.

(** Ids already used. *)
Definition seen_inv (seen : gset pystr) (f : cform) : Prop :=
  (forall i, i ∈ dkeys (f_fields f) -> i ∈ seen) /\ (forall i, i ∈ dkeys (f_containers f) -> i ∈ seen).

Lemma dget_dset_fresh {A} (d : odict A) k v i : k ∉ dkeys d -> i ∈ dkeys d -> dget (dset d k v) i = dget d i.
Proof. intros Hk Hi. apply dget_dset_ne. by intros ->. Qed.

(** Adding a container, and possibly a repeat, under a fresh id. *)
Lemma add_container_inv f f' i (c : odict value) :
  form_inv f -> i ∉ dkeys (f_containers f) -> i ∉ dkeys (f_fields f) -> id_pattern i = true ->
  f_fields f' = f_fields f -> f_order f' = f_order f ->
  f_containers f' = dset (f_containers f) i c ->
  (f_repeats f' = f_repeats f \/ f_repeats f' = dset (f_repeats f) i c) ->
  form_inv f' /\ extends f f'.
Proof.
  intros [Hf Hr Ho Hrc Hd Hp Hfield] Hic Hif Hpat Ef Eo Ec Er.
  assert (i ∉ dkeys (f_repeats f)) as Hir by (intros H; by apply Hic, Hrc).
  assert (extends f f') as He.
  { constructor.
    - intros j Hj. rewrite Ec. by apply dget_dset_fresh.
    - rewrite Ec. intros j Hj. apply elem_dkeys_dset. by right.
    - intros j Hj. destruct Er as [-> | ->]; [done|].
      unfold dhas. rewrite dget_dset_ne; [done|]. by intros ->. }
  split; [|done]. constructor; rewrite ?Ef, ?Eo, ?Ec.
  - done.
  - destruct Er as [-> | ->]; [done|]. by apply NoDup_dkeys_dset.
  - done.
  - intros j Hj. apply elem_dkeys_dset. destruct Er as [E|E]; rewrite E in Hj; [auto|].
    apply elem_dkeys_dset in Hj as [->|Hj]; auto.
  - intros j Hj Hc. apply elem_dkeys_dset in Hc as [->|Hc]; [done|]. by apply (Hd j).
  - intros j Hj. apply elem_dkeys_dset in Hj as [->|Hj]; auto.
  - intros j cf Hj. eapply field_inv_extends; [done|]. by apply Hfield.
Qed.

Lemma compile_repeat_inv f n anc f' :
  form_inv f -> node_id n ∉ dkeys (f_containers f) -> node_id n ∉ dkeys (f_fields f) ->
  id_pattern (node_id n) = true -> compile_repeat f n anc = Ok f' ->
  form_inv f' /\ extends f f' /\ f_fields f' = f_fields f /\
  dkeys (f_containers f') ⊆ node_id n :: dkeys (f_containers f) /\ node_id n ∈ dkeys (f_containers f').
Proof.
  intros Hf Hc Hi Hpat. unfold compile_repeat. destruct (enclosing_repeats f anc); [|done].
  destruct (field_list_ancestor f anc); [done|].
  destruct (check_row_source n); [|done]. cbn [mbind res_bind]. intros [= <-].
  match goal with |- form_inv ?g /\ _ =>
    destruct (add_container_inv f g (node_id n) (attrs n) Hf Hc Hi Hpat) as [Hf' He]; [done..|by right|] end.
  split_and!; try done; cbn [f_containers].
  - intros j Hj. apply elem_dkeys_dset in Hj. set_solver.
  - apply elem_dkeys_dset. by left.
Qed.

Lemma compile_group_inv f n anc :
  form_inv f -> node_id n ∉ dkeys (f_containers f) -> node_id n ∉ dkeys (f_fields f) ->
  id_pattern (node_id n) = true -> let f' := add_container f n anc in
  form_inv f' /\ extends f f' /\ f_fields f' = f_fields f /\
  dkeys (f_containers f') ⊆ node_id n :: dkeys (f_containers f) /\ node_id n ∈ dkeys (f_containers f').
Proof.
  intros Hf Hc Hi Hpat.
  destruct (add_container_inv f (add_container f n anc) (node_id n) (attrs n) Hf Hc Hi Hpat) as [Hf' He];
    [done..|by left|].
  split_and!; try done; cbn [f_containers add_container].
  - intros j Hj. apply elem_dkeys_dset in Hj. set_solver.
  - apply elem_dkeys_dset. by left.
Qed.

Lemma head_elem (l : list pystr) x : (length l <= 1)%nat -> x ∈ l -> head l = Some x.
Proof. destruct l as [|y [|z l]]; simpl; [set_solver| |lia]. intros _ ?%list_elem_of_singleton. by subst. Qed.

Lemma compile_question_inv f n anc f' :
  form_inv f -> node_id n ∉ dkeys (f_containers f) -> node_id n ∉ dkeys (f_fields f) ->
  id_pattern (node_id n) = true -> anc ⊆ dkeys (f_containers f) ->
  (length (enclosing_repeats f anc) <= 1)%nat ->
  compile_question f n anc = Ok f' ->
  form_inv f' /\ extends f f' /\ f_containers f' = f_containers f /\
  dkeys (f_fields f') = dkeys (f_fields f) ++ [node_id n].
Proof.
  intros [Hf Hr Ho Hrc Hd Hp Hfield] Hc Hi Hpat Hanc Hone. unfold compile_question.
  set (query := match vget (attrs n) "choices" with VDict c => compile_choices c | _ => None end).
  set (rows := match vget (attrs n) "choices" with VDict c => compile_rows_choices c | _ => None end).
  intros Hok.
  assert (forall q, rows = Some q -> rq_exclude_self q = true -> rq_repeat q ∈ enclosing_repeats f anc) as Hself.
  { intros q Hq Hx. rewrite Hq, Hx in Hok. cbn [andb] in Hok. case_bool_decide; [done|]. done. }
  match type of Hok with (?chk ≫= _) = _ => destruct chk; [|done] end. cbn [mbind res_bind] in Hok.
  injection Hok as <-. split_and!; cbn [f_fields f_containers]; [|by split|done|by apply dkeys_dset_notin].
  constructor; cbn [f_fields f_containers f_repeats f_order]; try done.
  - by apply NoDup_dkeys_dset.
  - by rewrite dkeys_dset_notin, Ho.
  - intros j Hj. apply elem_dkeys_dset in Hj as [->|Hj]; [done|auto].
  - intros j cf. rewrite dget_dset. case_decide; subst.
    + intros [= <-]. constructor; cbn [cf_id cf_data_type cf_node cf_ancestors cf_repeat cf_choice_query
        cf_rows_query cf_depends_on]; try done.
      intros q Hq Hx. apply head_elem; [exact Hone|]. by apply Hself.
    + intros Hj. eapply field_inv_extends; [|by apply Hfield]. by split.
Qed.

Lemma compile_node_inv seen f n anc seen' f' :
  form_inv f -> seen_inv seen f -> anc ⊆ dkeys (f_containers f) ->
  compile_node (seen, f) (n, anc) = Ok (seen', f') ->
  form_inv f' /\ seen_inv seen' f' /\ extends f f' /\
  (is_container n = true -> node_id n ∈ dkeys (f_containers f')).
Proof.
  intros Hf [Hsf Hsc] Hanc. unfold compile_node.
  destruct (id_pattern (node_id n)) eqn:Hpat; [|done]. cbn [negb].
  case_bool_decide as Hseen; [done|]. destruct (Nat.ltb_spec 1 (length (enclosing_repeats f anc))) as [|Hone]; [done|].
  assert (node_id n ∉ dkeys (f_containers f)) as Hic by (intros H; by apply Hseen, Hsc).
  assert (node_id n ∉ dkeys (f_fields f)) as Hif by (intros H; by apply Hseen, Hsf).
  unfold is_container. destruct (str_eqb (node_type n) "repeat") eqn:Er; [|destruct (str_eqb (node_type n) "group") eqn:Eg].
  - destruct (compile_repeat f n anc) as [f1|] eqn:E; [|done]. cbn [mbind res_bind]. intros [= <- <-].
    destruct (compile_repeat_inv _ _ _ _ Hf Hic Hif Hpat E) as (H1 & H2 & H3 & H4 & H5). split_and!; try done.
    split; intros i Hi; apply elem_of_union; [rewrite H3 in Hi; auto|].
    apply H4, elem_of_cons in Hi as [->|Hi]; [left; set_solver|auto].
  - intros [= <- <-]. destruct (compile_group_inv _ _ anc Hf Hic Hif Hpat) as (H1 & H2 & H3 & H4 & H5). split_and!; try done.
    split; intros i Hi; apply elem_of_union; [rewrite H3 in Hi; auto|].
    apply H4, elem_of_cons in Hi as [->|Hi]; [left; set_solver|auto].
  - destruct (compile_question f n anc) as [f1|] eqn:E; [|done]. cbn [mbind res_bind]. intros [= <- <-].
    destruct (compile_question_inv _ _ _ _ Hf Hic Hif Hpat Hanc Hone E) as (H1 & H2 & H3 & H4). split_and!; try done.
    + split; intros i Hi; apply elem_of_union; [|rewrite H3 in Hi; auto].
      rewrite H4 in Hi. apply elem_of_app in Hi as [Hi|Hi%list_elem_of_singleton]; [auto|left; set_solver].
    + intros Hk. apply bool_decide_eq_true in Hk. rewrite !elem_of_cons, elem_of_nil in Hk.
      destruct Hk as [Hk|[Hk|[]]]; rewrite Hk in *; by rewrite str_eqb_refl in *.
Qed.

Lemma compile_nodes_inv l : forall known seen f seen' f',
  ordered_walk known l -> known ⊆ dkeys (f_containers f) -> form_inv f -> seen_inv seen f ->
  foldM compile_node (seen, f) l = Ok (seen', f') -> form_inv f' /\ seen_inv seen' f'.
Proof.
  induction l as [|[n a] l IH]; intros known seen f seen' f' Hw Hk Hf Hs; cbn [foldM]; [by intros [= <- <-]|].
  destruct Hw as [Ha Hw]. destruct (compile_node (seen, f) (n, a)) as [[seen1 f1]|] eqn:E; [|done].
  assert (a ⊆ dkeys (f_containers f)) as Hanc by set_solver.
  destruct (compile_node_inv _ _ _ _ _ _ Hf Hs Hanc E) as (Hf1 & Hs1 & He & Hn).
  eapply IH; [exact Hw| |done|done]. pose proof (ex_keys _ _ He).
  destruct (is_container n); [specialize (Hn eq_refl)|]; set_solver.
Qed.

Lemma empty_form_inv ir : form_inv (empty_form ir) /\ seen_inv ∅ (empty_form ir).
Proof. split; [|by split; intros i ?%not_elem_of_nil]. split; cbn; try constructor; try done; set_solver. Qed.

(** ** The passes after the walk *)

(** Everything but the warnings. *)
Record same_form (f f' : cform) : Prop := {
  sm_fields : f_fields f' = f_fields f;
  sm_containers : f_containers f' = f_containers f;
  sm_repeats : f_repeats f' = f_repeats f;
  sm_order : f_order f' = f_order f;
  sm_ir : f_ir f' = f_ir f;
  sm_topo : f_topo_order f' = f_topo_order f
}.

Lemma same_form_refl f : same_form f f.
Proof. by split. Qed.

Lemma same_form_trans f g h : same_form f g -> same_form g h -> same_form f h.
Proof. intros [] []. split; congruence. Qed.

Lemma warn_same f w : same_form f (warn f w).
Proof. by split. Qed.

Create HintDb same.
#[export] Hint Resolve same_form_refl same_form_trans warn_same : same.

Lemma foldM_same {A} (step : cform -> A -> res cform) l f f' :
  (forall f a f', step f a = Ok f' -> same_form f f') -> foldM step f l = Ok f' -> same_form f f'.
Proof.
  intros Hstep. revert f. induction l as [|a l IH]; intros f; cbn [foldM]; [intros [= <-]; auto with same|].
  destruct (step f a) as [f1|] eqn:E; [|done]. intros H. eauto with same.
Qed.

Lemma form_inv_same f f' : same_form f f' -> form_inv f -> form_inv f'.
Proof.
  intros [Ef Ec Er Eo Ei Et] [? ? ? ? ? ? Hfield]. constructor; rewrite ?Ef, ?Ec, ?Er, ?Eo; try done.
  intros i cf Hi. apply Hfield in Hi. eapply field_inv_extends; [|exact Hi].
  split; rewrite ?Ec, ?Er; done.
Qed.

(** [link_rows_choices] *)
Lemma mapR_fields f l l' :
  mapR (fun kf : pystr * cfield => cf ← link_field f kf.2; Ok (kf.1, cf)) l = Ok l' ->
  dkeys l' = dkeys l /\
  forall i cf', dget l' i = Some cf' -> exists cf, dget l i = Some cf /\ link_field f cf = Ok cf'.
Proof.
  revert l'. induction l as [|[k cf] l IH]; intros l'; cbn [mapR]; [intros [= <-]; done|]. cbn [fst snd].
  destruct (link_field f cf) as [cf1|] eqn:E; [|done]. cbn [mbind res_bind].
  destruct (mapR _ l) as [l1|]; [|done]. intros [= <-]. destruct (IH l1 eq_refl) as [Hk Hg].
  split; [unfold dkeys in *; cbn; by rewrite Hk|]. intros i cf'. cbn [dget]. case_decide; subst; [|apply Hg].
  intros [= <-]. by exists cf.
Qed.

Lemma link_field_inv f cf cf' :
  link_field f cf = Ok cf' ->
  cf_id cf' = cf_id cf /\ cf_node cf' = cf_node cf /\ cf_data_type cf' = cf_data_type cf /\
  cf_ancestors cf' = cf_ancestors cf /\ cf_repeat cf' = cf_repeat cf /\
  cf_choice_query cf' = cf_choice_query cf /\ cf_rows_query cf' = cf_rows_query cf /\
  cf_depends_on cf ⊆ cf_depends_on cf' /\
  forall q, cf_rows_query cf' = Some q -> dhas (f_repeats f) (rq_repeat q) = true /\
    default ∅ (dget (default [] (dget (f_container_expr_deps f) (rq_repeat q))) "summaryLabelArgs")
      ⊆ cf_depends_on cf'.
Proof.
  unfold link_field. destruct (cf_rows_query cf) as [q|] eqn:Eq.
  - destruct (dhas (f_repeats f) (rq_repeat q)) eqn:Er; [|done]. cbn [negb]. intros [= <-].
    cbn [cf_id cf_node cf_data_type cf_ancestors cf_repeat cf_choice_query cf_rows_query cf_depends_on].
    rewrite ?Eq. split_and!; try done; [set_solver|]. intros q' [= <-]. split; [done|set_solver].
  - intros [= <-]. rewrite ?Eq. split_and!; done.
Qed.

Lemma link_inv f f' :
  form_inv f -> link_rows_choices f = Ok f' ->
  form_inv f' /\ f_container_expr_deps f' = f_container_expr_deps f /\
  forall i cf q, dget (f_fields f') i = Some cf -> cf_rows_query cf = Some q ->
    rq_repeat q ∈ dkeys (f_repeats f').
Proof.
  intros [Hf Hr Ho Hrc Hd Hp Hfield]. unfold link_rows_choices.
  destruct (mapR _ (f_fields f)) as [fields|] eqn:E; [|done]. cbn [mbind res_bind]. intros [= <-].
  apply mapR_fields in E as [Hk Hg]. split_and!; [|done|].
  - constructor; cbn [set_fields f_fields f_repeats f_order f_containers]; rewrite ?Hk; try done.
    intros i cf' Hi. destruct (Hg _ _ Hi) as (cf & Hcf & Hlink). pose proof (Hfield _ _ Hcf) as [].
    apply link_field_inv in Hlink as (E1 & E2 & E3 & E4 & E5 & E6 & E7 & E8 & E9).
    constructor; cbn [set_fields f_containers]; rewrite ?E1, ?E2, ?E3, ?E4, ?E5, ?E6, ?E7; try done. set_solver.
  - intros i cf q Hi Hq. destruct (Hg _ _ Hi) as (cf0 & _ & Hlink).
    apply link_field_inv in Hlink as (_ & _ & _ & _ & _ & _ & _ & _ & H9). apply dhas_spec. by apply (H9 q).
Qed.

(** [check_interpolation] *)
Definition slots_filled (a : odict value) (key args_key : pystr) : Prop :=
  text_args a args_key = [] \/
  forall lang t, (lang, t) ∈ templates a key -> forall i, i ∈ slot_indices t ->
    (N.to_nat i < length (text_args a args_key))%nat.

Lemma check_text_inv f i a key args_key f' :
  check_text f i a key args_key = Ok f' -> same_form f f' /\ slots_filled a key args_key.
Proof.
  unfold check_text, slots_filled. destruct (text_args a args_key) as [|e args] eqn:Ea.
  - intros [= <-]. split; [|by left]. unfold warn_unfilled_slots. destruct (concat _); auto with same.
  - destruct (existsb _ (templates a key)) eqn:Et; [done|].
    destruct (existsb _ (e :: args)); [done|]. intros [= <-]. split; [auto with same|]. right.
    intros lang t Ht j Hj. apply existsb_false in Et. rewrite Forall_forall in Et. specialize (Et _ Ht).
    cbn [snd] in Et. destruct (unfilled t (length (e :: args))) as [|x l] eqn:Eu; [|done].
    destruct (Nat.lt_ge_cases (N.to_nat j) (length (e :: args))) as [|Hge]; [done|]. exfalso.
    assert (In j (unfilled t (length (e :: args)))) as Hin; [|by rewrite Eu in Hin].
    apply filter_In. split; [by apply list_elem_of_In|]. apply N.leb_le. lia.
Qed.

Lemma check_interpolation_inv f f' :
  check_interpolation f = Ok f' ->
  same_form f f' /\
  (forall i cf, (i, cf) ∈ f_fields f ->
     slots_filled (cf_node cf) "label" "labelArgs" /\
     slots_filled (cf_node cf) "constraintMessage" "constraintMessageArgs") /\
  (forall i n, (i, n) ∈ f_repeats f -> slots_filled n "summaryLabel" "summaryLabelArgs").
Proof.
  unfold check_interpolation.
  assert (forall l g g', foldM (fun g (kf : pystr * cfield) =>
            g ← check_text g kf.1 (cf_node kf.2) "label" "labelArgs";
            check_text g kf.1 (cf_node kf.2) "constraintMessage" "constraintMessageArgs") g l = Ok g' ->
          same_form g g' /\ forall i cf, (i, cf) ∈ l ->
            slots_filled (cf_node cf) "label" "labelArgs" /\
            slots_filled (cf_node cf) "constraintMessage" "constraintMessageArgs") as H1.
  { induction l as [|[k cf] l IH]; intros g g'; cbn [foldM].
    { intros [= <-]. split; [auto with same|set_solver]. }
    cbn [fst snd]. destruct (check_text g k (cf_node cf) "label" "labelArgs") as [g1|] eqn:E1; [|done].
    cbn [mbind res_bind].
    destruct (check_text g1 k (cf_node cf) "constraintMessage" "constraintMessageArgs") as [g2|] eqn:E2; [|done].
    intros Hl. apply check_text_inv in E1 as [S1 T1], E2 as [S2 T2]. apply IH in Hl as [S3 T3].
    split; [eauto with same|]. intros i cf' [?|Hin]%elem_of_cons; [simplify_eq; done|by eapply T3]. }
  assert (forall l g g', foldM (fun g (kr : pystr * odict value) =>
            check_text g kr.1 kr.2 "summaryLabel" "summaryLabelArgs") g l = Ok g' ->
          same_form g g' /\ forall i n, (i, n) ∈ l -> slots_filled n "summaryLabel" "summaryLabelArgs") as H2.
  { induction l as [|[k n] l IH]; intros g g'; cbn [foldM].
    { intros [= <-]. split; [auto with same|set_solver]. }
    cbn [fst snd]. destruct (check_text g k n "summaryLabel" "summaryLabelArgs") as [g1|] eqn:E1; [|done].
    intros Hl. apply check_text_inv in E1 as [S1 T1]. apply IH in Hl as [S3 T3].
    split; [eauto with same|]. intros i n' [?|Hin]%elem_of_cons; [simplify_eq; done|by eapply T3]. }
  intros Hok. destruct (foldM _ f (f_fields f)) as [f1|] eqn:E1; [|done]. cbn [mbind res_bind] in Hok.
  apply H1 in E1 as [S1 T1]. apply H2 in Hok as [S2 T2].
  split_and!; [eauto with same|done|done].
Qed.

(** [check_references] *)
Lemma check_references_inv f :
  check_references f = Ok tt ->
  forall i cf, dget (f_fields f) i = Some cf -> forall dep, dep ∈ cf_depends_on cf ->
    base_of dep ∈ dkeys (f_fields f) \/ base_of dep ∈ dkeys (f_containers f).
Proof.
  unfold check_references. intros Hok i cf Hi%dget_Some_elem.
  assert (forall l u, foldM (fun _ (kf : pystr * cfield) =>
    if existsb (fun dep => negb (dhas (f_fields f) (base_of dep) || dhas (f_containers f) (base_of dep)))
         (elements (cf_depends_on kf.2))
    then err "unresolvable reference" [kf.1] else Ok tt) u l = Ok tt -> (i, cf) ∈ l ->
    forall dep, dep ∈ cf_depends_on cf -> dhas (f_fields f) (base_of dep) || dhas (f_containers f) (base_of dep) = true) as H.
  { clear Hok Hi. induction l as [|[k c] l IH]; intros u; cbn [foldM]; [set_solver|]. cbn [fst snd].
    destruct (existsb _ _) eqn:E; [done|]. intros Hl [?|Hin]%elem_of_cons; [|by eapply IH].
    simplify_eq. apply existsb_false in E. rewrite Forall_forall in E. intros dep Hd.
    apply elem_of_elements, E in Hd. by apply negb_false_iff in Hd. }
  intros dep Hd. specialize (H _ _ Hok Hi dep Hd). apply orb_true_iff in H as [H|H]; apply dhas_spec in H; auto.
Qed.

Section WithEnv.
Context `{PyEnv}.

Lemma lint_field_same f kf f' : lint_field f kf = Ok f' -> same_form f f'.
Proof.
  unfold lint_field. destruct kf as [i cf]. intros Hl.
  set (f1 := match List.filter _ _ with [] => f | _ => _ end) in Hl.
  assert (same_form f f1) as S1 by (subst f1; destruct (List.filter _ _); auto with same). clearbody f1.
  set (f2 := if str_eqb (cf_data_type cf) "decimal" && has_op (vget (cf_node cf) "constraint") "eq"
             then warn f1 (WDecimalEquality i) else f1) in Hl.
  assert (same_form f f2) as S2 by (subst f2; destruct (_ && _); eauto with same). clearbody f2. clear S1 f1.
  destruct (statically_false _) as [b|]; [|done]. cbn [mbind res_bind] in Hl. injection Hl as <-.
  assert (same_form f (if b then warn f2 (WUnreachable i) else f2)) as S3 by (destruct b; eauto with same).
  revert S3. generalize (if b then warn f2 (WUnreachable i) else f2). intros f3 S3.
  destruct (cf_rows_query cf); [|done]. destruct (truthy _); eauto with same.
Qed.

(** ** The compiled form *)

Record compiled (f : cform) : Prop := {
  cp_form : form_inv f;
  cp_references : forall i cf, dget (f_fields f) i = Some cf -> forall dep, dep ∈ cf_depends_on cf ->
    base_of dep ∈ dkeys (f_fields f) \/ base_of dep ∈ dkeys (f_containers f);
  cp_rows : forall i cf q, dget (f_fields f) i = Some cf -> cf_rows_query cf = Some q ->
    rq_repeat q ∈ dkeys (f_repeats f);
  cp_text : forall i cf, (i, cf) ∈ f_fields f ->
    slots_filled (cf_node cf) "label" "labelArgs" /\
    slots_filled (cf_node cf) "constraintMessage" "constraintMessageArgs";
  cp_summary : forall i n, (i, n) ∈ f_repeats f -> slots_filled n "summaryLabel" "summaryLabelArgs";
  cp_topo : topo_sorted (f_order f) (field_deps f) (f_topo_order f);
  cp_lowest : lowest_first (f_order f) (field_deps f) (f_topo_order f)
}.

Lemma field_deps_known f p d :
  form_inv f -> p ∈ f_order f -> d ∈ field_deps f p -> d ∈ f_order f /\ d <> p.
Proof.
  intros Hf _. unfold field_deps. destruct (dget (f_fields f) p) as [cf|]; [|set_solver].
  intros Hd%list_elem_of_In. apply filter_In in Hd as [_ Hd]. apply andb_true_iff in Hd as [Hd Hne].
  rewrite (fm_order _ Hf). split; [by apply dhas_spec|]. apply negb_true_iff, bool_decide_eq_false in Hne. done.
Qed.

Lemma field_deps_ext f g p : f_fields g = f_fields f -> field_deps g p = field_deps f p.
Proof. intros E. unfold field_deps. by rewrite E. Qed.

Lemma topo_sorted_ext fields d d' ord :
  (forall p, d p = d' p) -> topo_sorted fields d ord -> topo_sorted fields d' ord.
Proof. intros E [Hp Hb]. split; [done|]. intros k p Hk x Hx. rewrite <- E in Hx. by eapply Hb. Qed.

Lemma lowest_first_ext fields d d' ord :
  (forall p, d p = d' p) -> lowest_first fields d ord -> lowest_first fields d' ord.
Proof.
  intros E Hl k p q Hk Hq Hn Hd. eapply Hl; [done..|]. intros x Hx. apply Hd. by rewrite <- E.
Qed.

(** Every field is a node of the walk. *)
Definition from_nodes (l : list (node * list pystr)) (f : cform) : Prop :=
  forall i cf, dget (f_fields f) i = Some cf -> exists n anc, (n, anc) ∈ l /\ cf_node cf = attrs n.

Lemma compile_question_nodes l f n anc f' :
  compile_question f n anc = Ok f' -> (n, anc) ∈ l -> from_nodes l f -> from_nodes l f'.
Proof.
  unfold compile_question. destruct (match match vget (attrs n) "choices" with VDict c => compile_rows_choices c | _ => None end with
    | Some q => _ | None => _ end) as [[]|] eqn:E; [|done]. cbn [mbind res_bind]. intros [= <-] Hn Hf i cf. cbn [f_fields].
  destruct (decide (node_id n = i)) as [<-|Hne].
  - rewrite dget_dset_eq. intros [= <-]. by exists n, anc.
  - rewrite dget_dset_ne by done. apply Hf.
Qed.

Lemma compile_node_nodes l seen f n anc seen' f' :
  compile_node (seen, f) (n, anc) = Ok (seen', f') -> (n, anc) ∈ l -> from_nodes l f -> from_nodes l f'.
Proof.
  unfold compile_node. repeat (case_match; [done|]). destruct (str_eqb (node_type n) "repeat").
  { unfold compile_repeat. destruct (enclosing_repeats f anc); [|done]. destruct (field_list_ancestor f anc); [done|].
    destruct (check_row_source n); [|done]. cbn. by intros [= _ <-]. }
  destruct (str_eqb (node_type n) "group"); [by intros [= _ <-]|].
  destruct (compile_question f n anc) as [g|] eqn:E; [|done]. cbn. intros [= _ <-]. by eapply compile_question_nodes.
Qed.

Lemma compile_nodes_from l st st' :
  foldM compile_node st l = Ok st' -> from_nodes l st.2 -> from_nodes l st'.2.
Proof.
  enough (forall l', (forall x, x ∈ l' -> x ∈ l) -> forall st, foldM compile_node st l' = Ok st' -> from_nodes l st.2 -> from_nodes l st'.2)
    as Hall by by apply Hall.
  induction l' as [|[n anc] l' IH]; intros Hin [seen f]; cbn [foldM]; [by intros [= <-]|].
  destruct (compile_node (seen, f) (n, anc)) as [[seen1 f1]|] eqn:E; [|done]. intros Hr Hf.
  eapply IH; [by intros x Hx; apply Hin; right|exact Hr|]. eapply compile_node_nodes; [exact E| |exact Hf]. apply Hin. by left.
Qed.

Lemma compile_from_nodes ir f : compile ir = Ok f -> from_nodes (walk (children (node_of ir)) []) f.
Proof.
  unfold compile. destruct (check_document ir); [|done]. cbn [mbind res_bind].
  destruct (foldM compile_node _ _) as [st|] eqn:E0; [|done]. cbn [mbind res_bind].
  apply compile_nodes_from in E0; [|done].
  destruct (link_rows_choices st.2) as [f1|] eqn:E1; [|done]. cbn [mbind res_bind].
  assert (from_nodes (walk (children (node_of ir)) []) f1) as H1.
  { unfold link_rows_choices in E1. destruct (mapR _ (f_fields st.2)) as [fields|] eqn:E; [|done]. cbn in E1. injection E1 as <-.
    apply mapR_fields in E as [_ Hg]. intros i cf (cf0 & H0 & Hl)%Hg. apply link_field_inv in Hl as (_ & -> & _). by eapply E0. }
  destruct (check_interpolation f1) as [f2|] eqn:E2; [|done]. cbn [mbind res_bind].
  apply check_interpolation_inv in E2 as (S2 & _ & _).
  destruct (check_references f2) as [[]|]; [|done]. cbn [mbind res_bind].
  destruct (form_topological_order f2) as [ord|]; [|done]. cbn [mbind res_bind]. intros Hl.
  apply foldM_same in Hl; [|by apply lint_field_same]. unfold from_nodes. rewrite (sm_fields _ _ Hl).
  cbn [set_topo f_fields]. by rewrite (sm_fields _ _ S2).
Qed.

Lemma compile_compiled ir f : compile ir = Ok f -> compiled f.
Proof.
  unfold compile. destruct (check_document ir); [|done]. cbn [mbind res_bind].
  destruct (foldM compile_node _ _) as [[seen f0]|] eqn:E0; [|done]. cbn [mbind res_bind snd].
  destruct (empty_form_inv (attrs (node_of ir))) as [He Hs].
  destruct (compile_nodes_inv _ [] _ _ _ _ (walk_ordered _) (list_subseteq_nil _) He Hs E0) as [H0 _].
  destruct (link_rows_choices f0) as [f1|] eqn:E1; [|done]. cbn [mbind res_bind].
  destruct (link_inv _ _ H0 E1) as (H1 & _ & Hrows).
  destruct (check_interpolation f1) as [f2|] eqn:E2; [|done]. cbn [mbind res_bind].
  apply check_interpolation_inv in E2 as (S2 & T1 & T2).
  destruct (check_references f2) as [[]|] eqn:E3; [|done]. cbn [mbind res_bind].
  pose proof (check_references_inv _ E3) as Href.
  destruct (form_topological_order f2) as [ord|] eqn:E4; [|done]. cbn [mbind res_bind]. intros Hl.
  pose proof (form_inv_same _ _ S2 H1) as H2.
  apply topological_order_Ok in E4 as [Ht Hlow];
    [|rewrite (fm_order _ H2); apply H2|intros; by apply field_deps_known].
  apply foldM_same in Hl; [|by apply lint_field_same]. destruct S2 as [A1 A2 A3 A4 A5 A6].
  assert (form_inv f) as Hf.
  { eapply form_inv_same; [exact Hl|]. destruct H2 as [? ? ? ? ? ? Hfield]. constructor; try done.
    intros i cf Hi. eapply field_inv_extends; [|apply Hfield, Hi]. by split. }
  destruct Hl as [B1 B2 B3 B4 B5 B6]. cbn [set_topo f_fields f_containers f_repeats f_order f_topo_order] in *.
  constructor; rewrite ?B1, ?B2, ?B3, ?B4, ?B6; try done.
  - intros i cf q. rewrite A1, A3. apply Hrows.
  - rewrite A1. done.
  - rewrite A3. done.
  - eapply topo_sorted_ext; [|exact Ht]. intros. symmetry. by apply field_deps_ext.
  - eapply lowest_first_ext; [|exact Hlow]. intros. symmetry. by apply field_deps_ext.
Qed.

End WithEnv.
