(* ===== verification/Runtime.v ===== *)
(** * The form runtime: [FormInstance] of form_engine/runtime.py

    The live state of one form, and every operation that reads or changes
    it.  An operation is a function of the state that returns the state it
    leaves, on an exception too: Python keeps what was assigned before the
    raise. *)

From S2P Require Import Prelude PyStr PyNum PyDate Value Expr Expression ExpressionFacts Text Datasets.
From S2P Require Import Document Topo Compile.

(** ** State *)

Inductive field_error :=
| ERequired
| EChoice
| EConstraint (message severity : value).

Record field_state := FieldState {
  fs_path : pystr;
  fs_data_type : pystr;
  fs_relevant : bool;
  fs_required : bool;
  fs_read_only : bool;
  fs_value : value;
  fs_valid : bool;
  fs_errors : list field_error
}.

Definition new_state (path data_type : pystr) : field_state :=
  FieldState path data_type true false false VNone true [].

Record inst := Inst {
  i_values : odict value;
  i_states : odict field_state;
  i_instances : odict (list pystr);
  i_row_keys : odict (odict value);       (* repeat -> instance -> source key or null *)
  i_row_labels : odict (odict value);     (* repeat -> instance -> {lang: string} *)
  i_rows_resolved : list pystr;
  i_serial : N
}.

(** What a [FormInstance] is built with and never changes. *)
Record world := World {
  w_form : cform;
  w_today : date;
  w_now : pystr;
  w_metadata : odict value;
  w_datasets : dataset_source
}.

(** ** Operations: state passing with exceptions *)

Definition M (A : Type) : Type := inst -> inst * res A.

#[global] Instance M_ret : MRet M := fun A a s => (s, Ok a).
#[global] Instance M_bind : MBind M := fun A B f m s =>
  match m s with
  | (s', Ok a) => f a s'
  | (s', Raise e) => (s', Raise e)
  end.

Definition gets {A} (f : inst -> A) : M A := fun s => (s, Ok (f s)).
(** A computation on the current state that may raise and changes nothing. *)
Definition reads {A} (f : inst -> res A) : M A := fun s => (s, f s).
Definition modify (f : inst -> inst) : M unit := fun s => (f s, Ok tt).
Definition raise {A} (e : exn) : M A := fun s => (s, Raise e).
Definition fail {A} (what : string) (about : list pystr) : M A := raise (CompileError what about).
Definition when (b : bool) (m : M unit) : M unit := if b then m else mret tt.

(** [for a in l: body] *)
Fixpoint for_each {A} (l : list A) (body : A -> M unit) : M unit :=
  match l with
  | [] => mret tt
  | a :: r => body a ≫= fun _ => for_each r body
  end.

Definition with_values (v : odict value) (s : inst) : inst :=
  Inst v (i_states s) (i_instances s) (i_row_keys s) (i_row_labels s) (i_rows_resolved s) (i_serial s).
Definition with_states (st : odict field_state) (s : inst) : inst :=
  Inst (i_values s) st (i_instances s) (i_row_keys s) (i_row_labels s) (i_rows_resolved s) (i_serial s).
Definition with_instances (l : odict (list pystr)) (s : inst) : inst :=
  Inst (i_values s) (i_states s) l (i_row_keys s) (i_row_labels s) (i_rows_resolved s) (i_serial s).
Definition with_row_keys (l : odict (odict value)) (s : inst) : inst :=
  Inst (i_values s) (i_states s) (i_instances s) l (i_row_labels s) (i_rows_resolved s) (i_serial s).
Definition with_row_labels (l : odict (odict value)) (s : inst) : inst :=
  Inst (i_values s) (i_states s) (i_instances s) (i_row_keys s) l (i_rows_resolved s) (i_serial s).
Definition with_resolved (l : list pystr) (s : inst) : inst :=
  Inst (i_values s) (i_states s) (i_instances s) (i_row_keys s) (i_row_labels s) l (i_serial s).
Definition with_serial (n : N) (s : inst) : inst :=
  Inst (i_values s) (i_states s) (i_instances s) (i_row_keys s) (i_row_labels s) (i_rows_resolved s) n.

Definition set_value (path : pystr) (v : value) : M unit :=
  modify (fun s => with_values (dset (i_values s) path v) s).
Definition set_state (path : pystr) (st : field_state) : M unit :=
  modify (fun s => with_states (dset (i_states s) path st) s).
Definition get_state (path : pystr) : M field_state :=
  reads (fun s => of_option KeyError (dget (i_states s) path)).

(** [self.instances[repeat_id]] where the repeat is known. *)
Definition instances_of (repeat_id : pystr) (s : inst) : list pystr :=
  default [] (dget (i_instances s) repeat_id).
Definition set_instances (repeat_id : pystr) (l : list pystr) : M unit :=
  modify (fun s => with_instances (dset (i_instances s) repeat_id l) s).

(** [SERIAL_ID.fullmatch(id)], and the number it holds. *)
Definition minted_serial (iid : pystr) : option N :=
  match iid with
  | c :: ds => if decide (c = 105%N) then if all_digits ds then Some (digits_val ds) else None else None
  | [] => None
  end.

(** [any(...)] over a generator that may raise: it stops at the first hit. *)
Fixpoint anyR {A} (p : A -> res bool) (l : list A) : res bool :=
  match l with
  | [] => Ok false
  | a :: r => match p a with Ok true => Ok true | Ok false => anyR p r | Raise e => Raise e end
  end.

(** [all(...)] likewise. *)
Fixpoint allR {A} (p : A -> res bool) (l : list A) : res bool :=
  match l with
  | [] => Ok true
  | a :: r => match p a with Ok true => allR p r | Ok false => Ok false | Raise e => Raise e end
  end.

(** ** Choice membership, inline lists (6.3) *)

Definition inline_values (node : odict value) (v : value) : res (list value) :=
  match vget node "choices" with
  | VDict choices =>
      if negb (truthy (VDict choices)) || negb (py_eq (vget choices "kind") (VStr "inline")) then Ok []
      else
        let permitted := map (fun item => vfield item "value") (vlist (vget choices "items")) in
        if negb (forallb hashable permitted) then Raise TypeError
        else
          let outside x := if hashable x then Ok (negb (value_in x permitted)) else Raise TypeError in
          match py_eq (vget node "dataType") (VStr "select_multiple"), v with
          | true, VList vs => filterR outside vs
          | _, _ => o ← outside v; Ok (if (o : bool) then [v] else [])
          end
  | _ => Ok []
  end.

Section Runtime.
Context `{PyEnv} (w : world).

Definition form : cform := w_form w.

Definition fields_of (repeat_id : pystr) : list pystr :=
  map fst (List.filter (fun kf => bool_decide (cf_repeat kf.2 = Some repeat_id)) (f_fields form)).

Definition data_type_of (fid : pystr) : pystr :=
  match dget (f_fields form) fid with Some cf => cf_data_type cf | None => [] end.

(** ** Evaluation contexts *)

Definition context (scope : option (pystr * pystr)) (s : inst) : eval_ctx :=
  EvalCtx (i_values s) (w_today w) (w_now w) None (w_metadata w) scope (i_instances s)
    (Some (w_datasets w)).

Definition eval_in (scope : option (pystr * pystr)) (e : value) (s : inst) : res value :=
  evaluate (context scope s) (expr_of e).

(** A [relevant] that is present, coerced at the boundary with [null_is]. *)
Definition eval_bool (scope : option (pystr * pystr)) (e : value) (null_is : bool) (s : inst) : res bool :=
  v ← eval_in scope e s; coerce_boolean v null_is.

(** ** Repeat instances *)

Fixpoint out_of_order (serials : list N) : bool :=
  match serials with
  | a :: ((b :: _) as r) => (b <=? a)%N || out_of_order r
  | _ => false
  end.

(** The serials of the list, [None] as soon as an id was minted elsewhere. *)
Fixpoint serials_of (ids : list pystr) : option (list N) :=
  match ids with
  | [] => Some []
  | i :: r => match minted_serial i with
              | None => None
              | Some n => match serials_of r with Some ns => Some (n :: ns) | None => None end
              end
  end.

Definition creation_ordered (ids : list pystr) : bool :=
  match serials_of ids with Some ns => negb (out_of_order ns) | None => true end.

Definition assert_creation_order (repeat_id : pystr) : M unit :=
  ids ← gets (instances_of repeat_id);
  if creation_ordered ids then mret tt else fail "instances are not in creation order" (repeat_id :: ids).

(** The per-field slots of a fresh instance, left empty. *)
Definition add_slots (repeat_id instance_id : pystr) : M unit :=
  for_each (fields_of repeat_id) (fun fid =>
    let path := inst_path repeat_id instance_id fid in
    set_value path VNone ≫= fun _ => set_state path (new_state path (data_type_of fid))).

Definition create_instance (repeat_id : pystr) (row_key : value) : M pystr :=
  modify (fun s => with_serial (i_serial s + 1) s) ≫= fun _ =>
  n ← gets i_serial;
  let instance_id := 105%N :: str_N n in
  ids ← gets (instances_of repeat_id);
  set_instances repeat_id (ids ++ [instance_id]) ≫= fun _ =>
  modify (fun s => with_row_keys (dset (i_row_keys s) repeat_id
            (dset (default [] (dget (i_row_keys s) repeat_id)) instance_id row_key)) s) ≫= fun _ =>
  assert_creation_order repeat_id ≫= fun _ =>
  add_slots repeat_id instance_id ≫= fun _ =>
  mret instance_id.

Definition destroy_instance (repeat_id instance_id : pystr) : M unit :=
  modify (fun s => with_row_keys (dset (i_row_keys s) repeat_id
            (dpop (default [] (dget (i_row_keys s) repeat_id)) instance_id)) s) ≫= fun _ =>
  modify (fun s => with_row_labels (dset (i_row_labels s) repeat_id
            (dpop (default [] (dget (i_row_labels s) repeat_id)) instance_id)) s) ≫= fun _ =>
  for_each (fields_of repeat_id) (fun fid =>
    let path := inst_path repeat_id instance_id fid in
    modify (fun s => with_values (dpop (i_values s) path) s) ≫= fun _ =>
    modify (fun s => with_states (dpop (i_states s) path) s)).

(** One container of a relevance chain: absent, or with no condition, or true. *)
Definition condition_holds (scope : option (pystr * pystr)) (s : inst) (cid : pystr) : res bool :=
  match dget (f_containers form) cid with
  | None => Ok true
  | Some c => if is_null (vget c "relevant") then Ok true
              else eval_bool scope (vget c "relevant") true s
  end.

Definition container_relevant (container_id : pystr) (s : inst) : res bool :=
  if dhas (f_containers form) container_id then
    allR (condition_holds None s)
      (default [] (dget (f_container_ancestors form) container_id) ++ [container_id])
  else Ok true.

(** [_resolve_rows]: one item of the source becomes one instance. *)
Definition create_row (repeat_id : pystr) (bind : odict value) (item : value) : M unit :=
  key ← reads (fun _ => of_option KeyError (dget (vdict item) "value"));
  instance_id ← create_instance repeat_id key;
  when (is_dict (vfield item "label"))
    (modify (fun s => with_row_labels (dset (i_row_labels s) repeat_id
       (dset (default [] (dget (i_row_labels s) repeat_id)) instance_id (vfield item "label"))) s)) ≫= fun _ =>
  for_each bind (fun qc =>
    let path := inst_path repeat_id instance_id qc.1 in
    let v := vfield item (vtext qc.2) in
    set_value path v ≫= fun _ =>
    st ← get_state path;
    set_state path (FieldState (fs_path st) (fs_data_type st) (fs_relevant st) (fs_required st)
                      (fs_read_only st) v (fs_valid st) (fs_errors st))).

Definition repeat_node (repeat_id : pystr) : odict value :=
  default [] (dget (f_repeats form) repeat_id).

Definition resolve_rows (repeat_id : pystr) : M unit :=
  let source := vget (repeat_node repeat_id) "rowSource" in
  resolved ← gets i_rows_resolved;
  if is_null source || bool_decide (repeat_id ∈ resolved) then mret tt
  else
    relevant ← reads (container_relevant repeat_id);
    if (relevant : bool) then
      modify (fun s => with_resolved (i_rows_resolved s ++ [repeat_id]) s) ≫= fun _ =>
      for_each (vlist (vfield source "items")) (create_row repeat_id (vdict (vfield source "bind")))
    else mret tt.

(** ** Choice lists *)

Definition candidate_rows (q : choice_query) (scope : option (pystr * pystr)) (equals : option value)
    (s : inst) : res (list (odict value)) :=
  sel ← selector_values q (context scope s);
  Ok (w_datasets w (cq_dataset q) sel
        (match equals with Some v => Some (cq_value_column q, v) | None => None end)).

Definition rows_after_residual (q : choice_query) (rows : list (odict value))
    (scope : option (pystr * pystr)) (s : inst) : res (list (odict value)) :=
  after_residual q (context scope s) rows.

Definition instance_row (repeat_id instance_id : pystr) (s : inst) : odict value :=
  map (fun fid => (fid, vget (i_values s) (inst_path repeat_id instance_id fid))) (fields_of repeat_id).

(** One candidate of a rows list: not the answering row, and permitted. *)
Definition rows_candidate (q : rows_query) (scope : option (pystr * pystr)) (s : inst)
    (instance_id : pystr) : res bool :=
  if rq_exclude_self q && bool_decide (scope = Some (rq_repeat q, instance_id)) then Ok false
  else match rq_filter q with
       | None => Ok true
       | Some f => row_permitted (context scope s) f (instance_row (rq_repeat q) instance_id s)
       end.

Definition rows_instances (q : rows_query) (scope : option (pystr * pystr)) (equals : option value)
    (s : inst) : res (list pystr) :=
  let ordered := instances_of (rq_repeat q) s in
  let candidates := match equals with
                    | None => ordered
                    | Some (VStr i) => if bool_decide (i ∈ ordered) then [i] else []
                    | Some _ => []
                    end in
  filterR (rows_candidate q scope s) candidates.

(** The answers a membership check asks about, one at a time. *)
Definition wanted_values (cf : cfield) (v : value) : list value :=
  match str_eqb (cf_data_type cf) "select_multiple", v with
  | true, VList vs => vs
  | _, _ => [v]
  end.

Definition is_nil {A} (l : list A) : bool := match l with [] => true | _ => false end.

Definition values_outside_choices (cf : cfield) (v : value) (scope : option (pystr * pystr)) (s : inst)
    : res (list value) :=
  match cf_rows_query cf, cf_choice_query cf with
  | Some q, _ =>
      filterR (fun one => l ← rows_instances q scope (Some one) s; Ok (is_nil l)) (wanted_values cf v)
  | None, None => inline_values (cf_node cf) v
  | None, Some q =>
      filterR (fun one => rows ← candidate_rows q scope (Some one) s;
                          l ← rows_after_residual q rows scope s; Ok (is_nil l)) (wanted_values cf v)
  end.

(** ** [_evaluate_field] *)

(** A [required] or [readOnly]: a literal boolean, an expression, or absent. *)
Definition eval_flag (scope : option (pystr * pystr)) (v : value) (s : inst) : res bool :=
  match v with
  | VBool b => Ok b
  | VNone => Ok false
  | _ => eval_bool scope v false s
  end.

Definition field_relevant (cf : cfield) (scope : option (pystr * pystr)) (s : inst) : res bool :=
  r ← allR (condition_holds scope s) (cf_ancestors cf);
  if (r : bool) then
    if is_null (vget (cf_node cf) "relevant") then Ok true
    else eval_bool scope (vget (cf_node cf) "relevant") true s
  else Ok false.

(** Membership and constraint, once the field is relevant and answered. *)
Definition choice_errors (cf : cfield) (v : value) (scope : option (pystr * pystr)) (s : inst)
    : res (list field_error) :=
  if is_null v then Ok []
  else l ← values_outside_choices cf v scope s; Ok (match l with [] => [] | _ => [EChoice] end).

Definition constraint_errors (cf : cfield) (v : value) (scope : option (pystr * pystr)) (s : inst)
    : res (list field_error) :=
  let node := cf_node cf in
  if is_null v || is_null (vget node "constraint") then Ok []
  else
    ok ← eval_bool scope (vget node "constraint") true s;
    Ok (if (ok : bool) then []
        else [EConstraint (vget node "constraintMessage")
                (match dget node "severity" with Some x => x | None => VStr "error" end)]).

(** [state.<attribute> = ...]: the state object is shared, so each assignment
    stays when a later step raises. *)
Definition update_state (path : pystr) (f : field_state -> field_state) : M unit :=
  st ← get_state path; set_state path (f st).

Definition evaluate_field (fid path : pystr) (scope : option (pystr * pystr)) : M unit :=
  cf ← reads (fun _ => of_option KeyError (dget (f_fields form) fid));
  let node := cf_node cf in
  update_state path (fun st => FieldState (fs_path st) (fs_data_type st) (fs_relevant st)
    (fs_required st) (fs_read_only st) (fs_value st) (fs_valid st) []) ≫= fun _ =>
  relevant ← reads (field_relevant cf scope);
  update_state path (fun st => FieldState (fs_path st) (fs_data_type st) relevant
    (fs_required st) (fs_read_only st) (fs_value st) (fs_valid st) (fs_errors st)) ≫= fun _ =>
  when (negb (is_null (vget node "calculate")) && relevant)
    (v ← reads (eval_in scope (vget node "calculate")); set_value path v) ≫= fun _ =>
  v ← reads (fun s => of_option KeyError (dget (i_values s) path));
  update_state path (fun st => FieldState (fs_path st) (fs_data_type st) (fs_relevant st)
    (fs_required st) (fs_read_only st) v (fs_valid st) (fs_errors st)) ≫= fun _ =>
  required ← reads (eval_flag scope (vget node "required"));
  update_state path (fun st => FieldState (fs_path st) (fs_data_type st) (fs_relevant st)
    required (fs_read_only st) (fs_value st) (fs_valid st) (fs_errors st)) ≫= fun _ =>
  read_only ← reads (eval_flag scope (vget node "readOnly"));
  update_state path (fun st => FieldState (fs_path st) (fs_data_type st) (fs_relevant st)
    (fs_required st) read_only (fs_value st) true (fs_errors st)) ≫= fun _ =>
  let add_errors l := update_state path (fun st => FieldState (fs_path st) (fs_data_type st)
    (fs_relevant st) (fs_required st) (fs_read_only st) (fs_value st)
    (fs_valid st && is_nil l) (fs_errors st ++ l)) in
  when relevant
    (add_errors (if required && is_null v then [ERequired] else []) ≫= fun _ =>
     l ← reads (choice_errors cf v scope);
     add_errors l ≫= fun _ =>
     l ← reads (constraint_errors cf v scope);
     add_errors l).

(** ** [recalculate] *)

(** [while len(self.instances[rid]) < wanted], one pass per missing instance. *)
Fixpoint grow (fuel : nat) (rid : pystr) (wanted : Z) : M unit :=
  match fuel with
  | O => mret tt
  | S fuel =>
      ids ← gets (instances_of rid);
      if Z.of_nat (length ids) <? wanted
      then create_instance rid VNone ≫= fun _ => grow fuel rid wanted
      else mret tt
  end.

(** [while len(self.instances[rid]) > wanted], the last instance each time. *)
Fixpoint shrink (fuel : nat) (rid : pystr) (wanted : Z) : M unit :=
  match fuel with
  | O => mret tt
  | S fuel =>
      ids ← gets (instances_of rid);
      if wanted <? Z.of_nat (length ids)
      then match last ids with
           | None => mret tt
           | Some i =>
               set_instances rid (removelast ids) ≫= fun _ =>
               destroy_instance rid i ≫= fun _ => shrink fuel rid wanted
           end
      else mret tt
  end.

Definition apply_count (rid : pystr) (node : odict value) : M unit :=
  if is_null (vget node "countExpr") then mret tt
  else
    v ← reads (eval_in None (vget node "countExpr"));
    wanted ← reads (fun _ => if is_null v then Ok 0 else z ← py_int v; Ok (Z.max 0 z));
    assert_creation_order rid ≫= fun _ =>
    ids ← gets (instances_of rid);
    grow (Z.to_nat (wanted - Z.of_nat (length ids))) rid wanted ≫= fun _ =>
    ids ← gets (instances_of rid);
    shrink (length ids) rid wanted.

(** The topological pass: a repeat field once per instance. *)
Definition evaluate_everywhere (fid : pystr) : M unit :=
  match dget (f_fields form) fid with
  | None => raise KeyError
  | Some cf =>
      match cf_repeat cf with
      | None => evaluate_field fid fid None
      | Some r =>
          ids ← gets (instances_of r);
          for_each ids (fun i => evaluate_field fid (inst_path r i fid) (Some (r, i)))
      end
  end.

Definition evaluate_all : M unit := for_each (f_topo_order form) evaluate_everywhere.

Definition recalculate : M unit :=
  for_each (dkeys (f_repeats form)) resolve_rows ≫= fun _ =>
  for_each (f_repeats form) (fun rn => apply_count rn.1 rn.2) ≫= fun _ =>
  evaluate_all.

(** ** Construction *)

Definition initial : inst :=
  let top := List.filter (fun kf => bool_decide (cf_repeat kf.2 = None)) (f_fields form) in
  Inst (map (fun kf => (kf.1, VNone)) top)
       (map (fun kf => (kf.1, new_state kf.1 (cf_data_type kf.2))) top)
       (map (fun kr => (kr.1, [])) (f_repeats form))
       (map (fun kr => (kr.1, [])) (f_repeats form))
       (map (fun kr => (kr.1, [])) (f_repeats form))
       [] 0%N.

(** [int(node.get("minInstances", 0))] *)
Definition min_instances (node : odict value) : res Z :=
  match dget node "minInstances" with Some v => py_int v | None => Ok 0 end.

Definition create_minimum (rid : pystr) (node : odict value) : M unit :=
  if is_null (vget node "rowSource") then
    n ← reads (fun _ => min_instances node);
    for_each (replicate (Z.to_nat n) tt) (fun _ => create_instance rid VNone ≫= fun _ => mret tt)
  else mret tt.

(** [FormInstance(form)] *)
Definition construct : inst * res unit :=
  (for_each (f_repeats form) (fun rn => create_minimum rn.1 rn.2) ≫= fun _ => recalculate) initial.

(** ** Adding and deleting *)

Definition add_instance (repeat_id : pystr) : M pystr :=
  match dget (f_repeats form) repeat_id with
  | None => fail "unknown repeat" [repeat_id]
  | Some node =>
      if negb (is_null (vget node "countExpr")) then fail "countExpr: cannot be added" [repeat_id]
      else
        let source := vget node "rowSource" in
        if negb (is_null source) && negb (truthy (vfield source "allowAdd"))
        then fail "rowSource does not permit adding" [repeat_id]
        else
          let maximum := vget node "maxInstances" in
          ids ← gets (instances_of repeat_id);
          full ← reads (fun _ => if is_null maximum then Ok false
                                 else z ← py_int maximum; Ok (z <=? Z.of_nat (length ids)));
          if (full : bool) then fail "at its maximum" [repeat_id]
          else
            instance_id ← create_instance repeat_id VNone;
            recalculate ≫= fun _ =>
            mret instance_id
  end.

(** [ids.pop(index)] *)
Definition pop_at (ids : list pystr) (index : nat) : list pystr := take index ids ++ drop (S index) ids.

Definition delete_instance (repeat_id : pystr) (index : Z) : M unit :=
  s ← gets id;
  match dget (i_instances s) repeat_id with
  | None => fail "unknown repeat" [repeat_id]
  | Some ordered =>
      let node := repeat_node repeat_id in
      let source := vget node "rowSource" in
      if negb (is_null (vget node "countExpr")) then fail "countExpr: cannot be removed" [repeat_id]
      else if negb (is_null source) && negb (truthy (vfield source "allowDelete"))
      then fail "rowSource does not permit deleting" [repeat_id]
      else if (index <? 0) || (Z.of_nat (length ordered) <=? index) then fail "no instance" [repeat_id]
      else
        let minimum := if is_null source then vget node "minInstances" else VNone in
        floor ← reads (fun _ => if is_null minimum then Ok false
                                else m ← of_option TypeError (as_num minimum);
                                     Ok (num_leb (NInt (Z.of_nat (length ordered))) m));
        if (floor : bool) then fail "at its minimum" [repeat_id]
        else
          let i := Z.to_nat index in
          match ordered !! i with
          | None => raise IndexError
          | Some instance_id =>
              set_instances repeat_id (pop_at ordered i) ≫= fun _ =>
              assert_creation_order repeat_id ≫= fun _ =>
              destroy_instance repeat_id instance_id ≫= fun _ =>
              recalculate
          end
  end.

Definition row_key (repeat_id instance_id : pystr) (s : inst) : value :=
  vget (default [] (dget (i_row_keys s) repeat_id)) instance_id.

Definition instance_count (repeat_id : pystr) (s : inst) : nat := length (instances_of repeat_id s).

(** ** Answering *)

Definition canonical (path : pystr) (s : inst) : res pystr :=
  if str_in "[" path && str_in "]." path then
    match cut "[" path with
    | None => Raise ValueError
    | Some (repeat_id, rest) =>
    match cut "]." rest with
    | None => Raise ValueError
    | Some (index_text, suffix) =>
        match dget (i_instances s) repeat_id with
        | None => Raise (CompileError "unknown repeat" [repeat_id])
        | Some ordered =>
            if isdigit index_text then
              match parse_int index_text with
              | None => Raise ValueError
              | Some index =>
                  match ordered !! Z.to_nat index with
                  | None => Raise (CompileError "no instance" [path])
                  | Some iid => Ok (inst_path repeat_id iid suffix)
                  end
              end
            else Ok path
        end
    end end
  else Ok path.

Definition set_one (pv : pystr * value) : M unit :=
  c ← reads (canonical pv.1);
  s ← gets id;
  if dhas (i_values s) c then set_value c pv.2 else fail "unknown field" [pv.1].

Definition set_many (answers : odict value) : M unit :=
  for_each answers set_one ≫= fun _ => recalculate.

Definition set_answer (path : pystr) (v : value) : M unit := set_many [(path, v)].

(** ** Hydration *)

Definition restore_instance (repeat_id instance_id : pystr) : M unit :=
  ordered ← gets (instances_of repeat_id);
  if bool_decide (instance_id ∈ ordered) then mret tt
  else
    set_instances repeat_id (ordered ++ [instance_id]) ≫= fun _ =>
    assert_creation_order repeat_id ≫= fun _ =>
    add_slots repeat_id instance_id ≫= fun _ =>
    match minted_serial instance_id with
    | Some n => modify (fun s => with_serial (N.max (i_serial s) n) s)
    | None => mret tt
    end.

(** One answer put back: the path when the form has no place for it. *)
Definition restore_answer (pv : pystr * value) : M (list pystr) :=
  s ← gets id;
  match canonical pv.1 s with
  | Raise e => if is_compile_error e then mret [pv.1] else raise e
  | Ok c => if dhas (i_values s) c then set_value c pv.2 ≫= fun _ => mret [] else mret [pv.1]
  end.

Fixpoint collect {A B} (l : list A) (body : A -> M (list B)) : M (list B) :=
  match l with
  | [] => mret []
  | a :: r => xs ← body a; ys ← collect r body; mret (xs ++ ys)
  end.

Definition restore_repeat (ri : pystr * list pystr) : M (list pystr) :=
  let '(repeat_id, ordered) := ri in
  if dhas (f_repeats form) repeat_id
  then for_each ordered (restore_instance repeat_id) ≫= fun _ => mret []
  else mret (map (fun iid => repeat_id ++ lit "[" ++ iid ++ lit "]") ordered).

Definition restore (instances : odict (list pystr)) (answers : odict value) : M (list pystr) :=
  a ← collect instances restore_repeat;
  b ← collect answers restore_answer;
  recalculate ≫= fun _ =>
  mret (a ++ b).

(** ** Reading a form back *)

Definition scope_of (field_id : pystr) (s : inst) : option (pystr * pystr) :=
  match dget (f_fields form) field_id with
  | Some cf => match cf_repeat cf with
               | Some r => match instances_of r s with i :: _ => Some (r, i) | [] => None end
               | None => None
               end
  | None => None
  end.

(** [_QUALIFIED_PATH.fullmatch(path)] *)
Definition qualified_path (path : pystr) : option (pystr * pystr * pystr) :=
  match cut "[" path with
  | Some (r, rest) =>
      match cut "]" rest with
      | Some (i, rest2) =>
          match rest2 with
          | c :: f => if bool_decide (c = 46%N) && id_body r && id_body f && negb (bool_decide (i = []))
                      then Some (r, i, f) else None
          | [] => None
          end
      | None => None
      end
  | None => None
  end.

(** A field id and the instance to resolve it in. *)
Definition resolution_scope (path : pystr) (s : inst) : res (pystr * option (pystr * pystr)) :=
  match qualified_path path with
  | None => Ok (path, scope_of path s)
  | Some (repeat_id, instance_id, field_id) =>
      match dget (f_fields form) field_id with
      | None => err "unknown field" [field_id]
      | Some cf =>
          if negb (bool_decide (cf_repeat cf = Some repeat_id))
          then err "not a field of the repeat" [field_id; repeat_id]
          else if negb (bool_decide (instance_id ∈ instances_of repeat_id s))
          then err "no such instance" [repeat_id; instance_id]
          else Ok (field_id, Some (repeat_id, instance_id))
      end
  end.

Definition rendered (field_id key args_key language : pystr) (s : inst) : res (option pystr) :=
  match dget (f_fields form) field_id with
  | None => Ok None
  | Some cf => render_field_text (cf_node cf) key args_key language (context (scope_of field_id s) s)
  end.

Definition rendered_label (field_id language : pystr) : inst -> res (option pystr) :=
  rendered field_id "label" "labelArgs" language.
Definition rendered_constraint_message (field_id language : pystr) : inst -> res (option pystr) :=
  rendered field_id "constraintMessage" "constraintMessageArgs" language.

Definition rendered_add_label (repeat_id language : pystr) : res (option pystr) :=
  match dget (f_repeats form) repeat_id with
  | None => err "unknown repeat" [repeat_id]
  | Some node => Ok match vfield (vget node "addLabel") language with VStr t => Some t | _ => None end
  end.

(** Rules 2 and 3 of the chain: the source row's own label, then the 1-based
    position. *)
Definition fallback_label (repeat_id instance_id language : pystr) (ordered : list pystr) (s : inst) : pystr :=
  match vfield (vget (default [] (dget (i_row_labels s) repeat_id)) instance_id) language with
  | VStr t => t
  | _ => str_nat (S (index_of instance_id ordered))
  end.

Definition summary_label (repeat_id instance_id language : pystr) (s : inst) : res pystr :=
  match dget (i_instances s) repeat_id with
  | None => err "unknown repeat" [repeat_id]
  | Some ordered =>
      if negb (bool_decide (instance_id ∈ ordered)) then err "no such instance" [repeat_id; instance_id]
      else
        let node := repeat_node repeat_id in
        let args := text_args node "summaryLabelArgs" in
        let fallback := Ok (fallback_label repeat_id instance_id language ordered s) in
        if is_str (vfield (vget node "summaryLabel") language) then
          let ctx := context (Some (repeat_id, instance_id)) s in
          answered ← (match args with
                      | [] => Ok true
                      | _ => anyR (fun e => v ← evaluate ctx (expr_of e); Ok (negb (is_null v))) args
                      end);
          if (answered : bool) then
            r ← render_field_text node "summaryLabel" "summaryLabelArgs" language ctx;
            match r with Some t => Ok t | None => fallback end
          else fallback
        else fallback
  end.

(** The languages of the document, in order. *)
Definition languages : list pystr := map vtext (vlist (vget (f_ir form) "languages")).

Definition rows_label (repeat_id instance_id : pystr) (s : inst) : res value :=
  l ← mapR (fun lang => t ← summary_label repeat_id instance_id lang s; Ok (lang, VStr t)) languages;
  Ok (VDict l).

(** A resolved option: its value and its labels. *)
Definition choices (path : pystr) (s : inst) : res (list (value * value)) :=
  fs ← resolution_scope path s;
  let '(field_id, scope) := fs in
  cf ← of_option KeyError (dget (f_fields form) field_id);
  match cf_rows_query cf, cf_choice_query cf with
  | Some q, _ =>
      ids ← rows_instances q scope None s;
      mapR (fun i => l ← rows_label (rq_repeat q) i s; Ok (VStr i, l)) ids
  | None, None =>
      Ok (map (fun item => (vfield item "value", vfield item "label"))
            (vlist (vfield (vget (cf_node cf) "choices") "items")))
  | None, Some q =>
      rows ← candidate_rows q scope None s;
      rows ← rows_after_residual q rows scope s;
      Ok (map (fun r => (vget r (cq_value_column q),
                         VDict (map (fun lc => (lc.1, vget r (vtext lc.2))) (cq_label_columns q)))) rows)
  end.

(** ** Output *)

Definition is_valid (s : inst) : bool :=
  forallb (fun ps => negb (fs_relevant ps.2) || fs_valid ps.2) (i_states s).

Definition answers (include_irrelevant : bool) (s : inst) : odict value :=
  map (fun ps => (ps.1, fs_value ps.2))
    (List.filter (fun ps => include_irrelevant || fs_relevant ps.2) (i_states s)).

End Runtime.
