(* ===== verification/RuntimeFrame.v ===== *)
(** * What evaluating a field depends on

    Two states that agree on the fields a field depends on give the same
    relevance, value, flags and errors: the frame theorem of the evaluator,
    lifted through the choice lists to one field. *)

From S2P Require Import Prelude PyStr PyNum PyDate Value Expr Expression ExpressionFacts Datasets.
From S2P Require Import Document Topo Compile CompileFacts Runtime.

(** ** Ids hold no bracket and no dot *)

Definition bracket_free (s : pystr) : Prop := 91%N ∉ s /\ 93%N ∉ s /\ 46%N ∉ s.

Lemma id_char_plain c : id_char c = true -> c <> 91%N /\ c <> 93%N /\ c <> 46%N.
Proof.
  unfold id_char, is_lower. rewrite !orb_true_iff, !bool_decide_eq_true. lia.
Qed.

Lemma id_body_plain s : id_body s = true -> bracket_free s.
Proof.
  destruct s as [|c r]; [done|]. cbn [id_body]. intros [Hc Hr]%andb_true_iff.
  rewrite forallb_forall in Hr.
  assert (forall x, x ∈ c :: r -> id_char x = true) as Hall.
  { intros x [->|Hx]%elem_of_cons; [unfold id_char; by rewrite Hc|]. by apply Hr, list_elem_of_In. }
  repeat split; intros Hin; apply Hall, id_char_plain in Hin; naive_solver.
Qed.

Lemma id_pattern_plain s : id_pattern s = true -> bracket_free s.
Proof.
  unfold id_pattern. intros [H|H]%orb_true_iff; [by apply id_body_plain|].
  destruct (reverse s) as [|c r] eqn:E; [done|]. apply andb_true_iff in H as [Hc H].
  apply bool_decide_eq_true in Hc as ->. apply (f_equal reverse) in E.
  rewrite reverse_involutive, reverse_cons in E. subst s. apply id_body_plain in H as (H1 & H2 & H3).
  unfold bracket_free. rewrite !elem_of_app, !list_elem_of_singleton. naive_solver.
Qed.

(** A field id is its own base and its own field part. *)
Lemma plain_field_part s : bracket_free s -> field_part s = s.
Proof. intros (_ & H & _). by apply field_part_bare. Qed.

Lemma plain_base s : bracket_free s -> base_of s = s.
Proof.
  intros (H1 & _ & H3). unfold base_of, before.
  change (lit "[") with [91%N]. rewrite (cut_char_absent 91 []) by done.
  change (lit ".") with [46%N]. by rewrite (cut_char_absent 46 []) by done.
Qed.

(** ** Agreement *)

Record agree_on (D : gset pystr) (s s' : inst) : Prop := {
  ag_instances : i_instances s = i_instances s';
  ag_values : forall k, field_part k ∈ D -> dget (i_values s) k = dget (i_values s') k
}.

Lemma agree_on_sub D D' s s' : D' ⊆ D -> agree_on D s s' -> agree_on D' s s'.
Proof. intros Hs [H1 H2]. split; [done|]. auto. Qed.

Definition ids_clean (s : inst) : Prop :=
  forall r ids, dget (i_instances s) r = Some ids -> Forall (fun i => 93%N ∉ i) ids.

Definition scope_clean (scope : option (pystr * pystr)) : Prop :=
  forall r i, scope = Some (r, i) -> 93%N ∉ r /\ 93%N ∉ i.

(** Every reference spelled as section 4.2 spells one. *)
Definition spelled (e : value) : bool :=
  forallb (fun p => off_form p || path_ok p) (elements (paths_of (expr_of e))).

Lemma spelled_spec e p :
  spelled e = true -> p ∈ paths_of (expr_of e) -> off_form p = true \/ path_ok p = true.
Proof.
  unfold spelled. rewrite forallb_forall. intros H Hp. apply orb_true_iff, H, list_elem_of_In.
  by apply elem_of_elements.
Qed.

Section Frame.
Context `{PyEnv} (w : world).

Lemma context_agree D R scope s s' :
  agree_on D s s' -> ctx_agree D R (context w scope s) (context w scope s').
Proof. intros [H1 H2]. split; try done. Qed.

Lemma context_ids scope s : ids_clean s -> scope_clean scope -> ids_ok (context w scope s).
Proof. intros Hs Hc. split; [exact Hc|exact Hs]. Qed.

Lemma eval_in_agree D scope e s s' :
  spelled e = true -> refs_of e ⊆ D -> ids_clean s -> scope_clean scope -> agree_on D s s' ->
  eval_in w scope e s = eval_in w scope e s'.
Proof.
  intros Hsp Hr Hi Hc Ha. unfold eval_in. apply evaluate_frame; [intros p; by apply spelled_spec|by apply context_ids|].
  apply context_agree. by eapply agree_on_sub.
Qed.

Lemma eval_bool_agree D scope e b s s' :
  spelled e = true -> refs_of e ⊆ D -> ids_clean s -> scope_clean scope -> agree_on D s s' ->
  eval_bool w scope e b s = eval_bool w scope e b s'.
Proof. intros. unfold eval_bool. by rewrite (eval_in_agree D scope e s s'). Qed.

Lemma row_permitted_agree D scope e s s' r r' :
  spelled e = true -> refs_of e ⊆ D -> ids_clean s -> scope_clean scope -> agree_on D s s' ->
  (forall c, c ∈ row_columns (expr_of e) -> vget r c = vget r' c) ->
  row_permitted (context w scope s) e r = row_permitted (context w scope s') e r'.
Proof.
  intros Hsp Hr Hi Hc [Ha1 Ha2] Hrow. unfold row_permitted.
  rewrite (evaluate_frame (expr_of e) (with_row (context w scope s) r) (with_row (context w scope s') r')); [done|..].
  - intros p. by apply spelled_spec.
  - apply (context_ids scope s Hi Hc).
  - split; try done. intros k Hk. cbn. apply Ha2. by apply Hr.
Qed.

(** ** Choice lists *)

Definition query_spelled (q : choice_query) : bool :=
  forallb spelled (dvalues (cq_selector q)) &&
  match cq_residual q with Some r => spelled r | None => true end.

Lemma selector_values_agree D q scope s s' :
  query_spelled q = true -> dataset_filter_deps q ⊆ D -> ids_clean s -> scope_clean scope ->
  agree_on D s s' ->
  selector_values q (context w scope s) = selector_values q (context w scope s').
Proof.
  unfold query_spelled. intros [Hsp _]%andb_true_iff Hd Hi Hc Ha. unfold selector_values. apply mapR_ext, Forall_forall.
  intros [c e] Hce. cbn [fst snd].
  assert (e ∈ dvalues (cq_selector q)) as He by (apply list_elem_of_fmap; by exists (c, e)).
  rewrite forallb_forall in Hsp. specialize (Hsp e (proj1 (list_elem_of_In _ _) He)).
  pose proof (eval_in_agree D scope e s s' Hsp) as E. unfold eval_in in E. rewrite E; try done.
  intros x Hx. apply Hd, elem_of_union_l, elem_of_union_map. eauto.
Qed.

Lemma candidate_rows_agree D q scope eqv s s' :
  query_spelled q = true -> dataset_filter_deps q ⊆ D -> ids_clean s -> scope_clean scope ->
  agree_on D s s' -> candidate_rows w q scope eqv s = candidate_rows w q scope eqv s'.
Proof. intros. unfold candidate_rows. by rewrite (selector_values_agree D q scope s s'). Qed.

Lemma rows_after_residual_agree D q rows scope s s' :
  query_spelled q = true -> dataset_filter_deps q ⊆ D -> ids_clean s -> scope_clean scope ->
  agree_on D s s' -> rows_after_residual w q rows scope s = rows_after_residual w q rows scope s'.
Proof.
  unfold query_spelled. intros [_ Hsp]%andb_true_iff Hd Hi Hc Ha. unfold rows_after_residual, after_residual.
  destruct (cq_residual q) as [e|] eqn:Ee; [|done]. apply filterR_ext, Forall_forall. intros r _.
  apply (row_permitted_agree D); try done. intros x Hx. apply Hd. unfold dataset_filter_deps. rewrite Ee. set_solver.
Qed.

Lemma instance_row_get r i c s :
  vget (instance_row w r i s) c =
  if decide (c ∈ fields_of w r) then vget (i_values s) (inst_path r i c) else VNone.
Proof.
  unfold instance_row, vget. induction (fields_of w r) as [|f l IH]; cbn [map dget]; [done|].
  destruct (decide (c = f)) as [->|Hne]; [rewrite decide_True by set_solver; done|].
  rewrite IH. destruct (decide (c ∈ l)); [rewrite decide_True by set_solver|rewrite decide_False by set_solver]; done.
Qed.

Lemma instances_of_clean r i s : ids_clean s -> i ∈ instances_of r s -> 93%N ∉ i.
Proof.
  unfold instances_of. intros Hi. destruct (dget (i_instances s) r) as [l|] eqn:E; cbn; [|set_solver].
  specialize (Hi r l E). rewrite Forall_forall in Hi. auto.
Qed.

Definition rows_spelled (q : rows_query) : bool :=
  match rq_filter q with Some f => spelled f | None => true end.

Lemma rows_instances_agree D q scope eqv s s' :
  rows_spelled q = true -> rows_filter_deps q ⊆ D -> 93%N ∉ rq_repeat q -> ids_clean s -> scope_clean scope ->
  agree_on D s s' -> rows_instances w q scope eqv s = rows_instances w q scope eqv s'.
Proof.
  intros Hsp Hd Hr Hi Hc Ha. pose proof (ag_instances _ _ _ Ha) as Hinst.
  assert (forall r, instances_of r s = instances_of r s') as Hio by (intros; unfold instances_of; by rewrite Hinst).
  unfold rows_instances. rewrite <- Hio.
  assert (forall i, i ∈ instances_of (rq_repeat q) s ->
          rows_candidate w q scope s i = rows_candidate w q scope s' i) as Hone.
  { intros i Hin. unfold rows_candidate. destruct (_ && _); [done|].
    unfold rows_spelled, rows_filter_deps in *. destruct (rq_filter q) as [f|]; [|done].
    apply (row_permitted_agree D); try done; [set_solver|]. intros c Hcol. rewrite !instance_row_get.
    case_decide; [|done]. unfold vget. rewrite (ag_values _ _ _ Ha); [done|].
    rewrite field_part_inst by eauto using instances_of_clean. set_solver. }
  apply filterR_ext, Forall_forall. intros i Hin. apply Hone.
  destruct eqv as [[]|]; try done; try (by apply not_elem_of_nil in Hin).
  case_bool_decide; [|by apply not_elem_of_nil in Hin]. apply list_elem_of_singleton in Hin. by subst.
Qed.

(** ** One field *)

(** The expressions of a field are spelled as 4.2 spells them. *)
Definition field_spelled (cf : cfield) : bool :=
  forallb (fun k => spelled (vget (cf_node cf) k)) FIELD_EXPRESSIONS &&
  forallb (fun a => match dget (f_containers (form w)) a with
                    | Some c => spelled (vget c "relevant")
                    | None => true
                    end) (cf_ancestors cf) &&
  match cf_choice_query cf with Some q => query_spelled q | None => true end &&
  match cf_rows_query cf with Some q => rows_spelled q | None => true end.

(** What deciding the relevance of a field, and computing its value, reads. *)
Definition pre_refs (cf : cfield) : gset pystr :=
  refs_of (vget (cf_node cf) "relevant") ∪ refs_of (vget (cf_node cf) "calculate") ∪
  ⋃ (map (fun a => match dget (f_containers (form w)) a with
                   | Some c => refs_of (vget c "relevant")
                   | None => ∅
                   end) (cf_ancestors cf)).

Lemma allR_ext {A} (p q : A -> res bool) l : Forall (fun a => p a = q a) l -> allR p l = allR q l.
Proof. induction 1 as [|a l E _ IH]; cbn [allR]; [done|]. by rewrite E, IH. Qed.

Lemma field_expr_spelled cf k : field_spelled cf = true -> k ∈ FIELD_EXPRESSIONS -> spelled (vget (cf_node cf) k) = true.
Proof.
  unfold field_spelled. rewrite !andb_true_iff. intros [[[H1 _] _] _] Hk. rewrite forallb_forall in H1.
  by apply H1, list_elem_of_In.
Qed.

Lemma field_relevant_agree D cf scope s s' :
  field_spelled cf = true -> pre_refs cf ⊆ D -> ids_clean s -> scope_clean scope -> agree_on D s s' ->
  field_relevant w cf scope s = field_relevant w cf scope s'.
Proof.
  intros Hsp Hd Hi Hc Ha. unfold field_relevant.
  rewrite (allR_ext (condition_holds w scope s) (condition_holds w scope s')).
  - destruct (allR _ _) as [b|]; [|done]. cbn [mbind res_bind]. destruct b; [|done].
    destruct (is_null _); [done|]. apply (eval_bool_agree D); try done.
    + apply field_expr_spelled; [done|vm_compute; set_solver].
    + unfold pre_refs in Hd. set_solver.
  - apply Forall_forall. intros a Hin. unfold condition_holds.
    destruct (dget (f_containers (form w)) a) as [c|] eqn:E; [|done]. destruct (is_null _); [done|].
    apply (eval_bool_agree D); try done.
    + unfold field_spelled in Hsp. rewrite !andb_true_iff in Hsp. destruct Hsp as [[[_ H2] _] _].
      rewrite forallb_forall in H2. specialize (H2 a (proj1 (list_elem_of_In _ _) Hin)). by rewrite E in H2.
    + intros x Hx. apply Hd, elem_of_union_r, elem_of_union_map. exists a. rewrite E. by split.
Qed.

Lemma eval_flag_agree D scope e s s' :
  spelled e = true -> refs_of e ⊆ D -> ids_clean s -> scope_clean scope -> agree_on D s s' ->
  eval_flag w scope e s = eval_flag w scope e s'.
Proof. intros. unfold eval_flag. destruct e; try done; by apply (eval_bool_agree D). Qed.

(** A field of a compiled form: what it depends on covers what it reads. *)
Lemma field_deps_cover f i cf k :
  field_inv f i cf -> k ∈ FIELD_EXPRESSIONS -> refs_of (vget (cf_node cf) k) ⊆ cf_depends_on cf.
Proof.
  intros Hf Hk x Hx. apply (fv_deps _ _ _ Hf), elem_of_union_l, elem_of_union_l.
  unfold field_expr_deps. do 3 apply elem_of_union_l. apply elem_of_union_map. eauto.
Qed.

Lemma pre_refs_cover i cf : field_inv (form w) i cf -> pre_refs cf ⊆ cf_depends_on cf.
Proof.
  intros Hf. unfold pre_refs. rewrite !union_subseteq. split_and!.
  - eapply field_deps_cover; [done|vm_compute; set_solver].
  - eapply field_deps_cover; [done|vm_compute; set_solver].
  - intros x Hx. apply (fv_deps _ _ _ Hf), elem_of_union_l, elem_of_union_l. unfold field_expr_deps. set_solver.
Qed.

Lemma choice_errors_agree D i cf v scope s s' :
  field_inv (form w) i cf -> field_spelled cf = true -> cf_depends_on cf ⊆ D ->
  (forall q, cf_rows_query cf = Some q -> 93%N ∉ rq_repeat q) ->
  ids_clean s -> scope_clean scope -> agree_on D s s' ->
  choice_errors w cf v scope s = choice_errors w cf v scope s'.
Proof.
  intros Hf Hsp Hd Hr Hi Hc Ha. unfold choice_errors. destruct (is_null v); [done|].
  unfold field_spelled in Hsp. rewrite !andb_true_iff in Hsp. destruct Hsp as [[_ Hq] Hrq].
  pose proof (fv_deps _ _ _ Hf) as Hdeps. unfold values_outside_choices.
  destruct (cf_rows_query cf) as [q|]; [|destruct (cf_choice_query cf) as [q|]; [|done]].
  - rewrite (filterR_ext _ (fun one => l ← rows_instances w q scope (Some one) s'; Ok (is_nil l))); [done|].
    apply Forall_forall. intros one _. rewrite (rows_instances_agree D q scope (Some one) s s'); try done; [|by apply Hr].
    cbn [opt_deps] in Hdeps. set_solver.
  - rewrite (filterR_ext _ (fun one => rows ← candidate_rows w q scope (Some one) s';
                          l ← rows_after_residual w q rows scope s'; Ok (is_nil l))); [done|].
    assert (dataset_filter_deps q ⊆ D) as Hqd by (cbn [opt_deps] in Hdeps; set_solver).
    apply Forall_forall. intros one _. rewrite (candidate_rows_agree D q scope (Some one) s s') by done.
    destruct (candidate_rows w q scope (Some one) s') as [rows|]; [|done]. cbn [mbind res_bind].
    by rewrite (rows_after_residual_agree D q rows scope s s').
Qed.

Lemma constraint_errors_agree D cf v scope s s' :
  field_spelled cf = true -> refs_of (vget (cf_node cf) "constraint") ⊆ D ->
  ids_clean s -> scope_clean scope -> agree_on D s s' ->
  constraint_errors w cf v scope s = constraint_errors w cf v scope s'.
Proof.
  intros Hsp Hd Hi Hc Ha. unfold constraint_errors. destruct (_ || _); [done|].
  rewrite (eval_bool_agree D _ _ _ s s'); try done. apply field_expr_spelled; [done|vm_compute; set_solver].
Qed.

End Frame.
