(* ===== verification/Recalculate.v ===== *)
(** * Recalculation settles (Form IR 5.2)

    The topological pass of [recalculate], as a sequence of cells (a field,
    or a field of one instance), and the theorem that after one pass every
    cell holds what evaluating it again would give: a second pass changes
    nothing. *)

From S2P Require Import Prelude PyStr PyNum PyDate Value Expr Expression ExpressionFacts Datasets.
From S2P Require Import Document Topo Compile CompileFacts Runtime RuntimeFrame.

(** ** Inverting successful runs *)

Lemma bind_inv {A B} (m : M A) (f : A -> M B) s s' b :
  (m ≫= f) s = (s', Ok b) -> exists s1 a, m s = (s1, Ok a) /\ f a s1 = (s', Ok b).
Proof. unfold mbind, M_bind. destruct (m s) as [s1 [a|e]] eqn:E; [|done]. eauto. Qed.

Lemma reads_inv {A} (f : inst -> res A) s s' a : reads f s = (s', Ok a) -> s' = s /\ f s = Ok a.
Proof. unfold reads. by intros [= <- ->]. Qed.

Lemma update_state_inv p f s s' a :
  update_state p f s = (s', Ok a) ->
  exists st, dget (i_states s) p = Some st /\ s' = with_states (dset (i_states s) p (f st)) s.
Proof.
  unfold update_state, get_state, set_state, reads, modify, mbind, M_bind.
  destruct (dget (i_states s) p) as [st|]; cbn; [|done]. intros [= <- _]. eauto.
Qed.

Lemma for_each_app {A} (l1 l2 : list A) body s s' :
  for_each (l1 ++ l2) body s = (s', Ok tt) <->
  exists s1, for_each l1 body s = (s1, Ok tt) /\ for_each l2 body s1 = (s', Ok tt).
Proof.
  revert s. induction l1 as [|a l1 IH]; intros s; cbn [app for_each].
  - split; [by eauto|]. by intros (s1 & [= <-] & ?).
  - unfold mbind, M_bind. destruct (body a s) as [s1 [[]|e]]; [apply IH|].
    split; [done|]. by intros (? & ? & ?).
Qed.

Lemma dset_dset {A} (d : odict A) k v1 v2 : dset (dset d k v1) k v2 = dset d k v2.
Proof. induction d as [|[k' v'] d IH]; simpl; repeat (case_decide; simpl); congruence. Qed.

(** [inst_path] determines its three parts. *)
Lemma inst_path_inj r i f r' i' f' :
  91%N ∉ r -> 91%N ∉ r' -> 93%N ∉ i -> 93%N ∉ i' ->
  inst_path r i f = inst_path r' i' f' -> r = r' /\ i = i' /\ f = f'.
Proof.
  rewrite !inst_path_cons. intros Hr Hr' Hi Hi' H.
  assert (cut [91%N] (r ++ 91%N :: (i ++ 93%N :: 46%N :: f)) = cut [91%N] (r' ++ 91%N :: (i' ++ 93%N :: 46%N :: f')))
    as Hc by (by rewrite H).
  rewrite !cut_char in Hc by done. injection Hc as -> Hrest.
  assert (cut [93%N] (i ++ 93%N :: 46%N :: f) = cut [93%N] (i' ++ 93%N :: 46%N :: f')) as Hc by (by rewrite Hrest).
  rewrite !cut_char in Hc by done. by injection Hc as -> ->.
Qed.

Section Recalculate.
Context `{PyEnv} (w : world).

Definition cell : Type := pystr * pystr * option (pystr * pystr).

Definition cells_of (s : inst) (fid : pystr) : list cell :=
  match dget (f_fields (form w)) fid with
  | None => []
  | Some cf =>
      match cf_repeat cf with
      | None => [(fid, fid, None)]
      | Some r => map (fun i => (fid, inst_path r i fid, Some (r, i))) (instances_of r s)
      end
  end.

(** The cells of the form, in evaluation order. *)
Definition cells (s : inst) : list cell := concat (map (cells_of s) (f_topo_order (form w))).

Definition eval_cell (c : cell) : M unit := let '(fid, path, scope) := c in evaluate_field w fid path scope.

Definition has_calculate (cf : cfield) : bool := negb (is_null (vget (cf_node cf) "calculate")).

(** What evaluating a cell in a state gives: its value and its state. *)
Definition cell_result (cf : cfield) (path : pystr) (scope : option (pystr * pystr)) (s : inst)
    : res (value * field_state) :=
  let node := cf_node cf in
  st0 ← of_option KeyError (dget (i_states s) path);
  relevant ← field_relevant w cf scope s;
  let computed := has_calculate cf && relevant in
  v ← (if computed then eval_in w scope (vget node "calculate") s
       else of_option KeyError (dget (i_values s) path));
  let s1 := if computed then with_values (dset (i_values s) path v) s else s in
  required ← eval_flag w scope (vget node "required") s1;
  read_only ← eval_flag w scope (vget node "readOnly") s1;
  errors ← (if relevant then
              c ← choice_errors w cf v scope s1;
              k ← constraint_errors w cf v scope s1;
              Ok ((if required && is_null v then [ERequired] else []) ++ c ++ k)
            else Ok []);
  Ok (v, FieldState (fs_path st0) (fs_data_type st0) relevant required read_only v (is_nil errors) errors).

(** The state a cell's evaluation leaves. *)
Definition write_cell (path : pystr) (v : value) (st : field_state) (s : inst) : inst :=
  with_states (dset (i_states s) path st) (with_values (dset (i_values s) path v) s).

Lemma is_nil_app {A} (l m : list A) : is_nil (l ++ m) = is_nil l && is_nil m.
Proof. by destruct l, m. Qed.

Lemma with_values_same p v s : dget (i_values s) p = Some v -> with_values (dset (i_values s) p v) s = s.
Proof. intros Hv. rewrite dset_same_get by done. by destruct s. Qed.

(** The monadic body computes [cell_result] and writes it. *)
Lemma evaluate_field_outcome fid path scope s s' :
  evaluate_field w fid path scope s = (s', Ok tt) ->
  exists cf v st, dget (f_fields (form w)) fid = Some cf /\
    cell_result cf path scope s = Ok (v, st) /\ s' = write_cell path v st s /\
    (has_calculate cf = false -> dget (i_values s) path = Some v).
Proof.
  unfold evaluate_field. intros Hrun.
  apply bind_inv in Hrun as (sa & cf & Hm & Hrun). apply reads_inv in Hm as [-> Hcf].
  destruct (dget (f_fields (form w)) fid) as [cf'|]; [|done]. injection Hcf as ->.
  apply bind_inv in Hrun as (sa & [] & Hm & Hrun). apply update_state_inv in Hm as (st0 & Hst & ->).
  apply bind_inv in Hrun as (sa & relevant & Hm & Hrun). apply reads_inv in Hm as [-> Hrel].
  apply bind_inv in Hrun as (sa & [] & Hm & Hrun). apply update_state_inv in Hm as (st1 & Hst1 & ->).
  apply bind_inv in Hrun as (sb & [] & Hcalc & Hrun).
  apply bind_inv in Hrun as (sa & v & Hm & Hrun). apply reads_inv in Hm as [-> Hv].
  apply bind_inv in Hrun as (sa & [] & Hm & Hrun). apply update_state_inv in Hm as (st2 & Hst2 & ->).
  apply bind_inv in Hrun as (sa & required & Hm & Hrun). apply reads_inv in Hm as [-> Hreq].
  apply bind_inv in Hrun as (sa & [] & Hm & Hrun). apply update_state_inv in Hm as (st3 & Hst3 & ->).
  apply bind_inv in Hrun as (sa & ro & Hm & Hrun). apply reads_inv in Hm as [-> Hro].
  apply bind_inv in Hrun as (sa & [] & Hm & Hrun). apply update_state_inv in Hm as (st4 & Hst4 & ->).
  cbn [with_states with_values i_states i_values] in *.
  rewrite dget_dset_eq in Hst1. injection Hst1 as <-. rewrite dset_dset in *.
  exists cf, v.
  (* the two cases of the calculate *)
  set (computed := has_calculate cf && relevant).
  set (s1 := if computed then with_values (dset (i_values s) path v) s else s).
  assert (exists st, i_states sb = dset (i_states s) path st /\ fs_path st = fs_path st0 /\
            fs_data_type st = fs_data_type st0 /\ fs_relevant st = relevant /\ fs_errors st = [] /\
            sb = with_states (dset (i_states s) path st) s1 /\
            (if computed then eval_in w scope (vget (cf_node cf) "calculate") s
             else of_option KeyError (dget (i_values s) path)) = Ok v /\
            (computed = false -> dget (i_values s) path = Some v))
    as (st & Esb & Hp & Hd & Hr & He & Hsb & Hcv & Hnc).
  { unfold when in Hcalc. change (negb (is_null (vget (cf_node cf) "calculate"))) with (has_calculate cf) in Hcalc.
    fold computed in Hcalc. subst s1. destruct computed.
    - apply bind_inv in Hcalc as (sa & v' & Hm & Hset). apply reads_inv in Hm as [-> Hv'].
      unfold set_value, modify in Hset. injection Hset as <-. cbn [with_values i_values i_states with_states] in *.
      rewrite dget_dset_eq in Hv. injection Hv as ->. eexists. split_and!; [done..|by intros].
    - injection Hcalc as <-. cbn [with_states i_values i_states] in *. rewrite Hv.
      destruct (dget (i_values s) path) as [v'|]; [|done]. cbn in Hv. injection Hv as ->.
      eexists. split_and!; done. }
  clear Hcalc Hv. subst sb. cbn [with_states i_states i_values with_values] in *.
  assert (forall d, dget (dset (i_states s1) path d) path = Some d) as Hg by (intros; apply dget_dset_eq).
  assert (i_states s1 = i_states s) as Es1 by (subst s1; by destruct computed). rewrite Es1 in *. clear Esb.
  rewrite ?dset_dset, ?dget_dset_eq in *. injection Hst2 as <-. cbn [fs_path fs_data_type fs_relevant fs_required
    fs_read_only fs_value fs_valid fs_errors] in *.
  rewrite ?dset_dset, ?dget_dset_eq in *. injection Hst3 as <-. cbn [fs_path fs_data_type fs_relevant fs_required
    fs_read_only fs_value fs_valid fs_errors] in *.
  rewrite ?dset_dset, ?dget_dset_eq in *. injection Hst4 as <-. cbn [fs_path fs_data_type fs_relevant fs_required
    fs_read_only fs_value fs_valid fs_errors] in *.
  rewrite ?dset_dset in *. rewrite Hp, Hd, Hr, He in *. clear Hg.
  change (eval_flag w scope (vget (cf_node cf) "required") s1 = Ok required) in Hreq.
  change (eval_flag w scope (vget (cf_node cf) "readOnly") s1 = Ok ro) in Hro.
  change (field_relevant w cf scope s = Ok relevant) in Hrel.
  assert (s1 = with_values (dset (i_values s) path v) s) as Hs1.
  { subst s1. destruct computed; [done|]. symmetry. apply with_values_same. auto. }
  assert (has_calculate cf = false -> dget (i_values s) path = Some v) as Hfinal.
  { intros Hc. apply Hnc. unfold computed. by rewrite Hc. }
  unfold cell_result. rewrite Hst, Hrel. cbn [mbind res_bind of_option]. fold computed. rewrite Hcv.
  cbn [mbind res_bind]. fold s1. rewrite Hreq, Hro. cbn [mbind res_bind].
  unfold write_cell. rewrite <- Hs1. destruct relevant; unfold when in Hrun.
  - apply bind_inv in Hrun as (sa & [] & Hm & Hrun). apply update_state_inv in Hm as (st5 & Hst5 & ->).
    cbn [with_states i_states] in Hst5. rewrite dget_dset_eq in Hst5. injection Hst5 as <-.
    apply bind_inv in Hrun as (sa & l1 & Hm & Hrun). apply reads_inv in Hm as [-> Hl1].
    apply bind_inv in Hrun as (sa & [] & Hm & Hrun). apply update_state_inv in Hm as (st6 & Hst6 & ->).
    cbn [with_states i_states] in Hst6. rewrite dget_dset_eq in Hst6. injection Hst6 as <-.
    apply bind_inv in Hrun as (sa & l2 & Hm & Hrun). apply reads_inv in Hm as [-> Hl2].
    apply update_state_inv in Hrun as (st7 & Hst7 & ->).
    cbn [with_states i_states] in Hst7. rewrite dget_dset_eq in Hst7. injection Hst7 as <-.
    change (choice_errors w cf v scope s1 = Ok l1) in Hl1.
    change (constraint_errors w cf v scope s1 = Ok l2) in Hl2.
    rewrite Hl1, Hl2. cbn [mbind res_bind]. eexists. split_and!; [done|done| |done].
    unfold with_states. cbn [i_states i_values i_instances i_row_keys i_row_labels i_rows_resolved i_serial
      fs_path fs_data_type fs_relevant fs_required fs_read_only fs_value fs_valid fs_errors].
    rewrite ?dset_dset, ?is_nil_app, ?app_nil_l, ?Es1. cbn [andb]. by rewrite <- app_assoc, andb_assoc.
  - injection Hrun as <-. eexists. split_and!; [done|done| |done].
    unfold with_states. cbn. by rewrite ?dset_dset, ?Es1.
Qed.

(** ** The pass, cell by cell *)

Definition same_shape (s s' : inst) : Prop := i_instances s' = i_instances s.

Lemma eval_cell_shape c s s' : eval_cell c s = (s', Ok tt) -> same_shape s s'.
Proof.
  destruct c as [[fid path] scope]. intros Hrun.
  by apply evaluate_field_outcome in Hrun as (cf & v & st & _ & _ & -> & _).
Qed.

Lemma cells_of_shape fid s s' : same_shape s s' -> cells_of s' fid = cells_of s fid.
Proof. intros Hs. unfold cells_of, instances_of. by rewrite Hs. Qed.

Lemma run_cells_shape l s s' : for_each l eval_cell s = (s', Ok tt) -> same_shape s s'.
Proof.
  revert s. induction l as [|c l IH]; intros s; cbn [for_each]; [by intros [= <-]|].
  intros Hrun. apply bind_inv in Hrun as (s1 & [] & H1 & H2). apply eval_cell_shape in H1. apply IH in H2.
  unfold same_shape in *. congruence.
Qed.

Lemma for_each_map {A B} (g : A -> B) l body s : for_each (map g l) body s = for_each l (fun a => body (g a)) s.
Proof.
  revert s. induction l as [|a l IH]; intros s; cbn [map for_each]; [done|].
  unfold mbind, M_bind. destruct (body (g a) s) as [s1 [[]|e]]; [apply IH|done].
Qed.

Lemma evaluate_everywhere_cells fid s s' :
  evaluate_everywhere w fid s = (s', Ok tt) -> for_each (cells_of s fid) eval_cell s = (s', Ok tt).
Proof.
  unfold evaluate_everywhere, cells_of. destruct (dget (f_fields (form w)) fid) as [cf|]; [|done].
  destruct (cf_repeat cf) as [r|].
  - intros Hrun. apply bind_inv in Hrun as (s1 & ids & Hm & Hrun). injection Hm as <- <-.
    rewrite for_each_map. exact Hrun.
  - intros Hrun. cbn [for_each eval_cell]. unfold mbind, M_bind. by rewrite Hrun.
Qed.

Lemma evaluate_all_cells s s' :
  evaluate_all w s = (s', Ok tt) -> for_each (cells s) eval_cell s = (s', Ok tt).
Proof.
  unfold evaluate_all, cells. revert s. induction (f_topo_order (form w)) as [|fid l IH]; intros s; cbn [for_each map concat]; [done|].
  intros Hrun. apply bind_inv in Hrun as (s1 & [] & H1 & H2). apply evaluate_everywhere_cells in H1.
  apply for_each_app. exists s1. split; [done|]. apply IH in H2.
  pose proof (run_cells_shape _ _ _ H1) as Hs.
  erewrite map_ext; [exact H2|]. intros f. symmetry. by apply cells_of_shape.
Qed.

(** Values change only at calculated cells, states only at evaluated ones. *)
Definition calculated (c : cell) : bool :=
  match dget (f_fields (form w)) c.1.1 with Some cf => has_calculate cf | None => false end.

Lemma run_cells_frame l s s' :
  for_each l eval_cell s = (s', Ok tt) ->
  (forall k, (forall c, c ∈ l -> calculated c = true -> c.1.2 <> k) -> dget (i_values s') k = dget (i_values s) k) /\
  (forall k, (forall c, c ∈ l -> c.1.2 <> k) -> dget (i_states s') k = dget (i_states s) k).
Proof.
  revert s. induction l as [|c l IH]; intros s; cbn [for_each]; [by intros [= <-]|].
  intros Hrun. apply bind_inv in Hrun as (s1 & [] & H1 & H2). apply IH in H2 as [IHv IHs].
  destruct c as [[fid path] scope]. apply evaluate_field_outcome in H1 as (cf & v & st & Hcf & _ & -> & Hnc).
  split.
  - intros k Hk. rewrite IHv by (intros c Hc; apply Hk; set_solver). unfold write_cell.
    cbn [i_values with_states with_values]. rewrite dget_dset. case_decide as Hkp; [subst|done].
    destruct (has_calculate cf) eqn:Ec; [|symmetry; by apply Hnc].
    exfalso. apply (Hk (fid, path, scope)); [set_solver| |done]. unfold calculated. cbn. by rewrite Hcf.
  - intros k Hk. rewrite IHs by (intros c Hc; apply Hk; set_solver). unfold write_cell.
    cbn [i_states with_states with_values]. rewrite dget_dset. case_decide as Hkp; [subst|done].
    exfalso. by apply (Hk (fid, path, scope)); [set_solver|].
Qed.

(** ** The settled state *)

Definition cell_settled (s : inst) (c : cell) : Prop :=
  let '(fid, path, scope) := c in
  exists cf v st, dget (f_fields (form w)) fid = Some cf /\ cell_result cf path scope s = Ok (v, st) /\
    dget (i_values s) path = Some v /\ dget (i_states s) path = Some st.

(** Every cell holds what evaluating it again gives. *)
Definition settled (s : inst) : Prop := Forall (cell_settled s) (cells s).

(** What a form must be for one pass to settle it: references spelled as 4.2
    spells them, and no calculate that feeds its own value or relevance, or
    sums its own instances. *)
Definition settling_field (i : pystr) (cf : cfield) : bool :=
  field_spelled w cf &&
  (negb (has_calculate cf) ||
   (negb (bool_decide (i ∈ pre_refs w cf)) &&
    (negb (bool_decide (i ∈ cf_depends_on cf)) || bool_decide (cf_repeat cf = None)))).

Definition settling_form : bool := forallb (fun kf => settling_field kf.1 kf.2) (f_fields (form w)).

(** Instance ids without a closing bracket, each once. *)
Record instances_clean (s : inst) : Prop := {
  ic_clean : ids_clean s;
  ic_nodup : forall r, NoDup (instances_of r s)
}.

Hypothesis form_compiled : compiled (form w).

Lemma field_plain i cf : dget (f_fields (form w)) i = Some cf -> bracket_free i.
Proof. intros Hi. apply id_pattern_plain. eapply fv_pattern, (fm_field _ (cp_form _ form_compiled)), Hi. Qed.

Lemma repeat_plain i cf r : dget (f_fields (form w)) i = Some cf -> cf_repeat cf = Some r -> bracket_free r.
Proof.
  intros Hi Hr. pose proof (fm_field _ (cp_form _ form_compiled) _ _ Hi) as Hf.
  apply id_pattern_plain, (fm_pattern _ (cp_form _ form_compiled)).
  rewrite (fv_repeat _ _ _ Hf) in Hr. apply head_Some_elem_of in Hr.
  unfold enclosing_repeats in Hr. apply list_elem_of_In, filter_In in Hr as [_ Hr].
  apply (fm_repeat_container _ (cp_form _ form_compiled)). by apply dhas_spec.
Qed.

(** A cell: its field, its path and its scope go together. *)
Definition cell_ok (s : inst) (c : cell) : Prop :=
  let '(fid, path, scope) := c in
  exists cf, dget (f_fields (form w)) fid = Some cf /\ cf_repeat cf = option_map fst scope /\
    field_part path = fid /\ scope_clean scope /\
    match scope with
    | None => path = fid
    | Some (r, i) => path = inst_path r i fid /\ i ∈ instances_of r s
    end.

Lemma cells_of_ok s fid c : ids_clean s -> c ∈ cells_of s fid -> c.1.1 = fid /\ cell_ok s c.
Proof.
  intros Hids. unfold cells_of. destruct (dget (f_fields (form w)) fid) as [cf|] eqn:Ef; [|set_solver].
  destruct (cf_repeat cf) as [r|] eqn:Er.
  - intros (i & -> & Hi)%list_elem_of_fmap. split; [done|]. exists cf.
    destruct (repeat_plain _ _ _ Ef Er) as (_ & Hr & _).
    assert (93%N ∉ i) as Hic by (by eapply instances_of_clean).
    split_and!; try done; [by apply field_part_inst|]. by intros r' i' [= <- <-].
  - intros ->%list_elem_of_singleton. split; [done|]. exists cf. split_and!; try done.
    apply plain_field_part. by eapply field_plain.
Qed.

Lemma cell_path_inj s c c' : ids_clean s -> cell_ok s c -> cell_ok s c' -> c.1.2 = c'.1.2 -> c = c'.
Proof.
  destruct c as [[f p] sc], c' as [[f' p'] sc']. cbn [fst snd].
  intros Hids (cf & Hcf & Hr & Hfp & Hsc & Hp) (cf' & Hcf' & Hr' & Hfp' & Hsc' & Hp') ->.
  assert (f = f') as <- by congruence. assert (cf' = cf) as -> by congruence.
  destruct sc as [[r i]|], sc' as [[r' i']|]; simpl in *; try congruence.
  destruct Hp as [-> _], Hp' as [Hp' _].
  assert (r' = r) as -> by congruence. destruct (repeat_plain _ _ _ Hcf Hr) as (H91 & _ & _).
  destruct (Hsc r i eq_refl), (Hsc' r i' eq_refl).
  apply inst_path_inj in Hp' as (_ & -> & _); done.
Qed.

Lemma cells_nodup s : instances_clean s -> NoDup (map (fun c => c.1.2) (cells s)).
Proof.
  intros [Hids Hnd]. pose proof (cp_topo _ form_compiled) as [Hperm _].
  assert (NoDup (f_topo_order (form w))) as Ht.
  { rewrite Hperm, (fm_order _ (cp_form _ form_compiled)). apply (cp_form _ form_compiled). }
  apply NoDup_fmap_2_strong.
  - intros c c' Hc Hc'. apply list_elem_of_In, in_concat in Hc as (l & Hl & Hc), Hc' as (l' & Hl' & Hc').
    apply in_map_iff in Hl as (fid & <- & _), Hl' as (fid' & <- & _).
    apply list_elem_of_In in Hc, Hc'. apply cells_of_ok in Hc as [_ Hc], Hc' as [_ Hc']; [|done..].
    by apply (cell_path_inj s).
  - unfold cells. clear Hperm. induction Ht as [|fid l Hfid _ IH]; cbn [map concat]; [constructor|].
    apply NoDup_app. split_and!; [| |apply IH].
    + unfold cells_of. destruct (dget _ fid) as [cf|]; [|constructor]. destruct (cf_repeat cf) as [r|];
        [|apply NoDup_singleton]. apply NoDup_fmap_2_strong; [|done]. by intros i i' _ _ [= _ ?].
    + intros c Hc Hc'. apply cells_of_ok in Hc as [Hc _]; [|done].
      apply list_elem_of_In, in_concat in Hc' as (l' & Hl' & Hc'). apply in_map_iff in Hl' as (g & <- & Hg).
      apply list_elem_of_In in Hc', Hg. apply cells_of_ok in Hc' as [Hc' _]; [|done]. congruence.
Qed.

(** A field that another depends on is not evaluated after it. *)
Lemma later_cell_not_dep s pre c post c' cf :
  ids_clean s -> cells s = pre ++ c :: post -> c' ∈ post ->
  dget (f_fields (form w)) c.1.1 = Some cf -> c'.1.1 ∈ cf_depends_on cf -> c'.1.1 = c.1.1.
Proof.
  intros Hids Hcells Hc' Hcf Hdep. destruct (decide (c'.1.1 = c.1.1)) as [|Hne]; [done|]. exfalso.
  pose proof (cp_topo _ form_compiled) as [Hperm Hbefore].
  assert (NoDup (f_topo_order (form w))) as Hnd.
  { rewrite Hperm, (fm_order _ (cp_form _ form_compiled)). apply (cp_form _ form_compiled). }
  (* the fields of the cells, in order, follow the topological order *)
  assert (forall l pre c post, NoDup l -> concat (map (cells_of s) l) = pre ++ c :: post -> c' ∈ post ->
          c'.1.1 <> c.1.1 -> exists l1 l2, l = l1 ++ c.1.1 :: l2 /\ c'.1.1 ∈ l2) as Hsplit.
  { clear - Hids form_compiled. induction l as [|f l IH]; intros pre c post Hn Heq Hc' Hne; cbn [map concat] in Heq.
    { by destruct pre. }
    apply NoDup_cons in Hn as [Hf Hn]. apply app_eq_app in Heq as (l' & [[Heq Hp]|[Heq Hp]]).
    - destruct l' as [|x l'].
      + destruct (IH [] c post Hn (eq_sym Hp) Hc' Hne) as (l1 & l2 & -> & Hl2). by exists (f :: l1), l2.
      + simplify_eq/=. assert (x.1.1 = f) as Hx.
        { apply (cells_of_ok s f x Hids). rewrite Heq. set_solver. }
        exists [], l. rewrite Hx. split; [done|].
        apply elem_of_app in Hc' as [Hc'|Hc'].
        * exfalso. apply Hne. rewrite Hx. apply (cells_of_ok s f c' Hids). rewrite Heq. set_solver.
        * apply list_elem_of_In, in_concat in Hc' as (m & Hm & Hc'). apply in_map_iff in Hm as (g & <- & Hg).
          apply list_elem_of_In in Hc', Hg. apply cells_of_ok in Hc' as [-> _]; done.
    - destruct (IH l' c post Hn Hp Hc' Hne) as (l1 & l2 & -> & Hl2). by exists (f :: l1), l2. }
  destruct (Hsplit _ _ _ _ Hnd Hcells Hc' Hne) as (l1 & l2 & Htopo & Hl2).
  assert (f_topo_order (form w) !! length l1 = Some c.1.1) as Hpos by (rewrite Htopo; by rewrite list_lookup_middle).
  assert (c'.1.1 ∈ f_topo_order (form w)) as Hin' by (rewrite Htopo; set_solver).
  rewrite Hperm, (fm_order _ (cp_form _ form_compiled)) in Hin'. pose proof Hin' as Hfield'.
  apply dget_elem in Hfield' as (cf' & Hcf').
  assert (c'.1.1 ∈ take (length l1) (f_topo_order (form w))) as Htake.
  { eapply Hbefore; [exact Hpos|]. unfold field_deps. rewrite Hcf. apply list_elem_of_In, filter_In. split.
    - apply in_map_iff. exists c'.1.1. split; [apply plain_base; by eapply field_plain|].
      by apply list_elem_of_In, elem_of_elements.
    - apply andb_true_iff. split; [by apply dhas_spec|]. apply negb_true_iff. by apply bool_decide_eq_false. }
  rewrite Htopo, take_app_length in Htake. rewrite Htopo in Hnd. apply NoDup_app in Hnd as (_ & Hdis & _).
  apply (Hdis _ Htake). set_solver.
Qed.

Hypothesis form_settles : settling_form = true.

Lemma settling_of i cf : dget (f_fields (form w)) i = Some cf -> settling_field i cf = true.
Proof.
  intros Hi%dget_Some_elem. unfold settling_form in form_settles. rewrite forallb_forall in form_settles.
  apply (form_settles (i, cf)). by apply list_elem_of_In.
Qed.

Lemma field_calculate_subset cf : refs_of (vget (cf_node cf) "calculate") ⊆ pre_refs w cf.
Proof. unfold pre_refs. set_solver. Qed.

Lemma rows_repeat_clean i cf q :
  dget (f_fields (form w)) i = Some cf -> cf_rows_query cf = Some q -> 93%N ∉ rq_repeat q.
Proof.
  intros Hi Hq. pose proof (cp_rows _ form_compiled _ _ _ Hi Hq) as Hr.
  apply (fm_repeat_container _ (cp_form _ form_compiled)) in Hr.
  by destruct (id_pattern_plain _ (fm_pattern _ (cp_form _ form_compiled) _ Hr)) as (_ & ? & _).
Qed.

(** Evaluating a cell again, in a state that agrees on what it read. *)
Lemma cell_result_agree i cf path scope s s' v st :
  dget (f_fields (form w)) i = Some cf -> field_spelled w cf = true ->
  ids_clean s -> scope_clean scope ->
  agree_on (pre_refs w cf) s s' ->
  agree_on (cf_depends_on cf) (with_values (dset (i_values s) path v) s) s' ->
  dget (i_values s') path = Some v -> dget (i_states s') path = Some st ->
  cell_result cf path scope s = Ok (v, st) -> cell_result cf path scope s' = Ok (v, st).
Proof.
  intros Hi Hsp Hids Hsc Hpre Hdep Hv Hst.
  pose proof (fm_field _ (cp_form _ form_compiled) _ _ Hi) as Hf.
  unfold cell_result. destruct (dget (i_states s) path) as [st0|]; [|done]. rewrite Hst. cbn [of_option mbind res_bind].
  rewrite (field_relevant_agree w (pre_refs w cf) cf scope s s') by done.
  destruct (field_relevant w cf scope s') as [rel|]; [|done]. cbn [mbind res_bind].
  set (computed := has_calculate cf && rel).
  assert (forall x, (if computed then eval_in w scope (vget (cf_node cf) "calculate") s
             else of_option KeyError (dget (i_values s) path)) = Ok x -> x = v ->
          (if computed then eval_in w scope (vget (cf_node cf) "calculate") s'
             else of_option KeyError (dget (i_values s') path)) = Ok v /\
          (if computed then with_values (dset (i_values s) path v) s else s) = with_values (dset (i_values s) path v) s)
    as Hcomp.
  { intros x Hx ->. destruct computed.
    - split; [|done]. rewrite <- (eval_in_agree w (pre_refs w cf) scope _ s s'); try done;
        [by apply (field_expr_spelled w); [|vm_compute; set_solver]|apply field_calculate_subset].
    - rewrite Hv. split; [done|]. symmetry. apply with_values_same. by destruct (dget (i_values s) path); simplify_eq/=. }
  destruct (if computed then eval_in w scope _ s else _) as [x|] eqn:Ex; [|done].
  cbn [mbind res_bind]. intros Hrun.
  assert (x = v) as ->.
  { revert Hrun. repeat (match goal with |- context [?m ≫= _] => destruct m; [cbn [mbind res_bind]|done] end).
    congruence. }
  destruct (Hcomp v eq_refl eq_refl) as [-> Es1]. rewrite Es1 in Hrun. cbn [mbind res_bind].
  assert ((if computed then with_values (dset (i_values s') path v) s' else s') = s') as Es2
    by (destruct computed; [by apply with_values_same|done]).
  rewrite Es2. clear Es1 Es2 Hcomp Ex. set (s1 := with_values (dset (i_values s) path v) s) in *.
  assert (ids_clean s1) as Hids1 by done.
  assert (forall k, k ∈ FIELD_EXPRESSIONS -> spelled (vget (cf_node cf) k) = true) as Hspk
    by (intros; by apply (field_expr_spelled w)).
  assert (forall k, k ∈ FIELD_EXPRESSIONS -> refs_of (vget (cf_node cf) k) ⊆ cf_depends_on cf) as Hdk
    by (intros; by eapply field_deps_cover).
  assert (lit "required" ∈ FIELD_EXPRESSIONS /\ lit "readOnly" ∈ FIELD_EXPRESSIONS /\ lit "constraint" ∈ FIELD_EXPRESSIONS)
    as (Kreq & Kro & Kc) by (vm_compute; set_solver).
  rewrite <- !(eval_flag_agree w (cf_depends_on cf) scope _ s1 s') by auto.
  rewrite <- (choice_errors_agree w (cf_depends_on cf) i cf v scope s1 s') by eauto using rows_repeat_clean.
  rewrite <- (constraint_errors_agree w (cf_depends_on cf) cf v scope s1 s') by auto.
  destruct (eval_flag w scope (vget (cf_node cf) "required") s1) as [req|]; [|done]. cbn [mbind res_bind] in *.
  destruct (eval_flag w scope (vget (cf_node cf) "readOnly") s1) as [ro|]; [|done]. cbn [mbind res_bind] in *.
  match goal with |- ?m ≫= _ = _ => destruct m as [errs|]; [|done] end. cbn [mbind res_bind] in *.
  injection Hrun as <-. reflexivity.
Qed.

Lemma cell_in_cells s c : ids_clean s -> c ∈ cells s -> cell_ok s c.
Proof.
  intros Hids Hc. apply list_elem_of_In, in_concat in Hc as (l & Hl & Hc).
  apply in_map_iff in Hl as (fid & <- & _). apply list_elem_of_In in Hc. by eapply cells_of_ok.
Qed.

(** A calculated cell evaluated later writes nothing this one read. *)
Lemma later_write_disjoint s pre c post c' cf :
  instances_clean s -> cells s = pre ++ c :: post -> c' ∈ post ->
  dget (f_fields (form w)) c.1.1 = Some cf -> calculated c' = true ->
  (c'.1.1 ∈ pre_refs w cf -> False) /\ (c'.1.1 ∈ cf_depends_on cf -> False).
Proof.
  intros Hic Hcells Hc' Hcf Hcalc. pose proof (ic_clean _ Hic) as Hids.
  pose proof (settling_of _ _ Hcf) as Hset. unfold settling_field in Hset. apply andb_true_iff in Hset as [_ Hset].
  assert (c'.1.1 = c.1.1 -> has_calculate cf = true) as Hsame.
  { intros E. unfold calculated in Hcalc. rewrite E, Hcf in Hcalc. done. }
  split; intros Hin.
  - pose proof (fm_field _ (cp_form _ form_compiled) _ _ Hcf) as Hf.
    assert (c'.1.1 = c.1.1) as E by (eapply later_cell_not_dep; try done; by eapply pre_refs_cover).
    rewrite (Hsame E) in Hset. cbn in Hset. apply andb_true_iff in Hset as [Hset _].
    apply negb_true_iff, bool_decide_eq_false in Hset. rewrite E in Hin. done.
  - assert (c'.1.1 = c.1.1) as E by (by eapply later_cell_not_dep).
    rewrite (Hsame E) in Hset. cbn in Hset. apply andb_true_iff in Hset as [_ Hset].
    rewrite E in Hin. rewrite (bool_decide_eq_true_2 _ Hin) in Hset. cbn in Hset.
    apply bool_decide_eq_true in Hset.
    assert (cell_ok s c) as Hok by (apply cell_in_cells; [done|rewrite Hcells; set_solver]).
    assert (cell_ok s c') as Hok' by (apply cell_in_cells; [done|rewrite Hcells; set_solver]).
    pose proof (cells_nodup s Hic) as Hnd. rewrite Hcells, map_app in Hnd. cbn [map] in Hnd.
    apply NoDup_app in Hnd as (_ & _ & Hnd). apply NoDup_cons in Hnd as [Hnd _]. apply Hnd, list_elem_of_fmap.
    exists c'. split; [|done]. destruct c as [[f p] sc], c' as [[f' p'] sc']. cbn [fst snd] in *. subst f'.
    destruct Hok as (cf1 & H1 & H2 & _ & _ & H3), Hok' as (cf2 & H4 & H5 & _ & _ & H6).
    assert (cf1 = cf) as -> by congruence. assert (cf2 = cf) as -> by congruence.
    rewrite Hset in H2, H5. destruct sc; [done|]. destruct sc'; [done|]. congruence.
Qed.

Lemma dset_other {A} (d : odict A) k k' v : k <> k' -> dget (dset d k v) k' = dget d k'.
Proof. intros Hne. by apply dget_dset_ne. Qed.

(** One pass leaves every cell settled. *)
Lemma evaluate_all_settles s s' :
  instances_clean s -> evaluate_all w s = (s', Ok tt) -> settled s'.
Proof.
  intros Hic Hrun. pose proof (ic_clean _ Hic) as Hids. apply evaluate_all_cells in Hrun.
  pose proof (run_cells_shape _ _ _ Hrun) as Hshape.
  assert (cells s' = cells s) as Ecells.
  { unfold cells. f_equal. apply map_ext. intros f. by apply cells_of_shape. }
  unfold settled. rewrite Ecells. apply Forall_forall. intros c Hc.
  apply list_elem_of_split in Hc as (pre & post & Hcells). rewrite Hcells in Hrun.
  apply for_each_app in Hrun as (sc & Hpre & Hrun). cbn [for_each] in Hrun.
  apply bind_inv in Hrun as (s1 & [] & Hcell & Hpost).
  pose proof (run_cells_shape _ _ _ Hpre) as Hsh.
  assert (ids_clean sc) as Hidc by (intros r l; rewrite Hsh; apply Hids).
  assert (cell_ok s c) as Hok by (apply cell_in_cells; [done|rewrite Hcells; set_solver]).
  destruct c as [[fid path] scope]. cbn [eval_cell] in Hcell.
  apply evaluate_field_outcome in Hcell as (cf & v & st & Hcf & Hres & -> & Hnc).
  apply run_cells_frame in Hpost as [Hpv Hps].
  assert (forall c', c' ∈ post -> calculated c' = true ->
            (c'.1.1 ∈ pre_refs w cf -> False) /\ (c'.1.1 ∈ cf_depends_on cf -> False)) as Hdis
    by (intros; by eapply later_write_disjoint).
  assert (forall c', c' ∈ post -> c'.1.2 <> path) as Hpath.
  { intros c' Hc' E. pose proof (cells_nodup s Hic) as Hnd. rewrite Hcells, map_app in Hnd. cbn [map] in Hnd.
    apply NoDup_app in Hnd as (_ & _ & Hnd). apply NoDup_cons in Hnd as [Hnd _]. apply Hnd, list_elem_of_fmap. eauto. }
  assert (forall c', c' ∈ post -> field_part c'.1.2 = c'.1.1) as Hfp.
  { intros c' Hc'. assert (cell_ok s c') as Hok' by (apply cell_in_cells; [done|rewrite Hcells; set_solver]).
    destruct c' as [[f' p'] sc']. by destruct Hok' as (? & _ & _ & ? & _). }
  destruct Hok as (cf' & Hcf' & _ & Hfpath & Hsc & _). assert (cf' = cf) as -> by congruence.
  assert (dget (i_values s') path = Some v) as Hv'.
  { rewrite Hpv by (intros; by apply Hpath). unfold write_cell. cbn. apply dget_dset_eq. }
  assert (dget (i_states s') path = Some st) as Hst'.
  { rewrite Hps by (intros; by apply Hpath). unfold write_cell. cbn. apply dget_dset_eq. }
  pose proof (settling_of _ _ Hcf) as Hset. unfold settling_field in Hset. apply andb_true_iff in Hset as [Hsp Hset].
  exists cf, v, st. split_and!; try done. eapply cell_result_agree; try done.
  - split; [unfold same_shape in *; congruence|]. intros k Hk. symmetry.
    rewrite Hpv by (intros c' Hc' Hcalc E; apply (proj1 (Hdis c' Hc' Hcalc)); by rewrite <- (Hfp c' Hc'), E).
    unfold write_cell. cbn [i_values with_states with_values]. rewrite dget_dset. destruct (decide (k = path)) as [E|]; [|done].
    subst k. destruct (has_calculate cf) eqn:Ec; [|symmetry; by apply Hnc]. exfalso.
    cbn in Hset. apply andb_true_iff in Hset as [Hset _]. apply negb_true_iff, bool_decide_eq_false in Hset.
    by rewrite Hfpath in Hk.
  - split; [unfold same_shape in *; cbn; congruence|]. intros k Hk. symmetry.
    rewrite Hpv by (intros c' Hc' Hcalc E; apply (proj2 (Hdis c' Hc' Hcalc)); by rewrite <- (Hfp c' Hc'), E). done.
Qed.

(** A pass over a settled state runs to the end and changes nothing. *)
Lemma bind_ok {A B} (m : M A) (f : A -> M B) s s1 a r : m s = (s1, Ok a) -> f a s1 = r -> (m ≫= f) s = r.
Proof. intros Hm <-. unfold mbind, M_bind. by rewrite Hm. Qed.

Lemma reads_ok {A} (f : inst -> res A) s a : f s = Ok a -> reads f s = (s, Ok a).
Proof. unfold reads. by intros ->. Qed.

Lemma update_state_ok p f d s :
  dhas d p = true ->
  exists d', update_state p f (with_states d s) = (with_states d' s, Ok tt) /\ dhas d' p = true.
Proof.
  unfold dhas. destruct (dget d p) as [st|] eqn:Hst; [|done]. intros _. exists (dset d p (f st)).
  unfold update_state, get_state, set_state, reads, modify, mbind, M_bind. cbn [i_states with_states].
  rewrite Hst. cbn. by rewrite dget_dset_eq.
Qed.

Lemma bind_runs {A B} (m : M A) (f : A -> M B) s s1 a b :
  m s = (s1, Ok a) -> (exists s', f a s1 = (s', Ok b)) -> exists s', (m ≫= f) s = (s', Ok b).
Proof. intros Hm [s' Hf]. exists s'. by eapply bind_ok. Qed.

(** One assignment to the state of the field: go on from what it leaves. *)
Ltac assign_state :=
  match goal with
  | Hd : dhas ?d ?p = true |- context [update_state ?p ?f ≫= _] =>
      match goal with
      | |- context [with_states d ?s] =>
          let d' := fresh "d" in let E := fresh "E" in let Hd' := fresh "Hd" in
          destruct (update_state_ok p f d s Hd) as (d' & E & Hd');
          eapply bind_runs; [exact E|]; clear E Hd
      end
  end.

(** Where [cell_result] has a value, the field's evaluation does not raise. *)
Lemma evaluate_field_runs fid path scope s cf v st :
  dget (f_fields (form w)) fid = Some cf -> cell_result cf path scope s = Ok (v, st) ->
  exists s', evaluate_field w fid path scope s = (s', Ok tt).
Proof.
  intros Hcf. unfold cell_result.
  destruct (dget (i_states s) path) as [st0|] eqn:Hst; [|done]. cbn [of_option mbind res_bind].
  destruct (field_relevant w cf scope s) as [rel|] eqn:Hrel; [|done]. cbn [mbind res_bind].
  set (computed := has_calculate cf && rel). intros Hrun.
  destruct (if computed then eval_in w scope _ s else _) as [x|] eqn:Ex; [|done]. cbn [mbind res_bind] in Hrun.
  set (s1 := if computed then with_values (dset (i_values s) path x) s else s) in *.
  destruct (eval_flag w scope (vget (cf_node cf) "required") s1) as [req|] eqn:Hreq; [|done]. cbn [mbind res_bind] in Hrun.
  destruct (eval_flag w scope (vget (cf_node cf) "readOnly") s1) as [ro|] eqn:Hro; [|done]. cbn [mbind res_bind] in Hrun.
  assert (dget (i_values s1) path = Some x) as Hx.
  { subst s1. destruct computed; [apply dget_dset_eq|]. by destruct (dget (i_values s) path); simplify_eq/=. }
  assert (exists d0, s = with_states d0 s /\ dhas d0 path = true) as (d0 & Es & Hd0).
  { exists (i_states s). split; [by destruct s|]. unfold dhas. by rewrite Hst. }
  rewrite Es. unfold evaluate_field. cut (forall s0, s0 = s -> exists s', evaluate_field w fid path scope (with_states d0 s0) = (s', Ok tt)).
  { intros Hall. by apply Hall. }
  intros s0 ->. unfold evaluate_field.
  eapply bind_runs; [by apply reads_ok; rewrite Hcf|]. cbn beta.
  assign_state. eapply bind_runs; [by apply reads_ok|]. assign_state.
  change (negb (is_null (vget (cf_node cf) "calculate")) && rel) with computed.
  match goal with |- context [(_ ≫= _) (with_states ?d _)] => eapply (bind_runs _ _ _ (with_states d s1) tt) end.
  { unfold when. subst s1. destruct computed; [|done].
    eapply bind_ok; [by apply reads_ok|]. done. }
  eapply bind_runs; [by apply reads_ok; cbn [i_values with_states]; rewrite Hx|].
  assign_state. eapply bind_runs; [by apply reads_ok|]. assign_state. eapply bind_runs; [by apply reads_ok|]. assign_state.
  unfold when. destruct rel; [|by eexists]. assign_state.
  destruct (choice_errors w cf x scope s1) as [l1|] eqn:H1; [|done]. eapply bind_runs; [by apply reads_ok|].
  assign_state.
  destruct (constraint_errors w cf x scope s1) as [l2|] eqn:H2; [|done]. eapply bind_runs; [by apply reads_ok|].
  match goal with Hd : dhas ?d ?p = true |- context [update_state ?p ?f (with_states ?d ?s)] =>
    destruct (update_state_ok p f d s Hd) as (d' & E & _); rewrite E; eauto end.
Qed.

Lemma write_cell_same path v st s :
  dget (i_values s) path = Some v -> dget (i_states s) path = Some st -> write_cell path v st s = s.
Proof.
  intros Hv Hst. unfold write_cell. rewrite with_values_same by done. unfold with_states.
  rewrite dset_same_get by done. by destruct s.
Qed.

Lemma cell_settled_run s c : cell_settled s c -> eval_cell c s = (s, Ok tt).
Proof.
  destruct c as [[fid path] scope]. intros (cf & v & st & Hcf & Hres & Hv & Hst). cbn [eval_cell].
  destruct (evaluate_field_runs _ _ _ _ _ _ _ Hcf Hres) as [s' Hrun]. rewrite Hrun. f_equal.
  apply evaluate_field_outcome in Hrun as (cf' & v' & st' & Hcf' & Hres' & -> & _).
  assert (cf' = cf) as -> by congruence. assert (v' = v /\ st' = st) as [-> ->] by (split; congruence).
  by apply write_cell_same.
Qed.

Lemma run_settled l s : Forall (cell_settled s) l -> for_each l eval_cell s = (s, Ok tt).
Proof.
  induction 1 as [|c l Hc _ IH]; [done|]. cbn [for_each]. eapply bind_ok; [by apply cell_settled_run|done].
Qed.

Lemma evaluate_all_of_cells s :
  (forall fid, fid ∈ f_topo_order (form w) -> fid ∈ dkeys (f_fields (form w))) ->
  for_each (cells s) eval_cell s = (s, Ok tt) -> Forall (cell_settled s) (cells s) ->
  evaluate_all w s = (s, Ok tt).
Proof.
  intros Hk _. unfold evaluate_all, cells. induction (f_topo_order (form w)) as [|fid l IH]; [done|].
  cbn [map concat for_each]. intros [Hc Hl]%Forall_app.
  eapply bind_ok; [|apply IH; [intros; apply Hk; set_solver|done]].
  assert (fid ∈ dkeys (f_fields (form w))) as Hf by (apply Hk; set_solver).
  apply dget_elem in Hf as (cf & Hcf). apply run_settled in Hc. unfold evaluate_everywhere, cells_of in *. rewrite Hcf in *.
  destruct (cf_repeat cf) as [r|].
  - unfold gets. rewrite for_each_map in Hc. exact Hc.
  - cbn [for_each eval_cell] in Hc. unfold mbind, M_bind in Hc.
    destruct (evaluate_field w fid fid None s) as [s' [[]|]]; simplify_eq/=. done.
Qed.

Lemma settled_pass s : settled s -> evaluate_all w s = (s, Ok tt).
Proof.
  intros Hs. apply evaluate_all_of_cells; [|by apply run_settled|done]. intros fid Hfid.
  pose proof (cp_topo _ form_compiled) as [Hperm _]. rewrite Hperm in Hfid.
  by rewrite <- (fm_order _ (cp_form _ form_compiled)).
Qed.

End Recalculate.
