(* ===== verification/Instances.v ===== *)
(** * Repeat instances: identity, order and counts (Form IR 6.1)

    An instance keeps the id it was created with for as long as it lives, an
    id is never handed out twice, and a repeat lists its instances in the
    order they were created: on every exit of every operation, an exception
    included. *)

From S2P Require Import Prelude PyStr PyNum PyDate Value Expr Expression ExpressionFacts Datasets.
From S2P Require Import Document Topo Compile CompileFacts Runtime RuntimeFrame Recalculate.
From Stdlib Require Import Sorting.Sorted.

(** ** Minted ids *)

Definition minted_id (n : N) : pystr := 105%N :: str_N n.

Lemma minted_serial_id n : minted_serial (minted_id n) = Some n.
Proof.
  unfold minted_serial, minted_id. rewrite decide_True by done. rewrite all_digits_str_N.
  f_equal. apply str_N_spec.
Qed.

Lemma minted_id_clean n : 93%N ∉ minted_id n.
Proof. unfold minted_id. rewrite not_elem_of_cons. split; [done|]. apply str_N_no_char. lia. Qed.

(** The serials of the minted ids of a list, in its order. *)
Definition serials (ids : list pystr) : list N := omap minted_serial ids.

(** Ids minted elsewhere aside, the list is in creation order. *)
Definition in_creation_order (ids : list pystr) : Prop := StronglySorted N.lt (serials ids).

Lemma serials_of_spec ids ns : serials_of ids = Some ns -> ns = serials ids.
Proof.
  revert ns. induction ids as [|i ids IH]; intros ns; cbn [serials_of]; [by intros [= <-]|].
  destruct (minted_serial i) as [n|] eqn:E; [|done]. destruct (serials_of ids) as [ns'|]; [|done].
  intros [= <-]. unfold serials. cbn. rewrite E. f_equal. by apply IH.
Qed.

Lemma sorted_not_out_of_order ns : StronglySorted N.lt ns -> out_of_order ns = false.
Proof.
  induction 1 as [|a ns Hs IH Ha]; [done|]. cbn [out_of_order]. destruct ns as [|b ns]; [done|].
  rewrite IH, orb_false_r. apply N.leb_gt. by apply Forall_cons in Ha as [? _].
Qed.

(** The assertion of [_assert_creation_order] holds of such a list. *)
Lemma creation_order_ok ids : in_creation_order ids -> creation_ordered ids = true.
Proof.
  intros Hs. unfold creation_ordered. destruct (serials_of ids) as [ns|] eqn:E; [|done].
  apply serials_of_spec in E as ->. by rewrite sorted_not_out_of_order.
Qed.

Lemma StronglySorted_sublist {A} (R : A -> A -> Prop) l k : sublist l k -> StronglySorted R k -> StronglySorted R l.
Proof.
  induction 1 as [|x l k Hl IH|x l k Hl IH]; intros Hs; [done| |];
    apply StronglySorted_inv in Hs as [Hs Hx]; [|by apply IH].
  constructor; [by apply IH|]. rewrite Forall_forall in Hx |- *. intros y Hy. apply Hx.
  by eapply sublist_subseteq in Hl; apply Hl.
Qed.

Lemma serials_sublist l k : sublist l k -> sublist (serials l) (serials k).
Proof.
  induction 1 as [|x l k _ IH|x l k _ IH]; unfold serials in *; [constructor| |]; cbn; destruct (minted_serial x);
    try done; by constructor.
Qed.

Lemma in_order_sublist l k : sublist l k -> in_creation_order k -> in_creation_order l.
Proof. intros Hl. apply StronglySorted_sublist. by apply serials_sublist. Qed.

Lemma serials_app l k : serials (l ++ k) = serials l ++ serials k.
Proof. apply omap_app. Qed.

Lemma elem_serials n ids : n ∈ serials ids <-> exists i, i ∈ ids /\ minted_serial i = Some n.
Proof. unfold serials. apply list_elem_of_omap. Qed.

Lemma sorted_snoc ns n : StronglySorted N.lt ns -> Forall (fun m => (m < n)%N) ns -> StronglySorted N.lt (ns ++ [n]).
Proof.
  induction 1 as [|a ns Hs IH Ha]; intros Hn; cbn [app]; [by repeat constructor|].
  apply Forall_cons in Hn as [Han Hn]. constructor; [by apply IH|]. apply Forall_app; split; [done|by constructor].
Qed.

(** ** The invariant of the instance lists *)

Record inst_wf (s : inst) : Prop := {
  iw_clean : ids_clean s;
  iw_nodup : forall r, NoDup (instances_of r s);
  iw_serial : forall r i n, i ∈ instances_of r s -> minted_serial i = Some n -> (n <= i_serial s)%N;
  iw_order : forall r, in_creation_order (instances_of r s)
}.

(** What any operation does to the instances: some go, the rest stay where
    they were under the ids they had, and new ones are appended under ids
    never handed out before. *)
Definition newer (m : N) (i : pystr) : Prop := exists n, minted_serial i = Some n /\ (m < n)%N.

Record evolves (s s' : inst) : Prop := {
  ev_serial : (i_serial s <= i_serial s')%N;
  ev_lists : forall r, exists kept fresh,
    instances_of r s' = kept ++ fresh /\ sublist kept (instances_of r s) /\ Forall (newer (i_serial s)) fresh
}.

#[export] Instance evolves_refl : Reflexive evolves.
Proof. intros s. split; [lia|]. intros r. exists (instances_of r s), []. by rewrite app_nil_r. Qed.

#[export] Instance evolves_trans : Transitive evolves.
Proof.
  intros s s' s'' [H1 L1] [H2 L2]. split; [lia|]. intros r.
  destruct (L1 r) as (kept & fresh & E1 & Hk & Hf), (L2 r) as (kept' & fresh' & E2 & Hk' & Hf').
  rewrite E1 in Hk'. apply sublist_app_r in Hk' as (a & b & -> & Ha & Hb).
  exists a, (b ++ fresh'). split_and!.
  - by rewrite E2, app_assoc.
  - by etransitivity.
  - apply Forall_app. split.
    + rewrite Forall_forall in Hf |- *. intros i Hi. apply Hf. by eapply sublist_subseteq in Hb; apply Hb.
    + eapply Forall_impl; [exact Hf'|]. intros i (n & ? & ?). exists n. split; [done|lia].
Qed.

(** A step of a program that keeps the invariant and evolves the lists. *)
Definition sound_step (s s' : inst) : Prop := inst_wf s -> inst_wf s' /\ evolves s s'.

#[export] Instance sound_step_refl : Reflexive sound_step.
Proof. by intros s Hs. Qed.

#[export] Instance sound_step_trans : Transitive sound_step.
Proof. intros s s' s'' H1 H2 Hs. destruct (H1 Hs) as [Hs' E1], (H2 Hs') as [Hs'' E2]. split; [done|by etransitivity]. Qed.

(** The lists and the counter untouched. *)
Lemma sound_same s s' : i_instances s' = i_instances s -> i_serial s' = i_serial s -> sound_step s s'.
Proof.
  intros Ei Es [Hc Hn Hs Ho]. assert (forall r, instances_of r s' = instances_of r s) as El
    by (intros; unfold instances_of; by rewrite Ei).
  split; split; try (by intros; rewrite ?Es, ?El in *; eauto).
  - intros r ids. rewrite Ei. apply Hc.
  - intros r. exists (instances_of r s), []. by rewrite El, app_nil_r.
Qed.

(** ** Computations that relate the states they start and stop in

    [always R m]: whatever [m] returns or raises, the state it leaves is
    related to the one it started from. *)

(** A relation that only looks at the instance lists and the counter. *)
Class ListRelation (R : inst -> inst -> Prop) : Prop := {
  list_relation_refl :: Reflexive R;
  list_relation_trans :: Transitive R;
  list_relation_same : forall s s', i_instances s' = i_instances s -> i_serial s' = i_serial s -> R s s'
}.

#[export] Instance sound_relation : ListRelation sound_step.
Proof. split; [apply _..|apply sound_same]. Qed.

(** The list of one repeat is left alone. *)
Definition keeps (r : pystr) (s s' : inst) : Prop := instances_of r s' = instances_of r s.

#[export] Instance keeps_relation r : ListRelation (keeps r).
Proof.
  split; unfold keeps, instances_of; [done| |].
  - intros s s' s'' H1 H2. congruence.
  - by intros s s' -> _.
Qed.

Definition always (R : inst -> inst -> Prop) {A} (m : M A) : Prop := forall s s' r, m s = (s', r) -> R s s'.

Section Always.
Context (R : inst -> inst -> Prop) `{!ListRelation R}.

Lemma always_ret {A} (a : A) : always R (mret a).
Proof. by intros s s' r [= <- <-]. Qed.

Lemma always_bind {A B} (m : M A) (f : A -> M B) : always R m -> (forall a, always R (f a)) -> always R (m ≫= f).
Proof.
  intros Hm Hf s s' r. unfold mbind, M_bind. destruct (m s) as [s1 [a|e]] eqn:E.
  - intros Hr. etransitivity; [by eapply Hm|by eapply Hf].
  - intros [= <- <-]. by eapply Hm.
Qed.

Lemma always_gets {A} (f : inst -> A) : always R (gets f).
Proof. by intros s s' r [= <- <-]. Qed.
Lemma always_reads {A} (f : inst -> res A) : always R (reads f).
Proof. by intros s s' r [= <- <-]. Qed.
Lemma always_raise {A} e : always R (raise (A := A) e).
Proof. by intros s s' r [= <- <-]. Qed.
Lemma always_fail {A} what about : always R (fail (A := A) what about).
Proof. apply always_raise. Qed.

Lemma always_when b m : always R m -> always R (when b m).
Proof. intros Hm. destruct b; [done|apply always_ret]. Qed.

Lemma always_for_each {A} (l : list A) body : (forall a, a ∈ l -> always R (body a)) -> always R (for_each l body).
Proof.
  induction l as [|a l IH]; intros Hb; cbn [for_each]; [apply always_ret|].
  apply always_bind; [apply Hb; set_solver|]. intros _. apply IH. intros b Hb'. apply Hb. set_solver.
Qed.

Lemma always_modify f :
  (forall s, i_instances (f s) = i_instances s /\ i_serial (f s) = i_serial s) -> always R (modify f).
Proof. intros Hf s s' r [= <- _]. destruct (Hf s). by apply list_relation_same. Qed.

Lemma always_gets_bind {A B} (f : inst -> A) (g : A -> M B) :
  (forall s s' r, g (f s) s = (s', r) -> R s s') -> always R (gets f ≫= g).
Proof. intros Hg s s' r Hrun. by eapply Hg. Qed.

End Always.

Abbreviation sound := (always sound_step).

Ltac always_tac :=
  repeat first
    [ apply always_ret, _ | apply always_gets, _ | apply always_reads, _ | apply always_raise, _ | apply always_fail, _
    | apply always_modify; [apply _|by intros] | apply always_when; [apply _|]
    | apply always_for_each; [apply _|intros] | apply always_bind; [apply _| |intros]
    | progress unfold set_value, set_state, get_state, update_state ].

Section Instances.
Context `{PyEnv} (w : world).

Section Quiet.
Context (R : inst -> inst -> Prop) `{!ListRelation R}.

Lemma always_assert r : always R (assert_creation_order r).
Proof.
  unfold assert_creation_order. apply always_bind; [done|always_tac|]. intros ids.
  destruct (creation_ordered ids); always_tac.
Qed.

Lemma always_add_slots r i : always R (add_slots w r i).
Proof. unfold add_slots. always_tac. Qed.

Lemma always_destroy r i : always R (destroy_instance w r i).
Proof. unfold destroy_instance. always_tac. Qed.

Lemma always_evaluate_field fid path scope : always R (evaluate_field w fid path scope).
Proof. unfold evaluate_field. cbv zeta. always_tac. Qed.

Lemma always_evaluate_all : always R (evaluate_all w).
Proof.
  unfold evaluate_all, evaluate_everywhere. apply always_for_each; [done|]. intros fid _.
  destruct (dget _ fid) as [cf|]; [|always_tac]. destruct (cf_repeat cf); [|apply always_evaluate_field].
  apply always_bind; [done|always_tac|]. intros ids. apply always_for_each; [done|]. intros i _. apply always_evaluate_field.
Qed.

End Quiet.

Lemma set_instances_sound r l s :
  sublist l (instances_of r s) -> sound_step s (with_instances (dset (i_instances s) r l) s).
Proof.
  intros Hl [Hc Hn Hs Ho].
  assert (forall r', instances_of r' (with_instances (dset (i_instances s) r l) s) =
                     if decide (r' = r) then l else instances_of r' s) as El.
  { intros r'. unfold instances_of. cbn [i_instances with_instances]. rewrite dget_dset. by case_decide. }
  assert (forall r', sublist (instances_of r' (with_instances (dset (i_instances s) r l) s)) (instances_of r' s)) as Hsub.
  { intros r'. rewrite El. case_decide; [by subst|done]. }
  split; split.
  - intros r' ids. cbn [i_instances with_instances]. rewrite dget_dset. case_decide; [intros [= <-]|apply Hc].
    subst r'. unfold instances_of in Hl. destruct (dget (i_instances s) r) as [l0|] eqn:E; cbn in Hl.
    + apply Forall_forall. intros i Hi. eapply sublist_subseteq in Hl. specialize (Hc _ _ E).
      rewrite Forall_forall in Hc. apply Hc. by apply Hl.
    + by apply sublist_nil_r in Hl as ->.
  - intros r'. eapply sublist_NoDup; [apply Hn|apply Hsub].
  - intros r' i n Hi. apply (Hs r'). by eapply sublist_subseteq; [apply Hsub|].
  - intros r'. eapply in_order_sublist; [apply Hsub|apply Ho].
  - cbn. lia.
  - intros r'. eexists _, []. rewrite app_nil_r. split_and!; [done|apply Hsub|done].
Qed.

(** ** Creating an instance *)

(** Filling slots succeeds and leaves the lists alone. *)
Definition quiet (m : M unit) : Prop :=
  forall s, exists s', m s = (s', Ok tt) /\ i_instances s' = i_instances s /\ i_serial s' = i_serial s.

Lemma quiet_bind m f : quiet m -> quiet f -> quiet (m ≫= fun _ => f).
Proof.
  intros Hm Hf s. destruct (Hm s) as (s1 & E1 & Hi1 & Hs1), (Hf s1) as (s2 & E2 & Hi2 & Hs2).
  exists s2. unfold mbind, M_bind. rewrite E1. split_and!; [done|congruence..].
Qed.

Lemma quiet_for_each {A} (l : list A) body : (forall a, quiet (body a)) -> quiet (for_each l body).
Proof.
  intros Hb. induction l as [|a l IH]; cbn [for_each]; [by intros s; exists s|]. by apply quiet_bind.
Qed.

Lemma quiet_add_slots r i : quiet (add_slots w r i).
Proof.
  unfold add_slots. apply quiet_for_each. intros f. cbv zeta.
  apply (quiet_bind (set_value _ _) (set_state _ _)); intros s; eexists; split_and!; done.
Qed.

Lemma quiet_destroy r i : quiet (destroy_instance w r i).
Proof.
  unfold destroy_instance.
  apply (quiet_bind (modify _)); [intros s; eexists; split_and!; done|].
  apply (quiet_bind (modify _)); [intros s; eexists; split_and!; done|].
  apply quiet_for_each. intros f. cbv zeta.
  apply (quiet_bind (modify _)); intros s; eexists; split_and!; done.
Qed.

(** The state right after the id is appended, before the slots are filled. *)
Definition appended (r : pystr) (k : value) (s : inst) : inst :=
  let i := minted_id (i_serial s + 1) in
  let s1 := with_serial (i_serial s + 1) s in
  let s2 := with_instances (dset (i_instances s1) r (instances_of r s ++ [i])) s1 in
  with_row_keys (dset (i_row_keys s2) r (dset (default [] (dget (i_row_keys s2) r)) i k)) s2.

Lemma appended_lists r k s r' :
  instances_of r' (appended r k s) =
  if decide (r' = r) then instances_of r s ++ [minted_id (i_serial s + 1)] else instances_of r' s.
Proof.
  unfold appended, instances_of. cbn [i_instances with_instances with_row_keys with_serial i_serial].
  rewrite dget_dset. by case_decide.
Qed.

Lemma appended_sound r k s : sound_step s (appended r k s).
Proof.
  intros [Hc Hn Hs Ho]. set (i := minted_id (i_serial s + 1)).
  assert (minted_serial i = Some (i_serial s + 1)%N) as Hi by apply minted_serial_id.
  assert (forall r', i ∉ instances_of r' s) as Hfresh.
  { intros r' Hin. specialize (Hs _ _ _ Hin Hi). lia. }
  split; split.
  - intros r' ids. unfold appended. cbn [i_instances with_instances with_row_keys with_serial].
    rewrite dget_dset. case_decide; [intros [= <-]|apply Hc]. apply Forall_app. split.
    + apply Forall_forall. intros j. by apply instances_of_clean.
    + constructor; [apply minted_id_clean|done].
  - intros r'. rewrite appended_lists. case_decide; [|done]. apply NoDup_app. split_and!; [apply Hn| |apply NoDup_singleton].
    intros j Hj ->%list_elem_of_singleton. by apply (Hfresh r).
  - intros r' j n. rewrite appended_lists. cbn [appended i_serial with_row_keys with_instances with_serial]. case_decide.
    + intros [Hj|Hj]%elem_of_app Hm; [specialize (Hs _ _ _ Hj Hm); lia|].
      apply list_elem_of_singleton in Hj as ->. fold i in Hm. assert (n = i_serial s + 1)%N by congruence. lia.
    + intros Hj Hm. specialize (Hs _ _ _ Hj Hm). lia.
  - intros r'. rewrite appended_lists. case_decide; [|apply Ho]. unfold in_creation_order. rewrite serials_app.
    unfold serials at 2. cbn [omap list_omap]. fold i. rewrite Hi. apply sorted_snoc; [apply Ho|].
    apply Forall_forall. intros n (j & Hj & Hm)%elem_serials. specialize (Hs _ _ _ Hj Hm). lia.
  - cbn. lia.
  - intros r'. rewrite appended_lists. case_decide as E.
    + subst r'. eexists _, [_]. split_and!; [done|done|]. constructor; [|done]. eexists. split; [done|lia].
    + eexists _, []. by rewrite app_nil_r.
Qed.

(** Creating an instance never fails: it appends a fresh id. *)
Lemma create_instance_appends r k s :
  inst_wf s ->
  exists s', create_instance w r k s = (s', Ok (minted_id (i_serial s + 1))) /\
    i_instances s' = i_instances (appended r k s) /\ i_serial s' = (i_serial s + 1)%N /\ sound_step s s'.
Proof.
  intros Hwf. destruct (appended_sound r k s Hwf) as [Hwf' He].
  destruct (quiet_add_slots r (minted_id (i_serial s + 1)) (appended r k s)) as (s' & E & Hi & Hs).
  exists s'. split_and!; [|done|done|etransitivity; [apply appended_sound|by apply sound_same]].
  unfold create_instance.
  eapply bind_ok; [done|]. eapply bind_ok; [done|]. cbv zeta. eapply bind_ok; [done|].
  eapply bind_ok; [done|]. eapply bind_ok; [done|].
  eapply bind_ok; [|eapply bind_ok; [exact E|done]].
  unfold assert_creation_order. eapply bind_ok; [done|].
  assert (creation_ordered (instances_of r (appended r k s)) = true) as Hord by apply creation_order_ok, Hwf'.
  transitivity ((if creation_ordered (instances_of r (appended r k s)) then mret tt
                 else fail "instances are not in creation order" (r :: instances_of r (appended r k s))) (appended r k s));
    [done|by rewrite Hord].
Qed.

(** Creating, whatever it returns, does what appending does. *)
Lemma always_create R `{!ListRelation R} r k :
  (forall s, R s (appended r k s)) -> always R (create_instance w r k).
Proof.
  intros Happ s s' res Hrun. transitivity (appended r k s); [done|].
  eapply (always_bind R (assert_creation_order r) (fun _ => add_slots w r (minted_id (i_serial s + 1)) ≫= fun _ =>
            mret (minted_id (i_serial s + 1)))); [apply always_assert, _| |exact Hrun].
  intros _. apply always_bind; [done|apply always_add_slots, _|]. intros _. apply always_ret, _.
Qed.

Lemma sound_create r k : sound (create_instance w r k).
Proof. apply always_create; [apply _|]. apply appended_sound. Qed.

(** ** Counts *)

Lemma removelast_sublist {A} (l : list A) : sublist (removelast l) l.
Proof.
  induction l as [|a [|b l] IH]; [done| |].
  - cbn. by constructor.
  - change (removelast (a :: b :: l)) with (a :: removelast (b :: l)). by constructor.
Qed.

Lemma instances_of_set r l s r' :
  instances_of r' (with_instances (dset (i_instances s) r l) s) = if decide (r' = r) then l else instances_of r' s.
Proof. unfold instances_of. cbn [i_instances with_instances]. rewrite dget_dset. by case_decide. Qed.

(** Growing appends exactly the instances that are missing. *)
Lemma grow_spec rid wanted : forall fuel s,
  inst_wf s -> fuel = Z.to_nat (wanted - Z.of_nat (length (instances_of rid s))) ->
  exists s' fresh, grow w fuel rid wanted s = (s', Ok tt) /\ sound_step s s' /\
    instances_of rid s' = instances_of rid s ++ fresh /\ length fresh = fuel /\
    forall r, r <> rid -> instances_of r s' = instances_of r s.
Proof.
  induction fuel as [|fuel IH]; intros s Hwf Hf; cbn [grow].
  { exists s, []. rewrite app_nil_r. by split_and!. }
  destruct (create_instance_appends rid VNone s Hwf) as (s1 & E1 & Hi & _ & Hstep).
  assert (forall r, instances_of r s1 = instances_of r (appended rid VNone s)) as El
    by (intros; unfold instances_of; by rewrite Hi).
  destruct (IH s1) as (s' & fresh & E & Hst & Hl & Hlen & Ho).
  { by apply Hstep. }
  { rewrite El, appended_lists, decide_True, length_app by done. cbn [length]. lia. }
  exists s', (minted_id (i_serial s + 1) :: fresh). split_and!.
  - eapply bind_ok; [done|]. rewrite (proj2 (Z.ltb_lt _ _)) by lia. by eapply bind_ok.
  - by etransitivity.
  - rewrite Hl, El, appended_lists, decide_True by done. by rewrite <- app_assoc.
  - cbn. lia.
  - intros r Hr. rewrite Ho, El, appended_lists, decide_False by done. done.
Qed.

Lemma removelast_take {A} (l : list A) : removelast l = take (pred (length l)) l.
Proof. apply removelast_firstn_len. Qed.

(** Shrinking drops exactly the instances beyond the count, the newest first. *)
Lemma shrink_spec rid wanted : 0 <= wanted -> forall fuel s,
  (length (instances_of rid s) <= fuel + Z.to_nat wanted)%nat ->
  exists s', shrink w fuel rid wanted s = (s', Ok tt) /\ sound_step s s' /\
    instances_of rid s' = take (Z.to_nat wanted) (instances_of rid s) /\
    forall r, r <> rid -> instances_of r s' = instances_of r s.
Proof.
  intros Hw. induction fuel as [|fuel IH]; intros s Hf; cbn [shrink].
  { exists s. rewrite take_ge by lia. by split_and!. }
  destruct (decide (wanted < Z.of_nat (length (instances_of rid s)))) as [Hlt|Hge].
  2: { exists s. split_and!; try done; [|rewrite take_ge by lia; done].
       eapply bind_ok; [done|]. by rewrite (proj2 (Z.ltb_ge _ _)) by lia. }
  set (ids := instances_of rid s) in *.
  destruct (last ids) as [i|] eqn:Elast; [|apply last_None in Elast; rewrite Elast in Hlt; cbn in Hlt; lia].
  set (s1 := with_instances (dset (i_instances s) rid (removelast ids)) s).
  destruct (quiet_destroy rid i s1) as (s2 & E2 & Hi2 & Hs2).
  assert (forall r, instances_of r s2 = if decide (r = rid) then removelast ids else instances_of r s) as El.
  { intros r. rewrite <- instances_of_set. unfold instances_of. by rewrite Hi2. }
  destruct (IH s2) as (s' & E & Hst & Hl & Ho).
  { rewrite El, decide_True, removelast_take, length_take by done. lia. }
  exists s'. split_and!.
  - eapply bind_ok; [done|]. rewrite (proj2 (Z.ltb_lt _ _)) by done. fold ids. rewrite Elast.
    eapply bind_ok; [done|]. eapply bind_ok; [exact E2|done].
  - transitivity s1; [by apply set_instances_sound, removelast_sublist|].
    transitivity s2; [by apply sound_same|done].
  - rewrite Hl, El, decide_True, removelast_take, take_take by done. f_equal. lia.
  - intros r Hr. by rewrite Ho, El, decide_False.
Qed.

(** The count a [countExpr] asks for. *)
Definition wanted_count (node : odict value) (s : inst) : res Z :=
  v ← eval_in w None (vget node "countExpr") s;
  if is_null v then Ok 0 else z ← py_int v; Ok (Z.max 0 z).

Lemma wanted_count_nonneg node s z : wanted_count node s = Ok z -> 0 <= z.
Proof.
  unfold wanted_count. destruct (eval_in _ _ _ _) as [v|]; [|done]. cbn [mbind res_bind].
  destruct (is_null v); [intros [= <-]; lia|]. destruct (py_int v) as [n|]; [|done]. cbn. intros [= <-]. lia.
Qed.

(** [apply_count] leaves the count asked for: the oldest instances stay, and
    what is missing is appended. *)
Lemma apply_count_spec rid node s z :
  inst_wf s -> is_null (vget node "countExpr") = false -> wanted_count node s = Ok z ->
  exists s' fresh, apply_count w rid node s = (s', Ok tt) /\ sound_step s s' /\
    instances_of rid s' = take (Z.to_nat z) (instances_of rid s) ++ fresh /\
    length (instances_of rid s') = Z.to_nat z /\
    forall r, r <> rid -> instances_of r s' = instances_of r s.
Proof.
  intros Hwf Hc Hz. pose proof (wanted_count_nonneg _ _ _ Hz) as Hz0.
  destruct (grow_spec rid z _ s Hwf eq_refl) as (s1 & fresh & E1 & Hst1 & Hl1 & Hlen1 & Ho1).
  destruct (shrink_spec rid z Hz0 (length (instances_of rid s1)) s1) as (s' & E2 & Hst2 & Hl2 & Ho2); [lia|].
  exists s', fresh. split_and!.
  - unfold apply_count. rewrite Hc. unfold wanted_count in Hz.
    destruct (eval_in _ _ _ _) as [v|] eqn:Ev; [|done]. cbn [mbind res_bind] in Hz.
    eapply bind_ok; [by apply reads_ok|]. eapply bind_ok; [by apply reads_ok|].
    eapply (bind_ok _ _ _ s tt).
    { unfold assert_creation_order. eapply bind_ok; [done|]. by rewrite (creation_order_ok _ (iw_order _ Hwf rid)). }
    eapply bind_ok; [done|]. eapply bind_ok; [exact E1|]. eapply bind_ok; [done|exact E2].
  - by etransitivity.
  - rewrite Hl2, Hl1, take_app. f_equal. apply take_ge. lia.
  - rewrite Hl2, length_take, Hl1, length_app. lia.
  - intros r Hr. rewrite Ho2, Ho1; done.
Qed.

Lemma sound_apply_count rid node : sound (apply_count w rid node).
Proof.
  intros s s' r Hrun Hwf. destruct (is_null (vget node "countExpr")) eqn:Hc.
  { unfold apply_count in Hrun. rewrite Hc in Hrun. injection Hrun as <- <-. split; [done|reflexivity]. }
  destruct (wanted_count node s) as [z|e] eqn:Hz.
  - destruct (apply_count_spec rid node s z Hwf Hc Hz) as (s1 & fresh & E & Hst & _).
    rewrite E in Hrun. injection Hrun as <- <-. by apply Hst.
  - assert (s' = s) as ->; [|split; [done|reflexivity]].
    unfold apply_count in Hrun. rewrite Hc in Hrun. unfold wanted_count in Hz.
    unfold mbind at 1, M_bind at 1, reads at 1 in Hrun.
    destruct (eval_in w None (vget node "countExpr") s) as [v|]; [|congruence].
    cbn [mbind res_bind] in Hz. unfold mbind at 1, M_bind at 1, reads at 1 in Hrun. rewrite Hz in Hrun. congruence.
Qed.

(** ** Every operation *)

Section Operations.
Context (R : inst -> inst -> Prop) `{!ListRelation R}.

Lemma always_create_row rid bind item :
  (forall k, always R (create_instance w rid k)) -> always R (create_row w rid bind item).
Proof.
  intros Hc. unfold create_row. apply always_bind; [done|always_tac|]. intros key. apply always_bind; [done|apply Hc|].
  intros i. cbv zeta. always_tac.
Qed.

Lemma always_resolve_rows rid :
  (forall k, always R (create_instance w rid k)) -> always R (resolve_rows w rid).
Proof.
  intros Hc. unfold resolve_rows. cbv zeta. apply always_bind; [done|always_tac|]. intros resolved.
  destruct (_ || _); [always_tac|]. apply always_bind; [done|always_tac|]. intros [|]; [|always_tac].
  apply always_bind; [done|always_tac|]. intros _. apply always_for_each; [done|]. intros item _.
  by apply always_create_row.
Qed.

Lemma always_recalculate :
  (forall rid, rid ∈ dkeys (f_repeats (form w)) -> always R (resolve_rows w rid)) ->
  (forall rid node, (rid, node) ∈ f_repeats (form w) -> always R (apply_count w rid node)) ->
  always R (recalculate w).
Proof.
  intros Hr Ha. unfold recalculate. apply always_bind; [done|by apply always_for_each|]. intros _.
  apply always_bind; [done|apply always_for_each; [done|]; intros [rid node] Hin; by apply Ha|]. intros _.
  by apply always_evaluate_all.
Qed.

Lemma always_set_many l : always R (recalculate w) -> always R (set_many w l).
Proof.
  intros Hrec. unfold set_many. apply always_bind; [done| |by intros]. apply always_for_each; [done|]. intros pv _.
  unfold set_one. apply always_bind; [done|always_tac|]. intros c. apply always_bind; [done|always_tac|]. intros s.
  destruct (dhas (i_values s) c); always_tac.
Qed.

Lemma always_add_instance rid :
  (forall k, always R (create_instance w rid k)) -> always R (recalculate w) -> always R (add_instance w rid).
Proof.
  intros Hc Hrec. unfold add_instance. destruct (dget _ rid) as [node|]; [|always_tac]. cbv zeta.
  destruct (negb _); [always_tac|]. destruct (_ && _); [always_tac|].
  apply always_bind; [done|always_tac|]. intros ids. apply always_bind; [done|always_tac|]. intros [|]; [always_tac|].
  apply always_bind; [done|apply Hc|]. intros i. apply always_bind; [done|apply Hrec|]. intros _. always_tac.
Qed.

(** A deletion either stops before touching the lists or pops one id. *)
Lemma always_delete_instance rid idx :
  (forall s, R s (with_instances (dset (i_instances s) rid (pop_at (instances_of rid s) (Z.to_nat idx))) s)) ->
  always R (recalculate w) -> always R (delete_instance w rid idx).
Proof.
  intros Hpop Hrec. unfold delete_instance. apply always_gets_bind. intros s s' r. unfold id.
  destruct (dget (i_instances s) rid) as [ordered|] eqn:Eo; cbv zeta.
  2: by intros Hrun; eapply always_fail in Hrun.
  destruct (negb _); [by intros Hrun; eapply always_fail in Hrun|].
  destruct (_ && _); [by intros Hrun; eapply always_fail in Hrun|].
  destruct (_ || _); [by intros Hrun; eapply always_fail in Hrun|].
  unfold reads at 1, mbind at 1, M_bind at 1. destruct (if is_null _ then Ok false else _) as [b|e].
  2: intros [= <- _]; reflexivity.
  destruct b; [by intros Hrun; eapply always_fail in Hrun|].
  destruct (ordered !! Z.to_nat idx) as [i|]; [|by intros Hrun; eapply always_raise in Hrun].
  unfold set_instances, modify at 1, mbind at 1, M_bind at 1. intros Hrun.
  transitivity (with_instances (dset (i_instances s) rid (pop_at ordered (Z.to_nat idx))) s).
  - specialize (Hpop s). unfold instances_of in Hpop. by rewrite Eo in Hpop.
  - revert Hrun. apply always_bind; [done|apply always_assert, _|]. intros _.
    apply always_bind; [done|apply always_destroy, _|]. intros _. apply Hrec.
Qed.

End Operations.

Lemma pop_at_sublist ids n : sublist (pop_at ids n) ids.
Proof.
  unfold pop_at. rewrite <- (take_drop n ids) at 3. apply sublist_app; [done|].
  replace (S n) with (n + 1)%nat by lia. rewrite <- drop_drop. apply sublist_drop.
Qed.

Lemma sound_recalculate : sound (recalculate w).
Proof.
  apply always_recalculate; [apply _| |].
  - intros rid _. apply always_resolve_rows; [apply _|]. intros k. apply sound_create.
  - intros rid node _. apply sound_apply_count.
Qed.

Lemma sound_delete_instance rid idx : sound (delete_instance w rid idx).
Proof.
  apply always_delete_instance; [apply _| |apply sound_recalculate].
  intros s. apply set_instances_sound, pop_at_sublist.
Qed.

(** ** One repeat, its count and its bounds *)

Section Count.
Context (r : pystr).

Lemma create_keeps rid k : rid <> r -> always (keeps r) (create_instance w rid k).
Proof.
  intros Hne. apply always_create; [apply _|]. intros s. unfold keeps. by rewrite appended_lists, decide_False.
Qed.

Lemma set_instances_keeps rid l s : rid <> r -> keeps r s (with_instances (dset (i_instances s) rid l) s).
Proof. intros Hne. unfold keeps. by rewrite instances_of_set, decide_False. Qed.

Lemma grow_keeps rid wanted fuel : rid <> r -> always (keeps r) (grow w fuel rid wanted).
Proof.
  intros Hne. induction fuel as [|fuel IH]; cbn [grow]; [always_tac|].
  apply always_bind; [apply _|always_tac|]. intros ids. destruct (_ <? _); [|always_tac].
  apply always_bind; [apply _|by apply create_keeps|]. by intros.
Qed.

Lemma shrink_keeps rid wanted fuel : rid <> r -> always (keeps r) (shrink w fuel rid wanted).
Proof.
  intros Hne. induction fuel as [|fuel IH]; cbn [shrink]; [always_tac|].
  apply always_bind; [apply _|always_tac|]. intros ids. destruct (_ <? _); [|always_tac].
  destruct (last ids) as [i|]; [|always_tac].
  apply always_bind; [apply _|by intros s s' res [= <- _]; apply set_instances_keeps|]. intros _.
  apply always_bind; [apply _|apply always_destroy, _|]. by intros.
Qed.

Lemma apply_count_keeps rid node : rid <> r -> always (keeps r) (apply_count w rid node).
Proof.
  intros Hne. unfold apply_count. destruct (is_null _); [always_tac|].
  apply always_bind; [apply _|always_tac|]. intros v. apply always_bind; [apply _|always_tac|]. intros wanted.
  apply always_bind; [apply _|apply always_assert, _|]. intros _. apply always_bind; [apply _|always_tac|]. intros ids.
  apply always_bind; [apply _|by apply grow_keeps|]. intros _. apply always_bind; [apply _|always_tac|]. intros ids'.
  by apply shrink_keeps.
Qed.

Hypothesis repeats_once : NoDup (dkeys (f_repeats (form w))).
Context (node : odict value).
Hypothesis r_known : dget (f_repeats (form w)) r = Some node.
Hypothesis no_count : is_null (vget node "countExpr") = true.
Hypothesis no_rows : is_null (vget node "rowSource") = true.

(** A repeat with neither a [countExpr] nor a [rowSource] only changes when
    the respondent adds to it or deletes from it. *)
Lemma recalculate_keeps : always (keeps r) (recalculate w).
Proof.
  apply always_recalculate; [apply _| |].
  - intros rid _. destruct (decide (rid = r)) as [->|Hne].
    + assert (repeat_node w r = node) as Hn by (unfold repeat_node; by rewrite r_known).
      unfold resolve_rows. rewrite Hn, no_rows. cbn [orb]. cbv zeta.
      apply always_bind; [apply _|always_tac|]. intros. always_tac.
    + apply always_resolve_rows; [apply _|]. intros. by apply create_keeps.
  - intros rid n Hin. destruct (decide (rid = r)) as [->|Hne]; [|by apply apply_count_keeps].
    apply dget_elem_NoDup in Hin; [|done]. assert (n = node) as -> by congruence.
    unfold apply_count. rewrite no_count. always_tac.
Qed.

Lemma for_each_create_count m : forall s,
  inst_wf s ->
  exists s', for_each (replicate m tt) (fun _ => create_instance w r VNone ≫= fun _ => mret tt) s = (s', Ok tt) /\
    inst_wf s' /\ length (instances_of r s') = (length (instances_of r s) + m)%nat.
Proof.
  induction m as [|m IH]; intros s Hwf; cbn [replicate for_each].
  { exists s. split_and!; [done..|lia]. }
  destruct (create_instance_appends r VNone s Hwf) as (s1 & E & Hi & _ & Hst).
  destruct (IH s1) as (s' & E' & Hwf' & Hlen); [by apply Hst|]. exists s'. split_and!; [|done|].
  - eapply bind_ok; [|exact E']. by eapply bind_ok.
  - rewrite Hlen. unfold instances_of at 1. rewrite Hi. fold (instances_of r (appended r VNone s)).
    rewrite appended_lists, decide_True, length_app by done. cbn. lia.
Qed.

End Count.

(** ** Sessions

    What a respondent does to a live form, in any order; after an exception
    the form goes on from the state the exception left. *)

Inductive operation :=
| OSet (answers : odict value)
| OAdd (repeat_id : pystr)
| ODelete (repeat_id : pystr) (index : Z).

Definition perform (o : operation) : M unit :=
  match o with
  | OSet l => set_many w l
  | OAdd r => add_instance w r ≫= fun _ => mret tt
  | ODelete r i => delete_instance w r i
  end.

Definition session (l : list operation) (s : inst) : inst := fold_left (fun s o => (perform o s).1) l s.

Lemma perform_sound o : sound (perform o).
Proof.
  destruct o; cbn [perform].
  - apply always_set_many; [apply _|apply sound_recalculate].
  - apply always_bind; [apply _|apply always_add_instance; [apply _|intros; apply sound_create|apply sound_recalculate]|].
    intros _. always_tac.
  - apply sound_delete_instance.
Qed.

Lemma session_always (R : inst -> inst -> Prop) `{!ListRelation R} :
  (forall o, always R (perform o)) -> forall l s, R s (session l s).
Proof.
  intros Ho l. induction l as [|o l IH]; intros s; [reflexivity|]. cbn [session fold_left].
  transitivity (perform o s).1; [|apply IH]. destruct (perform o s) as [s' r] eqn:E. by eapply Ho.
Qed.

Lemma session_step l s : sound_step s (session l s).
Proof. apply session_always; [apply _|apply perform_sound]. Qed.

Lemma initial_instances r : instances_of r (initial w) = [].
Proof.
  unfold instances_of, initial. cbn [i_instances].
  assert (forall l : odict (odict value), default [] (dget (map (fun kr => (kr.1, @nil pystr)) l) r) = []) as Hl; [|apply Hl].
  induction l as [|[k v] l IH]; [done|]. cbn [map dget fst]. case_decide; done.
Qed.

Lemma initial_wf : inst_wf (initial w).
Proof.
  split.
  - intros r ids Hr. pose proof (initial_instances r) as E. unfold instances_of in E. rewrite Hr in E. cbn in E. by subst.
  - intros r. rewrite initial_instances. constructor.
  - intros r i n. rewrite initial_instances. set_solver.
  - intros r. rewrite initial_instances. constructor.
Qed.

Lemma sound_create_minimum rid node : sound (create_minimum w rid node).
Proof.
  unfold create_minimum. destruct (is_null _); [|always_tac]. apply always_bind; [apply _|always_tac|]. intros n.
  apply always_for_each; [apply _|]. intros _ _. apply always_bind; [apply _|apply sound_create|]. intros _. always_tac.
Qed.

Lemma construct_wf : inst_wf (construct w).1.
Proof.
  destruct (construct w) as [s r] eqn:E. cbn [fst].
  assert (sound_step (initial w) s) as Hs; [|by apply Hs, initial_wf].
  eapply (always_bind sound_step); [| |exact E].
  - apply always_for_each; [apply _|]. intros. apply sound_create_minimum.
  - intros []. apply sound_recalculate.
Qed.

(** ** Bounds (6.1) *)

Section Bounds.
Context (r : pystr) (node : odict value) (lo hi : Z).
Hypothesis repeats_once : NoDup (dkeys (f_repeats (form w))).
Hypothesis r_known : dget (f_repeats (form w)) r = Some node.
Hypothesis no_count : is_null (vget node "countExpr") = true.
Hypothesis no_rows : is_null (vget node "rowSource") = true.
Hypothesis minimum : dget node "minInstances" = Some (VInt lo).
Hypothesis maximum : vget node "maxInstances" = VInt hi.
Hypothesis bounds : 0 <= lo <= hi.

Definition count (s : inst) : Z := Z.of_nat (length (instances_of r s)).

Lemma add_count s s' res :
  inst_wf s -> add_instance w r s = (s', res) ->
  count s' = count s \/ (count s < hi /\ count s' = count s + 1).
Proof.
  intros Hwf. unfold add_instance. rewrite r_known, no_count. cbn [negb]. cbv zeta. rewrite no_rows. cbn [negb andb].
  rewrite maximum. cbn [is_null py_int]. unfold gets, reads, mbind at 1 2, M_bind at 1 2. cbn [mbind res_bind].
  destruct (Z.leb_spec hi (Z.of_nat (length (instances_of r s)))) as [Hfull|Hroom].
  { intros [= <- _]. by left. }
  destruct (create_instance_appends r VNone s Hwf) as (s1 & E & Hi & _ & _). intros Hrun. right. split; [done|].
  unfold mbind at 1, M_bind at 1 in Hrun. rewrite E in Hrun.
  assert (keeps r s1 s') as Hk.
  { eapply (always_bind (keeps r)); [| |exact Hrun].
    - by eapply recalculate_keeps.
    - intros ?. apply always_ret, _. }
  unfold count. rewrite Hk. unfold instances_of at 1. rewrite Hi. fold (instances_of r (appended r VNone s)).
  rewrite appended_lists, decide_True, length_app by done. cbn. lia.
Qed.

Lemma delete_count idx s s' res :
  delete_instance w r idx s = (s', res) ->
  count s' = count s \/ (lo < count s /\ count s' = count s - 1).
Proof.
  unfold delete_instance. unfold gets at 1, mbind at 1, M_bind at 1, id.
  destruct (dget (i_instances s) r) as [ordered|] eqn:Eo; cbv zeta; [|intros [= <- _]; by left].
  assert (repeat_node w r = node) as Hn by (unfold repeat_node; by rewrite r_known).
  rewrite !Hn, no_count, no_rows. cbn [negb andb].
  destruct (Z.ltb_spec idx 0) as [|H0]; [intros [= <- _]; by left|].
  destruct (Z.leb_spec (Z.of_nat (length ordered)) idx) as [|Hlt]; [intros [= <- _]; by left|]. cbn [orb].
  unfold vget at 1. rewrite minimum. unfold reads at 1, mbind at 1, M_bind at 1.
  assert (instances_of r s = ordered) as Hl by (unfold instances_of; by rewrite Eo).
  unfold vget. rewrite minimum.
  match goal with |- context [if is_null ?v then Ok false else ?e] =>
    replace (if is_null v then Ok false else e) with (Ok (A := bool) (Z.of_nat (length ordered) <=? lo))
      by (cbn; by rewrite <- num_leb_int) end.
  destruct (Z.leb_spec (Z.of_nat (length ordered)) lo) as [|Habove]; [intros [= <- _]; by left|].
  destruct (ordered !! Z.to_nat idx) as [i|] eqn:Ei; [|intros [= <- _]; by left].
  unfold set_instances, modify at 1, mbind at 1, M_bind at 1. intros Hrun. right. unfold count. rewrite Hl. split; [done|].
  assert (keeps r (with_instances (dset (i_instances s) r (pop_at ordered (Z.to_nat idx))) s) s') as Hk.
  { revert Hrun. apply (always_bind (keeps r)); [apply always_assert, _|]. intros _.
    apply always_bind; [apply _|apply always_destroy, _|]. intros _. by eapply recalculate_keeps. }
  rewrite Hk, instances_of_set, decide_True by done. unfold pop_at. rewrite length_app, length_take, length_drop. lia.
Qed.

Lemma perform_other o s :
  (forall r', o = OAdd r' -> r' <> r) -> (forall r' i, o = ODelete r' i -> r' <> r) -> count (perform o s).1 = count s.
Proof.
  intros Ha Hd. assert (always (keeps r) (recalculate w)) as Hrec by (by eapply recalculate_keeps).
  assert (always (keeps r) (perform o)) as Hk.
  { destruct o as [l|r'|r' i]; cbn [perform].
    - by apply always_set_many; [apply _|].
    - apply always_bind; [apply _| |intros _; always_tac]. apply always_add_instance; [apply _| |done].
      intros k. apply create_keeps. by eapply Ha.
    - apply always_delete_instance; [apply _| |done]. intros s0. apply set_instances_keeps. by eapply Hd. }
  destruct (perform o s) as [s' res] eqn:E. unfold count. cbn [fst]. by rewrite (Hk _ _ _ E).
Qed.

Lemma perform_bounds o s : inst_wf s -> lo <= count s <= hi -> lo <= count (perform o s).1 <= hi.
Proof.
  intros Hwf Hb. destruct o as [l|r'|r' i].
  - by rewrite perform_other.
  - destruct (decide (r' = r)) as [->|Hne]; [|rewrite perform_other by (intros; congruence); done].
    cbn [perform]. unfold mbind, M_bind. destruct (add_instance w r s) as [s' [x|e]] eqn:E; cbn -[count];
      destruct (add_count _ _ _ Hwf E); lia.
  - destruct (decide (r' = r)) as [->|Hne]; [|rewrite perform_other by (intros; congruence); done].
    cbn [perform]. destruct (delete_instance w r i s) as [s' res] eqn:E. cbn [fst]. destruct (delete_count _ _ _ _ E); lia.
Qed.

Lemma session_bounds l : forall s, inst_wf s -> lo <= count s <= hi -> lo <= count (session l s) <= hi.
Proof.
  induction l as [|o l IH]; intros s Hwf Hb; [done|]. cbn [session fold_left]. apply IH; [|by apply perform_bounds].
  destruct (perform o s) as [s' res] eqn:E. by apply (perform_sound o _ _ _ E).
Qed.

Lemma create_minimum_keeps rid n : rid <> r -> always (keeps r) (create_minimum w rid n).
Proof.
  intros Hne. unfold create_minimum. destruct (is_null (vget n "rowSource")); [|always_tac]. apply always_bind; [apply _|always_tac|]. intros m.
  apply always_for_each; [apply _|]. intros _ _. apply always_bind; [apply _|by apply create_keeps|]. intros _. always_tac.
Qed.

(** A fresh form has the minimum. *)
Lemma construct_count s : construct w = (s, Ok tt) -> count s = lo.
Proof.
  unfold construct. intros Hrun. apply bind_inv in Hrun as (s0 & [] & Hmin & Hrec).
  unfold count. rewrite (recalculate_keeps r repeats_once node r_known no_count no_rows _ _ _ Hrec).
  pose proof r_known as Hin. apply dget_Some_elem, list_elem_of_split in Hin as (pre & post & Hsplit).
  pose proof repeats_once as Hnd. rewrite Hsplit in Hnd. unfold dkeys in Hnd. rewrite map_app in Hnd. cbn [map fst] in Hnd.
  apply NoDup_app in Hnd as (_ & Hdis & Hnd). apply NoDup_cons in Hnd as [Hnot _].
  assert (forall l, r ∉ map fst l -> always (keeps r) (for_each l (fun rn => create_minimum w rn.1 rn.2))) as Hother.
  { intros l Hl. apply always_for_each; [apply _|]. intros [rid n] Hrn. cbn [fst snd]. apply create_minimum_keeps. intros ->.
    apply Hl, list_elem_of_fmap. by exists (r, n). }
  rewrite Hsplit in Hmin. apply for_each_app in Hmin as (s1 & Hpre & Hmin). cbn [for_each fst snd] in Hmin.
  apply bind_inv in Hmin as (s2 & [] & Hr & Hpost).
  rewrite (Hother post Hnot _ _ _ Hpost).
  assert (inst_wf s1) as Hwf.
  { assert (sound_step (initial w) s1) as Hs; [|by apply Hs, initial_wf].
    eapply (always_for_each sound_step); [|exact Hpre]. intros. apply sound_create_minimum. }
  assert (instances_of r s1 = []) as E1.
  { assert (r ∉ map fst pre) as Hr'.
    { intros Hr'. apply (Hdis r Hr'). set_solver. }
    rewrite (Hother pre Hr' _ _ _ Hpre). apply initial_instances. }
  unfold create_minimum in Hr. rewrite no_rows in Hr. unfold min_instances in Hr. rewrite minimum in Hr. cbn [py_int] in Hr.
  unfold reads at 1, mbind at 1, M_bind at 1 in Hr.
  destruct (for_each_create_count r (Z.to_nat lo) s1 Hwf) as (s3 & E3 & _ & Hlen).
  rewrite E3 in Hr. injection Hr as <-. rewrite Hlen, E1. cbn. lia.
Qed.

End Bounds.

End Instances.
