(* ===== verification/Screens.v ===== *)
(** * Screens and navigation: form_engine/screens.py (Form IR 11)

    The static partition of a form into screens, the relevance of a screen in
    a live form, moving between positions, progress and what blocks
    finalisation. *)

From S2P Require Import Prelude PyStr PyNum PyDate Value Expr Expression Datasets Document Compile.
From S2P Require Import Runtime.

Inductive screen_kind := QUESTIONS | REPEAT.

#[global] Instance screen_kind_eq_dec : EqDecision screen_kind.
Proof. solve_decision. Defined.

Record form_screen := FormScreen {
  sc_index : nat;
  sc_kind : screen_kind;
  sc_group : option pystr;
  sc_section : option pystr;
  sc_questions : list pystr;
  sc_repeat : option pystr
}.

Record screen_plan := ScreenPlan {
  pl_screens : list form_screen;
  pl_instance_plans : odict (list form_screen)
}.

Record position := Position {
  p_screen : nat;
  p_instance : option pystr;
  p_inner : option nat
}.

#[global] Instance position_eq_dec : EqDecision position.
Proof. solve_decision. Defined.

Definition at_screen (i : nat) : position := Position i None None.
Definition inside (p : position) : bool := match p_instance p with Some _ => true | None => false end.

(** ** The plan (11.1) *)

(** A question that is asked: a calculate is computed. *)
Definition asked (a : odict value) : bool := is_null (vget a "calculate").

(** [collect_questions], under a field-list group. *)
Fixpoint collect_questions (n : node) : list pystr :=
  match n with
  | Node a c =>
      let kind := atext a "type" in
      if str_eqb kind "question" then (if asked a then [atext a "id"] else [])
      else if str_eqb kind "group" then concat (map collect_questions c)
      else []
  end.

(** The screens appended so far, and the instance plans. *)
Abbreviation plan_state := (list form_screen * odict (list form_screen))%type (only parsing).

Definition append_screen (out : list form_screen) (k : screen_kind) (group section : option pystr)
    (questions : list pystr) (repeat_id : option pystr) : list form_screen :=
  out ++ [FormScreen (length out) k group section questions repeat_id].

(** [walk] of one node, appending to [out]. *)
Fixpoint walk_screens (section : option pystr) (st : plan_state) (n : node) : plan_state :=
  match n with
  | Node a c =>
      let '(out, plans) := st in
      let kind := atext a "type" in
      let i := atext a "id" in
      if str_eqb kind "question" then
        (if asked a then append_screen out QUESTIONS None section [i] None else out, plans)
      else if str_eqb kind "group" then
        if py_eq (vget a "appearance") (VStr "field-list") then
          match concat (map collect_questions c) with
          | [] => (out, plans)
          | qs => (append_screen out QUESTIONS (Some i) section qs None, plans)
          end
        else fold_left (walk_screens (Some i)) c st
      else if str_eqb kind "repeat" then
        let '(inner, plans) := fold_left (walk_screens (Some i)) c ([], plans) in
        (append_screen out REPEAT None section [] (Some i), dset plans i inner)
      else st
  end.

Definition build_screen_plan (nodes : list node) : screen_plan :=
  let '(screens, plans) := fold_left (walk_screens None) nodes ([], []) in
  ScreenPlan screens plans.

(** Both levels: what a runtime can put in front of somebody. *)
Definition askable_question_ids (plan : screen_plan) : list pystr :=
  concat (map sc_questions (pl_screens plan)) ++
  concat (map (fun kp => concat (map sc_questions kp.2)) (pl_instance_plans plan)).

(** ** Relevance of a screen (11.2, 11.3) *)

Section Live.
Context `{PyEnv} (w : world).

Definition can_add (s : inst) (repeat_id : pystr) : res bool :=
  match dget (f_repeats (form w)) repeat_id with
  | None => Ok false
  | Some node =>
      if negb (is_null (vget node "countExpr")) then Ok false
      else
        let source := vget node "rowSource" in
        if negb (is_null source) && negb (truthy (vfield source "allowAdd")) then Ok false
        else
          let maximum := vget node "maxInstances" in
          if is_null maximum then Ok true
          else m ← py_int maximum; Ok (Z.of_nat (instance_count repeat_id s) <? m)
  end.

Definition state_relevant (s : inst) (path : pystr) : bool :=
  match dget (i_states s) path with Some st => fs_relevant st | None => false end.

Definition screen_relevant (s : inst) (screen : form_screen) : res bool :=
  match sc_kind screen with
  | REPEAT =>
      match sc_repeat screen with
      | None => Raise AssertionError
      | Some r =>
          relevant ← container_relevant w r s;
          if (relevant : bool) then
            if (0 <? instance_count r s)%nat then Ok true else can_add s r
          else Ok false
      end
  | QUESTIONS => Ok (existsb (state_relevant s) (sc_questions screen))
  end.

Definition instance_screen_relevant (s : inst) (repeat_id instance_id : pystr) (screen : form_screen) : bool :=
  existsb (fun q => state_relevant s (inst_path repeat_id instance_id q)) (sc_questions screen).

Definition relevant_instance_screens (plan : screen_plan) (s : inst) (repeat_id instance_id : pystr) : list nat :=
  map sc_index (List.filter (instance_screen_relevant s repeat_id instance_id)
                  (default [] (dget (pl_instance_plans plan) repeat_id))).

(** ** Top-level navigation *)

(** The first screen of the list, in its order, that qualifies. *)
Fixpoint first_screen (p : form_screen -> res bool) (l : list form_screen) : res (option nat) :=
  match l with
  | [] => Ok None
  | sc :: r => match p sc with
               | Raise e => Raise e
               | Ok true => Ok (Some (sc_index sc))
               | Ok false => first_screen p r
               end
  end.

Definition next_screen (plan : screen_plan) (s : inst) (from : Z) : res (option nat) :=
  first_screen (fun sc => if from <? Z.of_nat (sc_index sc) then screen_relevant s sc else Ok false)
    (pl_screens plan).

Definition previous_screen (plan : screen_plan) (s : inst) (from : Z) : res (option nat) :=
  first_screen (fun sc => if Z.of_nat (sc_index sc) <? from then screen_relevant s sc else Ok false)
    (reverse (pl_screens plan)).

Definition relevant_screens (plan : screen_plan) (s : inst) : res (list nat) :=
  l ← filterR (screen_relevant s) (pl_screens plan); Ok (map sc_index l).

(** ** Positions (11.2, 11.3) *)

Definition repeat_of (plan : screen_plan) (i : nat) : res (option pystr) :=
  sc ← of_option IndexError (pl_screens plan !! i);
  Ok match sc_kind sc with REPEAT => sc_repeat sc | QUESTIONS => None end.

Definition resolve_position (plan : screen_plan) (s : inst) (p : position) : res position :=
  match p_instance p with
  | None => Ok p
  | Some iid =>
      r ← repeat_of plan (p_screen p);
      match r with
      | None => Ok (at_screen (p_screen p))
      | Some repeat_id =>
          if bool_decide (iid ∈ instances_of repeat_id s) then Ok p else Ok (at_screen (p_screen p))
      end
  end.

Definition is_repeat_screen (repeat_id : pystr) (sc : form_screen) : bool :=
  bool_decide (sc_kind sc = REPEAT) && bool_decide (sc_repeat sc = Some repeat_id).

Definition enter_instance (plan : screen_plan) (s : inst) (repeat_id instance_id : pystr) : res position :=
  match List.find (is_repeat_screen repeat_id) (pl_screens plan) with
  | None => Raise KeyError
  | Some sc =>
      Ok match relevant_instance_screens plan s repeat_id instance_id with
         | [] => at_screen (sc_index sc)
         | i :: _ => Position (sc_index sc) (Some instance_id) (Some i)
         end
  end.

(** The repeat, the instance and the instance screen of a resolved inner
    position: the two assertions of [next_position]. *)
Definition inner_position (plan : screen_plan) (p : position) : res (pystr * pystr * nat) :=
  r ← repeat_of plan (p_screen p);
  match r, p_instance p, p_inner p with
  | Some repeat_id, Some iid, Some k => Ok (repeat_id, iid, k)
  | _, _, _ => Raise AssertionError
  end.

Definition next_position (plan : screen_plan) (s : inst) (p : position) : res (option position) :=
  p ← resolve_position plan s p;
  if inside p then
    rik ← inner_position plan p;
    let '(repeat_id, iid, k) := rik in
    match List.filter (fun i => (k <? i)%nat) (relevant_instance_screens plan s repeat_id iid) with
    | i :: _ => Ok (Some (Position (p_screen p) (Some iid) (Some i)))
    | [] => Ok (Some (at_screen (p_screen p)))
    end
  else n ← next_screen plan s (Z.of_nat (p_screen p)); Ok (option_map at_screen n).

Definition previous_position (plan : screen_plan) (s : inst) (p : position) : res (option position) :=
  p ← resolve_position plan s p;
  if inside p then
    rik ← inner_position plan p;
    let '(repeat_id, iid, k) := rik in
    match last (List.filter (fun i => (i <? k)%nat) (relevant_instance_screens plan s repeat_id iid)) with
    | Some i => Ok (Some (Position (p_screen p) (Some iid) (Some i)))
    | None => Ok (Some (at_screen (p_screen p)))
    end
  else n ← previous_screen plan s (Z.of_nat (p_screen p)); Ok (option_map at_screen n).

(** ** Progress *)

(** 1-based place of [i] in the list, 0 when it is not there. *)
Fixpoint ordinal (i : nat) (l : list nat) : nat :=
  match l with
  | [] => 0%nat
  | x :: r => if decide (i = x) then 1%nat
              else match ordinal i r with O => O | S k => S (S k) end
  end.

Definition progress (plan : screen_plan) (s : inst) (p : position) : res (nat * nat) :=
  relevant ← relevant_screens plan s;
  Ok (ordinal (p_screen p) relevant, length relevant).

Definition instance_progress (plan : screen_plan) (s : inst) (p : position)
    : res (option ((nat * nat) * (nat * nat))) :=
  p ← resolve_position plan s p;
  match p_instance p with
  | None => Ok None
  | Some iid =>
      r ← repeat_of plan (p_screen p);
      repeat_id ← of_option AssertionError r;
      let relevant := relevant_instance_screens plan s repeat_id iid in
      let within := (match p_inner p with Some k => ordinal k relevant | None => 0%nat end, length relevant) in
      let order := instances_of repeat_id s in
      Ok (Some (within, (S (index_of iid order), length order)))
  end.

(** ** Finalisation (6.2) *)

Definition is_error (e : field_error) : bool :=
  match e with
  | ERequired | EChoice => true
  | EConstraint _ severity => py_eq severity (VStr "error")
  end.

Definition blocking_fields (s : inst) : list pystr :=
  map fst (List.filter (fun ps => fs_relevant ps.2 && existsb is_error (fs_errors ps.2)) (i_states s)).

Definition can_finalize (s : inst) : bool := is_nil (blocking_fields s).

Definition holds_blocking (blocking : list pystr) (prefix : pystr -> pystr) (sc : form_screen) : bool :=
  existsb (fun q => bool_decide (prefix q ∈ blocking)) (sc_questions sc).

(** The first instance screen of the first instance that holds one. *)
Fixpoint first_blocking_instance (blocking : list pystr) (repeat_id : pystr) (inner : list form_screen)
    (ids : list pystr) : option (pystr * nat) :=
  match ids with
  | [] => None
  | iid :: r => match List.find (holds_blocking blocking (inst_path repeat_id iid)) inner with
                | Some sc => Some (iid, sc_index sc)
                | None => first_blocking_instance blocking repeat_id inner r
                end
  end.

Fixpoint first_blocking_screen (blocking : list pystr) (plan : screen_plan) (s : inst)
    (l : list form_screen) : res (option position) :=
  match l with
  | [] => Ok None
  | sc :: rest =>
      match sc_kind sc with
      | REPEAT =>
          match sc_repeat sc with
          | None => Raise AssertionError
          | Some r =>
              match first_blocking_instance blocking r (default [] (dget (pl_instance_plans plan) r))
                      (instances_of r s) with
              | Some (iid, k) => Ok (Some (Position (sc_index sc) (Some iid) (Some k)))
              | None => first_blocking_screen blocking plan s rest
              end
          end
      | QUESTIONS =>
          if holds_blocking blocking id sc then Ok (Some (at_screen (sc_index sc)))
          else first_blocking_screen blocking plan s rest
      end
  end.

Definition first_blocking_position (plan : screen_plan) (s : inst) : res (option position) :=
  match blocking_fields s with
  | [] => Ok None
  | blocking => first_blocking_screen blocking plan s (pl_screens plan)
  end.

End Live.
