(* ===== verification/Reachability.v ===== *)
(** * The publish gate's static checks: form_engine/reachability.py and
      form_engine/answerability.py (Form IR 10.2, 10.3)

    Which questions a form can never ask, and which it asks and nobody can
    answer, decided from the document alone. *)

From S2P Require Import Prelude PyStr PyNum PyDate Value Expr Expression Document Screens.

Inductive dead_cause :=
| DeadRelevant
| DeadCount (v : value)
| DeadMaximum
| DeadRows.

Record dead_container := DeadContainer {
  dead_id : pystr;
  dead_cause_of : dead_cause;
  dead_questions : list pystr
}.

(** Every question meant to be answered or read: not a calculate. *)
Fixpoint answerable_node (n : node) : list pystr :=
  match n with
  | Node a c =>
      (if str_eqb (atext a "type") "question" && asked a then [atext a "id"] else []) ++
      concat (map answerable_node c)
  end.

Definition answerable (nodes : list node) : list pystr := concat (map answerable_node nodes).

(** A number that is no boolean, at most zero. *)
Definition nonpositive (v : value) : bool :=
  match number_ v with Some n => num_leb n (NInt 0) | None => false end.

Section Static.
Context `{PyEnv}.

Definition count_cause (count : value) : res (option dead_cause) :=
  if is_static (expr_of count)
  then v ← static_value (expr_of count); Ok (if nonpositive v then Some (DeadCount v) else None)
  else Ok None.

Definition empty_rows (a : odict value) : bool :=
  let source := vget a "rowSource" in
  is_dict source && py_eq (vfield source "kind") (VStr "inline") &&
  negb (truthy (vfield source "items")) && negb (truthy (vfield source "allowAdd")).

Definition dead_reason (a : odict value) : res (option dead_cause) :=
  let kind := atext a "type" in
  if negb (bool_decide (kind ∈ [lit "group"; lit "repeat"])) then Ok None
  else
    never ← statically_false (expr_of (vget a "relevant"));
    if (never : bool) then Ok (Some DeadRelevant)
    else if negb (str_eqb kind "repeat") then Ok None
    else
      c ← count_cause (vget a "countExpr");
      match c with
      | Some d => Ok (Some d)
      | None =>
          Ok (if py_eq (vget a "maxInstances") (VInt 0) then Some DeadMaximum
              else if empty_rows a then Some DeadRows else None)
      end.

(** Results of a list, joined. *)
Definition concatR {A B} (f : A -> res (list B)) (l : list A) : res (list B) :=
  ls ← mapR f l; Ok (concat ls).

(** The outermost unreachable containers holding answerable questions. *)
Fixpoint dead_in (n : node) : res (list dead_container) :=
  match n with
  | Node a c =>
      d ← dead_reason a;
      match d with
      | Some cause =>
          let qs := concat (map answerable_node c) in
          Ok (match qs with [] => [] | _ => [DeadContainer (atext a "id") cause qs] end)
      | None => concatR dead_in c
      end
  end.

Definition dead_containers (nodes : list node) : res (list dead_container) := concatR dead_in nodes.

Inductive violation :=
| Unreachable (questions : list pystr)
| Dead (d : dead_container).

Definition unreachable_questions (nodes : list node) : list pystr :=
  let on_screen := askable_question_ids (build_screen_plan nodes) in
  List.filter (fun q => negb (bool_decide (q ∈ on_screen))) (answerable nodes).

Definition check_reachability (nodes : list node) : res (list violation) :=
  dead ← dead_containers nodes;
  Ok ((match unreachable_questions nodes with [] => [] | qs => [Unreachable qs] end) ++ map Dead dead).

Fixpoint never_shown_in (n : node) : res (list pystr) :=
  match n with
  | Node a c =>
      d ← dead_reason a;
      match d with
      | Some _ => Ok (concat (map answerable_node c))
      | None =>
          own ← (if str_eqb (atext a "type") "question" && asked a
                 then never ← statically_false (expr_of (vget a "relevant"));
                      Ok (if (never : bool) then [atext a "id"] else [])
                 else Ok []);
          inner ← concatR never_shown_in c;
          Ok (own ++ inner)
      end
  end.

Definition never_shown_questions (nodes : list node) : res (list pystr) := concatR never_shown_in nodes.

End Static.

(** ** Answerability (10.2) *)

Definition VALUELESS_TYPES : list pystr := [lit "note"].

Fixpoint questions_in (n : node) : list (odict value) :=
  match n with
  | Node a c => (if str_eqb (atext a "type") "question" then [a] else []) ++ concat (map questions_in c)
  end.

(** A question whose type holds no value, marked [required]: the violation is
    its id and type. *)
Definition required_valueless (a : odict value) : bool :=
  match vget a "dataType" with
  | VStr t => bool_decide (t ∈ VALUELESS_TYPES) && negb (is_null (vget a "required"))
  | _ => false
  end.

Definition check_answerability (nodes : list node) : list (pystr * pystr) :=
  map (fun a => (atext a "id", atext a "dataType"))
    (List.filter required_valueless (concat (map questions_in nodes))).
