(* ===== verification/ScreenFacts.v ===== *)
(** * What the screen plan and the navigation guarantee (Form IR 11)

    Screens are numbered by their place; every question that is asked lies on
    exactly one; [next] and [previous] are inverse over the relevant screens
    and never move to another instance; progress stays within its
    denominator; and a blocked form opens at a screen that holds the reason. *)

From S2P Require Import Prelude PyStr PyNum PyDate Value Expr Expression Datasets Document Topo Compile.
From S2P Require Import CompileFacts Runtime Screens Reachability.

(** ** The plan *)

Definition indexed (l : list form_screen) : Prop := forall i sc, l !! i = Some sc -> sc_index sc = i.

(** A questions screen asks something, a repeat screen has its repeat. *)
Definition well_made (sc : form_screen) : Prop :=
  match sc_kind sc with
  | QUESTIONS => sc_questions sc <> [] /\ sc_repeat sc = None
  | REPEAT => sc_questions sc = [] /\ is_Some (sc_repeat sc)
  end.

Definition good_screens (l : list form_screen) : Prop := indexed l /\ Forall well_made l.

Definition good_plan (st : list form_screen * odict (list form_screen)) : Prop :=
  good_screens st.1 /\ forall r l, dget st.2 r = Some l -> good_screens l.

Lemma good_append out k g sec qs r :
  good_screens out -> well_made (FormScreen 0 k g sec qs r) -> good_screens (append_screen out k g sec qs r).
Proof.
  intros [Hi Hw] Hm. unfold append_screen. split.
  - intros i sc [Hl|[Hl Hs]]%lookup_app_Some; [by apply Hi|].
    apply list_lookup_singleton_Some in Hs as [Hz <-]. cbn. lia.
  - apply Forall_app. split; [done|]. by constructor.
Qed.

Lemma fold_good (f : plan_state -> node -> plan_state) c st :
  Forall (fun n => forall st, good_plan st -> good_plan (f st n)) c -> good_plan st -> good_plan (fold_left f c st).
Proof. revert st. induction c as [|n c IH]; intros st Hc Hs; [done|]. apply Forall_cons in Hc as [Hn Hc]. cbn. auto. Qed.

Lemma walk_screens_good n : forall section st, good_plan st -> good_plan (walk_screens section st n).
Proof.
  induction n as [a c IH] using node_ind'. intros section [out plans] [Ho Hp]. cbn [walk_screens fst snd] in *.
  destruct (str_eqb (atext a "type") "question").
  { destruct (asked a); [|done]. split; [|done]. by apply good_append. }
  destruct (str_eqb (atext a "type") "group").
  { destruct (py_eq _ _).
    - destruct (concat (map collect_questions c)) as [|q qs] eqn:E; [done|]. split; [|done]. by apply good_append.
    - apply fold_good; [|done]. eapply Forall_impl; [exact IH|]. intros n Hn st'. apply Hn. }
  destruct (str_eqb (atext a "type") "repeat"); [|done].
  destruct (fold_left (walk_screens (Some (atext a "id"))) c ([], plans)) as [inner plans'] eqn:E.
  assert (good_plan (inner, plans')) as [Hin Hp'].
  { rewrite <- E. apply fold_good; [eapply Forall_impl; [exact IH|]; intros n Hn st'; apply Hn|].
    split; [|done]. split; [by intros i sc|constructor]. }
  split; cbn [fst snd] in *.
  - apply good_append; [done|]. split; [done|by eexists].
  - intros r l. rewrite dget_dset. case_decide; [by intros [= <-]|apply Hp'].
Qed.

Lemma build_plan_good nodes :
  good_screens (pl_screens (build_screen_plan nodes)) /\
  forall r l, dget (pl_instance_plans (build_screen_plan nodes)) r = Some l -> good_screens l.
Proof.
  unfold build_screen_plan. destruct (fold_left (walk_screens None) nodes ([], [])) as [screens plans] eqn:E.
  assert (good_plan (screens, plans)) as Hg; [|exact Hg]. rewrite <- E. apply fold_good.
  - apply Forall_true. intros n st. apply walk_screens_good.
  - split; [|done]. split; [by intros i sc|constructor].
Qed.

(** ** No question is lost *)

Fixpoint repeats_in (n : node) : list pystr :=
  match n with
  | Node a c => (if str_eqb (atext a "type") "repeat" then [atext a "id"] else []) ++ concat (map repeats_in c)
  end.

(** Questions hold nothing; a repeat lies in no repeat and in no field-list. *)
Fixpoint plannable (n : node) : bool :=
  match n with
  | Node a c =>
      let kind := atext a "type" in
      let inner := forallb plannable c in
      let flat := is_nil (concat (map repeats_in c)) in
      if str_eqb kind "question" then is_nil c
      else if str_eqb kind "group" then inner && (negb (py_eq (vget a "appearance") (VStr "field-list")) || flat)
      else str_eqb kind "repeat" && inner && flat
  end.

(** The questions of a plan under construction. *)
Definition placed (st : list form_screen * odict (list form_screen)) : list pystr :=
  concat (map sc_questions st.1) ++ concat (map (fun kp => concat (map sc_questions kp.2)) st.2).

Lemma placed_append out k g sec qs r plans :
  placed (append_screen out k g sec qs r, plans) ≡ₚ placed (out, plans) ++ qs.
Proof.
  unfold placed, append_screen. cbn [fst snd]. rewrite map_app, concat_app. cbn [map concat sc_questions].
  rewrite app_nil_r, <- !app_assoc. apply Permutation_app_head, Permutation_app_comm.
Qed.

Lemma is_nil_true {A} (l : list A) : is_nil l = true -> l = [].
Proof. by destruct l. Qed.

Lemma concat_nil_all {A B} (f : A -> list B) l x : concat (map f l) = [] -> x ∈ l -> f x = [].
Proof.
  induction l as [|a l IH]; [set_solver|]. cbn. intros [Ha Hl]%app_eq_nil [->|Hx]%elem_of_cons; [done|auto].
Qed.

Lemma concat_all_nil {A B} (f : A -> list B) l : (forall x, x ∈ l -> f x = []) -> concat (map f l) = [].
Proof. induction l as [|a l IH]; intros Hl; cbn; [done|]. rewrite Hl by set_solver. apply IH. set_solver. Qed.

(** Under a field-list the questions are collected in order. *)
Lemma collect_answerable n : plannable n = true -> repeats_in n = [] -> collect_questions n = answerable_node n.
Proof.
  induction n as [a c IH] using node_ind'. cbn [plannable repeats_in collect_questions answerable_node].
  destruct (str_eqb (atext a "type") "question") eqn:Eq.
  { intros ->%is_nil_true _. cbn [map concat andb]. by rewrite app_nil_r. }
  destruct (str_eqb (atext a "type") "group") eqn:Eg.
  - intros [Hc _]%andb_true_iff [_ Hr]%app_eq_nil. cbn [andb app]. f_equal. apply map_ext_in. intros n Hn%list_elem_of_In.
    rewrite Forall_forall in IH. apply IH; [done| |by eapply concat_nil_all].
    rewrite forallb_forall in Hc. by apply Hc, list_elem_of_In.
  - intros [[Hr _]%andb_true_iff _]%andb_true_iff. rewrite Hr. done.
Qed.

(** What a walk of [n] adds to the plan: its questions, and its repeats. *)
Definition adds (n : node) (f : plan_state -> node -> plan_state) : Prop :=
  forall st, (forall r, r ∈ repeats_in n -> r ∉ dkeys st.2) -> NoDup (repeats_in n) ->
    placed (f st n) ≡ₚ placed st ++ answerable_node n /\
    dkeys (f st n).2 = dkeys st.2 ++ repeats_in n /\ (repeats_in n = [] -> (f st n).2 = st.2).

Lemma fold_adds (f : plan_state -> node -> plan_state) c : Forall (fun n => adds n f) c ->
  forall st, (forall r, r ∈ concat (map repeats_in c) -> r ∉ dkeys st.2) -> NoDup (concat (map repeats_in c)) ->
    placed (fold_left f c st) ≡ₚ placed st ++ concat (map answerable_node c) /\
    dkeys (fold_left f c st).2 = dkeys st.2 ++ concat (map repeats_in c) /\
    (concat (map repeats_in c) = [] -> (fold_left f c st).2 = st.2).
Proof.
  induction 1 as [|n c Hn Hc IH]; intros st Hf Hnd; cbn [map concat fold_left].
  { by rewrite !app_nil_r. }
  cbn [map concat] in Hf, Hnd. apply NoDup_app in Hnd as (Hn1 & Hdis & Hn2).
  destruct (Hn st) as (P1 & K1 & E1); [intros r Hr; apply Hf; set_solver|done|].
  destruct (IH (f st n)) as (P2 & K2 & E2); [|done|].
  { intros r Hr. rewrite K1. apply not_elem_of_app. split; [apply Hf; set_solver|]. intros Hr'. by apply (Hdis r Hr'). }
  split_and!.
  - by rewrite P2, P1, <- app_assoc.
  - by rewrite K2, K1, <- app_assoc.
  - intros [Er Ec]%app_eq_nil. by rewrite E2, E1.
Qed.

Lemma walk_adds n : plannable n = true -> forall section, adds n (walk_screens section).
Proof.
  induction n as [a c IH] using node_ind'. intros Hp section [out plans] Hfresh Hnd.
  cbn [plannable walk_screens answerable_node repeats_in fst snd] in *.
  destruct (str_eqb (atext a "type") "question") eqn:Eq.
  { apply is_nil_true in Hp as ->. cbn [map concat andb app] in *.
    assert (str_eqb (atext a "type") "repeat" = false) as Er.
    { apply str_eqb_eq in Eq. by rewrite Eq. }
    rewrite Er in *. rewrite app_nil_r. cbn [app]. rewrite !app_nil_r.
    destruct (asked a); cbn [fst snd]; split_and!; try done; [apply placed_append|by rewrite app_nil_r]. }
  cbn [andb app].
  destruct (str_eqb (atext a "type") "group") eqn:Eg.
  { assert (str_eqb (atext a "type") "repeat" = false) as Er by (apply str_eqb_eq in Eg; by rewrite Eg).
    rewrite Er in *. cbn [app] in *. apply andb_true_iff in Hp as [Hc Hfl]. rewrite forallb_forall in Hc.
    destruct (py_eq _ _) eqn:Efl.
    - cbn in Hfl. apply is_nil_true in Hfl. rewrite Hfl.
      assert (concat (map collect_questions c) = concat (map answerable_node c)) as Eqs.
      { f_equal. apply map_ext_in. intros n Hn%list_elem_of_In. apply collect_answerable; [by apply Hc, list_elem_of_In|].
        by eapply concat_nil_all. }
      rewrite Eqs. destruct (concat (map answerable_node c)) as [|q qs] eqn:E; cbn [fst snd]; split_and!;
        rewrite ?app_nil_r; try done. apply placed_append.
    - apply fold_adds; [|done..]. rewrite Forall_forall in IH |- *. intros n Hn. apply IH; [done|].
      by apply Hc, list_elem_of_In. }
  apply andb_true_iff in Hp as [Hp Hflat]. apply andb_true_iff in Hp as [Er Hc]. rewrite Er in *.
  apply is_nil_true in Hflat. rewrite Hflat in *. rewrite app_nil_r in *. rewrite forallb_forall in Hc.
  assert (Forall (fun n => adds n (walk_screens (Some (atext a "id")))) c) as Hall.
  { rewrite Forall_forall in IH |- *. intros n Hn. apply IH; [done|]. by apply Hc, list_elem_of_In. }
  destruct (fold_adds _ c Hall ([], plans)) as (P & K & E); [by rewrite Hflat; intros; set_solver|by rewrite Hflat; constructor|].
  specialize (E Hflat).
  destruct (fold_left (walk_screens (Some (atext a "id"))) c ([], plans)) as [inner plans'] eqn:Ef.
  cbn [fst snd] in *. subst plans'.
  assert (atext a "id" ∉ dkeys plans) as Hid by (apply Hfresh; set_solver).
  rewrite dset_fresh by done. split_and!; [|by unfold dkeys; rewrite map_app|done].
  rewrite placed_append, app_nil_r. unfold placed in P |- *. cbn [fst snd map concat app] in *.
  rewrite map_app, concat_app. cbn [map concat snd]. rewrite app_nil_r, app_assoc. apply Permutation_app_head.
  rewrite Permutation_app_comm in P. by apply Permutation_app_inv_l in P.
Qed.

(** Every question meant to be answered is on exactly one screen. *)
Lemma plan_places nodes :
  forallb plannable nodes = true -> NoDup (concat (map repeats_in nodes)) ->
  askable_question_ids (build_screen_plan nodes) ≡ₚ answerable nodes.
Proof.
  intros Hp Hnd. unfold askable_question_ids, build_screen_plan, answerable.
  destruct (fold_adds (walk_screens None) nodes) with (st := (@nil form_screen, @nil (pystr * list form_screen)))
    as (P & _ & _); [|set_solver|done|].
  - apply Forall_forall. intros n Hn. apply walk_adds. rewrite forallb_forall in Hp. by apply Hp, list_elem_of_In.
  - destruct (fold_left (walk_screens None) nodes ([], [])) as [screens plans]. exact P.
Qed.

(** ** A compiled form's plan *)

(** Every node is a question, a group or a repeat, and a question is a leaf. *)
Fixpoint leafy (n : node) : bool :=
  match n with
  | Node a c =>
      let kind := atext a "type" in
      (if str_eqb kind "question" then is_nil c else str_eqb kind "group" || str_eqb kind "repeat") &&
      forallb leafy c
  end.

Section Compiled.
Context `{PyEnv}.

(** A repeat or a field-list is open above. *)
Definition closed_in (f : cform) (anc : list pystr) : Prop :=
  enclosing_repeats f anc <> [] \/ field_list_ancestor f anc <> None.

Lemma closed_extends f f' anc :
  extends f f' -> anc ⊆ dkeys (f_containers f) -> closed_in f anc -> closed_in f' anc.
Proof.
  intros He Ha [Hc|Hc]; [left; by rewrite (enclosing_extends _ _ _ He Ha)|right].
  destruct (field_list_ancestor f anc) as [x|] eqn:E; [|done]. clear Hc. intros Hn.
  unfold field_list_ancestor in *. apply find_some in E as [Hx Hb].
  eapply find_none in Hn; [|exact Hx]. cbv beta in Hn. rewrite (ex_containers _ _ He) in Hn; [congruence|].
  by apply Ha, list_elem_of_In.
Qed.

Lemma closed_app f anc a : closed_in f anc -> closed_in f (anc ++ [a]).
Proof.
  intros [Hc|Hc]; [left|right].
  - unfold enclosing_repeats in *. rewrite List.filter_app. by destruct (List.filter _ anc).
  - unfold field_list_ancestor in *. induction anc as [|x anc IH]; [done|]. cbn [app List.find] in *.
    destruct (match dget _ x with Some _ => _ | None => _ end); [done|auto].
Qed.

Record walked (seen seen' : gset pystr) (f f' : cform) (ids : list pystr) : Prop := {
  wk_form : form_inv f';
  wk_seen : seen_inv seen' f';
  wk_extends : extends f f';
  wk_grows : seen ⊆ seen';
  wk_nodup : NoDup ids;
  wk_new : forall i, i ∈ ids -> i ∉ seen /\ i ∈ seen'
}.

Lemma extends_trans f g h : extends f g -> extends g h -> extends f h.
Proof.
  intros [H1 K1 R1] [H2 K2 R2]. split.
  - intros i Hi. rewrite H2 by auto. auto.
  - set_solver.
  - intros i Hi. rewrite R2 by auto. auto.
Qed.

Definition plans (n : node) : Prop := forall anc seen f seen' f',
  leafy n = true -> form_inv f -> seen_inv seen f -> anc ⊆ dkeys (f_containers f) ->
  foldM compile_node (seen, f) (walk_node anc n) = Ok (seen', f') ->
  walked seen seen' f f' (repeats_in n) /\ plannable n = true /\ (closed_in f anc -> repeats_in n = []).

Lemma plans_all c : Forall plans c -> forall anc seen f seen' f',
  forallb leafy c = true -> form_inv f -> seen_inv seen f -> anc ⊆ dkeys (f_containers f) ->
  foldM compile_node (seen, f) (concat (map (walk_node anc) c)) = Ok (seen', f') ->
  walked seen seen' f f' (concat (map repeats_in c)) /\ forallb plannable c = true /\
  (closed_in f anc -> concat (map repeats_in c) = []).
Proof.
  induction 1 as [|n c Hn _ IH]; intros anc seen f seen' f' Hl Hf Hs Ha; cbn [map concat foldM forallb].
  { intros [= <- <-]. split_and!; try done. split; try done; [constructor|set_solver]. }
  cbn [forallb] in Hl. apply andb_true_iff in Hl as [Hl1 Hl2]. rewrite foldM_app.
  destruct (foldM compile_node (seen, f) (walk_node anc n)) as [[seen1 f1]|] eqn:E1; [|done]. cbn [mbind res_bind].
  intros E2. destruct (Hn _ _ _ _ _ Hl1 Hf Hs Ha E1) as ([Hf1 Hs1 He1 Hg1 Hnd1 Hw1] & Hp1 & Hc1).
  assert (anc ⊆ dkeys (f_containers f1)) as Ha1 by (etransitivity; [exact Ha|apply He1]).
  destruct (IH _ _ _ _ _ Hl2 Hf1 Hs1 Ha1 E2) as ([Hf2 Hs2 He2 Hg2 Hnd2 Hw2] & Hp2 & Hc2).
  split_and!.
  - split; try done; [by eapply extends_trans|set_solver| |].
    + apply NoDup_app. split_and!; try done. intros i Hi1 Hi2. apply Hw1 in Hi1 as [_ Hi1]. apply Hw2 in Hi2 as [Hi2 _]. done.
    + intros i [Hi|Hi]%elem_of_app; [apply Hw1 in Hi|apply Hw2 in Hi]; set_solver.
  - by rewrite Hp1.
  - intros Hc. rewrite Hc1, Hc2; [done| |done]. by eapply closed_extends.
Qed.

Lemma walk_container anc a c :
  bool_decide (atext a "type" ∈ [lit "group"; lit "repeat"]) = true ->
  walk_node anc (Node a c) = (Node a c, anc) :: concat (map (walk_node (anc ++ [atext a "id"])) c).
Proof. intros Hb. cbn [walk_node]. by rewrite Hb. Qed.

Lemma walk_leaf anc a : walk_node anc (Node a []) = [(Node a [], anc)].
Proof. cbn [walk_node map concat]. by destruct (bool_decide _). Qed.

(** The kind of the node a step of the walk compiles. *)
Lemma compile_node_repeat seen f n anc seen' f' :
  str_eqb (node_type n) "repeat" = true -> compile_node (seen, f) (n, anc) = Ok (seen', f') ->
  node_id n ∉ seen /\ seen' = {[ node_id n ]} ∪ seen /\ ~ closed_in f anc /\
  dhas (f_repeats f') (node_id n) = true.
Proof.
  intros Hr. unfold compile_node. destruct (negb _); [done|]. case_bool_decide as Hseen; [done|].
  destruct (1 <? _)%nat; [done|]. rewrite Hr. unfold compile_repeat.
  destruct (enclosing_repeats f anc) eqn:Ee; [|done]. destruct (field_list_ancestor f anc) eqn:Ef; [done|].
  destruct (check_row_source n); [|done]. cbn [mbind res_bind]. intros [= <- <-]. split_and!; try done.
  - by intros [Hc|Hc].
  - cbn [f_repeats]. unfold dhas. by rewrite dget_dset_eq.
Qed.

Lemma compile_node_group seen f n anc seen' f' :
  str_eqb (node_type n) "repeat" = false -> str_eqb (node_type n) "group" = true ->
  compile_node (seen, f) (n, anc) = Ok (seen', f') ->
  seen' = {[ node_id n ]} ∪ seen /\ dget (f_containers f') (node_id n) = Some (attrs n).
Proof.
  intros Hr Hg. unfold compile_node. destruct (negb _); [done|]. case_bool_decide; [done|].
  destruct (1 <? _)%nat; [done|]. rewrite Hr, Hg. intros [= <- <-]. split; [done|]. cbn. apply dget_dset_eq.
Qed.

Lemma compile_node_seen seen f n anc seen' f' :
  compile_node (seen, f) (n, anc) = Ok (seen', f') -> seen ⊆ seen' /\ seen' ⊆ {[ node_id n ]} ∪ seen.
Proof.
  unfold compile_node. destruct (negb _); [done|]. case_bool_decide; [done|]. destruct (1 <? _)%nat; [done|].
  destruct (str_eqb (node_type n) "repeat"); [destruct (compile_repeat f n anc)|
    destruct (str_eqb (node_type n) "group"); [|destruct (compile_question f n anc)]]; cbn [mbind res_bind]; try done;
    intros [= <- _]; set_solver.
Qed.

Lemma plans_node n : plans n.
Proof.
  induction n as [a c IH] using node_ind'. pose proof (plans_all c IH) as IH'; clear IH; rename IH' into IH. intros anc seen f seen' f' Hl Hf Hs Ha.
  cbn [leafy] in Hl. apply andb_true_iff in Hl as [Hk Hl].
  destruct (str_eqb (atext a "type") "question") eqn:Eq.
  - apply is_nil_true in Hk as ->. rewrite walk_leaf. cbn [foldM].
    destruct (compile_node (seen, f) (Node a [], anc)) as [[seen1 f1]|] eqn:E; [|done]. intros [= <- <-].
    destruct (compile_node_inv _ _ _ _ _ _ Hf Hs Ha E) as (Hf1 & Hs1 & He1 & _).
    apply compile_node_seen in E as [Hg _].
    assert (str_eqb (atext a "type") "repeat" = false) as Er by (apply str_eqb_eq in Eq; by rewrite Eq).
    cbn [repeats_in plannable map concat]. rewrite Er, Eq. split_and!; try done. split; try done; [constructor|set_solver].
  - assert (bool_decide (atext a "type" ∈ [lit "group"; lit "repeat"]) = true) as Hb.
    { apply bool_decide_eq_true. apply orb_true_iff in Hk as [Hk|Hk]; apply str_eqb_eq in Hk; rewrite Hk; set_solver. }
    rewrite walk_container by done. cbn [foldM].
    destruct (compile_node (seen, f) (Node a c, anc)) as [[seen1 f1]|] eqn:E; [|done]. intros Ec.
    destruct (compile_node_inv _ _ _ _ _ _ Hf Hs Ha E) as (Hf1 & Hs1 & He1 & Hin).
    assert (anc ++ [atext a "id"] ⊆ dkeys (f_containers f1)) as Ha1.
    { intros x [Hx|Hx%list_elem_of_singleton]%elem_of_app; [by apply He1, Ha|]. subst x. by apply Hin. }
    destruct (IH _ _ _ _ _ Hl Hf1 Hs1 Ha1 Ec) as ([Hf2 Hs2 He2 Hg2 Hnd2 Hw2] & Hp2 & Hc2).
    pose proof (compile_node_seen _ _ _ _ _ _ E) as [Hg1 _].
    cbn [repeats_in plannable]. rewrite Eq. destruct (str_eqb (atext a "type") "repeat") eqn:Er.
    + destruct (compile_node_repeat seen f (Node a c) anc seen1 f1 Er E) as (Hnew & -> & Hopen & Hrep). unfold node_id in *. cbn [attrs] in *.
      assert (concat (map repeats_in c) = []) as Hflat.
      { apply Hc2. left. unfold enclosing_repeats. rewrite List.filter_app. cbn [List.filter].
        change (atext a "id") with (node_id (Node a c)). unfold node_id. cbn [attrs]. rewrite Hrep. by destruct (List.filter _ anc). }
      assert (str_eqb (atext a "type") "group" = false) as Eg by (apply str_eqb_eq in Er; by rewrite Er).
      rewrite Eg, Hflat, Hp2. split_and!; [|done|done]. split; try done.
      * by eapply extends_trans.
      * set_solver.
      * apply NoDup_singleton.
      * intros i Hi%list_elem_of_singleton. subst i. split; [done|]. apply Hg2. set_solver.
    + rewrite orb_false_r in Hk. rewrite Hk, Hp2. cbn [app andb].
      destruct (compile_node_group seen f (Node a c) anc seen1 f1 Er Hk E) as (-> & Hcont). unfold node_id in *. cbn [attrs] in *.
      assert (closed_in f anc -> concat (map repeats_in c) = []) as Hcl.
      { intros Hc. apply Hc2, closed_app. by eapply closed_extends. }
      split_and!; [|destruct (py_eq _ _) eqn:Efl; [|done]|done].
      * split; try done; [by eapply extends_trans|set_solver|]. intros i Hi. apply Hw2 in Hi. set_solver.
      * cbn. rewrite Hc2; [done|]. right. unfold field_list_ancestor. clear - Hcont Efl.
        induction anc as [|x anc IH]; cbn [app List.find]; [|by destruct (match dget _ x with Some _ => _ | None => _ end)].
        by rewrite Hcont, Efl.
Qed.

(** The compiled form asks every question of its document exactly once. *)
Lemma compiled_places ir f :
  compile ir = Ok f -> forallb leafy (children (node_of ir)) = true ->
  askable_question_ids (build_screen_plan (children (node_of ir))) ≡ₚ answerable (children (node_of ir)).
Proof.
  unfold compile. destruct (check_document ir); [|done]. cbn [mbind res_bind].
  destruct (foldM compile_node _ _) as [[seen f0]|] eqn:E0; [|done]. intros _ Hl.
  destruct (empty_form_inv (attrs (node_of ir))) as [He Hs].
  destruct (plans_all (children (node_of ir)) (proj2 (Forall_forall _ _) (fun n _ => plans_node n)) _ _ _ _ _ Hl He Hs
              (list_subseteq_nil _) E0) as ([_ _ _ _ Hnd _] & Hp & _).
  by apply plan_places.
Qed.

End Compiled.

(** ** Moving between screens *)

Section Live.
Context `{PyEnv} (w : world) (plan : screen_plan) (s : inst).

(** The first hit of a list: nothing before it qualifies. *)
Lemma first_screen_Some p l i :
  first_screen p l = Ok (Some i) <->
  exists l1 sc l2, l = l1 ++ sc :: l2 /\ sc_index sc = i /\ p sc = Ok true /\ Forall (fun x => p x = Ok false) l1.
Proof.
  induction l as [|sc l IH]; cbn [first_screen].
  { split; [done|]. intros (l1 & sc & l2 & Hl & _). by destruct l1. }
  destruct (p sc) as [[|]|e] eqn:E.
  - split.
    + intros [= <-]. by exists [], sc, l.
    + intros (l1 & sc' & l2 & Hl & Hi & Hp & Hf). destruct l1 as [|x l1]; simplify_eq/=; [done|].
      apply Forall_cons in Hf as [Hf _]. congruence.
  - rewrite IH. split.
    + intros (l1 & sc' & l2 & -> & Hi & Hp & Hf). exists (sc :: l1), sc', l2. split_and!; try done. by constructor.
    + intros (l1 & sc' & l2 & Hl & Hi & Hp & Hf). destruct l1 as [|x l1]; simplify_eq/=; [congruence|].
      apply Forall_cons in Hf as [_ Hf]. eauto 10.
  - split; [done|]. intros (l1 & sc' & l2 & Hl & Hi & Hp & Hf). destruct l1 as [|x l1]; simplify_eq/=; [congruence|].
    apply Forall_cons in Hf as [Hf _]. congruence.
Qed.

Lemma first_screen_None p l : first_screen p l = Ok None <-> Forall (fun x => p x = Ok false) l.
Proof.
  induction l as [|sc l IH]; cbn [first_screen]; [by split; [constructor|]|]. rewrite Forall_cons, <- IH.
  destruct (p sc) as [[|]|e]; naive_solver.
Qed.

Hypothesis plan_indexed : indexed (pl_screens plan).

(** The screen at a place, relevant now. *)
Definition relevant_at (i : nat) : Prop := exists sc, pl_screens plan !! i = Some sc /\ screen_relevant w s sc = Ok true.
Definition irrelevant_at (i : nat) : Prop := exists sc, pl_screens plan !! i = Some sc /\ screen_relevant w s sc = Ok false.

Lemma split_at {A} (l : list A) i x : l !! i = Some x -> l = take i l ++ x :: drop (S i) l.
Proof. intros Hi. by rewrite take_drop_middle. Qed.

Lemma index_middle l1 sc l2 : pl_screens plan = l1 ++ sc :: l2 -> sc_index sc = length l1.
Proof. intros Hl. apply (plan_indexed _ sc). by rewrite Hl, list_lookup_middle. Qed.

(** [next] is the least relevant screen after the current one. *)
Lemma next_screen_least (from : nat) j :
  next_screen w plan s (Z.of_nat from) = Ok (Some j) <->
  (from < j)%nat /\ relevant_at j /\ forall i, (from < i < j)%nat -> irrelevant_at i.
Proof.
  unfold next_screen. rewrite first_screen_Some. split.
  - intros (l1 & sc & l2 & Hl & Hi & Hp & Hf). pose proof (index_middle _ _ _ Hl) as Hlen.
    destruct (Z.ltb_spec (Z.of_nat from) (Z.of_nat (sc_index sc))) as [Hlt|]; [|done].
    assert (pl_screens plan !! j = Some sc) as Hj by (by rewrite Hl, <- Hi, Hlen, list_lookup_middle).
    split_and!; [lia|by exists sc|]. intros i Hb.
    assert (i < length l1)%nat as Hil by lia. apply lookup_lt_is_Some in Hil as [x Hx].
    assert (pl_screens plan !! i = Some x) as Hix by (by rewrite Hl, lookup_app_l by (by eapply lookup_lt_Some)).
    exists x. split; [done|]. rewrite Forall_lookup in Hf. specialize (Hf _ _ Hx). rewrite (plan_indexed _ _ Hix) in Hf.
    destruct (Z.ltb_spec (Z.of_nat from) (Z.of_nat i)); [done|lia].
  - intros (Hlt & (sc & Hj & Hr) & Hirr). exists (take j (pl_screens plan)), sc, (drop (S j) (pl_screens plan)).
    split_and!; [by apply split_at|by apply plan_indexed| |].
    + rewrite (plan_indexed _ _ Hj). by rewrite (proj2 (Z.ltb_lt _ _)) by lia.
    + apply Forall_lookup. intros i x [Hx Hij]%lookup_take_Some. rewrite (plan_indexed _ _ Hx).
      destruct (Z.ltb_spec (Z.of_nat from) (Z.of_nat i)); [|done].
      destruct (Hirr i) as (x' & Hx' & Hf); [lia|]. congruence.
Qed.

(** [previous] is the greatest relevant screen before it. *)
Lemma previous_screen_greatest (from : nat) j :
  (from <= length (pl_screens plan))%nat ->
  previous_screen w plan s (Z.of_nat from) = Ok (Some j) <->
  (j < from)%nat /\ relevant_at j /\ forall i, (j < i < from)%nat -> irrelevant_at i.
Proof.
  intros Hfrom. unfold previous_screen. rewrite first_screen_Some. split.
  - intros (l1 & sc & l2 & Hl & Hi & Hp & Hf).
    apply (f_equal reverse) in Hl. rewrite reverse_involutive, reverse_app, reverse_cons, <- app_assoc in Hl. cbn [app] in Hl.
    pose proof (index_middle _ _ _ Hl) as Hlen.
    destruct (Z.ltb_spec (Z.of_nat (sc_index sc)) (Z.of_nat from)) as [Hlt|]; [|done].
    assert (pl_screens plan !! j = Some sc) as Hj by (by rewrite Hl, <- Hi, Hlen, list_lookup_middle).
    split_and!; [lia|by exists sc|]. intros i Hb.
    destruct (lookup_lt_is_Some_2 (pl_screens plan) i) as [x Hx]; [lia|].
    exists x. split; [done|]. pose proof (plan_indexed _ _ Hx) as Hix.
    assert (x ∈ l1) as Hin.
    { rewrite Hl, lookup_app_r in Hx by lia.
      destruct (i - length (reverse l2))%nat as [|n] eqn:En; [lia|]. cbn in Hx.
      apply list_elem_of_lookup_2 in Hx. by rewrite elem_of_reverse in Hx. }
    rewrite Forall_forall in Hf. specialize (Hf _ Hin). rewrite Hix in Hf.
    destruct (Z.ltb_spec (Z.of_nat i) (Z.of_nat from)); [done|lia].
  - intros (Hlt & (sc & Hj & Hr) & Hirr).
    exists (reverse (drop (S j) (pl_screens plan))), sc, (reverse (take j (pl_screens plan))).
    split_and!; [|by apply plan_indexed| |].
    + rewrite (split_at _ _ _ Hj) at 1. by rewrite reverse_app, reverse_cons, <- app_assoc.
    + rewrite (plan_indexed _ _ Hj). by rewrite (proj2 (Z.ltb_lt _ _)) by lia.
    + apply Forall_reverse, Forall_lookup. intros i x Hx. rewrite lookup_drop in Hx. rewrite (plan_indexed _ _ Hx).
      destruct (Z.ltb_spec (Z.of_nat (S j + i)) (Z.of_nat from)); [|done].
      destruct (Hirr (S j + i)%nat) as (x' & Hx' & Hf); [lia|]. congruence.
Qed.

(** Going on and coming back. *)
Lemma next_previous (i j : nat) :
  (i < length (pl_screens plan))%nat -> relevant_at i ->
  next_screen w plan s (Z.of_nat i) = Ok (Some j) -> previous_screen w plan s (Z.of_nat j) = Ok (Some i).
Proof.
  intros Hi Hrel. rewrite next_screen_least. intros (Hlt & (sc & Hj & _) & Hirr).
  apply previous_screen_greatest; [apply lookup_lt_Some in Hj; lia|]. split_and!; [done|done|].
  intros k Hk. by apply Hirr.
Qed.

(** ** Inside an instance (11.3) *)

Lemma resolve_position_screen p p' :
  resolve_position plan s p = Ok p' ->
  p_screen p' = p_screen p /\ (p_instance p' = None \/ p' = p).
Proof.
  unfold resolve_position. destruct (p_instance p) as [iid|] eqn:Ei; [|intros [= <-]; auto].
  destruct (repeat_of plan (p_screen p)) as [r|]; [|done]. cbn [mbind res_bind].
  destruct r as [r|]; [case_bool_decide|]; intros [= <-]; auto.
Qed.

(** A move from inside an instance stays in it or leaves to its repeat
    screen. *)
Definition stays (p q : position) : Prop :=
  p_screen q = p_screen p /\ (p_instance q = p_instance p \/ q = at_screen (p_screen p)).

Lemma next_position_stays p p' q :
  resolve_position plan s p = Ok p' -> inside p' = true ->
  next_position w plan s p = Ok q -> exists q', q = Some q' /\ stays p' q'.
Proof.
  intros Hp Hin. unfold next_position. rewrite Hp. cbn [mbind res_bind]. rewrite Hin. unfold inner_position.
  destruct (repeat_of plan (p_screen p')) as [[r|]|]; cbn [mbind res_bind]; try done;
    destruct (p_instance p') as [iid|] eqn:Ei; try done; destruct (p_inner p') as [k|]; try done. cbn [mbind res_bind].
  destruct (List.filter _ _) as [|i l]; intros [= <-]; eexists; split; try done; split; try done; auto.
Qed.

Lemma previous_position_stays p p' q :
  resolve_position plan s p = Ok p' -> inside p' = true ->
  previous_position w plan s p = Ok q -> exists q', q = Some q' /\ stays p' q'.
Proof.
  intros Hp Hin. unfold previous_position. rewrite Hp. cbn [mbind res_bind]. rewrite Hin. unfold inner_position.
  destruct (repeat_of plan (p_screen p')) as [[r|]|]; cbn [mbind res_bind]; try done;
    destruct (p_instance p') as [iid|] eqn:Ei; try done; destruct (p_inner p') as [k|]; try done. cbn [mbind res_bind].
  destruct (last _) as [i|]; intros [= <-]; eexists; split; try done; split; try done; auto.
Qed.

(** ** Progress (11.2) *)

Lemma ordinal_bound i l : (ordinal i l <= length l)%nat.
Proof. induction l as [|x l IH]; cbn [ordinal length]; [lia|]. case_decide; [lia|]. destruct (ordinal i l); lia. Qed.

Lemma ordinal_spec i l : NoDup l -> forall k, ordinal i l = S k <-> l !! k = Some i.
Proof.
  induction 1 as [|x l Hx _ IH]; intros k; cbn [ordinal]; [done|]. case_decide as E.
  - subst x. destruct k as [|k]; cbn; [done|]. split; [lia|]. intros Hk. apply list_elem_of_lookup_2 in Hk. done.
  - destruct k as [|k].
    + split; [destruct (ordinal i l); lia|]. intros [= ->]. done.
    + change ((x :: l) !! S k) with (l !! k). rewrite <- IH. destruct (ordinal i l); [done|lia].
Qed.

(** ** Blocking (6.2) *)

Lemma blocking_fields_spec path st :
  NoDup (dkeys (i_states s)) -> dget (i_states s) path = Some st ->
  path ∈ blocking_fields s <-> fs_relevant st = true /\ Exists (fun e => is_error e = true) (fs_errors st).
Proof.
  intros Hnd Hst. unfold blocking_fields. rewrite list_elem_of_fmap. split.
  - intros ([p st'] & -> & Hin%list_elem_of_In%filter_In). destruct Hin as [Hin Hb]. apply list_elem_of_In in Hin.
    apply dget_elem_NoDup in Hin; [|done]. cbn [fst snd] in *. assert (st' = st) as -> by congruence.
    apply andb_true_iff in Hb as [Hr He]. split; [done|]. apply existsb_exists in He as (e & He & ?).
    apply Exists_exists. exists e. split; [by apply list_elem_of_In|done].
  - intros [Hr He]. exists (path, st). split; [done|]. apply list_elem_of_In, filter_In. split.
    + by apply list_elem_of_In, dget_Some_elem.
    + cbn [fst snd]. rewrite Hr. cbn. apply existsb_exists. apply Exists_exists in He as (e & He & ?).
      exists e. split; [by apply list_elem_of_In|done].
Qed.

(** The position holds the blocking path: on the screen itself, or inside the
    instance it points into. *)
Definition holds (p : position) (path : pystr) : Prop :=
  exists sc, pl_screens plan !! p_screen p = Some sc /\
    match p_instance p, p_inner p with
    | None, None => sc_kind sc = QUESTIONS /\ path ∈ sc_questions sc
    | Some iid, Some k => exists r inner q, sc_repeat sc = Some r /\ iid ∈ instances_of r s /\
        default [] (dget (pl_instance_plans plan) r) !! k = Some inner /\ q ∈ sc_questions inner /\
        path = inst_path r iid q
    | _, _ => False
    end.

Hypothesis inner_indexed : forall r l, dget (pl_instance_plans plan) r = Some l -> indexed l.

Lemma holds_blocking_spec blocking f sc :
  holds_blocking blocking f sc = true <-> exists q, q ∈ sc_questions sc /\ f q ∈ blocking.
Proof.
  unfold holds_blocking. rewrite existsb_exists. split; intros (q & Hq & Hf); exists q.
  - split; [by apply list_elem_of_In|by apply bool_decide_eq_true in Hf].
  - split; [by apply list_elem_of_In|by apply bool_decide_eq_true].
Qed.

Lemma first_blocking_instance_holds blocking r inner ids iid k :
  indexed inner -> first_blocking_instance blocking r inner ids = Some (iid, k) ->
  iid ∈ ids /\ exists sc q, inner !! k = Some sc /\ q ∈ sc_questions sc /\ inst_path r iid q ∈ blocking.
Proof.
  intros Hi. induction ids as [|i ids IH]; [done|]. cbn [first_blocking_instance].
  destruct (List.find _ inner) as [sc|] eqn:E.
  - intros [= -> <-]. split; [set_solver|]. apply find_some in E as [Hin Hb].
    apply list_elem_of_In, list_elem_of_lookup in Hin as [n Hn]. rewrite (Hi _ _ Hn).
    apply holds_blocking_spec in Hb as (q & Hq & Hb). eauto.
  - intros Hrest. apply IH in Hrest as [? ?]. split; [set_solver|done].
Qed.

Lemma first_blocking_screen_holds blocking l : (forall sc, sc ∈ l -> sc ∈ pl_screens plan) ->
  forall p, first_blocking_screen blocking plan s l = Ok (Some p) -> exists path, path ∈ blocking /\ holds p path.
Proof.
  induction l as [|sc l IH]; intros Hl p; cbn [first_blocking_screen]; [done|].
  assert (pl_screens plan !! sc_index sc = Some sc) as Hsc.
  { assert (sc ∈ pl_screens plan) as Hin by (apply Hl; set_solver).
    apply list_elem_of_lookup in Hin as [n Hn]. by rewrite (plan_indexed _ _ Hn). }
  destruct (sc_kind sc) eqn:Ek.
  - destruct (holds_blocking blocking id sc) eqn:Eb.
    + intros [= <-]. apply holds_blocking_spec in Eb as (q & Hq & Hb). exists q. split; [done|]. exists sc. by split.
    + apply IH. set_solver.
  - destruct (sc_repeat sc) as [r|] eqn:Er; [|done].
    destruct (first_blocking_instance _ _ _ _) as [[iid k]|] eqn:Ef; [|apply IH; set_solver].
    intros [= <-]. apply first_blocking_instance_holds in Ef as [Hid (inner & q & Hk & Hq & Hb)].
    + exists (inst_path r iid q). split; [done|]. exists sc. split; [done|]. cbn. eauto 10.
    + destruct (dget (pl_instance_plans plan) r) eqn:E; cbn; [by eapply inner_indexed|by intros i x].
Qed.

(** It finds a screen whenever some screen of the plan holds a blocking path. *)
Lemma first_blocking_screen_found blocking l path : Forall well_made l ->
  (exists sc, sc ∈ l /\
    ((sc_kind sc = QUESTIONS /\ path ∈ sc_questions sc) \/
     exists r iid inner q, sc_kind sc = REPEAT /\ sc_repeat sc = Some r /\ iid ∈ instances_of r s /\
       inner ∈ default [] (dget (pl_instance_plans plan) r) /\ q ∈ sc_questions inner /\ path = inst_path r iid q)) ->
  path ∈ blocking -> exists p, first_blocking_screen blocking plan s l = Ok (Some p).
Proof.
  intros Hw Hex Hb. induction Hw as [|sc l Hsc Hw IH]; [destruct Hex as (? & ?%elem_of_nil & _); done|].
  cbn [first_blocking_screen]. unfold well_made in Hsc. destruct (sc_kind sc) eqn:Ek.
  - destruct (holds_blocking blocking id sc) eqn:Eb; [by eexists|]. apply IH.
    destruct Hex as (x & [->|Hx]%elem_of_cons & Hc); [|by exists x]. exfalso.
    destruct Hc as [[_ Hq]|(?&?&?&?&?&_)]; [|congruence].
    assert (holds_blocking blocking id sc = true); [|congruence]. apply holds_blocking_spec. eauto.
  - destruct Hsc as [_ [r Hr]]. rewrite Hr.
    destruct (first_blocking_instance _ _ _ _) as [[iid k]|] eqn:Ef; [by eexists|]. apply IH.
    destruct Hex as (x & [->|Hx]%elem_of_cons & Hc); [|by exists x]. exfalso.
    destruct Hc as [[? _]|(r' & iid & inner & q & _ & Hr' & Hid & Hin & Hq & ->)]; [congruence|].
    assert (r' = r) as -> by congruence. revert Ef Hid. clear - Hin Hq Hb.
    induction (instances_of r s) as [|i ids IH]; [set_solver|]. cbn [first_blocking_instance].
    destruct (List.find _ _) as [sc'|] eqn:E; [done|]. intros Hrest [->|Hid]%elem_of_cons; [|by apply IH].
    eapply find_none in E; [|by apply list_elem_of_In].
    assert (holds_blocking blocking (inst_path r i) inner = true); [|congruence]. apply holds_blocking_spec. eauto.
Qed.

End Live.
