(* ===== verification/Projection.v ===== *)
(** * The export projection: form_engine/projection.py (Form IR 5.3)

    Relevant answers only, keyed by stable instance id, with what the server
    cannot read named rather than exported as a blank. *)

From S2P Require Import Prelude PyStr PyNum PyDate Value Expr Expression Compile Runtime.

Record repeat_row := RepeatRow {
  rr_repeat : pystr;
  rr_instance : pystr;
  rr_index : nat;
  rr_cells : odict value
}.

Record export_projection := ExportProjection {
  ep_top : odict value;
  ep_repeats : odict (list repeat_row);
  ep_unreadable : list pystr;
  ep_relevance_uncertain : list pystr;
  ep_unmapped : list pystr
}.

(** The field id a value path names. *)
Definition field_of : pystr -> pystr := field_part.

Definition reads_hidden (e : value) (hidden : gset pystr) : bool :=
  negb (bool_decide (refs_of e ∩ hidden = ∅)).

Definition hide_step (f : cform) (hidden : gset pystr) (field_id : pystr) : gset pystr :=
  if bool_decide (field_id ∈ hidden) then hidden
  else match dget (f_fields f) field_id with
       | Some cf => if reads_hidden (vget (cf_node cf) "calculate") hidden
                    then {[ field_id ]} ∪ hidden else hidden
       | None => hidden
       end.

(** [_unreadable_fields]: ciphertext, then everything computed from it. *)
Definition unreadable_fields (f : cform) (unreadable : list pystr) : gset pystr :=
  fold_left (hide_step f) (f_topo_order f)
    (list_to_set (map field_of unreadable) ∩ list_to_set (dkeys (f_fields f))).

(** A field whose presence rests on an unreadable answer. *)
Definition relevance_reads (f : cform) (cf : cfield) : gset pystr :=
  refs_of (vget (cf_node cf) "relevant") ∪
  ⋃ (map (fun a => match dget (f_containers f) a with
                   | Some c => refs_of (vget c "relevant")
                   | None => ∅
                   end) (cf_ancestors cf)).

Definition relevance_uncertain_fields (f : cform) (hidden : gset pystr) : list pystr :=
  map fst (List.filter (fun kf => negb (bool_decide (relevance_reads f kf.2 ∩ hidden = ∅))) (f_fields f)).

Definition row_prefix (repeat_id instance_id : pystr) : pystr := inst_path repeat_id instance_id [].

Section Project.
Context `{PyEnv} (w : world).

Definition repeat_row_of (ans : odict value) (repeat_id : pystr) (index : nat) (instance_id : pystr) : repeat_row :=
  RepeatRow repeat_id instance_id index
    (map (fun pv => (field_of pv.1, pv.2))
       (List.filter (fun pv => startswith pv.1 (row_prefix repeat_id instance_id)) ans)).

Definition repeat_rows (ans : odict value) (instances : odict (list pystr)) : odict (list repeat_row) :=
  map (fun ri => (ri.1, imap (repeat_row_of ans ri.1) ri.2)) instances.

(** [restored]: an unreadable path as null, then what is stored. *)
Definition restored_answers (stored : odict value) (unreadable : list pystr) : odict value :=
  fold_left (fun d pv => dset d pv.1 pv.2) stored
    (fold_left (fun d p => dset d p VNone) unreadable []).

(** What is read off the restored instance. *)
Definition projection_of (s : inst) (unreadable unmapped : list pystr) : export_projection :=
  let ans := answers false s in
  let hidden := unreadable_fields (form w) unreadable in
  let uncertain := relevance_uncertain_fields (form w) hidden in
  ExportProjection
    (List.filter (fun pv => negb (str_in "]." pv.1)) ans)
    (repeat_rows ans (i_instances s))
    (List.filter (fun p => bool_decide (field_of p ∈ hidden)) (dkeys ans))
    (List.filter (fun p => bool_decide (field_of p ∈ uncertain)) (dkeys ans))
    unmapped.

Definition project_for_export (stored : odict value) (instances : odict (list pystr))
    (unreadable : list pystr) : res export_projection :=
  let '(s0, built) := construct w in
  _ ← built;
  let '(s, unmapped) := restore w instances (restored_answers stored unreadable) s0 in
  unmapped ← unmapped;
  Ok (projection_of s unreadable unmapped).

End Project.
