(* ===== verification/ProjectionFacts.v ===== *)
(** * What the export names as unreadable (Form IR 5.3)

    The unreadable fields are those that arrived as ciphertext and, closed
    under it, every calculate that reads one; whatever is computed by any
    other field does not depend on the ciphertext. *)

From S2P Require Import Prelude PyStr PyNum PyDate Value Expr Expression ExpressionFacts Datasets.
From S2P Require Import Document Topo Compile CompileFacts Runtime RuntimeFrame Projection.

Section Hidden.
Context (f : cform).

Lemma hide_step_mono hidden g : hidden ⊆ hide_step f hidden g.
Proof. unfold hide_step. case_bool_decide; [done|]. destruct (dget _ g); [|done]. destruct (reads_hidden _ _); set_solver. Qed.

Lemma hide_step_new hidden g x : x ∈ hide_step f hidden g -> x ∈ hidden \/ x = g.
Proof. unfold hide_step. case_bool_decide; [auto|]. destruct (dget _ g); [|auto]. destruct (reads_hidden _ _); set_solver. Qed.

Lemma hide_fold_mono l : forall hidden, hidden ⊆ fold_left (hide_step f) l hidden.
Proof.
  induction l as [|g l IH]; intros hidden; cbn [fold_left]; [done|].
  etransitivity; [apply hide_step_mono|apply IH].
Qed.

Lemma hide_fold_new l : forall hidden x, x ∈ fold_left (hide_step f) l hidden -> x ∈ hidden \/ x ∈ l.
Proof.
  induction l as [|g l IH]; intros hidden x; cbn [fold_left]; [auto|].
  intros [Hx|Hx]%IH; [|set_solver]. apply hide_step_new in Hx as [Hx| ->]; set_solver.
Qed.

Lemma reads_hidden_spec e hidden : reads_hidden e hidden = true <-> exists h, h ∈ refs_of e /\ h ∈ hidden.
Proof.
  unfold reads_hidden. rewrite negb_true_iff, bool_decide_eq_false. split.
  - intros Hne. apply set_choose_L in Hne as [h Hh]. exists h. set_solver.
  - intros (h & H1 & H2) He. set_solver.
Qed.

Lemma hide_step_reads hidden g cf :
  dget (f_fields f) g = Some cf -> reads_hidden (vget (cf_node cf) "calculate") hidden = true ->
  g ∈ hide_step f hidden g.
Proof. intros Hg Hr. unfold hide_step. case_bool_decide; [done|]. rewrite Hg, Hr. set_solver. Qed.

(** Ciphertext the form has a field for. *)
Definition arrived_hidden (unreadable : list pystr) : gset pystr :=
  list_to_set (map field_of unreadable) ∩ list_to_set (dkeys (f_fields f)).

Hypothesis form_compiled : compiled f.

Lemma hidden_known unreadable x : x ∈ unreadable_fields f unreadable -> x ∈ dkeys (f_fields f).
Proof.
  unfold unreadable_fields. intros [Hx|Hx]%hide_fold_new; [set_solver|].
  pose proof (cp_topo _ form_compiled) as [Hperm _]. rewrite Hperm in Hx.
  by rewrite <- (fm_order _ (cp_form _ form_compiled)).
Qed.

(** A calculate that reads an unreadable field is unreadable. *)
Lemma hidden_closed unreadable g cf :
  dget (f_fields f) g = Some cf ->
  reads_hidden (vget (cf_node cf) "calculate") (unreadable_fields f unreadable) = true ->
  g ∈ unreadable_fields f unreadable.
Proof.
  intros Hg (h & Hread & Hh)%reads_hidden_spec.
  destruct (decide (h = g)) as [->|Hne]; [done|].
  pose proof (cp_topo _ form_compiled) as [Hperm Hbefore].
  pose proof (cp_form _ form_compiled) as Hform.
  assert (NoDup (f_topo_order f)) as Hnd by (rewrite Hperm, (fm_order _ Hform); apply Hform).
  assert (g ∈ f_topo_order f) as Hgt.
  { rewrite Hperm, (fm_order _ Hform). apply dget_elem. by rewrite Hg; eexists. }
  apply list_elem_of_split in Hgt as (l1 & l2 & Hsplit).
  assert (h ∈ l1) as Hl1.
  { assert (h ∈ take (length l1) (f_topo_order f)) as Ht; [|by rewrite Hsplit, take_app_length in Ht].
    eapply Hbefore; [by rewrite Hsplit, list_lookup_middle|]. pose proof (hidden_known _ _ Hh) as Hk.
    unfold field_deps. rewrite Hg. apply list_elem_of_In, filter_In. split.
    - apply in_map_iff. exists h. pose proof (fm_field _ Hform g cf Hg) as Hf. split.
      + apply plain_base, id_pattern_plain. apply dget_elem in Hk as (cf' & Hh').
        eapply fv_pattern, (fm_field _ Hform), Hh'.
      + apply list_elem_of_In, elem_of_elements. eapply (field_deps_cover _ _ _ (lit "calculate")); [exact Hf| |exact Hread].
        vm_compute. set_solver.
    - apply andb_true_iff. split; [by apply dhas_spec|]. apply negb_true_iff. by apply bool_decide_eq_false. }
  rewrite Hsplit in Hnd. apply NoDup_app in Hnd as (_ & Hdis & _).
  unfold unreadable_fields in *. rewrite Hsplit, fold_left_app in *. cbn [fold_left] in *.
  set (before := fold_left (hide_step f) l1 _) in *.
  assert (h ∈ before) as Hb.
  { apply (hide_fold_new (g :: l2)) in Hh as [Hh|Hh]; [done|]. exfalso. by eapply Hdis. }
  apply hide_fold_mono. eapply hide_step_reads; [exact Hg|]. apply reads_hidden_spec. by exists h.
Qed.

(** Nothing else is: a hidden field arrived as ciphertext or computes from a
    hidden field. *)
Lemma hidden_sound unreadable g :
  g ∈ unreadable_fields f unreadable ->
  g ∈ arrived_hidden unreadable \/
  exists cf, dget (f_fields f) g = Some cf /\
    reads_hidden (vget (cf_node cf) "calculate") (unreadable_fields f unreadable) = true.
Proof.
  unfold unreadable_fields. fold (arrived_hidden unreadable).
  assert (forall l hidden, g ∈ fold_left (hide_step f) l hidden -> g ∈ hidden \/
    exists cf, dget (f_fields f) g = Some cf /\
      reads_hidden (vget (cf_node cf) "calculate") (fold_left (hide_step f) l hidden) = true) as Hall; [|apply Hall].
  induction l as [|x l IH]; intros hidden; cbn [fold_left]; [auto|].
  intros [Hg|Hg]%IH; [|auto]. unfold hide_step in Hg at 1. case_bool_decide as Hx; [auto|].
  destruct (dget (f_fields f) x) as [cf|] eqn:Ex; [|auto].
  destruct (reads_hidden _ hidden) eqn:Er; [|auto]. apply elem_of_union in Hg as [Hg|Hg]; [|auto].
  apply elem_of_singleton in Hg as ->. right. exists cf. split; [done|].
  apply reads_hidden_spec in Er as (h & Hr & Hh). apply reads_hidden_spec. exists h. split; [done|].
  apply hide_fold_mono, hide_step_mono, Hh.
Qed.
End Hidden.

Section Independence.
Context `{PyEnv} (w : world).
Hypothesis form_compiled : compiled (form w).

(** Two states that differ at most on unreadable answers compute the same
    value for a field that is not unreadable. *)
Lemma readable_value_agrees unreadable g cf scope s s' :
  let hidden := unreadable_fields (form w) unreadable in
  dget (f_fields (form w)) g = Some cf -> g ∉ hidden -> field_spelled w cf = true ->
  ids_clean s -> scope_clean scope -> i_instances s = i_instances s' ->
  (forall k, field_part k ∉ hidden -> dget (i_values s) k = dget (i_values s') k) ->
  eval_in w scope (vget (cf_node cf) "calculate") s = eval_in w scope (vget (cf_node cf) "calculate") s'.
Proof.
  intros hidden Hg Hh Hsp Hids Hsc Hi Hv.
  apply (eval_in_agree w (refs_of (vget (cf_node cf) "calculate"))); try done.
  - apply (field_expr_spelled w); [done|]. vm_compute. set_solver.
  - split; [done|]. intros k Hk. apply Hv. intros Hin. apply Hh. eapply hidden_closed; [done..|].
    apply reads_hidden_spec. by exists (field_part k).
Qed.
End Independence.
