(* ===== verification/Fold.v ===== *)
(** * Folding the op log: submissions/fold.py (sync 6)

    [fold_ops] over ops already in [(counter, device_id)] order, the
    specification of what it computes (the last op that says something about a
    path wins), and the invariants of the folded state. *)

From S2P Require Import Prelude PyStr Value Compile.

(** The columns a fold reads. *)
Record fold_op := FoldOp {
  op_kind : pystr;
  op_path : option pystr;
  op_value : value;
  op_ciphertext : bool;              (* [value_ciphertext is not None] *)
  op_content_key_id : option pystr;
  op_wall_clock : pystr;
  op_server_seq : Z
}.

Record fold := Fold {
  fo_data : odict value;
  fo_unreadable : odict pystr;
  fo_instances : odict (list pystr);
  fo_status : option pystr;
  fo_finalized_at : option pystr;
  fo_high_water : Z
}.

(** ** [INSTANCE_PATH.match]

    The repeat and the instance of [members[i3].age] or [members[i3]].  The
    pattern's [.] takes no newline and its [$] allows one at the end. *)

Definition NEWLINE : N := 10.

Definition drop_newline (s : pystr) : pystr :=
  match reverse s with
  | c :: r => if decide (c = NEWLINE) then reverse r else s
  | [] => s
  end.

Definition path_tail_ok (t : pystr) : bool :=
  match drop_newline t with
  | [] => true
  | c :: f => bool_decide (c = 46%N) && negb (bool_decide (f = [])) && negb (bool_decide (NEWLINE ∈ f))
  end.

Definition instance_path (path : pystr) : option (pystr * pystr) :=
  match cut "[" path with
  | Some (r, rest) =>
      match cut "]" rest with
      | Some (i, t) =>
          if id_body r && negb (bool_decide (i = [])) && path_tail_ok t then Some (r, i) else None
      | None => None
      end
  | None => None
  end.

(** ** One op *)

Definition note_instance (instances : odict (list pystr)) (path : pystr) : odict (list pystr) :=
  match instance_path path with
  | None => instances
  | Some (r, i) =>
      let ordered := default [] (dget instances r) in
      dset instances r (if bool_decide (i ∈ ordered) then ordered else ordered ++ [i])
  end.

(** Whether deleting [prefix] forgets [key]. *)
Definition covers (prefix key : pystr) : bool :=
  str_eqb key prefix || startswith key (prefix ++ lit ".") || startswith key (prefix ++ lit "[").

Definition forget {A} (prefix : pystr) (store : odict A) : odict A :=
  List.filter (fun kv => negb (covers prefix kv.1)) store.

(** [l.remove(x)] for a present [x] *)
Fixpoint remove_first (x : pystr) (l : list pystr) : list pystr :=
  match l with
  | [] => []
  | y :: r => if decide (x = y) then r else y :: remove_first x r
  end.

Definition delete_instances (instances : odict (list pystr)) (path : pystr) : odict (list pystr) :=
  match instance_path path with
  | None => dpop instances path
  | Some (r, i) =>
      match dget instances r with
      | Some ordered => dset instances r (remove_first i ordered)
      | None => instances
      end
  end.

Definition fold_set (f : fold) (op : fold_op) (path : pystr) : fold :=
  let instances := note_instance (fo_instances f) path in
  if op_ciphertext op then
    Fold (dpop (fo_data f) path)
      (match op_content_key_id op with
       | Some k => dset (fo_unreadable f) path k
       | None => fo_unreadable f
       end) instances (fo_status f) (fo_finalized_at f) (fo_high_water f)
  else
    Fold (dset (fo_data f) path (op_value op)) (dpop (fo_unreadable f) path) instances
      (fo_status f) (fo_finalized_at f) (fo_high_water f).

Definition fold_unset (f : fold) (path : pystr) : fold :=
  Fold (dpop (fo_data f) path) (dpop (fo_unreadable f) path) (fo_instances f)
    (fo_status f) (fo_finalized_at f) (fo_high_water f).

Definition fold_repeat_add (f : fold) (path : pystr) : fold :=
  Fold (fo_data f) (fo_unreadable f) (note_instance (fo_instances f) path)
    (fo_status f) (fo_finalized_at f) (fo_high_water f).

Definition fold_repeat_delete (f : fold) (path : pystr) : fold :=
  Fold (forget path (fo_data f)) (forget path (fo_unreadable f))
    (delete_instances (fo_instances f) path) (fo_status f) (fo_finalized_at f) (fo_high_water f).

Definition with_status (f : fold) (st : pystr) (finalized_at : option pystr) : fold :=
  Fold (fo_data f) (fo_unreadable f) (fo_instances f) (Some st) finalized_at (fo_high_water f).

Definition seen_seq (f : fold) (n : Z) : fold :=
  Fold (fo_data f) (fo_unreadable f) (fo_instances f) (fo_status f) (fo_finalized_at f)
    (Z.max (fo_high_water f) n).

(** The kinds a fold acts on, decoded from [op_kind]. *)
Inductive kind := KSet | KUnset | KAdd | KDelete | KFinalize | KReopen | KOther.

Definition kind_of (k : pystr) : kind :=
  if str_eqb k "set" then KSet
  else if str_eqb k "unset" then KUnset
  else if str_eqb k "repeat_add" then KAdd
  else if str_eqb k "repeat_delete" then KDelete
  else if str_eqb k "finalize" then KFinalize
  else if str_eqb k "reopen" then KReopen else KOther.

Definition fold_step (f : fold) (op : fold_op) : fold :=
  let f := seen_seq f (op_server_seq op) in
  match kind_of (op_kind op), op_path op with
  | KSet, Some p => fold_set f op p
  | KUnset, Some p => fold_unset f p
  | KAdd, Some p => fold_repeat_add f p
  | KDelete, Some p => fold_repeat_delete f p
  | KFinalize, _ => with_status f "finalized" (Some (op_wall_clock op))
  | KReopen, _ => with_status f "draft" None
  | _, _ => f
  end.

Definition empty_fold : fold := Fold [] [] [] None None 0.

Definition fold_ops (ops : list fold_op) : fold := fold_left fold_step ops empty_fold.

(** ** Specification: the last op that says something about a path *)

(** What one op says of the plaintext at [path]: nothing, or its new state. *)
Definition says_data (op : fold_op) (path : pystr) : option (option value) :=
  match kind_of (op_kind op), op_path op with
  | KSet, Some p => if decide (p = path) then Some (if op_ciphertext op then None else Some (op_value op)) else None
  | KUnset, Some p => if decide (p = path) then Some None else None
  | KDelete, Some p => if covers p path then Some None else None
  | _, _ => None
  end.

(** And of the key its ciphertext is under. *)
Definition says_unreadable (op : fold_op) (path : pystr) : option (option pystr) :=
  match kind_of (op_kind op), op_path op with
  | KSet, Some p =>
      if decide (p = path) then
        if op_ciphertext op then option_map Some (op_content_key_id op) else Some None
      else None
  | KUnset, Some p => if decide (p = path) then Some None else None
  | KDelete, Some p => if covers p path then Some None else None
  | _, _ => None
  end.

Definition says_status (op : fold_op) : option pystr :=
  match kind_of (op_kind op) with
  | KFinalize => Some (lit "finalized")
  | KReopen => Some (lit "draft")
  | _ => None
  end.

(** The answer of the latest op that has one. *)
Fixpoint latest {A} (says : fold_op -> option A) (newest_first : list fold_op) : option A :=
  match newest_first with
  | [] => None
  | op :: older => match says op with Some a => Some a | None => latest says older end
  end.

Definition last_data (ops : list fold_op) (path : pystr) : option value :=
  match latest (fun op => says_data op path) (reverse ops) with Some v => v | None => None end.
Definition last_unreadable (ops : list fold_op) (path : pystr) : option pystr :=
  match latest (fun op => says_unreadable op path) (reverse ops) with Some v => v | None => None end.

(** ** Invariants *)

Record fold_inv (f : fold) : Prop := {
  fi_data : NoDup (dkeys (fo_data f));
  fi_unreadable : NoDup (dkeys (fo_unreadable f));
  fi_disjoint : forall p, p ∈ dkeys (fo_data f) -> p ∉ dkeys (fo_unreadable f);
  fi_repeats : NoDup (dkeys (fo_instances f));
  fi_instances : forall r l, dget (fo_instances f) r = Some l -> NoDup l
}.

Lemma dkeys_forget {A} p (d : odict A) k : k ∈ dkeys (forget p d) <-> k ∈ dkeys d /\ covers p k = false.
Proof.
  unfold dkeys, forget. rewrite !list_elem_of_fmap. setoid_rewrite list_elem_of_In. setoid_rewrite filter_In.
  setoid_rewrite negb_true_iff. split.
  - intros ([k' v] & -> & Hin & Hc). eauto.
  - intros [([k' v] & -> & Hin) Hc]. by exists (k', v).
Qed.

Lemma sublist_filter {A} (p : A -> bool) (l : list A) : sublist (List.filter p l) l.
Proof. induction l as [|a l IH]; simpl; [constructor|]. destruct (p a); by constructor. Qed.

Lemma sublist_map {A B} (g : A -> B) (l l' : list A) : sublist l l' -> sublist (g <$> l) (g <$> l').
Proof. induction 1; simpl; by constructor. Qed.

Lemma NoDup_forget {A} p (d : odict A) : NoDup (dkeys d) -> NoDup (dkeys (forget p d)).
Proof.
  unfold dkeys, forget. intros H. eapply sublist_NoDup; [exact H|].
  apply sublist_map, sublist_filter.
Qed.

Lemma dget_forget {A} p (d : odict A) k :
  dget (forget p d) k = if covers p k then None else dget d k.
Proof.
  unfold forget. induction d as [|[k' v] d IH]; cbn [List.filter dget]; [by destruct (covers p k)|].
  cbn [fst]. destruct (covers p k') eqn:Ec; cbn [negb].
  - rewrite IH. case_decide; subst; [by rewrite Ec|done].
  - cbn [dget]. case_decide; subst; [by rewrite Ec|done].
Qed.

Lemma note_instance_inv instances p :
  NoDup (dkeys instances) -> (forall r l, dget instances r = Some l -> NoDup l) ->
  NoDup (dkeys (note_instance instances p)) /\
  (forall r l, dget (note_instance instances p) r = Some l -> NoDup l).
Proof.
  intros Hn Hl. unfold note_instance. destruct (instance_path p) as [[r i]|]; [|done].
  split; [by apply NoDup_dkeys_dset|]. intros r' l. rewrite dget_dset. case_decide; subst; [|by apply Hl].
  intros [= <-]. assert (NoDup (default [] (dget instances r))) as Hd.
  { destruct (dget instances r) eqn:E; simpl; [by eapply Hl|constructor]. }
  case_bool_decide; [done|]. apply NoDup_app. split_and!; [done|set_solver|apply NoDup_singleton].
Qed.

Lemma remove_first_sublist x l : sublist (remove_first x l) l.
Proof. induction l as [|y l IH]; simpl; [constructor|]. case_decide; by constructor. Qed.

Lemma remove_first_elem x l y : NoDup l -> y ∈ remove_first x l <-> y ∈ l /\ y <> x.
Proof.
  induction 1 as [|z l Hz _ IH]; simpl; [set_solver|]. case_decide; subst.
  - rewrite elem_of_cons. split; [intros H; split; [by right|by intros ->]|intros [[->|?] ?]; done].
  - rewrite !elem_of_cons, IH. naive_solver.
Qed.

Lemma delete_instances_inv instances p :
  NoDup (dkeys instances) -> (forall r l, dget instances r = Some l -> NoDup l) ->
  NoDup (dkeys (delete_instances instances p)) /\
  (forall r l, dget (delete_instances instances p) r = Some l -> NoDup l).
Proof.
  intros Hn Hl. unfold delete_instances. destruct (instance_path p) as [[r i]|].
  - destruct (dget instances r) as [ordered|] eqn:E; [|done].
    split; [by apply NoDup_dkeys_dset|]. intros r' l. rewrite dget_dset. case_decide; subst; [|by apply Hl].
    intros [= <-]. eapply sublist_NoDup; [by eapply Hl|apply remove_first_sublist].
  - split; [by apply NoDup_dkeys_dpop|]. intros r l. rewrite dget_dpop by done.
    case_decide; [done|]. by apply Hl.
Qed.

Lemma elem_dkeys_dpop {A} (d : odict A) k k' :
  NoDup (dkeys d) -> k' ∈ dkeys (dpop d k) <-> k' ∈ dkeys d /\ k' <> k.
Proof.
  intros Hn. rewrite <- !dget_elem, dget_dpop by done. case_decide; subst.
  - split; [by intros []|naive_solver].
  - naive_solver.
Qed.

Lemma fold_step_inv f op : fold_inv f -> fold_inv (fold_step f op).
Proof.
  intros [Hd Hu Hdis Hr Hi]. unfold fold_step.
  destruct (kind_of (op_kind op)); destruct (op_path op) as [p|]; try (constructor; done).
  - destruct (note_instance_inv (fo_instances f) p Hr Hi) as [Hr' Hi'].
    unfold fold_set. destruct (op_ciphertext op); (split; [..|exact Hr'|exact Hi']);
      cbn [fo_data fo_unreadable]; auto with dict.
    + destruct (op_content_key_id op); auto with dict.
    + intros q Hq. apply elem_dkeys_dpop in Hq as [Hq Hne]; [|done].
      destruct (op_content_key_id op); [rewrite elem_dkeys_dset|]; naive_solver.
    + intros q Hq. rewrite elem_dkeys_dpop by done. apply elem_dkeys_dset in Hq. naive_solver.
  - split; cbn [fo_data fo_unreadable fo_instances fold_unset]; auto with dict.
    intros q Hq. apply elem_dkeys_dpop in Hq as [Hq Hne]; [|done]. rewrite elem_dkeys_dpop by done. naive_solver.
  - destruct (note_instance_inv (fo_instances f) p Hr Hi) as [Hr' Hi']. by split.
  - destruct (delete_instances_inv (fo_instances f) p Hr Hi) as [Hr' Hi'].
    split; cbn [fo_data fo_unreadable fo_instances fold_repeat_delete]; auto using NoDup_forget.
    intros q. rewrite !dkeys_forget. naive_solver.
Qed.

Lemma fold_ops_inv ops : fold_inv (fold_ops ops).
Proof.
  unfold fold_ops. assert (fold_inv empty_fold) as H by (split; try constructor; done || (cbn; set_solver)).
  revert H. generalize empty_fold. induction ops as [|op ops IH]; intros f Hf; simpl; [done|].
  by apply IH, fold_step_inv.
Qed.

(** ** The fold refines the specification *)

Lemma fold_step_data f op path :
  NoDup (dkeys (fo_data f)) ->
  dget (fo_data (fold_step f op)) path =
  match says_data op path with Some v => v | None => dget (fo_data f) path end.
Proof.
  intros Hn. unfold fold_step, says_data.
  destruct (kind_of (op_kind op)); destruct (op_path op) as [p|]; try done.
  - unfold fold_set. destruct (op_ciphertext op); cbn.
    + rewrite dget_dpop by done. repeat case_decide; congruence.
    + rewrite dget_dset. repeat case_decide; congruence.
  - cbn. rewrite dget_dpop by done. repeat case_decide; congruence.
  - unfold fold_repeat_delete, seen_seq. cbn [fo_data fo_unreadable]. rewrite dget_forget. by destruct (covers p path).
Qed.

Lemma fold_step_unreadable f op path :
  NoDup (dkeys (fo_unreadable f)) ->
  dget (fo_unreadable (fold_step f op)) path =
  match says_unreadable op path with Some v => v | None => dget (fo_unreadable f) path end.
Proof.
  intros Hn. unfold fold_step, says_unreadable.
  destruct (kind_of (op_kind op)); destruct (op_path op) as [p|]; try done.
  - unfold fold_set. destruct (op_ciphertext op); cbn.
    + destruct (op_content_key_id op); cbn; [|by case_decide].
      rewrite dget_dset. repeat case_decide; congruence.
    + rewrite dget_dpop by done. repeat case_decide; congruence.
  - cbn. rewrite dget_dpop by done. repeat case_decide; congruence.
  - unfold fold_repeat_delete, seen_seq. cbn [fo_data fo_unreadable]. rewrite dget_forget. by destruct (covers p path).
Qed.

Lemma fold_step_status f op :
  fo_status (fold_step f op) = match says_status op with Some st => Some st | None => fo_status f end.
Proof.
  unfold fold_step, says_status.
  destruct (kind_of (op_kind op)); destruct (op_path op) as [p|]; try done.
  unfold fold_set. by destruct (op_ciphertext op).
Qed.

Lemma fold_ops_snoc ops op : fold_ops (ops ++ [op]) = fold_step (fold_ops ops) op.
Proof. unfold fold_ops. by rewrite fold_left_app. Qed.

Lemma fold_ops_data ops path : dget (fo_data (fold_ops ops)) path = last_data ops path.
Proof.
  unfold last_data. induction ops as [|op ops IH] using rev_ind; [done|].
  rewrite fold_ops_snoc, fold_step_data by apply fold_ops_inv. rewrite reverse_snoc. cbn [latest].
  by destruct (says_data op path).
Qed.

Lemma fold_ops_unreadable ops path : dget (fo_unreadable (fold_ops ops)) path = last_unreadable ops path.
Proof.
  unfold last_unreadable. induction ops as [|op ops IH] using rev_ind; [done|].
  rewrite fold_ops_snoc, fold_step_unreadable by apply fold_ops_inv. rewrite reverse_snoc. cbn [latest].
  by destruct (says_unreadable op path).
Qed.

Lemma fold_ops_status ops : fo_status (fold_ops ops) = latest says_status (reverse ops).
Proof.
  induction ops as [|op ops IH] using rev_ind; [done|].
  rewrite fold_ops_snoc, fold_step_status, reverse_snoc. cbn [latest]. by destruct (says_status op).
Qed.

Lemma fold_step_high_water f op : fo_high_water (fold_step f op) = Z.max (fo_high_water f) (op_server_seq op).
Proof.
  unfold fold_step. destruct (kind_of (op_kind op)); destruct (op_path op) as [p|]; try done.
  unfold fold_set. by destruct (op_ciphertext op).
Qed.
