(* ===== verification/Status.v ===== *)
(** * The submission status machine: submissions/status.py,
      quality/review.py and the fold's half in sync/service.py

    [next_status] is the whole machine; a reviewer reaches it through
    [decide], a device through [fold_submission].  The two interleave in any
    order, which is the step relation [step]. *)

From S2P Require Import Prelude PyStr Value Compile Fold.

Definition STATUSES : list pystr :=
  [lit "draft"; lit "finalized"; lit "in_review"; lit "approved"; lit "rejected";
   lit "correction_required"].

Definition EVENTS : list pystr :=
  [lit "finalize"; lit "reopen"; lit "approve"; lit "reject"; lit "request_correction"; lit "comment"].

(** [_TABLE]: a missing pair is a refusal. *)
Definition TABLE : odict (odict pystr) :=
  [(lit "draft",
    [(lit "finalize", lit "finalized"); (lit "reopen", lit "draft"); (lit "comment", lit "draft")]);
   (lit "finalized",
    [(lit "finalize", lit "finalized"); (lit "reopen", lit "draft"); (lit "approve", lit "approved");
     (lit "reject", lit "rejected"); (lit "request_correction", lit "correction_required");
     (lit "comment", lit "finalized")]);
   (lit "in_review",
    [(lit "finalize", lit "finalized"); (lit "reopen", lit "draft"); (lit "approve", lit "approved");
     (lit "reject", lit "rejected"); (lit "request_correction", lit "correction_required");
     (lit "comment", lit "in_review")]);
   (lit "correction_required",
    [(lit "finalize", lit "finalized"); (lit "reopen", lit "correction_required");
     (lit "approve", lit "approved"); (lit "reject", lit "rejected");
     (lit "request_correction", lit "correction_required"); (lit "comment", lit "correction_required")]);
   (lit "approved", []);
   (lit "rejected", [])].

Definition DEVICE_EVENTS : list pystr := [lit "finalize"; lit "reopen"].

Definition CLOSED : list pystr :=
  map fst (List.filter (fun sm => bool_decide (length sm.2 = 0%nat)) TABLE).

(** [next_status]; [None] is [Refused]. *)
Definition next_status (current event : pystr) : option pystr :=
  match dget TABLE current with
  | None => None
  | Some moves =>
      if negb (bool_decide (event ∈ EVENTS)) then None
      else match moves with
           | [] => None
           | _ => dget moves event
           end
  end.

(** [event_for_folded]: the device's event, read off the fold. *)
Definition event_for_folded (folded : option pystr) : option pystr :=
  match folded with
  | None => None
  | Some st => Some (if str_eqb st "finalized" then lit "finalize" else lit "reopen")
  end.

(** ** The rows the two authors write *)

Record review := Review {
  rv_id : pystr;
  rv_submission : pystr;
  rv_reviewer : pystr;
  rv_decision : pystr;
  rv_comment : option pystr
}.

Record db := Db {
  db_status : odict pystr;        (* submission id -> status *)
  db_finalized_at : odict (option pystr);
  db_reviews : list review
}.

(** ** The reviewer: [decide] *)

Definition RETURNS_WORK : list pystr := [lit "rejected"; lit "correction_required"].

Definition DECISION_EVENT : odict pystr :=
  [(lit "approved", lit "approve"); (lit "rejected", lit "reject");
   (lit "correction_required", lit "request_correction"); (lit "comment", lit "comment")].

Inductive review_refused := unknown_decision | not_found | reason_required | not_allowed.

Record recorded := Recorded {
  rc_review_id : pystr;
  rc_status : pystr;
  rc_returns_work : bool
}.

Definition blank (comment : option pystr) : bool := bool_decide (strip (default [] comment) = []).

(** [review_id] is the fresh ULID of the new row. *)
Definition decide_review (d : db) (submission_id reviewer_id decision : pystr) (comment : option pystr)
    (review_id : pystr) : db * (recorded + review_refused) :=
  match dget DECISION_EVENT decision with
  | None => (d, inr unknown_decision)
  | Some event =>
      match dget (db_status d) submission_id with
      | None => (d, inr not_found)
      | Some current =>
          if bool_decide (decision ∈ RETURNS_WORK) && blank comment then (d, inr reason_required)
          else match next_status current event with
               | None => (d, inr not_allowed)
               | Some moved =>
                   (Db (if str_eqb moved current then db_status d else dset (db_status d) submission_id moved)
                       (db_finalized_at d)
                       (db_reviews d ++ [Review review_id submission_id reviewer_id decision comment]),
                    inl (Recorded review_id moved (bool_decide (decision ∈ RETURNS_WORK))))
               end
      end
  end.

(** ** The device: the status half of [_fold_submission] *)

Definition fold_submission (d : db) (submission_id : pystr) (ops : list fold_op) : db :=
  let folded := fold_ops ops in
  match event_for_folded (fo_status folded), dget (db_status d) submission_id with
  | Some event, Some current =>
      match next_status current event with
      | None => d
      | Some moved =>
          Db (dset (db_status d) submission_id moved)
             (dset (db_finalized_at d) submission_id (fo_finalized_at folded)) (db_reviews d)
      end
  | _, _ => d
  end.

(** ** Any interleaving of the two *)

Inductive step : db -> db -> Prop :=
| step_review d i rv dec c rid : step d (decide_review d i rv dec c rid).1
| step_device d i ops : step d (fold_submission d i ops).

Inductive steps : db -> db -> Prop :=
| steps_refl d : steps d d
| steps_trans d1 d2 d3 : steps d1 d2 -> step d2 d3 -> steps d1 d3.

(** ** Properties *)

(** The machine is finite: a fact about every pair is decided by running it. *)
Definition for_all_moves (p : pystr -> pystr -> pystr -> bool) : bool :=
  forallb (fun c => forallb (fun e => match next_status c e with Some n => p c e n | None => true end) EVENTS)
    (dkeys TABLE).

Lemma for_all_moves_spec p :
  for_all_moves p = true -> forall c e n, next_status c e = Some n -> p c e n = true.
Proof.
  unfold for_all_moves. intros H c e n Hn. rewrite forallb_forall in H.
  assert (c ∈ dkeys TABLE) as Hc.
  { apply dget_elem. unfold next_status in Hn. destruct (dget TABLE c); [by eauto|done]. }
  specialize (H c (proj1 (list_elem_of_In _ _) Hc)). rewrite forallb_forall in H.
  assert (e ∈ EVENTS) as He.
  { unfold next_status in Hn. destruct (dget TABLE c); [|done]. by case_bool_decide. }
  specialize (H e (proj1 (list_elem_of_In _ _) He)). by rewrite Hn in H.
Qed.

Lemma next_status_known c e n : next_status c e = Some n -> n ∈ STATUSES.
Proof.
  intros Hn. apply (for_all_moves_spec (fun _ _ n => bool_decide (n ∈ STATUSES))) in Hn; [|by vm_compute].
  by apply bool_decide_eq_true in Hn.
Qed.

(** What a state may become in one move, whoever asks. *)
Definition may_become (current next : pystr) : Prop :=
  next = current \/ exists e, next_status current e = Some next.

Lemma step_status d d' i current :
  step d d' -> dget (db_status d) i = Some current ->
  exists next, dget (db_status d') i = Some next /\ may_become current next.
Proof.
  intros Hstep Hc. unfold may_become. inversion Hstep as [? j rv dec c rid|? j ops]; subst; clear Hstep.
  - unfold decide_review. destruct (dget DECISION_EVENT dec) as [event|]; [|by eauto].
    destruct (dget (db_status d) j) as [cur|] eqn:Ej; [|by eauto].
    destruct (bool_decide (dec ∈ RETURNS_WORK) && blank c); [by eauto|].
    destruct (next_status cur event) as [moved|] eqn:En; [|by eauto]. cbn.
    destruct (str_eqb moved cur); [by eauto|]. rewrite dget_dset. case_decide; simplify_eq; eauto.
  - unfold fold_submission. destruct (event_for_folded _) as [event|]; [|by eauto].
    destruct (dget (db_status d) j) as [cur|] eqn:Ej; [|by eauto].
    destruct (next_status cur event) as [moved|] eqn:En; [|by eauto]. cbn.
    rewrite dget_dset. case_decide; simplify_eq; eauto.
Qed.

(** A property closed under moves holds along every interleaving. *)
Lemma steps_status (P : pystr -> Prop) d d' i current :
  (forall c n, P c -> may_become c n -> P n) ->
  steps d d' -> dget (db_status d) i = Some current -> P current ->
  exists next, dget (db_status d') i = Some next /\ P next.
Proof.
  intros Hclosed. induction 1 as [d|d1 d2 d3 _ IH Hstep]; intros Hc HP; [by eauto|].
  destruct (IH Hc HP) as (mid & Hmid & HPmid).
  destruct (step_status _ _ _ _ Hstep Hmid) as (next & Hnext & Hmay). eauto.
Qed.

Lemma closed_absorbs c n : c ∈ CLOSED -> may_become c n -> n = c.
Proof.
  intros Hc [->|(e & He)]; [done|]. exfalso.
  apply (for_all_moves_spec (fun c _ _ => negb (bool_decide (c ∈ CLOSED)))) in He; [|by vm_compute].
  rewrite bool_decide_eq_true_2 in He by done. done.
Qed.

(** Every review row that hands work back carries a reason. *)
Definition returned_with_reason (d : db) : Prop :=
  Forall (fun r => rv_decision r ∈ RETURNS_WORK -> blank (rv_comment r) = false) (db_reviews d).

Lemma step_reason d d' : step d d' -> returned_with_reason d -> returned_with_reason d'.
Proof.
  intros Hstep H. inversion Hstep as [? j rv dec c rid|? j ops]; subst; clear Hstep.
  - unfold decide_review. destruct (dget DECISION_EVENT dec) as [event|]; [|done].
    destruct (dget (db_status d) j) as [cur|] eqn:Ej; [|done].
    destruct (bool_decide (dec ∈ RETURNS_WORK) && blank c) eqn:Eb; [done|].
    destruct (next_status cur event) as [moved|] eqn:En; [|done].
    unfold returned_with_reason. cbn. apply Forall_app. split; [done|]. apply Forall_singleton. cbn.
    intros Hd. rewrite bool_decide_eq_true_2 in Eb by done. done.
  - unfold fold_submission. repeat (case_match; try done).
Qed.

Lemma steps_reason d d' : steps d d' -> returned_with_reason d -> returned_with_reason d'.
Proof. induction 1; eauto using step_reason. Qed.
