(* ===== verification/CaseKey.v ===== *)
(** * Composite record keys: entities/case_key.py (Form IR 3.1)

    Parts escaped with a backslash and joined with a pipe; [split] reads a
    key back. *)

From S2P Require Import Prelude PyStr PyNum Value.

Definition SEPARATOR : N := 124.
Definition ESCAPE : N := 92.

(** [part.replace(ESCAPE, ESCAPE + ESCAPE).replace(SEPARATOR, ESCAPE + SEPARATOR)] *)
Definition escape (part : pystr) : pystr :=
  replace_char SEPARATOR [ESCAPE; SEPARATOR] (replace_char ESCAPE [ESCAPE; ESCAPE] part).

Definition compose (parts : list pystr) : pystr := join [SEPARATOR] (map escape parts).

(** The loop of [split]: [current] is the part being read, [parts] those
    finished.  An escape takes the next character literally. *)
Fixpoint split_loop (parts : list pystr) (current key : pystr) : list pystr :=
  match key with
  | [] => parts ++ [current]
  | ch :: rest =>
      if decide (ch = ESCAPE) then
        match rest with
        | next :: rest' => split_loop parts (current ++ [next]) rest'
        | [] => split_loop parts (current ++ [ch]) rest
        end
      else if decide (ch = SEPARATOR) then split_loop (parts ++ [current]) [] rest
      else split_loop parts (current ++ [ch]) rest
  end.

Definition split (key : pystr) : list pystr := split_loop [] [] key.

(** [str(raw)] of a cell: text, or a JSON scalar. *)
Definition cell_str (v : value) : pystr :=
  match v with
  | VNone => []
  | VStr s => s
  | VInt z => str_Z z
  | VBool b => if b then lit "True" else lit "False"
  | VFloat f => float_repr f
  | VList _ | VDict _ => []
  end.

(** [key_of]: [inr column] is [CaseKeyRefused(column)]. *)
Fixpoint key_parts (row : odict value) (key_columns : list pystr) : list pystr + pystr :=
  match key_columns with
  | [] => inl []
  | c :: r =>
      let part := cell_str (vget row c) in
      if bool_decide (strip part = []) then inr c
      else match key_parts row r with inl ps => inl (part :: ps) | inr c' => inr c' end
  end.

Definition key_of (row : odict value) (key_columns : list pystr) : pystr + pystr :=
  match key_parts row key_columns with inl ps => inl (compose ps) | inr c => inr c end.

(** ** Properties *)

(** The escape of a character. *)
Definition escape_char (c : N) : pystr :=
  if decide (c = ESCAPE) then [ESCAPE; ESCAPE]
  else if decide (c = SEPARATOR) then [ESCAPE; SEPARATOR] else [c].

Lemma replace_char_app c w s t : replace_char c w (s ++ t) = replace_char c w s ++ replace_char c w t.
Proof. unfold replace_char. by rewrite map_app, concat_app. Qed.

Lemma escape_cons c s : escape (c :: s) = escape_char c ++ escape s.
Proof.
  unfold escape. change (c :: s) with ([c] ++ s). rewrite replace_char_app, replace_char_app. f_equal.
  unfold escape_char, replace_char at 2. cbn [map concat].
  case_decide; subst; [done|]. unfold replace_char. cbn [map concat app].
  case_decide; by subst.
Qed.

Lemma split_escape p parts current rest :
  split_loop parts current (escape p ++ rest) = split_loop parts (current ++ p) rest.
Proof.
  revert current. induction p as [|c p IH]; intros current; [by rewrite app_nil_r|].
  rewrite escape_cons, <- app_assoc. unfold escape_char.
  case_decide as H1; [|case_decide as H2]; subst.
  - cbn [app split_loop]. rewrite decide_True by done. rewrite IH. by rewrite <- app_assoc.
  - cbn [app split_loop]. rewrite decide_True by done. rewrite IH. by rewrite <- app_assoc.
  - cbn [app split_loop]. rewrite !decide_False by done. rewrite IH. by rewrite <- app_assoc.
Qed.

Lemma split_join p ps parts :
  split_loop parts [] (join [SEPARATOR] (map escape (p :: ps))) = parts ++ p :: ps.
Proof.
  revert p parts. induction ps as [|q ps IH]; intros p parts.
  - cbn [map join]. rewrite <- (app_nil_r (escape p)), split_escape. done.
  - change (join [SEPARATOR] (map escape (p :: q :: ps)))
      with (escape p ++ [SEPARATOR] ++ join [SEPARATOR] (map escape (q :: ps))).
    rewrite split_escape. cbn [app split_loop]. rewrite decide_False by done. rewrite decide_True by done.
    rewrite IH. by rewrite <- app_assoc.
Qed.

Lemma split_compose p ps : split (compose (p :: ps)) = p :: ps.
Proof. apply (split_join p ps []). Qed.

Lemma compose_inj ps qs : ps <> [] -> qs <> [] -> compose ps = compose qs -> ps = qs.
Proof.
  intros Hp Hq H. destruct ps as [|p ps], qs as [|q qs]; try done.
  by rewrite <- (split_compose p ps), H, split_compose.
Qed.

Lemma key_parts_spec row cols :
  match key_parts row cols with
  | inl ps => ps = map (fun c => cell_str (vget row c)) cols /\ Forall (fun p => strip p <> []) ps
  | inr c => exists l1 l2, cols = l1 ++ c :: l2 /\ strip (cell_str (vget row c)) = [] /\
               Forall (fun c => strip (cell_str (vget row c)) <> []) l1
  end.
Proof.
  induction cols as [|c cols IH]; cbn [key_parts]; [by split|].
  case_bool_decide as Hb; [by exists [], cols|].
  destruct (key_parts row cols) as [ps|c'].
  - destruct IH as [-> H]. split; [done|]. by constructor.
  - destruct IH as (l1 & l2 & -> & H1 & H2). exists (c :: l1), l2. split_and!; [done..|]. by constructor.
Qed.
