(* ===== verification/DatasetKeys.v ===== *)
(** * Dataset rows and their keys: entities/rows.py (Form IR 3.1)

    Whether rows can be published under a key column, and the content
    address of a version.  The hash function and the canonical serialisation
    (crypto/envelope.py) are parameters, as is Unicode case folding. *)

From S2P Require Import Prelude PyStr PyNum Value Expression Datasets CaseKey.

(** [sorted] on strings. *)
Fixpoint insert_str (x : pystr) (l : list pystr) : list pystr :=
  match l with
  | [] => [x]
  | y :: r => match str_cmp x y with Gt => y :: insert_str x r | _ => x :: l end
  end.

Definition sort_str (l : list pystr) : list pystr := foldr insert_str [] l.

Record key_report := KeyReport {
  kr_missing : nat;
  kr_repeated : list pystr;
  kr_confusable : list (list pystr)
}.

(** [KeyReport.refused]: one problem per nonempty refusal. *)
Definition refused (r : key_report) : bool :=
  negb (kr_missing r =? 0)%nat || negb (bool_decide (length (kr_repeated r) = 0%nat)).

(** The counting loop: rows with no identity, and how often each key occurs. *)
Definition count_key (acc : nat * odict Z) (key : pystr) : nat * odict Z :=
  let '(missing, counts) := acc in
  if bool_decide (strip key = []) then (S missing, counts)
  else (missing, dset counts key (default 0 (dget counts key) + 1)).

Definition row_keys (rows : list (odict value)) (key_column : pystr) : list pystr :=
  map (fun row => cell_str (vget row key_column)) rows.

Section Keys.
Context (casefold : pystr -> pystr).

Definition fold_group (folded : odict (list pystr)) (key : pystr) : odict (list pystr) :=
  let k := casefold (strip key) in
  dset folded k (default [] (dget folded k) ++ [key]).

Definition check_keys (rows : list (odict value)) (key_column : pystr) : key_report :=
  let '(missing, counts) := fold_left count_key (row_keys rows key_column) (0%nat, []) in
  let repeated := sort_str (map fst (List.filter (fun kn => 1 <? kn.2) counts)) in
  let folded := fold_left fold_group (dkeys counts) [] in
  KeyReport missing repeated
    (map sort_str (List.filter (fun g => (1 <? length g)%nat) (dvalues folded))).

End Keys.

(** ** The content address *)

(** Lexicographic order on (key, row hash) pairs. *)
Definition pair_cmp (a b : pystr * pystr) : comparison :=
  match str_cmp a.1 b.1 with Eq => str_cmp a.2 b.2 | c => c end.

Fixpoint insert_pair (x : pystr * pystr) (l : list (pystr * pystr)) : list (pystr * pystr) :=
  match l with
  | [] => [x]
  | y :: r => match pair_cmp x y with Gt => y :: insert_pair x r | _ => x :: l end
  end.

Definition sort_pairs (l : list (pystr * pystr)) : list (pystr * pystr) := foldr insert_pair [] l.

Section Address.
Context (sha256_hex : list N -> pystr) (utf8 : pystr -> list N) (canonical_json : odict value -> list N).

Definition row_hash (data : odict value) : pystr := lit "sha256:" ++ sha256_hex (canonical_json data).

(** What the digest is fed. *)
Definition version_bytes (rows : list (pystr * pystr)) : list N :=
  concat (map (fun kh => utf8 kh.1 ++ [0%N] ++ utf8 kh.2 ++ [0%N]) (sort_pairs rows)).

Definition version_checksum (rows : list (pystr * pystr)) : pystr :=
  lit "sha256:" ++ sha256_hex (version_bytes rows).

Definition content_address (rows : list (odict value)) (key_column : pystr) : pystr :=
  version_checksum (map (fun row => (cell_str (vget row key_column), row_hash row)) rows).

End Address.

(** ** Properties *)

Lemma str_cmp_eq s t : str_cmp s t = Eq <-> s = t.
Proof.
  revert t. induction s as [|a s IH]; intros [|b t]; simpl; try done.
  destruct (N.compare_spec a b); subst; try (split; [done|intros; simplify_eq; lia]).
  rewrite IH. naive_solver.
Qed.

Lemma str_cmp_antisym s t : str_cmp s t = CompOpp (str_cmp t s).
Proof.
  revert t. induction s as [|a s IH]; intros [|b t]; simpl; try done.
  rewrite (N.compare_antisym a b). destruct (N.compare a b); simpl; [apply IH|done|done].
Qed.

Lemma str_cmp_trans s t u c : c <> Eq -> str_cmp s t = c -> str_cmp t u = c -> str_cmp s u = c.
Proof.
  intros Hc. revert t u. induction s as [|a s IH]; intros [|b t] [|d u]; simpl; intros H1 H2; try congruence.
  destruct (N.compare_spec a b), (N.compare_spec b d); subst; try congruence; simpl.
  - destruct (N.compare_spec d d); try lia. by eapply IH.
  - destruct (N.compare_spec b d); try lia; done.
  - destruct (N.compare_spec b d); try lia; done.
  - destruct (N.compare_spec a d); try lia; done.
  - destruct (N.compare_spec a d); try lia; done.
  - destruct (N.compare_spec a d); try lia; done.
  - destruct (N.compare_spec a d); try lia; done.
Qed.

Lemma pair_cmp_eq a b : pair_cmp a b = Eq <-> a = b.
Proof.
  destruct a as [a1 a2], b as [b1 b2]. unfold pair_cmp; cbn [fst snd].
  pose proof (str_cmp_eq a1 b1). pose proof (str_cmp_eq a2 b2). destruct (str_cmp a1 b1); naive_solver.
Qed.

Lemma pair_cmp_antisym a b : pair_cmp a b = CompOpp (pair_cmp b a).
Proof.
  unfold pair_cmp. rewrite (str_cmp_antisym a.1 b.1). destruct (str_cmp b.1 a.1); simpl; try done.
  apply str_cmp_antisym.
Qed.

Lemma pair_cmp_trans a b c r : r <> Eq -> pair_cmp a b = r -> pair_cmp b c = r -> pair_cmp a c = r.
Proof.
  unfold pair_cmp. intros Hr Hab Hbc.
  destruct (str_cmp a.1 b.1) eqn:E1.
  - apply str_cmp_eq in E1. rewrite E1. destruct (str_cmp b.1 c.1); [by eapply str_cmp_trans|done|done].
  - destruct (str_cmp b.1 c.1) eqn:E2; subst; [|by rewrite (str_cmp_trans _ _ _ Lt Hr E1 E2)|done].
    apply str_cmp_eq in E2. by rewrite <- E2, E1.
  - destruct (str_cmp b.1 c.1) eqn:E2; subst; [|done|by rewrite (str_cmp_trans _ _ _ Gt Hr E1 E2)].
    apply str_cmp_eq in E2. by rewrite <- E2, E1.
Qed.

(** Inserting two pairs in either order gives the same list. *)
Lemma insert_pair_comm x y l : insert_pair x (insert_pair y l) = insert_pair y (insert_pair x l).
Proof.
  assert (forall a b, pair_cmp a b = Gt -> pair_cmp b a = Lt) as Hgl.
  { intros a b H. by rewrite pair_cmp_antisym, H. }
  assert (forall a b, pair_cmp a b = Lt -> pair_cmp b a = Gt) as Hlg.
  { intros a b H. by rewrite pair_cmp_antisym, H. }
  assert (forall a, pair_cmp a a = Eq) as Hrefl by (intros; by apply pair_cmp_eq).
  induction l as [|z l IH]; cbn [insert_pair].
  - destruct (pair_cmp x y) eqn:E.
    + apply pair_cmp_eq in E as ->. by rewrite Hrefl.
    + by rewrite (Hlg _ _ E).
    + by rewrite (Hgl _ _ E).
  - destruct (pair_cmp x y) eqn:Exy.
    { apply pair_cmp_eq in Exy as ->. done. }
    all: destruct (pair_cmp y z) eqn:Eyz, (pair_cmp x z) eqn:Exz; cbn [insert_pair];
      rewrite ?Eyz, ?Exz, ?Exy, ?(Hlg _ _ Exy), ?(Hgl _ _ Exy), ?Eyz, ?Exz; try done; try by rewrite IH.
    all: exfalso.
    all: repeat match goal with H : pair_cmp _ _ = Eq |- _ => apply pair_cmp_eq in H; subst end; try congruence.
    all: try (rewrite (Hlg _ _ Exy) in *; congruence); try (rewrite (Hgl _ _ Exy) in *; congruence).
    all: try (pose proof (pair_cmp_trans _ _ _ Lt ltac:(done) Exy Eyz); congruence).
    all: try (pose proof (pair_cmp_trans _ _ _ Gt ltac:(done) Exy Eyz); congruence).
Qed.

Lemma sort_pairs_perm l l' : l ≡ₚ l' -> sort_pairs l = sort_pairs l'.
Proof.
  unfold sort_pairs. induction 1 as [|x l l' _ IH|x y l|l l' l'' _ IH1 _ IH2]; cbn [foldr].
  - done.
  - by rewrite IH.
  - apply insert_pair_comm.
  - congruence.
Qed.

Lemma insert_str_perm x l : insert_str x l ≡ₚ x :: l.
Proof.
  induction l as [|y l IH]; simpl; [done|]. destruct (str_cmp x y); [done|done|].
  rewrite IH. apply Permutation_swap.
Qed.

Lemma sort_str_perm l : sort_str l ≡ₚ l.
Proof. induction l as [|x l IH]; simpl; [done|]. by rewrite insert_str_perm, IH. Qed.

(** How often a key occurs among the rows that have one. *)
Definition occurrences (k : pystr) (ks : list pystr) : Z :=
  Z.of_nat (length (List.filter (fun x => str_eqb k x && negb (bool_decide (strip x = []))) ks)).

Definition blanks (ks : list pystr) : nat :=
  length (List.filter (fun x => bool_decide (strip x = [])) ks).

Lemma count_keys_spec ks m d :
  NoDup (dkeys d) ->
  let '(missing, counts) := fold_left count_key ks (m, d) in
  missing = (m + blanks ks)%nat /\ NoDup (dkeys counts) /\
  (forall k, default 0 (dget counts k) = default 0 (dget d k) + occurrences k ks) /\
  (forall k, k ∈ dkeys counts <-> k ∈ dkeys d \/ (k ∈ ks /\ strip k <> [])).
Proof.
  revert m d. induction ks as [|x ks IH]; intros m d Hn.
  - simpl. split_and!; [unfold blanks; simpl; lia|done|intros; unfold occurrences; simpl; lia|set_solver].
  - cbn [fold_left]. unfold count_key at 2. unfold blanks, occurrences. cbn [List.filter].
    case_bool_decide as Hb.
    + specialize (IH (S m) d Hn). destruct (fold_left count_key ks (S m, d)) as [missing counts].
      destruct IH as (H1 & H2 & H3 & H4). split_and!; [|done| |].
      * rewrite H1. unfold blanks. simpl. lia.
      * intros k. rewrite H3. unfold occurrences. cbn [negb]. by rewrite andb_false_r.
      * intros k. rewrite H4. setoid_rewrite elem_of_cons. naive_solver.
    + specialize (IH m (dset d x (default 0 (dget d x) + 1)) (NoDup_dkeys_dset _ _ _ Hn)).
      destruct (fold_left count_key ks _) as [missing counts]. destruct IH as (H1 & H2 & H3 & H4).
      split_and!; [|done| |].
      * rewrite H1. unfold blanks. done.
      * intros k. rewrite H3, dget_dset. unfold occurrences. cbn [negb]. rewrite andb_true_r.
        unfold str_eqb at 2. case_decide as Hk; subst.
        -- rewrite bool_decide_eq_true_2 by done. cbn [default length from_option id]. lia.
        -- rewrite bool_decide_eq_false_2 by done. done.
      * intros k. rewrite H4, elem_dkeys_dset. setoid_rewrite elem_of_cons. naive_solver.
Qed.

Lemma occurrences_nodup ks :
  Forall (fun x => strip x <> []) ks -> (NoDup ks <-> forall k, occurrences k ks <= 1).
Proof.
  intros Hall. unfold occurrences. rewrite Forall_forall in Hall.
  assert (forall k l, (forall x, x ∈ l -> strip x <> []) ->
    List.filter (fun x => str_eqb k x && negb (bool_decide (strip x = []))) l = List.filter (str_eqb k) l) as Hf.
  { intros k l Hl. apply filter_ext_in. intros x Hx%list_elem_of_In.
    rewrite bool_decide_eq_false_2 by (by apply Hl). by rewrite andb_true_r. }
  transitivity (forall k, Z.of_nat (length (List.filter (str_eqb k) ks)) <= 1).
  2:{ split; intros H k; specialize (H k); rewrite Hf in *; done. }
  clear Hf Hall. induction ks as [|x ks IH].
  - split; [simpl; lia|constructor].
  - rewrite NoDup_cons, IH. split.
    + intros [Hx H] k. specialize (H k). cbn [List.filter]. destruct (str_eqb k x) eqn:E; [|done].
      apply str_eqb_eq in E as ->. assert (List.filter (str_eqb x) ks = []) as ->; [|simpl; lia].
      destruct (List.filter (str_eqb x) ks) as [|y l] eqn:Ef; [done|]. exfalso.
      assert (In y (List.filter (str_eqb x) ks)) as Hy by (rewrite Ef; by left).
      apply filter_In in Hy as [Hy ->%str_eqb_eq]. by apply Hx, list_elem_of_In.
    + intros H. split.
      * intros Hx%list_elem_of_In. specialize (H x). cbn [List.filter] in H. rewrite str_eqb_refl in H.
        assert (In x (List.filter (str_eqb x) ks)) as Hy by (apply filter_In; split; [done|apply str_eqb_refl]).
        destruct (List.filter (str_eqb x) ks); [done|]. cbn [length] in H. lia.
      * intros k. specialize (H k). cbn [List.filter] in H. destruct (str_eqb k x); cbn [length] in H; lia.
Qed.

(** Accepted keys are nonblank and distinct, and nothing else is asked. *)
Lemma check_keys_accepts casefold rows key_column :
  refused (check_keys casefold rows key_column) = false <->
  Forall (fun k => strip k <> []) (row_keys rows key_column) /\ NoDup (row_keys rows key_column).
Proof.
  unfold check_keys. set (ks := row_keys rows key_column).
  pose proof (count_keys_spec ks 0%nat [] (NoDup_nil_2)) as Hspec.
  destruct (fold_left count_key ks (0%nat, [])) as [missing counts]. destruct Hspec as (Hm & Hn & Hocc & Hkeys).
  unfold refused. cbn [kr_missing kr_repeated].
  rewrite orb_false_iff, !negb_false_iff, Nat.eqb_eq, bool_decide_eq_true.
  assert (missing = 0%nat <-> Forall (fun k => strip k <> []) ks) as ->.
  { rewrite Hm. unfold blanks. clear. induction ks as [|x ks IH]; simpl; [split; [constructor|done]|].
    rewrite Forall_cons. case_bool_decide; simpl; [naive_solver|]. rewrite <- IH. simpl. naive_solver. }
  rewrite (Permutation_length (sort_str_perm _)).
  assert (forall k, default 0 (dget counts k) = occurrences k ks) as Hocc' by (intros; rewrite Hocc; simpl; lia).
  apply and_iff_compat_l_iff. intros Hall. rewrite occurrences_nodup by done. split.
  - intros Hl k. destruct (dget counts k) as [n|] eqn:Ek.
    + specialize (Hocc' k). rewrite Ek in Hocc'. cbn in Hocc'. rewrite <- Hocc'.
      destruct (Z.ltb_spec 1 n) as [Hlt|]; [|lia]. exfalso. apply dget_Some_elem in Ek.
      assert (In k (map fst (List.filter (fun kn : pystr * Z => 1 <? kn.2) counts))) as Hin.
      { apply in_map_iff. exists (k, n). split; [done|]. apply filter_In.
        split; [by apply list_elem_of_In|]. by apply Z.ltb_lt. }
      by destruct (map fst _).
    + rewrite <- Hocc', Ek. simpl. lia.
  - intros Hle. destruct (List.filter (fun kn : pystr * Z => 1 <? kn.2) counts) as [|[k n] l] eqn:Ef; [done|].
    exfalso. assert (In (k, n) (List.filter (fun kn : pystr * Z => 1 <? kn.2) counts)) as Hin by (rewrite Ef; by left).
    apply filter_In in Hin as [Hin Hlt]. simpl in Hlt. apply Z.ltb_lt in Hlt.
    apply list_elem_of_In in Hin. specialize (Hle k). rewrite <- Hocc' in Hle.
    rewrite (dget_elem_NoDup counts k n) in Hle by done. simpl in Hle. lia.
Qed.
