(* ===== verification/PublishGate.v ===== *)
(** * What blocks publication: forms/service.py [check_publishable]

    The compiler followed by every check a form must pass to be published:
    forbidden patterns, sensitivity propagation (crypto/envelope.py),
    reachability, answerability and collectability.  The registry of types a
    client can present is a file of specs/, read by xlsform/datatypes.py; here
    it is the record [registry].  The wording of a violation is not modelled:
    it is a constructor with what the message interpolates. *)

From S2P Require Import Prelude PyStr Value Expr Expression Datasets Document Topo Compile Screens.
From S2P Require Import Reachability DatasetKeys.

(** ** The registry of collectable types *)

Record registry := Registry {
  rg_collectable : list pystr;          (* [collectable] *)
  rg_choice_sources : list pystr;       (* [choiceSources] *)
  rg_data_types : list pystr            (* the data types of Form IR 2.1 *)
}.

Inductive classification := Collectable | InSpecOnly | Unknown.

#[global] Instance classification_eq_dec : EqDecision classification.
Proof. solve_decision. Defined.

Definition classify (rg : registry) (data_type : pystr) : classification :=
  if bool_decide (data_type ∈ rg_collectable rg) then Collectable
  else if bool_decide (data_type ∈ rg_data_types rg) then InSpecOnly else Unknown.

Definition classify_choice_source (rg : registry) (kind : pystr) : classification :=
  if bool_decide (kind ∈ rg_choice_sources rg) then Collectable else InSpecOnly.

(** ** Violations *)

Inductive blocker :=
| NoQuestions
| ForbiddenPattern (field pattern feature : pystr)
| SensitiveField (field base : pystr)
| SensitiveRepeat (repeat key base : pystr)
| Unaskable (v : violation)
| Unanswerable (question data_type : pystr)
| UncollectableType (question data_type : pystr)
| UncollectableChoices (question kind : pystr)
| PinnedTwice (key first second : pystr)
| Unpinned (keys : list pystr)
| PinsNothing (keys : list pystr)
| PinUnknown (key dataset_version : pystr)
| PinOtherProject (key : pystr)
| PinOtherDataset (key dataset_key : pystr)
| ImportError (message : pystr) (place : option (pystr * Z * option pystr))
| DifferentContent (stored offered : pystr)
| PinsMoved (keys : list pystr).

(** [PublishRefused], or an exception of the compiler or of Python. *)
Inductive refusal := Refused (violations : list blocker) | Raised (e : exn).

Section Gate.
Context {env : PyEnv}.

(** ** Forbidden patterns *)

(** The pattern of a call of [regex], when it is a literal string. *)
Definition literal_pattern (e : value) : option pystr :=
  if has_op e "call" && match vfield e "fn" with VStr f => str_eqb f "regex" | _ => false end then
    match raw_args e !! 1%nat with
    | Some p =>
        if has_op p "lit" then match vfield p "value" with VStr s => Some s | _ => None end else None
    | None => None
    end
  else None.

Definition forbidden_here (e : value) : list (pystr * pystr) :=
  match literal_pattern e with
  | Some p => match forbidden_regex_feature p with Some f => [(p, f)] | None => [] end
  | None => []
  end.

(** [walk]: the node, then its arguments. *)
Fixpoint forbidden_in (e : value) : list (pystr * pystr) :=
  match e with
  | VDict d =>
      forbidden_here e ++
      (fix look (d : list (pystr * value)) : list (pystr * pystr) :=
         match d with
         | [] => []
         | (k, x) :: r =>
             if decide (k = lit "args")
             then match x with VList l => concat (map forbidden_in l) | _ => [] end
             else look r
         end) d
  | _ => []
  end.

Definition PATTERN_KEYS : list pystr :=
  [lit "relevant"; lit "constraint"; lit "calculate"; lit "required"; lit "readOnly"; lit "default"].

Definition forbidden_patterns (f : cform) : list blocker :=
  concat (map (fun kf => concat (map (fun key =>
      map (fun pf => ForbiddenPattern kf.1 pf.1 pf.2) (forbidden_in (vget (cf_node kf.2) key)))
    PATTERN_KEYS)) (f_fields f)).

(** ** Sensitivity propagation (envelope 5.2) *)

(** [dep.rsplit("].", 1)[-1]] *)
Definition referenced_field (dep : pystr) : pystr :=
  match cut (reverse (lit "].")) (reverse dep) with Some (a, _) => reverse a | None => dep end.

(** [field.node.get("sensitive") is True] *)
Definition is_sensitive (c : cfield) : bool :=
  match vget (cf_node c) "sensitive" with VBool b => b | _ => false end.

(** [sorted({referenced_field(dep) for dep in deps})] *)
Definition bases (deps : gset pystr) : list pystr :=
  sort_str (elements (set_map referenced_field deps : gset pystr)).

(** The bases that are sensitive fields of the form. *)
Definition sensitive_bases (f : cform) (deps : gset pystr) : list pystr :=
  List.filter (fun base => match dget (f_fields f) base with Some c => is_sensitive c | None => false end)
    (bases deps).

Definition field_leaks (f : cform) (field_id : pystr) : list blocker :=
  match dget (f_fields f) field_id with
  | Some c => if is_sensitive c then [] else map (SensitiveField field_id) (sensitive_bases f (cf_depends_on c))
  | None => []
  end.

Definition repeat_leaks (f : cform) (repeat_id : pystr) : list blocker :=
  match dget (f_container_expr_deps f) repeat_id with
  | None => []
  | Some per_key =>
      concat (map (fun key =>
        match dget per_key key with
        | None => []
        | Some deps => map (SensitiveRepeat repeat_id key) (sensitive_bases f deps)
        end) [lit "countExpr"; lit "summaryLabelArgs"])
  end.

Definition check_sensitivity_propagation (f : cform) : list blocker :=
  concat (map (field_leaks f) (f_order f)) ++ concat (map (repeat_leaks f) (dkeys (f_repeats f))).

(** ** Collectability: forms/collectability.py *)

Definition check_collectability (rg : registry) (nodes : list node) : list blocker :=
  concat (map (fun a =>
    if negb (is_null (vget a "calculate")) then []
    else
      (match vget a "dataType" with
       | VStr t => if bool_decide (classify rg t = InSpecOnly)
                   then [UncollectableType (atext a "id") t] else []
       | _ => []
       end) ++
      (match vfield (vget a "choices") "kind" with
       | VStr k => if bool_decide (classify_choice_source rg k <> Collectable)
                   then [UncollectableChoices (atext a "id") k] else []
       | _ => []
       end)) (concat (map questions_in nodes))).

(** ** The gate *)

Definition form_id (f : cform) : pystr := atext (f_ir f) "formId".
Definition form_version_number (f : cform) : Z :=
  match vget (f_ir f) "version" with VInt z => z | _ => 0 end.

Definition check_publishable (rg : registry) (ir : value) : cform + refusal :=
  match compile ir with
  | Raise e => inr (Raised e)
  | Ok compiled =>
      match f_fields compiled with
      | [] => inr (Refused [NoQuestions])
      | _ =>
          let nodes := children (node_of ir) in
          match check_reachability nodes with
          | Raise e => inr (Raised e)
          | Ok reach =>
              let violations :=
                forbidden_patterns compiled ++ check_sensitivity_propagation compiled ++
                map Unaskable reach ++ map (fun q => Unanswerable q.1 q.2) (check_answerability nodes) ++
                check_collectability rg nodes in
              match violations with [] => inl compiled | _ => inr (Refused violations) end
          end
      end
  end.

(** Every [choices.dataset] key the form names, in field order. *)
Definition dataset_key_of (c : cfield) : option pystr :=
  let choices := vget (cf_node c) "choices" in
  match vfield choices "kind" with
  | VStr k => if str_eqb k "dataset"
              then match vfield choices "dataset" with VStr key => Some key | _ => None end else None
  | _ => None
  end.

Definition dataset_keys (f : cform) : list pystr :=
  fold_left (fun found field_id =>
    match dget (f_fields f) field_id with
    | Some c => match dataset_key_of c with
                | Some key => if bool_decide (key ∈ found) then found else found ++ [key]
                | None => found
                end
    | None => found
    end) (f_order f) [].

End Gate.
