(* ===== verification/PyJson.v ===== *)
(** * Python bytes, and the serialisation contents are addressed with

    [bytes.fromhex] and [bytes.hex], a [bytes] being the list of its byte
    values; [json.dumps(v, sort_keys=True, separators=(",", ":"),
    ensure_ascii=False)], the one serialisation the repository addresses
    content with (forms/service.py [ir_checksum], crypto/envelope.py
    [canonical_json]). *)

From S2P Require Import Prelude PyStr PyNum Value Expr Expression Datasets.

Definition hex_val (c : N) : option N :=
  if bool_decide (48 <= c <= 57)%N then Some (c - 48)%N
  else if bool_decide (97 <= c <= 102)%N then Some (c - 87)%N
  else if bool_decide (65 <= c <= 70)%N then Some (c - 55)%N
  else None.

(** ASCII whitespace, which [fromhex] allows between bytes. *)
Definition hex_space (c : N) : bool := bool_decide (c = 32 \/ 9 <= c <= 13)%N.

Fixpoint fromhex (s : pystr) : option (list N) :=
  match s with
  | [] => Some []
  | c :: r =>
      if hex_space c then fromhex r
      else match r with
           | [] => None
           | c' :: r' =>
               match hex_val c, hex_val c', fromhex r' with
               | Some a, Some b, Some l => Some ((16 * a + b)%N :: l)
               | _, _, _ => None
               end
           end
  end.

Definition hex_digit (n : N) : N := if bool_decide (n < 10)%N then (48 + n)%N else (87 + n)%N.

Definition tohex (b : list N) : pystr := concat (map (fun x => [hex_digit (x / 16); hex_digit (x mod 16)]%N) b).

Lemma hex_val_digit n : (n < 16)%N -> hex_val (hex_digit n) = Some n /\ hex_space (hex_digit n) = false.
Proof.
  intros Hn. unfold hex_val, hex_digit, hex_space. repeat case_bool_decide; split; try (f_equal; lia); try done; lia.
Qed.

Lemma fromhex_tohex (b : list N) : Forall (fun x => x < 256)%N b -> fromhex (tohex b) = Some b.
Proof.
  induction 1 as [|x b Hx _ IH]; [done|]. unfold tohex in *. cbn [map concat app fromhex].
  assert (x / 16 < 16)%N by (apply N.Div0.div_lt_upper_bound; lia).
  assert (x mod 16 < 16)%N by (apply N.mod_lt; lia).
  destruct (hex_val_digit _ H) as [Ea ->], (hex_val_digit _ H0) as [Eb _]. rewrite Ea, Eb, IH. do 2 f_equal. symmetry. apply N.Div0.div_mod.
Qed.

(** What [fromhex] reads are bytes. *)
Lemma hex_val_bound c n : hex_val c = Some n -> (n < 16)%N.
Proof. unfold hex_val. repeat case_bool_decide; try done; intros [= <-]; lia. Qed.

Lemma fromhex_bytes s b : fromhex s = Some b -> Forall (fun x => x < 256)%N b.
Proof.
  enough (forall n s b, (length s <= n)%nat -> fromhex s = Some b -> Forall (fun x => x < 256)%N b) as Hn by by eapply Hn.
  clear. induction n as [|n IH]; intros [|c r] b Hlen; cbn [fromhex length] in *; try lia;
    try (intros [= <-]; constructor).
  destruct (hex_space c); [apply IH; lia|]. destruct r as [|c' r']; [done|].
  destruct (hex_val c) as [x|] eqn:Ex; [|done]. destruct (hex_val c') as [y|] eqn:Ey; [|done].
  destruct (fromhex r') as [l|] eqn:El; [|done]. intros [= <-].
  apply hex_val_bound in Ex, Ey. constructor; [lia|]. eapply IH; [|done]. cbn in Hlen. lia.
Qed.

(** [ESCAPE_DCT] of the standard library's encoder, and [\u00XX] below a space. *)
Definition escape_char (c : N) : pystr :=
  (if c =? 34 then [92; 34]
   else if c =? 92 then [92; 92]
   else if c =? 10 then [92; 110]
   else if c =? 13 then [92; 114]
   else if c =? 9 then [92; 116]
   else if c =? 12 then [92; 102]
   else if c =? 8 then [92; 98]
   else if c <? 32 then [92; 117; 48; 48; hex_digit (c / 16); hex_digit (c mod 16)]
   else [c])%N.

Definition dump_str (s : pystr) : pystr := [34%N] ++ concat (map escape_char s) ++ [34%N].

Definition dump_float (f : pyfloat) : pystr :=
  match f with
  | S754_nan => "NaN"
  | S754_infinity false => "Infinity"
  | S754_infinity true => "-Infinity"
  | _ => float_repr f
  end.

Fixpoint comma_separated (l : list pystr) : pystr :=
  match l with
  | [] => []
  | [x] => x
  | x :: r => x ++ [44%N] ++ comma_separated r
  end.

Fixpoint dumps (v : value) : pystr :=
  match v with
  | VNone => "null"
  | VBool b => if b then "true" else "false"
  | VInt z => str_Z z
  | VFloat f => dump_float f
  | VStr s => dump_str s
  | VList l => [91%N] ++ comma_separated (map dumps l) ++ [93%N]
  | VDict d =>
      [123%N] ++
      comma_separated (map (fun kv => dump_str kv.1 ++ [58%N] ++ kv.2)
        (sort_keys (map (fun kv => (kv.1, dumps kv.2)) d))) ++
      [125%N]
  end.

(** ** Texts of the same flat object

    The cells of a dataset are scalars; two rows serialised over the same
    columns to one text hold the same cells. *)

(** What a JSON reader makes of the next escaped character. *)
Definition unescape (s : pystr) : option (N * pystr) :=
  match s with
  | [] => None
  | c :: r =>
      if (c =? 34)%N then None
      else if (c =? 92)%N then
        match r with
        | [] => None
        | e :: r' =>
            if (e =? 117)%N then
              match r' with
              | _ :: _ :: a :: b :: rest =>
                  match hex_val a, hex_val b with Some x, Some y => Some ((16 * x + y)%N, rest) | _, _ => None end
              | _ => None
              end
            else Some ((if e =? 110 then 10 else if e =? 114 then 13 else if e =? 116 then 9
                        else if e =? 102 then 12 else if e =? 98 then 8 else e)%N, r')
        end
      else Some (c, r)
  end.

Lemma unescape_escape c r : unescape (escape_char c ++ r) = Some (c, r).
Proof.
  unfold escape_char. repeat match goal with |- context [(c =? ?k)%N] => destruct (N.eqb_spec c k) as [->|]; [reflexivity|] end.
  destruct (N.ltb_spec c 32) as [Hc|Hc]; cbn [app unescape].
  - set (a := hex_digit (c / 16)). set (b := hex_digit (c mod 16)).
    destruct (hex_val_digit (c / 16)) as [Ha _]; [by apply N.Div0.div_lt_upper_bound; lia|].
    destruct (hex_val_digit (c mod 16)) as [Hb _]; [by apply N.mod_lt|].
    cbn -[hex_val N.mul N.add]. fold a in Ha. fold b in Hb. rewrite Ha, Hb. do 2 f_equal. symmetry. by apply N.div_mod.
  - by rewrite (proj2 (N.eqb_neq c 34)), (proj2 (N.eqb_neq c 92)).
Qed.

Lemma escaped_inj s t x y :
  concat (map escape_char s) ++ 34%N :: x = concat (map escape_char t) ++ 34%N :: y -> s = t /\ x = y.
Proof.
  revert t. induction s as [|c s IH]; intros [|d t]; cbn [map concat app]; rewrite <- ?app_assoc; intros H.
  - by injection H as ->.
  - apply (f_equal unescape) in H. by rewrite unescape_escape in H.
  - apply (f_equal unescape) in H. by rewrite unescape_escape in H.
  - apply (f_equal unescape) in H. rewrite !unescape_escape in H. injection H as -> H. by apply IH in H as [-> ->].
Qed.

Lemma dump_str_inj s t x y : dump_str s ++ x = dump_str t ++ y -> s = t /\ x = y.
Proof.
  unfold dump_str. rewrite <- !app_assoc. cbn [app]. intros [= H]. by apply escaped_inj in H.
Qed.

(** A scalar that is no fraction. *)
Definition plain_cell (v : value) : bool :=
  match v with VNone | VBool _ | VInt _ | VStr _ => true | VFloat _ | VList _ | VDict _ => false end.

(** Whether a character may end a cell: a comma, or the closing brace. *)
Definition ends_cell (c : N) : bool := (c =? 44)%N || (c =? 125)%N.

Lemma str_N_plain n : str_N n <> [] /\ Forall (fun c => 48 <= c < 58)%N (str_N n).
Proof. by destruct (str_N_spec n) as (_ & Hd & Hne). Qed.

Lemma str_N_start n : exists c r, str_N n = c :: r /\ (48 <= c < 58)%N.
Proof.
  destruct (str_N_plain n) as [Hne Hd]. destruct (str_N n) as [|c r]; [done|]. inversion Hd; subst. by exists c, r.
Qed.

Lemma str_Z_start z : exists c r, str_Z z = c :: r /\ (48 <= c < 58 \/ c = 45)%N.
Proof.
  unfold str_Z. destruct (z <? 0).
  - eexists _, _. split; [reflexivity|]. by right.
  - destruct (str_N_start (Z.to_N z)) as (c & r & -> & Hc). exists c, r. auto.
Qed.

Lemma str_Z_inj x y : str_Z x = str_Z y -> x = y.
Proof.
  unfold str_Z. destruct (Z.ltb_spec x 0), (Z.ltb_spec y 0); intros E.
  - injection E as E%str_N_inj. lia.
  - destruct (str_N_start (Z.to_N y)) as (c & r & E' & Hc). rewrite E' in E. injection E as <- _. lia.
  - destruct (str_N_start (Z.to_N x)) as (c & r & E' & Hc). rewrite E' in E. injection E as -> _. lia.
  - apply str_N_inj in E. lia.
Qed.

(** A scalar's text that is no string has no character that ends a cell or
    begins a string. *)
Lemma plain_text v :
  plain_cell v = true -> (exists s, v = VStr s) \/ Forall (fun c => ends_cell c = false /\ c <> 34%N) (dumps v).
Proof.
  destruct v as [|[]|z| |s| |]; intros; try done; [right; by repeat constructor..| |by left; exists s]. right. cbn [dumps].
  assert (forall n, Forall (fun c => ends_cell c = false /\ c <> 34%N) (str_N n)) as Hn.
  { intros n. eapply Forall_impl; [apply (proj2 (str_N_plain n))|]. cbn. intros c Hc. unfold ends_cell.
    rewrite !(proj2 (N.eqb_neq c _)) by lia. split; [done|lia]. }
  unfold str_Z. destruct (z <? 0); [|done]. apply Forall_app. split; [by repeat constructor|done].
Qed.

Lemma dumps_cell_inj v w : plain_cell v = true -> plain_cell w = true -> dumps v = dumps w -> v = w.
Proof.
  assert (forall z s, str_Z z = s -> match s with [] => false | c :: _ => (48 <=? c)%N && (c <? 58)%N || (c =? 45)%N end = true) as Hz.
  { intros z s <-. destruct (str_Z_start z) as (c & r & -> & Hc). rewrite orb_true_iff, andb_true_iff, N.leb_le, N.ltb_lt, N.eqb_eq. lia. }
  destruct v as [|b|x| |s| |], w as [|b'|y| |t| |]; try done; intros _ _ E; cbn [dumps] in E;
    repeat match goal with b : bool |- _ => destruct b end; try done; try (symmetry in E; apply Hz in E; by vm_compute in E);
    try (apply Hz in E; by vm_compute in E).
  - by apply str_Z_inj in E as ->.
  - pose proof (dump_str_inj s t [] []) as H. rewrite !app_nil_r in H. by destruct (H E) as [-> _].
Qed.

(** Up to the character that ends it. *)
Lemma cell_cut (p : N -> bool) a b c d x y :
  Forall (fun e => p e = false) a -> Forall (fun e => p e = false) b -> p c = true -> p d = true ->
  a ++ c :: x = b ++ d :: y -> a = b /\ c :: x = d :: y.
Proof.
  intros Ha. revert b. induction Ha as [|e a He Ha IH]; intros b Hb Hc Hd E; destruct Hb as [|f b Hf Hb]; cbn in E; [done|..].
  - injection E as -> _. congruence.
  - injection E as <- _. congruence.
  - injection E as -> E. by destruct (IH b Hb Hc Hd E) as [-> ?].
Qed.

Lemma dumps_plain_inj v w c d x y :
  plain_cell v = true -> plain_cell w = true -> ends_cell c = true -> ends_cell d = true ->
  dumps v ++ c :: x = dumps w ++ d :: y -> v = w /\ c :: x = d :: y.
Proof.
  intros Hv Hw Hc Hd E. assert (c <> 34%N /\ d <> 34%N) as [Nc Nd] by (split; intros ->; done).
  destruct (plain_text v Hv) as [[s ->]|Fv], (plain_text w Hw) as [[t ->]|Fw].
  - cbn [dumps] in E. by apply dump_str_inj in E as [-> ->].
  - exfalso. cbn in E. destruct (dumps w) as [|e l]; cbn in E; injection E as E _; [done|]. inversion Fw; naive_solver.
  - exfalso. cbn in E. destruct (dumps v) as [|e l]; cbn in E; injection E as E _; [done|]. inversion Fv; naive_solver.
  - apply (cell_cut ends_cell) in E as [E ->]; [|by eapply Forall_impl; [eassumption|]; cbn; tauto..|done|done].
    split; [by apply dumps_cell_inj|done].
Qed.

Lemma insert_key_over k m :
  exists m', m' ≡ₚ k :: m /\
    forall f : pystr -> pystr, insert_key (k, f k) (map (fun x => (x, f x)) m) = map (fun x => (x, f x)) m'.
Proof.
  induction m as [|y m (m' & Hp & Hi)]; [by exists [k]|]. destruct (str_cmp k y) eqn:E.
  1,2: exists (k :: y :: m); split; [done|intros f; cbn; by rewrite E].
  exists (y :: m'). split; [rewrite Hp; constructor|]. intros f. cbn. by rewrite E, Hi.
Qed.

(** The order an object's keys are written in does not depend on its cells. *)
Lemma sort_keys_over l :
  exists m, m ≡ₚ l /\ forall f : pystr -> pystr, sort_keys (map (fun x => (x, f x)) l) = map (fun x => (x, f x)) m.
Proof.
  induction l as [|k l (m & Hp & Hs)]; [by exists []|]. destruct (insert_key_over k m) as (m' & Hp' & Hi).
  exists m'. split; [by rewrite Hp', Hp|]. intros f. unfold sort_keys in *. cbn [map foldr]. by rewrite Hs, Hi.
Qed.

Lemma cells_inj (f g : pystr -> value) m :
  (forall k, k ∈ m -> plain_cell (f k) = true /\ plain_cell (g k) = true) ->
  comma_separated (map (fun k => dump_str k ++ [58%N] ++ dumps (f k)) m) ++ [125%N] =
  comma_separated (map (fun k => dump_str k ++ [58%N] ++ dumps (g k)) m) ++ [125%N] ->
  forall k, k ∈ m -> f k = g k.
Proof.
  assert (forall x r, comma_separated (x :: r) ++ [125%N] =
                      x ++ match r with [] => [125%N] | _ => 44%N :: comma_separated r ++ [125%N] end) as Hc.
  { intros x [|y r]; [done|]. cbn [comma_separated]. by rewrite <- !app_assoc. }
  induction m as [|x m IH]; intros Hp E k; [by intros ?%elem_of_nil|]. cbn [map] in E. rewrite !Hc, <- !app_assoc in E.
  apply dump_str_inj in E as [_ E]. cbn [app] in E. injection E as E.
  assert (f x = g x /\ match map (fun k => dump_str k ++ [58%N] ++ dumps (f k)) m with [] => [125%N] | _ =>
            44%N :: comma_separated (map (fun k => dump_str k ++ [58%N] ++ dumps (f k)) m) ++ [125%N] end =
          match map (fun k => dump_str k ++ [58%N] ++ dumps (g k)) m with [] => [125%N] | _ =>
            44%N :: comma_separated (map (fun k => dump_str k ++ [58%N] ++ dumps (g k)) m) ++ [125%N] end) as [Hx Hr].
  { destruct (Hp x ltac:(by left)) as [Hf Hg]. destruct m as [|y m]; (eapply dumps_plain_inj; [done|done|..|exact E]; done). }
  intros [->|Hk]%elem_of_cons; [done|]. apply IH; [intros y Hy; apply Hp; by right| |done].
  destruct m as [|y m]; [done|]. cbn [map] in Hr |- *. by injection Hr.
Qed.

(** Two flat objects over the same columns with one text have the same cells. *)
Lemma flat_text_inj (f g : pystr -> value) columns :
  (forall k, k ∈ columns -> plain_cell (f k) = true /\ plain_cell (g k) = true) ->
  dumps (VDict (map (fun k => (k, f k)) columns)) = dumps (VDict (map (fun k => (k, g k)) columns)) ->
  forall k, k ∈ columns -> f k = g k.
Proof.
  intros Hp E k Hk. destruct (sort_keys_over columns) as (m & Hm & Hs). cbn [dumps] in E. rewrite !map_map in E. cbn [fst snd] in E.
  rewrite (Hs (fun k => dumps (f k))), (Hs (fun k => dumps (g k))), !map_map in E. cbn [app fst snd] in E. injection E as E.
  rewrite <- Hm in Hk. eapply (cells_inj f g m); [|exact E|exact Hk]. intros y Hy. apply Hp. by rewrite <- Hm.
Qed.
