(* ===== verification/TextFormats.v ===== *)
(** * JSON text and CSV, as the standard library writes and reads them

    [json.dumps] with its default separators and ASCII escapes and
    [json.loads]; the writer and the reader of the [csv] module in the excel
    dialect, the reader as its state machine, and that rows written read
    back. *)

From S2P Require Import Prelude PyStr PyNum Value PyJson Datasets.

(** ** Encoding *)

(** [\uXXXX] of a 16-bit unit *)
Definition unicode_escape (u : N) : pystr :=
  ([92; 117; hex_digit (u / 4096); hex_digit (u / 256 mod 16); hex_digit (u / 16 mod 16); hex_digit (u mod 16)])%N.

(** A character of the output that is not printable ASCII: one escape, or the
    two of a surrogate pair. *)
Definition ascii_escape (c : N) : pystr :=
  (if (32 <=? c) && (c <=? 126) then [c]
   else if c <? 65536 then unicode_escape c
   else let v := c - 65536 in unicode_escape (55296 + v / 1024) ++ unicode_escape (56320 + v mod 1024))%N.

(** [json.dumps(v, sort_keys=True, separators=(",", ":"))]: what [dumps]
    writes outside ASCII is escaped character by character. *)
Definition dumps_ascii (v : value) : pystr := concat (map ascii_escape (dumps v)).

(** ** Decoding *)

Definition json_space (c : N) : bool := bool_decide (c = 32 \/ c = 9 \/ c = 10 \/ c = 13)%N.

Fixpoint skip_space (s : pystr) : pystr :=
  match s with
  | c :: r => if json_space c then skip_space r else s
  | [] => []
  end.

(** The rest after a character that has to come next. *)
Definition after_char (c : N) (s : pystr) : option pystr :=
  match s with
  | d :: r => if (d =? c)%N then Some r else None
  | [] => None
  end.

(** [text] at the front, and the rest. *)
Fixpoint after_word (word s : pystr) : option pystr :=
  match word with
  | [] => Some s
  | c :: w => r ← after_char c s; after_word w r
  end.

Definition simple_escape (c : N) : option N :=
  (if c =? 34 then Some 34
   else if c =? 92 then Some 92
   else if c =? 47 then Some 47
   else if c =? 98 then Some 8
   else if c =? 102 then Some 12
   else if c =? 110 then Some 10
   else if c =? 114 then Some 13
   else if c =? 116 then Some 9
   else None)%N.

(** Four hexadecimal digits. *)
Definition read_hex4 (s : pystr) : option (N * pystr) :=
  match s with
  | a :: b :: c :: d :: r =>
      a ← hex_val a; b ← hex_val b; c ← hex_val c; d ← hex_val d;
      Some (4096 * a + 256 * b + 16 * c + d, r)%N
  | _ => None
  end.

Definition high_surrogate (u : N) : bool := ((55296 <=? u) && (u <? 56320))%N.
Definition low_surrogate (u : N) : bool := ((56320 <=? u) && (u <? 57344))%N.

(** After [\u]: a unit, or a character of a surrogate pair. *)
Definition read_unicode (s : pystr) : option (N * pystr) :=
  '(u, r) ← read_hex4 s;
  match (if high_surrogate u then after_word [92; 117]%N r else None) with
  | None => Some (u, r)
  | Some r' =>
      '(u2, r2) ← read_hex4 r';
      if low_surrogate u2 then Some (65536 + (u - 55296) * 1024 + (u2 - 56320), r2)%N else Some (u, r)
  end.

(** The characters of a string after its opening quote, and what follows its
    closing one. *)
Fixpoint scan_string (fuel : nat) (s : pystr) : option (pystr * pystr) :=
  match fuel, s with
  | S fuel, c :: r =>
      if (c =? 34)%N then Some ([], r)
      else if (c =? 92)%N then
        match r with
        | [] => None
        | e :: r =>
            '(c, r) ← (if (e =? 117)%N then read_unicode r else c ← simple_escape e; Some (c, r));
            '(text, rest) ← scan_string fuel r;
            Some (c :: text, rest)
        end
      else if (c <? 32)%N then None
      else '(text, rest) ← scan_string fuel r; Some (c :: text, rest)
  | _, _ => None
  end.

(** A run of ASCII digits and the rest. *)
Fixpoint ascii_digits (s : pystr) : pystr * pystr :=
  match s with
  | c :: r => if bool_decide (48 <= c <= 57)%N then let '(d, t) := ascii_digits r in (c :: d, t) else ([], s)
  | [] => ([], [])
  end.

(** The fraction and the exponent, each there only with a digit. *)
Definition fraction (s : pystr) : pystr * pystr :=
  match after_char 46 s with
  | Some r => match ascii_digits r with ([], _) => ([], s) | (d, t) => (46%N :: d, t) end
  | None => ([], s)
  end.

Definition exponent (s : pystr) : pystr * pystr :=
  match s with
  | e :: r =>
      if bool_decide (e = 101 \/ e = 69)%N then
        let '(sign, r') := match r with
                           | c :: t => if bool_decide (c = 43 \/ c = 45)%N then ([c], t) else ([], r)
                           | [] => ([], [])
                           end in
        match ascii_digits r' with ([], _) => ([], s) | (d, t) => (e :: sign ++ d, t) end
      else ([], s)
  | [] => ([], [])
  end.

(** A whole number without leading zeros and its optional parts: an [int], or
    a [float] where there is one. *)
Definition scan_number (s : pystr) : option (value * pystr) :=
  let '(sign, r) := match after_char 45 s with Some r => ([45%N], r) | None => ([], s) end in
  let '(whole, r) := match r with
                     | 48%N :: t => ([48%N], t)
                     | _ => ascii_digits r
                     end in
  match whole with
  | [] => None
  | _ =>
      let '(frac, r) := fraction r in
      let '(exp, r) := exponent r in
      match frac ++ exp with
      | [] => z ← parse_int (sign ++ whole); Some (VInt z, r)
      | more => f ← parse_float (sign ++ whole ++ more); Some (VFloat f, r)
      end
  end.

Definition literal_words : list (pystr * value) :=
  [ (lit "null", VNone); (lit "true", VBool true); (lit "false", VBool false); (lit "NaN", VFloat S754_nan);
    (lit "Infinity", VFloat (S754_infinity false)); (lit "-Infinity", VFloat (S754_infinity true)) ].

Fixpoint scan_literal (words : list (pystr * value)) (s : pystr) : option (value * pystr) :=
  match words with
  | [] => None
  | (word, v) :: words =>
      match after_word word s with
      | Some r => Some (v, r)
      | None => scan_literal words s
      end
  end.

Definition scan_scalar (s : pystr) : option (value * pystr) :=
  match scan_literal literal_words s with
  | Some found => Some found
  | None => scan_number s
  end.

Fixpoint scan_value (fuel : nat) (s : pystr) : option (value * pystr) :=
  match fuel, s with
  | S fuel, c :: r =>
      if (c =? 34)%N then '(text, rest) ← scan_string (S (length r)) r; Some (VStr text, rest)
      else if (c =? 91)%N then
        match after_char 93 (skip_space r) with
        | Some rest => Some (VList [], rest)
        | None => scan_items fuel [] (skip_space r)
        end
      else if (c =? 123)%N then
        match after_char 125 (skip_space r) with
        | Some rest => Some (VDict [], rest)
        | None => scan_members fuel [] (skip_space r)
        end
      else scan_scalar s
  | _, _ => None
  end
with scan_items (fuel : nat) (items : list value) (s : pystr) : option (value * pystr) :=
  match fuel with
  | O => None
  | S fuel =>
      '(v, r) ← scan_value fuel s;
      let items := items ++ [v] in
      match after_char 44 (skip_space r) with
      | Some r => scan_items fuel items (skip_space r)
      | None => rest ← after_char 93 (skip_space r); Some (VList items, rest)
      end
  end
with scan_members (fuel : nat) (members : odict value) (s : pystr) : option (value * pystr) :=
  match fuel with
  | O => None
  | S fuel =>
      r ← after_char 34 s;
      '(key, r) ← scan_string (S (length r)) r;
      r ← after_char 58 (skip_space r);
      '(v, r) ← scan_value fuel (skip_space r);
      let members := dset members key v in
      match after_char 44 (skip_space r) with
      | Some r => scan_members fuel members (skip_space r)
      | None => rest ← after_char 125 (skip_space r); Some (VDict members, rest)
      end
  end.

(** [json.loads(text)]; [None] is the [JSONDecodeError]. *)
Definition loads (text : pystr) : option value :=
  '(v, r) ← scan_value (2 * length text) (skip_space text);
  match skip_space r with [] => Some v | _ => None end.

Definition COMMA : N := 44.
Definition QUOTE : N := 34.
Definition CR : N := 13.
Definition LF : N := 10.

(** [csv.field_size_limit()] *)
Definition FIELD_LIMIT : N := 131072.

(** ** Writing *)

(** A character that makes a field quoted. *)
Definition special (c : N) : bool := bool_decide (c = COMMA \/ c = QUOTE \/ c = CR \/ c = LF).

Definition double_quotes (s : pystr) : pystr :=
  concat (map (fun c => if (c =? QUOTE)%N then [QUOTE; QUOTE] else [c]) s).

Definition quoted (s : pystr) : pystr := QUOTE :: double_quotes s ++ [QUOTE].

Definition field_text (s : pystr) : pystr := if existsb special s then quoted s else s.

(** A row of one empty field is quoted, so as not to be an empty line. *)
Definition row_text (fields : list pystr) : pystr :=
  match fields with
  | [[]] => quoted []
  | _ => join [COMMA] (map field_text fields)
  end ++ [CR; LF].

Definition write_rows (rows : list (list pystr)) : pystr := concat (map row_text rows).

(** ** Reading *)

Inductive csv_state := StartRecord | StartField | InField | InQuoted | QuoteInQuoted | EatNewline.

#[export] Instance csv_state_eq_dec : EqDecision csv_state.
Proof. solve_decision. Defined.

Record csv_reader := CsvReader { cr_state : csv_state; cr_field : pystr; cr_fields : list pystr }.

Definition new_record : csv_reader := CsvReader StartRecord [] [].

Definition add_char (c : N) (st : csv_state) (r : csv_reader) : option csv_reader :=
  if (FIELD_LIMIT <=? N.of_nat (length (cr_field r)))%N then None
  else Some (CsvReader st (cr_field r ++ [c]) (cr_fields r)).

Definition save_field (st : csv_state) (r : csv_reader) : csv_reader :=
  CsvReader st [] (cr_fields r ++ [cr_field r]).

(** The state after a line's end, or after a newline character. *)
Definition line_end (x : option N) : csv_state := match x with None => StartRecord | Some _ => EatNewline end.

Definition newline (x : option N) : bool :=
  match x with None => true | Some c => (c =? LF)%N || (c =? CR)%N end.

Definition is_char (x : option N) (c : N) : bool := match x with Some d => (d =? c)%N | None => false end.

(** [parse_process_char]; [None] for a character is the end of a line, and as
    the result an error. *)
Definition start_field (x : option N) (r : csv_reader) : option csv_reader :=
  if newline x then Some (save_field (line_end x) r)
  else if is_char x QUOTE then Some (CsvReader InQuoted (cr_field r) (cr_fields r))
  else if is_char x COMMA then Some (save_field StartField r)
  else match x with Some c => add_char c InField r | None => None end.

Definition csv_step (x : option N) (r : csv_reader) : option csv_reader :=
  match cr_state r with
  | StartRecord =>
      match x with
      | None => Some r
      | Some _ => if newline x then Some (CsvReader EatNewline (cr_field r) (cr_fields r)) else start_field x r
      end
  | StartField => start_field x r
  | InField =>
      if newline x then Some (save_field (line_end x) r)
      else if is_char x COMMA then Some (save_field StartField r)
      else match x with Some c => add_char c InField r | None => None end
  | InQuoted =>
      match x with
      | None => Some r
      | Some c => if (c =? QUOTE)%N then Some (CsvReader QuoteInQuoted (cr_field r) (cr_fields r))
                  else add_char c InQuoted r
      end
  | QuoteInQuoted =>
      if is_char x QUOTE then add_char QUOTE InQuoted r
      else if is_char x COMMA then Some (save_field StartField r)
      else if newline x then Some (save_field (line_end x) r)
      else match x with Some c => add_char c InField r | None => None end
  | EatNewline =>
      match x with
      | None => Some (CsvReader StartRecord (cr_field r) (cr_fields r))
      | Some _ => if newline x then Some r else None
      end
  end.

(** The characters of a text with the end of each line marked: after LF, after
    a CR that no LF follows, and after the last character. *)
Fixpoint with_line_ends (s : pystr) : list (option N) :=
  match s with
  | [] => []
  | c :: r =>
      let ends := match r with
                  | [] => true
                  | d :: _ => (c =? LF)%N || ((c =? CR)%N && negb (d =? LF)%N)
                  end in
      Some c :: (if ends then None :: with_line_ends r else with_line_ends r)
  end.

(** [list(csv.reader(...))]: a record is complete when a line ends in the
    state it began in; what is left at the end is a last record. *)
Fixpoint read_stream (s : list (option N)) (r : csv_reader) : option (list (list pystr)) :=
  match s with
  | [] =>
      if bool_decide (cr_field r <> [] \/ cr_state r = InQuoted) then Some [cr_fields r ++ [cr_field r]] else Some []
  | x :: s =>
      r ← csv_step x r;
      match x with
      | None =>
          if bool_decide (cr_state r = StartRecord) then rest ← read_stream s new_record; Some (cr_fields r :: rest)
          else read_stream s r
      | Some _ => read_stream s r
      end
  end.

Definition read_rows (text : pystr) : option (list (list pystr)) := read_stream (with_line_ends text) new_record.

(** ** What is written reads back *)

Definition within_limit (s : pystr) : Prop := (N.of_nat (length s) <= FIELD_LIMIT)%N.

Lemma add_char_ok (c : N) (q st : csv_state) (got s : pystr) (fields : list pystr) :
  within_limit (got ++ c :: s) -> add_char c st (CsvReader q got fields) = Some (CsvReader st (got ++ [c]) fields).
Proof.
  unfold within_limit, add_char. rewrite length_app. cbn [length cr_field cr_fields]. intros H.
  by rewrite (proj2 (N.leb_gt _ _)) by lia.
Qed.

(** A character that ends no line. *)
Lemma read_char c rest r :
  c <> LF -> c <> CR -> rest <> [] ->
  read_stream (with_line_ends (c :: rest)) r = (csv_step (Some c) r ≫= read_stream (with_line_ends rest)).
Proof.
  intros Hlf Hcr Hr. destruct rest as [|d t]; [done|]. cbn [with_line_ends].
  by rewrite (proj2 (N.eqb_neq _ _) Hlf), (proj2 (N.eqb_neq _ _) Hcr).
Qed.

(** Inside quotes the marks of lines make no difference. *)
Lemma read_in_quotes s : forall got fields rest,
  within_limit (got ++ s) ->
  read_stream (with_line_ends (double_quotes s ++ QUOTE :: rest)) (CsvReader InQuoted got fields) =
  read_stream (with_line_ends (QUOTE :: rest)) (CsvReader InQuoted (got ++ s) fields).
Proof.
  induction s as [|c s IH]; intros got fields rest Hl; [by rewrite app_nil_r|].
  pose proof (fun q => add_char_ok c q InQuoted got s fields Hl) as Hadd.
  replace (got ++ c :: s) with ((got ++ [c]) ++ s) in * by by rewrite <- app_assoc.
  rewrite <- IH by done.
  change (double_quotes (c :: s)) with ((if (c =? QUOTE)%N then [QUOTE; QUOTE] else [c]) ++ double_quotes s).
  assert (double_quotes s ++ QUOTE :: rest <> []) as Hne by by intros [_ ?]%app_eq_nil.
  destruct (c =? QUOTE)%N eqn:Ec.
  - apply N.eqb_eq in Ec as ->. cbn [app]. rewrite read_char by done.
    change (csv_step (Some QUOTE) (CsvReader InQuoted got fields)) with (Some (CsvReader QuoteInQuoted got fields)).
    cbn [mbind option_bind]. rewrite read_char by done.
    change (csv_step (Some QUOTE) (CsvReader QuoteInQuoted got fields))
      with (add_char QUOTE InQuoted (CsvReader QuoteInQuoted got fields)).
    by rewrite Hadd.
  - cbn [app]. destruct (double_quotes s ++ QUOTE :: rest) as [|d t]; [done|].
    cbn [with_line_ends read_stream csv_step cr_state]. rewrite Ec, Hadd. cbn [mbind option_bind].
    destruct ((c =? LF)%N || _); reflexivity.
Qed.

(** An unquoted field up to what ends it. *)
Lemma read_plain s : forall got fields d t,
  existsb special s = false -> within_limit (got ++ s) ->
  read_stream (with_line_ends (s ++ d :: t)) (CsvReader InField got fields) =
  read_stream (with_line_ends (d :: t)) (CsvReader InField (got ++ s) fields).
Proof.
  induction s as [|c s IH]; intros got fields d t Hs Hl; [by rewrite app_nil_r|].
  cbn [existsb] in Hs. apply orb_false_iff in Hs as [Hc Hs]. apply bool_decide_eq_false in Hc.
  pose proof (add_char_ok c InField InField got s fields Hl) as Hadd.
  replace (got ++ c :: s) with ((got ++ [c]) ++ s) in * by by rewrite <- app_assoc.
  cbn [app]. rewrite read_char; [|naive_solver..|by intros [_ ?]%app_eq_nil].
  unfold csv_step, newline, is_char. cbn [cr_state].
  rewrite !(proj2 (N.eqb_neq _ _)) by naive_solver. cbn [orb]. rewrite Hadd. cbn [mbind option_bind]. by apply IH.
Qed.

(** The state a field leaves the reader in. *)
Definition field_state (q : csv_state) (s : pystr) : csv_state :=
  if existsb special s then QuoteInQuoted else match s with [] => q | _ => InField end.

Lemma read_field s q fields d t :
  q = StartRecord \/ q = StartField -> within_limit s ->
  read_stream (with_line_ends (field_text s ++ d :: t)) (CsvReader q [] fields) =
  read_stream (with_line_ends (d :: t)) (CsvReader (field_state q s) s fields).
Proof.
  intros Hq Hl. unfold field_text, field_state. destruct (existsb special s) eqn:Es.
  - unfold quoted. cbn [app]. rewrite <- app_assoc. cbn [app]. rewrite read_char; [|done..|by intros [_ ?]%app_eq_nil].
    replace (csv_step (Some QUOTE) (CsvReader q [] fields)) with (Some (CsvReader InQuoted [] fields)) by by destruct Hq as [-> | ->].
    cbn [mbind option_bind]. rewrite read_in_quotes by done. cbn [app]. by rewrite read_char.
  - destruct s as [|c s]; [done|]. cbn [existsb] in Es. apply orb_false_iff in Es as [Hc Es].
    apply bool_decide_eq_false in Hc. cbn [app]. rewrite read_char; [|naive_solver..|by intros [_ ?]%app_eq_nil].
    pose proof (add_char_ok c q InField [] s fields Hl) as Hadd.
    replace (csv_step (Some c) (CsvReader q [] fields)) with (Some (CsvReader InField [c] fields)).
    { cbn [mbind option_bind]. by apply (read_plain s [c]). }
    change [c] with ([] ++ [c]). rewrite <- Hadd. unfold csv_step, start_field, newline, is_char.
    destruct Hq as [-> | ->]; cbn [cr_state]; by rewrite !(proj2 (N.eqb_neq _ _)) by naive_solver.
Qed.

Lemma step_comma q s fields :
  q <> InQuoted -> q <> EatNewline -> csv_step (Some COMMA) (CsvReader q s fields) = Some (CsvReader StartField [] (fields ++ [s])).
Proof. by destruct q. Qed.

Lemma read_end q s fields rest :
  q = StartField \/ q = InField \/ q = QuoteInQuoted ->
  read_stream (with_line_ends (CR :: LF :: rest)) (CsvReader q s fields) =
  (records ← read_rows rest; Some ((fields ++ [s]) :: records)).
Proof. intros Hq. destruct rest as [|d t]; destruct Hq as [-> | [-> | ->]]; reflexivity. Qed.

Lemma field_state_ok q s : q = StartRecord \/ q = StartField -> field_state q s <> InQuoted /\ field_state q s <> EatNewline.
Proof. intros Hq. unfold field_state. destruct (existsb special s), s; naive_solver. Qed.

(** The fields of a row after the first. *)
Lemma read_fields l : forall s fields rest,
  Forall within_limit (s :: l) ->
  read_stream (with_line_ends (join [COMMA] (map field_text (s :: l)) ++ CR :: LF :: rest)) (CsvReader StartField [] fields) =
  (records ← read_rows rest; Some ((fields ++ s :: l) :: records)).
Proof.
  induction l as [|s' l IH]; intros s fields rest [Hs Hl]%Forall_cons.
  - cbn [map join]. rewrite read_field by tauto. apply read_end. unfold field_state. destruct (existsb special s), s; tauto.
  - change (join [COMMA] (map field_text (s :: s' :: l))) with (field_text s ++ [COMMA] ++ join [COMMA] (map field_text (s' :: l))).
    rewrite <- !app_assoc. cbn [app]. rewrite read_field by tauto. rewrite read_char; [|done..|by intros [_ ?]%app_eq_nil].
    rewrite step_comma by (apply field_state_ok; tauto). cbn [mbind option_bind]. rewrite IH by done.
    by rewrite <- app_assoc.
Qed.

Lemma read_row fields rest :
  fields <> [] -> Forall within_limit fields ->
  read_rows (row_text fields ++ rest) = (records ← read_rows rest; Some (fields :: records)).
Proof.
  intros Hne Hl. unfold read_rows at 1, new_record. destruct fields as [|s [|s' l]]; [done|..].
  - destruct s as [|c s].
    + unfold row_text. rewrite <- app_assoc. by destruct rest.
    + apply Forall_cons in Hl as [Hs _]. change (row_text [c :: s]) with (field_text (c :: s) ++ [CR; LF]). rewrite <- app_assoc.
      cbn [app]. rewrite read_field by tauto. apply (read_end _ _ []). unfold field_state.
      destruct (existsb special (c :: s)); tauto.
  - assert (row_text (s :: s' :: l) = field_text s ++ [COMMA] ++ join [COMMA] (map field_text (s' :: l)) ++ [CR; LF]) as ->.
    { unfold row_text. destruct s; cbn [map join]; by rewrite <- !app_assoc. }
    apply Forall_cons in Hl as [Hs Hl]. rewrite <- !app_assoc. cbn [app]. rewrite read_field by tauto.
    rewrite read_char; [|done..|by intros [_ ?]%app_eq_nil].
    rewrite step_comma by (apply field_state_ok; tauto). exact (read_fields l s' [s] rest Hl).
Qed.

(** Rows of at least one field read back, whatever characters are in them. *)
Lemma read_written_rows rows :
  Forall (fun fields => fields <> [] /\ Forall within_limit fields) rows -> read_rows (write_rows rows) = Some rows.
Proof.
  induction 1 as [|fields rows [Hne Hl] _ IH]; [done|]. unfold write_rows. cbn [map concat].
  rewrite read_row by done. fold (write_rows rows). by rewrite IH.
Qed.
