(* ===== verification/Server.v ===== *)
(** * The server's tables and transactions

    The rows the services of the server read and write (the SQLAlchemy models
    of submissions, sync, media, quality and projects), the blob store beside
    them, and the monad their handlers run in.  A handler that raises leaves
    the state it had reached; [transact] is the route around it
    ([async with session.begin()]), which rolls the tables back but cannot
    take back what was written to the blob store. *)

From Stdlib Require Import Sorting.Sorted.
From S2P Require Import Prelude PyStr Value.

(** ** State and refusals *)

Definition ST (S E A : Type) : Type := S -> S * (A + E).

Section Monad.
Context {S E : Type}.

#[global] Instance ST_ret : MRet (ST S E) := fun A a s => (s, inl a).
#[global] Instance ST_bind : MBind (ST S E) := fun A B f m s =>
  match m s with
  | (s', inl a) => f a s'
  | (s', inr e) => (s', inr e)
  end.

Definition asks {A} (f : S -> A) : ST S E A := fun s => (s, inl (f s)).
Definition writes (f : S -> S) : ST S E unit := fun s => (f s, inl tt).
Definition refuse {A} (e : E) : ST S E A := fun s => (s, inr e).
Definition found {A} (e : E) (o : option A) : ST S E A :=
  match o with Some a => mret a | None => refuse e end.
Definition unless (b : bool) (e : E) : ST S E unit := if b then mret tt else refuse e.

(** [for x in l: body(x)] *)
Fixpoint each {A} (l : list A) (body : A -> ST S E unit) : ST S E unit :=
  match l with
  | [] => mret tt
  | x :: r => body x ≫= fun _ => each r body
  end.

Lemma bind_run {A B} (m : ST S E A) (f : A -> ST S E B) s s' r :
  (m ≫= f) s = (s', r) ->
  (exists a s1, m s = (s1, inl a) /\ f a s1 = (s', r)) \/ (exists e, m s = (s', inr e) /\ r = inr e).
Proof. unfold mbind, ST_bind. destruct (m s) as [s1 [a|e]]; [eauto|]. intros [= <- <-]. eauto. Qed.

Lemma unless_run (b : bool) (e : E) s s' r :
  unless b e s = (s', r) -> s' = s /\ (b = true /\ r = inl tt \/ b = false /\ r = inr e).
Proof. unfold unless. destruct b; intros [= <- <-]; naive_solver. Qed.

Lemma found_run {A} (e : E) (o : option A) s s' r :
  found e o s = (s', r) -> s' = s /\ ((exists a, o = Some a /\ r = inl a) \/ o = None /\ r = inr e).
Proof. unfold found. destruct o; intros [= <- <-]; eauto. Qed.

(** A relation between the states before and after, whatever the outcome. *)
Definition along (R : S -> S -> Prop) {A} (m : ST S E A) : Prop := forall s s' r, m s = (s', r) -> R s s'.

Section Along.
Context (R : S -> S -> Prop) `{!Reflexive R} `{!Transitive R}.

Lemma along_ret {A} (a : A) : along R (mret a).
Proof. intros s s' r [= <- _]. done. Qed.

Lemma along_bind {A B} (m : ST S E A) (f : A -> ST S E B) :
  along R m -> (forall a, along R (f a)) -> along R (m ≫= f).
Proof.
  intros Hm Hf s s' r. unfold mbind, ST_bind. destruct (m s) as [s1 [a|e]] eqn:Em.
  - intros Hr. etrans; [by eapply Hm|by eapply Hf].
  - intros [= <- _]. by eapply Hm.
Qed.

Lemma along_asks {A} (f : S -> A) : along R (asks f).
Proof. intros s s' r [= <- _]. done. Qed.

Lemma along_refuse {A} e : along R (A:=A) (refuse e).
Proof. intros s s' r [= <- _]. done. Qed.

Lemma along_found {A} e (o : option A) : along R (found e o).
Proof. destruct o; [apply along_ret|apply along_refuse]. Qed.

Lemma along_unless b e : along R (unless b e).
Proof. destruct b; [apply along_ret|apply along_refuse]. Qed.

Lemma along_writes f : (forall s, R s (f s)) -> along R (writes f).
Proof. intros Hf s s' r [= <- _]. apply Hf. Qed.

Lemma along_each {A} (l : list A) body : (forall x, along R (body x)) -> along R (each l body).
Proof. intros Hb. induction l; [apply along_ret|]. by apply along_bind. Qed.
End Along.

End Monad.

(** Stepping through a handler: a read, a write, a check, a row that must be
    there, or any other step; the outcome of a refusal is substituted. *)
Ltac st_raised E :=
  first [discriminate E | match type of E with ?r = _ => subst r end | idtac].
Ltac st_step H :=
  let a := fresh "a" in let s1 := fresh "s1" in let H1 := fresh "H1" in let e := fresh "e" in
  let E := fresh "E" in
  apply bind_run in H as [(a & s1 & H1 & H)|(e & H1 & E)]; [|st_raised E].
Ltac st_read H :=
  let a := fresh "a" in let s1 := fresh "s1" in let H1 := fresh "H1" in let e := fresh "e" in
  apply bind_run in H as [(a & s1 & H1 & H)|(e & H1 & _)]; [|discriminate H1]; injection H1 as <- <-.
Ltac st_write H :=
  let a := fresh "a" in let s1 := fresh "s1" in let H1 := fresh "H1" in let e := fresh "e" in
  apply bind_run in H as [(a & s1 & H1 & H)|(e & H1 & _)]; [|discriminate H1]; injection H1 as <- _.
Ltac st_found H x Hx :=
  let a := fresh "a" in let s1 := fresh "s1" in let H1 := fresh "H1" in let e := fresh "e" in
  let E := fresh "E" in let E' := fresh "E" in
  apply bind_run in H as [(a & s1 & H1 & H)|(e & H1 & E')]; [|st_raised E'];
  apply found_run in H1 as [-> [(x & Hx & E)|[Hx E]]]; try discriminate E; [injection E as ->|clear E].
Ltac st_unless H Hb :=
  let a := fresh "a" in let s1 := fresh "s1" in let H1 := fresh "H1" in let e := fresh "e" in
  let E := fresh "E" in let E' := fresh "E" in
  apply bind_run in H as [(a & s1 & H1 & H)|(e & H1 & E')]; [|st_raised E'];
  apply unless_run in H1 as [-> [[Hb E]|[Hb E]]]; try discriminate E; clear E.

(** ** [WHERE] *)

Lemma elem_of_Lfilter {A} (p : A -> bool) l x : x ∈ List.filter p l <-> x ∈ l /\ p x = true.
Proof. rewrite !list_elem_of_In. apply filter_In. Qed.

Lemma map_filter {A B} (f : A -> B) (p : A -> bool) (q : B -> bool) l :
  (forall a, q (f a) = p a) -> List.filter q (map f l) = map f (List.filter p l).
Proof. intros Hf. induction l as [|a l IH]; [done|]. cbn. rewrite Hf, IH. by destruct (p a). Qed.

Lemma Lfilter_perm {A} (p : A -> bool) l l' : l ≡ₚ l' -> List.filter p l ≡ₚ List.filter p l'.
Proof.
  induction 1 as [|x l l' _ IH|x y l|]; cbn; [done| | |by etrans].
  - destruct (p x); [by constructor|done].
  - destruct (p x), (p y); try done. constructor.
Qed.

Lemma filter_none {A} (p : A -> bool) l : (forall x, x ∈ l -> p x = false) -> List.filter p l = [].
Proof.
  induction l as [|x l IH]; intros Hp; [done|]. cbn. rewrite Hp by left. apply IH. intros; apply Hp; by right.
Qed.

Lemma filter_all {A} (p : A -> bool) l : (forall x, x ∈ l -> p x = true) -> List.filter p l = l.
Proof.
  induction l as [|x l IH]; intros Hp; [done|]. cbn. rewrite Hp by left. f_equal. apply IH. intros; apply Hp; by right.
Qed.

Lemma filter_filter_le {A} (p q : A -> bool) l :
  (forall x, p x = true -> q x = true) -> List.filter p (List.filter q l) = List.filter p l.
Proof.
  intros Hpq. induction l as [|x l IH]; [done|]. cbn. specialize (Hpq x).
  destruct (q x) eqn:Eq; cbn; [by rewrite IH|]. destruct (p x); [by discriminate Hpq|done].
Qed.

(** ** [ORDER BY] and [sorted] *)

Section Sorting.
Context {A : Type} (le : A -> A -> bool).

Fixpoint insert_by (x : A) (l : list A) : list A :=
  match l with
  | [] => [x]
  | y :: r => if le x y then x :: l else y :: insert_by x r
  end.

Definition sort_by (l : list A) : list A := foldr insert_by [] l.

Lemma insert_by_perm x l : insert_by x l ≡ₚ x :: l.
Proof. induction l as [|y l IH]; simpl; [done|]. destruct (le x y); [done|]. rewrite IH. constructor. Qed.

Lemma sort_by_perm l : sort_by l ≡ₚ l.
Proof. induction l as [|x l IH]; simpl; [done|]. by rewrite insert_by_perm, IH. Qed.

Lemma sort_by_sorted (R : A -> A -> Prop) l :
  (forall x y, if le x y then R x y else R y x) -> Sorted R (sort_by l).
Proof.
  intros HR. induction l as [|x l IH]; cbn [sort_by foldr]; [constructor|]. fold (sort_by l).
  induction IH as [|y r Hs IHs Hd]; cbn [insert_by]; [by repeat constructor|].
  pose proof (HR x y) as Hxy. destruct (le x y) eqn:E; [by repeat constructor|]. constructor; [done|].
  destruct r as [|z r]; cbn [insert_by]; [by constructor|].
  destruct (le x z); constructor; [done|]. by inversion Hd.
Qed.
End Sorting.

(** ** Rows *)

Abbreviation bytes := (list N) (only parsing).

Record project := Project {
  pj_security_mode : pystr;
  pj_image_max_dimension : Z;
  pj_image_quality : Z;
  pj_gps_max_accuracy : Z
}.

Record environment := Environment { en_id : pystr; en_project : pystr; en_kind : pystr }.

Record device := Device {
  dv_project : pystr;
  dv_user : option pystr;
  dv_revoked : bool;                       (* [revoked_at is not None] *)
  dv_last_counter : Z;
  dv_last_sync : option Z;
  dv_pending : option (Z * Z)              (* [reported_pending_ops], [reported_at] *)
}.

Record project_key := ProjectKey { pk_id : pystr; pk_project : pystr; pk_revoked : bool }.

(** [FormVersion] joined with its [Form]. *)
Record form_version := FormVersion {
  fv_id : pystr;
  fv_form : pystr;
  fv_project : pystr;
  fv_form_key : pystr;
  fv_version : Z;
  fv_ir : value
}.

Record submission := Submission {
  sb_project : pystr;
  sb_environment : pystr;
  sb_form_version : pystr;
  sb_case : option pystr;
  sb_origin_device : pystr;
  sb_created_by : option pystr;
  sb_status : pystr;
  sb_started_at : pystr;
  sb_finalized_at : option pystr
}.

Record content_key := ContentKey { ck_submission : pystr; ck_device : pystr }.

Record wrapped_key := WrappedKey {
  wk_owner : pystr;                        (* the content key or the media file *)
  wk_project_key : pystr;
  wk_ephemeral : bytes;
  wk_nonce : bytes;
  wk_wrapped : bytes
}.

Record op_row := OpRow {
  ro_id : pystr;
  ro_submission : pystr;
  ro_kind : pystr;
  ro_path : option pystr;
  ro_value : option value;                 (* SQL NULL is [None] *)
  ro_ciphertext : option bytes;
  ro_content_key : option pystr;
  ro_nonce : option bytes;
  ro_device : pystr;
  ro_actor : option pystr;
  ro_counter : Z;
  ro_wall_clock : pystr;
  ro_seq : Z
}.

Record tombstone := Tombstone {
  ts_id : pystr;
  ts_project : pystr;
  ts_subject_type : pystr;
  ts_subject_id : pystr;
  ts_submission : pystr;
  ts_path : option pystr;
  ts_device : pystr;
  ts_counter : Z;
  ts_seq : Z
}.

Record outbox_event := OutboxEvent {
  ob_id : pystr;
  ob_project : pystr;
  ob_topic : pystr;
  ob_submission : pystr;
  ob_ops : list pystr;
  ob_pushed_by : pystr
}.

Inductive media_status := Pending | Uploading | Complete | Failed.

#[global] Instance media_status_eq_dec : EqDecision media_status.
Proof. solve_decision. Defined.

Record media := Media {
  m_submission : pystr;
  m_op : option pystr;
  m_device : option pystr;
  m_path : option pystr;
  m_mime : pystr;
  m_size : Z;
  m_chunk_count : Z;
  m_hash : option pystr;
  m_encrypted : bool;
  m_content_key : option pystr;
  m_storage : option pystr;
  m_status : media_status;
  m_uploaded : option Z
}.

Record chunk := Chunk {
  c_media : pystr;
  c_index : Z;
  c_size : Z;
  c_hash : pystr;
  c_storage : pystr
}.

Record upload := Upload {
  u_media : pystr;
  u_chunk_size : Z;
  u_received : Z;
  u_expires : Z
}.

Record rule_row := RuleRow {
  rl_id : pystr;
  rl_project : pystr;
  rl_form : option pystr;
  rl_name : pystr;
  rl_definition : value;
  rl_severity : pystr;
  rl_enabled : bool
}.

(** What a rule's verdict says beside its outcome (quality/service.py). *)
Inductive detail :=
| UnknownPath (paths : list pystr)
| Encrypted (paths : list pystr)
| Invalid (why : exn)
| FailedRule.

Record flag := Flag {
  fl_id : pystr;
  fl_submission : pystr;
  fl_rule : pystr;
  fl_path : option pystr;
  fl_severity : pystr;
  fl_violation : bool;                     (* [outcome]: a violation or not evaluated *)
  fl_name : pystr;
  fl_definition : value;
  fl_detail : detail;
  fl_resolved : option Z
}.

(** ** The tables *)

Record server := Server {
  sv_projects : odict project;
  sv_environments : list environment;
  sv_devices : odict device;
  sv_project_keys : list project_key;
  sv_versions : list form_version;
  sv_submissions : odict submission;
  sv_content_keys : odict content_key;
  sv_wrapped_keys : list wrapped_key;
  sv_ops : list op_row;
  sv_states : odict (odict value * Z);     (* [data], [op_high_water] *)
  sv_tombstones : list tombstone;
  sv_outbox : list outbox_event;
  sv_media : odict media;
  sv_media_wraps : list wrapped_key;
  sv_chunks : list chunk;
  sv_uploads : odict upload;
  sv_rules : list rule_row;
  sv_flags : list flag;
  sv_seq : Z;                              (* [sync_stream_seq] *)
  sv_minted : N;                           (* identifiers handed out by [new_ulid] *)
  sv_store : gmap (list pystr) bytes       (* path -> bytes: the blob store, outside the transaction *)
}.

(** Assignments to one table. *)
Definition with_projects (x : odict project) (s : server) : server :=
  Server x (sv_environments s) (sv_devices s) (sv_project_keys s) (sv_versions s) (sv_submissions s)
    (sv_content_keys s) (sv_wrapped_keys s) (sv_ops s) (sv_states s) (sv_tombstones s) (sv_outbox s)
    (sv_media s) (sv_media_wraps s) (sv_chunks s) (sv_uploads s) (sv_rules s) (sv_flags s) (sv_seq s)
    (sv_minted s) (sv_store s).
Definition with_environments (x : list environment) (s : server) : server :=
  Server (sv_projects s) x (sv_devices s) (sv_project_keys s) (sv_versions s) (sv_submissions s)
    (sv_content_keys s) (sv_wrapped_keys s) (sv_ops s) (sv_states s) (sv_tombstones s) (sv_outbox s)
    (sv_media s) (sv_media_wraps s) (sv_chunks s) (sv_uploads s) (sv_rules s) (sv_flags s) (sv_seq s)
    (sv_minted s) (sv_store s).
Definition with_devices (x : odict device) (s : server) : server :=
  Server (sv_projects s) (sv_environments s) x (sv_project_keys s) (sv_versions s) (sv_submissions s)
    (sv_content_keys s) (sv_wrapped_keys s) (sv_ops s) (sv_states s) (sv_tombstones s) (sv_outbox s)
    (sv_media s) (sv_media_wraps s) (sv_chunks s) (sv_uploads s) (sv_rules s) (sv_flags s) (sv_seq s)
    (sv_minted s) (sv_store s).
Definition with_project_keys (x : list project_key) (s : server) : server :=
  Server (sv_projects s) (sv_environments s) (sv_devices s) x (sv_versions s) (sv_submissions s)
    (sv_content_keys s) (sv_wrapped_keys s) (sv_ops s) (sv_states s) (sv_tombstones s) (sv_outbox s)
    (sv_media s) (sv_media_wraps s) (sv_chunks s) (sv_uploads s) (sv_rules s) (sv_flags s) (sv_seq s)
    (sv_minted s) (sv_store s).
Definition with_versions (x : list form_version) (s : server) : server :=
  Server (sv_projects s) (sv_environments s) (sv_devices s) (sv_project_keys s) x (sv_submissions s)
    (sv_content_keys s) (sv_wrapped_keys s) (sv_ops s) (sv_states s) (sv_tombstones s) (sv_outbox s)
    (sv_media s) (sv_media_wraps s) (sv_chunks s) (sv_uploads s) (sv_rules s) (sv_flags s) (sv_seq s)
    (sv_minted s) (sv_store s).
Definition with_submissions (x : odict submission) (s : server) : server :=
  Server (sv_projects s) (sv_environments s) (sv_devices s) (sv_project_keys s) (sv_versions s) x
    (sv_content_keys s) (sv_wrapped_keys s) (sv_ops s) (sv_states s) (sv_tombstones s) (sv_outbox s)
    (sv_media s) (sv_media_wraps s) (sv_chunks s) (sv_uploads s) (sv_rules s) (sv_flags s) (sv_seq s)
    (sv_minted s) (sv_store s).
Definition with_content_keys (x : odict content_key) (s : server) : server :=
  Server (sv_projects s) (sv_environments s) (sv_devices s) (sv_project_keys s) (sv_versions s)
    (sv_submissions s) x (sv_wrapped_keys s) (sv_ops s) (sv_states s) (sv_tombstones s) (sv_outbox s)
    (sv_media s) (sv_media_wraps s) (sv_chunks s) (sv_uploads s) (sv_rules s) (sv_flags s) (sv_seq s)
    (sv_minted s) (sv_store s).
Definition with_wrapped_keys (x : list wrapped_key) (s : server) : server :=
  Server (sv_projects s) (sv_environments s) (sv_devices s) (sv_project_keys s) (sv_versions s)
    (sv_submissions s) (sv_content_keys s) x (sv_ops s) (sv_states s) (sv_tombstones s) (sv_outbox s)
    (sv_media s) (sv_media_wraps s) (sv_chunks s) (sv_uploads s) (sv_rules s) (sv_flags s) (sv_seq s)
    (sv_minted s) (sv_store s).
Definition with_ops (x : list op_row) (s : server) : server :=
  Server (sv_projects s) (sv_environments s) (sv_devices s) (sv_project_keys s) (sv_versions s)
    (sv_submissions s) (sv_content_keys s) (sv_wrapped_keys s) x (sv_states s) (sv_tombstones s) (sv_outbox s)
    (sv_media s) (sv_media_wraps s) (sv_chunks s) (sv_uploads s) (sv_rules s) (sv_flags s) (sv_seq s)
    (sv_minted s) (sv_store s).
Definition with_states (x : odict (odict value * Z)) (s : server) : server :=
  Server (sv_projects s) (sv_environments s) (sv_devices s) (sv_project_keys s) (sv_versions s)
    (sv_submissions s) (sv_content_keys s) (sv_wrapped_keys s) (sv_ops s) x (sv_tombstones s) (sv_outbox s)
    (sv_media s) (sv_media_wraps s) (sv_chunks s) (sv_uploads s) (sv_rules s) (sv_flags s) (sv_seq s)
    (sv_minted s) (sv_store s).
Definition with_tombstones (x : list tombstone) (s : server) : server :=
  Server (sv_projects s) (sv_environments s) (sv_devices s) (sv_project_keys s) (sv_versions s)
    (sv_submissions s) (sv_content_keys s) (sv_wrapped_keys s) (sv_ops s) (sv_states s) x (sv_outbox s)
    (sv_media s) (sv_media_wraps s) (sv_chunks s) (sv_uploads s) (sv_rules s) (sv_flags s) (sv_seq s)
    (sv_minted s) (sv_store s).
Definition with_outbox (x : list outbox_event) (s : server) : server :=
  Server (sv_projects s) (sv_environments s) (sv_devices s) (sv_project_keys s) (sv_versions s)
    (sv_submissions s) (sv_content_keys s) (sv_wrapped_keys s) (sv_ops s) (sv_states s) (sv_tombstones s) x
    (sv_media s) (sv_media_wraps s) (sv_chunks s) (sv_uploads s) (sv_rules s) (sv_flags s) (sv_seq s)
    (sv_minted s) (sv_store s).
Definition with_media (x : odict media) (s : server) : server :=
  Server (sv_projects s) (sv_environments s) (sv_devices s) (sv_project_keys s) (sv_versions s)
    (sv_submissions s) (sv_content_keys s) (sv_wrapped_keys s) (sv_ops s) (sv_states s) (sv_tombstones s)
    (sv_outbox s) x (sv_media_wraps s) (sv_chunks s) (sv_uploads s) (sv_rules s) (sv_flags s) (sv_seq s)
    (sv_minted s) (sv_store s).
Definition with_media_wraps (x : list wrapped_key) (s : server) : server :=
  Server (sv_projects s) (sv_environments s) (sv_devices s) (sv_project_keys s) (sv_versions s)
    (sv_submissions s) (sv_content_keys s) (sv_wrapped_keys s) (sv_ops s) (sv_states s) (sv_tombstones s)
    (sv_outbox s) (sv_media s) x (sv_chunks s) (sv_uploads s) (sv_rules s) (sv_flags s) (sv_seq s)
    (sv_minted s) (sv_store s).
Definition with_chunks (x : list chunk) (s : server) : server :=
  Server (sv_projects s) (sv_environments s) (sv_devices s) (sv_project_keys s) (sv_versions s)
    (sv_submissions s) (sv_content_keys s) (sv_wrapped_keys s) (sv_ops s) (sv_states s) (sv_tombstones s)
    (sv_outbox s) (sv_media s) (sv_media_wraps s) x (sv_uploads s) (sv_rules s) (sv_flags s) (sv_seq s)
    (sv_minted s) (sv_store s).
Definition with_uploads (x : odict upload) (s : server) : server :=
  Server (sv_projects s) (sv_environments s) (sv_devices s) (sv_project_keys s) (sv_versions s)
    (sv_submissions s) (sv_content_keys s) (sv_wrapped_keys s) (sv_ops s) (sv_states s) (sv_tombstones s)
    (sv_outbox s) (sv_media s) (sv_media_wraps s) (sv_chunks s) x (sv_rules s) (sv_flags s) (sv_seq s)
    (sv_minted s) (sv_store s).
Definition with_rules (x : list rule_row) (s : server) : server :=
  Server (sv_projects s) (sv_environments s) (sv_devices s) (sv_project_keys s) (sv_versions s)
    (sv_submissions s) (sv_content_keys s) (sv_wrapped_keys s) (sv_ops s) (sv_states s) (sv_tombstones s)
    (sv_outbox s) (sv_media s) (sv_media_wraps s) (sv_chunks s) (sv_uploads s) x (sv_flags s) (sv_seq s)
    (sv_minted s) (sv_store s).
Definition with_flags (x : list flag) (s : server) : server :=
  Server (sv_projects s) (sv_environments s) (sv_devices s) (sv_project_keys s) (sv_versions s)
    (sv_submissions s) (sv_content_keys s) (sv_wrapped_keys s) (sv_ops s) (sv_states s) (sv_tombstones s)
    (sv_outbox s) (sv_media s) (sv_media_wraps s) (sv_chunks s) (sv_uploads s) (sv_rules s) x (sv_seq s)
    (sv_minted s) (sv_store s).
Definition with_seq (x : Z) (s : server) : server :=
  Server (sv_projects s) (sv_environments s) (sv_devices s) (sv_project_keys s) (sv_versions s)
    (sv_submissions s) (sv_content_keys s) (sv_wrapped_keys s) (sv_ops s) (sv_states s) (sv_tombstones s)
    (sv_outbox s) (sv_media s) (sv_media_wraps s) (sv_chunks s) (sv_uploads s) (sv_rules s) (sv_flags s) x
    (sv_minted s) (sv_store s).
Definition with_minted (x : N) (s : server) : server :=
  Server (sv_projects s) (sv_environments s) (sv_devices s) (sv_project_keys s) (sv_versions s)
    (sv_submissions s) (sv_content_keys s) (sv_wrapped_keys s) (sv_ops s) (sv_states s) (sv_tombstones s)
    (sv_outbox s) (sv_media s) (sv_media_wraps s) (sv_chunks s) (sv_uploads s) (sv_rules s) (sv_flags s)
    (sv_seq s) x (sv_store s).
Definition with_store (x : gmap (list pystr) bytes) (s : server) : server :=
  Server (sv_projects s) (sv_environments s) (sv_devices s) (sv_project_keys s) (sv_versions s)
    (sv_submissions s) (sv_content_keys s) (sv_wrapped_keys s) (sv_ops s) (sv_states s) (sv_tombstones s)
    (sv_outbox s) (sv_media s) (sv_media_wraps s) (sv_chunks s) (sv_uploads s) (sv_rules s) (sv_flags s)
    (sv_seq s) (sv_minted s) x.
