(* ===== verification/Catalog.v ===== *)
(** * The catalog: forms, datasets and what pins one to the other

    The tables of forms/models.py and entities/models.py that publishing and
    delivery read and write, as one record [catalog] beside the server's own
    tables.  Insertions carry the constraints of migrations/schema as the
    database applies them: a violated one raises [IntegrityError], an integer
    too wide for its column [DataError].  [atomically] is the route's
    transaction ([async with session.begin()]). *)

From S2P Require Import Prelude PyStr Value Server PublishGate.

(** ** Rows *)

Record form := Form {
  fm_id : pystr;
  fm_project : pystr;
  fm_key : pystr;                          (* [form_key] *)
  fm_title : pystr;
  fm_archived : bool                       (* [archived_at is not None] *)
}.

Record diagnostic := Diagnostic {
  dg_severity : pystr;
  dg_code : pystr;
  dg_message : pystr;
  dg_sheet : option pystr;
  dg_row : option Z;
  dg_column : option pystr
}.

Record import_record := ImportRecord {
  im_source_name : pystr;
  im_source_sha256 : pystr;
  im_importer_version : pystr;
  im_diagnostics : list diagnostic
}.

(** A row of [form_version]; its five import columns are set together, as
    [form_version_import_complete_check] demands. *)
Record version := Version {
  vr_id : pystr;
  vr_form : pystr;
  vr_version : Z;
  vr_ir : value;
  vr_checksum : pystr;                     (* [ir_checksum] *)
  vr_published_at : Z;
  vr_published_by : option pystr;
  vr_import : option import_record
}.

Record deployment := Deployment {
  dp_id : pystr;
  dp_environment : pystr;
  dp_version : pystr;                      (* [form_version_id] *)
  dp_deployed_at : Z;
  dp_retired : bool                        (* [retired_at is not None] *)
}.

Record draft := Draft {
  dr_ir : value;
  dr_revision : Z;
  dr_updated_at : Z;
  dr_updated_by : option pystr;
  dr_test_cases : list value
}.

Record dataset := Dataset { ds_id : pystr; ds_project : pystr; ds_key : pystr; ds_name : pystr }.

Record dataset_version := DatasetVersion {
  xv_id : pystr;
  xv_dataset : pystr;
  xv_version : Z;
  xv_row_count : Z;
  xv_checksum : pystr;
  xv_published_at : Z
}.

Record dataset_record := DatasetRecord {
  xr_version : pystr;                      (* [dataset_version_id] *)
  xr_key : pystr;                          (* [record_key] *)
  xr_data : odict value;
  xr_hash : pystr;                         (* [row_hash] *)
  xr_ordinal : Z
}.

(** [FormVersionDataset]: what a form version's dataset key is pinned to. *)
Record pin_row := PinRow { pr_version : pystr; pr_key : pystr; pr_dataset_version : pystr }.

(** ** The tables *)

Record catalog := Catalog {
  ct_server : server;                      (* projects, environments, devices, submissions *)
  ct_users : list pystr;                   (* [platform_user.id] *)
  ct_forms : list form;
  ct_versions : list version;
  ct_pins : list pin_row;
  ct_deployments : list deployment;
  ct_drafts : odict draft;
  ct_datasets : list dataset;
  ct_dataset_versions : list dataset_version;
  ct_records : list dataset_record;
  ct_minted : N                            (* identifiers handed out by [new_ulid] *)
}.

Definition with_forms (x : list form) (c : catalog) : catalog :=
  Catalog (ct_server c) (ct_users c) x (ct_versions c) (ct_pins c) (ct_deployments c) (ct_drafts c)
    (ct_datasets c) (ct_dataset_versions c) (ct_records c) (ct_minted c).
Definition with_form_versions (x : list version) (c : catalog) : catalog :=
  Catalog (ct_server c) (ct_users c) (ct_forms c) x (ct_pins c) (ct_deployments c) (ct_drafts c)
    (ct_datasets c) (ct_dataset_versions c) (ct_records c) (ct_minted c).
Definition with_pins (x : list pin_row) (c : catalog) : catalog :=
  Catalog (ct_server c) (ct_users c) (ct_forms c) (ct_versions c) x (ct_deployments c) (ct_drafts c)
    (ct_datasets c) (ct_dataset_versions c) (ct_records c) (ct_minted c).
Definition with_deployments (x : list deployment) (c : catalog) : catalog :=
  Catalog (ct_server c) (ct_users c) (ct_forms c) (ct_versions c) (ct_pins c) x (ct_drafts c)
    (ct_datasets c) (ct_dataset_versions c) (ct_records c) (ct_minted c).
Definition with_drafts (x : odict draft) (c : catalog) : catalog :=
  Catalog (ct_server c) (ct_users c) (ct_forms c) (ct_versions c) (ct_pins c) (ct_deployments c) x
    (ct_datasets c) (ct_dataset_versions c) (ct_records c) (ct_minted c).
Definition with_datasets (x : list dataset) (c : catalog) : catalog :=
  Catalog (ct_server c) (ct_users c) (ct_forms c) (ct_versions c) (ct_pins c) (ct_deployments c)
    (ct_drafts c) x (ct_dataset_versions c) (ct_records c) (ct_minted c).
Definition with_dataset_versions (x : list dataset_version) (c : catalog) : catalog :=
  Catalog (ct_server c) (ct_users c) (ct_forms c) (ct_versions c) (ct_pins c) (ct_deployments c)
    (ct_drafts c) (ct_datasets c) x (ct_records c) (ct_minted c).
Definition with_records (x : list dataset_record) (c : catalog) : catalog :=
  Catalog (ct_server c) (ct_users c) (ct_forms c) (ct_versions c) (ct_pins c) (ct_deployments c)
    (ct_drafts c) (ct_datasets c) (ct_dataset_versions c) x (ct_minted c).
Definition with_ct_minted (x : N) (c : catalog) : catalog :=
  Catalog (ct_server c) (ct_users c) (ct_forms c) (ct_versions c) (ct_pins c) (ct_deployments c)
    (ct_drafts c) (ct_datasets c) (ct_dataset_versions c) (ct_records c) x.

(** ** What a request can come to *)

Inductive failure :=
| PublishRefused (violations : list blocker)
| DatasetRefused (reasons : list dataset_problem)
| FormExists (form_key : pystr)
| DraftConflict (current : Z)
| DeltaRefused (why : delta_problem)
| IntegrityError
| DataError
| MultipleResultsFound
| Escapes (e : exn)                        (* an exception no service raises on purpose *)
with dataset_problem :=
| NoRows
| MissingKeys (count : nat)
| RepeatedKeys (keys : list pystr)
| DifferentRows (dataset_key : pystr) (number : Z)
with delta_problem :=
| NotPinned (form_version dataset_key : pystr)
| NeverPublished (dataset_version : pystr)
| OtherDataset (dataset_version dataset_key : pystr).

Abbreviation CT := (ST catalog failure) (only parsing).

(** [async with session.begin()]: what raises is rolled back. *)
Definition atomically {A} (m : CT A) : CT A := fun c =>
  match m c with
  | (c', inl a) => (c', inl a)
  | (_, inr e) => (c, inr e)
  end.

(** [scalar_one_or_none()] *)
Definition scalar_one_or_none {A} (l : list A) : CT (option A) :=
  match l with
  | [] => mret None
  | [x] => mret (Some x)
  | _ => refuse MultipleResultsFound
  end.

(** The range of a Postgres [integer]. *)
Definition int4 (z : Z) : bool := (- 2 ^ 31 <=? z) && (z <? 2 ^ 31).

(** ** Insertions *)

(** No row of the table has the row's key. *)
Definition fresh {A B} `{EqDecision B} (key : A -> B) (x : A) (rows : list A) : bool :=
  bool_decide (key x ∉ map key rows).

(** A row with the key is there. *)
Definition present {A} (key : A -> pystr) (i : pystr) (rows : list A) : bool := bool_decide (i ∈ map key rows).

(** A reference to a user, where there is one. *)
Definition known_user (c : catalog) (user : option pystr) : bool :=
  match user with Some u => bool_decide (u ∈ ct_users c) | None => true end.

(** [session.add] and [flush]: the constraints, then the row. *)
Definition insertion (allowed : catalog -> bool) (add : catalog -> catalog) : CT unit :=
  c ← asks id;
  unless (allowed c) IntegrityError ≫= fun _ =>
  writes add.

Definition form_name (f : form) : pystr * pystr := (fm_project f, fm_key f).
Definition version_number (v : version) : pystr * Z := (vr_form v, vr_version v).
Definition pin_name (p : pin_row) : pystr * pystr := (pr_version p, pr_key p).
Definition dataset_name (d : dataset) : pystr * pystr := (ds_project d, ds_key d).
Definition dataset_number (v : dataset_version) : pystr * Z := (xv_dataset v, xv_version v).
Definition record_name (r : dataset_record) : pystr * pystr := (xr_version r, xr_key r).
Definition record_place (r : dataset_record) : pystr * Z := (xr_version r, xr_ordinal r).

Definition insert_form (f : form) : CT unit :=
  insertion (fun c => fresh fm_id f (ct_forms c) && fresh form_name f (ct_forms c) &&
                      dhas (sv_projects (ct_server c)) (fm_project f))
    (fun c => with_forms (ct_forms c ++ [f]) c).

Definition insert_version (v : version) : CT unit :=
  insertion (fun c => fresh vr_id v (ct_versions c) && fresh version_number v (ct_versions c) &&
                      present fm_id (vr_form v) (ct_forms c) && known_user c (vr_published_by v))
    (fun c => with_form_versions (ct_versions c ++ [v]) c).

Definition insert_pin (p : pin_row) : CT unit :=
  insertion (fun c => fresh pin_name p (ct_pins c) && present vr_id (pr_version p) (ct_versions c) &&
                      present xv_id (pr_dataset_version p) (ct_dataset_versions c))
    (fun c => with_pins (ct_pins c ++ [p]) c).

Definition insert_deployment (d : deployment) : CT unit :=
  insertion (fun c => fresh dp_id d (ct_deployments c) &&
                      present en_id (dp_environment d) (sv_environments (ct_server c)) &&
                      present vr_id (dp_version d) (ct_versions c))
    (fun c => with_deployments (ct_deployments c ++ [d]) c).

(** A draft added, or assigned to while the session holds it. *)
Definition store_draft (form_id : pystr) (d : draft) : CT unit :=
  unless (int4 (dr_revision d)) DataError ≫= fun _ =>
  insertion (fun c => present fm_id form_id (ct_forms c) && known_user c (dr_updated_by d))
    (fun c => with_drafts (dset (ct_drafts c) form_id d) c).

Definition insert_dataset (d : dataset) : CT unit :=
  insertion (fun c => fresh ds_id d (ct_datasets c) && fresh dataset_name d (ct_datasets c) &&
                      dhas (sv_projects (ct_server c)) (ds_project d))
    (fun c => with_datasets (ct_datasets c ++ [d]) c).

Definition insert_dataset_version (v : dataset_version) : CT unit :=
  insertion (fun c => fresh xv_id v (ct_dataset_versions c) && fresh dataset_number v (ct_dataset_versions c) &&
                      present ds_id (xv_dataset v) (ct_datasets c))
    (fun c => with_dataset_versions (ct_dataset_versions c ++ [v]) c).

(** A record's own identifier is named nowhere and is left out. *)
Definition insert_record (r : dataset_record) : CT unit :=
  insertion (fun c => fresh record_name r (ct_records c) && fresh record_place r (ct_records c) &&
                      present xv_id (xr_version r) (ct_dataset_versions c))
    (fun c => with_records (ct_records c ++ [r]) c).

Section Minting.
Context (ulid : N -> pystr).

(** [new_ulid()] *)
Definition new_ulid : CT pystr :=
  n ← asks ct_minted;
  writes (with_ct_minted (n + 1)%N) ≫= fun _ =>
  mret (ulid n).

(** [given or new_ulid()] *)
Definition or_new_ulid (given : option pystr) : CT pystr :=
  match given with Some ((_ :: _) as i) => mret i | _ => new_ulid end.
End Minting.

(** ** The forms as the sync services read them *)

(** [FormVersion] joined with [Form]. *)
Definition joined (c : catalog) : list form_version :=
  concat (map (fun v =>
    map (fun f => FormVersion (vr_id v) (fm_id f) (fm_project f) (fm_key f) (vr_version v) (vr_ir v))
      (List.filter (fun f => str_eqb (fm_id f) (vr_form v)) (ct_forms c))) (ct_versions c)).

(** The server's tables with the catalog's versions. *)
Definition served (c : catalog) : server := with_versions (joined c) (ct_server c).
