(* ===== verification/Media.v ===== *)
(** * Media uploads: media/service.py and media_storage.py (sync 9)

    Opening and resuming an upload, storing chunks, sealing the file, and the
    pairing of a file with the op that references it, over the tables of
    Server and a blob store of one object per chunk.  [transact] is the route
    around a handler. *)

From S2P Require Import Prelude PyStr PyJson Value Server.

(** ** The store: [FilesystemMediaStore] *)

(** [f"{index:08d}"] *)
Definition pad8 (index : Z) : pystr :=
  let d := str_Z index in replicate (8 - length d) 48%N ++ d.

Definition chunk_storage_key (media_id : pystr) (chunk_index : Z) : pystr :=
  lit "media/" ++ media_id ++ lit "/" ++ pad8 chunk_index.

(** The segments of a path, innermost first, with dots resolved. *)
Fixpoint climb (acc segments : list pystr) : list pystr :=
  match segments with
  | [] => acc
  | x :: r =>
      if bool_decide (x = []) || str_eqb x "." then climb acc r
      else if str_eqb x ".." then climb (tail acc) r
      else climb (x :: acc) r
  end.

(** [_path]: the object's path under [root], refused outside it. *)
Definition store_path (root : list pystr) (key : pystr) : option (list pystr) :=
  let absolute := match key with c :: _ => bool_decide (c = 47%N) | [] => false end in
  let path := reverse (climb (if absolute then [] else reverse root) (split_char 47 key)) in
  if bool_decide (take (length root) path = root) then Some path else None.

(** ** Sizes and refusals *)

Definition CHUNK_SIZE_BYTES : Z := 4 * 1024 * 1024.
Definition GCM_TAG_BYTES : Z := 16.
Definition wire_chunk_size (encrypted : bool) : Z := CHUNK_SIZE_BYTES + (if encrypted then GCM_TAG_BYTES else 0).

(** [MediaError(status, reason, message)], and what the store raises. *)
Inductive media_error :=
| MediaError (status_code : Z) (reason : pystr)
| StoreError.

(** What the client sends to open an upload. *)
Record upload_request := UploadRequest {
  rq_media : pystr;
  rq_submission : pystr;
  rq_device : pystr;
  rq_op : option pystr;
  rq_path : option pystr;
  rq_mime : pystr;
  rq_size : Z;
  rq_chunk_count : Z;
  rq_encrypted : bool;
  rq_content_key : option pystr;
  rq_wraps : list wrapped_key               (* [wk_owner] is not read *)
}.

Record upload_response := UploadResponse {
  rs_upload : pystr;
  rs_media : pystr;
  rs_chunk_size : Z;
  rs_chunk_count : Z;
  rs_received : list Z;
  rs_status : media_status;
  rs_expires : Z
}.

Record chunk_response := ChunkResponse {
  cr_media : pystr; cr_index : Z; cr_size : Z; cr_received : Z; cr_count : Z }.

Record complete_response := CompleteResponse {
  cp_media : pystr; cp_hash : pystr; cp_size : Z; cp_count : Z; cp_status : media_status }.

Abbreviation T := (ST server media_error).

(** ** Chunk rows *)

(** [ORDER BY chunk_index] *)
Definition chunks_of (s : server) (media_id : pystr) : list chunk :=
  sort_by (fun c d => c_index c <=? c_index d) (List.filter (fun c => str_eqb (c_media c) media_id) (sv_chunks s)).

Definition received_indexes (s : server) (media_id : pystr) : list Z := map c_index (chunks_of s media_id).

Definition find_chunk (s : server) (media_id : pystr) (index : Z) : option chunk :=
  List.find (fun c => str_eqb (c_media c) media_id && (c_index c =? index)) (sv_chunks s).

Definition replace_chunk (c : chunk) (l : list chunk) : list chunk :=
  map (fun d => if str_eqb (c_media d) (c_media c) && (c_index d =? c_index c) then c else d) l.

Definition set_media (media_id : pystr) (m : media) (s : server) : server :=
  with_media (dset (sv_media s) media_id m) s.

Definition set_status (st : media_status) (m : media) : media :=
  Media (m_submission m) (m_op m) (m_device m) (m_path m) (m_mime m) (m_size m) (m_chunk_count m) (m_hash m)
    (m_encrypted m) (m_content_key m) (m_storage m) st (m_uploaded m).

(** [a or b] on optional text *)
Definition or_text (a b : option pystr) : option pystr :=
  match a with Some (_ :: _) => a | _ => b end.

Section Media.
Context (root : list pystr) (sha256_hex : list N -> pystr) (ulid : N -> pystr) (ttl : Z).

Definition chunk_hash (data : list N) : pystr := sha256_hex data.

Definition store_put (key : pystr) (data : list N) : T unit :=
  path ← found StoreError (store_path root key);
  writes (fun s => with_store (<[path := data]> (sv_store s)) s).

Definition store_get (key : pystr) : T (list N) :=
  path ← found StoreError (store_path root key);
  found_data ← asks (fun s => sv_store s !! path);
  found StoreError found_data.

Definition new_ulid : T pystr :=
  n ← asks sv_minted;
  writes (with_minted (n + 1)) ≫= fun _ => mret (ulid n).

(** ** Opening a session *)

Definition check_media_key (rq : upload_request) : T unit :=
  if negb (rq_encrypted rq) then mret tt
  else unless (bool_decide (is_Some (rq_content_key rq))) (MediaError 422 "unwrapped_media_key") ≫= fun _ =>
       unless (negb (bool_decide (length (rq_wraps rq) = 0%nat))) (MediaError 422 "unwrapped_media_key").

Definition active_keys (s : server) (project_id : pystr) : list pystr :=
  map pk_id (List.filter (fun k => str_eqb (pk_project k) project_id && negb (pk_revoked k)) (sv_project_keys s)).

Definition check_recipients (project_id : pystr) (rq : upload_request) : T unit :=
  active ← asks (fun s => active_keys s project_id);
  unless (forallb (fun k => bool_decide (wk_project_key k ∈ active)) (rq_wraps rq)) (MediaError 422 "unknown_recipient").

Definition store_wraps (media_id : pystr) (rq : upload_request) : T unit :=
  writes (fun s => with_media_wraps (sv_media_wraps s ++
    map (fun k => WrappedKey media_id (wk_project_key k) (wk_ephemeral k) (wk_nonce k) (wk_wrapped k)) (rq_wraps rq)) s).

Definition drop_wraps (media_id : pystr) : T unit :=
  writes (fun s => with_media_wraps
    (List.filter (fun k => negb (str_eqb (wk_owner k) media_id)) (sv_media_wraps s)) s).

(** The row of a file the server had not heard of. *)
Definition new_media (rq : upload_request) : media :=
  Media (rq_submission rq) (rq_op rq) (Some (rq_device rq)) (rq_path rq) (rq_mime rq) (rq_size rq)
    (rq_chunk_count rq) None (rq_encrypted rq) (rq_content_key rq) None Uploading None.

(** A resumed upload restates the file while nothing has landed. *)
Definition restate (rq : upload_request) (m : media) : media :=
  Media (m_submission m) (m_op m) (m_device m) (m_path m) (rq_mime rq) (rq_size rq) (rq_chunk_count rq)
    (m_hash m) (rq_encrypted rq) (rq_content_key rq) (m_storage m) (m_status m) (m_uploaded m).

Definition resume (rq : upload_request) (m : media) : media :=
  Media (m_submission m) (or_text (m_op m) (rq_op rq)) (or_text (m_device m) (Some (rq_device rq)))
    (or_text (m_path m) (rq_path rq)) (m_mime m) (m_size m) (m_chunk_count m) (m_hash m) (m_encrypted m)
    (m_content_key m) (m_storage m) Uploading (m_uploaded m).

Definition reopen_media (rq : upload_request) (m : media) : T unit :=
  let i := rq_media rq in
  unless (negb (negb (str_eqb (m_submission m) (rq_submission rq)) ||
                match m_device m with Some d => negb (str_eqb d (rq_device rq)) | None => false end))
    (MediaError 409 "media_conflict") ≫= fun _ =>
  if bool_decide (m_status m = Complete) then mret tt
  else
    received ← asks (fun s => received_indexes s i);
    match received with
    | [] =>
        drop_wraps i ≫= fun _ =>
        store_wraps i rq ≫= fun _ =>
        writes (set_media i (resume rq (restate rq m)))
    | _ => writes (set_media i (resume rq m))
    end.

Definition upload_of (s : server) (media_id : pystr) : option (pystr * upload) :=
  List.find (fun u => str_eqb (u_media u.2) media_id) (sv_uploads s).

Definition open_window (now : Z) (media_id : pystr) : T (pystr * upload) :=
  existing ← asks (fun s => upload_of s media_id);
  match existing with
  | None =>
      i ← new_ulid;
      let u := Upload media_id CHUNK_SIZE_BYTES 0 (now + ttl) in
      writes (fun s => with_uploads (dset (sv_uploads s) i u) s) ≫= fun _ => mret (i, u)
  | Some (i, u) =>
      let u := Upload (u_media u) (u_chunk_size u) (u_received u) (now + ttl) in
      writes (fun s => with_uploads (dset (sv_uploads s) i u) s) ≫= fun _ => mret (i, u)
  end.

Definition open_session (now : Z) (rq : upload_request) : T upload_response :=
  let i := rq_media rq in
  device ← asks (fun s => dget (sv_devices s) (rq_device rq));
  device ← found (MediaError 403 "device_not_authorized") device;
  unless (negb (dv_revoked device)) (MediaError 403 "device_not_authorized") ≫= fun _ =>
  submission ← asks (fun s => dget (sv_submissions s) (rq_submission rq));
  submission ← found (MediaError 404 "submission_not_found") submission;
  unless (str_eqb (sb_project submission) (dv_project device)) (MediaError 404 "submission_not_found") ≫= fun _ =>
  check_media_key rq ≫= fun _ =>
  check_recipients (dv_project device) rq ≫= fun _ =>
  existing ← asks (fun s => dget (sv_media s) i);
  (match existing with
   | None => writes (set_media i (new_media rq)) ≫= fun _ => store_wraps i rq
   | Some m => reopen_media rq m
   end) ≫= fun _ =>
  window ← open_window now i;
  received ← asks (fun s => received_indexes s i);
  stored ← asks (fun s => dget (sv_media s) i);
  m ← found StoreError stored;
  mret (UploadResponse window.1 i CHUNK_SIZE_BYTES (m_chunk_count m) received (m_status m) (u_expires window.2)).

(** ** Chunks *)

Definition session_and_media (now : Z) (upload_id : pystr) : T (upload * media) :=
  u ← asks (fun s => dget (sv_uploads s) upload_id);
  u ← found (MediaError 404 "session_not_found") u;
  unless (negb (u_expires u <=? now)) (MediaError 410 "session_expired") ≫= fun _ =>
  m ← asks (fun s => dget (sv_media s) (u_media u));
  m ← found StoreError m;
  mret (u, m).

Definition store_chunk (media_id : pystr) (chunk_index : Z) (data : list N) : T unit :=
  let key := chunk_storage_key media_id chunk_index in
  let row := Chunk media_id chunk_index (Z.of_nat (length data)) (chunk_hash data) key in
  existing ← asks (fun s => find_chunk s media_id chunk_index);
  match existing with
  | None => store_put key data ≫= fun _ => writes (fun s => with_chunks (sv_chunks s ++ [row]) s)
  | Some c =>
      if str_eqb (c_hash c) (chunk_hash data) then mret tt
      else store_put key data ≫= fun _ =>
           writes (fun s => with_chunks
             (replace_chunk (Chunk media_id chunk_index (c_size row) (c_hash row) (c_storage c)) (sv_chunks s)) s)
  end.

Definition put_chunk (now : Z) (upload_id : pystr) (chunk_index : Z) (data : list N) : T chunk_response :=
  um ← session_and_media now upload_id;
  let '(u, m) := um in
  let i := u_media u in
  unless ((0 <=? chunk_index) && (chunk_index <? m_chunk_count m)) (MediaError 422 "chunk_out_of_range") ≫= fun _ =>
  let full := wire_chunk_size (m_encrypted m) in
  let size := Z.of_nat (length data) in
  let last := chunk_index =? m_chunk_count m - 1 in
  unless (0 <? size) (MediaError 422 "chunk_size_mismatch") ≫= fun _ =>
  unless (last || (size =? full)) (MediaError 422 "chunk_size_mismatch") ≫= fun _ =>
  unless (size <=? full) (MediaError 422 "chunk_size_mismatch") ≫= fun _ =>
  store_chunk i chunk_index data ≫= fun _ =>
  writes (set_media i (set_status Uploading m)) ≫= fun _ =>
  received ← asks (fun s => Z.of_nat (length (chunks_of s i)));
  writes (fun s => with_uploads
    (dset (sv_uploads s) upload_id (Upload i (u_chunk_size u) received (u_expires u))) s) ≫= fun _ =>
  mret (ChunkResponse i chunk_index size received (m_chunk_count m)).

(** ** Completion *)

(** [sorted(set(range(chunk_count)) - present)] *)
Definition missing_chunks (count : Z) (present : list Z) : list Z :=
  List.filter (fun k => negb (bool_decide (k ∈ present))) (map Z.of_nat (seq 0 (Z.to_nat count))).

Fixpoint read_chunks (l : list chunk) : T (list N) :=
  match l with
  | [] => mret []
  | c :: r => data ← store_get (c_storage c); rest ← read_chunks r; mret (data ++ rest)
  end.

Definition seal (now : Z) (media_id computed : pystr) (total : Z) (m : media) : media :=
  Media (m_submission m) (m_op m) (m_device m) (m_path m) (m_mime m) total (m_chunk_count m) (Some computed)
    (m_encrypted m) (m_content_key m) (Some (lit "media/" ++ media_id)) Complete (Some now).

Definition complete (now : Z) (upload_id declared : pystr) : T complete_response :=
  um ← session_and_media now upload_id;
  let '(u, m) := um in
  let i := u_media u in
  chunks ← asks (fun s => chunks_of s i);
  unless (bool_decide (length (missing_chunks (m_chunk_count m) (map c_index chunks)) = 0%nat))
    (MediaError 409 "chunks_missing") ≫= fun _ =>
  content ← read_chunks chunks;
  let computed := sha256_hex content in
  if negb (str_eqb computed declared) then
    writes (set_media i (set_status Failed m)) ≫= fun _ => refuse (MediaError 422 "hash_mismatch")
  else
    let total := Z.of_nat (length content) in
    writes (set_media i (seal now i computed total m)) ≫= fun _ =>
    mret (CompleteResponse i computed total (m_chunk_count m) Complete).

End Media.

(** ** The route *)

(** [async with session.begin()]: a refusal rolls the tables back; the blob
    store is not part of the transaction. *)
Definition transact {E A} (m : ST server E A) : ST server E A := fun s =>
  match m s with
  | (s', inl a) => (s', inl a)
  | (s', inr e) => (with_store (sv_store s') s, inr e)
  end.

(** ** Pairing with ops *)

Definition MEDIA_REFERENCE_KEYS : list pystr := [lit "id"; lit "filename"; lit "hash"; lit "size"].

Definition media_reference_id (v : value) : option pystr :=
  match v with
  | VDict d =>
      if negb (forallb (fun k => bool_decide (k ∈ MEDIA_REFERENCE_KEYS)) (dkeys d)) then None
      else match vget d "id" with
           | VStr media_id =>
               if bool_decide (media_id = []) || (64 <? length media_id)%nat then None
               else if existsb (fun k => bool_decide (k ∈ [lit "filename"; lit "hash"; lit "size"])) (dkeys d)
                    then Some media_id else None
           | _ => None
           end
  | _ => None
  end.

Record media_ref := MediaRef { mr_media : pystr; mr_submission : pystr; mr_op : pystr; mr_path : pystr }.

Definition pending_media (r : media_ref) : media :=
  Media (mr_submission r) (Some (mr_op r)) None (Some (mr_path r)) (lit "application/octet-stream") 0 0 None false
    None None Pending None.

Definition pair_media (r : media_ref) (m : media) : media :=
  Media (m_submission m) (or_text (m_op m) (Some (mr_op r))) (m_device m) (or_text (m_path m) (Some (mr_path r)))
    (m_mime m) (m_size m) (m_chunk_count m) (m_hash m) (m_encrypted m) (m_content_key m) (m_storage m)
    (m_status m) (m_uploaded m).

(** One reference; a media id already seen in this batch is skipped. *)
Definition register_one (st : list pystr * server) (r : media_ref) : list pystr * server :=
  let '(seen, s) := st in
  if bool_decide (mr_media r ∈ seen) then st
  else
    (seen ++ [mr_media r],
     match dget (sv_media s) (mr_media r) with
     | None => set_media (mr_media r) (pending_media r) s
     | Some m => if str_eqb (m_submission m) (mr_submission r) then set_media (mr_media r) (pair_media r m) s else s
     end).

Definition register_pending_references (references : list media_ref) (s : server) : server :=
  (fold_left register_one references ([], s)).2.

(** ** Reading *)

Record media_view := MediaView {
  mv_id : pystr;
  mv_media : media;
  mv_received : Z;
  mv_resolved : bool
}.

Definition submission_media (s : server) (submission_id : pystr) : option (list media_view * Z) :=
  match dget (sv_submissions s) submission_id with
  | None => None
  | Some _ =>
      let rows := List.filter (fun im => str_eqb (m_submission im.2) submission_id) (sv_media s) in
      let views := map (fun im =>
        MediaView im.1 im.2 (Z.of_nat (length (chunks_of s im.1)))
          (bool_decide (m_status im.2 = Complete) &&
           match m_op im.2 with
           | Some op => existsb (fun o => str_eqb (ro_id o) op) (sv_ops s)
           | None => false
           end)) rows in
      Some (views, Z.of_nat (length (List.filter (fun v => negb (mv_resolved v)) views)))
  end.

(** ** Policy *)

Record media_policy := MediaPolicy { mp_project : pystr; mp_dimension : Z; mp_quality : Z; mp_accuracy : Z }.

Definition policy_of (project_id : pystr) (p : project) : media_policy :=
  MediaPolicy project_id (pj_image_max_dimension p) (pj_image_quality p) (pj_gps_max_accuracy p).

Definition device_media_policy (s : server) (device_id : pystr) : option media_policy :=
  match dget (sv_devices s) device_id with
  | Some d => if dv_revoked d then None
              else match dget (sv_projects s) (dv_project d) with
                   | Some p => Some (policy_of (dv_project d) p) | None => None end
  | None => None
  end.

Definition project_media_policy (s : server) (project_id : pystr) : option media_policy :=
  match dget (sv_projects s) project_id with Some p => Some (policy_of project_id p) | None => None end.

Definition update_media_policy (project_id : pystr) (dimension quality accuracy : option Z) (s : server)
    : server * option media_policy :=
  match dget (sv_projects s) project_id with
  | None => (s, None)
  | Some p =>
      let p := Project (pj_security_mode p) (default (pj_image_max_dimension p) dimension)
                 (default (pj_image_quality p) quality) (default (pj_gps_max_accuracy p) accuracy) in
      (with_projects (dset (sv_projects s) project_id p) s, Some (policy_of project_id p))
  end.
