(* ===== verification/MediaFacts.v ===== *)
(** * Media uploads: what the tables and the store keep between calls

    A file id is [plain] when it names one directory; then every chunk has
    its own object, and [media_inv] relates rows and objects: each chunk's
    hash is that of its object, and a file marked complete is the sealed
    concatenation of all its chunks. *)

From Stdlib Require Import Sorting.Sorted.

From S2P Require Import Prelude PyStr PyJson Value Server Media.

(** ** Object names *)

Definition plain (x : pystr) : Prop := x <> [] /\ x <> lit "." /\ x <> lit ".." /\ 47%N ∉ x.

Lemma split_char_none c s : c ∉ s -> split_char c s = [s].
Proof.
  induction s as [|a r IH]; [done|]. rewrite not_elem_of_cons. intros [Hne Hr]. cbn [split_char].
  rewrite decide_False by done. by rewrite IH.
Qed.

Lemma split_char_at c s t : c ∉ s -> split_char c (s ++ c :: t) = s :: split_char c t.
Proof.
  induction s as [|a r IH]; cbn [app split_char]; [by rewrite decide_True|].
  rewrite not_elem_of_cons. intros [Hne Hr]. rewrite decide_False by done. by rewrite IH.
Qed.

Lemma digits_val_zeros n d : digits_val (replicate n 48%N ++ d) = digits_val d.
Proof.
  induction n as [|n IH]; [done|]. cbn [replicate app]. unfold digits_val in *. cbn [fold_left].
  replace (10 * 0 + default 0 (digit_val 48))%N with 0%N; [done|]. vm_compute. reflexivity.
Qed.

Lemma pad8_digits k : 0 <= k -> digits_val (pad8 k) = Z.to_N k /\ 47%N ∉ pad8 k /\ plain (pad8 k).
Proof.
  intros Hk. assert (str_Z k = str_N (Z.to_N k)) as E.
  { unfold str_Z. by rewrite (proj2 (Z.ltb_ge k 0)) by lia. }
  assert (47%N ∉ pad8 k) as H47.
  { unfold pad8. rewrite E, elem_of_app. intros [[H _]%elem_of_replicate|H]; [done|].
    revert H. apply str_N_no_char. lia. }
  assert (8 <= length (pad8 k))%nat as Hlen.
  { unfold pad8. rewrite length_app, length_replicate. lia. }
  split; [|split; [done|]].
  - unfold pad8. rewrite digits_val_zeros, E. apply str_N_spec.
  - split_and!; [| | |done]; intros Hx; rewrite Hx in Hlen; vm_compute in Hlen; lia.
Qed.

Lemma pad8_inj j k : 0 <= j -> 0 <= k -> pad8 j = pad8 k -> j = k.
Proof.
  intros Hj Hk E. destruct (pad8_digits j Hj) as [Dj _], (pad8_digits k Hk) as [Dk _]. rewrite E in Dj. lia.
Qed.

Lemma climb_plain acc x l : plain x -> climb acc (x :: l) = climb (x :: acc) l.
Proof.
  intros (H1 & H2 & H3 & _). cbn [climb]. rewrite bool_decide_eq_false_2 by done.
  by rewrite !str_eqb_ne by done.
Qed.

(** The object of a chunk of a plain file. *)
Definition chunk_path (root : list pystr) (media_id : pystr) (k : Z) : list pystr :=
  root ++ [lit "media"; media_id; pad8 k].

Lemma store_path_chunk root media_id k :
  plain media_id -> 0 <= k -> store_path root (chunk_storage_key media_id k) = Some (chunk_path root media_id k).
Proof.
  intros Hp Hk. unfold store_path, chunk_path.
  destruct (pad8_digits k Hk) as (_ & Hs & Hpad). pose proof Hp as (_ & _ & _ & Hm).
  assert (split_char 47 (chunk_storage_key media_id k) = [lit "media"; media_id; pad8 k]) as ->.
  { unfold chunk_storage_key. change (lit "media/") with (lit "media" ++ [47%N]).
    change (lit "/") with [47%N]. rewrite <- app_assoc. cbn [app].
    rewrite split_char_at by (apply (bool_decide_eq_true_1 (47%N ∉ _)); vm_compute; reflexivity).
    by rewrite split_char_at, split_char_none. }
  assert (plain (lit "media")) as Hmedia.
  { split_and!; apply (bool_decide_eq_true_1 _); vm_compute; reflexivity. }
  change (chunk_storage_key media_id k) with (109%N :: (drop 1 (lit "media/") ++ media_id ++ lit "/" ++ pad8 k)).
  cbv iota beta zeta. rewrite (bool_decide_eq_false_2 (109%N = 47%N)) by done.
  rewrite !climb_plain by done. cbn [climb]. cbn [reverse]. rewrite !reverse_cons, reverse_involutive, <- !app_assoc.
  cbn [app]. rewrite take_app_length. by rewrite bool_decide_eq_true_2.
Qed.

Lemma chunk_path_inj root a b j k :
  0 <= j -> 0 <= k -> chunk_path root a j = chunk_path root b k -> a = b /\ j = k.
Proof.
  intros Hj Hk E. unfold chunk_path in E. apply app_inv_head in E. injection E as E1 E2.
  split; [done|]. by apply pad8_inj.
Qed.

(** ** Chunk rows in order *)

Definition chunk_key (c : chunk) : pystr * Z := (c_media c, c_index c).

Lemma chunks_of_perm s i : chunks_of s i ≡ₚ List.filter (fun c => str_eqb (c_media c) i) (sv_chunks s).
Proof. apply sort_by_perm. Qed.

Lemma elem_of_chunks s i c : c ∈ chunks_of s i <-> c ∈ sv_chunks s /\ c_media c = i.
Proof. by rewrite chunks_of_perm, !list_elem_of_In, filter_In, str_eqb_eq. Qed.

Definition chunk_le (c d : chunk) : Prop := c_index c <= c_index d.

Lemma chunks_of_sorted s i : StronglySorted chunk_le (chunks_of s i).
Proof.
  apply Sorted_StronglySorted; [intros c d e; unfold chunk_le; lia|]. apply sort_by_sorted.
  intros c d. unfold chunk_le. destruct (_ <=? _) eqn:E; lia.
Qed.

Lemma NoDup_filter_keys i (l : list chunk) :
  NoDup (map chunk_key l) -> NoDup (map c_index (List.filter (fun c => str_eqb (c_media c) i) l)).
Proof.
  induction l as [|c l IH]; [constructor|]. cbn [map List.filter]. intros [Hc Hl]%NoDup_cons.
  destruct (str_eqb_eq (c_media c) i) as [Hto _]. destruct (str_eqb (c_media c) i); [|by apply IH].
  specialize (Hto eq_refl). cbn [map]. constructor; [|by apply IH]. intros Hin. apply Hc.
  apply list_elem_of_In, in_map_iff in Hin as (d & Hd & Hin). apply filter_In in Hin as [Hin Hm].
  apply str_eqb_eq in Hm. apply list_elem_of_In, in_map_iff. exists d. split; [|done].
  unfold chunk_key. by rewrite Hd, Hm, Hto.
Qed.

Lemma chunk_indexes_nodup s i :
  NoDup (map chunk_key (sv_chunks s)) -> NoDup (map c_index (chunks_of s i)).
Proof. intros H. rewrite chunks_of_perm. by apply NoDup_filter_keys. Qed.

(** Sorted, distinct and covering [0 .. n-1] is [0 .. n-1]. *)
Lemma indexes_are_range (l : list chunk) n :
  StronglySorted chunk_le l -> NoDup (map c_index l) ->
  (forall c, c ∈ l -> 0 <= c_index c < n) -> (forall k, 0 <= k < n -> k ∈ map c_index l) ->
  map c_index l = map Z.of_nat (seq 0 (Z.to_nat n)).
Proof.
  intros Hs Hn Hr Hc.
  assert (forall (l : list Z) a m, StronglySorted Z.lt l -> (forall k, k ∈ l <-> a <= k < a + Z.of_nat m) ->
            l = map (fun j => a + Z.of_nat j) (seq 0 m)) as Hgen.
  { clear. induction l as [|x l IH]; intros a m Hs Hin.
    - destruct m as [|m]; [done|]. specialize (Hin a). set_solver by lia.
    - destruct m as [|m].
      { specialize (proj1 (Hin x) (list_elem_of_here _ _)). lia. }
      apply StronglySorted_inv in Hs as [Hs Hx]. rewrite Forall_forall in Hx.
      assert (x = a) as ->.
      { assert (a ∈ x :: l) as [->|Ha]%elem_of_cons by (apply Hin; lia); [done|].
        pose proof (proj1 (Hin x) (list_elem_of_here _ _)). specialize (Hx _ Ha). lia. }
      cbn [seq map]. f_equal; [lia|]. rewrite (IH (a + 1) m).
      + rewrite <- seq_shift, map_map. apply map_ext. intros; lia.
      + done.
      + intros k. split.
        * intros Hk. specialize (Hx _ Hk). assert (k ∈ a :: l) as Hk' by (by right). apply Hin in Hk'. lia.
        * intros Hk. assert (k ∈ a :: l) as [->|?]%elem_of_cons by (apply Hin; lia); [lia|done]. }
  rewrite (Hgen (map c_index l) 0 (Z.to_nat n)); [apply map_ext; intros; lia| |].
  - clear Hgen Hr Hc. induction Hs as [|c l Hs IH Hd]; [constructor|]. cbn [map] in *.
    apply NoDup_cons in Hn as [Hc Hn]. constructor; [by apply IH|]. apply List.Forall_map.
    rewrite Forall_forall in Hd |- *. intros d Hd'. specialize (Hd d Hd'). unfold chunk_le in Hd.
    assert (c_index d <> c_index c); [|lia]. intros E. apply Hc. rewrite <- E. apply list_elem_of_In, in_map.
    by apply list_elem_of_In.
  - intros k. split.
    + intros Hk. apply list_elem_of_In, in_map_iff in Hk as (c & <- & Hin). apply list_elem_of_In in Hin.
      specialize (Hr c Hin). lia.
    + intros Hk. apply Hc. lia.
Qed.

Lemma missing_none n present :
  length (missing_chunks n present) = 0%nat -> forall k, 0 <= k < n -> k ∈ present.
Proof.
  intros Hl k Hk. apply nil_length_inv in Hl. destruct (decide (k ∈ present)) as [|Hno]; [done|].
  assert (In k (missing_chunks n present)) as Hin; [|rewrite Hl in Hin; destruct Hin].
  unfold missing_chunks. apply filter_In. split.
  - apply in_map_iff. exists (Z.to_nat k). split; [lia|]. apply in_seq. lia.
  - by rewrite bool_decide_eq_false_2.
Qed.

(** ** The invariant *)

Section Facts.
Context (root : list pystr) (sha256_hex : list N -> pystr) (ulid : N -> pystr) (ttl : Z).

Definition object (s : server) (i : pystr) (k : Z) : option (list N) := sv_store s !! chunk_path root i k.

Record chunk_ok (s : server) (c : chunk) : Prop := {
  co_media : exists m, dget (sv_media s) (c_media c) = Some m /\ 0 <= c_index c < m_chunk_count m /\
    c_size c <= wire_chunk_size (m_encrypted m) /\
    (c_index c < m_chunk_count m - 1 -> c_size c = wire_chunk_size (m_encrypted m));
  co_storage : c_storage c = chunk_storage_key (c_media c) (c_index c);
  co_object : exists data, object s (c_media c) (c_index c) = Some data /\ c_hash c = sha256_hex data /\
    c_size c = Z.of_nat (length data) /\ 0 < c_size c
}.

(** A sealed file: all of its chunks, and the hash and size of their
    concatenation. *)
Definition sealed (s : server) (i : pystr) (m : media) : Prop :=
  map c_index (chunks_of s i) = map Z.of_nat (seq 0 (Z.to_nat (m_chunk_count m))) /\
  exists parts, Forall2 (fun c data => object s i (c_index c) = Some data) (chunks_of s i) parts /\
    m_hash m = Some (sha256_hex (concat parts)) /\ m_size m = Z.of_nat (length (concat parts)).

(** [except]: the file whose seal is being changed. *)
Record media_inv_but (except : option pystr) (s : server) : Prop := {
  mi_ids : forall i, i ∈ dkeys (sv_media s) -> plain i;
  mi_nodup : NoDup (map chunk_key (sv_chunks s));
  mi_chunks : Forall (chunk_ok s) (sv_chunks s);
  mi_sealed : forall i m, Some i <> except -> dget (sv_media s) i = Some m -> m_status m = Complete -> sealed s i m
}.

Abbreviation media_inv := (media_inv_but None).

Lemma media_inv_weaken e s : media_inv s -> media_inv_but e s.
Proof. intros [H1 H2 H3 H4]. split; try done. intros i m _. by apply H4. Qed.

(** The invariant reads three tables. *)
Lemma media_inv_same e s s' :
  sv_media s' = sv_media s -> sv_chunks s' = sv_chunks s -> sv_store s' = sv_store s ->
  media_inv_but e s -> media_inv_but e s'.
Proof.
  intros E1 E2 E3 [H1 H2 H3 H4]. split; rewrite ?E1, ?E2; try done.
  - eapply Forall_impl; [exact H3|]. intros c [C1 C2 C3]. split; [by rewrite E1|done|].
    unfold object in *. by rewrite E3.
  - intros i m Hi Hm Hst. specialize (H4 i m Hi Hm Hst).
    unfold sealed, chunks_of, object in *. by rewrite E2, E3.
Qed.

(** Changing the row of one file. *)
Lemma set_media_inv e s i m :
  plain i -> media_inv_but e s ->
  (forall c, c ∈ sv_chunks s -> c_media c = i -> 0 <= c_index c < m_chunk_count m /\
     c_size c <= wire_chunk_size (m_encrypted m) /\
     (c_index c < m_chunk_count m - 1 -> c_size c = wire_chunk_size (m_encrypted m))) ->
  (m_status m = Complete -> sealed s i m) ->
  e = None \/ e = Some i ->
  media_inv (set_media i m s).
Proof.
  intros Hp [H1 H2 H3 H4] Hc Hs He. unfold set_media. split; cbn [sv_media sv_chunks with_media].
  - intros j. rewrite elem_dkeys_dset. intros [->|Hj]; [done|by apply H1].
  - done.
  - rewrite Forall_forall in H3 |- *. intros c Hin. destruct (H3 c Hin) as [C1 C2 C3]. split; [|done|done].
    cbn [sv_media with_media]. rewrite dget_dset. case_decide as E; [|done].
    exists m. split; [done|]. by apply Hc.
  - intros j m' _. rewrite dget_dset. case_decide as E; [intros [= <-]; subst j; exact Hs|].
    intros Hm Hst. apply (H4 j m'); [|done|done]. destruct He as [->| ->]; congruence.
Qed.

(** Two states that differ in the chunks of one file. *)
Lemma sealed_frame s s' i m :
  chunks_of s' i = chunks_of s i -> (forall c, c ∈ chunks_of s i -> object s' i (c_index c) = object s i (c_index c)) ->
  sealed s i m -> sealed s' i m.
Proof.
  intros Ec Eo [H1 (parts & H2 & H3)]. unfold sealed. rewrite Ec. split; [done|]. exists parts. split; [|done].
  clear H1 H3 Ec. induction H2 as [|c d l parts Hcd H2 IH]; [constructor|]. constructor.
  - rewrite Eo by (by left). done.
  - apply IH. intros c' Hc'. apply Eo. by right.
Qed.

Lemma object_put s i k data j k' :
  0 <= k -> 0 <= k' ->
  object (with_store (<[chunk_path root i k := data]> (sv_store s)) s) j k' =
  if decide (j = i /\ k' = k) then Some data else object s j k'.
Proof.
  intros Hk Hk'. unfold object. cbn [sv_store with_store]. case_decide as E.
  - destruct E as [-> ->]. apply lookup_insert_eq.
  - apply lookup_insert_ne. intros Hx. apply E. apply chunk_path_inj in Hx as [-> ->]; done.
Qed.

Lemma chunk_bounds e s i m c :
  media_inv_but e s -> dget (sv_media s) i = Some m -> c ∈ sv_chunks s -> c_media c = i ->
  0 <= c_index c < m_chunk_count m /\ c_size c <= wire_chunk_size (m_encrypted m) /\
  (c_index c < m_chunk_count m - 1 -> c_size c = wire_chunk_size (m_encrypted m)).
Proof.
  intros [_ _ H _] Hm Hc Hi. rewrite Forall_forall in H. destruct (co_media _ _ (H c Hc)) as (m' & Hm' & Hb).
  rewrite Hi in Hm'. congruence.
Qed.

(** ** Storing one chunk *)

(** The state once the object of chunk [k] of [i] holds [data]. *)
Definition after_put (s : server) (i : pystr) (k : Z) (data : list N) (chunks : list chunk) : server :=
  with_chunks chunks (with_store (<[chunk_path root i k := data]> (sv_store s)) s).

Lemma chunk_ok_frame s s' c :
  sv_media s' = sv_media s -> object s' (c_media c) (c_index c) = object s (c_media c) (c_index c) ->
  chunk_ok s c -> chunk_ok s' c.
Proof. intros E1 E2 [C1 C2 C3]. split; [by rewrite E1|done|by rewrite E2]. Qed.

Lemma after_put_inv s i k data chunks :
  0 <= k -> media_inv s -> NoDup (map chunk_key chunks) ->
  (forall c, c ∈ chunks -> chunk_key c = (i, k) /\ chunk_ok (after_put s i k data chunks) c \/
                           chunk_key c <> (i, k) /\ c ∈ sv_chunks s) ->
  (forall j, j <> i -> List.filter (fun c => str_eqb (c_media c) j) chunks =
                       List.filter (fun c => str_eqb (c_media c) j) (sv_chunks s)) ->
  media_inv_but (Some i) (after_put s i k data chunks).
Proof.
  intros Hk [H1 H2 H3 H4] Hn Hc Hf.
  assert (forall j k', 0 <= k' -> (j, k') <> (i, k) ->
            object (after_put s i k data chunks) j k' = object s j k') as Hobj.
  { intros j k' Hk' Hne. change (object (after_put s i k data chunks) j k') with
      (object (with_store (<[chunk_path root i k := data]> (sv_store s)) s) j k').
    rewrite object_put by done. by rewrite decide_False by naive_solver. }
  rewrite Forall_forall in H3. split; try done.
  - apply Forall_forall. intros c Hin. destruct (Hc c Hin) as [[_ Hok]|[Hne Hold]]; [done|].
    pose proof (H3 c Hold) as Hok. destruct (co_media _ _ Hok) as (m & _ & Hb & _).
    apply (chunk_ok_frame s); [done| |exact Hok]. apply Hobj; [lia|exact Hne].
  - intros j m Hj Hm Hst. assert (j <> i) as Hji by congruence.
    apply (sealed_frame s); [|intros c Hin|by apply H4].
    + unfold chunks_of. cbn [sv_chunks with_chunks after_put]. by rewrite Hf.
    + apply elem_of_chunks in Hin as [Hin <-]. destruct (co_media _ _ (H3 c Hin)) as (m' & _ & Hb & _).
      apply Hobj; [lia|]. congruence.
Qed.

Lemma find_chunk_spec s i k :
  match find_chunk s i k with
  | Some c => c ∈ sv_chunks s /\ chunk_key c = (i, k)
  | None => forall c, c ∈ sv_chunks s -> chunk_key c <> (i, k)
  end.
Proof.
  unfold find_chunk. destruct (List.find _ _) as [c|] eqn:E.
  - apply List.find_some in E as [Hin [H1%str_eqb_eq H2%Z.eqb_eq]%andb_true_iff].
    split; [by apply list_elem_of_In|]. unfold chunk_key. by rewrite H1, H2.
  - intros c Hc%list_elem_of_In Hk. apply (List.find_none _ _ E) in Hc. injection Hk as H1 H2.
    by rewrite H1, H2, str_eqb_refl, Z.eqb_refl in Hc.
Qed.

Lemma replace_chunk_keys c l : map chunk_key (replace_chunk c l) = map chunk_key l.
Proof.
  unfold replace_chunk. rewrite map_map. apply map_ext. intros d.
  destruct (_ && _) eqn:E; [|done]. apply andb_true_iff in E as [H1%str_eqb_eq H2%Z.eqb_eq].
  unfold chunk_key. by rewrite H1, H2.
Qed.

Lemma replace_chunk_filter c l j :
  j <> c_media c ->
  List.filter (fun d => str_eqb (c_media d) j) (replace_chunk c l) =
  List.filter (fun d => str_eqb (c_media d) j) l.
Proof.
  intros Hj. induction l as [|d l IH]; [done|]. unfold replace_chunk in *. cbn [map List.filter].
  destruct (str_eqb (c_media d) (c_media c) && (c_index d =? c_index c)) eqn:E; [|by rewrite IH].
  apply andb_true_iff in E as [H1%str_eqb_eq _]. rewrite H1, (str_eqb_ne (c_media c) j) by done. exact IH.
Qed.

Lemma elem_of_replace c l d :
  d ∈ replace_chunk c l -> d = c \/ d ∈ l /\ chunk_key d <> chunk_key c.
Proof.
  unfold replace_chunk. intros Hd%list_elem_of_In. apply in_map_iff in Hd as (x & Hx & Hin).
  destruct (_ && _) eqn:E; [by left|]. subst x. right. split; [by apply list_elem_of_In|].
  intros Hk. injection Hk as H1 H2. by rewrite H1, H2, str_eqb_refl, Z.eqb_refl in E.
Qed.

(** What a stored chunk leaves: nothing when the same bytes were there, and
    otherwise the object and one row. *)
Lemma store_chunk_spec s s' i k data r :
  plain i -> 0 <= k -> store_chunk root sha256_hex i k data s = (s', r) ->
  r = inl tt /\
  (s' = s /\ (exists c, c ∈ sv_chunks s /\ chunk_key c = (i, k) /\ c_hash c = sha256_hex data) \/
   exists row chunks, s' = after_put s i k data chunks /\
     row = Chunk i k (Z.of_nat (length data)) (sha256_hex data) (c_storage row) /\
     (find_chunk s i k = None /\ c_storage row = chunk_storage_key i k /\ chunks = sv_chunks s ++ [row] \/
      exists c, find_chunk s i k = Some c /\ c_storage row = c_storage c /\ chunks = replace_chunk row (sv_chunks s))).
Proof.
  intros Hp Hk. unfold store_chunk, store_put, chunk_hash, asks, writes, mbind, ST_bind.
  destruct (find_chunk s i k) as [c|] eqn:Ef.
  - pose proof (find_chunk_spec s i k) as Hs. rewrite Ef in Hs. destruct (str_eqb (c_hash c) _) eqn:Eh.
    + intros [= <- <-]. split; [done|]. left. split; [done|]. exists c. apply str_eqb_eq in Eh. naive_solver.
    + rewrite store_path_chunk by done. cbn [found mret ST_ret]. intros [= <- <-]. split; [done|]. right.
      eexists (Chunk i k _ _ (c_storage c)), _. split; [reflexivity|]. split; [reflexivity|].
      right. exists c. done.
  - rewrite store_path_chunk by done. cbn [found mret ST_ret]. intros [= <- <-]. split; [done|]. right.
    eexists (Chunk i k _ _ _), _. split; [reflexivity|]. split; [reflexivity|]. left. done.
Qed.

Lemma store_chunk_inv s s' i k data m r :
  plain i -> media_inv s -> dget (sv_media s) i = Some m -> 0 <= k < m_chunk_count m ->
  0 < Z.of_nat (length data) <= wire_chunk_size (m_encrypted m) ->
  (k < m_chunk_count m - 1 -> Z.of_nat (length data) = wire_chunk_size (m_encrypted m)) ->
  store_chunk root sha256_hex i k data s = (s', r) ->
  r = inl tt /\ sv_media s' = sv_media s /\ media_inv_but (Some i) s' /\
  exists c, c ∈ sv_chunks s' /\ chunk_key c = (i, k) /\ c_hash c = sha256_hex data.
Proof.
  intros Hp Hinv Hm Hk Hsz Hfull Hrun.
  apply store_chunk_spec in Hrun as [-> [[-> Hc]|(row & chunks & -> & Hrow & Hcase)]]; [| |done|lia].
  { split; [done|]. split; [done|]. split; [by apply media_inv_weaken|done]. }
  split; [done|]. split; [done|].
  assert (chunk_key row = (i, k)) as Hkey by (by rewrite Hrow).
  pose proof (find_chunk_spec s i k) as Hfind.
  assert (c_storage row = chunk_storage_key i k) as Hstore.
  { destruct Hcase as [(_ & -> & _)|(c & Hc & -> & _)]; [done|]. rewrite Hc in Hfind. destruct Hfind as [Hin Hck].
    pose proof (mi_chunks _ _ Hinv) as Hall. rewrite Forall_forall in Hall.
    injection Hck as <- <-. apply (co_storage _ _ (Hall c Hin)). }
  assert (chunk_ok (after_put s i k data chunks) row) as Hrow_ok.
  { rewrite Hrow, Hstore. split; cbn [c_media c_index c_size c_storage c_hash].
    - exists m. split; [exact Hm|]. split; [done|]. split; [apply Hsz|done].
    - done.
    - exists data. split; [apply lookup_insert_eq|]. split; [done|]. split; [done|]. apply Hsz. }
  assert (row ∈ chunks) as Hrin.
  { destruct Hcase as [(_ & _ & ->)|(c & Hc & _ & ->)]; [set_solver|]. rewrite Hc in Hfind. destruct Hfind as [Hin Hck].
    apply list_elem_of_In, in_map_iff. exists c. split; [|by apply list_elem_of_In].
    injection Hck as -> ->. injection Hkey as -> ->. by rewrite str_eqb_refl, Z.eqb_refl. }
  split.
  2: { exists row. split; [done|]. split; [done|]. by rewrite Hrow. }
  pose proof (mi_nodup _ _ Hinv) as Hnd. apply after_put_inv; [lia|done| | |].
  - destruct Hcase as [(Hf & _ & ->)|(c & _ & _ & ->)]; [|by rewrite replace_chunk_keys].
    rewrite Hf in Hfind. rewrite map_app. apply NoDup_app. split; [done|]. split; [|apply NoDup_singleton].
    intros x Hx Hx'. apply list_elem_of_singleton in Hx'. subst x. rewrite Hkey in Hx.
    apply list_elem_of_In, in_map_iff in Hx as (d & Hd & Hin). apply (Hfind d); [by apply list_elem_of_In|done].
  - intros d Hd. destruct Hcase as [(Hf & _ & Hch)|(c & _ & _ & Hch)]; rewrite Hch in Hd.
    + apply elem_of_app in Hd as [Hd|Hd%list_elem_of_singleton]; [right|left; by subst d].
      rewrite Hf in Hfind. split; [by apply Hfind|done].
    + apply elem_of_replace in Hd as [->|[Hd Hne]]; [by left|right]. rewrite Hkey in Hne. done.
  - intros j Hj. destruct Hcase as [(_ & _ & ->)|(c & _ & _ & ->)].
    + rewrite List.filter_app. cbn [List.filter]. injection Hkey as Hi _.
      rewrite (str_eqb_ne (c_media row) j) by congruence. apply app_nil_r.
    + apply replace_chunk_filter. injection Hkey as Hi _. congruence.
Qed.

(** ** The handlers *)

Lemma session_and_media_inv now uid s s' r :
  session_and_media now uid s = (s', r) ->
  s' = s /\ ((exists e, r = inr e) \/
             exists u m, r = inl (u, m) /\ dget (sv_uploads s) uid = Some u /\
               now < u_expires u /\ dget (sv_media s) (u_media u) = Some m).
Proof.
  intros Hrun. unfold session_and_media in Hrun.
  st_read Hrun. destruct (dget (sv_uploads s) uid) as [u|] eqn:Eu; [|injection Hrun as <- <-; eauto].
  st_read Hrun. st_unless Hrun Hb; [|eauto]. st_read Hrun.
  destruct (dget (sv_media s) (u_media u)) as [m|] eqn:Em; injection Hrun as <- <-; [|eauto].
  split; [done|]. right. exists u, m. split_and!; try done. apply negb_true_iff, Z.leb_gt in Hb. lia.
Qed.

(** The row a resumed chunk leaves keeps the file's shape. *)
Lemma set_media_same_shape e s i m m' :
  plain i -> media_inv_but e s -> e = None \/ e = Some i -> dget (sv_media s) i = Some m ->
  m_chunk_count m' = m_chunk_count m -> m_encrypted m' = m_encrypted m ->
  (m_status m' = Complete -> sealed s i m') -> media_inv (set_media i m' s).
Proof.
  intros Hp Hinv He Hm Hc Hx Hs. eapply set_media_inv; try done. intros c Hin Hi. rewrite Hc, Hx.
  by eapply chunk_bounds.
Qed.

Lemma with_uploads_inv e x s : media_inv_but e s -> media_inv_but e (with_uploads x s).
Proof. by apply media_inv_same. Qed.

Lemma put_chunk_run now uid k data s s' r :
  put_chunk root sha256_hex now uid k data s = (s', r) ->
  media_inv s ->
  (forall e, r = inr e -> s' = s) /\
  forall resp, r = inl resp -> exists u m,
    dget (sv_uploads s) uid = Some u /\ dget (sv_media s) (u_media u) = Some m /\ now < u_expires u /\
    0 <= k < m_chunk_count m /\ media_inv s' /\
    dget (sv_media s') (u_media u) = Some (set_status Uploading m) /\
    (exists c, c ∈ sv_chunks s' /\ chunk_key c = (u_media u, k) /\ c_hash c = sha256_hex data) /\
    dget (sv_uploads s') uid = Some (Upload (u_media u) (u_chunk_size u) (cr_received resp) (u_expires u)) /\
    resp = ChunkResponse (u_media u) k (Z.of_nat (length data)) (Z.of_nat (length (chunks_of s' (u_media u))))
             (m_chunk_count m) /\
    (k = m_chunk_count m - 1 \/ Z.of_nat (length data) = wire_chunk_size (m_encrypted m)) /\
    0 < Z.of_nat (length data) <= wire_chunk_size (m_encrypted m).
Proof.
  intros Hrun Hinv. unfold put_chunk in Hrun.
  st_step Hrun; apply session_and_media_inv in H1 as [-> H1]; [|split; [done|discriminate]].
  destruct H1 as [[e ?]|(u & m & [= ->] & Hu & Hnow & Hm)]; [discriminate|]. cbv beta iota in Hrun.
  st_unless Hrun Hk; [|split; [done|discriminate]]. st_unless Hrun H0; [|split; [done|discriminate]].
  st_unless Hrun Hl; [|split; [done|discriminate]]. st_unless Hrun Hf; [|split; [done|discriminate]].
  apply andb_true_iff in Hk as [Hk1%Z.leb_le Hk2%Z.ltb_lt]. apply Z.ltb_lt in H0. apply Z.leb_le in Hf.
  assert (plain (u_media u)) as Hp by (apply (mi_ids _ _ Hinv), dget_elem; eauto).
  assert (k < m_chunk_count m - 1 -> Z.of_nat (length data) = wire_chunk_size (m_encrypted m)) as Hfull.
  { intros Hlt. apply orb_true_iff in Hl as [Hl%Z.eqb_eq|Hl%Z.eqb_eq]; [lia|done]. }
  st_step Hrun; apply (store_chunk_inv _ _ _ _ _ m) in H1 as (E & Hsm & Hinv1 & Hc); try done; try lia.
  st_write Hrun. st_read Hrun.
  st_write Hrun. injection Hrun as <- <-.
  split; [discriminate|]. intros resp [= <-]. exists u, m. rewrite <- Hsm in Hm.
  split_and!; try done.
  - by rewrite <- Hsm.
  - apply with_uploads_inv. eapply set_media_same_shape; try done; by right.
  - cbn [sv_media with_uploads set_media with_media]. by rewrite dget_dset_eq.
  - cbn [sv_uploads with_uploads]. by rewrite dget_dset_eq.
  - apply orb_true_iff in Hl as [Hl%Z.eqb_eq|Hl%Z.eqb_eq]; [by left|by right].
Qed.

Lemma read_chunks_run i l s s' r :
  plain i -> (forall c, c ∈ l -> c_storage c = chunk_storage_key i (c_index c) /\ 0 <= c_index c) ->
  read_chunks root l s = (s', r) ->
  s' = s /\ forall content, r = inl content ->
    exists parts, Forall2 (fun c data => object s i (c_index c) = Some data) l parts /\ content = concat parts.
Proof.
  intros Hp. revert s' r. induction l as [|c l IH]; intros s' r Hl Hrun; cbn [read_chunks] in Hrun.
  { injection Hrun as <- <-. split; [done|]. intros content [= <-]. exists []. split; [constructor|done]. }
  destruct (Hl c) as [Hst Hk]; [by left|].
  assert (forall s1 a, store_get root (c_storage c) s = (s1, a) ->
            s1 = s /\ forall d, a = inl d -> object s i (c_index c) = Some d) as Hget.
  { intros s1 a H1. unfold store_get in H1. rewrite Hst, store_path_chunk in H1 by done. st_read H1.
    st_read H1. unfold object. destruct (sv_store s !! _); injection H1 as <- <-; [|done].
    split; [done|]. by intros d [= <-]. }
  st_step Hrun; apply Hget in H1 as [-> Ha]; [|split; [done|discriminate]].
  st_step Hrun; apply IH in H1 as [-> Hrest]; try (intros; apply Hl; by right); [|split; [done|discriminate]].
  injection Hrun as <- <-. split; [done|]. intros content [= <-].
  destruct (Hrest _ eq_refl) as (parts & H2 & ->). exists (a :: parts). split; [|done].
  constructor; [by apply Ha|done].
Qed.

Lemma set_media_sealed s i j m m' : sealed s i m -> sealed (set_media j m' s) i m.
Proof. intros Hs. by apply (sealed_frame s). Qed.

Lemma complete_run now uid declared s s' r :
  complete root sha256_hex now uid declared s = (s', r) -> media_inv s ->
  sv_store s' = sv_store s /\
  forall resp, r = inl resp -> exists u m,
    dget (sv_uploads s) uid = Some u /\ dget (sv_media s) (u_media u) = Some m /\
    s' = set_media (u_media u) (seal now (u_media u) declared (cp_size resp) m) s /\
    sealed s (u_media u) (seal now (u_media u) declared (cp_size resp) m) /\ media_inv s'.
Proof.
  intros Hrun Hinv. unfold complete in Hrun.
  st_step Hrun; apply session_and_media_inv in H1 as [-> H1]; [|split; [done|discriminate]].
  destruct H1 as [[e ?]|(u & m & [= ->] & Hu & _ & Hm)]; [discriminate|]. cbv beta iota zeta in Hrun.
  assert (plain (u_media u)) as Hp by (apply (mi_ids _ _ Hinv), dget_elem; eauto).
  st_read Hrun. st_unless Hrun Hmiss; [|split; [done|discriminate]].
  apply bool_decide_eq_true in Hmiss. pose proof (missing_none _ _ Hmiss) as Hcover.
  assert (forall c, c ∈ chunks_of s (u_media u) -> c_storage c = chunk_storage_key (u_media u) (c_index c) /\
            0 <= c_index c < m_chunk_count m) as Hch.
  { intros c [Hin Hi]%elem_of_chunks. pose proof (mi_chunks _ _ Hinv) as Hall. rewrite Forall_forall in Hall.
    split; [rewrite <- Hi; apply (co_storage _ _ (Hall c Hin))|]. by eapply chunk_bounds. }
  assert (map c_index (chunks_of s (u_media u)) = map Z.of_nat (seq 0 (Z.to_nat (m_chunk_count m)))) as Hrange.
  { apply indexes_are_range; [apply chunks_of_sorted|apply chunk_indexes_nodup, Hinv| |done].
    intros c Hc. by apply Hch. }
  assert (forall c, c ∈ chunks_of s (u_media u) -> c_storage c = chunk_storage_key (u_media u) (c_index c) /\
            0 <= c_index c) as Hkeys.
  { intros c Hc. destruct (Hch c Hc). split; [done|lia]. }
  st_step Hrun; apply (read_chunks_run _ _ _ _ _ Hp Hkeys) in H1 as [-> Hread]; [|split; [done|discriminate]].
  destruct (Hread _ eq_refl) as (parts & Hparts & ->). clear Hread.
  destruct (str_eqb (sha256_hex (concat parts)) declared) eqn:Eh; cbn [negb] in Hrun.
  2: { st_write Hrun. injection Hrun as <- <-. split; [done|discriminate]. }
  apply str_eqb_eq in Eh. st_write Hrun. injection Hrun as <- <-.
  split; [done|]. intros resp [= <-]. exists u, m. cbn [cp_size].
  assert (sealed s (u_media u) (seal now (u_media u) declared (Z.of_nat (length (concat parts))) m)) as Hseal.
  { split; [done|]. exists parts. split; [done|]. cbn [seal m_hash m_size]. by rewrite Eh. }
  rewrite Eh. split_and!; try done. eapply set_media_same_shape; try done. by left.
Qed.

(** *** Opening a session *)

(** Steps that leave files, chunks and objects alone. *)
Definition files_same (s s' : server) : Prop :=
  sv_media s' = sv_media s /\ sv_chunks s' = sv_chunks s /\ sv_store s' = sv_store s.

#[local] Instance files_same_refl : Reflexive files_same.
Proof. by intros s. Qed.
#[local] Instance files_same_trans : Transitive files_same.
Proof. intros a b c (H1 & H2 & H3) (H4 & H5 & H6). split_and!; by etrans. Qed.

Lemma files_same_inv e s s' : files_same s s' -> media_inv_but e s -> media_inv_but e s'.
Proof. intros (H1 & H2 & H3). by apply media_inv_same. Qed.

Lemma checks_same rq p :
  along files_same (check_media_key rq) /\ along files_same (check_recipients p rq) /\
  along files_same (store_wraps (rq_media rq) rq) /\ along files_same (drop_wraps (rq_media rq)) /\
  forall now, along files_same (open_window ulid ttl now (rq_media rq)).
Proof.
  assert (forall A (f : server -> A), along files_same (asks (E:=media_error) f)) as Hasks
    by (intros; by apply along_asks).
  assert (forall f : server -> server, (forall s, files_same s (f s)) -> along files_same (writes (E:=media_error) f)) as Hw
    by (intros; by apply along_writes).
  unfold check_media_key, check_recipients, store_wraps, drop_wraps, open_window, new_ulid. split_and!.
  - destruct (negb _); [by apply along_ret|]. apply along_bind; [apply _|by apply along_unless|].
    intros; by apply along_unless.
  - apply along_bind; [apply _|done|]. intros; by apply along_unless.
  - by apply Hw.
  - by apply Hw.
  - intros now. apply along_bind; [apply _|done|]. intros [[i u]|].
    + apply along_bind; [apply _|by apply Hw|]. intros; by apply along_ret.
    + apply along_bind; [apply _| |].
      * apply along_bind; [apply _|done|]. intros n. apply along_bind; [apply _|by apply Hw|].
        intros; by apply along_ret.
      * intros i. apply along_bind; [apply _|by apply Hw|]. intros; by apply along_ret.
Qed.

(** The row a session leaves for its file. *)
Definition opened (s : server) (rq : upload_request) : media :=
  match dget (sv_media s) (rq_media rq) with
  | None => new_media rq
  | Some m =>
      if bool_decide (m_status m = Complete) then m
      else match received_indexes s (rq_media rq) with [] => resume rq (restate rq m) | _ => resume rq m end
  end.

Lemma no_chunks s i c : received_indexes s i = [] -> c ∈ sv_chunks s -> c_media c <> i.
Proof.
  intros Hnil Hc Hi. assert (c ∈ chunks_of s i) as Hin by (by apply elem_of_chunks).
  unfold received_indexes in Hnil. apply map_eq_nil in Hnil. rewrite Hnil in Hin. by apply not_elem_of_nil in Hin.
Qed.

Lemma opened_inv s rq :
  plain (rq_media rq) -> media_inv s -> media_inv (set_media (rq_media rq) (opened s rq) s).
Proof.
  intros Hp Hinv. unfold opened. destruct (dget (sv_media s) (rq_media rq)) as [m|] eqn:Em.
  - case_bool_decide as Hst.
    + eapply set_media_same_shape; try done; [by left|]. intros _. by apply (mi_sealed _ _ Hinv).
    + destruct (received_indexes s (rq_media rq)) eqn:Er.
      * eapply set_media_inv; try done; [|by left]. intros c Hc Hi. by eapply no_chunks in Hi.
      * eapply set_media_same_shape; try done. by left.
  - eapply set_media_inv; try done; [|by left]. intros c Hc Hi. exfalso.
    pose proof (mi_chunks _ _ Hinv) as Hall. rewrite Forall_forall in Hall.
    destruct (co_media _ _ (Hall c Hc)) as (m & Hm & _). congruence.
Qed.

Lemma reopen_media_run rq m s s' r :
  dget (sv_media s) (rq_media rq) = Some m -> reopen_media rq m s = (s', r) ->
  (forall e, r = inr e -> s' = s) /\
  (forall x, r = inl x -> files_same (set_media (rq_media rq) (opened s rq) s) s' \/ s' = s /\ opened s rq = m).
Proof.
  intros Hm Hrun. unfold reopen_media in Hrun. unfold opened. rewrite Hm.
  st_unless Hrun Hok; [|split; [done|discriminate]].
  case_bool_decide as Hst; [injection Hrun as <- <-; split; [done|by right]|]. st_read Hrun.
  destruct (received_indexes s (rq_media rq)) eqn:Er.
  - st_write Hrun. st_write Hrun. injection Hrun as <- <-. split; [done|by left].
  - injection Hrun as <- <-. split; [done|by left].
Qed.

(** What follows the choice of row: a window and a reading of the result. *)
Lemma open_tail_same now rq s s' r :
  (window ← open_window ulid ttl now (rq_media rq);
   received ← asks (fun s => received_indexes s (rq_media rq));
   stored ← asks (fun s => dget (sv_media s) (rq_media rq));
   m ← found StoreError stored;
   mret (UploadResponse window.1 (rq_media rq) CHUNK_SIZE_BYTES (m_chunk_count m) received (m_status m)
           (u_expires window.2))) s = (s', r) -> files_same s s'.
Proof.
  destruct (checks_same rq []) as (_ & _ & _ & _ & Hwin). revert s s' r.
  apply along_bind; [apply _|apply Hwin|]. intros u.
  apply along_bind; [apply _|by apply along_asks|]. intros b. apply along_bind; [apply _|by apply along_asks|].
  intros o. apply along_bind; [apply _|by apply along_found|]. intros m. by apply along_ret.
Qed.

Lemma open_session_run now rq s s' r :
  open_session ulid ttl now rq s = (s', r) ->
  sv_store s' = sv_store s /\
  forall resp, r = inl resp ->
    files_same (set_media (rq_media rq) (opened s rq) s) s' \/
    files_same s s' /\ dget (sv_media s) (rq_media rq) = Some (opened s rq).
Proof.
  intros Hrun. unfold open_session in Hrun.
  st_read Hrun. st_found Hrun d Hd; [|by split]. st_unless Hrun Hrev; [|by split].
  st_read Hrun. st_found Hrun sb Hsb; [|by split]. st_unless Hrun Hpr; [|by split].
  st_step Hrun; [|destruct (checks_same rq []) as (Hc & _); apply Hc in H1 as (_ & _ & ->); by split].
  destruct (checks_same rq []) as (Hc & _). apply Hc in H1 as Hs1. clear Hc.
  assert (s1 = s) as ->.
  { unfold check_media_key in H1. destruct (negb (rq_encrypted rq)); [by injection H1|].
    st_unless H1 Hb. by apply unless_run in H1 as [-> _]. }
  assert (forall s1 r1, check_recipients (dv_project d) rq s = (s1, r1) -> s1 = s) as Hr.
  { intros s1 r1 H. unfold check_recipients in H. st_read H. by apply unless_run in H as [-> _]. }
  st_step Hrun; apply Hr in H0 as ->; [|by split]. st_read Hrun.
  destruct (dget (sv_media s) (rq_media rq)) as [m|] eqn:Em.
  - st_step Hrun; apply reopen_media_run in H0 as [He Hok]; try done.
    + apply open_tail_same in Hrun. destruct (Hok _ eq_refl) as [Hf|[-> Ho]].
      * assert (files_same (set_media (rq_media rq) (opened s rq) s) s') as Hfs by (by etrans).
        split; [apply Hfs|]. intros; by left.
      * split; [apply Hrun|]. intros. right. by rewrite Ho.
    + rewrite (He _ eq_refl). by split.
  - st_step Hrun; [|st_write H0; discriminate]. st_write H0. injection H0 as <- <-. apply open_tail_same in Hrun.
    assert (files_same (set_media (rq_media rq) (opened s rq) s) s') as Hfs.
    { unfold opened. rewrite Em. etrans; [|exact Hrun]. done. }
    split; [apply Hfs|]. intros; by left.
Qed.

(** *** References *)

Lemma register_one_inv seen s r :
  plain (mr_media r) -> media_inv s -> media_inv (register_one (seen, s) r).2.
Proof.
  intros Hp Hinv. unfold register_one. case_bool_decide; [done|]. cbn [snd].
  destruct (dget (sv_media s) (mr_media r)) as [m|] eqn:Em.
  - destruct (str_eqb _ _); [|done]. apply (set_media_same_shape None s (mr_media r) m); try done.
    { by left. }
    intros Hst. destruct (mi_sealed _ _ Hinv (mr_media r) m) as [H1 H2]; done.
  - eapply set_media_inv; try done; [|by left]. intros c Hc Hi. exfalso.
    pose proof (mi_chunks _ _ Hinv) as Hall. rewrite Forall_forall in Hall.
    destruct (co_media _ _ (Hall c Hc)) as (m & Hm & _). congruence.
Qed.

Lemma register_inv refs s :
  Forall (fun r => plain (mr_media r)) refs -> media_inv s -> media_inv (register_pending_references refs s).
Proof.
  unfold register_pending_references. generalize (@nil pystr). revert s.
  induction refs as [|r refs IH]; intros s seen Hp Hinv; [done|]. cbn [fold_left].
  apply Forall_cons_1 in Hp as [Hr Hrefs].
  pose proof (register_one_inv seen s r Hr Hinv) as H. destruct (register_one (seen, s) r) as [seen' s'].
  by apply IH.
Qed.

(** ** The protocol as steps: any interleaving of the four calls *)

Inductive media_step (s : server) : server -> Prop :=
| media_open now rq : plain (rq_media rq) -> media_step s (transact (open_session ulid ttl now rq) s).1
| media_put now uid k data : media_step s (transact (put_chunk root sha256_hex now uid k data) s).1
| media_complete now uid declared : media_step s (transact (complete root sha256_hex now uid declared) s).1
| media_refer refs : Forall (fun r => plain (mr_media r)) refs -> media_step s (register_pending_references refs s).

Lemma rolled_back_inv s s' : sv_store s' = sv_store s -> media_inv s -> media_inv (with_store (sv_store s') s).
Proof. intros E. by apply media_inv_same. Qed.

Lemma media_step_inv s s' : media_step s s' -> media_inv s -> media_inv s'.
Proof.
  intros Hstep Hinv. destruct Hstep as [now rq Hp|now uid k data|now uid declared|refs Hp]; [| | |by apply register_inv].
  - unfold transact. destruct (open_session _ _ _ _ _) as [s' [a|e]] eqn:E; apply open_session_run in E as [Hst Hok];
      [|by apply rolled_back_inv]. destruct (Hok _ eq_refl) as [Hf|[Hf _]]; eapply files_same_inv; try done.
    by apply opened_inv.
  - unfold transact. destruct (put_chunk _ _ _ _ _ _ _) as [s' [a|e]] eqn:E; apply put_chunk_run in E as [He Hok]; try done.
    + destruct (Hok _ eq_refl) as (u & m & _ & _ & _ & _ & Hinv' & _). done.
    + apply rolled_back_inv; [|done]. by rewrite (He _ eq_refl).
  - unfold transact. destruct (complete _ _ _ _ _ _) as [s' [a|e]] eqn:E; apply complete_run in E as [Hst Hok]; try done.
    + destruct (Hok _ eq_refl) as (u & m & _ & _ & _ & _ & Hinv'). done.
    + by apply rolled_back_inv.
Qed.

Inductive media_steps (s : server) : server -> Prop :=
| media_done : media_steps s s
| media_more s1 s2 : media_steps s s1 -> media_step s1 s2 -> media_steps s s2.

Lemma media_steps_inv s s' : media_steps s s' -> media_inv s -> media_inv s'.
Proof. induction 1; [done|]. intros. eapply media_step_inv; eauto. Qed.

(** A server that holds no media satisfies it. *)
Lemma no_media_inv s : sv_media s = [] -> sv_chunks s = [] -> media_inv s.
Proof.
  intros Em Ec. split; rewrite ?Em, ?Ec; [|apply NoDup_nil_2|apply Forall_nil_2|done].
  intros i Hi. by apply not_elem_of_nil in Hi.
Qed.

(** ** Re-sending *)

Lemma find_chunk_of_key s i k c :
  NoDup (map chunk_key (sv_chunks s)) -> c ∈ sv_chunks s -> chunk_key c = (i, k) -> find_chunk s i k = Some c.
Proof.
  intros Hn Hc Hk. pose proof (find_chunk_spec s i k) as Hf. destruct (find_chunk s i k) as [d|]; [|by apply Hf in Hc].
  destruct Hf as [Hd Hdk]. f_equal. revert Hn Hc Hd Hk Hdk. generalize (sv_chunks s). intros l.
  induction l as [|x l IH]; [set_solver|]. cbn [map]. intros [Hx Hn]%NoDup_cons.
  assert (forall y, y ∈ l -> chunk_key y <> chunk_key x) as Hy.
  { intros y Hy E. apply Hx. rewrite <- E. apply list_elem_of_In, in_map. by apply list_elem_of_In. }
  intros [->|Hc]%elem_of_cons [->|Hd]%elem_of_cons Hk Hdk; [done| | |by apply IH].
  - apply Hy in Hd. congruence.
  - apply Hy in Hc. congruence.
Qed.

Lemma put_chunk_again now uid k data s s1 resp :
  media_inv s -> put_chunk root sha256_hex now uid k data s = (s1, inl resp) ->
  put_chunk root sha256_hex now uid k data s1 = (s1, inl resp).
Proof.
  intros Hinv Hrun. apply put_chunk_run in Hrun as [_ Hok]; [|done].
  destruct (Hok _ eq_refl) as (u & m & _ & _ & Hnow & Hk & Hinv1 & Hm1 & (c & Hc & Hck & Hch) & Hu1 & -> & Hl & Hsz).
  cbn [cr_received] in Hu1. pose proof (mi_nodup _ _ Hinv1) as Hnd.
  unfold put_chunk, session_and_media, store_chunk, asks, unless, found, writes, refuse, mbind, ST_bind, mret, ST_ret.
  rewrite Hu1. cbn [u_expires u_media u_chunk_size]. rewrite (proj2 (Z.leb_gt _ _)) by lia. cbn [negb].
  rewrite Hm1. cbn [set_status m_chunk_count m_encrypted].
  rewrite (proj2 (Z.leb_le _ _)), (proj2 (Z.ltb_lt _ _)) by lia. cbn [andb].
  rewrite (proj2 (Z.ltb_lt _ _)) by lia.
  assert ((k =? m_chunk_count m - 1) || (Z.of_nat (length data) =? wire_chunk_size (m_encrypted m)) = true) as ->.
  { apply orb_true_iff. rewrite !Z.eqb_eq. done. }
  rewrite (proj2 (Z.leb_le _ _)) by lia.
  cbn [u_media u_chunk_size u_expires].
  rewrite (find_chunk_of_key s1 (u_media u) k c) by done. unfold chunk_hash. rewrite Hch, str_eqb_refl.
  assert (set_media (u_media u) (set_status Uploading (set_status Uploading m)) s1 = s1) as ->.
  { unfold set_media. rewrite dset_same_get by done. by destruct s1. }
  f_equal. unfold with_uploads. rewrite dset_same_get by done. by destruct s1.
Qed.

(** ** What completing a file decides *)

(** The stored bytes of a file, chunk after chunk. *)
Definition file_content (s : server) (i : pystr) (count : Z) : list N :=
  concat (map (fun k => default [] (object s i (Z.of_nat k))) (seq 0 (Z.to_nat count))).

Definition complete_outcome (s : server) (i : pystr) (m : media) (declared : pystr) : complete_response + media_error :=
  let content := file_content s i (m_chunk_count m) in
  match missing_chunks (m_chunk_count m) (received_indexes s i) with
  | _ :: _ => inr (MediaError 409 "chunks_missing")
  | [] =>
      if str_eqb (sha256_hex content) declared
      then inl (CompleteResponse i declared (Z.of_nat (length content)) (m_chunk_count m) Complete)
      else inr (MediaError 422 "hash_mismatch")
  end.

Lemma read_chunks_ok s i l :
  plain i -> (forall c, c ∈ l -> chunk_ok s c /\ c_media c = i /\ 0 <= c_index c) ->
  read_chunks root l s = (s, inl (concat (map (fun c => default [] (object s i (c_index c))) l))).
Proof.
  intros Hp. induction l as [|c l IH]; intros Hl; [done|]. cbn [read_chunks map concat].
  destruct (Hl c) as ([_ Hst (data & Ho & _)] & Ei & Hk); [by left|]. rewrite Ei in Ho, Hst.
  unfold store_get, found, asks, mbind, ST_bind, mret, ST_ret. rewrite Hst, store_path_chunk by done.
  unfold object in Ho |- *. rewrite Ho. cbn [default]. rewrite IH by (intros; apply Hl; by right). done.
Qed.

Lemma complete_decides now uid declared s u m :
  media_inv s -> dget (sv_uploads s) uid = Some u -> now < u_expires u -> dget (sv_media s) (u_media u) = Some m ->
  (complete root sha256_hex now uid declared s).2 = complete_outcome s (u_media u) m declared.
Proof.
  intros Hinv Hu Hnow Hm. assert (plain (u_media u)) as Hp by (apply (mi_ids _ _ Hinv), dget_elem; eauto).
  assert (forall c, c ∈ chunks_of s (u_media u) -> chunk_ok s c /\ c_media c = u_media u /\ 0 <= c_index c < m_chunk_count m) as Hch.
  { intros c [Hin Hi]%elem_of_chunks. pose proof (mi_chunks _ _ Hinv) as Hall. rewrite Forall_forall in Hall.
    split; [by apply Hall|]. split; [done|]. by eapply chunk_bounds. }
  unfold complete, complete_outcome, session_and_media, received_indexes.
  unfold asks, unless, found, writes, refuse, mbind, ST_bind, mret, ST_ret.
  rewrite Hu, (proj2 (Z.leb_gt _ _)) by lia. cbn [negb]. rewrite Hm.
  destruct (missing_chunks (m_chunk_count m) (map c_index (chunks_of s (u_media u)))) as [|k ks] eqn:Emiss; [|done].
  cbn [length]. rewrite bool_decide_eq_true_2 by done.
  rewrite (read_chunks_ok s (u_media u) _ Hp) by (intros c Hc; destruct (Hch c Hc) as (? & ? & ?); split_and!; try done; lia).
  assert (map c_index (chunks_of s (u_media u)) = map Z.of_nat (seq 0 (Z.to_nat (m_chunk_count m)))) as Hrange.
  { apply indexes_are_range; [apply chunks_of_sorted|apply chunk_indexes_nodup, Hinv| |].
    - intros c Hc. by apply Hch.
    - apply missing_none. by rewrite Emiss. }
  assert (concat (map (fun c => default [] (object s (u_media u) (c_index c))) (chunks_of s (u_media u))) =
          file_content s (u_media u) (m_chunk_count m)) as ->.
  { unfold file_content. rewrite <- (map_map c_index (fun k => default [] (object s (u_media u) k))), Hrange, map_map. done. }
  destruct (str_eqb (sha256_hex _) declared) eqn:Eh; cbn [negb snd]; [|done]. apply str_eqb_eq in Eh. by rewrite Eh.
Qed.

End Facts.
