(* ===== verification/Identity.v ===== *)
(** * People, sessions and the principal of a request

    The tables of organisations, people, memberships, roles, grants, teams and
    sessions (auth/models.py, projects/models.py); the principal a person's
    live grants amount to and the row-level policies that read it
    (migrations/schema/010_people.sql with 008, 011 and 015); signing in,
    resolving a session, signing out (auth/service.py); and the guard of a
    route (api/access.py).

    A policy is a predicate on a row, the tables and the principal.  A
    statement whose new row the policy refuses raises, one that breaks a
    constraint raises after it, and a row the policy hides is not there. *)

From S2P Require Import Prelude PyStr Value DatasetKeys Server Catalog.

(** ** Rows *)

Inductive scope := OrganizationScope | ProjectScope | TeamScope.
Inductive membership_kind := Permanent | Temporary.
Inductive standing := Active | PendingApproval | Deactivated.
Inductive session_kind := Console | App.

#[global] Instance scope_eq_dec : EqDecision scope.
Proof. solve_decision. Defined.
#[global] Instance standing_eq_dec : EqDecision standing.
Proof. solve_decision. Defined.
#[global] Instance membership_kind_eq_dec : EqDecision membership_kind.
Proof. solve_decision. Defined.
#[global] Instance session_kind_eq_dec : EqDecision session_kind.
Proof. solve_decision. Defined.

Record organization := PlatformOrganization { oz_id : pystr; oz_slug : pystr }.

Record person := PlatformUser {
  us_id : pystr;
  us_org : pystr;
  us_username : option pystr;
  us_display_name : pystr;
  us_password_hash : option pystr;
  us_created_by : option pystr;
  us_last_login : option Z
}.

Record membership := PlatformOrgMembership {
  mb_org : pystr;
  mb_user : pystr;
  mb_status : standing;
  mb_kind : membership_kind;
  mb_created_by : option pystr;
  mb_approved_by : option pystr;
  mb_approved_at : option Z;
  mb_deactivated_at : option Z
}.

Record role := RoleRow {
  re_id : pystr;
  re_org : pystr;
  re_name : pystr;
  re_scope : scope;
  re_builtin : bool
}.

Record user_role := UserRole {
  ur_id : pystr;
  ur_user : pystr;
  ur_role : pystr;
  ur_scope : scope;
  ur_project : option pystr;
  ur_team : option pystr;
  ur_granted_by : option pystr;
  ur_revoked_at : option Z
}.

Record team := TeamRow { te_id : pystr; te_project : pystr; te_name : pystr; te_parent : option pystr }.

Record member := ProjectMember {
  pm_project : pystr;
  pm_user : pystr;
  pm_team : option pystr;
  pm_active : bool;                        (* [status = 'active'], else ['removed'] *)
  pm_added_by : option pystr
}.

Record platform_session := PlatformSession {
  se_id : pystr;
  se_user : pystr;
  se_kind : session_kind;
  se_device : option pystr;
  se_token_hash : pystr;
  se_last_used : option Z;
  se_expires : Z;
  se_revoked : option Z
}.

Record handset := Handset {
  ha_id : pystr;
  ha_project : pystr;
  ha_user : option pystr;
  ha_revoked : bool
}.

#[global] Instance membership_eq_dec : EqDecision membership.
Proof. solve_decision. Defined.
#[global] Instance user_role_eq_dec : EqDecision user_role.
Proof. solve_decision. Defined.

Record directory := Directory {
  di_orgs : list organization;
  di_people : list person;
  di_memberships : list membership;
  di_roles : list role;
  di_permissions : list (pystr * pystr);   (* [role_permission] *)
  di_grants : list user_role;
  di_projects : list (pystr * pystr);      (* id, organisation *)
  di_teams : list team;
  di_members : list member;
  di_sessions : list platform_session;
  di_handsets : list handset;
  di_issued : N                            (* identifiers handed out by [new_ulid] *)
}.

Definition with_people (x : list person) (d : directory) : directory :=
  Directory (di_orgs d) x (di_memberships d) (di_roles d) (di_permissions d) (di_grants d) (di_projects d)
    (di_teams d) (di_members d) (di_sessions d) (di_handsets d) (di_issued d).
Definition with_memberships (x : list membership) (d : directory) : directory :=
  Directory (di_orgs d) (di_people d) x (di_roles d) (di_permissions d) (di_grants d) (di_projects d)
    (di_teams d) (di_members d) (di_sessions d) (di_handsets d) (di_issued d).
Definition with_roles (x : list role) (d : directory) : directory :=
  Directory (di_orgs d) (di_people d) (di_memberships d) x (di_permissions d) (di_grants d) (di_projects d)
    (di_teams d) (di_members d) (di_sessions d) (di_handsets d) (di_issued d).
Definition with_permissions (x : list (pystr * pystr)) (d : directory) : directory :=
  Directory (di_orgs d) (di_people d) (di_memberships d) (di_roles d) x (di_grants d) (di_projects d)
    (di_teams d) (di_members d) (di_sessions d) (di_handsets d) (di_issued d).
Definition with_grants (x : list user_role) (d : directory) : directory :=
  Directory (di_orgs d) (di_people d) (di_memberships d) (di_roles d) (di_permissions d) x (di_projects d)
    (di_teams d) (di_members d) (di_sessions d) (di_handsets d) (di_issued d).
Definition with_teams (x : list team) (d : directory) : directory :=
  Directory (di_orgs d) (di_people d) (di_memberships d) (di_roles d) (di_permissions d) (di_grants d)
    (di_projects d) x (di_members d) (di_sessions d) (di_handsets d) (di_issued d).
Definition with_members (x : list member) (d : directory) : directory :=
  Directory (di_orgs d) (di_people d) (di_memberships d) (di_roles d) (di_permissions d) (di_grants d)
    (di_projects d) (di_teams d) x (di_sessions d) (di_handsets d) (di_issued d).
Definition with_sessions (x : list platform_session) (d : directory) : directory :=
  Directory (di_orgs d) (di_people d) (di_memberships d) (di_roles d) (di_permissions d) (di_grants d)
    (di_projects d) (di_teams d) (di_members d) x (di_handsets d) (di_issued d).
Definition with_handsets (x : list handset) (d : directory) : directory :=
  Directory (di_orgs d) (di_people d) (di_memberships d) (di_roles d) (di_permissions d) (di_grants d)
    (di_projects d) (di_teams d) (di_members d) (di_sessions d) x (di_issued d).
Definition with_issued (x : N) (d : directory) : directory :=
  Directory (di_orgs d) (di_people d) (di_memberships d) (di_roles d) (di_permissions d) (di_grants d)
    (di_projects d) (di_teams d) (di_members d) (di_sessions d) (di_handsets d) x.

(** ** The principal *)

Record principal := Principal {
  pn_org : pystr;
  pn_slug : pystr;
  pn_user : pystr;
  pn_scope : option scope;                 (* [''] is none *)
  pn_visible : list pystr;
  pn_permissions : list pystr;
  pn_projects : list pystr;
  pn_teams : list pystr
}.

Definition NOBODY : principal := Principal [] [] [] None [] [] [] [].

(** [Principal(org_id=..., org_slug=...)]: an organisation and nobody in it. *)
Definition organization_only (org_id slug : pystr) : principal := Principal org_id slug [] None [] [] [] [].

(** [role_permission_name_check] *)
Definition PERMISSIONS : list pystr :=
  map lit ["user.create"; "user.approve"; "user.deactivate"; "user.assign_role"; "team.manage"; "sample.upload";
           "sample.assign"; "form.edit"; "form.publish"; "form.deploy"; "submission.view"; "submission.review";
           "export.download"; "device.revoke"; "project.manage"]%string.

(** [as_settings] and back: a list is declared comma-joined and read with
    [string_to_array], which gives nothing for the empty text. *)
Definition setting_list (l : list pystr) : list pystr :=
  match join (lit ",") l with [] => [] | declared => split_char 44 declared end.

Definition dcp_in_list (l : list pystr) (v : option pystr) : bool :=
  match v with Some v => bool_decide (v ∈ setting_list l) | None => false end.

Definition dcp_has (p : principal) (permission : pystr) : bool :=
  bool_decide (permission ∈ setting_list (pn_permissions p)).

Definition dcp_org_wide (p : principal) : bool := bool_decide (pn_scope p = Some OrganizationScope).

(** *** What a person's live grants amount to: [dcp_principal_for] *)

Definition grants_of (d : directory) (user : pystr) : list user_role :=
  List.filter (fun g => str_eqb (ur_user g) user && bool_decide (ur_revoked_at g = None)) (di_grants d).

(** Ids kept once, in order of first appearance. *)
Definition distinct (l : list pystr) : list pystr :=
  fold_left (fun found x => if bool_decide (x ∈ found) then found else found ++ [x]) l [].

(** The recursive term: the teams below those found that were not found yet. *)
Definition teams_below (teams : list team) (found : list pystr) : list pystr :=
  distinct (map te_id (List.filter (fun t =>
    match te_parent t with Some parent => bool_decide (parent ∈ found) | None => false end &&
    bool_decide (te_id t ∉ found)) teams)).

(** [WITH RECURSIVE teams]: each round finds a team or is the last. *)
Fixpoint team_closure (teams : list team) (fuel : nat) (found : list pystr) : list pystr :=
  match fuel with
  | O => found
  | S fuel =>
      match teams_below teams found with
      | [] => found
      | below => team_closure teams fuel (found ++ below)
      end
  end.

Definition granted_teams (d : directory) (user : pystr) : list pystr :=
  team_closure (di_teams d) (S (length (di_teams d))) (distinct (omap ur_team (grants_of d user))).

Definition granted_projects (d : directory) (user : pystr) : list pystr :=
  distinct (omap (fun g => if bool_decide (ur_scope g = ProjectScope) then ur_project g else None) (grants_of d user)).

(** [held] *)
Definition held_permissions (d : directory) (user : pystr) : list pystr :=
  distinct (concat (map (fun g =>
    map snd (List.filter (fun rp => str_eqb rp.1 (ur_role g)) (di_permissions d))) (grants_of d user))).

Definition widest_scope (grants : list user_role) : option scope :=
  let some s := existsb (fun g => bool_decide (ur_scope g = s)) grants in
  if some OrganizationScope then Some OrganizationScope
  else if some ProjectScope then Some ProjectScope
  else if some TeamScope then Some TeamScope
  else None.

(** Other people's work is a permission. *)
Definition visible_people (d : directory) (user : pystr) : list pystr :=
  distinct (user :: map pm_user (List.filter (fun m =>
    bool_decide (lit "submission.view" ∈ held_permissions d user) && pm_active m &&
    (bool_decide (pm_project m ∈ granted_projects d user) ||
     match pm_team m with Some t => bool_decide (t ∈ granted_teams d user) | None => false end)) (di_members d))).

(** [principal_for]; the order [array_agg] gives an array is read by nobody. *)
Definition principal_for (d : directory) (user org_id slug : pystr) : principal :=
  Principal org_id slug user (widest_scope (grants_of d user)) (visible_people d user) (held_permissions d user)
    (granted_projects d user) (granted_teams d user).

(** ** The policies *)

Section Policies.
Context (p : principal) (d : directory).

Definition may_hold_session (user : pystr) : bool :=
  existsb (fun m => str_eqb (mb_user m) user && bool_decide (mb_status m = Active) && str_eqb (mb_org m) (pn_org p))
    (di_memberships d).

Definition sees_person (u : person) : bool :=
  str_eqb (us_org u) (pn_org p) &&
  (dcp_org_wide p || dcp_in_list (pn_visible p) (Some (us_id u)) ||
   bool_decide (us_created_by u = Some (pn_user p)) || str_eqb (us_id u) (pn_user p)).

Definition may_write_person (u : person) : bool :=
  str_eqb (us_org u) (pn_org p) &&
  (dcp_org_wide p || dcp_in_list (pn_visible p) (Some (us_id u)) || str_eqb (us_id u) (pn_user p) ||
   bool_decide (us_created_by u = Some (pn_user p)) && dcp_has p "user.create").

(** [user_id IN (SELECT id FROM platform_user)], under that table's policy *)
Definition person_seen (user : pystr) : bool := existsb (fun u => str_eqb (us_id u) user && sees_person u) (di_people d).

Definition sees_membership (m : membership) : bool := str_eqb (mb_org m) (pn_org p) && person_seen (mb_user m).

Definition may_write_membership (m : membership) : bool :=
  sees_membership m &&
  match mb_status m with
  | PendingApproval => dcp_has p "user.create"
  | Active => dcp_has p "user.approve"
  | Deactivated => dcp_has p "user.deactivate"
  end.

Definition sees_session (s : platform_session) : bool := may_hold_session (se_user s).

Definition sees_role (r : role) : bool := str_eqb (re_org r) (pn_org p).
Definition may_write_role (r : role) : bool := sees_role r && dcp_has p "user.assign_role" && negb (re_builtin r).

Definition role_seen (i : pystr) : bool := existsb (fun r => str_eqb (re_id r) i && sees_role r) (di_roles d).

(** [(SELECT r.builtin FROM role r WHERE r.id = ...)], NULL where there is none *)
Definition builtin_of (i : pystr) : option bool :=
  re_builtin <$> List.find (fun r => str_eqb (re_id r) i && sees_role r) (di_roles d).

Definition may_write_permission (rp : pystr * pystr) : bool :=
  role_seen rp.1 && dcp_has p "user.assign_role" && dcp_has p rp.2 && bool_decide (builtin_of rp.1 = Some false).

Definition may_delete_permission (rp : pystr * pystr) : bool :=
  role_seen rp.1 && bool_decide (builtin_of rp.1 = Some false) && (dcp_has p "user.assign_role" && dcp_has p rp.2).

Definition project_seen (i : pystr) : bool := existsb (fun pr => str_eqb pr.1 i && str_eqb pr.2 (pn_org p)) (di_projects d).

Definition sees_team (t : team) : bool := project_seen (te_project t).

Definition may_write_team (t : team) : bool :=
  project_seen (te_project t) && dcp_has p "team.manage" &&
  (dcp_org_wide p || dcp_in_list (pn_projects p) (Some (te_project t)) || dcp_in_list (pn_teams p) (te_parent t)).

(** [team_id IN (SELECT t.id FROM team t WHERE ...)] *)
Definition team_of_my_projects (i : option pystr) : bool :=
  existsb (fun t => bool_decide (Some (te_id t) = i) && sees_team t && dcp_in_list (pn_projects p) (Some (te_project t)))
    (di_teams d).

Definition sees_grant (g : user_role) : bool := role_seen (ur_role g) && person_seen (ur_user g).

Definition may_write_grant (g : user_role) : bool :=
  sees_grant g && dcp_has p "user.assign_role" &&
  negb (existsb (fun rp => role_seen rp.1 && str_eqb rp.1 (ur_role g) && negb (dcp_has p rp.2)) (di_permissions d)) &&
  match ur_scope g with
  | OrganizationScope => dcp_org_wide p
  | ProjectScope => dcp_org_wide p || dcp_in_list (pn_projects p) (ur_project g)
  | TeamScope => dcp_org_wide p || dcp_in_list (pn_teams p) (ur_team g) || team_of_my_projects (ur_team g)
  end.

Definition sees_member (m : member) : bool := project_seen (pm_project m) && person_seen (pm_user m).

Definition may_write_member (m : member) : bool :=
  sees_member m &&
  (dcp_org_wide p || dcp_in_list (pn_projects p) (Some (pm_project m)) || dcp_in_list (pn_teams p) (pm_team m)).

End Policies.

(** ** Statements *)

Inductive login_failure := InvalidCredentials | DeviceRequired | DeviceUnknown | DeviceRevoked | PendingMembership
                         | DeactivatedMembership | NoMembership.

Inductive refusal :=
| PolicyRefuses                            (* ["row-level security" in str(error.orig)] *)
| Integrity                                (* [IntegrityError] *)
| Outside                                  (* [OUTSIDE], 403 *)
| NotFound                                 (* 404 *)
| AlreadyExists                            (* 409 *)
| LoginRefused (why : login_failure)
| NotSignedIn                              (* 401 *)
| Forbidden (reason : pystr)               (* 403 *)
| BadRequest                               (* 400 *)
| BadKeyRow (row : nat) (column : pystr)   (* 400: a sample row with no identity *)
| BadSample (reasons : list dataset_problem)
| Escaped (e : failure).                   (* what a catalog statement raised *)

Abbreviation DT := (ST directory refusal) (only parsing).

(** [async with session.begin()]: what raises is rolled back. *)
Definition transaction {S A} (m : ST S refusal A) : ST S refusal A := fun d =>
  match m d with
  | (d', inl a) => (d', inl a)
  | (_, inr e) => (d, inr e)
  end.

(** [_guarded]: a policy's refusal is [OUTSIDE]; the savepoint keeps what came
    before the statement. *)
Definition guarded {S A} (m : ST S refusal A) : ST S refusal A := fun d =>
  match m d with
  | (_, inr PolicyRefuses) => (d, inr Outside)
  | (_, inr e) => (d, inr e)
  | done => done
  end.

Definition insert_row {S} (policy constraints : S -> bool) (add : S -> S) : ST S refusal unit :=
  d ← asks id;
  unless (policy d) PolicyRefuses ≫= fun _ =>
  unless (constraints d) Integrity ≫= fun _ =>
  writes add.

(** [UPDATE ... WHERE]: the rows that match and are seen; each new row must
    pass the policy and the constraints.  The number of rows touched. *)
Definition update_rows {S A} (rows : S -> list A) (put : list A -> S -> S) (matches : S -> A -> bool) (set : A -> A)
    (policy : S -> A -> bool) (constraints : A -> bool) : ST S refusal nat :=
  d ← asks id;
  let touched := List.filter (matches d) (rows d) in
  unless (forallb (fun r => policy d (set r)) touched) PolicyRefuses ≫= fun _ =>
  unless (forallb (fun r => constraints (set r)) touched) Integrity ≫= fun _ =>
  writes (put (map (fun r => if matches d r then set r else r) (rows d))) ≫= fun _ =>
  mret (length touched).

Definition known_id {A} (key : A -> pystr) (i : option pystr) (rows : list A) : bool :=
  match i with Some i => present key i rows | None => true end.

(** The columns a unique index is over. *)
Definition membership_key (m : membership) : pystr * pystr := (mb_org m, mb_user m).
Definition member_key (m : member) : pystr * pystr := (pm_project m, pm_user m).
Definition role_key (r : role) : pystr * pystr := (re_org r, re_name r).
Definition live_key (g : user_role) : option (pystr * pystr * scope * pystr * pystr) :=
  match ur_revoked_at g with
  | None => Some (ur_user g, ur_role g, ur_scope g, default [] (ur_project g), default [] (ur_team g))
  | Some _ => None
  end.

(** [platform_org_membership]'s checks. *)
Definition membership_ok (m : membership) : bool :=
  Bool.eqb (bool_decide (mb_approved_by m = None)) (bool_decide (mb_approved_at m = None)) &&
  (negb (bool_decide (mb_status m = PendingApproval)) || bool_decide (mb_approved_at m = None)).

(** [user_role_scope_target_check] *)
Definition target_ok (g : user_role) : bool :=
  match ur_scope g with
  | OrganizationScope => bool_decide (ur_project g = None /\ ur_team g = None)
  | ProjectScope => bool_decide (ur_project g <> None /\ ur_team g = None)
  | TeamScope => bool_decide (ur_team g <> None)
  end.

Definition insert_person (p : principal) (u : person) : DT unit :=
  insert_row (fun _ => may_write_person p u)
    (fun d => fresh us_id u (di_people d) && present oz_id (us_org u) (di_orgs d) &&
              negb (existsb (fun v => bool_decide (us_username v = us_username u /\ us_username u <> None)) (di_people d)) &&
              known_id us_id (us_created_by u) (di_people d))
    (fun d => with_people (di_people d ++ [u]) d).

Definition insert_membership (p : principal) (m : membership) : DT unit :=
  insert_row (fun d => may_write_membership p d m)
    (fun d => fresh membership_key m (di_memberships d) && membership_ok m &&
              existsb (fun u => str_eqb (us_id u) (mb_user m) && str_eqb (us_org u) (mb_org m)) (di_people d) &&
              known_id us_id (mb_created_by m) (di_people d) && known_id us_id (mb_approved_by m) (di_people d))
    (fun d => with_memberships (di_memberships d ++ [m]) d).

Definition insert_grant (p : principal) (g : user_role) : DT unit :=
  insert_row (fun d => may_write_grant p d g)
    (fun d => fresh ur_id g (di_grants d) && target_ok g &&
              negb (existsb (fun h => bool_decide (live_key h = live_key g /\ live_key g <> None)) (di_grants d)) &&
              present us_id (ur_user g) (di_people d) && present re_id (ur_role g) (di_roles d) &&
              known_id fst (ur_project g) (di_projects d) && known_id te_id (ur_team g) (di_teams d) &&
              known_id us_id (ur_granted_by g) (di_people d))
    (fun d => with_grants (di_grants d ++ [g]) d).

Definition insert_member (p : principal) (m : member) : DT unit :=
  insert_row (fun d => may_write_member p d m)
    (fun d => fresh member_key m (di_members d) && present fst (pm_project m) (di_projects d) &&
              present us_id (pm_user m) (di_people d) && known_id te_id (pm_team m) (di_teams d) &&
              known_id us_id (pm_added_by m) (di_people d))
    (fun d => with_members (di_members d ++ [m]) d).

Definition insert_team (p : principal) (t : team) : DT unit :=
  insert_row (fun d => may_write_team p d t)
    (fun d => fresh te_id t (di_teams d) && present fst (te_project t) (di_projects d) &&
              known_id te_id (te_parent t) (di_teams d))
    (fun d => with_teams (di_teams d ++ [t]) d).

Definition insert_role (p : principal) (r : role) : DT unit :=
  insert_row (fun _ => may_write_role p r)
    (fun d => fresh re_id r (di_roles d) && fresh role_key r (di_roles d) && present oz_id (re_org r) (di_orgs d))
    (fun d => with_roles (di_roles d ++ [r]) d).

Definition insert_permission (p : principal) (rp : pystr * pystr) : DT unit :=
  insert_row (fun d => may_write_permission p d rp)
    (fun d => bool_decide (rp ∉ di_permissions d) && present re_id rp.1 (di_roles d) && bool_decide (rp.2 ∈ PERMISSIONS))
    (fun d => with_permissions (di_permissions d ++ [rp]) d).

(** [DELETE FROM role_permission]: the row, where it is seen and may go. *)
Definition delete_permission (p : principal) (rp : pystr * pystr) : DT nat :=
  d ← asks id;
  let goes x := bool_decide (x = rp) && may_delete_permission p d x in
  writes (with_permissions (List.filter (fun x => negb (goes x)) (di_permissions d))) ≫= fun _ =>
  mret (length (List.filter goes (di_permissions d))).

Definition insert_session (p : principal) (s : platform_session) : DT unit :=
  insert_row (fun d => sees_session p d s)
    (fun d => fresh se_id s (di_sessions d) && fresh se_token_hash s (di_sessions d) &&
              Bool.eqb (bool_decide (se_kind s = App)) (bool_decide (se_device s <> None)) &&
              present us_id (se_user s) (di_people d) && known_id ha_id (se_device s) (di_handsets d))
    (fun d => with_sessions (di_sessions d ++ [s]) d).

Section Auth.
Context (ulid : N -> pystr) (token_hash : pystr -> pystr) (argon2 : pystr -> pystr -> bool).

(** [new_ulid()] *)
Definition issue : DT pystr :=
  n ← asks di_issued;
  writes (with_issued (n + 1)%N) ≫= fun _ =>
  mret (ulid n).

(** ** Signing in *)

(** [verify_password] *)
Definition verify_password (stored_hash : option pystr) (password : pystr) : bool :=
  match stored_hash with
  | None | Some [] => false
  | Some h => argon2 h password
  end.

Record identity := Identity {
  ie_session : pystr;
  ie_user : pystr;
  ie_username : option pystr;
  ie_display_name : pystr;
  ie_kind : session_kind;
  ie_device : option pystr;
  ie_principal : principal;
  ie_expires : Z
}.

Record login_request := LoginRequest {
  lq_username : pystr;
  lq_password : pystr;
  lq_kind : session_kind;
  lq_device : option pystr
}.

(** [dcp_login_lookup] *)
Definition login_lookup (p : principal) (d : directory) (username : pystr) : option person :=
  List.find (fun u => bool_decide (us_username u = Some username) && str_eqb (us_org u) (pn_org p)) (di_people d).

(** What an app login asks of its device. *)
Definition device_problem (d : directory) (rq : login_request) : option login_failure :=
  match lq_kind rq, lq_device rq with
  | Console, _ => None
  | App, None => Some DeviceRequired
  | App, Some i =>
      match List.find (fun h => str_eqb (ha_id h) i) (di_handsets d) with
      | None => Some DeviceUnknown
      | Some h => if ha_revoked h then Some DeviceRevoked else None
      end
  end.

(** [dcp_membership_status], once the policy said no. *)
Definition named_refusal (p : principal) (d : directory) (user : pystr) : login_failure :=
  match List.find (fun m => str_eqb (mb_user m) user && str_eqb (mb_org m) (pn_org p)) (di_memberships d) with
  | Some m => match mb_status m with
              | PendingApproval => PendingMembership
              | Deactivated => DeactivatedMembership
              | Active => NoMembership
              end
  | None => NoMembership
  end.

(** The policy's refusal, named. *)
Definition naming (p : principal) (user : pystr) (m : DT unit) : DT unit := fun d =>
  match m d with
  | (_, inr PolicyRefuses) => (d, inr (LoginRefused (named_refusal p d user)))
  | (_, inr e) => (d, inr e)
  | done => done
  end.

(** [dcp_bind_device] *)
Definition bind_device (device : option pystr) (user : pystr) : DT unit :=
  writes (fun d => with_handsets (map (fun h =>
    if bool_decide (Some (ha_id h) = device) then Handset (ha_id h) (ha_project h) (Some user) (ha_revoked h) else h)
    (di_handsets d)) d).

Definition noted_login (now : Z) (u : person) : person :=
  PlatformUser (us_id u) (us_org u) (us_username u) (us_display_name u) (us_password_hash u) (us_created_by u) (Some now).

(** [dcp_note_login] *)
Definition note_login (p : principal) (now : Z) (user : pystr) : DT unit :=
  writes (fun d => with_people (map (fun u =>
    if str_eqb (us_id u) user && str_eqb (us_org u) (pn_org p) then noted_login now u else u) (di_people d)) d).

(** [login]; the token is the one [secrets.token_urlsafe] draws. *)
Definition login (p : principal) (now ttl : Z) (token : pystr) (rq : login_request) : DT identity :=
  d ← asks id;
  match login_lookup p d (lq_username rq) with
  | None => refuse (LoginRefused InvalidCredentials)
  | Some u =>
      unless (verify_password (us_password_hash u) (lq_password rq)) (LoginRefused InvalidCredentials) ≫= fun _ =>
      match device_problem d rq with
      | Some why => refuse (LoginRefused why)
      | None =>
          session_id ← issue;
          let device := match lq_kind rq with App => lq_device rq | Console => None end in
          naming p (us_id u)
            (insert_session p (PlatformSession session_id (us_id u) (lq_kind rq) device (token_hash token) None (now + ttl) None))
            ≫= fun _ =>
          match lq_kind rq with App => bind_device (lq_device rq) (us_id u) | Console => mret tt end ≫= fun _ =>
          note_login p now (us_id u) ≫= fun _ =>
          d ← asks id;
          mret (Identity session_id (us_id u) (us_username u) (us_display_name u) (lq_kind rq) device
                  (principal_for d (us_id u) (us_org u) (pn_slug p)) (now + ttl))
      end
  end.

(** ** Every request after that *)

Definition TOUCH_INTERVAL : Z := 300.

(** [dcp_session_lookup] *)
Definition session_lookup (p : principal) (d : directory) (now : Z) (token : pystr) : option (platform_session * person) :=
  s ← List.find (fun s => str_eqb (se_token_hash s) (token_hash token)) (di_sessions d);
  u ← List.find (fun u => str_eqb (us_id u) (se_user s)) (di_people d);
  if bool_decide (se_revoked s = None) && (now <? se_expires s) && str_eqb (us_org u) (pn_org p) && may_hold_session p d (se_user s)
  then Some (s, u) else None.

Definition touched (now expires : Z) (s : platform_session) : platform_session :=
  PlatformSession (se_id s) (se_user s) (se_kind s) (se_device s) (se_token_hash s) (Some now) expires (se_revoked s).

(** The expiry slides, at most every five minutes. *)
Definition stale (now : Z) (s : platform_session) : bool :=
  match se_last_used s with None => true | Some used => TOUCH_INTERVAL <? now - used end.

Definition resolve (p : principal) (now ttl : Z) (token : pystr) : DT (option identity) :=
  d ← asks id;
  match session_lookup p d now token with
  | None => mret None
  | Some (s, u) =>
      let expires := if stale now s then now + ttl else se_expires s in
      (if stale now s
       then update_rows di_sessions with_sessions (fun d r => str_eqb (se_id r) (se_id s) && sees_session p d r)
              (touched now expires) (sees_session p) (fun _ => true)
       else mret O) ≫= fun _ =>
      mret (Some (Identity (se_id s) (us_id u) (us_username u) (us_display_name u) (se_kind s) (se_device s)
                    (principal_for d (us_id u) (us_org u) (pn_slug p)) expires))
  end.

Definition signed_out (now : Z) (s : platform_session) : platform_session :=
  PlatformSession (se_id s) (se_user s) (se_kind s) (se_device s) (se_token_hash s) (se_last_used s) (se_expires s) (Some now).

(** [logout]: the row the policy shows, if it is live. *)
Definition logout (p : principal) (now : Z) (session_id : pystr) : DT unit :=
  update_rows di_sessions with_sessions
    (fun d s => str_eqb (se_id s) session_id && sees_session p d s && bool_decide (se_revoked s = None))
    (signed_out now) (sees_session p) (fun _ => true) ≫= fun _ =>
  mret tt.

(** [rescope_to_organization]: the one organisation with the slug. *)
Definition organization_of (d : directory) (slug : pystr) : option pystr :=
  oz_id <$> List.find (fun o => str_eqb (oz_slug o) slug) (di_orgs d).

(** The login's route: an organisation nobody has answers as a wrong password. *)
Definition login_route (now ttl : Z) (token slug : pystr) (rq : login_request) : DT identity :=
  d ← asks id;
  match organization_of d slug with
  | None => refuse (LoginRefused InvalidCredentials)
  | Some org => transaction (login (organization_only org slug) now ttl token rq)
  end.

(** [current_identity]: the cookies name an organisation and a session. *)
Definition current_identity (now ttl : Z) (slug : pystr) (token : option pystr) : DT (option identity) :=
  match token with
  | None => mret None
  | Some token =>
      d ← asks id;
      let p := match organization_of d slug with
               | Some org => organization_only org slug
               | None => organization_only [] slug
               end in
      transaction (resolve p now ttl token)
  end.

End Auth.

(** ** [access]: who may call a route *)

Record admission := Admission { am_permissions : list pystr; am_app : bool; am_signed_in : bool }.

Definition guard (a : admission) (i : option identity) : identity + refusal :=
  match i with
  | None => inr NotSignedIn
  | Some i =>
      if am_signed_in a then inl i
      else if am_app a && bool_decide (ie_kind i = App) then inl i
      else if negb (bool_decide (am_permissions a = [])) && bool_decide (ie_kind i = Console)
      then if existsb (fun x => bool_decide (x ∈ pn_permissions (ie_principal i))) (am_permissions a) then inl i
           else inr (Forbidden "permission_denied")
      else if am_app a && negb (bool_decide (ie_kind i = App)) then inr (Forbidden "app_session_required")
      else inr (Forbidden "permission_denied")
  end.

(** [bound_device] *)
Definition bound_device (i : identity) (device : pystr) : bool :=
  bool_decide (ie_kind i = App /\ ie_device i = Some device).
