(* ===== verification/People.v ===== *)
(** * People, teams and roles: people/service.py and its routes

    The service writes and the policies decide: a statement outside the
    asker's authority is [OUTSIDE], and the route rolls back.  [serve_person]
    is a request as the routes run it: the session resolved, the route's
    permission, the handler in one transaction.  The names a listing joins for
    display are left out of it. *)

From S2P Require Import Prelude PyStr Value Expression DatasetKeys Server Catalog Identity.

Section People.
Context (ulid : N -> pystr) (token_hash : pystr -> pystr) (argon2 : pystr -> pystr -> bool).
Context (hash_password : pystr -> pystr) (collate : pystr -> pystr -> comparison).

(** ** Reading *)

Record person_view := PersonView {
  pv_person : person;
  pv_membership : membership;
  pv_grants : list user_role;
  pv_teams : list (pystr * option pystr)   (* project, team *)
}.

(** Pending first, then by name and id. *)
Definition person_before (a b : person * membership) : bool :=
  let pending m := bool_decide (mb_status m = PendingApproval) in
  if Bool.eqb (pending a.2) (pending b.2)
  then match collate (us_display_name a.1) (us_display_name b.1) with
       | Lt => true
       | Gt => false
       | Eq => match collate (us_id a.1) (us_id b.1) with Gt => false | _ => true end
       end
  else pending a.2.

(** [list_people]: what the policies show of people, memberships, grants and
    teams. *)
Definition list_people (p : principal) (d : directory) : list person_view :=
  let rows := concat (map (fun u =>
    map (pair u) (List.filter (fun m => str_eqb (mb_user m) (us_id u) && sees_membership p d m) (di_memberships d)))
    (List.filter (sees_person p) (di_people d))) in
  map (fun um => PersonView um.1 um.2
      (List.filter (fun g => str_eqb (ur_user g) (us_id um.1) && bool_decide (ur_revoked_at g = None) && sees_grant p d g)
         (di_grants d))
      (map (fun m => (pm_project m, pm_team m))
         (List.filter (fun m => str_eqb (pm_user m) (us_id um.1) && pm_active m && sees_member p d m) (di_members d))))
    (sort_by person_before rows).

Definition get_person (p : principal) (user : pystr) : DT person_view :=
  d ← asks id;
  found NotFound (List.find (fun v => str_eqb (us_id (pv_person v)) user) (list_people p d)).

(** [session.get(RoleRow, ...)], [session.get(TeamRow, ...)] *)
Definition get_role (p : principal) (i : pystr) : DT role :=
  d ← asks id; found NotFound (List.find (fun r => str_eqb (re_id r) i && sees_role p r) (di_roles d)).
Definition find_team (p : principal) (d : directory) (i : pystr) : option team :=
  List.find (fun t => str_eqb (te_id t) i && sees_team p d t) (di_teams d).
Definition get_team (p : principal) (i : pystr) : DT team := d ← asks id; found NotFound (find_team p d i).

(** ** Writing people *)

Record create_person_request := CreatePersonRequest {
  cq_username : pystr;
  cq_display_name : pystr;
  cq_password : pystr;
  cq_role : pystr;
  cq_project : option pystr;
  cq_team : option pystr;
  cq_kind : membership_kind
}.

(** [principal.user_id or None] *)
Definition me (p : principal) : option pystr := match pn_user p with [] => None | u => Some u end.

(** [dcp_default_membership_status] *)
Definition default_status (p : principal) : standing := if dcp_has p "user.approve" then Active else PendingApproval.

(** An [IntegrityError] where the service names it. *)
Definition taken {A} (m : DT A) : DT A := fun d =>
  match m d with
  | (d', inr Integrity) => (d', inr AlreadyExists)
  | done => done
  end.

(** A grant of a role to a person, in the scope the role's kind names. *)
Definition grant_row (p : principal) (i user : pystr) (r : role) (project team : option pystr) : user_role :=
  UserRole i user (re_id r) (re_scope r)
    (match re_scope r with ProjectScope => project | _ => None end)
    (match re_scope r with TeamScope => team | _ => None end) (me p) None.

(** The team of a supervisor who names none and has one. *)
Definition team_for (p : principal) (r : role) (team : option pystr) : option pystr :=
  match re_scope r, team, pn_teams p with
  | TeamScope, None, [only] => Some only
  | _, _, _ => team
  end.

Definition create_person (p : principal) (rq : create_person_request) : DT person_view :=
  r ← get_role p (cq_role rq);
  let team_id := team_for p r (cq_team rq) in
  d ← asks id;
  let project_id := match cq_project rq, team_id with
                    | None, Some t => te_project <$> find_team p d t
                    | given, _ => given
                    end in
  user_id ← issue ulid;
  taken (guarded (insert_person p (PlatformUser user_id (pn_org p) (Some (cq_username rq)) (cq_display_name rq)
    (Some (hash_password (cq_password rq))) (me p) None))) ≫= fun _ =>
  guarded (insert_membership p
    (PlatformOrgMembership (pn_org p) user_id (default_status p) (cq_kind rq) (me p) None None None)) ≫= fun _ =>
  grant_id ← issue ulid;
  guarded (insert_grant p (grant_row p grant_id user_id r project_id team_id)) ≫= fun _ =>
  match project_id with
  | Some project => guarded (insert_member p (ProjectMember project user_id team_id true (me p)))
  | None => mret tt
  end ≫= fun _ =>
  get_person p user_id.

(** ** Memberships *)

Definition set_standing (s : standing) (approved_by : option pystr) (approved_at deactivated_at : option Z) (m : membership)
    : membership :=
  PlatformOrgMembership (mb_org m) (mb_user m) s (mb_kind m) (mb_created_by m) approved_by approved_at deactivated_at.

(** One [UPDATE platform_org_membership] of a person's row in some state. *)
Definition move_membership (p : principal) (user : pystr) (from : standing -> bool) (set : membership -> membership)
    : DT person_view :=
  touched ← guarded (update_rows di_memberships with_memberships
    (fun d m => str_eqb (mb_user m) user && str_eqb (mb_org m) (pn_org p) && from (mb_status m) && sees_membership p d m)
    set (may_write_membership p) membership_ok);
  unless (negb (touched =? 0)%nat) NotFound ≫= fun _ =>
  get_person p user.

Definition approve (p : principal) (now : Z) (user : pystr) : DT person_view :=
  move_membership p user (fun s => bool_decide (s = PendingApproval))
    (fun m => set_standing Active (me p) (Some now) (mb_deactivated_at m) m).

Definition deactivate (p : principal) (now : Z) (user : pystr) : DT person_view :=
  move_membership p user (fun s => bool_decide (s <> Deactivated))
    (fun m => set_standing Deactivated (mb_approved_by m) (mb_approved_at m) (Some now) m).

Definition reactivate (p : principal) (now : Z) (user : pystr) : DT person_view :=
  move_membership p user (fun s => bool_decide (s = Deactivated))
    (fun m => set_standing Active (me p) (Some now) None m).

(** ** Grants *)

Record grant_request := GrantRequest { gq_role : pystr; gq_project : option pystr; gq_team : option pystr }.

Definition grant (p : principal) (user : pystr) (rq : grant_request) : DT person_view :=
  r ← get_role p (gq_role rq);
  grant_id ← issue ulid;
  guarded (insert_grant p (grant_row p grant_id user r (gq_project rq) (gq_team rq))) ≫= fun _ =>
  get_person p user.

Definition revoked (now : Z) (g : user_role) : user_role :=
  UserRole (ur_id g) (ur_user g) (ur_role g) (ur_scope g) (ur_project g) (ur_team g) (ur_granted_by g) (Some now).

Definition revoke (p : principal) (now : Z) (user grant_id : pystr) : DT person_view :=
  touched ← guarded (update_rows di_grants with_grants
    (fun d g => str_eqb (ur_id g) grant_id && str_eqb (ur_user g) user && bool_decide (ur_revoked_at g = None) &&
                sees_grant p d g)
    (revoked now) (may_write_grant p) target_ok);
  unless (negb (touched =? 0)%nat) NotFound ≫= fun _ =>
  get_person p user.

(** ** Teams *)

Record team_view := TeamView { tv_team : team; tv_members : list (pystr * standing) }.

(** [list_teams]: a project's teams by name and who is in them, by name. *)
Definition team_members (p : principal) (d : directory) (project i : pystr) : list (pystr * standing) :=
  map (fun x : person * standing => (us_id x.1, x.2))
    (sort_by (fun a b : person * standing => match collate (us_display_name a.1) (us_display_name b.1) with Gt => false | _ => true end)
      (concat (map (fun m =>
        concat (map (fun u =>
          map (fun s => (u, mb_status s))
            (List.filter (fun s => str_eqb (mb_user s) (us_id u) && sees_membership p d s) (di_memberships d)))
          (List.filter (fun u => str_eqb (us_id u) (pm_user m) && sees_person p u) (di_people d))))
        (List.filter (fun m => pm_active m && str_eqb (pm_project m) project && bool_decide (pm_team m = Some i) && sees_member p d m)
          (di_members d))))).

Definition list_teams (p : principal) (d : directory) (project : pystr) : list team_view :=
  map (fun t => TeamView t (team_members p d project (te_id t)))
    (sort_by (fun a b => match collate (te_name a) (te_name b) with Gt => false | _ => true end)
      (List.filter (fun t => str_eqb (te_project t) project && sees_team p d t) (di_teams d))).

Definition view_team (p : principal) (t : team) : DT team_view :=
  d ← asks id;
  found NotFound (List.find (fun v => str_eqb (te_id (tv_team v)) (te_id t)) (list_teams p d (te_project t))).

Record create_team_request := CreateTeamRequest { tq_project : pystr; tq_name : pystr; tq_parent : option pystr }.

Definition create_team (p : principal) (rq : create_team_request) : DT team_view :=
  team_id ← issue ulid;
  let t := TeamRow team_id (tq_project rq) (tq_name rq) (tq_parent rq) in
  guarded (insert_team p t) ≫= fun _ =>
  mret (TeamView t []).

Definition in_team (team : option pystr) (active : bool) (m : member) : member :=
  ProjectMember (pm_project m) (pm_user m) team active (pm_added_by m).

Definition add_team_member (p : principal) (team_id user : pystr) : DT team_view :=
  t ← get_team p team_id;
  d ← asks id;
  let the_member m := str_eqb (pm_project m) (te_project t) && str_eqb (pm_user m) user in
  match List.find (fun m => the_member m && sees_member p d m) (di_members d) with
  | None => guarded (insert_member p (ProjectMember (te_project t) user (Some (te_id t)) true (me p)))
  | Some _ =>
      guarded (update_rows di_members with_members (fun d m => the_member m && sees_member p d m)
        (in_team (Some (te_id t)) true) (may_write_member p) (fun _ => true)) ≫= fun _ => mret tt
  end ≫= fun _ =>
  view_team p t.

Definition remove_team_member (p : principal) (team_id user : pystr) : DT team_view :=
  t ← get_team p team_id;
  touched ← guarded (update_rows di_members with_members
    (fun d m => str_eqb (pm_project m) (te_project t) && str_eqb (pm_user m) user &&
                bool_decide (pm_team m = Some (te_id t)) && sees_member p d m)
    (in_team None false) (may_write_member p) (fun _ => true));
  unless (negb (touched =? 0)%nat) NotFound ≫= fun _ =>
  view_team p t.

(** ** Roles *)

Record role_view := RoleView { rv_role : role; rv_permissions : list pystr; rv_grantable : bool }.

(** [list_roles]: the standard ones first, by name. *)
Definition role_before (a b : role) : bool :=
  if Bool.eqb (re_builtin a) (re_builtin b)
  then match collate (re_name a) (re_name b) with Gt => false | _ => true end
  else re_builtin a.

Definition list_roles (p : principal) (d : directory) : list role_view :=
  map (fun r =>
    let permissions := map snd (List.filter (fun rp => str_eqb rp.1 (re_id r) && role_seen p d rp.1) (di_permissions d)) in
    RoleView r (sort_str permissions)
      (bool_decide (lit "user.assign_role" ∈ pn_permissions p) &&
       forallb (fun x => bool_decide (x ∈ pn_permissions p)) permissions))
    (sort_by role_before (List.filter (sees_role p) (di_roles d))).

Definition view_role (p : principal) (i : pystr) : DT role_view :=
  d ← asks id;
  found NotFound (List.find (fun v => str_eqb (re_id (rv_role v)) i) (list_roles p d)).

Record create_role_request := CreateRoleRequest { rq_name : pystr; rq_scope : scope; rq_permissions : list pystr }.

Definition create_role (p : principal) (rq : create_role_request) : DT role_view :=
  role_id ← issue ulid;
  taken (guarded (insert_role p (RoleRow role_id (pn_org p) (rq_name rq) (rq_scope rq) false))) ≫= fun _ =>
  each (sort_str (remove_dups (rq_permissions rq))) (fun x => guarded (insert_permission p (role_id, x))) ≫= fun _ =>
  view_role p role_id.

Definition without (l m : list pystr) : list pystr := List.filter (fun x => negb (bool_decide (x ∈ m))) l.

Definition set_role_permissions (p : principal) (role_id : pystr) (wanted : list pystr) : DT role_view :=
  r ← get_role p role_id;
  d ← asks id;
  let current := map snd (List.filter (fun rp => str_eqb rp.1 role_id && role_seen p d rp.1) (di_permissions d)) in
  each (sort_str (without (remove_dups current) wanted)) (fun x =>
    touched ← guarded (delete_permission p (role_id, x));
    unless (negb (touched =? 0)%nat) Outside) ≫= fun _ =>
  each (sort_str (without (remove_dups wanted) current)) (fun x => guarded (insert_permission p (role_id, x))) ≫= fun _ =>
  view_role p role_id.

(** ** The routes *)

Inductive action :=
| CreatePerson (rq : create_person_request)
| Approve (user : pystr)
| Deactivate (user : pystr)
| Reactivate (user : pystr)
| Grant (user : pystr) (rq : grant_request)
| Revoke (user grant_id : pystr)
| CreateTeam (rq : create_team_request)
| AddMember (team user : pystr)
| RemoveMember (team user : pystr)
| CreateRole (rq : create_role_request)
| SetPermissions (role : pystr) (permissions : list pystr)
| Logout.

Definition needs (permissions : list string) : admission := Admission (map lit permissions) false false.

(** What each route declares. *)
Definition declared (a : action) : admission :=
  match a with
  | CreatePerson _ => needs ["user.create"]
  | Approve _ | Reactivate _ => needs ["user.approve"]
  | Deactivate _ => needs ["user.deactivate"]
  | Grant _ _ | Revoke _ _ | CreateRole _ | SetPermissions _ _ => needs ["user.assign_role"]
  | CreateTeam _ => needs ["team.manage"]
  | AddMember _ _ | RemoveMember _ _ => needs ["team.manage"; "user.create"]
  | Logout => Admission [] false true
  end%string.

Inductive answer :=
| APerson (v : person_view)
| ATeam (v : team_view)
| ARole (v : role_view)
| ADone.

Definition perform (now : Z) (i : identity) (a : action) : DT answer :=
  let p := ie_principal i in
  match a with
  | CreatePerson rq => v ← create_person p rq; mret (APerson v)
  | Approve u => v ← approve p now u; mret (APerson v)
  | Deactivate u => v ← deactivate p now u; mret (APerson v)
  | Reactivate u => v ← reactivate p now u; mret (APerson v)
  | Grant u rq => v ← grant p u rq; mret (APerson v)
  | Revoke u g => v ← revoke p now u g; mret (APerson v)
  | CreateTeam rq => v ← create_team p rq; mret (ATeam v)
  | AddMember t u => v ← add_team_member p t u; mret (ATeam v)
  | RemoveMember t u => v ← remove_team_member p t u; mret (ATeam v)
  | CreateRole rq => v ← create_role p rq; mret (ARole v)
  | SetPermissions r l => v ← set_role_permissions p r l; mret (ARole v)
  | Logout => logout p now (ie_session i) ≫= fun _ => mret ADone
  end.

(** A request: the cookies, the moment, and what it asks. *)
Inductive request :=
| SignIn (slug token : pystr) (rq : login_request)      (* the token it is given *)
| Ask (slug : pystr) (token : option pystr) (a : action).

Definition handle (ttl now : Z) (rq : request) : DT answer :=
  match rq with
  | SignIn slug token rq => login_route ulid token_hash argon2 now ttl token slug rq ≫= fun _ => mret ADone
  | Ask slug token a =>
      i ← current_identity token_hash now ttl slug token;
      match guard (declared a) i with
      | inr e => refuse e
      | inl i => transaction (perform now i a)
      end
  end.

(** The tables after a request. *)
Definition serve_person (ttl : Z) (d : directory) (t_rq : Z * request) : directory := (handle ttl t_rq.1 t_rq.2 d).1.

End People.

(** ** The standard roles: auth/builtin_roles.sql *)

(** [install]: the roles of one organisation and what each may do, for those
    there are not yet. *)
Definition standard_roles (org : pystr) : list role :=
  map (fun x : string * string * scope => RoleRow (org ++ lit "_" ++ lit x.1.1) org x.1.2 x.2 true)
    [("admin", "Admin", OrganizationScope); ("pm", "Programme manager", ProjectScope);
     ("supervisor", "Supervisor", TeamScope); ("enumerator", "Enumerator", TeamScope)]%string.

Definition standard_permission (role_name x : pystr) : bool :=
  str_eqb role_name "Admin" || str_eqb role_name "Programme manager" && negb (str_eqb x "device.revoke") ||
  str_eqb role_name "Supervisor" && bool_decide (x ∈ map lit ["user.create"; "user.assign_role"; "sample.assign";
                                                               "submission.view"; "submission.review"]%string).

Definition install (org : pystr) (d : directory) : directory :=
  let roles := di_roles d ++ List.filter (fun r => negb (present re_id (re_id r) (di_roles d))) (standard_roles org) in
  let permitted := concat (map (fun r => map (pair (re_id r)) (List.filter (standard_permission (re_name r)) PERMISSIONS))
    (List.filter (fun r => str_eqb (re_org r) org && re_builtin r) roles)) in
  with_permissions (di_permissions d ++ List.filter (fun rp => negb (bool_decide (rp ∈ di_permissions d))) permitted)
    (with_roles roles d).

(** ** An organisation to evaluate them on *)

(** Acme has a project with a team in the north and one inside it; Ann is its
    administrator and Sam supervises the north. *)
Module Acme.

Definition hashed (password : pystr) : pystr := lit "#" ++ password.
Definition someone (i name : string) (creator : option pystr) : person :=
  PlatformUser i "acme" (Some (lit name)) name (Some (hashed (lit name ++ lit "-secret"))) creator None.
Definition standing_member (i : string) : membership :=
  PlatformOrgMembership "acme" i Active Permanent None None None None.

Definition tables : directory :=
  install "acme" (Directory [PlatformOrganization "acme" "acme.org"] [someone "ann" "ann" None; someone "sam" "sam" None]
    [standing_member "ann"; standing_member "sam"] [] []
    [UserRole "g1" "ann" "acme_admin" OrganizationScope None None None None;
     UserRole "g2" "sam" "acme_supervisor" TeamScope None (Some (lit "north")) (Some (lit "ann")) None]
    [(lit "census", lit "acme")]
    [TeamRow "north" "census" "North" None; TeamRow "valley" "census" "Valley" (Some (lit "north"))] [] []
    [Handset "h1" "census" None false] 0).

Definition ulids (n : N) : pystr := lit "u" ++ str_Z (Z.of_N n).
Definition hashes (stored password : pystr) : bool := str_eqb stored (hashed password).

Definition serves (d : directory) (l : list (Z * request)) : directory :=
  fold_left (serve_person ulids (fun t => lit "=" ++ t) hashes hashed str_cmp 3600) l d.

Definition sign_in (name : string) (kind : session_kind) (device : option pystr) : request :=
  SignIn "acme.org" (lit "t-" ++ lit name) (LoginRequest name (lit name ++ lit "-secret") kind device).
Definition asks_as (name : string) (a : action) : request := Ask "acme.org" (Some (lit "t-" ++ lit name)) a.

(** Sam takes on an enumerator, whom Ann approves and who then signs in on a
    handset; Sam makes her the supervisor of the valley. *)
Definition taking_on : list (Z * request) :=
  [(0, sign_in "sam" Console None);
   (1, asks_as "sam" (CreatePerson (CreatePersonRequest "noor" "Noor" "noor-secret" "acme_enumerator" None (Some (lit "north")) Temporary)));
   (2, sign_in "noor" App (Some (lit "h1")));
   (3, sign_in "ann" Console None);
   (4, asks_as "ann" (Approve "u1"))].
Definition signing_in : list (Z * request) :=
  [(400, sign_in "noor" App (Some (lit "h1")));
   (401, asks_as "sam" (Grant "u1" (GrantRequest "acme_supervisor" None (Some (lit "valley")))))].

Definition taken_on : directory := Eval vm_compute in serves tables taking_on.
Definition signed_up : directory := Eval vm_compute in serves taken_on signing_in.

Definition valley_grant : user_role :=
  UserRole "u5" "u1" "acme_supervisor" TeamScope None (Some (lit "valley")) (Some (lit "sam")) None.

End Acme.
