(* ===== verification/AuthorityFacts.v ===== *)
(** * What the policies keep

    The statements a handler is made of, as a relation; that every handler is
    a sequence of them under its principal; and what a statement can change of
    grants, permissions, roles and memberships. *)

From S2P Require Import Prelude PyStr Value DatasetKeys Server Catalog Media MediaFacts Identity People.

(** ** Settings *)

Lemma split_join_plain l : l <> [] -> (forall x, x ∈ l -> 44%N ∉ x) -> split_char 44 (join (lit ",") l) = l.
Proof.
  induction l as [|x [|y l] IH]; [done| |]; intros _ Hl.
  - apply split_char_none. apply Hl. by left.
  - change (join (lit ",") (x :: y :: l)) with (x ++ 44%N :: join (lit ",") (y :: l)).
    rewrite split_char_at by (apply Hl; by left). f_equal. apply IH; [done|]. intros z Hz. apply Hl. by right.
Qed.

(** A value declared in a list of plain ones was in the list. *)
Lemma setting_list_sound l x : (forall y, y ∈ l -> 44%N ∉ y) -> x ∈ setting_list l -> x ∈ l.
Proof.
  intros Hl. unfold setting_list. destruct (join (lit ",") l) as [|c r] eqn:E; [by intros ?%elem_of_nil|].
  assert (l <> []) as Hne by (by intros ->). intros Hx. by rewrite <- E, (split_join_plain l Hne Hl) in Hx.
Qed.

Lemma PERMISSIONS_plain x : x ∈ PERMISSIONS -> 44%N ∉ x.
Proof.
  intros Hx. assert (forallb (fun x => bool_decide (44%N ∉ x)) PERMISSIONS = true) as H by by_compute.
  rewrite forallb_forall in H. apply (bool_decide_unpack _), Is_true_true, H. by apply list_elem_of_In.
Qed.

(** ** Ids kept once *)

Lemma distinct_elem l x : x ∈ distinct l <-> x ∈ l.
Proof.
  unfold distinct. enough (forall acc, x ∈ fold_left (fun found y => if bool_decide (y ∈ found) then found else found ++ [y]) l acc
    <-> x ∈ acc \/ x ∈ l) as H by (rewrite H; split; [intros [?%elem_of_nil|]|]; tauto).
  induction l as [|y l IH]; intros acc; cbn [fold_left]; [split; [tauto|intros [?|?%elem_of_nil]; tauto]|].
  rewrite IH, elem_of_cons. case_bool_decide; [naive_solver|]. rewrite elem_of_app, list_elem_of_singleton. tauto.
Qed.

Lemma distinct_NoDup l : NoDup (distinct l).
Proof.
  unfold distinct. enough (forall acc, NoDup acc -> NoDup (fold_left (fun found y => if bool_decide (y ∈ found) then found else found ++ [y]) l acc))
    as H by (apply H; constructor).
  induction l as [|y l IH]; intros acc Hacc; [done|]. cbn [fold_left]. apply IH. case_bool_decide; [done|].
  apply NoDup_app. split_and!; [done|intros z Hz ->%list_elem_of_singleton; done|apply NoDup_singleton].
Qed.

Lemma filter_shorter {A} (p : A -> bool) l x : x ∈ l -> p x = false -> (length (List.filter p l) < length l)%nat.
Proof.
  intros [l1 [l2 ->]]%list_elem_of_split Hx. rewrite List.filter_app, !length_app. cbn [List.filter]. rewrite Hx. cbn [length].
  pose proof (List.filter_length_le p l1). pose proof (List.filter_length_le p l2). lia.
Qed.

(** ** The teams below a team *)

Definition child_of (teams : list team) (parent t : pystr) : Prop :=
  exists te, te ∈ teams /\ te_id te = t /\ te_parent te = Some parent.

Lemma teams_below_elem teams found t :
  t ∈ teams_below teams found <-> t ∉ found /\ exists parent, parent ∈ found /\ child_of teams parent t.
Proof.
  unfold teams_below. rewrite distinct_elem, list_elem_of_In, in_map_iff. split.
  - intros (te & <- & [Hte [Hp Hn%bool_decide_eq_true]%andb_true_iff]%filter_In). split; [done|].
    destruct (te_parent te) as [parent|] eqn:E; [|done]. apply bool_decide_eq_true in Hp. exists parent. split; [done|].
    exists te. by rewrite list_elem_of_In.
  - intros (Hn & parent & Hp & te & Hte & <- & E). exists te. split; [done|]. apply filter_In. split; [by apply list_elem_of_In|].
    rewrite E. by rewrite !bool_decide_eq_true_2.
Qed.

(** Every round before the last finds a team of the table. *)
Lemma team_closure_elem teams fuel found t :
  NoDup found -> (length (List.filter (fun i => bool_decide (i ∉ found)) (distinct (map te_id teams))) < fuel)%nat ->
  t ∈ team_closure teams fuel found <-> exists s, s ∈ found /\ rtc (child_of teams) s t.
Proof.
  revert found. induction fuel as [|fuel IH]; intros found Hn Hfuel; [lia|]. cbn [team_closure].
  destruct (teams_below teams found) as [|b below] eqn:E.
  - split; [intros Ht; exists t; by split|]. intros (s & Hs & Hr).
    clear IH Hfuel. induction Hr as [|x y z Hxy _ IHr]; [done|]. apply IHr.
    destruct (decide (y ∈ found)) as [|Hy]; [done|]. assert (y ∈ teams_below teams found) as Hb; [|by rewrite E in Hb; apply elem_of_nil in Hb].
    apply teams_below_elem. split; [done|]. by exists x.
  - rewrite <- E. assert (forall x, x ∈ teams_below teams found -> x ∉ found) as Hnew by (intros x [? _]%teams_below_elem; done).
    rewrite IH.
    + split.
      * intros (s & [Hs|(_ & parent & Hp & Hc)%teams_below_elem]%elem_of_app & Hr); [by exists s|].
        exists parent. split; [done|]. by econstructor.
      * intros (s & Hs & Hr). exists s. split; [apply elem_of_app; by left|done].
    + apply NoDup_app. split_and!; [done| |apply distinct_NoDup]. intros x Hx Hb. by apply Hnew in Hb.
    + assert (b ∈ teams_below teams found) as Hb by (rewrite E; by left).
      assert (b ∈ distinct (map te_id teams)) as Hbt.
      { apply teams_below_elem in Hb as (_ & parent & _ & te & Hte & <- & _). apply distinct_elem, list_elem_of_In, in_map_iff.
        exists te. by rewrite <- list_elem_of_In. }
      eapply Nat.lt_le_trans; [|apply le_S_n, Hfuel]. 
      rewrite <- (filter_filter_le (fun i => bool_decide (i ∉ found ++ teams_below teams found)) (fun i => bool_decide (i ∉ found))).
      * apply filter_shorter with b; [|by apply bool_decide_eq_false; intros Hx; apply Hx, elem_of_app; right].
        apply elem_of_Lfilter. split; [done|]. apply bool_decide_eq_true. by apply Hnew.
      * intros x. rewrite !bool_decide_eq_true. intros Hx H. apply Hx, elem_of_app. by left.
Qed.

Lemma filter_all_le {A} (p : A -> bool) l : (length (List.filter p l) <= length l)%nat.
Proof. apply List.filter_length_le. Qed.

Lemma granted_teams_elem d user t :
  t ∈ granted_teams d user <->
  exists g s, g ∈ grants_of d user /\ ur_team g = Some s /\ rtc (child_of (di_teams d)) s t.
Proof.
  unfold granted_teams. rewrite team_closure_elem; [|apply distinct_NoDup|].
  - split.
    + intros (s & (g & Hg & Hs)%distinct_elem%list_elem_of_omap & Hr). by exists g, s.
    + intros (g & s & Hg & Hs & Hr). exists s. split; [|done]. apply distinct_elem, list_elem_of_omap. by exists g.
  - eapply Nat.le_lt_trans; [apply filter_all_le|].
    assert (length (distinct (map te_id (di_teams d))) <= length (map te_id (di_teams d)))%nat as H; [|rewrite length_map in H; lia].
    apply submseteq_length, NoDup_submseteq; [apply distinct_NoDup|]. intros x. by rewrite distinct_elem.
Qed.

Lemma held_elem d user x :
  x ∈ held_permissions d user <-> exists g, g ∈ grants_of d user /\ (ur_role g, x) ∈ di_permissions d.
Proof.
  unfold held_permissions. rewrite distinct_elem, list_elem_of_In, in_concat. split.
  - intros (l & (g & <- & Hg)%in_map_iff & ([r y] & <- & [Hin Hr%str_eqb_eq]%filter_In)%in_map_iff). cbn in *. subst r. exists g.
    by rewrite !list_elem_of_In.
  - intros (g & Hg & Hx). eexists. split; [apply in_map_iff; exists g; split; [done|by apply list_elem_of_In]|].
    apply in_map_iff. exists (ur_role g, x). split; [done|]. apply filter_In. split; [by apply list_elem_of_In|]. cbn. apply str_eqb_refl.
Qed.

Lemma granted_projects_elem d user x :
  x ∈ granted_projects d user <->
  exists g, g ∈ grants_of d user /\ ur_scope g = ProjectScope /\ ur_project g = Some x.
Proof.
  unfold granted_projects. rewrite distinct_elem, list_elem_of_omap. split.
  - intros (g & Hg & H). exists g. case_bool_decide; [done|discriminate].
  - intros (g & Hg & Hs & Hx). exists g. split; [done|]. by rewrite bool_decide_eq_true_2.
Qed.

(** How wide a scope is. *)
Definition width (s : scope) : nat := match s with OrganizationScope => 2 | ProjectScope => 1 | TeamScope => 0 end.

Lemma scope_among (l : list user_role) s :
  existsb (fun g => bool_decide (ur_scope g = s)) l = true <-> exists g, g ∈ l /\ ur_scope g = s.
Proof.
  rewrite existsb_exists. by setoid_rewrite bool_decide_eq_true; setoid_rewrite <- list_elem_of_In.
Qed.

Lemma scope_missing (l : list user_role) s :
  existsb (fun g => bool_decide (ur_scope g = s)) l = false -> forall g, g ∈ l -> ur_scope g <> s.
Proof. intros E g Hg Hs. assert (exists g, g ∈ l /\ ur_scope g = s) as H%scope_among by eauto. congruence. Qed.

(** The widest of some scopes, from one there is and those there are not. *)
Lemma widest_is (l : list user_role) x :
  (exists g, g ∈ l /\ ur_scope g = x) -> (forall g, g ∈ l -> (width (ur_scope g) <= width x)%nat) ->
  forall s, Some x = Some s <->
    (exists g, g ∈ l /\ ur_scope g = s) /\ forall g, g ∈ l -> (width (ur_scope g) <= width s)%nat.
Proof.
  intros Hx Hle s. split; [by intros [= <-]|]. intros [(g & Hg & <-) Hall]. destruct Hx as (h & Hh & <-).
  specialize (Hall h Hh). specialize (Hle g Hg). destruct (ur_scope g), (ur_scope h); cbn in *; done || lia.
Qed.

Lemma widest_scope_some l s :
  widest_scope l = Some s <->
  (exists g, g ∈ l /\ ur_scope g = s) /\ forall g, g ∈ l -> (width (ur_scope g) <= width s)%nat.
Proof.
  unfold widest_scope. destruct (existsb _ l) eqn:Eo.
  { apply widest_is; [by apply scope_among|]. intros g _. destruct (ur_scope g); cbn; lia. }
  pose proof (scope_missing _ _ Eo) as Ho. destruct (existsb (fun g => bool_decide (ur_scope g = ProjectScope)) l) eqn:Ep.
  { apply widest_is; [by apply scope_among|]. intros g Hg%Ho. destruct (ur_scope g); cbn; done || lia. }
  pose proof (scope_missing _ _ Ep) as Hp. destruct (existsb (fun g => bool_decide (ur_scope g = TeamScope)) l) eqn:Et.
  { apply widest_is; [by apply scope_among|]. intros g Hg. specialize (Ho g Hg). specialize (Hp g Hg). by destruct (ur_scope g). }
  pose proof (scope_missing _ _ Et) as Ht. split; [done|]. intros [(g & Hg & _) _]. specialize (Ho g Hg). specialize (Hp g Hg).
  specialize (Ht g Hg). by destruct (ur_scope g).
Qed.

Lemma widest_scope_none l : widest_scope l = None <-> l = [].
Proof.
  split; [|by intros ->]. destruct l as [|g l]; [done|]. intros H.
  destruct (widest_scope (g :: l)) eqn:E; [done|]. clear H. revert E. unfold widest_scope. cbn [existsb].
  destruct (ur_scope g); cbn; repeat case_match; done.
Qed.

Lemma grants_of_elem d user g : g ∈ grants_of d user <-> g ∈ di_grants d /\ ur_user g = user /\ ur_revoked_at g = None.
Proof. unfold grants_of. rewrite elem_of_Lfilter, andb_true_iff, str_eqb_eq, bool_decide_eq_true. tauto. Qed.

(** ** What a handler does to the tables *)

(** One statement under a principal. *)
Inductive stmt (p : principal) (d : directory) : directory -> Prop :=
| stmt_issue n : stmt p d (with_issued n d)
| stmt_person u : may_write_person p u = true -> fresh us_id u (di_people d) = true -> stmt p d (with_people (di_people d ++ [u]) d)
| stmt_login (f : person -> person) :
    (forall u, us_id (f u) = us_id u /\ us_org (f u) = us_org u /\ us_created_by (f u) = us_created_by u) ->
    stmt p d (with_people (map f (di_people d)) d)
| stmt_membership m : may_write_membership p d m = true -> stmt p d (with_memberships (di_memberships d ++ [m]) d)
| stmt_standing (matches : membership -> bool) set :
    (forall m, m ∈ di_memberships d -> matches m = true -> may_write_membership p d (set m) = true) ->
    (forall m, membership_key (set m) = membership_key m) ->
    stmt p d (with_memberships (map (fun m => if matches m then set m else m) (di_memberships d)) d)
| stmt_grant g : may_write_grant p d g = true -> known_id fst (ur_project g) (di_projects d) = true ->
    known_id te_id (ur_team g) (di_teams d) = true -> stmt p d (with_grants (di_grants d ++ [g]) d)
| stmt_revoke (matches : user_role -> bool) now : stmt p d (with_grants (map (fun g => if matches g then revoked now g else g) (di_grants d)) d)
| stmt_members l : stmt p d (with_members l d)
| stmt_team t : may_write_team p d t = true -> stmt p d (with_teams (di_teams d ++ [t]) d)
| stmt_role r : may_write_role p r = true -> fresh re_id r (di_roles d) = true -> stmt p d (with_roles (di_roles d ++ [r]) d)
| stmt_permit rp : may_write_permission p d rp = true -> rp.2 ∈ PERMISSIONS -> stmt p d (with_permissions (di_permissions d ++ [rp]) d)
| stmt_withdraw (goes : pystr * pystr -> bool) :
    (forall x, goes x = true -> may_delete_permission p d x = true) ->
    stmt p d (with_permissions (List.filter (fun x => negb (goes x)) (di_permissions d)) d)
| stmt_sessions l : stmt p d (with_sessions l d)
| stmt_handsets l : stmt p d (with_handsets l d).

Definition does (p : principal) : directory -> directory -> Prop := rtc (stmt p).

Section Handlers.
Context (ulid : N -> pystr) (token_hash : pystr -> pystr) (argon2 : pystr -> pystr -> bool).
Context (hash_password : pystr -> pystr) (collate : pystr -> pystr -> comparison) (p : principal).

Local Abbreviation doing := (along (does p)) (only parsing).

#[local] Instance does_refl : Reflexive (does p).
Proof. unfold does. apply _. Qed.
#[local] Instance does_trans : Transitive (does p).
Proof. unfold does. apply _. Qed.

Lemma doing_guarded {A} (m : DT A) : doing m -> doing (guarded m).
Proof.
  intros Hm d d' r. unfold guarded. destruct (m d) as [d1 [a|e]] eqn:E; [intros [= <- <-]; by eapply Hm|].
  destruct e; intros [= <- <-]; done.
Qed.

Lemma doing_taken {A} (m : DT A) : doing m -> doing (taken m).
Proof.
  intros Hm d d' r. unfold taken. destruct (m d) as [d1 [a|e]] eqn:E; [intros [= <- <-]; by eapply Hm|].
  destruct e; intros [= <- <-]; by eapply Hm.
Qed.

Lemma doing_insert policy constraints add :
  (forall d, policy d = true -> constraints d = true -> stmt p d (add d)) -> doing (insert_row policy constraints add).
Proof.
  intros Hadd d d' r H. unfold insert_row in H. st_read H. cbn in H. st_unless H Hp; [|done]. st_unless H Hc; [|done].
  injection H as <- _. apply rtc_once. by apply Hadd.
Qed.

Lemma doing_update {A} (rows : directory -> list A) put matches set policy constraints :
  (forall d, (forall r, r ∈ rows d -> matches d r = true -> policy d (set r) = true) ->
     stmt p d (put (map (fun r => if matches d r then set r else r) (rows d)) d)) ->
  doing (update_rows rows put matches set policy constraints).
Proof.
  intros Hput d d' r H. unfold update_rows in H. st_read H. cbn in H. st_unless H Hp; [|done]. st_unless H Hc; [|done].
  st_write H. injection H as <- _. apply rtc_once. apply Hput. intros x Hx Hm. rewrite forallb_forall in Hp.
  apply Hp, filter_In. split; [by apply list_elem_of_In|done].
Qed.

Lemma doing_issue : doing (issue ulid).
Proof.
  intros d d' r H. unfold issue in H. st_read H. st_write H. injection H as <- _. apply rtc_once. constructor.
Qed.

Create HintDb statements.

Lemma doing_person u : doing (insert_person p u).
Proof.
  apply doing_insert. intros d Hp Hc. repeat apply andb_true_iff in Hc as [Hc _]. by constructor.
Qed.

Lemma doing_membership m : doing (insert_membership p m).
Proof. apply doing_insert. intros d Hp _. by constructor. Qed.

Lemma doing_grant g : doing (insert_grant p g).
Proof.
  apply doing_insert. intros d Hp Hc. apply andb_true_iff in Hc as [Hc _]. apply andb_true_iff in Hc as [Hc Ht].
  apply andb_true_iff in Hc as [_ Hpr]. by constructor.
Qed.

Lemma doing_member m : doing (insert_member p m).
Proof. apply doing_insert. intros. constructor. Qed.

Lemma doing_team t : doing (insert_team p t).
Proof. apply doing_insert. intros. by constructor. Qed.

Lemma doing_role r : doing (insert_role p r).
Proof. apply doing_insert. intros d Hp Hc. repeat apply andb_true_iff in Hc as [Hc _]. by constructor. Qed.

Lemma doing_permit rp : doing (insert_permission p rp).
Proof.
  apply doing_insert. intros d Hp [_ Hc%bool_decide_eq_true]%andb_true_iff. by constructor.
Qed.

Lemma doing_withdraw rp : doing (delete_permission p rp).
Proof.
  intros d d' r H. unfold delete_permission in H. st_read H. cbn in H. st_write H. injection H as <- _. apply rtc_once.
  apply stmt_withdraw. by intros x [_ Hx]%andb_true_iff.
Qed.

Lemma doing_members matches set policy constraints : doing (update_rows di_members with_members matches set policy constraints).
Proof. apply doing_update. constructor. Qed.

Lemma doing_sessions matches set policy constraints : doing (update_rows di_sessions with_sessions matches set policy constraints).
Proof. apply doing_update. constructor. Qed.

#[local] Hint Resolve doing_guarded doing_taken doing_issue doing_person doing_membership doing_grant doing_member
  doing_team doing_role doing_permit doing_withdraw doing_members doing_sessions : statements.

(** Through binds, reads, checks, loops and cases. *)
Ltac doing :=
  repeat match goal with
  | |- along _ (_ ≫= _) => apply along_bind; [apply _| |intros ?]
  | |- along _ (asks _) => apply along_asks, _
  | |- along _ (mret _) => apply along_ret, _
  | |- along _ (refuse _) => apply along_refuse, _
  | |- along _ (found _ _) => apply along_found, _
  | |- along _ (unless _ _) => apply along_unless, _
  | |- along _ (each _ _) => apply along_each; [apply _|apply _|intros ?]
  | |- along _ (match ?x with _ => _ end) => destruct x
  | |- along _ (let _ := _ in _) => cbv zeta
  | |- along _ _ => solve [eauto with statements]
  end.

Lemma doing_move user from set :
  (forall m, membership_key (set m) = membership_key m) -> doing (move_membership collate p user from set).
Proof.
  intros Hset. unfold move_membership, get_person. apply along_bind; [apply _| |intros ?; doing].
  apply doing_guarded, doing_update. intros d H. by apply stmt_standing.
Qed.

(** Every handler is a sequence of statements its principal may make. *)
Lemma perform_does now i a : ie_principal i = p -> doing (perform ulid hash_password collate now i a).
Proof.
  intros Hi. assert (forall user grant_id, doing (revoke collate p now user grant_id)) as Hrevoke.
  { intros user grant_id. unfold revoke, get_person. apply along_bind; [apply _| |intros ?; doing].
    apply doing_guarded, doing_update. intros d _. apply (stmt_revoke p d _ now). }
  unfold perform. rewrite Hi. destruct a; unfold create_person, approve, deactivate, reactivate, grant,
    create_team, add_team_member, remove_team_member, create_role, set_role_permissions, logout, view_team, view_role, get_person,
    get_role, get_team; doing; by apply doing_move.
Qed.

(** ** Signing in and resolving *)

Lemma doing_bind device user : doing (bind_device device user).
Proof. apply along_writes. intros d. apply rtc_once. constructor. Qed.

Lemma doing_note now user : doing (note_login p now user).
Proof.
  apply along_writes. intros d. apply rtc_once. apply stmt_login. intros u. by case_match.
Qed.

(** Signing in, resolving and signing out touch who holds a session where. *)
Lemma login_does now ttl token rq : doing (login ulid token_hash argon2 p now ttl token rq).
Proof.
  unfold login. doing; try apply doing_bind; try apply doing_note. intros d d' r. unfold naming, insert_session.
  destruct (insert_row _ _ _ d) as [d1 [[]|e]] eqn:E; [|destruct e; intros [= <- <-]; done]. intros [= <- <-].
  revert E. apply doing_insert. intros. constructor.
Qed.

Lemma resolve_does now ttl token : doing (resolve token_hash p now ttl token).
Proof. unfold resolve. doing. Qed.

Lemma doing_transaction {A} (m : DT A) : doing m -> doing (transaction m).
Proof.
  intros Hm d d' r. unfold transaction. destruct (m d) as [d1 [a|e]] eqn:E; intros [= <- <-]; [by eapply Hm|done].
Qed.
End Handlers.

(** ** What a statement can change *)

(** The tables' own constraints, as far as the theorems need them. *)
Record lawful (d : directory) : Prop := {
  lf_permissions : forall rp, rp ∈ di_permissions d -> rp.2 ∈ PERMISSIONS;
  lf_roles : NoDup (map re_id (di_roles d));
  lf_people : NoDup (map us_id (di_people d));
  lf_targets : forall g, g ∈ di_grants d ->
    known_id fst (ur_project g) (di_projects d) = true /\ known_id te_id (ur_team g) (di_teams d) = true
}.

Lemma fresh_NoDup {A} (key : A -> pystr) x rows : fresh key x rows = true -> NoDup (map key rows) -> NoDup (map key (rows ++ [x])).
Proof.
  intros Hf%bool_decide_eq_true Hn. rewrite map_app. apply NoDup_app. split_and!; [done| |apply NoDup_singleton].
  intros y Hy ->%list_elem_of_singleton. done.
Qed.

Lemma known_more {A} (key : A -> pystr) i rows more : known_id key i rows = true -> known_id key i (rows ++ more) = true.
Proof.
  destruct i as [i|]; [|done]. cbn. unfold present. rewrite !bool_decide_eq_true, map_app, elem_of_app. tauto.
Qed.

Lemma stmt_lawful p d d' : stmt p d d' -> lawful d -> lawful d'.
Proof.
  intros Hs [Hp Hr Hu Ht]. destruct Hs; split; cbn; try done.
  - by apply fresh_NoDup.
  - rewrite map_map. rewrite (map_ext _ us_id); [done|]. intros u. apply H.
  - intros h [Hh| ->%list_elem_of_singleton]%elem_of_app; [by apply Ht|done].
  - intros h (g & <- & Hg%list_elem_of_In)%list_elem_of_In%in_map_iff. specialize (Ht g Hg). by case_match.
  - intros g Hg. destruct (Ht g Hg) as [? ?]. split; [done|by apply known_more].
  - by apply fresh_NoDup.
  - intros x [Hx| ->%list_elem_of_singleton]%elem_of_app; [by apply Hp|done].
  - intros x [Hx _]%elem_of_Lfilter. by apply Hp.
Qed.

Lemma does_lawful p d d' : does p d d' -> lawful d -> lawful d'.
Proof. induction 1 as [|x y z Hxy _ IH]; [done|]. intros Hx. by apply IH, (stmt_lawful p x). Qed.

(** *** Permissions come from those who hold them *)

Definition live (g : user_role) : Prop := ur_revoked_at g = None.

Record within (p : principal) (d d' : directory) : Prop := {
  wi_permissions : forall rp, rp ∈ di_permissions d' -> rp ∈ di_permissions d \/ dcp_has p rp.2 = true;
  wi_grants : forall g, g ∈ di_grants d' -> live g ->
    g ∈ di_grants d \/ (forall x, (ur_role g, x) ∈ di_permissions d' -> dcp_has p x = true)
}.

#[export] Instance within_refl p : Reflexive (within p).
Proof. split; [tauto|tauto]. Qed.

#[export] Instance within_trans p : Transitive (within p).
Proof.
  intros d e f [Hp1 Hg1] [Hp2 Hg2]. split.
  - intros rp [Hrp|Hrp]%Hp2; [by apply Hp1|by right].
  - intros g Hg Hl. destruct (Hg2 g Hg Hl) as [Hg'|Hx]; [|by right]. destruct (Hg1 g Hg' Hl) as [|Hx]; [by left|right].
    intros x [Hin|Hin]%Hp2; [by apply Hx|done].
Qed.

Lemma grant_allowed p d g x : may_write_grant p d g = true -> (ur_role g, x) ∈ di_permissions d -> dcp_has p x = true.
Proof.
  intros Hg Hx. unfold may_write_grant in Hg. apply andb_true_iff in Hg as [Hg _]. apply andb_true_iff in Hg as [Hg Hn%negb_true_iff].
  apply andb_true_iff in Hg as [[Hrole _]%andb_true_iff _]. apply not_false_iff_true. intros Hh. apply not_true_iff_false in Hn.
  apply Hn, existsb_exists. exists (ur_role g, x). split; [by apply list_elem_of_In|]. cbn. by rewrite Hrole, str_eqb_refl, Hh.
Qed.

Lemma stmt_within p d d' : stmt p d d' -> within p d d'.
Proof.
  intros Hs. destruct Hs; split; cbn; try tauto.
  - intros h [Hh| ->%list_elem_of_singleton]%elem_of_app _; [by left|right]. intros x. by eapply grant_allowed.
  - intros h (g & <- & Hg%list_elem_of_In)%list_elem_of_In%in_map_iff Hl. left. by destruct (matches g).
  - intros x [Hx| ->%list_elem_of_singleton]%elem_of_app; [by left|right]. unfold may_write_permission in H.
    by apply andb_true_iff in H as [[[_ _]%andb_true_iff Hh]%andb_true_iff _].
  - intros x [Hx _]%elem_of_Lfilter. by left.
Qed.

Lemma does_within p d d' : does p d d' -> within p d d'.
Proof. induction 1 as [|x y z Hxy _ IH]; [done|]. etrans; [by apply stmt_within|done]. Qed.

(** Who holds a permission after the statements held it before, or the
    principal has it. *)
Lemma within_held p d d' user x :
  within p d d' -> x ∈ held_permissions d' user -> x ∈ held_permissions d user \/ dcp_has p x = true.
Proof.
  intros [Hp Hg] (g & (Hin & Hu & Hl)%grants_of_elem & Hx)%held_elem. destruct (Hg g Hin Hl) as [Hin'|Hall]; [|right; by apply Hall].
  destruct (Hp _ Hx) as [Hx'|]; [left|by right]. apply held_elem. exists g. split; [|done]. by apply grants_of_elem.
Qed.

Lemma nobody_has org slug x : dcp_has (organization_only org slug) x = false.
Proof. by apply bool_decide_eq_false, not_elem_of_nil. Qed.

(** *** Memberships become active by an approver *)

Definition active_in (org user : pystr) (d : directory) : Prop :=
  exists m, m ∈ di_memberships d /\ mb_org m = org /\ mb_user m = user /\ mb_status m = Active.

Lemma may_hold_active p d user : may_hold_session p d user = true <-> active_in (pn_org p) user d.
Proof.
  unfold may_hold_session, active_in. rewrite existsb_exists. split.
  - intros (m & Hm & [[Hu%str_eqb_eq Hs%bool_decide_eq_true]%andb_true_iff Ho%str_eqb_eq]%andb_true_iff). exists m. by rewrite list_elem_of_In.
  - intros (m & Hm & <- & <- & Hs). exists m. rewrite <- list_elem_of_In. split; [done|]. by rewrite !str_eqb_refl, bool_decide_eq_true_2.
Qed.

Lemma active_written p d m : may_write_membership p d m = true -> mb_status m = Active -> mb_org m = pn_org p /\ dcp_has p "user.approve" = true.
Proof. unfold may_write_membership, sees_membership. intros [[Ho%str_eqb_eq _]%andb_true_iff H]%andb_true_iff E. by rewrite E in H. Qed.

Lemma stmt_active p d d' org user :
  stmt p d d' -> active_in org user d' -> active_in org user d \/ org = pn_org p /\ dcp_has p "user.approve" = true.
Proof.
  intros Hs (m & Hm & Ho & Hu & Ha). destruct Hs; cbn in Hm; try (left; by exists m).
  - apply elem_of_app in Hm as [Hm| ->%list_elem_of_singleton]; [left; by exists m|right].
    destruct (active_written _ _ _ H Ha) as [? ?]. split; [congruence|done].
  - apply list_elem_of_In, in_map_iff in Hm as (m0 & <- & Hm0%list_elem_of_In). destruct (matches m0) eqn:E; [|left; by exists m0].
    right. destruct (active_written _ _ _ (H m0 Hm0 E) Ha) as [? ?]. split; [congruence|done].
Qed.

Lemma does_active p d d' org user :
  does p d d' -> active_in org user d' -> active_in org user d \/ org = pn_org p /\ dcp_has p "user.approve" = true.
Proof.
  induction 1 as [|x y z Hxy _ IH]; [by left|]. intros [Hy|]%IH; [|by right]. by apply (stmt_active _ _ _ _ _ Hxy).
Qed.

(** *** The standard roles stay as made *)

Record standard_kept (d d' : directory) : Prop := {
  sk_stay : forall r, r ∈ di_roles d -> r ∈ di_roles d';
  sk_new : forall r, r ∈ di_roles d' -> re_builtin r = true -> r ∈ di_roles d;
  sk_permissions : forall r x, r ∈ di_roles d -> re_builtin r = true ->
    (re_id r, x) ∈ di_permissions d' <-> (re_id r, x) ∈ di_permissions d
}.

(** A permission of a standard role is neither written nor deleted. *)
Lemma builtin_named p d r : lawful d -> r ∈ di_roles d -> builtin_of p d (re_id r) = Some false -> re_builtin r = false.
Proof.
  intros [_ Hn _ _] Hr. unfold builtin_of. destruct (List.find _ _) as [r'|] eqn:E; [|done]. cbn. intros [= Hb].
  apply List.find_some in E as [Hr'%list_elem_of_In [Hid%str_eqb_eq _]%andb_true_iff]. enough (r' = r) as -> by done.
  apply list_elem_of_lookup in Hr as [i Hi]. apply list_elem_of_lookup in Hr' as [j Hj].
  enough (j = i) by congruence. eapply (NoDup_lookup _ _ _ (re_id r) Hn); rewrite list_lookup_fmap; [rewrite Hj|rewrite Hi]; cbn; congruence.
Qed.

Lemma stmt_standard p d d' : stmt p d d' -> lawful d -> standard_kept d d'.
Proof.
  intros Hs Hl. destruct Hs; split; cbn; try done.
  - intros x Hx. apply elem_of_app. by left.
  - intros x [Hx| ->%list_elem_of_singleton]%elem_of_app Hb; [done|]. unfold may_write_role in H. rewrite Hb in H.
    by rewrite andb_false_r in H.
  - intros r x Hr Hb. rewrite elem_of_app, list_elem_of_singleton. split; [|by left]. intros [|Hx]; [done|].
    unfold may_write_permission in H. apply andb_true_iff in H as [_ H%bool_decide_eq_true]. rewrite <- Hx in H. cbn in H.
    apply (builtin_named p d r Hl Hr) in H. congruence.
  - intros r x Hr Hb. rewrite elem_of_Lfilter. split; [tauto|]. intros Hx. split; [done|]. apply negb_true_iff, not_true_iff_false.
    intros Hg%H. unfold may_delete_permission in Hg. apply andb_true_iff in Hg as [[_ Hg%bool_decide_eq_true]%andb_true_iff _].
    cbn in Hg. apply (builtin_named p d r Hl Hr) in Hg. congruence.
Qed.

Lemma standard_refl d : standard_kept d d.
Proof. by split. Qed.

Lemma standard_trans d e f : standard_kept d e -> standard_kept e f -> standard_kept d f.
Proof.
  intros [S1 N1 P1] [S2 N2 P2]. split.
  - intros r Hr. by apply S2, S1.
  - intros r Hr Hb. apply N1; [by apply N2|done].
  - intros r x Hr Hb. rewrite (P2 r x (S1 r Hr) Hb). by apply P1.
Qed.

Lemma does_standard p d d' : does p d d' -> lawful d -> standard_kept d d'.
Proof.
  induction 1 as [|x y z Hxy _ IH]; [intros; apply standard_refl|]. intros Hx.
  eapply standard_trans; [by eapply stmt_standard|]. by apply IH, (stmt_lawful p x).
Qed.

(** *** Grants stay inside the scope of who makes them *)

(** What a grant made by a principal is: of a role and to a person of their
    own organisation; and, unless the principal is organisation-wide, on one of
    their projects, one of their teams or a team of their projects.  Of the
    project or team an organisation-wide principal grants on, nothing is asked. *)
Record covers (p : principal) (d : directory) (g : user_role) : Prop := {
  co_role : exists r, r ∈ di_roles d /\ re_id r = ur_role g /\ re_org r = pn_org p;
  co_person : exists u, u ∈ di_people d /\ us_id u = ur_user g /\ us_org u = pn_org p;
  co_target : pn_scope p <> Some OrganizationScope ->
    match ur_scope g with
    | OrganizationScope => False
    | ProjectScope => exists project, ur_project g = Some project /\ project ∈ pn_projects p
    | TeamScope => exists t, ur_team g = Some t /\
        (t ∈ pn_teams p \/ exists te, te ∈ di_teams d /\ te_id te = t /\ te_project te ∈ pn_projects p)
    end
}.

(** The ids a principal's settings are made of have no comma. *)
Record plain_targets (p : principal) : Prop := {
  pt_projects : forall x, x ∈ pn_projects p -> 44%N ∉ x;
  pt_teams : forall x, x ∈ pn_teams p -> 44%N ∉ x
}.

Lemma in_list_sound l v : (forall x, x ∈ l -> 44%N ∉ x) -> dcp_in_list l v = true -> exists x, v = Some x /\ x ∈ l.
Proof. destruct v as [x|]; [|done]. intros Hl Hx%bool_decide_eq_true. exists x. split; [done|]. by apply setting_list_sound. Qed.

Lemma role_seen_elem p d i : role_seen p d i = true -> exists r, r ∈ di_roles d /\ re_id r = i /\ re_org r = pn_org p.
Proof.
  intros (r & Hr%list_elem_of_In & [Hi%str_eqb_eq Ho%str_eqb_eq]%andb_true_iff)%existsb_exists. by exists r.
Qed.

Lemma person_seen_elem p d i : person_seen p d i = true -> exists u, u ∈ di_people d /\ us_id u = i /\ us_org u = pn_org p.
Proof.
  intros (u & Hu%list_elem_of_In & [Hi%str_eqb_eq [Ho%str_eqb_eq _]%andb_true_iff]%andb_true_iff)%existsb_exists. by exists u.
Qed.

Lemma written_grant_covered p d g : plain_targets p -> may_write_grant p d g = true -> covers p d g.
Proof.
  intros [Hpr Ht] Hg. unfold may_write_grant in Hg. apply andb_true_iff in Hg as [Hs Hg].
  apply andb_true_iff in Hs as [[Hs _]%andb_true_iff _]. apply andb_true_iff in Hs as [Hrole Hperson].
  split; [by apply role_seen_elem|by apply person_seen_elem|]. intros Hw.
  assert (dcp_org_wide p = false) as Hwide by (by apply bool_decide_eq_false). destruct (ur_scope g); rewrite Hwide in Hg; cbn in Hg.
  - done.
  - by apply in_list_sound in Hg as (x & Hx & Hin); [exists x|].
  - apply orb_true_iff in Hg as [Hg|Hg].
    + apply in_list_sound in Hg as (x & Hx & Hin); [|done]. exists x. auto.
    + unfold team_of_my_projects in Hg. apply existsb_exists in Hg as (te & Hte%list_elem_of_In & Hg).
      apply andb_true_iff in Hg as [[Hid%bool_decide_eq_true _]%andb_true_iff Hin].
      apply in_list_sound in Hin as (x & [= <-] & Hin); [|done]. exists (te_id te). split; [done|]. right. by exists te.
Qed.

(** The teams, roles and people there were are there, whatever else a person's
    row says. *)
Record stays (d d' : directory) : Prop := {
  sy_teams : forall te, te ∈ di_teams d -> te ∈ di_teams d';
  sy_roles : forall r, r ∈ di_roles d -> r ∈ di_roles d';
  sy_people : forall u, u ∈ di_people d -> exists u', u' ∈ di_people d' /\ us_id u' = us_id u /\ us_org u' = us_org u
}.

Lemma stays_refl d : stays d d.
Proof. split; eauto. Qed.

Lemma stays_trans d e f : stays d e -> stays e f -> stays d f.
Proof.
  intros [T1 R1 P1] [T2 R2 P2]. split; [auto|auto|]. intros u (v & Hv & <- & <-)%P1. by apply P2.
Qed.

Lemma covers_more p d d' g : stays d d' -> covers p d g -> covers p d' g.
Proof.
  intros [Hte Hr Hu] [(r & Hin & Hrole) (u & Hin' & Hi' & Ho) Ht]. split; [eauto| |].
  { destruct (Hu u Hin') as (v & Hv & Hi & Hvo). exists v. by rewrite Hi, Hvo. }
  intros Hw. specialize (Ht Hw). destruct (ur_scope g); [done|done|]. destruct Ht as (t & Ht & [Hin''|(te & Hin'' & H)]); exists t.
  - auto.
  - split; [done|]. right. exists te. auto.
Qed.

Lemma stmt_stays p d d' : stmt p d d' -> stays d d'.
Proof.
  intros Hs. destruct Hs; try apply stays_refl; split; cbn; try done; try (by eauto); try (intros; apply elem_of_app; by left).
  - intros v Hv. exists v. split; [apply elem_of_app; by left|done].
  - intros v Hv. exists (f v). split; [by apply list_elem_of_fmap_2|]. destruct (H v) as (? & ? & _). done.
Qed.

(** Every live grant there was before, or the principal may assign roles and
    it is one that principal may make. *)
Record authorised (p : principal) (d d' : directory) : Prop := {
  au_stays : stays d d';
  au_projects : di_projects d' = di_projects d;
  au_grants : forall g, g ∈ di_grants d' -> live g ->
    g ∈ di_grants d \/ dcp_has p "user.assign_role" = true /\ covers p d' g
}.

Lemma authorised_refl p d : authorised p d d.
Proof. split; auto using stays_refl. Qed.

Lemma authorised_trans p d e f : authorised p d e -> authorised p e f -> authorised p d f.
Proof.
  intros [T1 P1 G1] [T2 P2 G2]. split; [by eapply stays_trans|congruence|]. intros g Hg Hl. destruct (G2 g Hg Hl) as [Hg'|]; [|by right].
  destruct (G1 g Hg' Hl) as [|[Ha Hc]]; [by left|right]. split; [done|]. by eapply covers_more.
Qed.

Lemma stmt_authorised p d d' : plain_targets p -> stmt p d d' -> authorised p d d'.
Proof.
  intros Hp Hs. split; [by eapply stmt_stays|by destruct Hs|]. destruct Hs; cbn; try (by left).
  - intros h [Hh| ->%list_elem_of_singleton]%elem_of_app _; [by left|right]. split.
    + unfold may_write_grant in H. by apply andb_true_iff in H as [[[_ H]%andb_true_iff _]%andb_true_iff _].
    + eapply covers_more; [|by apply written_grant_covered]. by split; eauto.
  - intros h (g & <- & Hg%list_elem_of_In)%list_elem_of_In%in_map_iff Hl. left. by destruct (matches g).
Qed.

Lemma does_authorised p d d' : plain_targets p -> does p d d' -> authorised p d d'.
Proof.
  intros Hp. induction 1 as [|x y z Hxy _ IH]; [apply authorised_refl|]. eapply authorised_trans; [by apply stmt_authorised|done].
Qed.

(** ** Who a request is from *)

Section Serving.
Context (ulid : N -> pystr) (token_hash : pystr -> pystr) (argon2 : pystr -> pystr -> bool).
Context (hash_password : pystr -> pystr) (collate : pystr -> pystr -> comparison) (ttl : Z).

Abbreviation handling := (handle ulid token_hash argon2 hash_password collate ttl) (only parsing).
Abbreviation serving := (serve_person ulid token_hash argon2 hash_password collate ttl) (only parsing).

(** The identity a request acts as. *)
Definition actor (d : directory) (t_rq : Z * request) : option identity :=
  match t_rq.2 with
  | Ask slug token _ => match (current_identity token_hash t_rq.1 ttl slug token d).2 with inl i => i | inr _ => None end
  | SignIn _ _ _ => None
  end.

Lemma transaction_run {A} (m : DT A) d d' r :
  transaction m d = (d', r) -> (exists a, r = inl a /\ m d = (d', inl a)) \/ d' = d /\ exists e, r = inr e.
Proof. unfold transaction. destruct (m d) as [d1 [a|e]]; intros [= <- <-]; eauto. Qed.

(** What the session's lookup found. *)
Lemma resolved d d1 now slug token i :
  current_identity token_hash now ttl slug token d = (d1, inl (Some i)) ->
  exists org, pn_org (ie_principal i) = org /\ ie_principal i = principal_for d (ie_user i) org slug /\
    active_in org (ie_user i) d /\ does (organization_only org slug) d d1.
Proof.
  unfold current_identity. destruct token as [token|]; [|done]. intros H. st_read H. cbn in H.
  set (p := match organization_of d slug with Some org => organization_only org slug | None => organization_only [] slug end) in *.
  assert (p = organization_only (pn_org p) slug) as Hp by (subst p; by destruct (organization_of d slug)). clearbody p.
  apply transaction_run in H as [(a & [= <-] & H)|(-> & e & ?)]; [|done].
  assert (does p d d1) as Hd by (eapply resolve_does; exact H).
  unfold resolve in H. st_read H. cbn in H. destruct (session_lookup token_hash p d now token) as [[s u]|] eqn:E; [|done].
  apply bind_run in H as [(a & d2 & _ & H)|(e & _ & ?)]; [|done]. injection H as _ <-. cbn.
  unfold session_lookup in E. destruct (List.find _ (di_sessions d)) as [s'|] eqn:Es; [|done]. cbn in E.
  destruct (List.find _ (di_people d)) as [u'|] eqn:Eu; [|done]. cbn in E.
  destruct (_ && _) eqn:Ec in E; [|done]. injection E as -> ->.
  apply andb_true_iff in Ec as [[_ Ho%str_eqb_eq]%andb_true_iff Ha]. apply List.find_some in Eu as [_ Hid%str_eqb_eq].
  exists (us_org u). rewrite Hp. cbn. rewrite <- Hid in Ha. rewrite may_hold_active in Ha. rewrite <- Ho in Ha.
  split_and!; [done|done|done|]. rewrite Ho, <- Hp. exact Hd.
Qed.

(** A request is statements of nobody in particular, then of its actor. *)
Lemma handle_does d t_rq :
  (exists org slug, does (organization_only org slug) d (serving d t_rq)) \/
  exists i d1 org slug,
    actor d t_rq = Some i /\ pn_org (ie_principal i) = org /\ ie_principal i = principal_for d (ie_user i) org slug /\
    active_in org (ie_user i) d /\ does (organization_only org slug) d d1 /\ does (ie_principal i) d1 (serving d t_rq).
Proof.
  destruct t_rq as [now rq]. unfold serve_person. cbn. destruct (handling now rq d) as [d' r] eqn:E. cbn. unfold handle in E.
  destruct rq as [slug token rq|slug token a].
  - left. apply bind_run in E as [(x & d1 & H & E)|(e & H & _)]; [injection E as <- _|];
      unfold login_route in H; st_read H; cbn in H; destruct (organization_of d slug) as [org|];
      try (injection H as <- _ || injection H as <-); try (exists [], []; apply rtc_refl); exists org, slug;
      (eapply doing_transaction; [|exact H]); apply login_does.
  - destruct (current_identity token_hash now ttl slug token d) as [d1 ri] eqn:Ei.
    assert (forall i, ri = inl (Some i) -> actor d (now, Ask slug token a) = Some i) as Hactor.
    { intros i ->. unfold actor. cbn. by rewrite Ei. }
    assert (exists org, does (organization_only org slug) d d1) as [org0 Hd0].
    { unfold current_identity in Ei. destruct token as [token|]; [|injection Ei as <- _; exists []; apply rtc_refl]. st_read Ei. cbn in Ei.
      destruct (organization_of d slug) as [org|]; [exists org|exists []]; (eapply doing_transaction; [|exact Ei]); apply resolve_does. }
    apply bind_run in E as [(oi & d2 & H & E)|(e & H & _)]; rewrite H in Ei; injection Ei as -> <-; [|left; by exists org0, slug].
    destruct (guard (declared a) oi) as [i|e] eqn:Eg; [|injection E as <- _; left; by exists org0, slug].
    assert (oi = Some i) as ->.
    { unfold guard in Eg. destruct oi as [j|]; [|done]. repeat case_match; congruence. }
    right. destruct (resolved _ _ _ _ _ _ H) as (org & Hor & Hp & Ha & Hd). exists i, d1, org, slug. split_and!; auto.
    eapply doing_transaction; [|exact E]. by apply perform_does.
Qed.

(** What a login that is let in leaves. *)
Lemma login_run p now token rq d d' i :
  login ulid token_hash argon2 p now ttl token rq d = (d', inl i) ->
  exists u s,
    login_lookup p d (lq_username rq) = Some u /\ verify_password argon2 (us_password_hash u) (lq_password rq) = true /\
    device_problem d rq = None /\ active_in (pn_org p) (us_id u) d /\
    s = PlatformSession (ulid (di_issued d)) (us_id u) (lq_kind rq) (match lq_kind rq with App => lq_device rq | Console => None end)
          (token_hash token) None (now + ttl) None /\
    fresh se_token_hash s (di_sessions d) = true /\ di_sessions d' = di_sessions d ++ [s] /\
    di_people d' = map (fun v => if str_eqb (us_id v) (us_id u) && str_eqb (us_org v) (pn_org p) then noted_login now v else v) (di_people d) /\
    di_memberships d' = di_memberships d /\ di_orgs d' = di_orgs d /\
    (lq_kind rq = App -> forall h, h ∈ di_handsets d' -> lq_device rq = Some (ha_id h) -> ha_user h = Some (us_id u)) /\
    i = Identity (se_id s) (us_id u) (us_username u) (us_display_name u) (se_kind s) (se_device s)
          (principal_for d' (us_id u) (us_org u) (pn_slug p)) (now + ttl).
Proof.
  cbv beta delta [login issue naming insert_session insert_row bind_device note_login asks writes unless refuse mbind ST_bind mret ST_ret id].
  cbv beta iota zeta. destruct (login_lookup p d (lq_username rq)) as [u|] eqn:Eu; [|done].
  destruct (verify_password _ _ _) eqn:Ev; [|done]. destruct (device_problem d rq) as [why|] eqn:Ed; [done|]. cbv beta iota zeta.
  set (s := PlatformSession _ _ _ _ _ _ _ _). destruct (sees_session _ _ _) eqn:Ep; [|done].
  destruct (fresh se_id s _ && _ && _ && _ && _) eqn:Ec; [|done]. cbv beta iota zeta. intros H.
  assert (active_in (pn_org p) (us_id u) d) as Ha by (by apply may_hold_active).
  assert (fresh se_token_hash s (di_sessions d) = true) as Hf.
  { repeat apply andb_true_iff in Ec as [Ec ?]. done. }
  exists u, s. destruct (lq_kind rq) eqn:Ek; injection H as <- <-; cbn.
  - split_and!; try done.
  - split_and!; try done. intros _ h (h0 & Hh & _)%list_elem_of_In%in_map_iff Hd. case_bool_decide as Hb; [by subst h|].
    subst h0. congruence.
Qed.
End Serving.
