(* ===== verification/Quality.v ===== *)
(** * Quality rules: quality/service.py (item 6)

    Running a project's rules over a submission and recording what they said.
    A rule is an IR expression that holds when it is true; one that reads an
    answer the server cannot read, or that cannot be evaluated, is recorded
    as not evaluated. *)

From S2P Require Import Prelude PyStr PyNum PyDate Value Expr Expression Server DatasetKeys.

Record rule := Rule {
  ru_id : pystr;
  ru_name : pystr;
  ru_definition : value;
  ru_severity : pystr;
  ru_path : option pystr
}.

Record outcome := Outcome {
  oc_rule : rule;
  oc_violation : bool;                     (* [VIOLATION] or [NOT_EVALUATED] *)
  oc_detail : detail
}.

(** ** What a rule reads *)

(** [_refs]: every [ref] path, however deep. *)
Fixpoint refs (v : value) : gset pystr :=
  match v with
  | VDict d =>
      (match dget d "op", dget d "path" with
       | Some (VStr op), Some (VStr p) => if str_eqb op "ref" then {[ p ]} else ∅
       | _, _ => ∅
       end) ∪ ⋃ (map (fun kv => refs kv.2) d)
  | VList l => ⋃ (map refs l)
  | _ => ∅
  end.

Definition paths_read (definition : value) : gset pystr := refs definition.

(** ** The rules *)

Section Rules.
Context `{PyEnv}.

(** The fold's answers over the form's declared questions, unanswered null. *)
Definition resolved_values (values : odict value) (known_paths : list pystr) : odict value :=
  fold_left (fun d kv => dset d kv.1 kv.2) values (fold_left (fun d p => dset d p VNone) known_paths []).

Definition rule_context (values : odict value) (known_paths : list pystr) (today : date) (now : pystr) : eval_ctx :=
  EvalCtx (resolved_values values known_paths) today now None [] None [] None.

(** The exceptions the loop catches. *)
Definition rule_error (e : exn) : bool :=
  match e with EvaluationError _ => true | _ => is_compile_error e end.

(** One rule's verdict; [None] when it has nothing to report. *)
Definition judge (ctx : eval_ctx) (unreadable : odict pystr) (r : rule) : res (option outcome) :=
  let reads := paths_read (ru_definition r) in
  match elements (filter (fun p => p ∉ dkeys (ctx_values ctx) /\ p ∉ dkeys unreadable) reads) with
  | (_ :: _) as unknown => Ok (Some (Outcome r false (UnknownPath (sort_str unknown))))
  | [] =>
      match elements (filter (fun p => p ∈ dkeys unreadable) reads) with
      | (_ :: _) as blind => Ok (Some (Outcome r false (Encrypted (sort_str blind))))
      | [] =>
          match evaluate ctx (expr_of (ru_definition r)) with
          | Ok VNone | Ok (VBool true) => Ok None
          | Ok _ => Ok (Some (Outcome r true FailedRule))
          | Raise e => if rule_error e then Ok (Some (Outcome r false (Invalid e))) else Raise e
          end
      end
  end.

Fixpoint judge_all (ctx : eval_ctx) (unreadable : odict pystr) (rules : list rule) : res (list outcome) :=
  match rules with
  | [] => Ok []
  | r :: rest =>
      o ← judge ctx unreadable r;
      os ← judge_all ctx unreadable rest;
      Ok (match o with Some o => o :: os | None => os end)
  end.

Definition evaluate_rules (rules : list rule) (values : odict value) (unreadable : odict pystr)
    (known_paths : list pystr) (today : date) (now : pystr) : res (list outcome) :=
  judge_all (rule_context values known_paths today now) unreadable rules.

(** [check_definition]: compiling a rule before it is stored, every path
    resolving to null ([_Anything], of which only the paths the rule reads
    matter). *)
Definition check_definition (definition : value) (today : date) (now : pystr) : res bool :=
  match evaluate (EvalCtx (map (fun p => (p, VNone)) (elements (paths_read definition))) today now None [] None [] None)
          (expr_of definition) with
  | Ok _ => Ok true
  | Raise e => if is_compile_error e then Ok false else if rule_error e then Ok true else Raise e
  end.

(** *** What a verdict list says *)

(** A rule all of whose paths the server can read. *)
Definition readable (ctx : eval_ctx) (unreadable : odict pystr) (r : rule) : Prop :=
  forall p, p ∈ paths_read (ru_definition r) -> p ∈ dkeys (ctx_values ctx) /\ p ∉ dkeys unreadable.

Definition passed (ctx : eval_ctx) (unreadable : odict pystr) (r : rule) : Prop :=
  readable ctx unreadable r /\
  (evaluate ctx (expr_of (ru_definition r)) = Ok VNone \/ evaluate ctx (expr_of (ru_definition r)) = Ok (VBool true)).

(** What an outcome claims is so. *)
Definition justified (ctx : eval_ctx) (unreadable : odict pystr) (o : outcome) : Prop :=
  let r := oc_rule o in
  match oc_detail o with
  | FailedRule => oc_violation o = true /\ readable ctx unreadable r /\
      exists v, evaluate ctx (expr_of (ru_definition r)) = Ok v /\ v <> VNone /\ v <> VBool true
  | UnknownPath ps => oc_violation o = false /\ ps <> [] /\
      forall p, p ∈ ps <-> p ∈ paths_read (ru_definition r) /\ p ∉ dkeys (ctx_values ctx) /\ p ∉ dkeys unreadable
  | Encrypted ps => oc_violation o = false /\ ps <> [] /\
      forall p, p ∈ ps <-> p ∈ paths_read (ru_definition r) /\ p ∈ dkeys unreadable
  | Invalid e => oc_violation o = false /\ evaluate ctx (expr_of (ru_definition r)) = Raise e
  end.

Lemma elements_nil (P : pystr -> Prop) `{!forall x, Decision (P x)} (X : gset pystr) :
  elements (filter P X) = [] -> forall p, p ∈ X -> ~ P p.
Proof. intros E p Hp HP. assert (p ∈ elements (filter P X)) as Hin by set_solver. rewrite E in Hin. set_solver. Qed.

Lemma elem_of_sort_str l p : p ∈ sort_str l <-> p ∈ l.
Proof. by rewrite sort_str_perm. Qed.

Lemma judge_spec ctx unreadable r o :
  judge ctx unreadable r = Ok o ->
  match o with
  | None => passed ctx unreadable r
  | Some o => oc_rule o = r /\ justified ctx unreadable o
  end.
Proof.
  unfold judge. destruct (elements (filter _ _)) as [|u us] eqn:Eu.
  2: { intros [= <-]. split; [done|]. split; [done|]. cbn [oc_rule oc_detail].
       change (insert_str u (sort_str us)) with (sort_str (u :: us)). split.
       - intros E. apply (not_elem_of_nil u). rewrite <- E. apply elem_of_sort_str. by left.
       - intros p. rewrite elem_of_sort_str, <- Eu, elem_of_elements, elem_of_filter. naive_solver. }
  pose proof (elements_nil _ _ Eu) as Hk. destruct (elements (filter (fun p => p ∈ dkeys unreadable) _)) as [|b bs] eqn:Eb.
  2: { intros [= <-]. split; [done|]. split; [done|]. cbn [oc_rule oc_detail].
       change (insert_str b (sort_str bs)) with (sort_str (b :: bs)). split.
       - intros E. apply (not_elem_of_nil b). rewrite <- E. apply elem_of_sort_str. by left.
       - intros p. rewrite elem_of_sort_str, <- Eb, elem_of_elements, elem_of_filter. naive_solver. }
  pose proof (elements_nil _ _ Eb) as Hb. clear Eu Eb.
  assert (readable ctx unreadable r) as Hr.
  { intros p Hp. specialize (Hk p Hp). specialize (Hb p Hp). cbv beta in Hk, Hb.
    destruct (decide (p ∈ dkeys (ctx_values ctx))); [done|]. naive_solver. }
  destruct (evaluate ctx _) as [v|e] eqn:Ev.
  - destruct v as [|[]| | | | |]; intros [= <-];
      first [split; [exact Hr|rewrite Ev; by auto] |
             split; [done|]; split; [done|]; split; [exact Hr|]; eexists; split; [exact Ev|]; split; discriminate].
  - destruct (rule_error e); intros [= <-]. split; [done|]. by split.
Qed.

Lemma judge_all_spec ctx unreadable rules os :
  judge_all ctx unreadable rules = Ok os ->
  (forall r, r ∈ rules -> passed ctx unreadable r \/ exists o, o ∈ os /\ oc_rule o = r) /\
  (forall o, o ∈ os -> justified ctx unreadable o) /\ sublist (map oc_rule os) rules.
Proof.
  revert os. induction rules as [|r rules IH]; intros os; cbn [judge_all].
  { intros [= <-]. split_and!; [| |reflexivity]; intros ? Hin; by apply not_elem_of_nil in Hin. }
  destruct (judge ctx unreadable r) as [o|] eqn:Ej; [|done]. cbn [mbind res_bind].
  destruct (judge_all ctx unreadable rules) as [os'|]; [|done]. intros [= <-].
  destruct (IH os' eq_refl) as (H1 & H2 & H3). apply judge_spec in Ej. destruct o as [o|].
  - destruct Ej as [Er Hj]. split_and!.
    + intros r' [->|Hr']%elem_of_cons; [right; exists o; split; [by left|done]|].
      destruct (H1 _ Hr') as [|(o' & Ho' & E)]; [by left|]. right. exists o'. split; [by right|done].
    + intros o' [->|Ho']%elem_of_cons; [done|by apply H2].
    + cbn [map]. rewrite Er. by constructor.
  - split_and!; [|done|by constructor]. intros r' [->|Hr']%elem_of_cons; [by left|by apply H1].
Qed.

(** ** On the server's tables *)

(** [ORDER BY r.name, r.id], under the database's collation. *)
Context (collate : pystr -> pystr -> comparison).

Definition rule_before (a b : rule) : bool :=
  match collate (ru_name a) (ru_name b) with
  | Lt => true
  | Eq => match collate (ru_id a) (ru_id b) with Gt => false | _ => true end
  | Gt => false
  end.

(** The submission's own form version. *)
Definition version_of (s : server) (submission_id : pystr) : option form_version :=
  match dget (sv_submissions s) submission_id with
  | Some sb => List.find (fun v => str_eqb (fv_id v) (sb_form_version sb)) (sv_versions s)
  | None => None
  end.

Definition applies (sb : submission) (v : form_version) (r : rule_row) : bool :=
  str_eqb (rl_project r) (sb_project sb) && rl_enabled r &&
  match rl_form r with None => true | Some f => str_eqb f (fv_form v) end.

Definition rules_for (s : server) (submission_id : pystr) : list rule :=
  match dget (sv_submissions s) submission_id, version_of s submission_id with
  | Some sb, Some v =>
      sort_by rule_before
        (map (fun r => Rule (rl_id r) (rl_name r) (rl_definition r) (rl_severity r) None)
           (List.filter (applies sb v) (sv_rules s)))
  | _, _ => []
  end.

(** [_question_ids] *)
Fixpoint question_ids (nodes : value) : list pystr :=
  match nodes with
  | VList l =>
      (fix go (l : list value) : list pystr :=
         match l with
         | [] => []
         | VDict d :: r =>
             (match vget d "type", vget d "id" with
              | VStr t, VStr i => if str_eqb t "question" then [i] else []
              | _, _ => []
              end) ++
             ((fix look (d : list (pystr * value)) : list pystr :=
                 match d with
                 | [] => []
                 | (k, x) :: rest => if decide (k = lit "children") then question_ids x else look rest
                 end) d) ++ go r
         | _ :: r => go r
         end) l
  | _ => []
  end.

Definition declared_paths (s : server) (submission_id : pystr) : list pystr :=
  match version_of s submission_id with
  | Some v => match fv_ir v with VDict d => question_ids (vget d "children") | _ => [] end
  | None => []
  end.

Context (ulid : N -> pystr).

Definition resolve_flag (submission_id : pystr) (now : Z) (f : flag) : flag :=
  if str_eqb (fl_submission f) submission_id && bool_decide (fl_resolved f = None)
  then Flag (fl_id f) (fl_submission f) (fl_rule f) (fl_path f) (fl_severity f) (fl_violation f) (fl_name f)
         (fl_definition f) (fl_detail f) (Some now)
  else f.

Definition insert_flag (submission_id : pystr) (s : server) (o : outcome) : server :=
  let r := oc_rule o in
  with_minted (sv_minted s + 1)
    (with_flags (sv_flags s ++ [Flag (ulid (sv_minted s)) submission_id (ru_id r) (ru_path r) (ru_severity r)
                                 (oc_violation o) (ru_name r) (ru_definition r) (oc_detail o) None]) s).

(** [record]: open flags resolved, today's outcomes inserted. *)
Definition record (s : server) (submission_id : pystr) (now : Z) (outcomes : list outcome) : server :=
  fold_left (insert_flag submission_id) outcomes
    (with_flags (map (resolve_flag submission_id now) (sv_flags s)) s).

Definition evaluate_and_record (s : server) (submission_id : pystr) (values : odict value)
    (unreadable : odict pystr) (today : date) (now : pystr) (at_ : Z) : server * res (list outcome) :=
  match rules_for s submission_id with
  | [] => (s, Ok [])
  | rules =>
      match evaluate_rules rules values unreadable (declared_paths s submission_id) today now with
      | Ok outcomes => (record s submission_id at_ outcomes, Ok outcomes)
      | Raise e => (s, Raise e)
      end
  end.

(** *** What the flags say after a run *)

(** The open flags of a submission. *)
Definition open_flags (s : server) (submission_id : pystr) : list flag :=
  List.filter (fun f => str_eqb (fl_submission f) submission_id && bool_decide (fl_resolved f = None)) (sv_flags s).

(** A flag that says what an outcome said, of the rule as it was. *)
Definition flag_of (submission_id : pystr) (o : outcome) (f : flag) : Prop :=
  fl_submission f = submission_id /\ fl_resolved f = None /\ fl_rule f = ru_id (oc_rule o) /\
  fl_name f = ru_name (oc_rule o) /\ fl_definition f = ru_definition (oc_rule o) /\
  fl_violation f = oc_violation o /\ fl_detail f = oc_detail o.

Lemma insert_flags_spec i os s :
  exists fresh, sv_flags (fold_left (insert_flag i) os s) = sv_flags s ++ fresh /\ Forall2 (flag_of i) os fresh.
Proof.
  revert s. induction os as [|o os IH]; intros s; cbn [fold_left].
  { exists []. split; [by rewrite app_nil_r|constructor]. }
  destruct (IH (insert_flag i s o)) as (fresh & -> & Hall). unfold insert_flag at 1. cbn [sv_flags with_minted with_flags].
  eexists. rewrite <- app_assoc. cbn [app]. split; [reflexivity|]. constructor; [|done]. by split_and!.
Qed.

Lemma resolve_flag_closes i now f :
  fl_submission (resolve_flag i now f) = i -> fl_resolved (resolve_flag i now f) <> None.
Proof.
  unfold resolve_flag. destruct (str_eqb_eq (fl_submission f) i) as [_ Hto].
  destruct (str_eqb (fl_submission f) i); [|intros E; by apply Hto in E].
  case_bool_decide; cbn [andb fl_resolved fl_submission]; done.
Qed.

Lemma record_spec s i now os :
  exists fresh, sv_flags (record s i now os) = map (resolve_flag i now) (sv_flags s) ++ fresh /\
    open_flags (record s i now os) i = fresh /\ Forall2 (flag_of i) os fresh.
Proof.
  unfold record. destruct (insert_flags_spec i os (with_flags (map (resolve_flag i now) (sv_flags s)) s)) as (fresh & E & Hall).
  exists fresh. split; [exact E|]. split; [|done]. unfold open_flags. rewrite E. cbn [sv_flags with_flags].
  rewrite List.filter_app.
  assert (List.filter (fun f => str_eqb (fl_submission f) i && bool_decide (fl_resolved f = None))
            (map (resolve_flag i now) (sv_flags s)) = []) as ->.
  { generalize (sv_flags s). intros l. induction l as [|f l IH]; [done|]. cbn [map List.filter].
    destruct (str_eqb _ _) eqn:Ef; [|done]. apply str_eqb_eq, resolve_flag_closes in Ef.
    by rewrite bool_decide_eq_false_2. }
  cbn [app]. clear E. induction Hall as [|o f os fresh Hf Hall IH]; [done|]. cbn [List.filter].
  destruct Hf as (Hs & Hres & _). rewrite Hs, str_eqb_refl, bool_decide_eq_true_2 by done. cbn [andb]. by rewrite IH.
Qed.

End Rules.
