(* ===== verification/Push.v ===== *)
(** * Sync push: sync/service.py (sync 2, 4, 6)

    One batch of operations through the gates: intake, admission against the
    device, form and submission, content keys, nonces and counters, the
    insertion the database has the last word on, and what follows from it
    (tombstones, media references, folds, rules, outbox, device counters).

    Row-level security is the parameter [may_open], the policy on opening a
    submission; the person pushing is taken to see the rows the push reads. *)

From S2P Require Import Prelude PyStr PyJson PyNum PyDate Value Expr Expression Compile Fold Status Server.
From S2P Require Import Media DatasetKeys Quality.

(** ** The wire *)

Record sync_op := SyncOp {
  so_id : pystr;
  so_submission : pystr;
  so_form : pystr;
  so_version : Z;
  so_kind : pystr;
  so_path : option pystr;
  so_value : value;
  so_ciphertext : option pystr;
  so_content_key : option pystr;
  so_nonce : option pystr;
  so_device : pystr;
  so_actor : option pystr;
  so_case : option pystr;
  so_counter : Z;
  so_wall_clock : pystr
}.

Definition NONCE_BYTES : nat := 12.

Definition PATH_KINDS : list pystr := [lit "set"; lit "unset"; lit "repeat_add"; lit "repeat_delete"].

(** [_hex_field]: absent, or nonempty hex of the expected length. *)
Definition hex_field (expect_bytes : option nat) (v : option pystr) : bool :=
  match v with
  | None => true
  | Some text =>
      match fromhex text with
      | None | Some [] => false
      | Some raw => match expect_bytes with Some n => (length raw =? n)%nat | None => true end
      end
  end.

Definition present {A} (o : option A) : bool := match o with Some _ => true | None => false end.

(** The validators of [SyncOp], after its fields are decoded. *)
Definition op_valid (op : sync_op) : bool :=
  hex_field None (so_ciphertext op) && hex_field (Some NONCE_BYTES) (so_nonce op) &&
  (negb (bool_decide (so_kind op ∈ PATH_KINDS)) ||
   match so_path op with Some (_ :: _) => true | _ => false end) &&
  (let encrypted := [present (so_ciphertext op); present (so_content_key op); present (so_nonce op)] in
   negb (existsb id encrypted) || forallb id encrypted) &&
  negb (present (so_ciphertext op) && negb (is_null (so_value op))).

Definition is_encrypted (op : sync_op) : bool := present (so_ciphertext op).

Definition op_nonce (op : sync_op) : list N :=
  match so_nonce op with Some t => default [] (fromhex t) | None => [] end.

(** A content key as it rides the batch. *)
Record key_in := KeyIn {
  ki_id : pystr;
  ki_submission : pystr;
  ki_device : pystr;
  ki_wraps : list wrapped_key               (* [wk_owner] is not read *)
}.

Inductive reason :=
| unknown_form_version | not_authorized | submission_closed | malformed
| unknown_content_key | nonce_reused | not_assigned.

#[global] Instance reason_eq_dec : EqDecision reason.
Proof. solve_decision. Defined.

Record rejected := Rejected { rj_op : option pystr; rj_reason : reason }.

Record response := Response {
  rp_accepted : list pystr;
  rp_rejected : list rejected;
  rp_cursor : Z
}.

(** What makes the whole batch fail: a row the database refuses outside a
    savepoint, an integer wider than its column, a rule that raises. *)
Inductive push_error :=
| IntegrityError
| DataError
| RuleError (e : exn).

(** ** Intake: one raw op at a time *)

Section Push.
Context `{PyEnv} (collate : pystr -> pystr -> comparison) (ulid : N -> pystr).
(** Pydantic's decoding of the fields of [SyncOp], and the insert policy. *)
Context (decode : odict value -> option sync_op) (may_open : server -> pystr -> submission -> bool).

(** [SyncOp.model_validate]; [None] is a validation error. *)
Definition validate (raw : odict value) : option sync_op :=
  match decode raw with
  | Some op => if op_valid op then Some op else None
  | None => None
  end.

Definition raw_id (raw : odict value) : option pystr :=
  match vget raw "opId" with VStr i => Some i | _ => None end.

Record intake := Intake { in_accepted : list pystr; in_rejected : list rejected; in_ops : list sync_op }.

Definition intake_one (st : intake) (raw : odict value) : intake :=
  match validate raw with
  | None => Intake (in_accepted st) (in_rejected st ++ [Rejected (raw_id raw) malformed]) (in_ops st)
  | Some op =>
      if bool_decide (so_id op ∈ map so_id (in_ops st))
      then Intake (in_accepted st ++ [so_id op]) (in_rejected st) (in_ops st)
      else Intake (in_accepted st) (in_rejected st) (in_ops st ++ [op])
  end.

Definition take_in (raw_ops : list (odict value)) : intake := fold_left intake_one raw_ops (Intake [] [] []).

(** ** Admission *)

Definition op_counter (op : sync_op) : pystr * Z := (so_device op, so_counter op).
Definition row_counter (r : op_row) : pystr * Z := (ro_device r, ro_counter r).

(** The rows an op of the batch may replay. *)
Definition known_rows (s : server) (ops : list sync_op) : list op_row :=
  List.filter (fun r => bool_decide (ro_id r ∈ map so_id ops) || bool_decide (row_counter r ∈ map op_counter ops))
    (sv_ops s).

Definition LOCAL_ACTOR : pystr := "usr_local".

Definition attribute (op : sync_op) (device : device) (batch_device : pystr) (actor_id : option pystr)
    : option pystr + reason :=
  match actor_id with
  | None => inl (so_actor op)
  | Some actor =>
      match (if str_eqb (so_device op) batch_device then Some actor else dv_user device) with
      | None => inr not_authorized
      | Some person =>
          match so_actor op with
          | None => inl (Some person)
          | Some a => if str_eqb a LOCAL_ACTOR || str_eqb a person then inl (Some person) else inr not_authorized
          end
      end
  end.

(** [resolve_form_version] *)
Definition resolve_form_version (s : server) (project_id form_key : pystr) (version : Z) : option pystr :=
  option_map fv_id (List.find (fun v => str_eqb (fv_project v) project_id && str_eqb (fv_form_key v) form_key &&
                                        (fv_version v =? version)) (sv_versions s)).

Definition ENVIRONMENT_PREFERENCE : list pystr := [lit "production"; lit "staging"; lit "development"].

(** [resolve_environment]: the preferred kind the project has. *)
Definition resolve_environment (s : server) (project_id : pystr) : option pystr :=
  let envs := fold_left (fun d e => dset d (en_kind e) (en_id e))
                (List.filter (fun e => str_eqb (en_project e) project_id) (sv_environments s)) [] in
  head (omap (dget envs) ENVIRONMENT_PREFERENCE).

(** A bind parameter wider than its column is an error of the driver. *)
Definition fits (bits : Z) (n : Z) : bool := n <? 2 ^ (bits - 1).

Inductive gated :=
| Admits (s : server) (attributed : option pystr)
| Rejects (attributed : option (option pystr)) (r : reason)
| Aborts (e : push_error).

(** The gate: who the op is filed under, and the tables with the submission
    it opens.  The attribution is kept even when a later check refuses. *)
Definition gate (s : server) (batch_device : pystr) (actor_id : option pystr) (op : sync_op) : gated :=
  match dget (sv_devices s) (so_device op) with
  | None => Rejects None not_authorized
  | Some device =>
      if dv_revoked device then Rejects None not_authorized
      else match attribute op device batch_device actor_id with
      | inr r => Rejects None r
      | inl attributed =>
          if negb (fits 32 (so_version op)) then Aborts DataError
          else match resolve_form_version s (dv_project device) (so_form op) (so_version op) with
          | None => Rejects (Some attributed) unknown_form_version
          | Some version =>
              match dget (sv_submissions s) (so_submission op) with
              | None =>
                  match resolve_environment s (dv_project device) with
                  | None => Rejects (Some attributed) not_authorized
                  | Some environment =>
                      let sb := Submission (dv_project device) environment version (so_case op) (so_device op)
                                  attributed (lit "draft") (so_wall_clock op) None in
                      if may_open s (so_submission op) sb
                      then Admits (with_submissions (dset (sv_submissions s) (so_submission op) sb) s) attributed
                      else Rejects (Some attributed) not_assigned
                  end
              | Some sb =>
                  if negb (str_eqb (sb_project sb) (dv_project device)) then Rejects (Some attributed) not_authorized
                  else if bool_decide (sb_status sb ∈ CLOSED) then Rejects (Some attributed) submission_closed
                  else if negb (str_eqb (sb_form_version sb) version)
                  then Rejects (Some attributed) unknown_form_version
                  else Admits s attributed
              end
          end
      end
  end.

(** [attributed] is the variable the loop assigns and the insertion reads. *)
Record admission := Admission {
  ad_server : server;
  ad_accepted : list pystr;
  ad_rejected : list rejected;
  ad_admitted : list sync_op;
  ad_attributed : option pystr
}.

Definition replayed (known_ids : list pystr) (known_counters : list (pystr * Z)) (op : sync_op) : bool :=
  bool_decide (so_id op ∈ known_ids) || bool_decide (op_counter op ∈ known_counters).

Definition admit_one (known_ids : list pystr) (known_counters : list (pystr * Z)) (batch_device : pystr)
    (actor_id : option pystr) (st : admission) (op : sync_op) : admission + push_error :=
  if replayed known_ids known_counters op
  then inl (Admission (ad_server st) (ad_accepted st ++ [so_id op]) (ad_rejected st) (ad_admitted st)
              (ad_attributed st))
  else
    match gate (ad_server st) batch_device actor_id op with
    | Admits s attributed =>
        inl (Admission s (ad_accepted st) (ad_rejected st) (ad_admitted st ++ [op]) attributed)
    | Rejects attributed r =>
        inl (Admission (ad_server st) (ad_accepted st) (ad_rejected st ++ [Rejected (Some (so_id op)) r])
               (ad_admitted st) (default (ad_attributed st) attributed))
    | Aborts e => inr e
    end.

Fixpoint admit_all (known_ids : list pystr) (known_counters : list (pystr * Z)) (batch_device : pystr)
    (actor_id : option pystr) (st : admission) (ops : list sync_op) : admission + push_error :=
  match ops with
  | [] => inl st
  | op :: r =>
      match admit_one known_ids known_counters batch_device actor_id st op with
      | inl st => admit_all known_ids known_counters batch_device actor_id st r
      | inr e => inr e
      end
  end.

(** ** Content keys *)

(** [_admit_content_keys]: the loop's state is the tables, the owners and the
    keys that will exist. *)
Record key_state := KeyState {
  ks_server : server;
  ks_owner : list (pystr * pystr);          (* (submission, device) pairs that have a key *)
  ks_admitted : odict pystr                 (* content key -> submission *)
}.

(** Inserting a key and its wraps; a primary key taken is an error. *)
Definition insert_key_rows (s : server) (k : key_in) : option server :=
  if dhas (sv_content_keys s) (ki_id k) || negb (bool_decide (NoDup (map wk_project_key (ki_wraps k)))) then None
  else Some (with_wrapped_keys (sv_wrapped_keys s ++
               map (fun w => WrappedKey (ki_id k) (wk_project_key w) (wk_ephemeral w) (wk_nonce w) (wk_wrapped w))
                 (ki_wraps k))
              (with_content_keys (dset (sv_content_keys s) (ki_id k) (ContentKey (ki_submission k) (ki_device k))) s)).

Definition admit_key (stored : odict content_key) (st : key_state) (k : key_in) : option key_state :=
  let s := ks_server st in
  match dget stored (ki_id k) with
  | Some ck => Some (KeyState s (ks_owner st) (dset (ks_admitted st) (ki_id k) (ck_submission ck)))
  | None =>
      match dget (sv_submissions s) (ki_submission k), dget (sv_devices s) (ki_device k) with
      | Some sb, Some device =>
          if dv_revoked device || negb (str_eqb (dv_project device) (sb_project sb)) ||
             bool_decide ((ki_submission k, ki_device k) ∈ ks_owner st) ||
             negb (forallb (fun w => bool_decide (wk_project_key w ∈ active_keys s (sb_project sb))) (ki_wraps k))
          then Some st
          else match insert_key_rows s k with
               | None => None
               | Some s => Some (KeyState s (ks_owner st ++ [(ki_submission k, ki_device k)])
                                   (dset (ks_admitted st) (ki_id k) (ki_submission k)))
               end
      | _, _ => Some st
      end
  end.

Fixpoint admit_keys (stored : odict content_key) (st : key_state) (keys : list key_in) : option key_state :=
  match keys with
  | [] => Some st
  | k :: r => match admit_key stored st k with Some st => admit_keys stored st r | None => None end
  end.

(** The keys already stored for a submission the batch carries a key for. *)
Definition stored_for (s : server) (keys : list key_in) : odict content_key :=
  List.filter (fun ick => bool_decide (ck_submission ick.2 ∈ map ki_submission keys)) (sv_content_keys s).

Definition admit_content_keys (s : server) (keys : list key_in) : option key_state :=
  let stored := stored_for s keys in
  admit_keys stored (KeyState s (map (fun ick => (ck_submission ick.2, ck_device ick.2)) stored) []) keys.

(** [key_submissions]: the admitted keys, and those the server already holds. *)
Definition key_submission (s : server) (admitted : odict pystr) (key_id : pystr) : option pystr :=
  match (if bool_decide (key_id = []) then None else dget (sv_content_keys s) key_id) with
  | Some ck => Some (ck_submission ck)
  | None => dget admitted key_id
  end.

Definition taken_nonces (s : server) (ops : list sync_op) : list (pystr * list N) :=
  omap (fun r => match ro_content_key r, ro_nonce r with
                 | Some k, Some n =>
                     if existsb (fun op => is_encrypted op && bool_decide (so_content_key op = Some k) && negb (bool_decide (k = [])) &&
                                           bool_decide (op_nonce op = n)) ops
                     then Some (k, n) else None
                 | _, _ => None
                 end) (sv_ops s).

(** ** The insertion loop *)

(** [SubmissionOp(...)]; its [server_seq] comes with the insertion. *)
Definition row_of (attributed : option pystr) (op : sync_op) : op_row :=
  OpRow (so_id op) (so_submission op) (so_kind op) (so_path op)
    (if is_encrypted op then None else Some (so_value op))
    (match so_ciphertext op with Some t => if bool_decide (t = []) then None else fromhex t | None => None end)
    (so_content_key op) (if is_encrypted op then Some (op_nonce op) else None) (so_device op) attributed
    (so_counter op) (so_wall_clock op) 0.

Record staging := Staging {
  sg_accepted : list pystr;
  sg_rejected : list rejected;
  sg_counters : list (pystr * Z);
  sg_nonces : list (pystr * list N);
  sg_rows : list op_row;
  sg_tombstones : odict tombstone;          (* by the op that made it *)
  sg_touched : odict (list pystr);
  sg_minted : N
}.

(** [f"{op.submission_id}:{op.path}"] *)
Definition instance_subject (op : sync_op) : pystr :=
  so_submission op ++ lit ":" ++ match so_path op with Some p => p | None => lit "None" end.

Definition tombstone_of (project_id id : pystr) (op : sync_op) : tombstone :=
  Tombstone id project_id (lit "repeat_instance") (instance_subject op) (so_submission op) (so_path op)
    (so_device op) (so_counter op) 0.

(** The crypto gate: the pair to take, or the reason. *)
Definition crypto_gate (key_submission : pystr -> option pystr) (taken : list (pystr * list N)) (op : sync_op)
    : list (pystr * list N) + reason :=
  match is_encrypted op, so_content_key op with
  | true, Some k =>
      if negb (bool_decide (key_submission k = Some (so_submission op))) then inr unknown_content_key
      else if bool_decide ((k, op_nonce op) ∈ taken) then inr nonce_reused
      else inl (taken ++ [(k, op_nonce op)])
  | _, _ => inl taken
  end.

Definition project_of (devices : odict device) (device_id : pystr) : pystr :=
  match dget devices device_id with Some d => dv_project d | None => [] end.

Definition stage_one (devices : odict device) (key_submission : pystr -> option pystr) (attributed : option pystr)
    (st : staging) (op : sync_op) : staging :=
  match crypto_gate key_submission (sg_nonces st) op with
  | inr r => Staging (sg_accepted st) (sg_rejected st ++ [Rejected (Some (so_id op)) r]) (sg_counters st) (sg_nonces st)
               (sg_rows st) (sg_tombstones st) (sg_touched st) (sg_minted st)
  | inl nonces =>
      if bool_decide (op_counter op ∈ sg_counters st)
      then Staging (sg_accepted st ++ [so_id op]) (sg_rejected st) (sg_counters st) nonces (sg_rows st)
             (sg_tombstones st) (sg_touched st) (sg_minted st)
      else
        let deletes := str_eqb (so_kind op) "repeat_delete" in
        Staging (sg_accepted st ++ [so_id op]) (sg_rejected st) (sg_counters st ++ [op_counter op]) nonces
          (sg_rows st ++ [row_of attributed op])
          (if deletes
           then dset (sg_tombstones st) (so_id op)
                  (tombstone_of (project_of devices (so_device op)) (ulid (sg_minted st)) op)
           else sg_tombstones st)
          (dset (sg_touched st) (so_submission op) (default [] (dget (sg_touched st) (so_submission op)) ++ [so_id op]))
          (if deletes then sg_minted st + 1 else sg_minted st)
  end.

(** ** [_insert_ops]: the database has the last word *)

Definition nonce_pair (r : op_row) : option (pystr * list N) :=
  match ro_content_key r, ro_nonce r with Some k, Some n => Some (k, n) | _, _ => None end.

Definition stamp (n : Z) (r : op_row) : op_row :=
  OpRow (ro_id r) (ro_submission r) (ro_kind r) (ro_path r) (ro_value r) (ro_ciphertext r) (ro_content_key r)
    (ro_nonce r) (ro_device r) (ro_actor r) (ro_counter r) (ro_wall_clock r) n.

(** The unique indexes, in the order they are checked, with what
    [_integrity_reason] makes of each: [Some None] is "already stored". *)
Definition conflict (log : list op_row) (r : op_row) : option (option reason) :=
  if bool_decide (ro_id r ∈ map ro_id log) then Some None
  else if match nonce_pair r with Some p => bool_decide (p ∈ omap nonce_pair log) | None => false end
  then Some (Some nonce_reused)
  else if bool_decide (row_counter r ∈ map row_counter log) then Some None
  else None.

Definition insert_row (s : server) (r : op_row) : server :=
  with_seq (sv_seq s + 1) (with_ops (sv_ops s ++ [stamp (sv_seq s + 1) r]) s).

(** One flush of all the rows; [None] is an [IntegrityError]. *)
Fixpoint insert_flush (s : server) (rows : list op_row) : option server :=
  match rows with
  | [] => Some s
  | r :: rest => match conflict (sv_ops s) r with None => insert_flush (insert_row s r) rest | Some _ => None end
  end.

(** A savepoint per row, naming the refused. *)
Definition insert_saved (st : server * odict (option reason)) (r : op_row) : server * odict (option reason) :=
  match conflict (sv_ops st.1) r with
  | None => (insert_row st.1 r, st.2)
  | Some why => (st.1, dset st.2 (ro_id r) why)
  end.

Definition insert_ops (s : server) (rows : list op_row) : server * odict (option reason) :=
  match insert_flush s rows with
  | Some s => (s, [])
  | None => fold_left insert_saved rows (s, [])
  end.

(** The verdicts of the refused: a stated reason moves the op from accepted
    to rejected. *)
Definition refuse_one (st : list pystr * list rejected) (ir : pystr * option reason) : list pystr * list rejected :=
  match ir.2 with
  | None => st
  | Some why => (remove_first ir.1 st.1, st.2 ++ [Rejected (Some ir.1) why])
  end.

Definition kept (refused : odict (option reason)) (touched : odict (list pystr)) : odict (list pystr) :=
  omap (fun it => match List.filter (fun i => negb (dhas refused i)) it.2 with
                  | [] => None
                  | ids => Some (it.1, ids)
                  end) touched.

Definition insert_tombstone (s : server) (t : tombstone) : server :=
  with_seq (sv_seq s + 1)
    (with_tombstones (sv_tombstones s ++
       [Tombstone (ts_id t) (ts_project t) (ts_subject_type t) (ts_subject_id t) (ts_submission t) (ts_path t)
          (ts_device t) (ts_counter t) (sv_seq s + 1)]) s).

Definition references_of (rows : list op_row) : list media_ref :=
  omap (fun r => if str_eqb (ro_kind r) "set" && negb (present (ro_ciphertext r))
                 then match media_reference_id (default VNone (ro_value r)) with
                      | Some i => Some (MediaRef i (ro_submission r) (ro_id r) (default [] (ro_path r)))
                      | None => None
                      end
                 else None) rows.

(** ** [_fold_submission] *)

Definition fold_row (r : op_row) : fold_op :=
  FoldOp (ro_kind r) (ro_path r) (default VNone (ro_value r)) (present (ro_ciphertext r)) (ro_content_key r)
    (ro_wall_clock r) (ro_seq r).

(** [ORDER BY counter, device_id] *)
Definition row_before (a b : op_row) : bool :=
  if ro_counter a =? ro_counter b
  then match collate (ro_device a) (ro_device b) with Gt => false | _ => true end
  else ro_counter a <? ro_counter b.

Definition rows_of (s : server) (submission_id : pystr) : list op_row :=
  sort_by row_before (List.filter (fun r => str_eqb (ro_submission r) submission_id) (sv_ops s)).

Definition fold_of (s : server) (submission_id : pystr) : fold := fold_ops (map fold_row (rows_of s submission_id)).

(** A column of a row the session holds: written only when it was changed. *)
Definition orm_write {A} `{EqDecision A} (held set now : A) : A := if decide (held = set) then now else set.

(** The status the machine moves [held] to, and its [finalized_at]. *)
Definition moved (held : submission) (folded : fold) : pystr * option pystr :=
  match event_for_folded (fo_status folded) with
  | None => (sb_status held, sb_finalized_at held)
  | Some event =>
      match next_status (sb_status held) event with
      | None => (sb_status held, sb_finalized_at held)
      | Some st => (st, fo_finalized_at folded)
      end
  end.

Definition set_status_columns (held : submission) (st : pystr) (finalized : option pystr) (now : submission) : submission :=
  Submission (sb_project now) (sb_environment now) (sb_form_version now) (sb_case now) (sb_origin_device now)
    (sb_created_by now) (orm_write (sb_status held) st (sb_status now)) (sb_started_at now)
    (orm_write (sb_finalized_at held) finalized (sb_finalized_at now)).

(** [held] is the submission as the push read it. *)
Definition refold (held : submission) (submission_id : pystr) (s : server) : server :=
  let folded := fold_of s submission_id in
  let '(st, finalized) := moved held folded in
  with_states (dset (sv_states s) submission_id (fo_data folded, fo_high_water folded))
    (match dget (sv_submissions s) submission_id with
     | Some sb => with_submissions (dset (sv_submissions s) submission_id (set_status_columns held st finalized sb)) s
     | None => s
     end).

(** ** One touched submission: fold, rules, outbox *)

Definition TOPIC : pystr := lit "sync.submission.ops_accepted".

Definition insert_event (project_id submission_id batch_device : pystr) (op_ids : list pystr) (s : server) : server :=
  with_minted (sv_minted s + 1)
    (with_outbox (sv_outbox s ++ [OutboxEvent (ulid (sv_minted s)) project_id TOPIC submission_id op_ids batch_device]) s).

(** The clocks a push reads: the rules' day and text, and its own. *)
Record clocks := Clocks { ck_today : date; ck_now : pystr; ck_at : Z }.

Definition settle_one (clk : clocks) (held : odict submission) (batch_device : pystr) (touched : pystr * list pystr)
    : ST server push_error unit := fun s =>
  let '(submission_id, op_ids) := touched in
  match dget held submission_id with
  | None => (s, inl tt)
  | Some sb =>
      let folded := fold_of s submission_id in
      match evaluate_and_record collate ulid (refold sb submission_id s) submission_id (fo_data folded)
              (fo_unreadable folded) (ck_today clk) (ck_now clk) (ck_at clk) with
      | (s, Raise e) => (s, inr (RuleError e))
      | (s, Ok _) => (insert_event (sb_project sb) submission_id batch_device op_ids s, inl tt)
      end
  end.

(** ** The devices *)

Definition report_pending (clk : clocks) (held : odict device) (batch_device : pystr) (pending : option Z) (s : server)
    : server :=
  match pending, dget held batch_device, dget (sv_devices s) batch_device with
  | Some n, Some _, Some d =>
      with_devices (dset (sv_devices s) batch_device
        (Device (dv_project d) (dv_user d) (dv_revoked d) (dv_last_counter d) (dv_last_sync d) (Some (n, ck_at clk)))) s
  | _, _, _ => s
  end.

Definition top_counter (rows : list op_row) (device_id : pystr) : Z :=
  match map ro_counter (List.filter (fun r => str_eqb (ro_device r) device_id) rows) with
  | [] => 0
  | c :: r => fold_left Z.max r c
  end.

Definition advance_one (clk : clocks) (held : odict device) (rows : list op_row) (s : server) (device_id : pystr) : server :=
  match dget held device_id, dget (sv_devices s) device_id with
  | Some h, Some d =>
      with_devices (dset (sv_devices s) device_id
        (Device (dv_project d) (dv_user d) (dv_revoked d)
           (orm_write (dv_last_counter h) (Z.max (dv_last_counter h) (top_counter rows device_id)) (dv_last_counter d))
           (Some (ck_at clk)) (dv_pending d))) s
  | _, _ => s
  end.

Definition advance_devices (clk : clocks) (held : odict device) (rows : list op_row) (s : server) : server :=
  fold_left (advance_one clk held rows) (remove_dups (map ro_device rows)) s.

(** [_server_cursor] *)
Definition server_cursor (s : server) : Z :=
  Z.max (fold_left Z.max (map ro_seq (sv_ops s)) 0) (fold_left Z.max (map ts_seq (sv_tombstones s)) 0).

(** ** The whole batch *)

(** Everything before the insertion, on what the push read. *)
Record plan := Plan {
  pl_server : server;                       (* with the submissions and keys the batch brought *)
  pl_staging : staging
}.

Definition prepare (batch_device : pystr) (raw_ops : list (odict value)) (raw_keys : list key_in)
    (actor_id : option pystr) (s : server) : plan + push_error :=
  let inn := take_in raw_ops in
  let ops := in_ops inn in
  if negb (forallb (fun op => fits 64 (so_counter op)) ops) then inr DataError
  else
    let known := known_rows s ops in
    let known_counters := map row_counter known in
    match admit_all (map ro_id known) known_counters batch_device actor_id
            (Admission s (in_accepted inn) (in_rejected inn) [] None) ops with
    | inr e => inr e
    | inl ad =>
        match admit_content_keys (ad_server ad) raw_keys with
        | None => inr IntegrityError
        | Some ks =>
            let s := ks_server ks in
            inl (Plan s
              (fold_left (stage_one (sv_devices s) (key_submission s (ks_admitted ks)) (ad_attributed ad))
                 (ad_admitted ad)
                 (Staging (ad_accepted ad) (ad_rejected ad) known_counters (taken_nonces s (ad_admitted ad)) [] [] []
                    (sv_minted s))))
        end
    end.

(** The insertion and what follows it, on the tables as they are by then. *)
Definition settle (clk : clocks) (batch_device : pystr) (pending : option Z) (p : plan)
    : ST server push_error response := fun s =>
  let st := pl_staging p in
  let held := pl_server p in
  let '(s, refused) := insert_ops (with_minted (sg_minted st) s) (sg_rows st) in
  let rows := List.filter (fun r => negb (dhas refused (ro_id r))) (sg_rows st) in
  let '(accepted, rejected) := fold_left refuse_one refused (sg_accepted st, sg_rejected st) in
  let touched := if bool_decide (refused = []) then sg_touched st else kept refused (sg_touched st) in
  let stones := omap (fun it => if dhas refused it.1 then None else Some it.2) (sg_tombstones st) in
  let s := fold_left insert_tombstone stones s in
  let s := register_pending_references (references_of rows) s in
  match each touched (settle_one clk (sv_submissions held) batch_device) s with
  | (s, inr e) => (s, inr e)
  | (s, inl _) =>
      let s := report_pending clk (sv_devices held) batch_device pending s in
      let s := advance_devices clk (sv_devices held) rows s in
      (s, inl (Response accepted rejected (server_cursor s)))
  end.

(** [push]; [concurrent] is what other transactions commit between what it
    read and what it writes. *)
Definition push (clk : clocks) (concurrent : server -> server) (batch_device : pystr) (raw_ops : list (odict value))
    (raw_keys : list key_in) (actor_id : option pystr) (pending : option Z) : ST server push_error response := fun s =>
  match prepare batch_device raw_ops raw_keys actor_id s with
  | inr e => (s, inr e)
  | inl p => settle clk batch_device pending p (concurrent (pl_server p))
  end.

(** ** The route: one transaction per request *)

Record push_request := PushRequest {
  pq_device : pystr;
  pq_ops : list (odict value);
  pq_keys : list key_in;
  pq_pending : option Z
}.

(** The session behind the request: its person and the device it speaks for. *)
Record identity := Identity { id_user : option pystr; id_device : pystr }.

(** [POST /push]; [None] is the refusal of [bound_device]. *)
Definition push_route (clk : clocks) (who : identity) (rq : push_request) (s : server)
    : server * option (response + push_error) :=
  if negb (str_eqb (id_device who) (pq_device rq)) then (s, None)
  else
    let '(s, r) := transact (push clk id (pq_device rq) (pq_ops rq) (pq_keys rq) (id_user who) (pq_pending rq)) s in
    (s, Some r).

End Push.
