(* ===== verification/PushFacts.v ===== *)
(** * What a push keeps and promises (sync 4, 6)

    The facts behind the push theorems: the insertion with its fallback, the
    log's unique indexes, the gates every stored row passed, the verdict of
    every op, and replay. *)

From S2P Require Import Prelude PyStr PyJson PyNum PyDate Value Expr Expression Compile Fold Status Server.
From S2P Require Import Media DatasetKeys Quality Push.

(** ** Insertion *)

(** The fallback, which names the refused, is the meaning of the insertion:
    the flush is the same thing when nothing is refused. *)
Lemma insert_flush_saved s rows s' refused :
  insert_flush s rows = Some s' -> fold_left insert_saved rows (s, refused) = (s', refused).
Proof.
  revert s. induction rows as [|r rows IH]; intros s; cbn [insert_flush fold_left]; [by intros [= ->]|].
  unfold insert_saved at 2. cbn [fst snd]. destruct (conflict (sv_ops s) r); [done|]. apply IH.
Qed.

Lemma insert_ops_saved s rows : insert_ops s rows = fold_left insert_saved rows (s, []).
Proof.
  unfold insert_ops. destruct (insert_flush s rows) as [s'|] eqn:E; [|done]. symmetry. by apply insert_flush_saved.
Qed.

(** Rows whose unique columns are all free and distinct. *)
Record insertable (log rows : list op_row) : Prop := {
  ins_ids : NoDup (map ro_id log ++ map ro_id rows);
  ins_nonces : NoDup (omap nonce_pair log ++ omap nonce_pair rows);
  ins_counters : NoDup (map row_counter log ++ map row_counter rows)
}.

Lemma conflict_none log r :
  conflict log r = None <->
  ro_id r ∉ map ro_id log /\ (forall p, nonce_pair r = Some p -> p ∉ omap nonce_pair log) /\
  row_counter r ∉ map row_counter log.
Proof.
  unfold conflict. case_bool_decide; [naive_solver|]. destruct (nonce_pair r) as [p|].
  - case_bool_decide; [naive_solver|]. case_bool_decide; naive_solver.
  - case_bool_decide; naive_solver.
Qed.

Lemma omap_stamp n r l : omap nonce_pair (l ++ [stamp n r]) = omap nonce_pair l ++ omap nonce_pair [r].
Proof. by rewrite omap_app. Qed.

Lemma insertable_cons log r rows n :
  insertable log (r :: rows) -> conflict log r = None /\ insertable (log ++ [stamp n r]) rows.
Proof.
  intros [Hi Hn Hc]. split.
  - apply conflict_none. cbn [map] in *. apply NoDup_app in Hi as (_ & Hi & _), Hc as (_ & Hc & _). split_and!.
    + intros Hin. apply (Hi _ Hin). by left.
    + intros p Ep Hin. apply NoDup_app in Hn as (_ & Hn & _). apply (Hn _ Hin). cbn. rewrite Ep. by left.
    + intros Hin. apply (Hc _ Hin). by left.
  - split.
    + rewrite map_app, <- app_assoc. exact Hi.
    + rewrite omap_stamp, <- app_assoc, <- omap_app. exact Hn.
    + rewrite map_app, <- app_assoc. exact Hc.
Qed.

Lemma insert_flush_insertable s rows :
  insertable (sv_ops s) rows -> insert_flush s rows <> None.
Proof.
  revert s. induction rows as [|r rows IH]; intros s Hi; cbn [insert_flush]; [done|].
  eapply insertable_cons in Hi as [-> Hi]. apply IH, Hi.
Qed.

(** What an insertion adds: the rows, stamped with the sequence in order. *)
Fixpoint stamped (n : Z) (rows : list op_row) : list op_row :=
  match rows with [] => [] | r :: rest => stamp n r :: stamped (n + 1) rest end.

Definition appended (s : server) (rows : list op_row) : server :=
  with_seq (sv_seq s + Z.of_nat (length rows)) (with_ops (sv_ops s ++ stamped (sv_seq s + 1) rows) s).

Lemma appended_nil s : appended s [] = s.
Proof. unfold appended. cbn. rewrite Z.add_0_r, app_nil_r. by destruct s. Qed.

Lemma appended_cons s r rows : appended (insert_row s r) rows = appended s (r :: rows).
Proof.
  destruct s. unfold appended, insert_row, with_seq, with_ops. cbn -[Z.add Z.of_nat]. rewrite <- app_assoc.
  f_equal. lia.
Qed.

Definition kept_rows (refused : odict (option reason)) (rows : list op_row) : list op_row :=
  List.filter (fun r => negb (dhas refused (ro_id r))) rows.

Lemma dhas_not {A} (d : odict A) k : dhas d k = false <-> k ∉ dkeys d.
Proof. rewrite <- dhas_spec. destruct (dhas d k); naive_solver. Qed.

Lemma insert_saved_run rows s refused s' refused' :
  NoDup (map ro_id rows) -> (forall r, r ∈ rows -> ro_id r ∉ dkeys refused) -> NoDup (dkeys refused) ->
  fold_left insert_saved rows (s, refused) = (s', refused') ->
  s' = appended s (kept_rows refused' rows) /\ NoDup (dkeys refused') /\
  (forall i, i ∈ dkeys refused -> i ∈ dkeys refused') /\
  (forall i, i ∈ dkeys refused' -> i ∈ dkeys refused \/ i ∈ map ro_id rows).
Proof.
  revert s refused. induction rows as [|r rows IH]; intros s refused Hn Hfresh Hd; cbn [fold_left].
  { intros [= <- <-]. split_and!; [by rewrite appended_nil|done|done|by left]. }
  cbn [map] in Hn. apply NoDup_cons in Hn as [Hr Hn].
  assert (ro_id r ∉ dkeys refused) as Hfr by (apply Hfresh; by left).
  unfold insert_saved at 2. cbn [fst snd]. destruct (conflict (sv_ops s) r) as [why|] eqn:Ec; intros Hrun.
  - apply IH in Hrun as (-> & Hd' & Hmono & Hin); [|done| |by apply NoDup_dkeys_dset].
    + split_and!; [|done| |].
      * unfold kept_rows. cbn [List.filter]. rewrite (proj2 (dhas_spec refused' (ro_id r))); [done|].
        apply Hmono. rewrite elem_dkeys_dset. by left.
      * intros i Hi. apply Hmono. rewrite elem_dkeys_dset. by right.
      * intros i [Hi|Hi]%Hin; [|right; by right]. apply elem_dkeys_dset in Hi as [->|Hi]; [right; by left|by left].
    + intros r' Hr'. rewrite elem_dkeys_dset. intros [E|Hi]; [|by eapply Hfresh; [right|]].
      apply Hr. rewrite <- E. by apply list_elem_of_fmap_2.
  - apply IH in Hrun as (-> & Hd' & Hmono & Hin); [|done|intros; apply Hfresh; by right|done].
    split_and!; [|done|done|].
    + unfold kept_rows. cbn [List.filter]. rewrite (proj2 (dhas_not refused' (ro_id r))).
      { cbn [negb]. by rewrite <- appended_cons. }
      intros [Hi|Hi]%Hin; [by apply Hfr|by apply Hr].
    + intros i [Hi|Hi]%Hin; [by left|right; by right].
Qed.

Lemma insert_ops_run s rows s' refused :
  NoDup (map ro_id rows) -> insert_ops s rows = (s', refused) ->
  s' = appended s (kept_rows refused rows) /\ NoDup (dkeys refused) /\ (forall i, i ∈ dkeys refused -> i ∈ map ro_id rows).
Proof.
  intros Hn. rewrite insert_ops_saved. intros Hrun.
  apply insert_saved_run in Hrun as (-> & Hd & _ & Hin); [|done|intros r _; apply not_elem_of_nil|constructor].
  split_and!; [done|done|]. intros i [Hi|Hi]%Hin; [by apply not_elem_of_nil in Hi|done].
Qed.

Lemma insert_ops_all s rows :
  insertable (sv_ops s) rows -> insert_ops s rows = (appended s rows, []).
Proof.
  intros Hi. unfold insert_ops. destruct (insert_flush s rows) as [s'|] eqn:E; [|by apply insert_flush_insertable in Hi].
  f_equal. clear Hi. revert s E. induction rows as [|r rows IH]; intros s; cbn [insert_flush].
  - intros [= ->]. by rewrite appended_nil.
  - destruct (conflict (sv_ops s) r); [done|]. intros ->%IH. apply appended_cons.
Qed.

(** *** The log's unique indexes *)

Record log_unique (log : list op_row) : Prop := {
  lu_ids : NoDup (map ro_id log);
  lu_nonces : NoDup (omap nonce_pair log);
  lu_counters : NoDup (map row_counter log)
}.

Lemma insertable_nil log : log_unique log -> insertable log [].
Proof. intros []. split; cbn; by rewrite app_nil_r. Qed.

Lemma insert_row_unique s r : log_unique (sv_ops s) -> conflict (sv_ops s) r = None -> log_unique (sv_ops (insert_row s r)).
Proof.
  intros [Hi Hn Hc] (H1 & H2 & H3)%conflict_none. split; cbn [insert_row sv_ops with_seq with_ops].
  - rewrite map_app. apply NoDup_app. split_and!; [done| |by apply NoDup_singleton].
    intros x Hx ->%list_elem_of_singleton. done.
  - rewrite omap_stamp. apply NoDup_app. split_and!; [done| |].
    + intros x Hx Hx'. cbn in Hx'. destruct (nonce_pair r) as [p|]; [|by apply not_elem_of_nil in Hx'].
      apply list_elem_of_singleton in Hx' as ->. by eapply H2.
    + cbn. destruct (nonce_pair r); [apply NoDup_singleton|constructor].
  - rewrite map_app. apply NoDup_app. split_and!; [done| |by apply NoDup_singleton].
    intros x Hx ->%list_elem_of_singleton. done.
Qed.

Lemma insert_ops_unique s rows : log_unique (sv_ops s) -> log_unique (sv_ops (insert_ops s rows).1).
Proof.
  rewrite insert_ops_saved. generalize (@nil (pystr * option reason)) as refused. revert s.
  induction rows as [|r rows IH]; intros s refused Hl; cbn [fold_left]; [done|].
  unfold insert_saved at 2. cbn [fst snd]. destruct (conflict (sv_ops s) r) eqn:Ec; [by apply IH|].
  apply IH. by apply insert_row_unique.
Qed.

(** *** The arrival sequence *)

Definition all_seqs (s : server) : list Z := map ro_seq (sv_ops s) ++ map ts_seq (sv_tombstones s).

Definition seq_ok (s : server) : Prop := NoDup (all_seqs s) /\ forall n, n ∈ all_seqs s -> n <= sv_seq s.

Lemma seq_next (s s' : server) :
  seq_ok s -> all_seqs s' ≡ₚ (sv_seq s + 1) :: all_seqs s -> sv_seq s' = sv_seq s + 1 -> seq_ok s'.
Proof.
  intros [Hn Hle] Hp E. split.
  - rewrite Hp. apply NoDup_cons. split; [|done]. intros Hin. apply Hle in Hin. lia.
  - intros n. rewrite Hp, E, elem_of_cons. intros [->|Hin]; [lia|]. apply Hle in Hin. lia.
Qed.

Lemma insert_row_seq s r : seq_ok s -> seq_ok (insert_row s r).
Proof.
  intros Hs. eapply seq_next; [exact Hs| |done]. unfold all_seqs, insert_row.
  cbn [sv_ops sv_tombstones with_seq with_ops]. rewrite map_app, <- app_assoc. cbn [map app ro_seq stamp].
  by rewrite <- Permutation_middle.
Qed.

Lemma insert_ops_seq s rows : seq_ok s -> seq_ok (insert_ops s rows).1.
Proof.
  rewrite insert_ops_saved. generalize (@nil (pystr * option reason)) as refused. revert s.
  induction rows as [|r rows IH]; intros s refused Hl; cbn [fold_left]; [done|].
  unfold insert_saved at 2. cbn [fst snd]. destruct (conflict (sv_ops s) r) eqn:Ec; [by apply IH|].
  apply IH. by apply insert_row_seq.
Qed.

Lemma insert_tombstone_seq s t : seq_ok s -> seq_ok (insert_tombstone s t).
Proof.
  intros Hs. eapply seq_next; [exact Hs| |done]. unfold all_seqs, insert_tombstone.
  cbn [sv_ops sv_tombstones with_seq with_tombstones]. rewrite map_app. cbn [map ts_seq].
  rewrite app_assoc, <- Permutation_cons_append. done.
Qed.

(** ** Intake and admission *)

(** The ops a batch's verdicts name. *)
Definition answers (accepted : list pystr) (rejected : list rejected) : list (option pystr) :=
  map Some accepted ++ map rj_op rejected.

Lemma answers_accept acc rej i : answers (acc ++ [i]) rej ≡ₚ Some i :: answers acc rej.
Proof. unfold answers. rewrite map_app, <- app_assoc. cbn. by rewrite <- Permutation_middle. Qed.

Lemma answers_reject acc rej i why : answers acc (rej ++ [Rejected i why]) ≡ₚ i :: answers acc rej.
Proof. unfold answers. rewrite map_app, app_assoc. cbn. by rewrite <- Permutation_cons_append. Qed.

Lemma perm_mid {A} (x : A) a b c : (x :: a) ++ b ++ c ≡ₚ a ++ b ++ x :: c.
Proof. by rewrite (app_assoc a b (x :: c)), <- Permutation_middle, <- app_assoc. Qed.

Lemma draft_open : lit "draft" ∉ CLOSED.
Proof. apply (bool_decide_eq_false_1 (lit "draft" ∈ CLOSED)). reflexivity. Qed.

Section Push.
Context (ulid : N -> pystr) (decode : odict value -> option sync_op) (may_open : server -> pystr -> submission -> bool).
Abbreviation validate := (validate decode) (only parsing).
Abbreviation take_in := (take_in decode) (only parsing).
Abbreviation gate := (gate may_open) (only parsing).
Abbreviation admit_one := (admit_one may_open) (only parsing).
Abbreviation admit_all := (admit_all may_open) (only parsing).

(** The id the verdict of a raw op names. *)
Definition verdict_id (raw : odict value) : option pystr :=
  match validate raw with Some op => Some (so_id op) | None => raw_id raw end.

Definition op_ids (ops : list sync_op) : list (option pystr) := map (fun op => Some (so_id op)) ops.

Record taken_in (raws : list (odict value)) (i : intake) : Prop := {
  ti_answers : answers (in_accepted i) (in_rejected i) ++ op_ids (in_ops i) ≡ₚ map verdict_id raws;
  ti_ids : NoDup (map so_id (in_ops i));
  ti_valid : forall op, op ∈ in_ops i -> op_valid op = true;
  ti_dups : forall x, x ∈ in_accepted i -> x ∈ map so_id (in_ops i)
}.

Lemma validate_valid raw op : validate raw = Some op -> op_valid op = true.
Proof. unfold Push.validate. destruct (decode raw); [|done]. destruct (op_valid _) eqn:E; [|done]. by intros [= <-]. Qed.

Lemma take_in_spec raws : taken_in raws (take_in raws).
Proof.
  unfold Push.take_in. induction raws as [|raw raws IH] using rev_ind.
  { split; cbn; [done|constructor|intros ? Hin; by apply not_elem_of_nil in Hin..]. }
  rewrite fold_left_app. cbn [fold_left]. destruct IH as [Ha Hn Hv Hd]. set (i := fold_left _ raws _) in *.
  unfold intake_one. assert (map verdict_id (raws ++ [raw]) ≡ₚ verdict_id raw :: map verdict_id raws) as Hm
    by (rewrite map_app; cbn; by rewrite <- Permutation_cons_append).
  unfold verdict_id in Hm at 2. destruct (validate raw) as [op|] eqn:Ev; cycle 1.
  { split; cbn [in_accepted in_rejected in_ops]; [|done..]. rewrite Hm, answers_reject, <- Ha. done. }
  case_bool_decide as Hin; split; cbn [in_accepted in_rejected in_ops].
  - rewrite Hm, answers_accept, <- Ha. done.
  - done.
  - done.
  - intros x [Hx|Hx]%elem_of_app; [by apply Hd|by apply list_elem_of_singleton in Hx as ->].
  - rewrite Hm, <- Ha. unfold op_ids. rewrite map_app, app_assoc. cbn. by rewrite <- Permutation_cons_append.
  - rewrite map_app. apply NoDup_app. split_and!; [done| |apply NoDup_singleton].
    intros x Hx ->%list_elem_of_singleton. done.
  - intros op' [Hop|Hop]%elem_of_app; [by apply Hv|]. apply list_elem_of_singleton in Hop as ->. by eapply validate_valid.
  - intros x Hx%Hd. rewrite map_app. apply elem_of_app. by left.
Qed.

(** *** The gates *)

(** Everything an admitted op was checked against. *)
Definition gated_ok (s : server) (op : sync_op) : Prop :=
  exists device sb, dget (sv_devices s) (so_device op) = Some device /\ dv_revoked device = false /\
    dget (sv_submissions s) (so_submission op) = Some sb /\ sb_project sb = dv_project device /\
    sb_status sb ∉ CLOSED /\
    resolve_form_version s (dv_project device) (so_form op) (so_version op) = Some (sb_form_version sb).

(** Submissions the batch opened: drafts, beside those already there. *)
Definition opened (s s' : server) : Prop :=
  s' = with_submissions (sv_submissions s') s /\
  (forall i sb, dget (sv_submissions s) i = Some sb -> dget (sv_submissions s') i = Some sb) /\
  (forall i sb, dget (sv_submissions s') i = Some sb ->
     dget (sv_submissions s) i = Some sb \/ dget (sv_submissions s) i = None /\ sb_status sb = lit "draft") /\
  (NoDup (dkeys (sv_submissions s)) -> NoDup (dkeys (sv_submissions s'))).

Lemma opened_refl s : opened s s.
Proof. split_and!; [by destruct s|done|by left|done]. Qed.

Lemma opened_trans s1 s2 s3 : opened s1 s2 -> opened s2 s3 -> opened s1 s3.
Proof.
  intros (E1 & H1 & K1 & N1) (E2 & H2 & K2 & N2). split_and!.
  - rewrite E2 at 1. rewrite E1. by destruct s1.
  - auto.
  - intros i sb [Hsb|[Hsb Hd]]%K2; [by apply K1|]. right. split; [|done].
    destruct (dget (sv_submissions s1) i) eqn:E; [|done]. apply H1 in E. congruence.
  - auto.
Qed.

Lemma opened_gated s s' op : opened s s' -> gated_ok s op -> gated_ok s' op.
Proof.
  intros (E & Hk & _) (d & sb & H1 & H2 & H3 & H4). exists d, sb. apply Hk in H3. rewrite E. cbn. done.
Qed.

Lemma gate_admits s batch actor op s' a :
  gate s batch actor op = Admits s' a ->
  opened s s' /\ gated_ok s' op /\
  exists device, dget (sv_devices s) (so_device op) = Some device /\ attribute op device batch actor = inl a.
Proof.
  unfold Push.gate. destruct (dget (sv_devices s) (so_device op)) as [d|] eqn:Ed; [|done].
  destruct (dv_revoked d) eqn:Er; [done|]. destruct (attribute op d batch actor) as [a'|] eqn:Ea; [|done].
  destruct (fits 32 _); [|done]. cbn [negb]. destruct (resolve_form_version _ _ _ _) as [v|] eqn:Ev; [|done].
  destruct (dget (sv_submissions s) (so_submission op)) as [sb|] eqn:Es.
  - destruct (str_eqb (sb_project sb) (dv_project d)) eqn:Ep; [|done]. case_bool_decide as Hc; [done|]. cbn [negb].
    destruct (str_eqb (sb_form_version sb) v) eqn:Efv; [|done]. intros [= <- <-].
    apply str_eqb_eq in Ep, Efv. subst v. split; [apply opened_refl|]. split; [|by eauto]. exists d, sb. done.
  - destruct (resolve_environment s (dv_project d)) as [env|] eqn:Ee; [|done]. cbn zeta.
    destruct (may_open _ _ _); [|done]. intros [= <- <-]. split; [|split; [|by eauto]].
    + split_and!; cbn [sv_submissions with_submissions]; [done| | |apply NoDup_dkeys_dset].
      * intros i sb Hsb. rewrite dget_dset_ne; [done|]. intros ->. congruence.
      * intros i sb. rewrite dget_dset. case_decide as Ei; [|by left]. subst i. intros [= <-]. by right.
    + eexists d, _. cbn [sv_devices sv_submissions with_submissions]. rewrite dget_dset_eq. split_and!; try done.
      apply draft_open.
Qed.

(** The admission loop, from its start to any point. *)
Record admitting (known_ids : list pystr) (known_counters : list (pystr * Z)) (batch : pystr) (actor : option pystr)
    (st0 : admission) (ops : list sync_op) (st : admission) : Prop := {
  am_opened : opened (ad_server st0) (ad_server st);
  am_answers : answers (ad_accepted st) (ad_rejected st) ++ op_ids (ad_admitted st) ≡ₚ
    answers (ad_accepted st0) (ad_rejected st0) ++ op_ids (ad_admitted st0) ++ op_ids ops;
  am_admitted : exists l, ad_admitted st = ad_admitted st0 ++ l /\ sublist l ops /\
    (forall op, op ∈ l -> replayed known_ids known_counters op = false /\ gated_ok (ad_server st) op);
  am_rejected : exists l, ad_rejected st = ad_rejected st0 ++ l /\
    (l = [] -> forall op, op ∈ ops -> replayed known_ids known_counters op = true \/ op ∈ ad_admitted st)
}.

Lemma admit_all_spec known_ids known_counters batch actor ops st0 st :
  admit_all known_ids known_counters batch actor st0 ops = inl st ->
  admitting known_ids known_counters batch actor st0 ops st.
Proof.
  revert st0. induction ops as [|op ops IH]; intros st0; cbn [Push.admit_all].
  { intros [= ->]. split; [apply opened_refl| | |].
    - unfold op_ids. cbn [map]. by rewrite app_nil_r.
    - exists []. rewrite app_nil_r. split_and!; [done|done|]. intros op Hop. by apply not_elem_of_nil in Hop.
    - exists []. rewrite app_nil_r. split; [done|]. intros _ op Hop. by apply not_elem_of_nil in Hop. }
  unfold Push.admit_one at 1. destruct (replayed known_ids known_counters op) eqn:Er.
  { intros Hrun. apply IH in Hrun as [Ho Ha (l & El & Hl & Hok) (l' & El' & Hall)].
    cbn [ad_server ad_accepted ad_rejected ad_admitted] in *. split; [done| | |].
    - rewrite Ha, answers_accept. apply perm_mid.
    - exists l. split_and!; [done|by constructor|done].
    - exists l'. split; [done|]. intros E op' [->|Hop]%elem_of_cons; [by left|by apply Hall]. }
  destruct (gate (ad_server st0) batch actor op) as [s a|a r|e] eqn:Eg; [| |done]; intros Hrun;
    apply IH in Hrun as [Ho Ha (l & El & Hl & Hok) (l' & El' & Hall)]; cbn [ad_server ad_accepted ad_rejected ad_admitted] in *.
  - apply gate_admits in Eg as (Ho' & Hg & _). split.
    + by eapply opened_trans.
    + rewrite Ha. unfold op_ids. rewrite map_app, <- !app_assoc. done.
    + exists (op :: l). rewrite El, <- app_assoc. split_and!; [done|by constructor|].
      intros op' [->|Hop]%elem_of_cons; [|by apply Hok]. split; [done|]. by eapply opened_gated.
    + exists l'. split; [done|]. intros E op' [->|Hop]%elem_of_cons; [|by apply Hall]. right.
      rewrite El, <- app_assoc. apply elem_of_app. right. by left.
  - split; [done| | |].
    + rewrite Ha, answers_reject. apply perm_mid.
    + exists l. split_and!; [done|by constructor|done].
    + eexists. rewrite El', <- app_assoc. split; [done|]. done.
Qed.

(** *** Content keys *)

(** Keys the batch brought: beside those already there, which stay. *)
Definition keyed (s s' : server) : Prop :=
  s' = with_wrapped_keys (sv_wrapped_keys s') (with_content_keys (sv_content_keys s') s) /\
  (forall k ck, dget (sv_content_keys s) k = Some ck -> dget (sv_content_keys s') k = Some ck) /\
  (NoDup (dkeys (sv_content_keys s)) -> NoDup (dkeys (sv_content_keys s'))).

Lemma keyed_refl s : keyed s s.
Proof. split_and!; [by destruct s|done|done]. Qed.

Lemma keyed_trans s1 s2 s3 : keyed s1 s2 -> keyed s2 s3 -> keyed s1 s3.
Proof.
  intros (E1 & H1 & N1) (E2 & H2 & N2). split_and!; [|auto..]. rewrite E2 at 1. rewrite E1. by destruct s1.
Qed.

Lemma insert_key_keyed s k s' :
  insert_key_rows s k = Some s' -> keyed s s' /\ dget (sv_content_keys s') (ki_id k) = Some (ContentKey (ki_submission k) (ki_device k)).
Proof.
  unfold insert_key_rows. destruct (dhas (sv_content_keys s) (ki_id k)) eqn:Eh; [done|]. cbn [orb].
  destruct (negb _); [done|]. intros [= <-]. cbn. rewrite dget_dset_eq. split; [|done]. split_and!; [by destruct s| |apply NoDup_dkeys_dset].
  intros k' ck Hk. cbn. rewrite dget_dset_ne; [done|]. intros ->. apply dhas_not in Eh.
  apply Eh, dget_elem. by eexists.
Qed.

Lemma admit_key_keyed stored st k st' : admit_key stored st k = Some st' -> keyed (ks_server st) (ks_server st').
Proof.
  unfold admit_key. destruct (dget stored (ki_id k)); [intros [= <-]; apply keyed_refl|].
  destruct (dget _ (ki_submission k)) as [sb|]; [|intros [= <-]; apply keyed_refl].
  destruct (dget _ (ki_device k)) as [d|]; [|intros [= <-]; apply keyed_refl].
  destruct (_ || _); [intros [= <-]; apply keyed_refl|].
  destruct (insert_key_rows _ _) as [s|] eqn:Ek; [|done]. intros [= <-]. by apply insert_key_keyed in Ek as [? _].
Qed.

Lemma admit_keys_keyed stored keys st st' : admit_keys stored st keys = Some st' -> keyed (ks_server st) (ks_server st').
Proof.
  revert st. induction keys as [|k keys IH]; intros st; cbn [admit_keys]; [intros [= <-]; apply keyed_refl|].
  destruct (admit_key stored st k) as [st1|] eqn:E; [|done]. intros Hr. eapply keyed_trans; [by eapply admit_key_keyed|eauto].
Qed.

Lemma keyed_gated s s' op : keyed s s' -> gated_ok s op -> gated_ok s' op.
Proof. intros [-> _]. done. Qed.

(** Every key admitted by the batch is stored under its submission. *)
Definition keys_stored (st : key_state) : Prop :=
  forall k sub, dget (ks_admitted st) k = Some sub -> exists ck, dget (sv_content_keys (ks_server st)) k = Some ck /\ ck_submission ck = sub.

Lemma admit_key_stored stored st k st' :
  (forall k ck, dget stored k = Some ck -> dget (sv_content_keys (ks_server st)) k = Some ck) ->
  keys_stored st -> admit_key stored st k = Some st' -> keys_stored st'.
Proof.
  intros Hs Hk. unfold admit_key. destruct (dget stored (ki_id k)) as [ck|] eqn:Est.
  { intros [= <-] k' sub. cbn. rewrite dget_dset. case_decide; [|by apply Hk]. subst. intros [= <-]. eauto. }
  destruct (dget _ (ki_submission k)) as [sb|]; [|by intros [= <-]].
  destruct (dget _ (ki_device k)) as [d|]; [|by intros [= <-]].
  destruct (_ || _); [by intros [= <-]|].
  destruct (insert_key_rows _ _) as [s|] eqn:Ek; [|done]. apply insert_key_keyed in Ek as [(_ & Hmono & _) Hnew].
  intros [= <-] k' sub. cbn. rewrite dget_dset. case_decide; subst; [intros [= <-]; by eauto|].
  intros (ck & Hck & E)%Hk. eauto.
Qed.

Lemma admit_keys_stored stored keys st st' :
  (forall k ck, dget stored k = Some ck -> dget (sv_content_keys (ks_server st)) k = Some ck) ->
  keys_stored st -> admit_keys stored st keys = Some st' -> keys_stored st'.
Proof.
  revert st. induction keys as [|k keys IH]; intros st Hs Hk; cbn [admit_keys]; [by intros [= <-]|].
  destruct (admit_key stored st k) as [st1|] eqn:E; [|done]. apply IH; [|by eapply admit_key_stored].
  intros k' ck Hck. apply admit_key_keyed in E as (_ & Hmono & _). auto.
Qed.

(** ** Staging *)

Definition op_pair (op : sync_op) : option (pystr * list N) :=
  match is_encrypted op, so_content_key op with true, Some k => Some (k, op_nonce op) | _, _ => None end.

Lemma nonce_pair_row a op : nonce_pair (row_of a op) = op_pair op.
Proof. unfold nonce_pair, op_pair, row_of. cbn. destruct (so_content_key op), (is_encrypted op); done. Qed.

Definition key_ok (key_submission : pystr -> option pystr) (op : sync_op) : Prop :=
  forall k, is_encrypted op = true -> so_content_key op = Some k -> key_submission k = Some (so_submission op).

Lemma crypto_gate_ok ks taken op nonces :
  crypto_gate ks taken op = inl nonces ->
  key_ok ks op /\ nonces = taken ++ option_list (op_pair op) /\ (forall p, op_pair op = Some p -> p ∉ taken).
Proof.
  unfold crypto_gate, key_ok, op_pair. destruct (is_encrypted op), (so_content_key op) as [k|].
  - case_bool_decide as Hk; cbn [negb]; [|done]. case_bool_decide as Hin; [done|]. intros [= <-].
    split_and!; [by intros k' _ [= <-]|done|by intros p [= <-]].
  - intros [= <-]. cbn. rewrite app_nil_r. naive_solver.
  - intros [= <-]. cbn. rewrite app_nil_r. naive_solver.
  - intros [= <-]. cbn. rewrite app_nil_r. naive_solver.
Qed.

(** The ops of a submission among the staged, as the outbox will name them. *)
Definition ids_for (sub : pystr) (l : list sync_op) : list pystr :=
  map so_id (List.filter (fun op => str_eqb (so_submission op) sub) l).

Record staged (ks : pystr -> option pystr) (a : option pystr) (st0 : staging) (ops : list sync_op) (l : list sync_op)
    (st : staging) : Prop := {
  sd_sub : sublist l ops;
  sd_rows : sg_rows st = map (row_of a) l;
  sd_answers : answers (sg_accepted st) (sg_rejected st) ≡ₚ answers (sg_accepted st0) (sg_rejected st0) ++ op_ids ops;
  sd_accepted : exists acc, sg_accepted st = sg_accepted st0 ++ acc /\ forall op, op ∈ l -> so_id op ∈ acc;
  sd_counters : sg_counters st = sg_counters st0 ++ map op_counter l;
  sd_counters_nodup : NoDup (map op_counter l);
  sd_nonces : exists more, sg_nonces st = sg_nonces st0 ++ more /\ sublist (omap op_pair l) more;
  sd_nonces_nodup : NoDup (omap op_pair l) /\ forall p, p ∈ omap op_pair l -> p ∉ sg_nonces st0;
  sd_keys : forall op, op ∈ l -> key_ok ks op;
  sd_touched : forall sub, dget (sg_touched st) sub = match ids_for sub l with [] => None | ids => Some ids end;
  sd_touched_keys : NoDup (dkeys (sg_touched st));
  sd_rejected : exists r, sg_rejected st = sg_rejected st0 ++ r /\
    (r = [] -> forall op, op ∈ ops -> op_counter op ∈ sg_counters st)
}.

Lemma ids_for_app sub l op :
  ids_for sub (l ++ [op]) = ids_for sub l ++ (if str_eqb (so_submission op) sub then [so_id op] else []).
Proof. unfold ids_for. rewrite List.filter_app, map_app. cbn. by destruct (str_eqb _ _). Qed.

Local Ltac stg := cbn [sg_accepted sg_rejected sg_counters sg_nonces sg_rows sg_tombstones sg_touched sg_minted].

Lemma stage_one_spec devices ks a st0 ops l st op :
  staged ks a st0 ops l st ->
  exists l', staged ks a st0 (ops ++ [op]) l' (stage_one ulid devices ks a st op) /\ (l' = l \/ l' = l ++ [op]).
Proof.
  intros [H1 H2 H3 (acc & H4 & H4') H5 H6 (more & H7 & H7') [H8 H8'] H9 H10 H11 (rj & H12 & H12')]. unfold stage_one.
  assert (op_ids (ops ++ [op]) = op_ids ops ++ [Some (so_id op)]) as Eo by (unfold op_ids; by rewrite map_app).
  destruct (crypto_gate ks (sg_nonces st) op) as [nonces|r] eqn:Eg.
  2: { exists l. split; [|by left]. split; stg; try done.
       - apply sublist_inserts_r. done.
       - rewrite answers_reject, H3, Eo, (app_assoc _ _ [_]). apply Permutation_cons_append.
       - by exists acc.
       - by exists more.
       - eexists. rewrite H12, <- app_assoc. split; [done|]. intros E. by destruct rj. }
  apply crypto_gate_ok in Eg as (Hk & -> & Hfree). case_bool_decide as Hc.
  - exists l. split; [|by left]. split; stg; try done.
    + apply sublist_inserts_r. done.
    + rewrite answers_accept, H3, Eo, (app_assoc _ _ [_]). apply Permutation_cons_append.
    + exists (acc ++ [so_id op]). rewrite H4, <- app_assoc. split; [done|]. intros op' Hop. apply elem_of_app. left. by apply H4'.
    + exists (more ++ option_list (op_pair op)). rewrite H7, <- app_assoc. split; [done|]. by apply sublist_inserts_r.
    + exists rj. split; [done|]. intros E op' [Hop|Hop]%elem_of_app; [by apply H12'|by apply list_elem_of_singleton in Hop as ->].
  - exists (l ++ [op]). split; [|by right]. split; stg.
    + apply sublist_app; [done|reflexivity].
    + rewrite H2, map_app. done.
    + rewrite answers_accept, H3, Eo, (app_assoc _ _ [_]). apply Permutation_cons_append.
    + exists (acc ++ [so_id op]). rewrite H4, <- app_assoc. split; [done|].
      intros op' [Hop|Hop]%elem_of_app; apply elem_of_app; [left; by apply H4'|right]. apply list_elem_of_singleton in Hop as ->. by left.
    + by rewrite H5, map_app, app_assoc.
    + rewrite map_app. apply NoDup_app. split_and!; [done| |apply NoDup_singleton].
      intros x Hx ->%list_elem_of_singleton. apply Hc. rewrite H5. apply elem_of_app. by right.
    + exists (more ++ option_list (op_pair op)). rewrite H7, <- app_assoc. split; [done|]. rewrite omap_app.
      apply sublist_app; [done|]. cbn. by destruct (op_pair op).
    + rewrite omap_app. cbn. destruct (op_pair op) as [p|] eqn:Ep; [|by rewrite app_nil_r]. specialize (Hfree p eq_refl). rewrite H7 in Hfree.
      split.
      * apply NoDup_app. split_and!; [done| |apply NoDup_singleton]. intros x Hx ->%list_elem_of_singleton. apply Hfree, elem_of_app.
        right. by eapply elem_of_submseteq; [|apply sublist_submseteq].
      * intros q [Hq|Hq]%elem_of_app; [by apply H8'|]. apply list_elem_of_singleton in Hq as ->. intros Hin. apply Hfree, elem_of_app. by left.
    + intros op' [Hop|Hop]%elem_of_app; [by apply H9|]. by apply list_elem_of_singleton in Hop as ->.
    + intros sub. rewrite ids_for_app, dget_dset. destruct (str_eqb_eq (so_submission op) sub) as [Hto Hfrom]. case_decide as Es.
      * subst sub. rewrite str_eqb_refl, H10. destruct (ids_for _ l); done.
      * destruct (str_eqb _ _); [by rewrite Hto in Es|]. rewrite app_nil_r. apply H10.
    + by apply NoDup_dkeys_dset.
    + exists rj. split; [done|]. intros E op' [Hop|Hop]%elem_of_app; apply elem_of_app; [left; by apply H12'|right].
      apply list_elem_of_singleton in Hop as ->. by left.
Qed.

Lemma stage_spec devices ks a st0 ops :
  sg_rows st0 = [] -> sg_touched st0 = [] ->
  exists l, staged ks a st0 ops l (fold_left (stage_one ulid devices ks a) ops st0).
Proof.
  intros Er Et. induction ops as [|op ops [l Hl]] using rev_ind.
  - exists []. split; cbn [fold_left omap list_omap map].
    + constructor.
    + done.
    + unfold op_ids. cbn [map]. by rewrite app_nil_r.
    + exists []. rewrite app_nil_r. split; [done|]. intros op Hop. by apply not_elem_of_nil in Hop.
    + by rewrite app_nil_r.
    + constructor.
    + exists []. by rewrite app_nil_r.
    + split; [constructor|]. intros p Hp. by apply not_elem_of_nil in Hp.
    + intros op Hop. by apply not_elem_of_nil in Hop.
    + intros sub. by rewrite Et.
    + rewrite Et. constructor.
    + exists []. rewrite app_nil_r. split; [done|]. intros _ op Hop. by apply not_elem_of_nil in Hop.
  - rewrite fold_left_app. cbn [fold_left]. eapply stage_one_spec in Hl as (l' & Hl' & _). by eexists.
Qed.

(** ** What a push has settled before it writes *)

(** [ContentKeyIn]: a key's id is not empty. *)
Definition keys_named (keys : list key_in) : Prop := forall k, k ∈ keys -> ki_id k <> [].

Definition tables_ok (s : server) : Prop := NoDup (dkeys (sv_submissions s)) /\ NoDup (dkeys (sv_content_keys s)).

(** The key an encrypted op names is stored for the op's submission. *)
Definition key_held (s : server) (op : sync_op) : Prop :=
  forall k, is_encrypted op = true -> so_content_key op = Some k ->
    exists ck, dget (sv_content_keys s) k = Some ck /\ ck_submission ck = so_submission op.

Record prepared (s : server) (raws : list (odict value)) (p : plan) (l : list sync_op) (a : option pystr) : Prop := {
  pp_server : exists s1, opened s s1 /\ keyed s1 (pl_server p);
  pp_rows : sg_rows (pl_staging p) = map (row_of a) l;
  pp_sub : sublist l (in_ops (take_in raws));
  pp_ids : NoDup (map so_id l);
  pp_valid : forall op, op ∈ l -> op_valid op = true;
  pp_new : forall op, op ∈ l -> so_id op ∉ map ro_id (sv_ops s);
  pp_gated : forall op, op ∈ l -> gated_ok (pl_server p) op;
  pp_keys : forall op, op ∈ l -> key_held (pl_server p) op;
  pp_counters : NoDup (map op_counter l) /\ forall op, op ∈ l -> op_counter op ∉ map row_counter (sv_ops s);
  pp_nonces : NoDup (omap op_pair l) /\ forall q, q ∈ omap op_pair l -> q ∉ omap nonce_pair (sv_ops s);
  pp_answers : answers (sg_accepted (pl_staging p)) (sg_rejected (pl_staging p)) ≡ₚ map verdict_id raws;
  pp_accepted : forall op, op ∈ l -> so_id op ∈ sg_accepted (pl_staging p);
  pp_touched : forall sub, dget (sg_touched (pl_staging p)) sub = match ids_for sub l with [] => None | ids => Some ids end;
  pp_touched_keys : NoDup (dkeys (sg_touched (pl_staging p)));
  pp_rejected : sg_rejected (pl_staging p) = [] -> forall op, op ∈ in_ops (take_in raws) ->
    so_id op ∈ map ro_id (sv_ops s) \/ op_counter op ∈ map row_counter (sv_ops s) ++ map op_counter l
}.

Lemma known_rows_in s ops r :
  r ∈ known_rows s ops <-> r ∈ sv_ops s /\ (ro_id r ∈ map so_id ops \/ row_counter r ∈ map op_counter ops).
Proof.
  unfold known_rows. rewrite list_elem_of_In, filter_In, <- list_elem_of_In, orb_true_iff, !bool_decide_eq_true. done.
Qed.

Lemma replayed_log s ops op :
  op ∈ ops ->
  (replayed (map ro_id (known_rows s ops)) (map row_counter (known_rows s ops)) op = true <->
   so_id op ∈ map ro_id (sv_ops s) \/ op_counter op ∈ map row_counter (sv_ops s)).
Proof.
  intros Hop. unfold replayed. rewrite orb_true_iff, !bool_decide_eq_true, !list_elem_of_fmap. split.
  - intros [(r & E & [Hr _]%known_rows_in)|(r & E & [Hr _]%known_rows_in)]; eauto.
  - intros [(r & E & Hr)|(r & E & Hr)]; [left|right]; exists r; (split; [done|]); apply known_rows_in; split; try done;
      [left|right]; rewrite <- E; by apply list_elem_of_fmap_2.
Qed.

(** The counters the loop knows are those of the log, for an op of the batch. *)
Lemma known_counter s ops op :
  op ∈ ops -> (op_counter op ∈ map row_counter (known_rows s ops) <-> op_counter op ∈ map row_counter (sv_ops s)).
Proof.
  intros Hop. rewrite !list_elem_of_fmap. split.
  - intros (r & E & [Hr _]%known_rows_in); eauto.
  - intros (r & E & Hr). exists r. split; [done|]. apply known_rows_in. split; [done|]. right. rewrite <- E.
    by apply list_elem_of_fmap_2.
Qed.

Lemma taken_spec s ops op p :
  op ∈ ops -> op_pair op = Some p -> p.1 <> [] -> p ∈ omap nonce_pair (sv_ops s) -> p ∈ taken_nonces s ops.
Proof.
  intros Hop Ep Hne (r & Hr & E)%list_elem_of_omap. unfold taken_nonces. apply list_elem_of_omap. exists r. split; [done|].
  unfold nonce_pair in E. destruct (ro_content_key r) as [k|], (ro_nonce r) as [n|]; try done. injection E as <-.
  unfold op_pair in Ep. destruct (is_encrypted op) eqn:Ee; [|done]. destruct (so_content_key op) as [k'|] eqn:Ek; [|done].
  injection Ep as <- <-. cbn in Hne. rewrite (proj2 (existsb_exists _ _)); [done|]. exists op. split; [by apply list_elem_of_In|].
  rewrite Ee, Ek, (bool_decide_eq_true_2 (Some k' = Some k')), (bool_decide_eq_false_2 (k' = [])), bool_decide_eq_true_2 by done. done.
Qed.

(** The stored keys are found where the batch looks. *)
Lemma stored_for_get s keys k ck :
  NoDup (dkeys (sv_content_keys s)) -> dget (stored_for s keys) k = Some ck ->
  dget (sv_content_keys s) k = Some ck.
Proof.
  intros Hn Hk%dget_Some_elem. apply list_elem_of_In, filter_In in Hk as [Hk _].
  apply dget_elem_NoDup; [done|]. by apply list_elem_of_In.
Qed.

Lemma admit_content_keys_spec s keys st :
  NoDup (dkeys (sv_content_keys s)) -> admit_content_keys s keys = Some st ->
  keyed s (ks_server st) /\ keys_stored st.
Proof.
  intros Hn Hr. split; [by apply admit_keys_keyed in Hr|]. eapply admit_keys_stored; [| |exact Hr]; cbn.
  - intros k ck. by apply stored_for_get.
  - intros k sub. cbn. done.
Qed.

Lemma admit_keys_named stored keys st st' :
  keys_named keys -> (forall k, k ∈ dkeys (ks_admitted st) -> k <> []) ->
  admit_keys stored st keys = Some st' -> forall k, k ∈ dkeys (ks_admitted st') -> k <> [].
Proof.
  revert st. induction keys as [|k keys IH]; intros st Hk Hs; cbn [admit_keys]; [by intros [= <-]|].
  destruct (admit_key stored st k) as [st1|] eqn:E; [|done]. apply IH; [intros k' Hk'; apply Hk; by right|].
  assert (ki_id k <> []) as Hne by (apply Hk; by left). revert E. unfold admit_key.
  destruct (dget stored (ki_id k)) as [ck|].
  { intros [= <-] k'. cbn [ks_admitted]. rewrite elem_dkeys_dset. intros [->|Hin]; [done|by apply Hs]. }
  destruct (dget _ (ki_submission k)) as [sb|]; [|by intros [= <-]].
  destruct (dget _ (ki_device k)) as [d|]; [|by intros [= <-]].
  destruct (_ || _); [by intros [= <-]|]. destruct (insert_key_rows _ _) as [s|]; [|done].
  intros [= <-] k'. cbn [ks_admitted]. rewrite elem_dkeys_dset. intros [->|Hin]; [done|by apply Hs].
Qed.

Lemma key_ok_named s keys st op p :
  keys_named keys -> admit_content_keys s keys = Some st ->
  key_ok (key_submission (ks_server st) (ks_admitted st)) op -> op_pair op = Some p -> p.1 <> [].
Proof.
  intros Hk Hr Hok Hp. unfold op_pair in Hp. destruct (is_encrypted op) eqn:Ee; [|done].
  destruct (so_content_key op) as [k|] eqn:Ek; [|done]. injection Hp as <-. cbn. intros ->.
  specialize (Hok [] Ee Ek). unfold key_submission in Hok. rewrite bool_decide_eq_true_2 in Hok by done.
  eapply (admit_keys_named _ _ _ _ Hk) in Hr; [| |apply dget_elem; by eexists]; [done|].
  intros k Hin. by apply not_elem_of_nil in Hin.
Qed.

Lemma key_submission_held s st op :
  ks_server st = s -> keys_stored st -> key_ok (key_submission s (ks_admitted st)) op -> key_held s op.
Proof.
  intros Es Hst Hk k He Ek. specialize (Hk k He Ek). unfold key_submission in Hk. subst s.
  case_bool_decide; [by apply Hst in Hk|].
  destruct (dget (sv_content_keys (ks_server st)) k) as [ck|] eqn:E; [|by apply Hst in Hk as (ck & Hck & _); rewrite Hck in E].
  injection Hk as <-. eauto.
Qed.

Lemma opened_ops s s' : opened s s' -> sv_ops s' = sv_ops s.
Proof. by intros [-> _]. Qed.
Lemma keyed_ops s s' : keyed s s' -> sv_ops s' = sv_ops s.
Proof. by intros [-> _]. Qed.
Lemma opened_keys s s' : opened s s' -> sv_content_keys s' = sv_content_keys s.
Proof. by intros [-> _]. Qed.

Lemma elem_of_sublist {A} (l l' : list A) x : sublist l l' -> x ∈ l -> x ∈ l'.
Proof. intros Hs Hx. by eapply elem_of_submseteq; [|apply sublist_submseteq]. Qed.

Lemma prepare_spec batch raws keys actor s p :
  tables_ok s -> keys_named keys ->
  prepare ulid decode may_open batch raws keys actor s = inl p ->
  exists l a, prepared s raws p l a.
Proof.
  intros [_ Hck] Hkn. unfold prepare. pose proof (take_in_spec raws) as [Ta Tn Tv Td].
  destruct (forallb _ _); [|done]. cbn [negb].
  destruct (admit_all _ _ _ _ _ _) as [ad|e] eqn:Ea; [|done]. apply admit_all_spec in Ea.
  destruct Ea as [Ao Aa (adm & Eadm & Asub & Aok) (rj & Erj & Arj)]. cbn [ad_server ad_admitted ad_accepted ad_rejected app] in *.
  destruct (admit_content_keys (ad_server ad) keys) as [st|] eqn:Ek; [|done]. intros [= <-].
  pose proof (admit_content_keys_spec (ad_server ad) keys st) as [Kk Ks]; [by rewrite (opened_keys _ _ Ao)|done|].
  set (ops := in_ops (take_in raws)) in *. set (log := sv_ops s).
  assert (sv_ops (ks_server st) = log) as Elog by (rewrite (keyed_ops _ _ Kk), (opened_ops _ _ Ao); done).
  match goal with |- context [fold_left (stage_one _ ?d ?k ?a) _ ?st0] =>
    destruct (stage_spec d k a st0 (ad_admitted ad) eq_refl eq_refl) as [l Hl]; exists l, a end.
  destruct Hl as [S1 S2 S3 (acc & S4 & S4') S5 S6 _ [S8 S8'] S9 S10 S11 (rj' & S12 & S12')].
  cbn [sg_accepted sg_rejected sg_counters sg_nonces] in *. rewrite Eadm in *.
  assert (sublist l ops) as Hsub by by etrans.
  assert (forall op, op ∈ l -> op ∈ adm) as Hadm by (intros op; by apply elem_of_sublist).
  assert (forall op, op ∈ l -> op ∈ ops) as Hops by (intros op; by apply elem_of_sublist).
  assert (forall op, op ∈ l -> so_id op ∉ map ro_id log /\ op_counter op ∉ map row_counter log) as Hnew.
  { intros op Hop. destruct (Aok op (Hadm _ Hop)) as [Hr _]. apply not_true_iff_false in Hr.
    rewrite replayed_log in Hr by by apply Hops. tauto. }
  split; cbn [pl_server pl_staging].
  - by exists (ad_server ad).
  - done.
  - done.
  - eapply sublist_NoDup; [exact Tn|]. by apply sublist_map.
  - intros op Hop. by apply Tv, Hops.
  - intros op Hop. by apply Hnew.
  - intros op Hop. eapply keyed_gated; [done|]. by apply Aok, Hadm.
  - intros op Hop. eapply key_submission_held; [done|done|by apply S9].
  - split; [done|]. intros op Hop. by apply Hnew.
  - split; [done|]. intros q Hq Hin. destruct (proj1 (list_elem_of_omap _ _ _) Hq) as (op & Hop & Ep).
    apply (S8' q Hq). eapply taken_spec; [by apply Hadm|done| |by rewrite Elog].
    eapply key_ok_named; [done|exact Ek|by apply S9|done].
  - rewrite S3, Aa. cbn. done.
  - intros op Hop. rewrite S4. apply elem_of_app. right. by apply S4'.
  - done.
  - done.
  - rewrite S12, Erj. intros E op Hop. apply app_nil in E as [E ->]. apply app_nil in E as [_ ->].
    destruct (Arj eq_refl op Hop) as [Hr|Hr]; [rewrite replayed_log in Hr by done; set_solver|].
    specialize (S12' eq_refl op Hr). rewrite S5 in S12'. right. apply elem_of_app.
    apply elem_of_app in S12' as [Hc|Hc]; [left; by rewrite known_counter in Hc|by right].
Qed.

(** The pieces of a preparation that went through. *)
Lemma prepare_steps batch raws keys actor s p :
  prepare ulid decode may_open batch raws keys actor s = inl p -> NoDup (dkeys (sv_content_keys s)) ->
  exists st ad, NoDup (dkeys (sv_content_keys (ad_server ad))) /\ admit_content_keys (ad_server ad) keys = Some st /\
    pl_server p = ks_server st /\ (forall op, op ∈ in_ops (take_in raws) -> fits 64 (so_counter op) = true) /\
    exists r, sg_rejected (pl_staging p) = in_rejected (take_in raws) ++ r.
Proof.
  unfold prepare. intros Hr Hn. destruct (forallb _ _) eqn:Ef; [|done]. cbn [negb] in Hr.
  destruct (admit_all _ _ _ _ _ _) as [ad|e] eqn:Ea; [|done]. apply admit_all_spec in Ea as [Ao _ _ (rj & Erj & _)].
  destruct (admit_content_keys (ad_server ad) keys) as [st|] eqn:Ek; [|done]. injection Hr as <-.
  exists st, ad. split; [by destruct Ao as [-> _]|]. split; [done|]. split; [done|]. split.
  - intros op Hop. rewrite forallb_forall in Ef. apply Ef. by apply list_elem_of_In.
  - cbn [pl_staging]. match goal with |- context [fold_left (stage_one _ ?d ?k ?a) _ ?st0] =>
      destruct (stage_spec d k a st0 (ad_admitted ad) eq_refl eq_refl) as [l Hl] end.
    destruct (sd_rejected _ _ _ _ _ _ Hl) as (r & Er & _). rewrite Er. cbn [sg_rejected]. rewrite Erj, <- app_assoc. by eexists.
Qed.

Lemma rows_columns a l :
  map ro_id (map (row_of a) l) = map so_id l /\ map row_counter (map (row_of a) l) = map op_counter l /\
  omap nonce_pair (map (row_of a) l) = omap op_pair l.
Proof.
  rewrite !map_map. split_and!; [done|done|]. induction l as [|op l IH]; [done|]. cbn [map omap list_omap].
  rewrite nonce_pair_row. destruct (op_pair op); [f_equal|]; exact IH.
Qed.

Lemma prepared_insertable s raws p l a :
  log_unique (sv_ops s) -> prepared s raws p l a -> insertable (sv_ops s) (sg_rows (pl_staging p)).
Proof.
  intros [Hi Hn Hc] Hp. destruct (rows_columns a l) as (Ei & Ec & En). rewrite (pp_rows _ _ _ _ _ Hp).
  split; rewrite ?Ei, ?Ec, ?En; apply NoDup_app; split_and!; try done.
  - intros x Hx (op & -> & Hop)%list_elem_of_fmap. by eapply (pp_new _ _ _ _ _ Hp).
  - apply (pp_ids _ _ _ _ _ Hp).
  - intros x Hx Hx'. by eapply (pp_nonces _ _ _ _ _ Hp).
  - apply (pp_nonces _ _ _ _ _ Hp).
  - intros x Hx (op & -> & Hop)%list_elem_of_fmap. by eapply (pp_counters _ _ _ _ _ Hp).
  - apply (pp_counters _ _ _ _ _ Hp).
Qed.

Lemma prepared_log s raws p l a : prepared s raws p l a ->
  sv_ops (pl_server p) = sv_ops s /\ sv_tombstones (pl_server p) = sv_tombstones s /\ sv_seq (pl_server p) = sv_seq s /\
  sv_states (pl_server p) = sv_states s /\ sv_devices (pl_server p) = sv_devices s.
Proof. intros Hp. destruct (pp_server _ _ _ _ _ Hp) as (s1 & [-> _] & [-> _]). done. Qed.

(** ** What the rest of a push leaves alone *)

Context `{PyEnv} (collate : pystr -> pystr -> comparison).

Definition same_work (x y : submission) : Prop :=
  sb_project x = sb_project y /\ sb_environment x = sb_environment y /\ sb_form_version x = sb_form_version y /\
  sb_case x = sb_case y /\ sb_origin_device x = sb_origin_device y /\ sb_created_by x = sb_created_by y /\
  sb_started_at x = sb_started_at y.

Definition same_device (x y : device) : Prop :=
  dv_project x = dv_project y /\ dv_user x = dv_user y /\ dv_revoked x = dv_revoked y.

Record framed (s s' : server) : Prop := {
  fr_ops : sv_ops s' = sv_ops s;
  fr_stones : sv_tombstones s' = sv_tombstones s;
  fr_seq : sv_seq s' = sv_seq s;
  fr_content_keys : sv_content_keys s' = sv_content_keys s;
  fr_project_keys : sv_project_keys s' = sv_project_keys s;
  fr_versions : sv_versions s' = sv_versions s;
  fr_submission_keys : dkeys (sv_submissions s') = dkeys (sv_submissions s);
  fr_submissions : forall i, option_Forall2 same_work (dget (sv_submissions s) i) (dget (sv_submissions s') i);
  fr_devices : forall i, option_Forall2 same_device (dget (sv_devices s) i) (dget (sv_devices s') i)
}.

#[local] Instance same_work_refl : Reflexive same_work.
Proof. by intros x. Qed.
#[local] Instance same_work_trans : Transitive same_work.
Proof. unfold same_work. intros x y z (->&->&->&->&->&->&->) (->&->&->&->&->&->&->). done. Qed.
#[local] Instance same_device_refl : Reflexive same_device.
Proof. by intros x. Qed.
#[local] Instance same_device_trans : Transitive same_device.
Proof. unfold same_device. intros x y z (->&->&->) (->&->&->). done. Qed.

#[local] Instance framed_refl : Reflexive framed.
Proof. intros s. split; try done; intros i; reflexivity. Qed.
#[local] Instance framed_trans : Transitive framed.
Proof.
  intros s1 s2 s3 [] []. split; try congruence; intros i; etrans; eauto.
Qed.

(** A table only [framed] does not speak of. *)
Lemma framed_tables s s' :
  sv_ops s' = sv_ops s -> sv_tombstones s' = sv_tombstones s -> sv_seq s' = sv_seq s ->
  sv_content_keys s' = sv_content_keys s -> sv_project_keys s' = sv_project_keys s -> sv_versions s' = sv_versions s ->
  sv_submissions s' = sv_submissions s -> sv_devices s' = sv_devices s -> framed s s'.
Proof. intros ? ? ? ? ? ? E1 E2. split; rewrite ?E1, ?E2; try done; intros i; reflexivity. Qed.

Lemma framed_states d s : framed s (with_states d s).
Proof. by apply framed_tables. Qed.

Lemma dget_related {A} (R : A -> A -> Prop) `{!Reflexive R} (d : odict A) k v v' :
  dget d k = Some v -> R v v' -> forall i, option_Forall2 R (dget d i) (dget (dset d k v') i).
Proof.
  intros E Hr i. rewrite dget_dset. case_decide as Ei; [subst; rewrite E; by constructor|reflexivity].
Qed.

Lemma framed_submission k v v' s :
  dget (sv_submissions s) k = Some v -> same_work v v' -> framed s (with_submissions (dset (sv_submissions s) k v') s).
Proof.
  intros E Hw. split; cbn; try done.
  - apply dkeys_dset_in, dget_elem. by eexists.
  - by eapply dget_related.
Qed.

Lemma framed_device k v v' s :
  dget (sv_devices s) k = Some v -> same_device v v' -> framed s (with_devices (dset (sv_devices s) k v') s).
Proof. intros E Hw. split; cbn; try done. by eapply dget_related. Qed.

Lemma framed_refold held i s : framed s (refold collate held i s).
Proof.
  unfold refold. destruct (moved held _) as [st fin]. destruct (dget (sv_submissions s) i) as [sb|] eqn:E; [|apply framed_states].
  etrans; [|apply framed_states]. eapply framed_submission; [exact E|done].
Qed.

Lemma framed_record s i now os : framed s (record ulid s i now os).
Proof.
  unfold record. assert (framed s (with_flags (map (resolve_flag i now) (sv_flags s)) s)) as Hf by by apply framed_tables.
  etrans; [exact Hf|]. generalize (with_flags (map (resolve_flag i now) (sv_flags s)) s) as s0.
  induction os as [|o os IH]; intros s0; cbn [fold_left]; [reflexivity|]. etrans; [|apply IH]. by apply framed_tables.
Qed.

Lemma framed_evaluate s i vals un today now at_ s' r :
  evaluate_and_record collate ulid s i vals un today now at_ = (s', r) -> framed s s' /\ sv_states s' = sv_states s /\ sv_submissions s' = sv_submissions s.
Proof.
  unfold evaluate_and_record. destruct (rules_for collate s i); [by intros [= <- _]|].
  destruct (evaluate_rules _ _ _ _ _ _) as [os|e]; intros [= <- _]; [|done].
  split; [apply framed_record|]. unfold record.
  change (sv_states s) with (sv_states (with_flags (map (resolve_flag i at_) (sv_flags s)) s)).
  change (sv_submissions s) with (sv_submissions (with_flags (map (resolve_flag i at_) (sv_flags s)) s)).
  generalize (with_flags (map (resolve_flag i at_) (sv_flags s)) s) as s0.
  induction os as [|o os IH]; intros s0; cbn [fold_left]; [done|]. by destruct (IH (insert_flag ulid i s0 o)) as [-> ->].
Qed.

Lemma framed_references refs s :
  framed s (register_pending_references refs s) /\ sv_states (register_pending_references refs s) = sv_states s /\
  sv_submissions (register_pending_references refs s) = sv_submissions s.
Proof.
  unfold register_pending_references. generalize (@nil pystr) as seen. revert s.
  induction refs as [|r refs IH]; intros s seen; cbn [fold_left]; [done|].
  unfold register_one at 2 4 6. case_bool_decide; [apply IH|].
  destruct (dget (sv_media s) (mr_media r)) as [m|]; [destruct (str_eqb _ _)|]; try apply IH;
    (edestruct IH as (Hf & Es & Eb); split_and!; [etrans; [|exact Hf]; by apply framed_tables|by rewrite Es|by rewrite Eb]).
Qed.

(** ** Folds and devices *)

Abbreviation fold_of := (fold_of collate) (only parsing).

(** The state a submission's ops fold to. *)
Definition state_of (s : server) (i : pystr) : odict value * Z := (fo_data (fold_of s i), fo_high_water (fold_of s i)).

Lemma state_of_ops s s' i : sv_ops s' = sv_ops s -> state_of s' i = state_of s i.
Proof. unfold state_of, Push.fold_of, rows_of. by intros ->. Qed.

Lemma states_refold held i s j :
  dget (sv_states (refold collate held i s)) j = if decide (j = i) then Some (state_of s i) else dget (sv_states s) j.
Proof.
  unfold refold. destruct (moved held _) as [st fin]. cbn. rewrite dget_dset.
  by destruct (dget (sv_submissions s) i).
Qed.

(** The submission row a refold writes, [sb] being the row as it is. *)
Definition refolded (held : submission) (folded : fold) (sb : submission) : submission :=
  let '(st, finalized) := moved held folded in set_status_columns held st finalized sb.

Lemma submissions_refold held i s j :
  dget (sv_submissions (refold collate held i s)) j =
  if decide (j = i) then refolded held (fold_of s i) <$> dget (sv_submissions s) i else dget (sv_submissions s) j.
Proof.
  unfold refold, refolded. destruct (moved held _) as [st fin]. destruct (dget (sv_submissions s) i) as [sb|] eqn:E; cbn.
  - by rewrite dget_dset.
  - case_decide; [by subst|done].
Qed.

Lemma settle_one_run clk held batch t s s' r :
  settle_one collate ulid clk held batch t s = (s', r) ->
  framed s s' /\
  (r = inl tt -> forall h, dget held t.1 = Some h -> forall i,
   dget (sv_states s') i = (if decide (i = t.1) then Some (state_of s i) else dget (sv_states s) i) /\
   dget (sv_submissions s') i =
     (if decide (i = t.1) then refolded h (fold_of s i) <$> dget (sv_submissions s) i else dget (sv_submissions s) i)).
Proof.
  destruct t as [sub ids]. unfold settle_one. cbn [fst]. destruct (dget held sub) as [sb|].
  2: { intros [= <- <-]. split; [reflexivity|]. done. }
  destruct (evaluate_and_record _ _ _ _ _ _ _ _ _) as [s1 r1] eqn:Ee. apply framed_evaluate in Ee as (Hf & Es & Eb).
  pose proof (framed_refold sb sub s) as Hr.
  destruct r1 as [os|e]; intros [= <- <-]; (split; [|intros Er h Eh i; try discriminate Er]).
  - etrans; [exact Hr|]. etrans; [exact Hf|]. by apply framed_tables.
  - injection Eh as ->. cbn [insert_event sv_states sv_submissions with_minted with_outbox].
    rewrite Es, Eb, states_refold, submissions_refold. case_decide; [by subst|done].
  - by etrans.
Qed.

Lemma fold_of_ops s s' i : sv_ops s' = sv_ops s -> fold_of s' i = fold_of s i.
Proof. unfold Push.fold_of, rows_of. by intros ->. Qed.

Lemma settle_all_run clk held batch touched s s' r :
  each touched (settle_one collate ulid clk held batch) s = (s', r) ->
  framed s s' /\
  (r = inl tt -> NoDup (dkeys touched) -> (forall i, i ∈ dkeys touched -> is_Some (dget held i)) -> forall i,
   dget (sv_states s') i = (if decide (i ∈ dkeys touched) then Some (state_of s i) else dget (sv_states s) i) /\
   dget (sv_submissions s') i =
     (if decide (i ∈ dkeys touched)
      then h ← dget held i; refolded h (fold_of s i) <$> dget (sv_submissions s) i
      else dget (sv_submissions s) i)).
Proof.
  revert s. induction touched as [|t touched IH]; intros s; cbn [each].
  { intros [= <- <-]. split; [reflexivity|]. intros _ _ _ i. rewrite !decide_False by apply not_elem_of_nil. done. }
  unfold mbind at 1, ST_bind. destruct (settle_one _ _ _ _ _ t s) as [s1 [[]|e]] eqn:E1.
  - apply settle_one_run in E1 as [Hf1 Hs1]. intros Hr. apply IH in Hr as [Hf Hs]. split; [by etrans|].
    intros Er Hn Hheld i. cbn [dkeys map] in Hn. change (NoDup (t.1 :: dkeys touched)) in Hn. apply NoDup_cons in Hn as [Ht Hn].
    change (dkeys (t :: touched)) with (t.1 :: dkeys touched) in *.
    destruct (Hheld t.1) as [h Eh]; [by left|].
    destruct (Hs Er Hn (fun j Hj => Hheld j (list_elem_of_further _ _ _ Hj)) i) as [-> ->].
    destruct (Hs1 eq_refl h Eh i) as [-> ->].
    rewrite (state_of_ops s s1), (fold_of_ops s s1) by apply (fr_ops _ _ Hf1).
    destruct (decide (i = t.1)) as [->|Hne].
    + rewrite !(decide_False (P:=_ ∈ dkeys touched)), !decide_True by (done || by left). by rewrite Eh.
    + destruct (decide (i ∈ dkeys touched)); [by rewrite !(decide_True (P:=_ ∈ _ :: _)) by by right|].
      rewrite !decide_False; [done|by intros [->|?]%elem_of_cons..].
  - intros [= <- <-]. apply settle_one_run in E1 as [Hf1 _]. split; [done|]. done.
Qed.

Lemma framed_report clk held batch pending s :
  framed s (report_pending clk held batch pending s) /\ sv_states (report_pending clk held batch pending s) = sv_states s /\
  sv_submissions (report_pending clk held batch pending s) = sv_submissions s.
Proof.
  unfold report_pending. destruct pending as [n|]; [|done].
  destruct (dget held batch); [|done]. destruct (dget (sv_devices s) batch) as [dv|] eqn:E; [|done].
  split; [|done]. eapply framed_device; [exact E|done].
Qed.

Lemma framed_advance clk held rows s :
  framed s (advance_devices clk held rows s) /\ sv_states (advance_devices clk held rows s) = sv_states s /\
  sv_submissions (advance_devices clk held rows s) = sv_submissions s.
Proof.
  unfold advance_devices. generalize (remove_dups (map ro_device rows)) as ds. intros ds. revert s.
  induction ds as [|d ds IH]; intros s; cbn [fold_left]; [done|].
  assert (framed s (advance_one clk held rows s d) /\ sv_states (advance_one clk held rows s d) = sv_states s /\
          sv_submissions (advance_one clk held rows s d) = sv_submissions s) as (Hf & Es & Eb).
  { unfold advance_one. destruct (dget held d); [|done].
    destruct (dget (sv_devices s) d) as [dv|] eqn:E; [|done]. split; [|done]. eapply framed_device; [exact E|done]. }
  destruct (IH (advance_one clk held rows s d)) as (Hf' & Es' & Eb'). split_and!; [by etrans|congruence..].
Qed.

(** The tombstones, which take the sequence further. *)
Definition entombed (ts : list tombstone) (s : server) : server := fold_left insert_tombstone ts s.

Lemma entombed_frame ts s :
  sv_ops (entombed ts s) = sv_ops s /\ sv_states (entombed ts s) = sv_states s /\
  sv_submissions (entombed ts s) = sv_submissions s /\ sv_content_keys (entombed ts s) = sv_content_keys s /\
  sv_devices (entombed ts s) = sv_devices s /\ sv_project_keys (entombed ts s) = sv_project_keys s /\
  sv_versions (entombed ts s) = sv_versions s /\ (seq_ok s -> seq_ok (entombed ts s)).
Proof.
  unfold entombed. revert s. induction ts as [|t ts IH]; intros s; cbn [fold_left]; [done|].
  destruct (IH (insert_tombstone s t)) as (->&->&->&->&->&->&->&Hs). split_and!; try done.
  intros Hok. by apply Hs, insert_tombstone_seq.
Qed.

(** ** The whole settlement *)

Definition touched_of (refused : odict (option reason)) (touched : odict (list pystr)) : odict (list pystr) :=
  if bool_decide (refused = []) then touched else kept refused touched.

Lemma insert_ops_tables s rows s' refused :
  insert_ops s rows = (s', refused) -> sv_states s' = sv_states s /\ sv_submissions s' = sv_submissions s.
Proof.
  rewrite insert_ops_saved. generalize (@nil (pystr * option reason)) as rf. revert s.
  induction rows as [|r rows IH]; intros s rf; cbn [fold_left]; [by intros [= <- _]|].
  unfold insert_saved at 2. cbn [fst snd]. destruct (conflict _ _); [apply IH|]. by intros [-> ->]%IH.
Qed.

Lemma settle_run clk batch pending p s0 s' resp :
  settle collate ulid clk batch pending p s0 = (s', inl resp) ->
  exists s1 refused ts,
    insert_ops (with_minted (sg_minted (pl_staging p)) s0) (sg_rows (pl_staging p)) = (s1, refused) /\
    framed (entombed ts s1) s' /\
    (rp_accepted resp, rp_rejected resp) =
      fold_left refuse_one refused (sg_accepted (pl_staging p), sg_rejected (pl_staging p)) /\
    rp_cursor resp = server_cursor s' /\
    let touched := touched_of refused (sg_touched (pl_staging p)) in
    (NoDup (dkeys touched) -> (forall i, i ∈ dkeys touched -> is_Some (dget (sv_submissions (pl_server p)) i)) -> forall i,
     dget (sv_states s') i = (if decide (i ∈ dkeys touched) then Some (state_of s' i) else dget (sv_states s0) i) /\
     dget (sv_submissions s') i =
       (if decide (i ∈ dkeys touched)
        then h ← dget (sv_submissions (pl_server p)) i; refolded h (fold_of s' i) <$> dget (sv_submissions s0) i
        else dget (sv_submissions s0) i)).
Proof.
  unfold settle. destruct (insert_ops _ _) as [s1 refused] eqn:Ei.
  destruct (fold_left refuse_one refused _) as [acc rej] eqn:Er.
  set (ts := omap _ (sg_tombstones _)). change (fold_left insert_tombstone ts s1) with (entombed ts s1).
  set (rows := List.filter _ (sg_rows _)).
  destruct (each _ _ _) as [s3 r3] eqn:Et. destruct r3 as [[]|e]; [|done]. intros [= <- <-].
  exists s1, refused, ts. apply settle_all_run in Et as [Hf Hs].
  destruct (framed_references (references_of rows) (entombed ts s1)) as (Hfr & Esr & Ebr).
  destruct (framed_report clk (sv_devices (pl_server p)) batch pending s3) as (Hfp & Esp & Ebp).
  destruct (framed_advance clk (sv_devices (pl_server p)) rows (report_pending clk (sv_devices (pl_server p)) batch pending s3))
    as (Hfa & Esa & Eba).
  split; [done|]. split; [by repeat (etrans; [eassumption|])|]. split; [done|]. split; [done|].
  unfold touched_of. cbn zeta. intros Hn Hheld i.
  assert (sv_ops (advance_devices clk (sv_devices (pl_server p)) rows
    (report_pending clk (sv_devices (pl_server p)) batch pending s3)) =
    sv_ops (register_pending_references (references_of rows) (entombed ts s1))) as Eo
    by (by rewrite (fr_ops _ _ Hfa), (fr_ops _ _ Hfp), (fr_ops _ _ Hf)).
  rewrite (state_of_ops _ _ i Eo), (fold_of_ops _ _ i Eo), Esa, Esp, Eba, Ebp.
  destruct (Hs eq_refl Hn Hheld i) as [-> ->]. rewrite Esr, Ebr.
  destruct (entombed_frame ts s1) as (_ & -> & -> & _).
  destruct (insert_ops_tables _ _ _ _ Ei) as [-> ->]. done.
Qed.

Lemma remove_first_perm x l : x ∈ l -> x :: remove_first x l ≡ₚ l.
Proof.
  induction l as [|y l IH]; [intros H0; by apply not_elem_of_nil in H0|]. cbn [remove_first].
  case_decide as E; [by subst|]. intros [Hx|Hx]%elem_of_cons; [done|]. rewrite Permutation_swap. by rewrite IH.
Qed.

Lemma refuse_all_answers refused acc rej :
  NoDup (dkeys refused) -> (forall i, i ∈ dkeys refused -> i ∈ acc) ->
  let '(acc', rej') := fold_left refuse_one refused (acc, rej) in answers acc' rej' ≡ₚ answers acc rej.
Proof.
  revert acc rej. induction refused as [|[i why] refused IH]; intros acc rej Hn Hin; cbn [fold_left]; [done|].
  change (dkeys ((i, why) :: refused)) with (i :: dkeys refused) in *. apply NoDup_cons in Hn as [Hi Hn].
  unfold refuse_one at 2. cbn [fst snd]. destruct why as [why|].
  - assert (i ∈ acc) as Hacc by (apply Hin; by left).
    specialize (IH (remove_first i acc) (rej ++ [Rejected (Some i) why]) Hn). destruct (fold_left _ refused _) as [acc' rej'].
    rewrite IH.
    + rewrite answers_reject. unfold answers. rewrite app_comm_cons. apply Permutation_app_tail.
      rewrite <- (remove_first_perm i acc) at 2 by done. done.
    + intros j Hj. assert (j ∈ i :: remove_first i acc) as Hj'.
      { rewrite remove_first_perm by done. apply Hin. by right. }
      apply elem_of_cons in Hj' as [->|Hj']; [done|exact Hj'].
  - apply IH; [done|]. intros j Hj. apply Hin. by right.
Qed.

(** Which submissions are touched: those of the rows that went in. *)
Lemma ids_for_in sub l i : i ∈ ids_for sub l <-> exists op, op ∈ l /\ so_submission op = sub /\ so_id op = i.
Proof.
  unfold ids_for. rewrite list_elem_of_fmap. setoid_rewrite list_elem_of_In. setoid_rewrite filter_In.
  split; intros (op & H1 & H2).
  - destruct H2 as [H2 E]. apply str_eqb_eq in E. eauto.
  - destruct H2 as [<- <-]. exists op. by rewrite str_eqb_refl.
Qed.

Lemma kept_rows_in refused rows r : r ∈ kept_rows refused rows <-> r ∈ rows /\ ro_id r ∉ dkeys refused.
Proof.
  unfold kept_rows. rewrite list_elem_of_In, filter_In, <- list_elem_of_In, negb_true_iff. by rewrite dhas_not.
Qed.

Lemma touched_spec refused touched a l i :
  NoDup (dkeys touched) -> (forall sub, dget touched sub = match ids_for sub l with [] => None | ids => Some ids end) ->
  (i ∈ dkeys (touched_of refused touched) <-> i ∈ map ro_submission (kept_rows refused (map (row_of a) l))).
Proof.
  intros Hn Ht.
  assert (i ∈ map ro_submission (kept_rows refused (map (row_of a) l)) <->
          exists op, op ∈ l /\ so_submission op = i /\ so_id op ∉ dkeys refused) as ->.
  { rewrite list_elem_of_fmap. setoid_rewrite kept_rows_in. setoid_rewrite list_elem_of_fmap. split.
    - intros (r & -> & (op & -> & Hop) & Hr). by exists op.
    - intros (op & Hop & <- & Hr). exists (row_of a op). split; [done|]. split; [by exists op|done]. }
  unfold touched_of. case_bool_decide as Er.
  - subst refused. rewrite <- dget_elem, Ht. split.
    + intros [ids E]. destruct (ids_for i l) as [|x r] eqn:Ex; [done|].
      assert (x ∈ ids_for i l) as (op & Hop & Es & _)%ids_for_in by (rewrite Ex; by left). exists op. split_and!; try done.
      apply not_elem_of_nil.
    + intros (op & Hop & Es & _). assert (so_id op ∈ ids_for i l) as Hin by (apply ids_for_in; by exists op).
      destruct (ids_for i l); [by apply not_elem_of_nil in Hin|by eexists].
  - unfold kept, dkeys at 1. rewrite list_elem_of_fmap. setoid_rewrite list_elem_of_omap. split.
    + intros ([i' ids] & E & ([i0 ids0] & Hin & Ek)). cbn [fst snd] in *. subst i'.
      destruct (List.filter _ ids0) as [|x r] eqn:Ef; [done|]. injection Ek as -> <-.
      apply dget_elem_NoDup in Hin; [|done]. rewrite Ht in Hin.
      assert (x ∈ List.filter (fun i => negb (dhas refused i)) ids0) as Hx by (rewrite Ef; by left).
      rewrite list_elem_of_In, filter_In, <- list_elem_of_In, negb_true_iff, dhas_not in Hx. destruct Hx as [Hx Hxr].
      destruct (ids_for i l) eqn:Ei; [done|]. injection Hin as Hin. rewrite <- Hin, <- Ei in Hx.
      apply ids_for_in in Hx as (op & Hop & Es & <-). eauto.
    + intros (op & Hop & Es & Hr). assert (so_id op ∈ ids_for i l) as Hin by (apply ids_for_in; by exists op).
      specialize (Ht i). destruct (ids_for i l) as [|y r] eqn:Ei; [by apply not_elem_of_nil in Hin|]. apply dget_Some_elem in Ht.
      assert (so_id op ∈ List.filter (fun i => negb (dhas refused i)) (y :: r)) as Hf.
      { rewrite list_elem_of_In, filter_In, <- list_elem_of_In, negb_true_iff, dhas_not. done. }
      destruct (List.filter (fun i => negb (dhas refused i)) (y :: r)) as [|z q] eqn:Ef; [by apply not_elem_of_nil in Hf|].
      exists (i, z :: q). split; [done|]. exists (i, y :: r). split; [done|]. cbn [fst snd]. by rewrite Ef.
Qed.

(** ** The invariant of the tables a push writes *)

(** A state for exactly the submissions with ops, each the fold of its log. *)
Definition states_ok (s : server) : Prop :=
  forall i, dget (sv_states s) i = if decide (i ∈ map ro_submission (sv_ops s)) then Some (state_of s i) else None.

Record log_inv (s : server) : Prop := {
  li_unique : log_unique (sv_ops s);
  li_seq : seq_ok s;
  li_states : states_ok s;
  li_tables : tables_ok s
}.

Lemma stamped_columns n rows :
  map ro_submission (stamped n rows) = map ro_submission rows /\ map ro_id (stamped n rows) = map ro_id rows.
Proof. revert n. induction rows as [|r rows IH]; intros n; [done|]. cbn. by destruct (IH (n + 1)) as [-> ->]. Qed.

Lemma stamped_in n rows r : r ∈ stamped n rows -> exists r0 k, r0 ∈ rows /\ r = stamp k r0.
Proof.
  revert n. induction rows as [|r0 rows IH]; intros n; [intros Hr; by apply not_elem_of_nil in Hr|].
  intros [->|(r1 & k & Hr & ->)%IH]%elem_of_cons; [exists r0, n|exists r1, k]; split; try done; [by left|by right].
Qed.

Lemma state_of_untouched s rows i :
  i ∉ map ro_submission rows -> state_of (appended s rows) i = state_of s i.
Proof.
  intros Hi. unfold state_of, Push.fold_of, rows_of, appended. cbn [sv_ops with_seq with_ops].
  rewrite List.filter_app. assert (List.filter (fun r => str_eqb (ro_submission r) i) (stamped (sv_seq s + 1) rows) = []) as ->;
    [|by rewrite app_nil_r].
  generalize (sv_seq s + 1) as n. induction rows as [|r rows IH]; intros n; [done|]. cbn [stamped List.filter stamp ro_submission].
  destruct (str_eqb_eq (ro_submission r) i) as [Hto _]. destruct (str_eqb _ _).
  - exfalso. apply Hi. rewrite <- Hto by done. by left.
  - apply IH. intros Hin. apply Hi. by right.
Qed.

Lemma prepared_held s raws p l a refused i :
  prepared s raws p l a -> i ∈ dkeys (touched_of refused (sg_touched (pl_staging p))) ->
  is_Some (dget (sv_submissions (pl_server p)) i).
Proof.
  intros Hp Hi. eapply touched_spec with (a := a) in Hi; [|apply (pp_touched_keys _ _ _ _ _ Hp)|apply (pp_touched _ _ _ _ _ Hp)].
  apply list_elem_of_fmap in Hi as (r & -> & [Hr _]%kept_rows_in). apply list_elem_of_fmap in Hr as (op & -> & Hop).
  destruct (pp_gated _ _ _ _ _ Hp op Hop) as (d & sb & _ & _ & E & _). by exists sb.
Qed.

Lemma touched_nodup refused touched : NoDup (dkeys touched) -> NoDup (dkeys (touched_of refused touched)).
Proof.
  intros Hn. unfold touched_of. case_bool_decide; [done|]. eapply sublist_NoDup; [exact Hn|].
  unfold kept, dkeys. clear. induction touched as [|[i ids] t IH]; [constructor|]. cbn [omap list_omap map fst snd].
  destruct (List.filter _ ids); [by apply sublist_cons|by apply sublist_skip].
Qed.

(** What a successful settlement leaves. *)
Lemma settle_spec s raws p l a clk batch pending s0 s' resp :
  prepared s raws p l a -> settle collate ulid clk batch pending p s0 = (s', inl resp) ->
  exists refused, NoDup (dkeys refused) /\ (forall i, i ∈ dkeys refused -> i ∈ map so_id l) /\
    (insert_ops (with_minted (sg_minted (pl_staging p)) s0) (map (row_of a) l)).2 = refused /\
    sv_ops s' = sv_ops s0 ++ stamped (sv_seq s0 + 1) (kept_rows refused (map (row_of a) l)) /\
    (rp_accepted resp, rp_rejected resp) =
      fold_left refuse_one refused (sg_accepted (pl_staging p), sg_rejected (pl_staging p)) /\
    rp_cursor resp = server_cursor s' /\
    dkeys (sv_submissions s') = dkeys (sv_submissions s0) /\ sv_content_keys s' = sv_content_keys s0 /\
    (forall i, option_Forall2 same_work (dget (sv_submissions s0) i) (dget (sv_submissions s') i)) /\
    (forall i, dget (sv_submissions s') i =
       if decide (i ∈ map ro_submission (kept_rows refused (map (row_of a) l)))
       then h ← dget (sv_submissions (pl_server p)) i; refolded h (fold_of s' i) <$> dget (sv_submissions s0) i
       else dget (sv_submissions s0) i) /\
    (forall i, option_Forall2 same_device (dget (sv_devices s0) i) (dget (sv_devices s') i)) /\
    sv_versions s' = sv_versions s0 /\ sv_project_keys s' = sv_project_keys s0 /\
    (log_inv s0 -> log_inv s').
Proof.
  intros Hp Hrun. apply settle_run in Hrun as (s1 & refused & ts & Ei & Hf & Er & Ec & Hs). cbv zeta in Hs.
  rewrite (pp_rows _ _ _ _ _ Hp) in Ei. pose proof Ei as Ei'. destruct (rows_columns a l) as (Eids & _).
  apply insert_ops_run in Ei as (E1 & Hnd & Hin); [|by rewrite Eids; apply (pp_ids _ _ _ _ _ Hp)]. rewrite Eids in Hin.
  set (rows := kept_rows refused (map (row_of a) l)) in *.
  destruct (entombed_frame ts s1) as (To & Ts & Tsub & Tck & Tdev & Tpk & Tv & Tseq).
  assert (sv_ops s' = sv_ops s0 ++ stamped (sv_seq s0 + 1) rows) as Eops by (rewrite (fr_ops _ _ Hf), To, E1; done).
  pose proof (touched_nodup refused _ (pp_touched_keys _ _ _ _ _ Hp)) as Htn.
  assert (forall i, i ∈ dkeys (touched_of refused (sg_touched (pl_staging p))) <-> i ∈ map ro_submission rows) as Hti
    by (intros i; apply touched_spec; [apply (pp_touched_keys _ _ _ _ _ Hp)|apply (pp_touched _ _ _ _ _ Hp)]).
  specialize (Hs Htn (fun i => prepared_held _ _ _ _ _ _ i Hp)).
  exists refused. split_and!; [done|done|by rewrite Ei'|done|done|done| | | | | | | |].
  1: rewrite (fr_submission_keys _ _ Hf), Tsub, E1; done.
  1: rewrite (fr_content_keys _ _ Hf), Tck, E1; done.
  1: intros i; pose proof (fr_submissions _ _ Hf i) as H0; rewrite Tsub, E1 in H0; exact H0.
  1: intros i; rewrite (proj2 (Hs i)); destruct (decide (i ∈ dkeys _)) as [Hi|Hi]; rewrite Hti in Hi;
    [by rewrite decide_True|by rewrite decide_False].
  1: intros i; pose proof (fr_devices _ _ Hf i) as H0; rewrite Tdev, E1 in H0; exact H0.
  1: rewrite (fr_versions _ _ Hf), Tv, E1; done.
  1: rewrite (fr_project_keys _ _ Hf), Tpk, E1; done.
  intros [Hu Hq Hst [Ht1 Ht2]].
  pose proof (insert_ops_unique (with_minted (sg_minted (pl_staging p)) s0) (map (row_of a) l) Hu) as Hu1.
  pose proof (insert_ops_seq (with_minted (sg_minted (pl_staging p)) s0) (map (row_of a) l) Hq) as Hq1.
  rewrite Ei' in Hu1, Hq1. cbn [fst] in Hu1, Hq1. split.
  - by rewrite (fr_ops _ _ Hf), To.
  - apply Tseq in Hq1. unfold seq_ok, all_seqs in *. by rewrite (fr_ops _ _ Hf), (fr_stones _ _ Hf), (fr_seq _ _ Hf).
  - intros i. rewrite (proj1 (Hs i)), Eops, map_app, (proj1 (stamped_columns _ _)).
    destruct (decide (i ∈ dkeys (touched_of refused (sg_touched (pl_staging p))))) as [Hi|Hi].
    + rewrite decide_True; [done|]. apply elem_of_app. right. by apply Hti.
    + assert (i ∉ map ro_submission rows) as Hni by by rewrite <- Hti.
      assert (state_of s' i = state_of s0 i) as ->.
      { trans (state_of (appended s0 rows) i); [by apply state_of_ops|by apply state_of_untouched]. }
      rewrite Hst. destruct (decide (i ∈ map ro_submission (sv_ops s0))).
      * rewrite decide_True; [done|]. apply elem_of_app. by left.
      * rewrite decide_False; [done|]. by intros [?|?]%elem_of_app.
  - split; [rewrite (fr_submission_keys _ _ Hf), Tsub, E1; done|rewrite (fr_content_keys _ _ Hf), Tck, E1; done].
Qed.

Lemma prepared_inv s raws p l a : log_inv s -> prepared s raws p l a -> log_inv (pl_server p).
Proof.
  intros [Hu Hq Hs [Ht1 Ht2]] Hp. destruct (prepared_log _ _ _ _ _ Hp) as (Eo & Et & Eq & Es & _).
  destruct (pp_server _ _ _ _ _ Hp) as (s1 & (E1 & _ & _ & N1) & (E2 & _ & N2)). split.
  - by rewrite Eo.
  - unfold seq_ok, all_seqs in *. by rewrite Eo, Et, Eq.
  - intros i. rewrite Es, Eo, (state_of_ops s) by done. apply Hs.
  - split; [rewrite E2; by apply N1|apply N2; rewrite E1; done].
Qed.

(** The serial insertion refuses nothing. *)
Lemma settle_serial s raws p l a clk batch pending s' resp :
  log_unique (sv_ops s) -> prepared s raws p l a ->
  settle collate ulid clk batch pending p (pl_server p) = (s', inl resp) ->
  sv_ops s' = sv_ops s ++ stamped (sv_seq s + 1) (map (row_of a) l) /\
  rp_accepted resp = sg_accepted (pl_staging p) /\ rp_rejected resp = sg_rejected (pl_staging p) /\
  (forall i, dget (sv_submissions s') i =
     if decide (i ∈ map so_submission l)
     then (fun h => refolded h (fold_of s' i) h) <$> dget (sv_submissions (pl_server p)) i
     else dget (sv_submissions (pl_server p)) i).
Proof.
  intros Hu Hp Hrun. destruct (prepared_log _ _ _ _ _ Hp) as (Eo & _ & Eq & _).
  apply (settle_spec _ _ _ _ _ _ _ _ _ _ _ Hp) in Hrun as (refused & _ & _ & Er & Eops & Eresp & _ & _ & _ & _ & Esub & _).
  rewrite <- (pp_rows _ _ _ _ _ Hp) in Er. rewrite insert_ops_all in Er.
  2: { cbn [sv_ops with_minted]. rewrite Eo. by eapply prepared_insertable. }
  cbn [snd] in Er. subst refused. cbn [fold_left] in Eresp. injection Eresp as -> ->.
  assert (kept_rows [] (map (row_of a) l) = map (row_of a) l) as Ek.
  { unfold kept_rows. by apply filter_all. }
  rewrite Ek in *. rewrite Eops, Eo, Eq. split_and!; [done..|]. intros i. rewrite Esub, map_map.
  assert (map (fun x => ro_submission (row_of a x)) l = map so_submission l) as -> by by apply map_ext.
  case_decide; [|done]. destruct (dget (sv_submissions (pl_server p)) i); done.
Qed.

(** ** Sending the same keys again *)

Definition owner_of (ick : pystr * content_key) : pystr * pystr := (ck_submission ick.2, ck_device ick.2).

(** A key the server has, or will not take. *)
Definition key_settled (s : server) (keys : list key_in) (k : key_in) : Prop :=
  is_Some (dget (stored_for s keys) (ki_id k)) \/
  forall sb device, dget (sv_submissions s) (ki_submission k) = Some sb -> dget (sv_devices s) (ki_device k) = Some device ->
    dv_revoked device = true \/ dv_project device <> sb_project sb \/
    (ki_submission k, ki_device k) ∈ map owner_of (stored_for s keys) \/
    forallb (fun w => bool_decide (wk_project_key w ∈ active_keys s (sb_project sb))) (ki_wraps k) = false.

Lemma admit_settled s keys0 keys st :
  (forall k, k ∈ keys -> key_settled s keys0 k) ->
  ks_server st = s -> ks_owner st = map owner_of (stored_for s keys0) ->
  exists st', admit_keys (stored_for s keys0) st keys = Some st' /\ ks_server st' = s.
Proof.
  revert st. induction keys as [|k keys IH]; intros st Hk Es Eo; cbn [admit_keys]; [eauto|].
  assert (exists st1, admit_key (stored_for s keys0) st k = Some st1 /\ ks_server st1 = s /\
            ks_owner st1 = map owner_of (stored_for s keys0)) as (st1 & -> & Es1 & Eo1).
  { unfold admit_key. destruct (Hk k (list_elem_of_here _ _)) as [[ck ->]|Hskip]; [by eexists|].
    destruct (dget (stored_for s keys0) (ki_id k)); [by eexists|]. rewrite Es.
    destruct (dget (sv_submissions s) _) as [sb|]; [|by eexists]. destruct (dget (sv_devices s) _) as [d|]; [|by eexists].
    assert (dv_revoked d || negb (str_eqb (dv_project d) (sb_project sb)) || bool_decide ((ki_submission k, ki_device k) ∈ ks_owner st)
      || negb (forallb (fun w => bool_decide (wk_project_key w ∈ active_keys s (sb_project sb))) (ki_wraps k)) = true) as ->;
      [|by eexists].
    rewrite Eo. destruct (Hskip sb d eq_refl eq_refl) as [Hr|[Hne|[Hin|Hf]]]; [by rewrite Hr| | |by rewrite Hf, orb_true_r].
    - destruct (str_eqb_eq (dv_project d) (sb_project sb)) as [Hto _]. destruct (str_eqb _ _); [by rewrite Hto in Hne|].
      cbn. by rewrite orb_true_r.
    - rewrite (bool_decide_eq_true_2 _ Hin). by rewrite orb_true_r. }
  apply IH; [|done..]. intros k' Hk'. apply Hk. by right.
Qed.

Lemma stored_for_has s keys i ck :
  NoDup (dkeys (sv_content_keys s)) -> dget (sv_content_keys s) i = Some ck -> ck_submission ck ∈ map ki_submission keys ->
  (i, ck) ∈ stored_for s keys /\ dget (stored_for s keys) i = Some ck.
Proof.
  intros Hn Hg Hin. assert ((i, ck) ∈ stored_for s keys) as Hm.
  { unfold stored_for. rewrite list_elem_of_In, filter_In, <- list_elem_of_In. split; [by apply dget_Some_elem|].
    by rewrite bool_decide_eq_true. }
  split; [done|]. apply dget_elem_NoDup; [|done]. eapply sublist_NoDup; [exact Hn|]. apply sublist_map, sublist_filter.
Qed.

(** Every owner the loop knows has a key the batch will find again. *)
Definition owners_stored (keys0 : list key_in) (st : key_state) : Prop :=
  forall o, o ∈ ks_owner st -> exists i ck, dget (sv_content_keys (ks_server st)) i = Some ck /\
    (ck_submission ck, ck_device ck) = o /\ ck_submission ck ∈ map ki_submission keys0.

Lemma admit_key_settles keys0 stored st k st' :
  k ∈ keys0 -> (forall i ck, dget stored i = Some ck -> dget (sv_content_keys (ks_server st)) i = Some ck /\ ck_submission ck ∈ map ki_submission keys0) ->
  NoDup (dkeys (sv_content_keys (ks_server st))) -> owners_stored keys0 st -> admit_key stored st k = Some st' ->
  key_settled (ks_server st') keys0 k /\ owners_stored keys0 st'.
Proof.
  intros Hin Hst Hn Ho. unfold admit_key. destruct (dget stored (ki_id k)) as [ck|] eqn:Es.
  { intros [= <-]. split; [|done]. left. apply Hst in Es as [Hg Hs]. cbn. eapply stored_for_has in Hg as [_ ->]; done. }
  destruct (dget (sv_submissions (ks_server st)) (ki_submission k)) as [sb|] eqn:Esb.
  2: { intros [= <-]. split; [|done]. right. intros sb d E. congruence. }
  destruct (dget (sv_devices (ks_server st)) (ki_device k)) as [d|] eqn:Ed.
  2: { intros [= <-]. split; [|done]. right. intros sb' d _ E. congruence. }
  destruct (_ || _) eqn:Ec.
  - intros [= <-]. split; [|done]. right. intros sb' d' E E'. rewrite Esb in E. rewrite Ed in E'.
    injection E as <-. injection E' as <-. rewrite !orb_true_iff in Ec. destruct Ec as [[[Er|Ep]|Eo]|Ew].
    + by left.
    + right. left. intros E. rewrite E, str_eqb_refl in Ep. done.
    + right. right. left. apply bool_decide_eq_true in Eo. apply Ho in Eo as (i & ck & Hg & E & Hs).
      apply list_elem_of_fmap. exists (i, ck). split; [done|]. by apply stored_for_has.
    + right. right. right. by apply negb_true_iff in Ew.
  - destruct (insert_key_rows _ _) as [s1|] eqn:Ei; [|done]. apply insert_key_keyed in Ei as [(_ & Hmono & Hn1) Hnew].
    intros [= <-]. assert (ki_submission k ∈ map ki_submission keys0) as Hk by by apply list_elem_of_fmap_2. split.
    + left. cbn. eapply stored_for_has in Hnew as [_ ->]; [done|auto|done].
    + intros o [Hold|Hnewo]%elem_of_app; [apply Ho in Hold as (i & ck & Hg & ?); exists i, ck; cbn; auto|].
      apply list_elem_of_singleton in Hnewo as ->. eexists _, _. cbn. split; [exact Hnew|]. done.
Qed.

(** Nothing a server goes through unsettles a key. *)
Record later (s s' : server) : Prop := {
  lt_keys : forall i ck, dget (sv_content_keys s) i = Some ck -> dget (sv_content_keys s') i = Some ck;
  lt_nodup : NoDup (dkeys (sv_content_keys s)) /\ NoDup (dkeys (sv_content_keys s'));
  lt_project_keys : sv_project_keys s' = sv_project_keys s;
  lt_submissions : forall i, option_Forall2 same_work (dget (sv_submissions s) i) (dget (sv_submissions s') i);
  lt_devices : forall i, option_Forall2 same_device (dget (sv_devices s) i) (dget (sv_devices s') i)
}.

Lemma keyed_later s s' : NoDup (dkeys (sv_content_keys s)) -> keyed s s' -> later s s'.
Proof. intros Hn (E & Hm & Hn'). split; [done|auto|by rewrite E| |]; intros i; rewrite E; cbn; reflexivity. Qed.

Lemma settled_later s s' keys k : later s s' -> key_settled s keys k -> key_settled s' keys k.
Proof.
  intros [Hk [Hn Hn'] Hpk Hs Hd] Hset.
  assert (forall i ck, (i, ck) ∈ stored_for s keys -> (i, ck) ∈ stored_for s' keys /\ dget (stored_for s' keys) i = Some ck) as Hst.
  { intros i ck Hin. unfold stored_for in Hin. rewrite list_elem_of_In, filter_In, <- list_elem_of_In, bool_decide_eq_true in Hin.
    destruct Hin as [Hin Hp]. apply stored_for_has; [done| |done]. apply Hk. by apply dget_elem_NoDup. }
  destruct Hset as [[ck Hck]|Hskip].
  - left. apply dget_Some_elem in Hck. apply Hst in Hck as [_ ->]. by eexists.
  - right. intros sb' d' Esb' Ed'. specialize (Hs (ki_submission k)). specialize (Hd (ki_device k)). rewrite Esb' in Hs. rewrite Ed' in Hd.
    inversion Hs as [sb ? Hsw Esb|]; subst. inversion Hd as [d ? Hdw Ed|]; subst.
    destruct Hsw as (Hpr & _). destruct Hdw as (Hdp & _ & Hdr). rewrite <- Hdr, <- Hdp, <- Hpr.
    unfold active_keys in *. rewrite Hpk.
    destruct (Hskip sb d (eq_sym Esb) (eq_sym Ed)) as [Hr|[Hne|[Hin|Hf]]]; [by left|by right; left| |by right; right; right].
    right. right. left. apply list_elem_of_fmap in Hin as ([i ck] & E & Hin). apply list_elem_of_fmap. exists (i, ck).
    split; [done|]. by apply Hst.
Qed.

Lemma admit_keys_settle keys0 stored keys st st' :
  (forall k, k ∈ keys -> k ∈ keys0) ->
  (forall i ck, dget stored i = Some ck -> dget (sv_content_keys (ks_server st)) i = Some ck /\ ck_submission ck ∈ map ki_submission keys0) ->
  NoDup (dkeys (sv_content_keys (ks_server st))) -> owners_stored keys0 st -> admit_keys stored st keys = Some st' ->
  forall k, k ∈ keys -> key_settled (ks_server st') keys0 k.
Proof.
  revert st. induction keys as [|k keys IH]; intros st Hin Hst Hn Ho; cbn [admit_keys].
  { intros _ k Hk. by apply not_elem_of_nil in Hk. }
  destruct (admit_key stored st k) as [st1|] eqn:E; [|done]. intros Hr k' [->|Hk']%elem_of_cons.
  - pose proof (admit_key_settles keys0 stored st k st1 (Hin k (list_elem_of_here _ _)) Hst Hn Ho E) as [Hset _].
    apply admit_key_keyed in E as (_ & _ & Hn1). eapply settled_later; [|exact Hset]. apply keyed_later; [auto|by eapply admit_keys_keyed].
  - pose proof (admit_key_settles keys0 stored st k st1 (Hin k (list_elem_of_here _ _)) Hst Hn Ho E) as [_ Ho1].
    apply admit_key_keyed in E as (_ & Hm & Hn1). eapply IH; [|by intros i ck Hi; destruct (Hst i ck Hi); split; [apply Hm|]|auto|done|done|done].
    intros k0 Hk0. apply Hin. by right.
Qed.

Lemma admit_content_keys_settle s keys st :
  NoDup (dkeys (sv_content_keys s)) -> admit_content_keys s keys = Some st ->
  forall k, k ∈ keys -> key_settled (ks_server st) keys k.
Proof.
  intros Hn Hr. eapply admit_keys_settle; [done| | | |exact Hr]; cbn [ks_server].
  - intros i ck Hi. split; [by eapply stored_for_get|]. apply dget_Some_elem in Hi. unfold stored_for in Hi.
    rewrite list_elem_of_In, filter_In, bool_decide_eq_true in Hi. by destruct Hi as [_ Hi].
  - done.
  - intros o ([i ck] & -> & Hi)%list_elem_of_fmap. exists i, ck. cbn. unfold stored_for in Hi.
    rewrite list_elem_of_In, filter_In, <- list_elem_of_In, bool_decide_eq_true in Hi. destruct Hi as [Hi Hp].
    split_and!; [by apply dget_elem_NoDup|done|done].
Qed.

(** ** A batch of known ops *)

Lemma admit_all_known known_ids known_counters batch actor ops st :
  (forall op, op ∈ ops -> replayed known_ids known_counters op = true) ->
  admit_all known_ids known_counters batch actor st ops =
  inl (Admission (ad_server st) (ad_accepted st ++ map so_id ops) (ad_rejected st) (ad_admitted st) (ad_attributed st)).
Proof.
  revert st. induction ops as [|op ops IH]; intros st Hk; cbn [Push.admit_all].
  - rewrite app_nil_r. by destruct st.
  - unfold Push.admit_one. rewrite Hk by by left. rewrite IH by (intros; apply Hk; by right). cbn.
    by rewrite <- app_assoc.
Qed.

(** Every op is stored, or its counter is. *)
Definition all_known (s : server) (ops : list sync_op) : Prop :=
  forall op, op ∈ ops -> so_id op ∈ map ro_id (sv_ops s) \/ op_counter op ∈ map row_counter (sv_ops s).

Lemma report_cursor clk held batch pending s : server_cursor (report_pending clk held batch pending s) = server_cursor s.
Proof. unfold report_pending. by repeat case_match. Qed.

Lemma push_known clk batch raws keys actor pending s :
  all_known s (in_ops (take_in raws)) -> (forall k, k ∈ keys -> key_settled s keys k) ->
  (forall op, op ∈ in_ops (take_in raws) -> fits 64 (so_counter op) = true) ->
  push collate ulid decode may_open clk id batch raws keys actor pending s =
  (report_pending clk (sv_devices s) batch pending s, inl (Response (in_accepted (take_in raws) ++ map so_id (in_ops (take_in raws))) (in_rejected (take_in raws))
             (server_cursor s))).
Proof.
  intros Hknown Hkeys Hfits. unfold push, prepare. set (i := take_in raws) in *.
  replace (forallb (fun op => fits 64 (so_counter op)) (in_ops i)) with true.
  2: { symmetry. apply forallb_forall. intros op Hop. apply Hfits. by apply list_elem_of_In. }
  cbn [negb]. rewrite admit_all_known.
  2: { intros op Hop. apply replayed_log; [done|]. by apply Hknown. }
  cbn [ad_server ad_accepted ad_rejected ad_admitted ad_attributed].
  destruct (admit_settled s keys keys (KeyState s (map (fun ick => (ck_submission ick.2, ck_device ick.2)) (stored_for s keys)) []))
    as (st & E & Es); [done|done|done|]. unfold admit_content_keys. rewrite E, Es. cbn [fold_left].
  unfold settle. cbn [pl_staging pl_server sg_minted sg_rows sg_accepted sg_rejected sg_touched sg_tombstones fold_left insert_ops insert_flush].
  cbn. unfold advance_devices. cbn. replace (with_minted (sv_minted s) s) with s by by destruct s.
  by rewrite report_cursor.
Qed.

End Push.
