(* ===== verification/Forms.v ===== *)
(** * The forms service: forms/service.py

    Creating and listing forms, publishing one immutable version through the
    gate, pinning its reference data, deploying it, the manifest of a device,
    drafts, and the compiled form a submission is read under; with the routes
    of api/v1/forms.py that wrap them in a transaction.  SHA-256 and UTF-8 are
    parameters, as is the database's collation. *)

From S2P Require Import Prelude PyStr Value PyJson Expr Expression Compile DatasetKeys.
From S2P Require Import PublishGate Server Push Catalog.

(** ** Requests and answers: forms/schemas.py *)

Record dataset_pin := DatasetPin { pn_key : pystr; pn_version : pystr }.

Record publish_request := PublishVersionRequest {
  rq_project : pystr;
  rq_form : value;
  rq_title : option pystr;
  rq_published_by : option pystr;
  rq_form_id : option pystr;               (* row ids a caller may choose: the seed does *)
  rq_form_version_id : option pystr;
  rq_deploy_to : list pystr;
  rq_import : option import_record;
  rq_datasets : list dataset_pin
}.

Record publish_response := PublishVersionResponse {
  pb_id : pystr;
  pb_form_key : pystr;
  pb_version : Z;
  pb_checksum : pystr;
  pb_published_at : Z;
  pb_created : bool;
  pb_warnings : list warning;
  pb_deployments : list pystr;
  pb_datasets : list dataset_pin
}.

Record form_summary := FormSummary {
  fs_id : pystr;
  fs_form_key : pystr;
  fs_project : pystr;
  fs_title : pystr;
  fs_versions : list Z;
  fs_archived : bool;
  fs_has_draft : bool;
  fs_latest : option pystr
}.

Record deployed_version := DeployedFormVersion {
  df_form_version : pystr;
  df_form_key : pystr;
  df_version : Z;
  df_title : pystr;
  df_checksum : pystr;
  df_deployed_at : Z
}.

Record version_document := FormVersionDocument {
  fd_form_version : pystr;
  fd_form_key : pystr;
  fd_version : Z;
  fd_title : pystr;
  fd_checksum : pystr;
  fd_published_at : Z;
  fd_form : value
}.

Section Forms.
Context {env : PyEnv} (collate : pystr -> pystr -> comparison) (ulid : N -> pystr).
Context (sha256_hex : list N -> pystr) (utf8 : pystr -> list N) (rg : registry).

Definition ir_checksum (ir : value) : pystr := lit "sha256:" ++ sha256_hex (utf8 (dumps ir)).

(** ** Listing and creating *)

(** [ORDER BY form.title, form.form_key] *)
Definition title_le (f g : form) : bool :=
  match collate (fm_title f) (fm_title g) with
  | Lt => true
  | Gt => false
  | Eq => match collate (fm_key f) (fm_key g) with Gt => false | _ => true end
  end.

Definition versions_of (c : catalog) (form_id : pystr) : list version :=
  sort_by (fun v w => vr_version v <=? vr_version w)
    (List.filter (fun v => str_eqb (vr_form v) form_id) (ct_versions c)).

Definition summary (c : catalog) (f : form) : form_summary :=
  let versions := versions_of c (fm_id f) in
  FormSummary (fm_id f) (fm_key f) (fm_project f) (fm_title f) (map vr_version versions) (fm_archived f)
    (dhas (ct_drafts c) (fm_id f)) (vr_id <$> last versions).

Definition list_forms (include_archived : bool) : CT (list form_summary) :=
  asks (fun c => map (summary c)
    (sort_by title_le (List.filter (fun f => include_archived || negb (fm_archived f)) (ct_forms c)))).

Definition form_named (c : catalog) (project_id form_key : pystr) : list form :=
  List.filter (fun f => str_eqb (fm_project f) project_id && str_eqb (fm_key f) form_key) (ct_forms c).

Definition create_form (project_id form_key title : pystr) : CT form_summary :=
  named ← asks (fun c => form_named c project_id form_key);
  existing ← scalar_one_or_none named;
  match existing with
  | Some _ => refuse (FormExists form_key)
  | None =>
      i ← new_ulid ulid;
      let f := Form i project_id form_key title false in
      insert_form f ≫= fun _ =>
      mret (FormSummary i form_key project_id title [] false false None)
  end.

(** ** Pins *)

Definition stored_dataset_pins (c : catalog) (form_version_id : pystr) : odict pystr :=
  fold_left (fun d p => dset d (pr_key p) (pr_dataset_version p))
    (List.filter (fun p => str_eqb (pr_version p) form_version_id) (ct_pins c)) [].

(** The loop over the pins asked for: the first of a key holds. *)
Definition collect_pin (acc : odict pystr * list blocker) (p : dataset_pin) : odict pystr * list blocker :=
  match dget acc.1 (pn_key p) with
  | Some first => (acc.1, acc.2 ++ [PinnedTwice (pn_key p) first (pn_version p)])
  | None => (dset acc.1 (pn_key p) (pn_version p), acc.2)
  end.

(** [DatasetVersion] joined with its [Dataset]. *)
Definition dataset_of_version (c : catalog) (version_id : pystr) : option dataset :=
  v ← List.find (fun v => str_eqb (xv_id v) version_id) (ct_dataset_versions c);
  List.find (fun d => str_eqb (ds_id d) (xv_dataset v)) (ct_datasets c).

Definition check_pin (c : catalog) (project_id key version_id : pystr) : list blocker :=
  match dataset_of_version c version_id with
  | None => [PinUnknown key version_id]
  | Some d =>
      if negb (str_eqb (ds_project d) project_id) then [PinOtherProject key]
      else if negb (str_eqb (ds_key d) key) then [PinOtherDataset key (ds_key d)]
      else []
  end.

Definition resolve_dataset_pins (c : catalog) (project_id : pystr) (compiled : cform)
    (requested : list dataset_pin) : list dataset_pin + list blocker :=
  let keys := dataset_keys compiled in
  let '(by_key, twice) := fold_left collect_pin requested ([], []) in
  let missing := List.filter (fun key => negb (dhas by_key key)) keys in
  let extra := sort_str (List.filter (fun key => negb (bool_decide (key ∈ keys))) (dkeys by_key)) in
  let violations :=
    twice ++
    (match missing with [] => [] | _ => [Unpinned missing] end) ++
    (match extra with [] => [] | _ => [PinsNothing extra] end) ++
    concat (map (fun key => match dget by_key key with
                            | Some version_id => check_pin c project_id key version_id
                            | None => []
                            end) keys) in
  match violations with
  | [] => inl (omap (fun key => DatasetPin key <$> dget by_key key) keys)
  | _ => inr violations
  end.

(** ** Deployment *)

(** Mirrors [ENVIRONMENT_PREFERENCE] of the sync service. *)
Definition ENVIRONMENT_ORDER : list pystr := [lit "production"; lit "staging"; lit "development"].

(** [{env.kind: env.id for env in ...}] of one project *)
Definition environments_of (c : catalog) (project_id : pystr) : odict pystr :=
  fold_left (fun d e => dset d (en_kind e) (en_id e))
    (List.filter (fun e => str_eqb (en_project e) project_id) (sv_environments (ct_server c))) [].

Definition live_deployments (c : catalog) (environment_id form_version_id : pystr) : list deployment :=
  List.filter (fun d => str_eqb (dp_environment d) environment_id && str_eqb (dp_version d) form_version_id &&
                        negb (dp_retired d)) (ct_deployments c).

Definition deploy_one (now : Z) (environments : odict pystr) (form_version_id kind : pystr) : CT unit :=
  match dget environments kind with
  | None => mret tt
  | Some environment_id =>
      live ← asks (fun c => live_deployments c environment_id form_version_id);
      already ← scalar_one_or_none live;
      match already with
      | Some _ => mret tt
      | None => i ← new_ulid ulid; insert_deployment (Deployment i environment_id form_version_id now false)
      end
  end.

(** The environments a version is deployed to, in the fixed order. *)
Definition deployed_kinds (c : catalog) (environments : odict pystr) (form_version_id : pystr) : list pystr :=
  List.filter (fun kind =>
    match dget environments kind with
    | Some environment_id => negb (bool_decide (live_deployments c environment_id form_version_id = []))
    | None => false
    end) ENVIRONMENT_ORDER.

Definition deploy_version (now : Z) (project_id form_version_id : pystr) (kinds : list pystr)
    : CT (list pystr) :=
  environments ← asks (fun c => environments_of c project_id);
  each kinds (deploy_one now environments form_version_id) ≫= fun _ =>
  asks (fun c => deployed_kinds c environments form_version_id).

(** ** Publishing *)

(** The errors an import left unresolved. *)
Definition import_errors (record : option import_record) : list blocker :=
  match record with
  | None => []
  | Some r =>
      map (fun d => ImportError (dg_message d)
                      (match dg_sheet d, dg_row d with
                       | Some ((_ :: _) as sheet), Some row =>
                           if row =? 0 then None else Some (sheet, row, dg_column d)
                       | _, _ => None
                       end))
        (List.filter (fun d => str_eqb (dg_severity d) "error") (im_diagnostics r))
  end.

(** [title or ir.get("title", {}).get(default_language, compiled.form_id)] as
    the column takes it. *)
Definition title_of (title : option pystr) (ir : value) (form_key : pystr) : pystr + failure :=
  match title with
  | Some ((_ :: _) as t) => inl t
  | _ =>
      match default (VDict []) (dget (vdict ir) "title") with
      | VDict translations =>
          match default (VStr "en") (dget (vdict ir) "defaultLanguage") with
          | VList _ | VDict _ => inr (Escapes TypeError)
          | VStr language =>
              match dget translations language with
              | None => inl form_key
              | Some (VStr t) => inl t
              | Some VNone => inr IntegrityError
              | Some _ => inr DataError
              end
          | _ => inl form_key
          end
      | _ => inr (Escapes AttributeError)
      end
  end.

(** The form a version is published under, created when it is not there. *)
Definition form_row (rq : publish_request) (compiled : cform) : CT form :=
  named ← asks (fun c => form_named c (rq_project rq) (form_id compiled));
  present ← scalar_one_or_none named;
  match present with
  | Some f => mret f
  | None =>
      i ← or_new_ulid ulid (rq_form_id rq);
      match title_of (rq_title rq) (rq_form rq) (form_id compiled) with
      | inr e => refuse e
      | inl title =>
          let f := Form i (rq_project rq) (form_id compiled) title false in
          insert_form f ≫= fun _ => mret f
      end
  end.

(** The pins a republication would move. *)
Definition moved_pins (stored : odict pystr) (pins : list dataset_pin) : list pystr :=
  map pn_key (List.filter (fun p => match dget stored (pn_key p) with
                                    | Some v => negb (str_eqb v (pn_version p))
                                    | None => false
                                    end) pins).

Definition insert_pins (form_version_id : pystr) (pins : list dataset_pin) : CT unit :=
  each pins (fun p => insert_pin (PinRow form_version_id (pn_key p) (pn_version p))).

Definition version_numbered (c : catalog) (form_id : pystr) (number : Z) : list version :=
  List.filter (fun v => str_eqb (vr_form v) form_id && (vr_version v =? number)) (ct_versions c).

(** Publishing again a version number that exists. *)
Definition republish (now : Z) (rq : publish_request) (compiled : cform) (f : form) (pins : list dataset_pin)
    (existing : version) : CT publish_response :=
  unless (str_eqb (vr_checksum existing) (ir_checksum (rq_form rq)))
    (PublishRefused [DifferentContent (vr_checksum existing) (ir_checksum (rq_form rq))]) ≫= fun _ =>
  stored ← asks (fun c => stored_dataset_pins c (vr_id existing));
  unless (bool_decide (moved_pins stored pins = [])) (PublishRefused [PinsMoved (moved_pins stored pins)])
    ≫= fun _ =>
  deployments ← deploy_version now (rq_project rq) (vr_id existing) (rq_deploy_to rq);
  mret (PublishVersionResponse (vr_id existing) (fm_key f) (vr_version existing) (vr_checksum existing)
          (vr_published_at existing) false (f_warnings compiled) deployments pins).

Definition publish_new (now : Z) (rq : publish_request) (compiled : cform) (f : form) (pins : list dataset_pin)
    : CT publish_response :=
  let checksum := ir_checksum (rq_form rq) in
  i ← or_new_ulid ulid (rq_form_version_id rq);
  insert_version (Version i (fm_id f) (form_version_number compiled) (rq_form rq) checksum now
                    (rq_published_by rq) (rq_import rq)) ≫= fun _ =>
  insert_pins i pins ≫= fun _ =>
  deployments ← deploy_version now (rq_project rq) i (rq_deploy_to rq);
  mret (PublishVersionResponse i (fm_key f) (form_version_number compiled) checksum now true
          (f_warnings compiled) deployments pins).

(** [publish_version] at the transaction's time [now]. *)
Definition publish_version (now : Z) (rq : publish_request) : CT publish_response :=
  match check_publishable rg (rq_form rq) with
  | inr (Refused violations) => refuse (PublishRefused violations)
  | inr (Raised e) => refuse (Escapes e)
  | inl compiled =>
      c ← asks id;
      match resolve_dataset_pins c (rq_project rq) compiled (rq_datasets rq) with
      | inr violations => refuse (PublishRefused violations)
      | inl pins =>
          unless (bool_decide (import_errors (rq_import rq) = [])) (PublishRefused (import_errors (rq_import rq)))
            ≫= fun _ =>
          f ← form_row rq compiled;
          unless (int4 (form_version_number compiled)) DataError ≫= fun _ =>
          numbered ← asks (fun c => version_numbered c (fm_id f) (form_version_number compiled));
          existing ← scalar_one_or_none numbered;
          match existing with
          | Some v => republish now rq compiled f pins v
          | None => publish_new now rq compiled f pins
          end
      end
  end.

(** ** What a device is told *)

Definition device_environment_id (c : catalog) (d : device) : option pystr :=
  let environments := environments_of c (dv_project d) in
  head (omap (dget environments) ENVIRONMENT_ORDER).

(** [ORDER BY form.form_key, form_version.version] *)
Definition manifest_le (a b : deployed_version) : bool :=
  match collate (df_form_key a) (df_form_key b) with
  | Lt => true
  | Gt => false
  | Eq => df_version a <=? df_version b
  end.

(** A deployment joined with its version and that with its form. *)
Definition deployed_rows (c : catalog) (environment_id : pystr) : list deployed_version :=
  concat (map (fun d =>
    concat (map (fun v =>
      map (fun f => DeployedFormVersion (vr_id v) (fm_key f) (vr_version v) (fm_title f) (vr_checksum v)
                      (dp_deployed_at d))
        (List.filter (fun f => str_eqb (fm_id f) (vr_form v)) (ct_forms c)))
      (List.filter (fun v => str_eqb (vr_id v) (dp_version d)) (ct_versions c))))
    (List.filter (fun d => str_eqb (dp_environment d) environment_id && negb (dp_retired d))
       (ct_deployments c))).

Definition deployed_versions_for_device (c : catalog) (device_id : pystr) : option (list deployed_version) :=
  match dget (sv_devices (ct_server c)) device_id with
  | None => None
  | Some d =>
      if dv_revoked d then None
      else match device_environment_id c d with
           | None => Some []
           | Some environment_id => Some (sort_by manifest_le (deployed_rows c environment_id))
           end
  end.

(** ** Drafts *)

Record save_request := SaveDraftRequest {
  sd_ir : value;
  sd_expected : option Z;
  sd_updated_by : option pystr;
  sd_test_cases : option (list value)
}.

Definition get_draft (form_id : pystr) : CT (option draft) := asks (fun c => dget (ct_drafts c) form_id).

Definition save_draft (now : Z) (form_id : pystr) (rq : save_request) : CT draft :=
  present ← get_draft form_id;
  match present with
  | None =>
      match sd_expected rq with
      | Some _ => refuse (DraftConflict 0)
      | None =>
          let d := Draft (sd_ir rq) 1 now (sd_updated_by rq) (default [] (sd_test_cases rq)) in
          store_draft form_id d ≫= fun _ => mret d
      end
  | Some d =>
      unless (match sd_expected rq with Some e => e =? dr_revision d | None => true end)
        (DraftConflict (dr_revision d)) ≫= fun _ =>
      let d' := Draft (sd_ir rq) (dr_revision d + 1) now (sd_updated_by rq)
                  (default (dr_test_cases d) (sd_test_cases rq)) in
      store_draft form_id d' ≫= fun _ => mret d'
  end.

(** ** Reading one version *)

(** The rows of [form_version] joined with [form]. *)
Definition get_form_version (c : catalog) (form_version_id : pystr) : option version_document :=
  head (concat (map (fun v =>
    map (fun f => FormVersionDocument (vr_id v) (fm_key f) (vr_version v) (fm_title f) (vr_checksum v)
                    (vr_published_at v) (vr_ir v))
      (List.filter (fun f => str_eqb (fm_id f) (vr_form v)) (ct_forms c)))
    (List.filter (fun v => str_eqb (vr_id v) form_version_id) (ct_versions c)))).

(** The version a submission was collected under. *)
Definition version_of_submission (c : catalog) (submission_id : pystr) : option version :=
  sb ← dget (sv_submissions (ct_server c)) submission_id;
  List.find (fun v => str_eqb (vr_id v) (sb_form_version sb)) (ct_versions c).

Definition compiled_form_for_submission (c : catalog) (submission_id : pystr) : res (option cform) :=
  match version_of_submission c submission_id with
  | None => Ok None
  | Some v => f ← compile (vr_ir v); Ok (Some f)
  end.

(** Many at once: a version is compiled when the first of its submissions is
    met, and its form is every later one's. *)
Definition compile_row (acc : odict cform * odict cform) (row : pystr * version)
    : res (odict cform * odict cform) :=
  let '(compiled, by_version) := acc in
  let '(submission_id, v) := row in
  match dget by_version (vr_id v) with
  | Some f => Ok (dset compiled submission_id f, by_version)
  | None => f ← compile (vr_ir v); Ok (dset compiled submission_id f, dset by_version (vr_id v) f)
  end.

Definition compiled_forms_for_submissions (c : catalog) (submission_ids : list pystr) : res (odict cform) :=
  let rows := concat (map (fun kv =>
      if bool_decide (kv.1 ∈ submission_ids)
      then match List.find (fun v => str_eqb (vr_id v) (sb_form_version kv.2)) (ct_versions c) with
           | Some v => [(kv.1, v)]
           | None => []
           end
      else []) (sv_submissions (ct_server c))) in
  acc ← foldM compile_row ([], []) rows;
  Ok acc.1.

End Forms.
