(* ===== verification/Entities.v ===== *)
(** * Reference data: entities/service.py

    Publishing an immutable dataset version, the manifest of the versions a
    device's forms are pinned to, the pages of a version's rows, the rows a
    submission's version resolves a key to, and the delta between two
    versions; with the two routes of api/v1/datasets.py.  The order in which
    the database lists rows that no query orders is that of their insertion. *)

From S2P Require Import Prelude PyStr PyNum Value PyJson Expr Expression Datasets Document Compile CaseKey.
From S2P Require Import DatasetKeys Surface Printer PublishGate Server Catalog Forms.

Record published_dataset := PublishedDataset {
  pd_dataset : pystr;
  pd_version_id : pystr;
  pd_key : pystr;
  pd_version : Z;
  pd_row_count : Z;
  pd_checksum : pystr;
  pd_created : bool;
  pd_warnings : list (list pystr);         (* the groups of confusable keys *)
  pd_published_at : Z
}.

Record dataset_request := PublishDatasetRequest {
  dq_project : pystr;
  dq_key : pystr;
  dq_rows : list (odict value);
  dq_key_column : pystr;
  dq_name : option pystr;
  dq_version : option Z
}.

Record deployed_dataset := DeployedDatasetVersion {
  dd_form_version : pystr;
  dd_key : pystr;
  dd_dataset_version : pystr;
  dd_version : Z;
  dd_row_count : Z;
  dd_checksum : pystr;
  dd_filter_columns : list pystr
}.

Record dataset_delta := DatasetDelta {
  dl_to : pystr;
  dl_from : pystr;
  dl_changed : list (odict value);
  dl_deleted : list pystr;
  dl_next : option pystr;
  dl_columns : list pystr
}.

(** A number [json.dumps] refuses under [allow_nan=False]. *)
Fixpoint not_finite (v : value) : bool :=
  match v with
  | VFloat (S754_nan | S754_infinity _) => true
  | VList l => existsb not_finite l
  | VDict d => existsb (fun kv => not_finite kv.2) d
  | _ => false
  end.

Section Entities.
Context {env : PyEnv} {uni : UnicodeDB} (collate : pystr -> pystr -> comparison) (ulid : N -> pystr).
Context (sha256_hex : list N -> pystr) (utf8 : pystr -> list N) (casefold : pystr -> pystr).

(** [canonical_json] of crypto/envelope.py, for a value it accepts. *)
Definition canonical_json (data : odict value) : list N := utf8 (dumps (VDict data)).

Abbreviation hash_row := (row_hash sha256_hex canonical_json) (only parsing).

(** ** Publishing *)

Definition dataset_row (rq : dataset_request) : CT dataset :=
  named ← asks (fun c => List.filter (fun d => str_eqb (ds_project d) (dq_project rq) &&
                                               str_eqb (ds_key d) (dq_key rq)) (ct_datasets c));
  present ← scalar_one_or_none named;
  match present with
  | Some d => mret d
  | None =>
      i ← new_ulid ulid;
      let d := Dataset i (dq_project rq) (dq_key rq)
                 (match dq_name rq with Some ((_ :: _) as n) => n | _ => dq_key rq end) in
      insert_dataset d ≫= fun _ => mret d
  end.

(** The newest version: [ORDER BY version DESC LIMIT 1]. *)
Definition newest_version (c : catalog) (dataset_id : pystr) : option dataset_version :=
  last (sort_by (fun v w => xv_version v <=? xv_version w)
          (List.filter (fun v => str_eqb (xv_dataset v) dataset_id) (ct_dataset_versions c))).

Definition already_published (d : dataset) (key : pystr) (v : dataset_version) (warnings : list (list pystr))
    : published_dataset :=
  PublishedDataset (ds_id d) (xv_id v) key (xv_version v) (xv_row_count v) (xv_checksum v) false warnings
    (xv_published_at v).

(** The rows of a version, numbered in the file's order. *)
Fixpoint records_from (version_id : pystr) (ordinal : Z) (rows : list (odict value)) (hashed : list (pystr * pystr))
    : list dataset_record :=
  match rows, hashed with
  | row :: rows, (key, digest) :: hashed =>
      DatasetRecord version_id key row digest ordinal :: records_from version_id (ordinal + 1) rows hashed
  | _, _ => []
  end.

(** From the version's number on: the number is free, taken by the same
    content, or taken by other content. *)
Definition publish_numbered (now : Z) (rq : dataset_request) (d : dataset) (hashed : list (pystr * pystr))
    (warnings : list (list pystr)) (number : Z) : CT published_dataset :=
  let checksum := version_checksum sha256_hex utf8 hashed in
  unless (int4 number) DataError ≫= fun _ =>
  numbered ← asks (fun c => List.filter (fun v => str_eqb (xv_dataset v) (ds_id d) && (xv_version v =? number))
                              (ct_dataset_versions c));
  existing ← scalar_one_or_none numbered;
  match existing with
  | Some v =>
      if str_eqb (xv_checksum v) checksum then mret (already_published d (dq_key rq) v warnings)
      else refuse (DatasetRefused [DifferentRows (dq_key rq) number])
  | None =>
      i ← new_ulid ulid;
      let count := Z.of_nat (length (dq_rows rq)) in
      insert_dataset_version (DatasetVersion i (ds_id d) number count checksum now) ≫= fun _ =>
      each (records_from i 0 (dq_rows rq) hashed) insert_record ≫= fun _ =>
      mret (PublishedDataset (ds_id d) i (dq_key rq) number count checksum true warnings now)
  end.

(** What [check_keys] refuses, in its order. *)
Definition key_problems (r : key_report) : list dataset_problem :=
  (if (kr_missing r =? 0)%nat then [] else [MissingKeys (kr_missing r)]) ++
  (match kr_repeated r with [] => [] | ks => [RepeatedKeys ks] end).

Definition publish_dataset_version (now : Z) (rq : dataset_request) : CT published_dataset :=
  match dq_rows rq with
  | [] => refuse (DatasetRefused [NoRows])
  | rows =>
      let keys := check_keys casefold rows (dq_key_column rq) in
      if refused keys then refuse (DatasetRefused (key_problems keys))
      else
        d ← dataset_row rq;
        unless (negb (existsb (fun row => not_finite (VDict row)) rows)) (Escapes ValueError) ≫= fun _ =>
        let hashed := map (fun row => (cell_str (vget row (dq_key_column rq)), hash_row row)) rows in
        match dq_version rq with
        | Some number => publish_numbered now rq d hashed (kr_confusable keys) number
        | None =>
            newest ← asks (fun c => newest_version c (ds_id d));
            match newest with
            | Some v =>
                if str_eqb (xv_checksum v)
                     (content_address sha256_hex utf8 canonical_json rows (dq_key_column rq))
                then mret (already_published d (dq_key rq) v (kr_confusable keys))
                else publish_numbered now rq d hashed (kr_confusable keys) (xv_version v + 1)
            | None => publish_numbered now rq d hashed (kr_confusable keys) 1
            end
        end
  end.

(** ** What a form reads of a dataset *)

(** [walk]: every node under a node, itself first. *)
Fixpoint all_nodes (n : node) : list node :=
  match n with Node a c => n :: concat (map all_nodes c) end.

(** The choice lists of a document drawn from one dataset, in document order. *)
Definition lists_of (ir : value) (dataset_key : pystr) : list (odict value) :=
  omap (fun n => match vget (attrs n) "choices" with
                  | VDict choices =>
                      if py_eq (vget choices "dataset") (VStr dataset_key) then Some choices else None
                  | _ => None
                  end) (concat (map all_nodes (children (Document.node_of ir)))).

(** [selector_columns]: what its filters narrow on, and the value column. *)
Definition selector_columns (ir : value) (dataset_key : pystr) : gset pystr :=
  ⋃ map (fun choices =>
      (match compile_choices choices with
       | Some q => list_to_set (dkeys (cq_selector q))
       | None => ∅
       end) ∪
      (if truthy (vget choices "valueColumn") then {[ py_str (vget choices "valueColumn") ]} else ∅ : gset pystr))
    (lists_of ir dataset_key).

(** [_row_refs]: the [$row.] paths of an expression. *)
Fixpoint row_refs (e : value) : gset pystr :=
  match e with
  | VDict d =>
      (if has_op e "ref" && startswith (py_str (default (VStr []) (dget d "path"))) ROW_PREFIX
       then {[ py_str (vget d "path") ]} else ∅) ∪
      (fix look (d : list (pystr * value)) : gset pystr :=
         match d with
         | [] => ∅
         | (k, x) :: r =>
             if decide (k = lit "args")
             then match x with VList l => ⋃ map row_refs l | _ => ∅ end
             else look r
         end) d
  | _ => ∅
  end.

(** The columns one choice list reads. *)
Definition query_columns (q : choice_query) : gset pystr :=
  {[ cq_value_column q ]} ∪ list_to_set (map vtext (dvalues (cq_label_columns q))) ∪
  list_to_set (dkeys (cq_selector q)) ∪
  match cq_residual q with
  | Some residual => set_map (drop (length ROW_PREFIX)) (row_refs residual)
  | None => ∅
  end.

Definition columns_read_by (ir : value) (dataset_key : pystr) : gset pystr :=
  ⋃ map (fun choices => match compile_choices choices with Some q => query_columns q | None => ∅ end)
    (lists_of ir dataset_key).

(** ** Delivery *)

(** [ORDER BY dataset_key, form_version_id] *)
Definition pin_le (p q : pin_row) : bool :=
  match collate (pr_key p) (pr_key q) with
  | Lt => true
  | Gt => false
  | Eq => match collate (pr_version p) (pr_version q) with Gt => false | _ => true end
  end.

Definition ir_of (c : catalog) (form_version_id : pystr) : option value :=
  vr_ir <$> List.find (fun v => str_eqb (vr_id v) form_version_id) (ct_versions c).

(** One pin joined with the version it names. *)
Definition manifest_entry (c : catalog) (p : pin_row) : option deployed_dataset :=
  v ← List.find (fun v => str_eqb (xv_id v) (pr_dataset_version p)) (ct_dataset_versions c);
  Some (DeployedDatasetVersion (pr_version p) (pr_key p) (xv_id v) (xv_version v) (xv_row_count v) (xv_checksum v)
          (sort_str (elements (selector_columns (default (VDict []) (ir_of c (pr_version p))) (pr_key p))))).

Definition deployed_dataset_versions_for_device (c : catalog) (device_id : pystr)
    : option (list deployed_dataset) :=
  match deployed_versions_for_device collate c device_id with
  | None => None
  | Some [] => Some []
  | Some deployed =>
      Some (omap (manifest_entry c)
              (sort_by pin_le (List.filter (fun p => bool_decide (pr_version p ∈ map df_form_version deployed))
                                 (ct_pins c))))
  end.

(** The rows of a version in publication order. *)
Definition rows_of (c : catalog) (dataset_version_id : pystr) : list dataset_record :=
  sort_by (fun r q => xr_ordinal r <=? xr_ordinal q)
    (List.filter (fun r => str_eqb (xr_version r) dataset_version_id) (ct_records c)).

Definition has_version (c : catalog) (dataset_version_id : pystr) : bool :=
  bool_decide (dataset_version_id ∈ map xv_id (ct_dataset_versions c)).

(** [ordinal > int(cursor)]; a cursor that is no number starts over. *)
Definition after_cursor (cursor : option pystr) (l : list dataset_record) : list dataset_record + failure :=
  match cursor with
  | Some ((_ :: _) as text) =>
      match parse_int text with
      | Some n => if int4 n then inl (List.filter (fun r => n <? xr_ordinal r) l) else inr DataError
      | None => inl l
      end
  | _ => inl l
  end.

Definition rows_page : Type := list (odict value) * option pystr.

Definition dataset_rows_page (c : catalog) (dataset_version_id : pystr) (cursor : option pystr) (limit : nat)
    : option rows_page + failure :=
  if negb (has_version c dataset_version_id) then inl None
  else
    match after_cursor cursor (rows_of c dataset_version_id) with
    | inr e => inr e
    | inl rest =>
        let found := take (S limit) rest in
        let page := take limit found in
        let next := if (limit <? length found)%nat then str_Z ∘ xr_ordinal <$> last page else None in
        inl (Some (map xr_data page, next))
    end.

(** The route's rows: every key and value as text. *)
Definition wire_row (row : odict value) : odict pystr := map (fun kv => (kv.1, py_str kv.2)) row.

(** ** The rows a submission was collected against *)

(** The version each submission's form version pins the key to. *)
Definition pinned_versions (c : catalog) (submission_ids : list pystr) (dataset_key : pystr)
    : list (pystr * pystr) :=
  concat (map (fun kv =>
    if bool_decide (kv.1 ∈ submission_ids)
    then map (fun p => (kv.1, pr_dataset_version p))
           (List.filter (fun p => str_eqb (pr_version p) (sb_form_version kv.2) && str_eqb (pr_key p) dataset_key)
              (ct_pins c))
    else []) (sv_submissions (ct_server c))).

Definition dataset_rows_for_submissions (c : catalog) (submission_ids : list pystr) (dataset_key : pystr)
    : odict (list (odict value)) :=
  fold_left (fun found sv => dset found sv.1 (map xr_data (rows_of c sv.2)))
    (pinned_versions c submission_ids dataset_key) [].

Definition dataset_rows_for (c : catalog) (submission_id dataset_key : pystr) : option (list (odict value)) :=
  dget (dataset_rows_for_submissions c [submission_id] dataset_key) submission_id.

(** ** Deltas *)

(** [row_hash({c: data.get(c) for c in columns})] *)
Definition projection (columns : list pystr) (data : odict value) : pystr :=
  hash_row (map (fun col => (col, vget data col)) columns).

Definition projections (columns : list pystr) (rows : list dataset_record) : odict pystr :=
  fold_left (fun d r => dset d (xr_key r) (projection columns (xr_data r))) rows [].

Definition row_changed (columns : list pystr) (before : odict pystr) (r : dataset_record) : bool :=
  match dget before (xr_key r) with
  | Some p => negb (str_eqb p (projection columns (xr_data r)))
  | None => true
  end.

(** The loop over the new rows: what changed, and where the page filled. *)
Fixpoint collect_changed (changed_row : dataset_record -> bool) (limit : nat) (changed : list (odict value))
    (rows : list dataset_record) : list (odict value) * option Z :=
  match rows with
  | [] => (changed, None)
  | r :: rest =>
      let changed := if changed_row r then changed ++ [xr_data r] else changed in
      if (limit <=? length changed)%nat then (changed, Some (xr_ordinal r))
      else collect_changed changed_row limit changed rest
  end.

Definition str_gt (s t : pystr) : bool := match str_cmp s t with Gt => true | _ => false end.

(** The deleted keys after a position, and the page of them. *)
Definition deleted_page (gone : list pystr) (position : pystr) (limit : nat) : list pystr * option pystr :=
  let gone := match position with [] => gone | _ => List.filter (fun key => str_gt key position) gone end in
  let page := take limit gone in
  (page, if (limit <? length gone)%nat then (fun k => lit "d:" ++ k) <$> last page else None).

(** [("c", "") if not cursor else (cursor[:1], cursor[2:])] *)
Definition read_cursor (cursor : option pystr) : pystr * pystr :=
  match cursor with
  | Some ((_ :: _) as text) => (take 1 text, drop 2 text)
  | _ => (lit "c", [])
  end.

(** [ordinal > int(position)] *)
Definition after_position (position : pystr) (l : list dataset_record) : list dataset_record + failure :=
  match position with
  | [] => inl l
  | _ =>
      match parse_int position with
      | Some n => if int4 n then inl (List.filter (fun r => n <? xr_ordinal r) l) else inr DataError
      | None => inr (Escapes ValueError)
      end
  end.

(** The two phases of a page, from the new rows and the keys that are gone. *)
Definition delta_page (changed_row : dataset_record -> bool) (rows : list dataset_record) (gone : list pystr)
    (cursor : option pystr) (limit : nat) : list (odict value) * list pystr * option pystr + failure :=
  let '(phase, position) := read_cursor cursor in
  if str_eqb phase "c" then
    match after_position position rows with
    | inr e => inr e
    | inl rest =>
        match collect_changed changed_row limit [] rest with
        | (changed, Some ordinal) => inl (changed, [], Some (lit "c:" ++ str_Z ordinal))
        | (changed, None) => let '(page, next) := deleted_page gone [] limit in inl (changed, page, next)
        end
    end
  else let '(page, next) := deleted_page gone position limit in inl ([], page, next).

Definition pinned_version (c : catalog) (form_version_id dataset_key : pystr) : option pystr :=
  pr_dataset_version <$>
    List.find (fun p => str_eqb (pr_version p) form_version_id && str_eqb (pr_key p) dataset_key) (ct_pins c).

(** [sorted(key for key in before if key not in present)] *)
Definition gone_keys (before : odict pystr) (rows : list dataset_record) : list pystr :=
  sort_str (List.filter (fun key => negb (bool_decide (key ∈ map xr_key rows))) (dkeys before)).

Definition dataset_delta_for (c : catalog) (form_version_id dataset_key from_version : pystr)
    (cursor : option pystr) (limit : nat) : dataset_delta + failure :=
  match pinned_version c form_version_id dataset_key with
  | None => inr (DeltaRefused (NotPinned form_version_id dataset_key))
  | Some to_version =>
      let version i := List.find (fun v => str_eqb (xv_id v) i) (ct_dataset_versions c) in
      match version from_version with
      | None => inr (DeltaRefused (NeverPublished from_version))
      | Some from_row =>
          match version to_version with
          | None => inr (Escapes KeyError)
          | Some to_row =>
              if negb (str_eqb (xv_dataset from_row) (xv_dataset to_row))
              then inr (DeltaRefused (OtherDataset from_version dataset_key))
              else
                let ir := default (VDict []) (ir_of c form_version_id) in
                let columns := sort_str (elements (columns_read_by ir dataset_key)) in
                let before := projections columns
                  (List.filter (fun r => str_eqb (xr_version r) from_version) (ct_records c)) in
                let rows := rows_of c to_version in
                match delta_page (row_changed columns before) rows (gone_keys before rows) cursor limit with
                | inr e => inr e
                | inl (changed, deleted, next) =>
                    inl (DatasetDelta to_version from_version changed deleted next columns)
                end
          end
      end
  end.

End Entities.
