(* ===== verification/Cases.v ===== *)
(** * Cases and their assignment

    The sample's rows become cases, a case is held by a team and, under it, by
    a person, and whoever may see or hold one is the policies' decision:
    cases/service.py and cases/models.py with the functions and policies of
    migrations/schema/012_cases.sql and 014, over the tables of people
    ([directory]) and of datasets ([catalog]).  A statement sees the tables as
    they were when it began.  The names a listing joins for display and the
    number of submissions it counts are left out; the tombstone of a withdrawn
    case is its project and the case. *)

From S2P Require Import Prelude PyStr PyNum Value PyJson Expr Expression Datasets CaseKey DatasetKeys Surface PublishGate.
From S2P Require Import Server Catalog Identity People Forms Entities.

(** ** Rows *)

Inductive case_status := CaseOpen | CaseClosed | CaseWithdrawn.

#[global] Instance case_status_eq_dec : EqDecision case_status.
Proof. solve_decision. Defined.

Record case_row := CaseRecord {
  ca_id : pystr;
  ca_project : pystr;
  ca_dataset : option pystr;               (* [dataset_key] *)
  ca_key : option pystr;                   (* [case_key] *)
  ca_status : case_status;
  ca_priority : Z;
  ca_closed_at : option Z
}.

Record assignment := Assignment {
  an_id : pystr;
  an_case : pystr;
  an_user : option pystr;
  an_team : option pystr;
  an_by : option pystr;
  an_at : Z;
  an_released : option Z
}.

#[global] Instance assignment_eq_dec : EqDecision assignment.
Proof. solve_decision. Defined.

Record casework := Casework {
  cw_people : directory;
  cw_catalog : catalog;
  cw_key_columns : odict (list pystr);     (* [dataset.key_columns], by dataset *)
  cw_cases : list case_row;
  cw_assignments : list assignment;
  cw_tombstones : list (pystr * pystr)     (* project, case *)
}.

Definition with_people_of (x : directory) (w : casework) : casework :=
  Casework x (cw_catalog w) (cw_key_columns w) (cw_cases w) (cw_assignments w) (cw_tombstones w).
Definition with_catalog_of (x : catalog) (w : casework) : casework :=
  Casework (cw_people w) x (cw_key_columns w) (cw_cases w) (cw_assignments w) (cw_tombstones w).
Definition with_key_columns (x : odict (list pystr)) (w : casework) : casework :=
  Casework (cw_people w) (cw_catalog w) x (cw_cases w) (cw_assignments w) (cw_tombstones w).
Definition with_cases (x : list case_row) (w : casework) : casework :=
  Casework (cw_people w) (cw_catalog w) (cw_key_columns w) x (cw_assignments w) (cw_tombstones w).
Definition with_assignments (x : list assignment) (w : casework) : casework :=
  Casework (cw_people w) (cw_catalog w) (cw_key_columns w) (cw_cases w) x (cw_tombstones w).
Definition with_case_tombstones (x : list (pystr * pystr)) (w : casework) : casework :=
  Casework (cw_people w) (cw_catalog w) (cw_key_columns w) (cw_cases w) (cw_assignments w) x.

Abbreviation WT := (ST casework refusal) (only parsing).

(** ** The policies *)

(** [released_at IS NULL] *)
Definition held (a : assignment) : bool := bool_decide (an_released a = None).

Section Scope.
Context (p : principal) (w : casework).

(** [dcp_case_in_scope] *)
Definition case_in_scope (the_case : pystr) : bool :=
  dcp_org_wide p ||
  existsb (fun c => str_eqb (ca_id c) the_case && dcp_in_list (pn_projects p) (Some (ca_project c))) (cw_cases w) ||
  existsb (fun a => str_eqb (an_case a) the_case && held a &&
    (bool_decide (an_user a = Some (pn_user p)) ||
     dcp_has p "sample.assign" && (dcp_in_list (pn_teams p) (an_team a) || dcp_in_list (pn_visible p) (an_user a))))
    (cw_assignments w).

(** [dcp_person_under_live_team], with 014's [dcp_membership_active] *)
Definition person_under_live_team (the_case user : pystr) : bool :=
  may_hold_session p (cw_people w) user &&
  existsb (fun a => str_eqb (an_case a) the_case && held a && negb (bool_decide (an_team a = None)) &&
    existsb (fun m => bool_decide (pm_team m = an_team a) && str_eqb (pm_user m) user && pm_active m) (di_members (cw_people w)))
    (cw_assignments w).

Definition sees_case (c : case_row) : bool := case_in_scope (ca_id c).

Definition may_write_case (c : case_row) : bool :=
  dcp_has p "sample.upload" && (dcp_org_wide p || dcp_in_list (pn_projects p) (Some (ca_project c))).

Definition sees_assignment (a : assignment) : bool := case_in_scope (an_case a).

Definition may_write_assignment (a : assignment) : bool :=
  dcp_has p "sample.assign" && case_in_scope (an_case a) &&
  (negb (bool_decide (an_team a = None)) && (dcp_org_wide p || team_of_my_projects p (cw_people w) (an_team a)) ||
   match an_user a with
   | Some user => (dcp_org_wide p || dcp_in_list (pn_visible p) (Some user)) && person_under_live_team (an_case a) user
   | None => false
   end).

End Scope.

(** ** The two writers *)

(** The partial unique indexes: a case's holder at each level. *)
Definition live_team (a : assignment) : option pystr :=
  if held a && negb (bool_decide (an_team a = None)) then Some (an_case a) else None.
Definition live_person (a : assignment) : option pystr :=
  if held a && negb (bool_decide (an_user a = None)) then Some (an_case a) else None.

(** No row has the key, where the row has one. *)
Definition free {A} (key : A -> option pystr) (x : A) (rows : list A) : bool :=
  negb (existsb (fun y => bool_decide (key y = key x /\ key x <> None)) rows).

(** [assignment_target_check] and the rest of the table's constraints *)
Definition assignment_ok (w : casework) (a : assignment) : bool :=
  negb (Bool.eqb (bool_decide (an_user a = None)) (bool_decide (an_team a = None))) &&
  fresh an_id a (cw_assignments w) && free live_team a (cw_assignments w) && free live_person a (cw_assignments w) &&
  present ca_id (an_case a) (cw_cases w) && known_id us_id (an_user a) (di_people (cw_people w)) &&
  known_id te_id (an_team a) (di_teams (cw_people w)) && known_id us_id (an_by a) (di_people (cw_people w)).

Definition insert_assignment (p : principal) (a : assignment) : WT unit :=
  insert_row (fun w => may_write_assignment p w a) (fun w => assignment_ok w a)
    (fun w => with_assignments (cw_assignments w ++ [a]) w).

Definition released (now : Z) (a : assignment) : assignment :=
  Assignment (an_id a) (an_case a) (an_user a) (an_team a) (an_by a) (an_at a) (Some now).

(** [UPDATE assignment SET released_at = now()] at one level. *)
Definition release (p : principal) (now : Z) (the_case : pystr) (level : assignment -> option pystr) : WT nat :=
  update_rows cw_assignments with_assignments
    (fun w a => str_eqb (an_case a) the_case && held a && negb (bool_decide (level a = None)) && sees_assignment p w a)
    (released now) (may_write_assignment p) (fun _ => true).

(** [dcp_assign_case] *)
Definition dcp_assign_case (p : principal) (now : Z) (the_case : pystr) (to_team to_person : option pystr) (new_id : pystr)
    : WT unit :=
  let row := Assignment new_id the_case to_person to_team (me p) now None in
  release p now the_case an_user ≫= fun _ =>
  match to_team with
  | Some _ => release p now the_case an_team ≫= fun _ => insert_assignment p row
  | None => insert_assignment p row
  end.

(** [case_record]'s constraints, and its key in the project. *)
Definition project_key (c : case_row) : option (pystr * pystr) := (fun k => (ca_project c, k)) <$> ca_key c.

Definition case_ok (w : casework) (c : case_row) : bool :=
  Bool.eqb (bool_decide (ca_dataset c = None)) (bool_decide (ca_key c = None)) &&
  fresh ca_id c (cw_cases w) &&
  negb (existsb (fun x => bool_decide (project_key x = project_key c /\ project_key c <> None)) (cw_cases w)) &&
  present fst (ca_project c) (di_projects (cw_people w)).

Definition insert_case (p : principal) (c : case_row) : WT unit :=
  insert_row (fun _ => may_write_case p c) (fun w => case_ok w c) (fun w => with_cases (cw_cases w ++ [c]) w).

Definition in_status (s : case_status) (closed_at : option Z) (c : case_row) : case_row :=
  CaseRecord (ca_id c) (ca_project c) (ca_dataset c) (ca_key c) s (ca_priority c) closed_at.

(** A case of this sample whose key is among those given. *)
Definition of_sample (project dataset_key : pystr) (c : case_row) : bool :=
  str_eqb (ca_project c) project && bool_decide (ca_dataset c = Some dataset_key).
Definition keyed_among (keys : list pystr) (c : case_row) : bool :=
  match ca_key c with Some k => bool_decide (k ∈ keys) | None => false end.

(** A key of the sample that has no case the asker sees. *)
Definition without_case (p : principal) (w : casework) (project key : pystr) : bool :=
  negb (existsb (fun c => str_eqb (ca_project c) project && bool_decide (ca_key c = Some key) && sees_case p w c) (cw_cases w)).

(** The upsert's third statement: who is withdrawn. *)
Definition withdrawing (p : principal) (project dataset_key : pystr) (keys : list pystr) (w : casework) (c : case_row) : bool :=
  of_sample project dataset_key c && negb (bool_decide (ca_status c = CaseWithdrawn)) && negb (keyed_among keys c) && sees_case p w c.

(** [dcp_upsert_cases]: made, reopened, withdrawn. *)
Definition dcp_upsert_cases (p : principal) (now : Z) (project dataset_key : pystr) (keys ids : list pystr)
    : WT (nat * nat * nat) :=
  w ← asks id;
  let incoming := List.filter (fun ki => without_case p w project ki.1) (combine keys ids) in
  each incoming (fun ki =>
    insert_case p (CaseRecord ki.2 project (Some dataset_key) (Some ki.1) CaseOpen 0 None)) ≫= fun _ =>
  reopened ← update_rows cw_cases with_cases
    (fun w c => of_sample project dataset_key c && bool_decide (ca_status c = CaseWithdrawn) && keyed_among keys c && sees_case p w c)
    (in_status CaseOpen None) (fun _ => may_write_case p) (fun _ => true);
  w ← asks id;
  let gone := List.filter (withdrawing p project dataset_key keys w) (cw_cases w) in
  withdrawn ← update_rows cw_cases with_cases (withdrawing p project dataset_key keys)
    (in_status CaseWithdrawn (Some now)) (fun _ => may_write_case p) (fun _ => true);
  unless (bool_decide (gone = []) || project_seen p (cw_people w) project) PolicyRefuses ≫= fun _ =>
  writes (fun w => with_case_tombstones (cw_tombstones w ++ map (fun c => (project, ca_id c)) gone) w) ≫= fun _ =>
  mret (length incoming, reopened, withdrawn).

(** ** The service *)

Section Service.
Context (collate : pystr -> pystr -> comparison) (ulid : N -> pystr).
Context (sha256_hex : list N -> pystr) (utf8 : pystr -> list N) (casefold : pystr -> pystr).

(** A statement on the catalog's tables. *)
Definition on_catalog {A} (m : CT A) : WT A := fun w =>
  match m (cw_catalog w) with
  | (c, inl a) => (with_catalog_of c w, inl a)
  | (c, inr (DatasetRefused why)) => (with_catalog_of c w, inr (BadSample why))
  | (c, inr e) => (with_catalog_of c w, inr (Escaped e))
  end.

Definition mint : WT pystr := on_catalog (new_ulid ulid).

Fixpoint mints (n : nat) : WT (list pystr) :=
  match n with
  | O => mret []
  | S n => i ← mint; others ← mints n; mret (i :: others)
  end.

(** *** Reading *)

(** The sample row of a case: the newest version's with its key. *)
Definition row_of_case (w : casework) (c : case_row) : odict value :=
  match ca_dataset c, ca_key c with
  | Some dataset_key, Some key =>
      let datasets := List.filter (fun d => str_eqb (ds_project d) (ca_project c) && str_eqb (ds_key d) dataset_key)
                        (ct_datasets (cw_catalog w)) in
      let versions := List.filter (fun v => present ds_id (xv_dataset v) datasets) (ct_dataset_versions (cw_catalog w)) in
      let rows := concat (map (fun v =>
        map (pair (xv_version v)) (List.filter (fun r => str_eqb (xr_version r) (xv_id v) && str_eqb (xr_key r) key)
          (ct_records (cw_catalog w)))) versions) in
      match last (sort_by (fun a b => a.1 <=? b.1) rows) with Some (_, r) => xr_data r | None => [] end
  | _, _ => []
  end.

Record case_view := CaseView {
  cv_case : case_row;
  cv_team : option pystr;
  cv_user : option pystr;
  cv_data : odict value
}.

(** Highest priority first, then by key, those without one last, then by id. *)
Definition case_before (a b : case_row) : bool :=
  if ca_priority a =? ca_priority b
  then match ca_key a, ca_key b with
       | Some k, Some l => match collate k l with
                           | Lt => true
                           | Gt => false
                           | Eq => match collate (ca_id a) (ca_id b) with Gt => false | _ => true end
                           end
       | Some _, None => true
       | None, Some _ => false
       | None, None => match collate (ca_id a) (ca_id b) with Gt => false | _ => true end
       end
  else ca_priority b <? ca_priority a.

(** The dataset's policy: seen with its project. *)
Definition data_of_case (p : principal) (w : casework) (c : case_row) : odict value :=
  if project_seen p (cw_people w) (ca_project c) then row_of_case w c else [].

(** [list_cases] *)
Definition list_cases (p : principal) (w : casework) (project : pystr) : list case_view :=
  let holder level c :=
    match List.find (fun a => str_eqb (an_case a) (ca_id c) && held a && negb (bool_decide (level a = None)) && sees_assignment p w a)
            (cw_assignments w) with
    | Some a => level a
    | None => None
    end in
  map (fun c => CaseView c (holder an_team c) (holder an_user c) (data_of_case p w c))
    (sort_by case_before (List.filter (fun c => str_eqb (ca_project c) project && sees_case p w c) (cw_cases w))).

(** [assigned_to]: what a device's person holds, complete. *)
Definition assigned_to (p : principal) (w : casework) (user : pystr) : list (case_row * odict value) :=
  map (fun c => (c, data_of_case p w c))
    (sort_by case_before
      (concat (map (fun a => List.filter (fun c => str_eqb (ca_id c) (an_case a) && sees_case p w c) (cw_cases w))
        (List.filter (fun a => held a && bool_decide (an_user a = Some user) && sees_assignment p w a) (cw_assignments w))))).

(** *** Writing *)

Definition assign (p : principal) (now : Z) (case_id : pystr) (team user : option pystr) : WT unit :=
  unless (negb (Bool.eqb (bool_decide (team = None)) (bool_decide (user = None)))) BadRequest ≫= fun _ =>
  new_id ← mint;
  guarded (dcp_assign_case p now case_id team user new_id).

Definition assign_many (p : principal) (now : Z) (case_ids : list pystr) (team user : option pystr) : WT nat :=
  each case_ids (fun c => assign p now c team user) ≫= fun _ =>
  mret (length case_ids).

(** [CASE_KEY_COLUMN] *)
Definition CASE_KEY_COLUMN : pystr := lit "case_key".

Record sample := Sample {
  sm_project : pystr;
  sm_dataset : pystr;                      (* [dataset_key] *)
  sm_columns : list pystr;                 (* [key_columns] *)
  sm_rows : list (odict value);
  sm_name : option pystr
}.

(** The loop that keys the rows; [index] counts from one. *)
Fixpoint keyed_rows (columns : list pystr) (index : nat) (rows : list (odict value)) : list (odict value) + refusal :=
  match rows with
  | [] => inl []
  | row :: rows =>
      match key_of row columns with
      | inr column => inr (BadKeyRow index column)
      | inl key =>
          match keyed_rows columns (S index) rows with
          | inl keyed => inl (dset row CASE_KEY_COLUMN (VStr key) :: keyed)
          | inr e => inr e
          end
      end
  end.

Definition case_keys (keyed : list (odict value)) : list pystr := map (fun row => cell_str (vget row CASE_KEY_COLUMN)) keyed.

(** [publish_dataset_version], under the policies: a project the asker does
    not see has no dataset and takes none. *)
Definition publish_sample (p : principal) (now : Z) (rq : sample) (keyed : list (odict value)) : WT published_dataset := fun w =>
  let m := on_catalog (publish_dataset_version ulid sha256_hex utf8 casefold now
             (PublishDatasetRequest (sm_project rq) (sm_dataset rq) keyed CASE_KEY_COLUMN (sm_name rq) None)) in
  match m w with
  | (w', inr (BadSample why)) => (w', inr (BadSample why))
  | done => if project_seen p (cw_people w) (sm_project rq) then done else (w, inr Outside)
  end.

Record upload_report := SampleUploadResponse {
  su_published : published_dataset;
  su_created : nat;
  su_reopened : nat;
  su_withdrawn : nat
}.

Definition upload_sample (p : principal) (now : Z) (rq : sample) : WT upload_report :=
  unless (negb (bool_decide (sm_columns rq = []))) BadRequest ≫= fun _ =>
  let missing := match sm_rows rq with
                 | [] => []
                 | first :: _ => List.filter (fun c => negb (dhas first c)) (sm_columns rq)
                 end in
  unless (bool_decide (missing = [])) BadRequest ≫= fun _ =>
  match keyed_rows (sm_columns rq) 1 (sm_rows rq) with
  | inr e => refuse e
  | inl keyed =>
      published ← publish_sample p now rq keyed;
      guarded (writes (fun w => with_key_columns (dset (cw_key_columns w) (pd_dataset published) (sm_columns rq)) w)) ≫= fun _ =>
      let keys := case_keys keyed in
      ids ← mints (length keys);
      counts ← guarded (dcp_upsert_cases p now (sm_project rq) (sm_dataset rq) keys ids);
      mret (SampleUploadResponse published counts.1.1 counts.1.2 counts.2)
  end.

(** ** The routes *)

Context (token_hash : pystr -> pystr) (argon2 : pystr -> pystr -> bool) (hash_password : pystr -> pystr).

Inductive case_action :=
| AssignCase (case_id : pystr) (team user : option pystr)
| AssignMany (case_ids : list pystr) (team user : option pystr)
| UploadSample (rq : sample).

(** What each route declares (api/v1/cases.py, api/v1/projects.py). *)
Definition declared_work (a : case_action) : admission :=
  match a with
  | AssignCase _ _ _ | AssignMany _ _ _ => needs ["sample.assign"%string]
  | UploadSample _ => needs ["sample.upload"%string]
  end.

Definition perform_work (p : principal) (now : Z) (a : case_action) : WT unit :=
  match a with
  | AssignCase c team user => assign p now c team user
  | AssignMany cs team user => assign_many p now cs team user ≫= fun _ => mret tt
  | UploadSample rq => upload_sample p now rq ≫= fun _ => mret tt
  end.

(** A statement on the tables of people. *)
Definition on_people {A} (m : DT A) : WT A := fun w =>
  match m (cw_people w) with
  | (d, r) => (with_people_of d w, r)
  end.

Inductive work_request :=
| OfPeople (rq : request)
| Work (slug : pystr) (token : option pystr) (a : case_action).

Definition handle_work (ttl now : Z) (rq : work_request) : WT unit :=
  match rq with
  | OfPeople rq => on_people (handle ulid token_hash argon2 hash_password collate ttl now rq) ≫= fun _ => mret tt
  | Work slug token a =>
      i ← on_people (current_identity token_hash now ttl slug token);
      match guard (declared_work a) i with
      | inr e => refuse e
      | inl i => transaction (perform_work (ie_principal i) now a)
      end
  end.

(** The tables after a request. *)
Definition serve_work (ttl : Z) (w : casework) (t_rq : Z * work_request) : casework := (handle_work ttl t_rq.1 t_rq.2 w).1.

End Service.

(** ** A sample at Acme to evaluate them on *)

Module Fieldwork.
Import Acme.

Definition household (village number : string) : odict value := [(lit "village", VStr (lit village)); (lit "hh", VStr (lit number))].

Definition households (rows : list (string * string)) : sample :=
  Sample "census" "households" [lit "village"; lit "hh"] (map (fun r => household r.1 r.2) rows) None.

Definition no_server : server :=
  Server [(lit "census", Project (lit "standard") 0 0 0)] [] [] [] [] [] [] [] [] [] [] [] [] [] [] [] [] [] 0 0 ∅.

Definition nothing_yet : casework :=
  Casework taken_on (Catalog no_server [] [] [] [] [] [] [] [] [] 100) [] [] [] [].

Definition spoken (s : pystr) : list N := s.

Definition works (w : casework) (l : list (Z * work_request)) : casework :=
  fold_left (serve_work str_cmp ulids spoken spoken spoken (fun t => lit "=" ++ t) hashes hashed 3600) l w.

Definition work_as (name : string) (a : case_action) : work_request := Work "acme.org" (Some (lit "t-" ++ lit name)) a.

Definition sample_of_three : sample := households [("oak", "1"); ("oak", "2"); ("elm", "1")]%string.
Definition sample_of_two : sample := households [("oak", "1"); ("oak", "2")]%string.

(** Ann uploads three households and gives two of them to the north; Sam puts
    Noor on one; the second upload leaves the third household out. *)
Definition splitting : list (Z * work_request) :=
  [(10, work_as "ann" (UploadSample sample_of_three));
   (11, work_as "ann" (AssignMany (map lit ["u103"; "u104"]%string) (Some (lit "north")) None))].
Definition sending : list (Z * work_request) :=
  [(12, work_as "sam" (AssignCase "u103" None (Some (lit "u1")))); (13, work_as "ann" (UploadSample sample_of_two))].

Definition split_up : casework := Eval vm_compute in works nothing_yet splitting.
Definition sent_out : casework := Eval vm_compute in works split_up sending.

Definition ann : principal := principal_for taken_on "ann" "acme" "acme.org".
Definition sam : principal := principal_for taken_on "sam" "acme" "acme.org".

Definition noors_row : assignment := Assignment "u107" "u103" (Some (lit "u1")) None (Some (lit "sam")) 12 None.

End Fieldwork.
