(* ===== verification/Pull.v ===== *)
(** * Sync pull: the op and tombstone streams of sync/service.py (sync 5)

    One page of what was accepted after a cursor and the asking person may see
    (the row-level policies of submission, its ops and the tombstones:
    migrations/schema/016_review.sql with 008, 011 and 012), and a client that
    follows the cursor until nothing is left. *)

From Stdlib Require Import Sorting.Sorted.
From stdpp Require Import sorting.
From S2P Require Import Prelude PyStr PyJson Value Fold Server Identity Cases Push.

(** ** The wire *)

Record pulled_op := PulledOp {
  po_id : pystr;
  po_submission : pystr;
  po_form : pystr;
  po_version : Z;
  po_kind : pystr;
  po_path : option pystr;
  po_value : value;
  po_ciphertext : option pystr;
  po_content_key : option pystr;
  po_nonce : option pystr;
  po_device : pystr;
  po_actor : option pystr;
  po_counter : Z;
  po_wall_clock : pystr;
  po_seq : Z
}.

Record pull_response := PullResponse {
  pr_ops : list pulled_op;
  pr_tombstones : list tombstone;
  pr_next_cursor : Z;
  pr_has_more : bool
}.

(** ** What the asking person sees *)

Section Policies.
Context (p : principal) (w : casework).

(** The policy on a submission: the case's scope when there is a case, one's
    own always, the uncased work of the people one may see with
    submission.view. *)
Definition sees_submission (sb : submission) : bool :=
  project_seen p (cw_people w) (sb_project sb) &&
  (dcp_org_wide p ||
   bool_decide (sb_created_by sb = Some (pn_user p)) ||
   match sb_case sb with Some c => case_in_scope p w c | None => false end ||
   bool_decide (sb_case sb = None) && dcp_has p "submission.view" && dcp_in_list (pn_visible p) (sb_created_by sb)).

(** [submission_id IN (SELECT id FROM submission)] *)
Definition sees_op (s : server) (r : op_row) : bool :=
  match dget (sv_submissions s) (ro_submission r) with Some sb => sees_submission sb | None => false end.

(** [project_id IN (SELECT id FROM project)] *)
Definition sees_tombstone (t : tombstone) : bool := project_seen p (cw_people w) (ts_project t).

End Policies.

(** ** One page *)

(** A row of either stream. *)
Inductive item := Op (r : op_row) | Stone (t : tombstone).

Definition seq_of (x : item) : Z := match x with Op r => ro_seq r | Stone t => ts_seq t end.

(** [WHERE server_seq > cursor ORDER BY server_seq LIMIT limit + 1], of the rows
    the policy shows. *)
Definition fetch {A} (seq : A -> Z) (sees : A -> bool) (cursor : Z) (limit : nat) (rows : list A) : list A :=
  take (S limit) (sort_by (fun a b => seq a <=? seq b) (List.filter (fun r => sees r && (cursor <? seq r)) rows)).

(** Tuples [(server_seq, kind, row)] compare by sequence, then "op" before "tombstone". *)
Definition item_before (a b : item) : bool :=
  (seq_of a <? seq_of b) || (seq_of a =? seq_of b) && match a, b with Stone _, Op _ => false | _, _ => true end.

Section Page.
Context (asker : principal) (w : casework).

Definition merged (s : server) (cursor : Z) (limit : nat) : list item :=
  match limit with
  | O => []
  | _ => sort_by item_before (map Op (fetch ro_seq (sees_op asker w s) cursor limit (sv_ops s)) ++
                              map Stone (fetch ts_seq (sees_tombstone asker w) cursor limit (sv_tombstones s)))
  end.

(** The form key and version a submission is pinned to; a submission is
    joined with what its policy and the form's (its project) show. *)
Definition form_info (s : server) (submission_id : pystr) : option (pystr * Z) :=
  match dget (sv_submissions s) submission_id with
  | Some sb =>
      if sees_submission asker w sb
      then option_map (fun v => (fv_form_key v, fv_version v))
             (List.find (fun v => str_eqb (fv_id v) (sb_form_version sb) && project_seen asker (cw_people w) (fv_project v))
                (sv_versions s))
      else None
  | None => None
  end.

Definition wire_op (form : pystr * Z) (r : op_row) : pulled_op :=
  PulledOp (ro_id r) (ro_submission r) form.1 form.2 (ro_kind r) (ro_path r) (default VNone (ro_value r))
    (option_map tohex (ro_ciphertext r)) (ro_content_key r) (option_map tohex (ro_nonce r)) (ro_device r)
    (ro_actor r) (ro_counter r) (ro_wall_clock r) (ro_seq r).

(** The ops of a batch in order; [None] is the [KeyError] of an op whose
    submission is not there. *)
Fixpoint wire_ops (s : server) (batch : list item) : option (list pulled_op) :=
  match batch with
  | [] => Some []
  | Stone _ :: r => wire_ops s r
  | Op o :: r =>
      match form_info s (ro_submission o), wire_ops s r with
      | Some form, Some l => Some (wire_op form o :: l)
      | _, _ => None
      end
  end.

Definition stones (batch : list item) : list tombstone :=
  omap (fun x => match x with Stone t => Some t | Op _ => None end) batch.

Definition pull_batch (s : server) (cursor : Z) (limit : nat) : list item := take limit (merged s cursor limit).

Definition next_cursor (cursor : Z) (batch : list item) : Z :=
  match last batch with Some x => seq_of x | None => cursor end.

Definition has_more (s : server) (cursor : Z) (limit : nat) : bool :=
  (0 <? limit)%nat && (length (pull_batch s cursor limit) <? length (merged s cursor limit))%nat.

Definition pull (s : server) (cursor : Z) (limit : nat) : option pull_response :=
  let batch := pull_batch s cursor limit in
  match wire_ops s batch with
  | Some ops => Some (PullResponse ops (stones batch) (next_cursor cursor batch) (has_more s cursor limit))
  | None => None
  end.

(** ** A client resuming from the cursor while there is more *)

Fixpoint drain (fuel : nat) (s : server) (cursor : Z) (limit : nat) : option (list pulled_op * list tombstone * Z) :=
  match fuel, pull s cursor limit with
  | S n, Some page =>
      if pr_has_more page
      then match drain n s (pr_next_cursor page) limit with
           | Some (ops, ts, c) => Some (pr_ops page ++ ops, pr_tombstones page ++ ts, c)
           | None => None
           end
      else Some (pr_ops page, pr_tombstones page, pr_next_cursor page)
  | _, _ => None
  end.

(** ** The streams as one sequence *)

Definition ops_seen (s : server) : list op_row := List.filter (sees_op asker w s) (sv_ops s).
Definition stones_seen (s : server) : list tombstone := List.filter (sees_tombstone asker w) (sv_tombstones s).

Definition items (s : server) : list item := map Op (ops_seen s) ++ map Stone (stones_seen s).

Definition stream (s : server) (cursor : Z) : list item :=
  sort_by item_before (List.filter (fun x => cursor <? seq_of x) (items s)).

(** The sequence numbers are unique, and a submission is pinned to a version
    there is of its own project. *)
Definition sequenced (s : server) : Prop := NoDup (map seq_of (map Op (sv_ops s) ++ map Stone (sv_tombstones s))).
Definition pinned (s : server) : Prop := forall i sb, dget (sv_submissions s) i = Some sb ->
  exists v, v ∈ sv_versions s /\ fv_id v = sb_form_version sb /\ fv_project v = sb_project sb.

(** Stored rows as they travel. *)
Definition relayed (s : server) (r : op_row) (o : pulled_op) : Prop :=
  exists form, form_info s (ro_submission r) = Some form /\ o = wire_op form r.

Definition seq_le (x y : item) : Prop := seq_of x <= seq_of y.

#[global] Instance seq_le_trans : Transitive seq_le.
Proof. intros x y z; unfold seq_le; lia. Qed.

Lemma sort_items_sorted l : StronglySorted seq_le (sort_by item_before l).
Proof.
  apply Sorted_StronglySorted; [intros x y z; apply seq_le_trans|]. apply sort_by_sorted.
  intros x y. unfold item_before, seq_le. destruct (_ || _) eqn:E; destruct x, y; cbn in *; lia.
Qed.

Lemma sort_rows_sorted {A} (seq : A -> Z) (f : A -> item) l :
  (forall a, seq_of (f a) = seq a) -> StronglySorted seq_le (map f (sort_by (fun a b => seq a <=? seq b) l)).
Proof.
  intros Hf. apply (StronglySorted_fmap f (fun a b => seq a <= seq b)).
  { intros a b. unfold seq_le. by rewrite !Hf. }
  apply Sorted_StronglySorted; [intros a b c; lia|]. apply sort_by_sorted. intros a b. destruct (_ <=? _) eqn:E; lia.
Qed.

Lemma StronglySorted_filter {A} (R : A -> A -> Prop) (p : A -> bool) l :
  StronglySorted R l -> StronglySorted R (List.filter p l).
Proof.
  induction 1 as [|x l Hs IH Hall]; cbn [List.filter]; [constructor|]. destruct (p x); [|done].
  constructor; [done|]. rewrite Forall_forall in *. intros y Hy. apply Hall.
  apply list_elem_of_In, filter_In in Hy as [Hy _]. by apply list_elem_of_In.
Qed.

Lemma seq_inj l x y : NoDup (map seq_of l) -> x ∈ l -> y ∈ l -> seq_of x = seq_of y -> x = y.
Proof.
  intros Hn [i Hi]%list_elem_of_lookup [j Hj]%list_elem_of_lookup E.
  assert (i = j) as ->; [|congruence].
  change (map seq_of l) with (seq_of <$> l) in Hn. eapply NoDup_lookup; [exact Hn| |]; rewrite list_lookup_fmap.
  - by rewrite Hi.
  - rewrite Hj. cbn. by rewrite E.
Qed.

(** Two lists ordered by distinct sequence numbers with the same items. *)
Lemma by_seq_unique (l1 l2 : list item) :
  StronglySorted seq_le l1 -> StronglySorted seq_le l2 -> NoDup (map seq_of l1) -> l1 ≡ₚ l2 -> l1 = l2.
Proof.
  intros H1 H2 Hn Hp. eapply (StronglySorted_unique_strong seq_le); [|done..].
  intros x y Hx Hy Hle Hge. rewrite <- Hp in Hy. eapply seq_inj; try done. unfold seq_le in *; lia.
Qed.

(** What is among the first [k] is among the first [k] of its kind. *)
Lemma take_filter_in {A} (p : A -> bool) k l x : x ∈ take k l -> p x = true -> x ∈ take k (List.filter p l).
Proof.
  revert k. induction l as [|y l IH]; intros [|k]; cbn [take List.filter]; try (intros H; by apply not_elem_of_nil in H).
  intros [->|Hx]%elem_of_cons Hp; [rewrite Hp; by left|].
  destruct (p y); [right; by apply IH|]. specialize (IH _ Hx Hp).
  apply elem_of_take in IH as (i & Hi & Hlt). apply elem_of_take. exists i. split; [done|lia].
Qed.

Lemma filter_filter_and {A} (p q : A -> bool) l :
  List.filter p (List.filter q l) = List.filter (fun x => q x && p x) l.
Proof. induction l as [|x l IH]; [done|]. cbn. destruct (q x); cbn; [|done]. by rewrite IH. Qed.

(** ** The stream and its pages *)

Definition is_op (x : item) : bool := match x with Op _ => true | Stone _ => false end.
Definition is_stone (x : item) : bool := negb (is_op x).

Lemma items_seqs s : sequenced s -> NoDup (map seq_of (items s)).
Proof.
  intros Hs. eapply sublist_NoDup; [exact Hs|]. apply sublist_map, sublist_app; apply sublist_map, sublist_filter.
Qed.

Lemma stream_perm s c : stream s c ≡ₚ List.filter (fun x => c <? seq_of x) (items s).
Proof. apply sort_by_perm. Qed.

Lemma seqs_filter (p : item -> bool) l : NoDup (map seq_of l) -> NoDup (map seq_of (List.filter p l)).
Proof. intros Hn. eapply sublist_NoDup; [exact Hn|]. apply sublist_map, sublist_filter. Qed.

Lemma seqs_perm l l' : l ≡ₚ l' -> NoDup (map seq_of l) -> NoDup (map seq_of l').
Proof. intros Hp. change (NoDup (seq_of <$> l) -> NoDup (seq_of <$> l')). by rewrite Hp. Qed.

Lemma stream_seqs s c : sequenced s -> NoDup (map seq_of (stream s c)).
Proof.
  intros Hs. eapply seqs_perm; [symmetry; apply stream_perm|]. by apply seqs_filter, items_seqs.
Qed.

Lemma stream_ops s c :
  sequenced s ->
  List.filter is_op (stream s c) =
  map Op (sort_by (fun a b => ro_seq a <=? ro_seq b) (List.filter (fun r => c <? ro_seq r) (ops_seen s))).
Proof.
  intros Hs. apply by_seq_unique; [apply StronglySorted_filter, sort_items_sorted|by apply sort_rows_sorted|
    by apply seqs_filter, stream_seqs|].
  rewrite (Lfilter_perm is_op _ _ (stream_perm s c)), sort_by_perm. unfold items.
  rewrite !List.filter_app, (map_filter Op (fun r => c <? ro_seq r)), (map_filter Stone (fun r => c <? ts_seq r)) by done.
  rewrite (filter_all is_op (map Op _)), (filter_none is_op (map Stone _)), app_nil_r; [done| |];
    by intros x (r & -> & _)%list_elem_of_fmap.
Qed.

Lemma stream_stones s c :
  sequenced s ->
  List.filter is_stone (stream s c) =
  map Stone (sort_by (fun a b => ts_seq a <=? ts_seq b) (List.filter (fun t => c <? ts_seq t) (stones_seen s))).
Proof.
  intros Hs. apply by_seq_unique; [apply StronglySorted_filter, sort_items_sorted|by apply sort_rows_sorted|
    by apply seqs_filter, stream_seqs|].
  rewrite (Lfilter_perm is_stone _ _ (stream_perm s c)), sort_by_perm. unfold items.
  rewrite !List.filter_app, (map_filter Op (fun r => c <? ro_seq r)), (map_filter Stone (fun r => c <? ts_seq r)) by done.
  rewrite (filter_none is_stone (map Op _)), (filter_all is_stone (map Stone _)); [done| |];
    by intros x (r & -> & _)%list_elem_of_fmap.
Qed.

Lemma split_kinds l : List.filter is_op l ++ List.filter is_stone l ≡ₚ l.
Proof.
  induction l as [|x l IH]; [done|]. unfold is_stone. cbn [List.filter]. destruct (is_op x); cbn [negb app].
  - by constructor.
  - rewrite <- Permutation_middle. by constructor.
Qed.

(** The rows a page merges. *)
Definition fetched (s : server) (c : Z) (n : nat) : list item :=
  take n (List.filter is_op (stream s c)) ++ take n (List.filter is_stone (stream s c)).

Lemma fetched_sub s c n : fetched s c n ⊆+ stream s c.
Proof.
  rewrite <- (split_kinds (stream s c)) at 1. apply submseteq_app; apply sublist_submseteq, sublist_take.
Qed.

Lemma merged_fetched s c n : sequenced s -> merged s c (S n) = sort_by item_before (fetched s c (S (S n))).
Proof.
  intros Hs. unfold merged, fetched, fetch. rewrite stream_ops, stream_stones by done. rewrite <- !firstn_map.
  unfold ops_seen, stones_seen. by rewrite !filter_filter_and.
Qed.

(** A page is cut from a filter of the stream that keeps its beginning. *)
Lemma merged_filter s c n :
  sequenced s -> exists p, merged s c (S n) = List.filter p (stream s c) /\ forall x, x ∈ take (S (S n)) (stream s c) -> p x = true.
Proof.
  intros Hs. pose proof (stream_seqs s c Hs) as Hn. pose proof (fetched_sub s c (S (S n))) as Hsub.
  set (T := fetched s c (S (S n))) in *.
  exists (fun x => bool_decide (seq_of x ∈ map seq_of T)). rewrite merged_fetched by done. fold T. split.
  - assert (NoDup (map seq_of T)) as HT.
    { apply submseteq_Permutation in Hsub as [k Hk]. eapply seqs_perm in Hn; [|exact Hk].
      rewrite map_app in Hn. by apply NoDup_app in Hn as [? _]. }
    apply by_seq_unique; [apply sort_items_sorted|apply StronglySorted_filter, sort_items_sorted| |].
    + eapply seqs_perm; [symmetry; apply sort_by_perm|done].
    + rewrite sort_by_perm. apply NoDup_Permutation; [by eapply NoDup_fmap_1|eapply NoDup_fmap_1; by apply seqs_filter|].
      intros x. rewrite elem_of_Lfilter, bool_decide_eq_true. split.
      * intros Hx. split; [by eapply elem_of_submseteq|by apply list_elem_of_fmap_2].
      * intros [Hx (y & E & Hy)%list_elem_of_fmap]. rewrite (seq_inj (stream s c) x y); try done. by eapply elem_of_submseteq.
  - intros x Hx. rewrite bool_decide_eq_true. apply list_elem_of_fmap_2, elem_of_app.
    destruct (is_op x) eqn:E; [left|right]; apply take_filter_in; try done. unfold is_stone. by rewrite E.
Qed.

Lemma take_filter_all {A} (p : A -> bool) k l :
  (forall x, x ∈ take k l -> p x = true) -> take k (List.filter p l) = take k l.
Proof.
  revert l. induction k as [|k IH]; intros [|x l] Hp; try done. cbn [List.filter]. rewrite Hp by left.
  cbn [take]. f_equal. apply IH. intros y Hy. apply Hp. by right.
Qed.

Lemma pull_batch_stream s c n : sequenced s -> pull_batch s c n = take n (stream s c).
Proof.
  intros Hs. destruct n as [|n]; [done|]. unfold pull_batch.
  destruct (merged_filter s c n Hs) as (p & -> & Hp). apply take_filter_all.
  intros x (i & Hi & Hlt)%elem_of_take. apply Hp, elem_of_take. exists i. split; [done|lia].
Qed.

Lemma has_more_stream s c n : sequenced s -> (0 < n)%nat -> has_more s c n = (n <? length (stream s c))%nat.
Proof.
  intros Hs Hn. destruct n as [|n]; [lia|]. unfold has_more. rewrite pull_batch_stream by done.
  destruct (merged_filter s c n Hs) as (p & -> & Hp). apply take_filter_all in Hp.
  apply (f_equal length) in Hp. rewrite !length_take in Hp. rewrite length_take.
  destruct (Nat.ltb_spec 0 (S n)); [|lia]. cbn [andb].
  repeat match goal with |- context [(?a <? ?b)%nat] => destruct (Nat.ltb_spec a b) end; lia || done.
Qed.

Lemma stream_drop s c n x :
  sequenced s -> last (take n (stream s c)) = Some x -> stream s (seq_of x) = drop n (stream s c).
Proof.
  intros Hs [l0 E]%last_Some. pose proof (stream_seqs s c Hs) as Hn. pose proof (stream_perm s c) as Hperm.
  assert (StronglySorted seq_le (stream s c)) as Hsort by apply sort_items_sorted.
  rewrite <- (take_drop n (stream s c)), E in Hn, Hperm, Hsort. set (R := drop n (stream s c)) in *.
  assert (forall y, y ∈ l0 ++ [x] -> seq_of y <= seq_of x) as Hle.
  { intros y [Hy|Hy]%elem_of_app; [|by apply list_elem_of_singleton in Hy as ->].
    change (seq_le y x). rewrite <- app_assoc in Hsort. eapply (StronglySorted_app_1_elem_of _ l0); [exact Hsort|done|]. by left. }
  assert (forall y, y ∈ R -> seq_of x < seq_of y) as Hgt.
  { intros y Hy. assert (seq_le x y) as Hxy.
    { eapply (StronglySorted_app_1_elem_of _ (l0 ++ [x])); [exact Hsort|set_solver|done]. }
    enough (seq_of x <> seq_of y) by (unfold seq_le in *; lia). intros Exy.
    rewrite map_app in Hn. apply NoDup_app in Hn as (_ & Hd & _). apply (Hd (seq_of x)).
    - rewrite map_app. apply elem_of_app. right. by left.
    - rewrite Exy. by apply list_elem_of_fmap_2. }
  apply by_seq_unique.
  - apply sort_items_sorted.
  - by apply StronglySorted_app_1_r in Hsort.
  - by apply stream_seqs.
  - rewrite stream_perm. trans (List.filter (fun y => seq_of x <? seq_of y) ((l0 ++ [x]) ++ R)).
    + rewrite (Lfilter_perm _ _ _ Hperm), filter_filter_le; [done|].
      assert (x ∈ List.filter (fun y => c <? seq_of y) (items s)) as Hx by (rewrite <- Hperm; set_solver).
      apply elem_of_Lfilter in Hx as [_ Hx]. intros y; lia.
    + rewrite List.filter_app, filter_none, filter_all; [done| |]; intros y Hy.
      * specialize (Hgt y Hy). lia.
      * specialize (Hle y Hy). lia.
Qed.

(** ** Following the cursor *)

Definition rows_after (s : server) (c : Z) : list op_row :=
  sort_by (fun a b => ro_seq a <=? ro_seq b) (List.filter (fun r => c <? ro_seq r) (ops_seen s)).
Definition stones_after (s : server) (c : Z) : list tombstone :=
  sort_by (fun a b => ts_seq a <=? ts_seq b) (List.filter (fun t => c <? ts_seq t) (stones_seen s)).

Definition ops_in (l : list item) : list op_row :=
  omap (fun x => match x with Op r => Some r | Stone _ => None end) l.

Lemma ops_in_filter l : map Op (ops_in l) = List.filter is_op l.
Proof. induction l as [|[] l IH]; cbn; [done| |done]. f_equal. exact IH. Qed.

Lemma stones_filter l : map Stone (stones l) = List.filter is_stone l.
Proof. induction l as [|[] l IH]; cbn; [done|done|]. f_equal. exact IH. Qed.

#[global] Instance Op_inj : Inj (=) (=) Op.
Proof. by intros ? ? [= ->]. Qed.
#[global] Instance Stone_inj : Inj (=) (=) Stone.
Proof. by intros ? ? [= ->]. Qed.

Lemma stream_rows s c : sequenced s -> ops_in (stream s c) = rows_after s c /\ stones (stream s c) = stones_after s c.
Proof.
  intros Hs. split.
  - apply (inj (fmap (M:=list) Op)). change (map Op (ops_in (stream s c)) = map Op (rows_after s c)).
    by rewrite ops_in_filter, stream_ops.
  - apply (inj (fmap (M:=list) Stone)). change (map Stone (stones (stream s c)) = map Stone (stones_after s c)).
    by rewrite stones_filter, stream_stones.
Qed.

(** A submission seen is joined with its form's version. *)
Lemma form_info_seen s r : pinned s -> sees_op asker w s r = true -> form_info s (ro_submission r) <> None.
Proof.
  intros Hp. unfold sees_op, form_info. destruct (dget _ _) as [sb|] eqn:E; [|done]. intros Hs. rewrite Hs.
  apply Hp in E as (v & Hv & Hi & Hpr). destruct (List.find _ _) eqn:Ef; [done|].
  eapply List.find_none in Ef; [|by apply list_elem_of_In]. unfold sees_submission in Hs.
  apply andb_true_iff in Hs as [Hs _]. by rewrite Hi, Hpr, str_eqb_refl, Hs in Ef.
Qed.

Lemma wire_ops_relayed s batch :
  pinned s -> (forall x, x ∈ batch -> x ∈ items s) ->
  exists l, wire_ops s batch = Some l /\ Forall2 (relayed s) (ops_in batch) l.
Proof.
  intros Hp. induction batch as [|[r|t] batch IH]; intros Hin; cbn [wire_ops ops_in omap list_omap].
  - exists []. by split.
  - destruct IH as (l & -> & Hall); [intros; apply Hin; by right|].
    assert (Op r ∈ items s) as Hr by (apply Hin; by left). unfold items in Hr.
    apply elem_of_app in Hr as [(r' & [= <-] & Hr)%list_elem_of_fmap|(t & E & _)%list_elem_of_fmap]; [|done].
    apply elem_of_Lfilter in Hr as [_ Hr].
    destruct (form_info s (ro_submission r)) as [form|] eqn:Ef; [|by apply form_info_seen in Hr].
    eexists. split; [done|]. constructor; [by exists form|done].
  - apply IH. intros; apply Hin; by right.
Qed.

Lemma stream_in s c x : x ∈ stream s c -> x ∈ items s.
Proof. rewrite stream_perm, elem_of_Lfilter. tauto. Qed.

Lemma pull_page s c n :
  sequenced s -> pinned s -> (0 < n)%nat ->
  exists ops, pull s c n = Some (PullResponse ops (stones (take n (stream s c))) (next_cursor c (take n (stream s c)))
                                   (n <? length (stream s c))%nat) /\
    Forall2 (relayed s) (ops_in (take n (stream s c))) ops.
Proof.
  intros Hs Hp Hn. unfold pull. rewrite pull_batch_stream, has_more_stream by done.
  destruct (wire_ops_relayed s (take n (stream s c)) Hp) as (l & -> & Hall); [|by eauto].
  intros x (i & Hi & _)%elem_of_take. eapply stream_in, list_elem_of_lookup_2, Hi.
Qed.

Lemma drop_last {A} n (l : list A) : (n < length l)%nat -> last (drop n l) = last l.
Proof.
  intros Hn. rewrite <- (take_drop n l) at 2. rewrite last_app. destruct (last (drop n l)) eqn:E; [done|].
  apply last_None, (f_equal length) in E. rewrite length_drop in E. cbn in E. lia.
Qed.

Lemma drain_stream s c n fuel :
  sequenced s -> pinned s -> (0 < n)%nat -> (length (stream s c) < fuel)%nat ->
  exists ops, drain fuel s c n = Some (ops, stones (stream s c), next_cursor c (stream s c)) /\
    Forall2 (relayed s) (ops_in (stream s c)) ops.
Proof.
  intros Hs Hp Hn. revert c. induction fuel as [|fuel IH]; intros c Hf; [lia|]. cbn [drain].
  destruct (pull_page s c n Hs Hp Hn) as (ops & -> & Hall). cbn [pr_has_more pr_ops pr_tombstones pr_next_cursor].
  destruct (Nat.ltb_spec n (length (stream s c))) as [Hlt|Hge]; [|rewrite take_ge in * by lia; by eauto].
  destruct (last (take n (stream s c))) as [x|] eqn:El.
  2: { apply last_None in El. apply (f_equal length) in El. rewrite length_take in El. cbn in El. lia. }
  assert (next_cursor c (take n (stream s c)) = seq_of x) as -> by (unfold next_cursor; by rewrite El).
  pose proof (stream_drop s c n x Hs El) as Ed. destruct (IH (seq_of x)) as (ops' & -> & Hall').
  { rewrite Ed, length_drop. lia. }
  exists (ops ++ ops'). rewrite Ed in *. split.
  - do 2 f_equal.
    + f_equal. unfold stones. rewrite <- omap_app, take_drop. done.
    + unfold next_cursor. rewrite drop_last by lia. destruct (last (stream s c)) eqn:E; [done|].
      apply last_None in E. rewrite E in Hlt. cbn in Hlt. lia.
  - rewrite <- (take_drop n (stream s c)). unfold ops_in. rewrite omap_app. by apply Forall2_app.
Qed.

End Page.
