(* ===== verification/Cells.v ===== *)
(** * One cell of an export: export/cells.py

    How a value is written, how it is read back, and what a value becomes
    once it has been through a table.  Integers too long for CPython to turn
    into text are outside the model. *)

From S2P Require Import Prelude PyStr PyNum Value PyJson TextFormats Expr Expression Surface Printer.

(** What an unreadable value exports as. *)
Definition ENCRYPTED : pystr := "ENCRYPTED".

(** A rendered cell; [CEmpty] is Python's [None]. *)
Inductive cell :=
| CEmpty
| CText (s : pystr)
| CInt (z : Z)
| CFloat (f : pyfloat).

#[export] Instance pyfloat_eq_dec : EqDecision pyfloat.
Proof. solve_decision. Defined.
#[export] Instance cell_eq_dec : EqDecision cell.
Proof. solve_decision. Defined.

Definition media_components : list pystr := [lit "filename"; lit "id"; lit "hash"; lit "size"].

Definition COMPONENTS : odict (list pystr) :=
  [ (lit "geopoint", [lit "lat"; lit "lon"; lit "alt"; lit "accuracy"]);
    (lit "image", media_components);
    (lit "audio", media_components);
    (lit "video", media_components);
    (lit "file", media_components);
    (lit "signature", media_components);
    (lit "drawing", media_components) ].

Definition CHOICE_TYPES : list pystr := [lit "select_one"; lit "select_multiple"].
Definition MULTIPLE_SEPARATOR : pystr := " ".
Definition LABEL_SEPARATOR : pystr := " | ".
Definition NUMERIC_COMPONENTS : list pystr := [lit "lat"; lit "lon"; lit "alt"; lit "accuracy"; lit "size"].

(** [float(text)] *)
Definition float_of_text (s : pystr) : res pyfloat := of_option ValueError (parse_float (strip s)).

(** [float(v)] *)
Definition float_of_value (v : value) : res pyfloat :=
  match v with
  | VBool b => Ok (float_of_Z (if b then 1 else 0))
  | VInt z => float_of_int z
  | VFloat f => Ok f
  | VStr s => float_of_text s
  | VNone | VList _ | VDict _ => Raise TypeError
  end.

(** [float(cell)] *)
Definition float_of_cell (c : cell) : res pyfloat :=
  match c with
  | CEmpty => Raise TypeError
  | CText s => float_of_text s
  | CInt z => float_of_int z
  | CFloat f => Ok f
  end.

(** [str(cell)] *)
Definition cell_str (c : cell) : pystr :=
  match c with
  | CEmpty => "None"
  | CText s => s
  | CInt z => str_Z z
  | CFloat f => float_repr f
  end.

(** [_finite] *)
Definition finite_cell (f : pyfloat) : cell := if is_nan f || is_inf f then CEmpty else CFloat f.

(** [text or None] *)
Definition text_cell (s : pystr) : cell := match s with [] => CEmpty | _ => CText s end.

(** The types read as JSON text. *)
Definition is_trace (data_type : pystr) : bool := str_eqb data_type "geotrace" || str_eqb data_type "geoshape".

Section Cells.
Context {env : PyEnv} {uni : UnicodeDB}.

(** [_component] *)
Definition component_cell (v : value) (component : pystr) : res cell :=
  match v with
  | VDict d =>
      match vget d component with
      | VNone => Ok CEmpty
      | found =>
          if str_eqb component "size" then CInt <$> py_int found
          else if bool_decide (component ∈ NUMERIC_COMPONENTS) then finite_cell <$> float_of_value found
          else Ok (text_cell (py_str found))
      end
  | _ => Ok CEmpty
  end.

Definition render_whole (v : value) (data_type : pystr) : res cell :=
  if dhas COMPONENTS data_type then Ok CEmpty
  else if str_eqb data_type "boolean" then Ok (CInt (if truthy v then 1 else 0))
  else if str_eqb data_type "integer" then CInt <$> py_int v
  else if str_eqb data_type "decimal" then finite_cell <$> float_of_value v
  else if str_eqb data_type "select_multiple" then
    Ok (match v with
        | VList ((_ :: _) as items) => CText (join MULTIPLE_SEPARATOR (map py_str items))
        | _ => CEmpty
        end)
  else if is_trace data_type then Ok (if truthy v then CText (dumps_ascii v) else CEmpty)
  else Ok (text_cell (py_str v)).

Definition render (v : value) (data_type : pystr) (component : option pystr) : res cell :=
  match v, component with
  | VNone, _ => Ok CEmpty
  | _, Some part => component_cell v part
  | _, None => render_whole v data_type
  end.

(** A numeric component: [float(cell)], an [int] of it for a size. *)
Definition parse_number (c : cell) (component : pystr) : res value :=
  f ← float_of_cell c;
  if str_eqb component "size" then VInt <$> float_trunc f else Ok (VFloat f).

Definition parse_boolean (c : cell) : res value :=
  match float_of_cell c with
  | Ok f => Ok (VBool (negb (fzero f)))
  | Raise TypeError | Raise ValueError => Ok (VBool (negb (str_eqb (str_lower (strip (cell_str c))) "false")))
  | Raise e => Raise e
  end.

Definition parse_whole (c : cell) (data_type : pystr) : res value :=
  if str_eqb data_type "boolean" then parse_boolean c
  else if str_eqb data_type "integer" then f ← float_of_cell c; VInt <$> float_trunc f
  else if str_eqb data_type "decimal" then VFloat <$> float_of_cell c
  else if str_eqb data_type "select_multiple" then
    Ok (match List.filter (fun item => negb (bool_decide (item = []))) (split_char 32 (cell_str c)) with
        | [] => VNone
        | items => VList (map VStr items)
        end)
  else if is_trace data_type then
    parsed ← of_option ValueError (loads (cell_str c));
    Ok (if truthy parsed then parsed else VNone)
  else Ok (VStr (cell_str c)).

Definition blank (c : cell) : bool := bool_decide (c = CEmpty \/ c = CText []).

Definition parse (c : cell) (data_type : pystr) (component : option pystr) : res value :=
  if blank c then Ok VNone
  else if bool_decide (c = CText ENCRYPTED) then Ok (VStr ENCRYPTED)
  else match component with
       | Some part =>
           if bool_decide (part ∈ NUMERIC_COMPONENTS) then parse_number c part else Ok (VStr (cell_str c))
       | None => parse_whole c data_type
       end.

(** What a value becomes once it has been through a table. *)
Definition canonical_value (v : value) (data_type : pystr) : res value :=
  match v, dget COMPONENTS data_type with
  | VNone, _ => Ok VNone
  | VDict _, Some parts =>
      VDict <$> mapR (fun part => c ← component_cell v part; p ← parse c data_type (Some part); Ok (part, p)) parts
  | _, Some _ => Ok VNone
  | _, None => c ← render v data_type None; parse c data_type None
  end.

End Cells.
