(* ===== verification/ExportPlan.v ===== *)
(** * The shape of an export: export/plan.py and export/shape.py

    Which columns an export of several versions of a form has, in which
    order, under which names, and which versions define each; then the tables
    of records: the long shape (a parent table, and a table per repeat keyed
    by the stable instance id) and the wide one (repeats flattened by
    position). *)

From S2P Require Import Prelude PyStr Value Expr Expression Datasets Compile Surface Printer Server PublishGate Cells.
From S2P Require Import PyNum Runtime Projection.

(** [ColumnSource] *)
Inductive source := Meta | Field | Label | Count.

#[export] Instance source_eq_dec : EqDecision source.
Proof. solve_decision. Defined.

Definition META_COLUMNS : list (pystr * pystr) :=
  [ (lit "submission_id", lit "Submission id"); (lit "form_id", lit "Form");
    (lit "form_version", lit "Form version"); (lit "submission_status", lit "Status");
    (lit "device_id", lit "Origin device"); (lit "created_by", lit "Created by");
    (lit "started_at", lit "Started at"); (lit "finalized_at", lit "Finalized at");
    (lit "received_at", lit "Received at") ].

Definition REPEAT_KEY_COLUMNS : list (pystr * pystr) :=
  [ (lit "submission_id", lit "Submission id"); (lit "instance_id", lit "Instance id");
    (lit "instance_index", lit "Position in the list") ].

Definition LABEL_SUFFIX : pystr := "_label".
Definition COUNT_SUFFIX : pystr := "_count".

Record column := Column {
  cl_name : pystr;
  cl_source : source;
  cl_field : option pystr;                 (* [field_id] *)
  cl_type : option pystr;
  cl_component : option pystr;
  cl_label : option pystr;
  cl_repeat : option pystr;
  cl_versions : list Z;
  cl_position : option nat
}.

Definition with_name (name : pystr) (c : column) : column :=
  Column name (cl_source c) (cl_field c) (cl_type c) (cl_component c) (cl_label c) (cl_repeat c) (cl_versions c)
    (cl_position c).
Definition with_column_versions (versions : list Z) (c : column) : column :=
  Column (cl_name c) (cl_source c) (cl_field c) (cl_type c) (cl_component c) (cl_label c) (cl_repeat c) versions
    (cl_position c).
Definition at_position (position : nat) (c : column) : column :=
  Column (cl_name c) (cl_source c) (cl_field c) (cl_type c) (cl_component c) (cl_label c) (cl_repeat c) (cl_versions c)
    (Some position).

Record column_plan := ColumnPlan {
  pl_parent : list column;
  pl_repeats : odict (list column);
  pl_versions : list Z;
  pl_dataset_fields : odict pystr
}.

(** ** Names: [_Names], a list of those taken *)

(** [wanted], [wanted_2], [wanted_3], ... *)
Definition serial_name (wanted : pystr) (serial : nat) : pystr :=
  match serial with
  | O | S O => wanted
  | _ => wanted ++ lit "_" ++ str_nat serial
  end.

(** [while taken: serial += 1] *)
Fixpoint first_free (taken : nat -> bool) (fuel serial : nat) : nat :=
  match fuel with
  | O => serial
  | S fuel => if taken serial then first_free taken fuel (S serial) else serial
  end.

(** One more step than there are names taken. *)
Definition free_name (taken : list pystr) (wanted : pystr) : pystr :=
  serial_name wanted (first_free (fun n => bool_decide (serial_name wanted n ∈ taken)) (S (length taken)) 1).

Definition claim (taken : list pystr) (wanted : pystr) (own : bool) : pystr * list pystr :=
  if own then (wanted, wanted :: taken)
  else let name := free_name taken wanted in (name, name :: taken).

(** One claim after another. *)
Fixpoint claim_all (taken : list pystr) (wanted : list pystr) : list pystr * list pystr :=
  match wanted with
  | [] => ([], taken)
  | w :: ws =>
      let '(name, taken) := claim taken w false in
      let '(names, taken) := claim_all taken ws in
      (name :: names, taken)
  end.

(** ** The columns of one question *)

Definition columns_for (field_id data_type : pystr) (label repeat : option pystr) (version : Z) : list column :=
  let col name src component :=
    Column name src (Some field_id) (Some data_type) component label repeat [version] None in
  if str_eqb data_type "note" then []
  else match dget COMPONENTS data_type with
       | Some parts => map (fun part => col (field_id ++ lit "_" ++ part) Field (Some part)) parts
       | None =>
           col field_id Field None ::
           (if bool_decide (data_type ∈ CHOICE_TYPES) then [col (field_id ++ LABEL_SUFFIX) Label None] else [])
       end.

(** ** Building *)

(** What tells one column from another: [(repeat, field_id or name,
    component, source)]. *)
Definition column_key : Type := option pystr * pystr * option pystr * source.

Definition key_in (repeat : option pystr) (c : column) : column_key :=
  (repeat, match cl_field c with Some ((_ :: _) as i) => i | _ => cl_name c end, cl_component c, cl_source c).

Definition key_of (c : column) : column_key := key_in (cl_repeat c) c.

Record building := Building {
  bd_parent : list column;
  bd_repeats : odict (list column);
  bd_parent_names : list pystr;
  bd_repeat_names : odict (list pystr);
  bd_versions : list (column_key * list Z);   (* [seen] has the same keys *)
  bd_dataset_fields : odict pystr;
  bd_repeat_versions : odict (list Z)
}.

Fixpoint versions_at (k : column_key) (l : list (column_key * list Z)) : option (list Z) :=
  match l with
  | [] => None
  | (k', v) :: r => if decide (k = k') then Some v else versions_at k r
  end.

Fixpoint add_versions (k : column_key) (more : list Z) (l : list (column_key * list Z)) : list (column_key * list Z) :=
  match l with
  | [] => []
  | (k', v) :: r => if decide (k = k') then (k', v ++ more) :: r else (k', v) :: add_versions k more r
  end.

Definition emit (c : column) (repeat : option pystr) (b : building) : building :=
  let key := key_in repeat c in
  match versions_at key (bd_versions b) with
  | Some _ =>
      Building (bd_parent b) (bd_repeats b) (bd_parent_names b) (bd_repeat_names b)
        (add_versions key (cl_versions c) (bd_versions b)) (bd_dataset_fields b) (bd_repeat_versions b)
  | None =>
      Building
        (match repeat with None => bd_parent b ++ [c] | Some _ => bd_parent b end)
        (match repeat with
         | Some r => dset (bd_repeats b) r (default [] (dget (bd_repeats b) r) ++ [c])
         | None => bd_repeats b
         end)
        (bd_parent_names b) (bd_repeat_names b) (bd_versions b ++ [(key, cl_versions c)])
        (bd_dataset_fields b) (bd_repeat_versions b)
  end.

(** [names.claim] in the table of [repeat]. *)
Definition claim_in (repeat : option pystr) (wanted : pystr) (own : bool) (b : building) : pystr * building :=
  match repeat with
  | None =>
      let '(name, taken) := claim (bd_parent_names b) wanted own in
      (name, Building (bd_parent b) (bd_repeats b) taken (bd_repeat_names b) (bd_versions b) (bd_dataset_fields b)
               (bd_repeat_versions b))
  | Some r =>
      let '(name, taken) := claim (default [] (dget (bd_repeat_names b) r)) wanted own in
      (name, Building (bd_parent b) (bd_repeats b) (bd_parent_names b) (dset (bd_repeat_names b) r taken)
               (bd_versions b) (bd_dataset_fields b) (bd_repeat_versions b))
  end.

Definition is_own (c : column) : bool :=
  bool_decide (cl_source c = Field /\ cl_component c = None).

Definition place (repeat : option pystr) (b : building) (c : column) : building :=
  let '(name, b) := claim_in repeat (cl_name c) (is_own c) b in
  emit (with_name name c) repeat b.

(** The tables of a repeat, when a field of it is met. *)
Definition enter_repeat (reserved : list pystr) (repeat : option pystr) (version : Z) (b : building) : building :=
  match repeat with
  | None => b
  | Some r =>
      let known := dhas (bd_repeats b) r in
      Building (bd_parent b) (if known then bd_repeats b else dset (bd_repeats b) r [])
        (bd_parent_names b) (if known then bd_repeat_names b else dset (bd_repeat_names b) r reserved)
        (bd_versions b) (bd_dataset_fields b)
        (dset (bd_repeat_versions b) r (default [] (dget (bd_repeat_versions b) r) ++ [version]))
  end.

Definition note_dataset (field_id : pystr) (query : option choice_query) (b : building) : building :=
  match query with
  | None => b
  | Some q =>
      Building (bd_parent b) (bd_repeats b) (bd_parent_names b) (bd_repeat_names b) (bd_versions b)
        (dset (bd_dataset_fields b) field_id (cq_dataset q)) (bd_repeat_versions b)
  end.

(** [sorted(set(l))] of version numbers *)
Definition sorted_versions (l : list Z) : list Z := sort_by Z.leb (remove_dups l).

Definition versioned (b : building) (c : column) : column :=
  match cl_source c with
  | Meta => c
  | _ => with_column_versions (sorted_versions (default [] (versions_at (key_of c) (bd_versions b)))) c
  end.

Definition meta_column (repeat : option pystr) (name : pystr) (named : pystr * pystr) : column :=
  Column name Meta (Some named.1) None None (Some named.2) repeat [] None.

Definition count_column (name repeat_id : pystr) (versions : list Z) : column :=
  Column name Count (Some repeat_id) (Some (lit "integer")) None (Some (lit "Number of " ++ repeat_id)) None
    (sorted_versions versions) None.

Definition emit_count (b : building) (repeat_id : pystr) : building :=
  let '(name, b) := claim_in None (repeat_id ++ COUNT_SUFFIX) false b in
  emit (count_column name repeat_id (default [] (dget (bd_repeat_versions b) repeat_id))) None b.

Section Plan.
Context {env : PyEnv} {uni : UnicodeDB}.

(** [str(form.ir.get("defaultLanguage") or "")] *)
Definition default_language (f : cform) : pystr :=
  let found := vget (f_ir f) "defaultLanguage" in if truthy found then py_str found else [].

(** [language or default_language] *)
Definition wanted_language (language : option pystr) (f : cform) : pystr :=
  match language with Some ((_ :: _) as l) => l | _ => default_language f end.

Definition not_none (v : value) : option value := match v with VNone => None | _ => Some v end.

Definition label_of (node : odict value) (f : cform) (language : option pystr) : option pystr :=
  match vget node "label" with
  | VDict labels =>
      let found :=
        match not_none (vget labels (wanted_language language f)) with
        | Some l => Some l
        | None =>
            match not_none (vget labels (default_language f)) with
            | Some l => Some l
            | None => head (dvalues labels) ≫= not_none
            end
        end in
      py_str <$> found
  | _ => None
  end.

Definition plan_field (language : option pystr) (reserved : list pystr) (f : cform) (b : building) (field_id : pystr)
    : building :=
  match dget (f_fields f) field_id with
  | None => b
  | Some cf =>
      let repeat := cf_repeat cf in
      let version := form_version_number f in
      let b := note_dataset field_id (cf_choice_query cf) (enter_repeat reserved repeat version b) in
      fold_left (place repeat) (columns_for field_id (cf_data_type cf) (label_of (cf_node cf) f language) repeat version) b
  end.

Definition plan_form (language : option pystr) (reserved : list pystr) (b : building) (f : cform) : building :=
  fold_left (plan_field language reserved f) (f_order f) b.

(** The key columns of a repeat's table. *)
Definition key_columns (b : building) (repeat_id : pystr) : list column :=
  zip_with (fun named name => meta_column (Some repeat_id) name named) REPEAT_KEY_COLUMNS
    (claim_all (default [] (dget (bd_repeat_names b) repeat_id)) (map fst REPEAT_KEY_COLUMNS)).1.

Definition by_version (forms : list cform) : list cform :=
  sort_by (fun f g => form_version_number f <=? form_version_number g) forms.

Definition build_plan (forms : list cform) (language : option pystr) : column_plan :=
  let ordered := by_version forms in
  let reserved := concat (map (fun f => dkeys (f_fields f)) ordered) in
  let b := fold_left (plan_form language reserved) ordered (Building [] [] reserved [] [] [] []) in
  let b := fold_left emit_count (dkeys (bd_repeats b)) b in
  let meta := zip_with (fun named name => meta_column None name named) META_COLUMNS
                (claim_all (bd_parent_names b) (map fst META_COLUMNS)).1 in
  ColumnPlan (meta ++ map (versioned b) (bd_parent b))
    (map (fun rc => (rc.1, key_columns b rc.1 ++ map (versioned b) rc.2)) (bd_repeats b))
    (map form_version_number ordered) (bd_dataset_fields b).

End Plan.

(** [SubmissionRecord]; the moments are their ISO text. *)
Record submission_record := SubmissionRecord {
  sr_id : pystr;
  sr_form_key : pystr;
  sr_form_version : Z;
  sr_status : pystr;
  sr_device : option pystr;
  sr_created_by : option pystr;
  sr_started_at : option pystr;
  sr_finalized_at : option pystr;
  sr_received_at : option pystr;
  sr_projection : export_projection;
  sr_labels : odict (odict pystr)          (* field id -> choice code -> name *)
}.

Inductive table_kind := Submissions | RepeatOf (repeat_id : pystr).

Record table := Table {
  tb_name : pystr;
  tb_kind : table_kind;
  tb_columns : list column;
  tb_rows : list (list cell)
}.

Definition opt_cell (o : option pystr) : cell := match o with Some s => CText s | None => CEmpty end.

(** [_META] *)
Definition meta_cell (field_id : pystr) (r : submission_record) : cell :=
  if str_eqb field_id "submission_id" then CText (sr_id r)
  else if str_eqb field_id "form_id" then CText (sr_form_key r)
  else if str_eqb field_id "form_version" then CInt (sr_form_version r)
  else if str_eqb field_id "submission_status" then CText (sr_status r)
  else if str_eqb field_id "device_id" then opt_cell (sr_device r)
  else if str_eqb field_id "created_by" then opt_cell (sr_created_by r)
  else if str_eqb field_id "started_at" then opt_cell (sr_started_at r)
  else if str_eqb field_id "finalized_at" then opt_cell (sr_finalized_at r)
  else if str_eqb field_id "received_at" then opt_cell (sr_received_at r)
  else CEmpty.

(** [column.field_id or ""] *)
Definition field_of_column (c : column) : pystr := default [] (cl_field c).

Definition instances_in (r : submission_record) (repeat_id : pystr) : list repeat_row :=
  default [] (dget (ep_repeats (sr_projection r)) repeat_id).

(** [len(...)] of the instances, where the projection has the repeat. *)
Definition meta_or_count (c : column) (r : submission_record) : cell :=
  match cl_source c with
  | Meta => meta_cell (field_of_column c) r
  | _ => match dget (ep_repeats (sr_projection r)) (field_of_column c) with
         | Some rows => CInt (Z.of_nat (length rows))
         | None => CEmpty
         end
  end.

Section Shape.
Context {env : PyEnv} {uni : UnicodeDB}.

(** [lookup.get(code, code)] *)
Definition name_of_code (lookup : odict pystr) (code : value) : pystr :=
  default (py_str code) (dget lookup (py_str code)).

Definition label_cell (v : value) (data_type : pystr) (lookup : odict pystr) : cell :=
  match v with
  | VNone => CEmpty
  | _ =>
      if str_eqb data_type "select_multiple" then
        match v with
        | VList ((_ :: _) as codes) => CText (join LABEL_SEPARATOR (map (name_of_code lookup) codes))
        | _ => CEmpty
        end
      else CText (name_of_code lookup v)
  end.

(** The value path of a column under a prefix ([""] at the top). *)
Definition path_under (prefix field_id : pystr) : pystr :=
  match prefix with [] => field_id | _ => prefix ++ lit "." ++ field_id end.

(** [_cell] *)
Definition value_cell (c : column) (prefix : pystr) (cells : odict value) (r : submission_record) : res cell :=
  let field_id := field_of_column c in
  if bool_decide (path_under prefix field_id ∈ ep_unreadable (sr_projection r)) then Ok (CText ENCRYPTED)
  else match dget cells field_id with
       | None => Ok CEmpty
       | Some v =>
           match cl_source c with
           | Label => Ok (label_cell v (default [] (cl_type c)) (default [] (dget (sr_labels r) field_id)))
           | _ => render v (match cl_type c with Some ((_ :: _) as t) => t | _ => lit "text" end) (cl_component c)
           end
       end.

Definition is_value_column (c : column) : bool :=
  match cl_source c with Field | Label => true | Meta | Count => false end.

Definition parent_row (columns : list column) (r : submission_record) : res (list cell) :=
  mapR (fun c => if is_value_column c then value_cell c [] (ep_top (sr_projection r)) r else Ok (meta_or_count c r))
    columns.

(** [f"{repeat_id}[{instance_id}]"] *)
Definition instance_prefix (repeat_id instance_id : pystr) : pystr := repeat_id ++ lit "[" ++ instance_id ++ lit "]".

Definition key_cell (field_id : pystr) (r : submission_record) (row : repeat_row) : cell :=
  if str_eqb field_id "submission_id" then CText (sr_id r)
  else if str_eqb field_id "instance_id" then CText (rr_instance row)
  else if str_eqb field_id "instance_index" then CInt (Z.of_nat (rr_index row))
  else CEmpty.

Definition repeat_table_row (columns : list column) (repeat_id : pystr) (r : submission_record) (row : repeat_row)
    : res (list cell) :=
  mapR (fun c => match cl_source c with
                 | Meta => Ok (key_cell (field_of_column c) r row)
                 | _ => value_cell c (instance_prefix repeat_id (rr_instance row)) (rr_cells row) r
                 end) columns.

Definition repeat_table_rows (columns : list column) (repeat_id : pystr) (records : list submission_record)
    : res (list (list cell)) :=
  rows ← mapR (fun r => mapR (repeat_table_row columns repeat_id r) (instances_in r repeat_id)) records;
  Ok (concat rows).

(** ** The wide shape *)

(** The most instances any record has. *)
Definition widest (records : list submission_record) (repeat_id : pystr) : nat :=
  foldr Nat.max 0%nat (map (fun r => length (instances_in r repeat_id)) records).

Definition is_meta (c : column) : bool := bool_decide (cl_source c = Meta).

(** [f"{repeat_id}_{position}_{column.name}"] *)
Definition wide_name (repeat_id : pystr) (position : nat) (name : pystr) : pystr :=
  repeat_id ++ lit "_" ++ str_nat position ++ lit "_" ++ name.

(** One flattened column after another: the repeat, the index of the instance,
    the column. *)
Definition flatten_step (repeat_id : pystr) (position : nat) (acc : list (pystr * nat * column) * list pystr) (c : column)
    : list (pystr * nat * column) * list pystr :=
  if is_meta c then acc
  else let '(name, taken) := claim acc.2 (wide_name repeat_id position (cl_name c)) false in
       (acc.1 ++ [(repeat_id, (position - 1)%nat, at_position position (with_name name c))], taken).

Definition flatten (records : list submission_record) (plan : column_plan) : list (pystr * nat * column) :=
  (fold_left (fun acc rc =>
     fold_left (fun acc position => fold_left (flatten_step rc.1 position) rc.2 acc)
       (seq 1 (widest records rc.1)) acc)
     (pl_repeats plan) ([], map cl_name (pl_parent plan))).1.

Definition wide_cell (r : submission_record) (slot : pystr * nat * column) : res cell :=
  let '(repeat_id, index, c) := slot in
  match instances_in r repeat_id !! index with
  | None => Ok CEmpty
  | Some row => value_cell c (instance_prefix repeat_id (rr_instance row)) (rr_cells row) r
  end.

Definition wide_row (plan : column_plan) (flattened : list (pystr * nat * column)) (r : submission_record)
    : res (list cell) :=
  parent ← parent_row (pl_parent plan) r;
  slots ← mapR (wide_cell r) flattened;
  Ok (parent ++ slots).

Definition wide_table (plan : column_plan) (records : list submission_record) (name : pystr) : res table :=
  let flattened := flatten records plan in
  rows ← mapR (wide_row plan flattened) records;
  Ok (Table name Submissions (pl_parent plan ++ map snd flattened) rows).

(** ** The tables of an export *)

Inductive shape := Long | Wide.

Definition parent_table (plan : column_plan) (records : list submission_record) (name : pystr) : res table :=
  rows ← mapR (parent_row (pl_parent plan)) records;
  Ok (Table name Submissions (pl_parent plan) rows).

Definition repeat_table (records : list submission_record) (base_name : pystr) (rc : pystr * list column) : res table :=
  rows ← repeat_table_rows rc.2 rc.1 records;
  Ok (Table (base_name ++ lit "-" ++ rc.1) (RepeatOf rc.1) rc.2 rows).

Definition build_tables (plan : column_plan) (records : list submission_record) (sh : shape) (base_name : pystr)
    : res (list table) :=
  match sh with
  | Wide => t ← wide_table plan records base_name; Ok [t]
  | Long =>
      parent ← parent_table plan records base_name;
      repeats ← mapR (repeat_table records base_name) (pl_repeats plan);
      Ok (parent :: repeats)
  end.

End Shape.
