(* ===== verification/Statistical.v ===== *)
(** * Names and types in a .dta or .sav: export/statistical.py

    What is decided before a byte is written: a legal, unique name of at most
    32 characters for every column, its storage type, the conversion of its
    cells to that type, and the refusal of a value a format cannot hold.  The
    writing and reading of the files is the library's (pyreadstat) and is
    left out, as is the check of what the library made of the types. *)

From S2P Require Import Prelude PyStr PyNum PyDate Value Expr Expression Surface Cells ExportPlan.

(** [str.isalnum] and [str.isalpha] of one character. *)
Class CharClasses := { is_alnum : N -> bool; is_alpha : N -> bool }.

(** [Storage] *)
Inductive storage := Numeric | Text | Date.

#[export] Instance storage_eq_dec : EqDecision storage.
Proof. solve_decision. Defined.

Definition NAME_LIMIT : nat := 32.
Definition LABEL_LIMIT : nat := 80.

Inductive stat_format := Dta | Sav.

(** [MAX_STRING_BYTES]: the longest string of a format, [None] for none. *)
Definition MAX_STRING_BYTES (f : stat_format) : option N :=
  match f with Dta => None | Sav => Some 32767%N end.

Definition NUMERIC_TYPES : list pystr := [lit "integer"; lit "decimal"; lit "boolean"].
Definition NUMERIC_META : list pystr := [lit "form_version"; lit "instance_index"].

(** Why a column is text that the form alone would not make text. *)
Inductive storage_change := HoldsEncrypted | HoldsNoDate.

Record stat_column := StatColumn {
  st_name : pystr;
  st_source : pystr;
  st_storage : storage;
  st_declared : storage;
  st_changed : option storage_change;
  st_label : option pystr
}.

Inductive stat_error :=
| ValueTooLong (column : pystr) (found limit : N) (f : stat_format)
| TypeChanged (column : pystr)
| StatRaises (e : exn).

(** The type a column has by virtue of the form. *)
Definition declared_storage (c : column) : storage :=
  match cl_source c with
  | Label => Text
  | Count => Numeric
  | Meta =>
      let id := match cl_field c with Some ((_ :: _) as i) => i | _ => cl_name c end in
      if bool_decide (id ∈ NUMERIC_META) then Numeric else Text
  | Field =>
      match cl_component c with
      | Some part => if bool_decide (part ∈ NUMERIC_COMPONENTS) then Numeric else Text
      | None =>
          match cl_type c with
          | Some t => if bool_decide (t ∈ NUMERIC_TYPES) then Numeric else if str_eqb t "date" then Date else Text
          | None => Text
          end
      end
  end.

(** [_as_date] *)
Definition as_date (c : cell) : option date := fromisoformat (cell_str c).

Definition is_empty (c : cell) : bool := bool_decide (c = CEmpty).

(** [_forced_string] *)
Definition forced_string (declared : storage) (cells : list cell) : option storage_change :=
  match declared with
  | Text => None
  | _ =>
      if existsb (fun c => bool_decide (c = CText ENCRYPTED)) cells then Some HoldsEncrypted
      else match declared with
           | Date => if existsb (fun c => negb (is_empty c) && bool_decide (as_date c = None)) cells
                     then Some HoldsNoDate else None
           | _ => None
           end
  end.

(** [_variable_label] *)
Definition variable_label (c : column) : option pystr :=
  match cl_label c with
  | None => None
  | Some text =>
      let qualifier := match cl_component c with
                       | Some ((_ :: _) as part) => Some part
                       | _ => if bool_decide (cl_source c = Label) then Some (lit "label") else None
                       end in
      let label := match qualifier with Some q => text ++ lit " (" ++ q ++ lit ")" | None => text end in
      Some (if (length label <=? LABEL_LIMIT)%nat then label else take (LABEL_LIMIT - 1) label ++ [8230%N])
  end.

(** [[row[index] for row in rows]] *)
Definition column_cells (index : nat) (rows : list (list cell)) : list cell :=
  map (fun row => default CEmpty (row !! index)) rows.

Section Names.
Context {env : PyEnv} {chars : CharClasses}.

(** The name with what no format takes replaced. *)
Definition safe_name (wanted : pystr) : pystr :=
  let safe := map (fun c => if is_alnum c then c else 95%N) wanted in
  match safe with
  | c :: _ => if is_alpha c then safe else lit "v_" ++ safe
  | [] => lit "v_"
  end.

(** The candidates: cut to the limit, or cut to leave room for a serial. *)
Definition short_name (safe : pystr) (serial : nat) : pystr :=
  match serial with
  | O | S O => take NAME_LIMIT safe
  | _ => let suffix := lit "_" ++ str_nat serial in
         slice safe 0 (Some (Z.of_nat NAME_LIMIT - Z.of_nat (length suffix))) ++ suffix
  end.

Definition free_short_name (taken : list pystr) (safe : pystr) : pystr :=
  short_name safe (first_free (fun n => bool_decide (str_lower (short_name safe n) ∈ taken)) (S (length taken)) 1).

(** [_claim] *)
Definition claim_short (taken : list pystr) (wanted : pystr) : pystr * list pystr :=
  let name := free_short_name taken (safe_name wanted) in
  (name, str_lower name :: taken).

Definition plan_column (rows : list (list cell)) (index : nat) (name : pystr) (c : column) : stat_column :=
  let declared := declared_storage c in
  let reason := forced_string declared (column_cells index rows) in
  StatColumn name (cl_name c) (match reason with Some _ => Text | None => declared end) declared reason
    (variable_label c).

Fixpoint plan_from (rows : list (list cell)) (index : nat) (taken : list pystr) (columns : list column) : list stat_column :=
  match columns with
  | [] => []
  | c :: rest =>
      let '(name, taken) := claim_short taken (cl_name c) in
      plan_column rows index name c :: plan_from rows (S index) taken rest
  end.

Definition plan_columns (columns : list column) (rows : list (list cell)) : list stat_column :=
  plan_from rows 0 [] columns.
End Names.

(** ** Before anything is written *)

(** [len(text.encode())] *)
Definition utf8_size (s : pystr) : N :=
  fold_right (fun c n => (if c <? 128 then 1 else if c <? 2048 then 2 else if c <? 65536 then 3 else 4) + n)%N 0%N s.

Definition check_cell (planned : stat_column) (f : stat_format) (limit : N) (c : cell) : option stat_error :=
  match c with
  | CEmpty => None
  | _ => let found := utf8_size (cell_str c) in
         if (limit <? found)%N then Some (ValueTooLong (st_name planned) found limit f) else None
  end.

(** [check_string_lengths]: the first value too long, column by column. *)
Definition check_string_lengths (planned : list stat_column) (rows : list (list cell)) (f : stat_format)
    : option stat_error :=
  match MAX_STRING_BYTES f with
  | None => None
  | Some limit =>
      head (concat (imap (fun index p =>
        match st_storage p with
        | Text => omap (check_cell p f limit) (column_cells index rows)
        | _ => []
        end) planned))
  end.

(** One column as the type its plan chose: [_series]. *)
Inductive series :=
| Numbers (l : list (option pyfloat))
| Dates (l : list (option date))
| Strings (l : list pystr).

Definition number_in (name : pystr) (c : cell) : option pyfloat + stat_error :=
  match c with
  | CEmpty => inl None
  | _ => match float_of_cell c with
         | Ok f => inl (Some f)
         | Raise TypeError | Raise ValueError => inr (TypeChanged name)
         | Raise e => inr (StatRaises e)
         end
  end.

Definition date_in (name : pystr) (c : cell) : option date + stat_error :=
  match c with
  | CEmpty => inl None
  | _ => match as_date c with Some d => inl (Some d) | None => inr (TypeChanged name) end
  end.

Fixpoint all_in {A} (f : cell -> A + stat_error) (cells : list cell) : list A + stat_error :=
  match cells with
  | [] => inl []
  | c :: r =>
      match f c with
      | inl a => match all_in f r with inl l => inl (a :: l) | inr e => inr e end
      | inr e => inr e
      end
  end.

Definition series_of (p : stat_column) (cells : list cell) : series + stat_error :=
  match st_storage p with
  | Numeric => match all_in (number_in (st_name p)) cells with inl l => inl (Numbers l) | inr e => inr e end
  | Date => match all_in (date_in (st_name p)) cells with inl l => inl (Dates l) | inr e => inr e end
  | Text => inl (Strings (map (fun c => match c with CEmpty => [] | _ => cell_str c end) cells))
  end.
