(* ===== verification/ExportManifest.v ===== *)
(** * What an export says of itself, and reading it back: export/manifest.py,
    export/writers.py and export/readback.py

    Every column described: the field it came from, the versions that define
    it, whether it can carry the token and whose keys open it; the CSV files
    of a bundle; and the submissions that come back out of them with the
    manifest as the schema.  The views as JSON ([as_dict]) and the clock are
    left out, a note is its name, and the other formats are third-party
    libraries'. *)

From S2P Require Import Prelude PyStr PyNum Value Expr Expression Projection DatasetKeys Surface Cells ExportPlan.
From S2P Require Import Statistical Printer Server TextFormats.

Inductive unreadable := Encrypted | ComputedFromEncrypted.

Inductive note := EncryptedNote | WidePositionNote | InstanceKeyNote | DatetimeNote | StringLimitNote
  | ShortenedNameNote | StorageTypeNote.

Record column_manifest := ColumnManifest {
  cm_column : pystr;
  cm_source : source;
  cm_label : option pystr;
  cm_path : option pystr;
  cm_type : option pystr;
  cm_component : option pystr;
  cm_versions : list Z;
  cm_repeat : option pystr;
  cm_position : option nat;
  cm_stored_as : pystr;
  cm_storage : option storage;
  cm_declared : option storage;
  cm_changed : option storage_change;
  cm_unreadable : option unreadable;
  cm_openable_by : list pystr;
  cm_uncertain : bool
}.

Record table_manifest := TableManifest {
  tm_name : pystr;
  tm_kind : table_kind;
  tm_row_count : nat;
  tm_columns : list column_manifest
}.

Record manifest := Manifest {
  mf_form : pystr;
  mf_title : option pystr;
  mf_versions : list Z;
  mf_language : option pystr;
  mf_shape : shape;
  mf_count : nat;
  mf_tables : list table_manifest;
  mf_notes : list note;
  mf_unmapped : odict (list pystr)
}.

(** Field ids some record has unreadable, or uncertain, somewhere. *)
Definition unreadable_in (records : list submission_record) : list pystr :=
  concat (map (fun r => map field_of (ep_unreadable (sr_projection r))) records).
Definition uncertain_in (records : list submission_record) : list pystr :=
  concat (map (fun r => map field_of (ep_relevance_uncertain (sr_projection r))) records).

(** Path by path, the submissions it came from. *)
Definition unmapped_in (records : list submission_record) : odict (list pystr) :=
  fold_left (fun acc r =>
    fold_left (fun acc path => dset acc path (default [] (dget acc path) ++ [sr_id r]))
      (ep_unmapped (sr_projection r)) acc) records [].

(** The field a value column is of. *)
Definition value_field (c : column) : option pystr := if is_value_column c then cl_field c else None.

Definition describe (records : list submission_record) (ciphertext_fields : odict (list pystr)) (c : column)
    (stat : option stat_column) : column_manifest :=
  let field_id := value_field c in
  let hidden := match field_id with Some i => bool_decide (i ∈ unreadable_in records) | None => false end in
  ColumnManifest (cl_name c) (cl_source c) (cl_label c) field_id (cl_type c) (cl_component c) (cl_versions c)
    (cl_repeat c) (cl_position c)
    (match stat with Some s => st_name s | None => cl_name c end)
    (st_storage <$> stat) (st_declared <$> stat) (stat ≫= st_changed)
    (if hidden then Some (if dhas ciphertext_fields (default [] field_id) then Encrypted else ComputedFromEncrypted)
     else None)
    (default [] (dget ciphertext_fields (default [] field_id)))
    (match field_id with Some i => bool_decide (i ∈ uncertain_in records) | None => false end).

(** [_stat_for] *)
Definition stat_for (stored : option (odict (list stat_column))) (name : pystr) (index : nat) : option stat_column :=
  stored ← stored; planned ← dget stored name; planned !! index.

Definition describe_table (records : list submission_record) (ciphertext_fields : odict (list pystr))
    (stored : option (odict (list stat_column))) (t : table) : table_manifest :=
  TableManifest (tb_name t) (tb_kind t) (length (tb_rows t))
    (imap (fun index c => describe records ciphertext_fields c (stat_for stored (tb_name t) index)) (tb_columns t)).

Definition notes_of (sh : shape) (stored : option (odict (list stat_column))) (described : list table_manifest)
    : list note :=
  let every := concat (map tm_columns described) in
  [EncryptedNote; match sh with Wide => WidePositionNote | Long => InstanceKeyNote end] ++
  match stored with
  | None => []
  | Some _ =>
      [DatetimeNote; StringLimitNote] ++
      (if existsb (fun c => negb (str_eqb (cm_stored_as c) (cm_column c))) every then [ShortenedNameNote] else []) ++
      (if existsb (fun c => match cm_changed c with Some _ => true | None => false end) every
       then [StorageTypeNote] else [])
  end.

Definition build_manifest (plan : column_plan) (tables : list table) (records : list submission_record)
    (form_id : pystr) (form_title language : option pystr) (sh : shape) (ciphertext_fields : odict (list pystr))
    (stored : option (odict (list stat_column))) : manifest :=
  let described := map (describe_table records ciphertext_fields stored) tables in
  Manifest form_id form_title (pl_versions plan) language sh (length records) described
    (notes_of sh stored described)
    (map (fun pi => (pi.1, sort_str pi.2)) (unmapped_in records)).

(** ** Writing *)

(** A cell as [csv] writes it. *)
Definition csv_text (c : cell) : pystr := match c with CEmpty => [] | _ => cell_str c end.

Definition write_csv (t : table) : pystr :=
  write_rows (map cl_name (tb_columns t) :: map (map csv_text) (tb_rows t)).

(** [write_bundle] for CSV: a file per table, by the table's name. *)
Definition csv_files (tables : list table) : odict pystr := map (fun t => (tb_name t, write_csv t)) tables.

(** ** Reading *)

Definition sheet : Type := list pystr * list (list pystr).

Definition read_csv (text : pystr) : option sheet :=
  rows ← read_rows text;
  Some (match rows with [] => ([], []) | header :: rest => (header, rest) end).

Record read_instance := ReadInstance { ri_instance : pystr; ri_index : Z; ri_cells : odict value }.

Record read_submission := ReadSubmission {
  rs_id : pystr;
  rs_version : option Z;
  rs_top : odict value;
  rs_repeats : odict (list read_instance)
}.

Inductive read_error :=
| NotRoundTrippable
| CsvError
| ReadRaises (e : exn).

(** [{name: index for index, name in enumerate(header)}] *)
Definition header_index (header : list pystr) : odict nat :=
  fold_left (fun d ni => dset d ni.2 ni.1) (imap (fun i n => (i, n)) header) [].

Record read_row := ReadRow {
  rd_key : odict (option pystr);
  rd_cells : odict value;
  rd_parts : odict (odict value)
}.

Section Readback.
Context {env : PyEnv} {uni : UnicodeDB}.

(** One column of [_read_row]. *)
Definition read_column (at_ : odict nat) (row : list pystr) (acc : read_row) (c : column_manifest) : res read_row :=
  match dget at_ (cm_stored_as c) ≫= (fun i => row !! i) with
  | None => Ok acc
  | Some text =>
      match cm_source c, cm_path c with
      | Meta, path =>
          let name := match path with Some ((_ :: _) as p) => p | _ => cm_column c end in
          Ok (ReadRow (dset (rd_key acc) name (match text with [] => None | _ => Some text end)) (rd_cells acc)
                (rd_parts acc))
      | Field, Some path =>
          v ← parse (CText text) (match cm_type c with Some ((_ :: _) as t) => t | _ => lit "text" end) (cm_component c);
          Ok (match cm_component c with
              | None => ReadRow (rd_key acc) (dset (rd_cells acc) path v) (rd_parts acc)
              | Some part =>
                  ReadRow (rd_key acc) (rd_cells acc)
                    (dset (rd_parts acc) path (dset (default [] (dget (rd_parts acc) path)) part v))
              end)
      | _, _ => Ok acc
      end
  end.

(** A structured value of its parts. *)
Definition whole_of (components : odict value) : value :=
  if existsb (fun kv => py_eq kv.2 (VStr ENCRYPTED)) components then VStr ENCRYPTED
  else if forallb (fun kv => is_null kv.2) components then VNone
  else VDict components.

Definition join_parts (cells : odict value) (parts : odict (odict value)) : odict value :=
  fold_left (fun cells pc => dset cells pc.1 (whole_of pc.2)) parts cells.

Definition read_row_of (columns : list column_manifest) (at_ : odict nat) (row : list pystr)
    : res (odict (option pystr) * odict value) :=
  acc ← foldM (read_column at_ row) (ReadRow [] [] []) columns;
  Ok (rd_key acc, join_parts (rd_cells acc) (rd_parts acc)).

(** [read.key.get(name)] *)
Definition key_text (key : odict (option pystr)) (name : string) : option pystr := mjoin (dget key (lit name)).

(** [int(text)] *)
Definition int_of_text (text : pystr) : res Z := of_option ValueError (parse_int text).

Definition found_rows : Type := odict read_submission * odict (odict (list read_instance)).

Definition add_row (t : table_manifest) (at_ : odict nat) (found : found_rows) (row : list pystr) : res found_rows :=
  '(key, cells) ← read_row_of (tm_columns t) at_ row;
  match key_text key "submission_id" with
  | None | Some [] => Ok found
  | Some submission_id =>
      match tm_kind t with
      | RepeatOf repeat_id =>
          index ← match key_text key "instance_index" with Some text => int_of_text text | None => Ok 0 end;
          let instance := ReadInstance (default [] (key_text key "instance_id")) index cells in
          let of_submission := default [] (dget found.2 submission_id) in
          Ok (found.1, dset found.2 submission_id
                (dset of_submission repeat_id (default [] (dget of_submission repeat_id) ++ [instance])))
      | Submissions =>
          number ← match key_text key "form_version" with Some text => Some <$> int_of_text text | None => Ok None end;
          Ok (dset found.1 submission_id (ReadSubmission submission_id number cells []), found.2)
      end
  end.

Definition SHEET_NAME_LIMIT : nat := 31.

(** The sheet of a table, by its name or by what a workbook keeps of it. *)
Definition sheet_for (sheets : odict sheet) (name : pystr) : option sheet :=
  match dget sheets name with Some s => Some s | None => dget sheets (take SHEET_NAME_LIMIT name) end.

Definition add_table (sheets : odict sheet) (found : found_rows) (t : table_manifest) : res found_rows :=
  match sheet_for sheets (tm_name t) with
  | None | Some ([], _) => Ok found
  | Some (header, rows) => foldM (add_row t (header_index header)) found rows
  end.

Definition by_index (a b : read_instance) : bool := ri_index a <=? ri_index b.

Definition with_repeats (repeats : odict (odict (list read_instance))) (s : pystr * read_submission)
    : pystr * read_submission :=
  (s.1, ReadSubmission s.1 (rs_version s.2) (rs_top s.2)
          (map (fun rl => (rl.1, sort_by by_index rl.2)) (default [] (dget repeats s.1)))).

(** [_sheets]: the files in order, a later one of a name in place of an
    earlier. *)
Definition read_sheets (files : odict pystr) : option (odict sheet) :=
  fold_left (fun found file => found ← found; s ← read_csv file.2; Some (dset found file.1 s)) files (Some []).

Definition read_bundle (m : manifest) (files : odict pystr) : odict read_submission + read_error :=
  match mf_shape m with
  | Wide => inr NotRoundTrippable
  | Long =>
      match read_sheets files with
      | None => inr CsvError
      | Some sheets =>
          match foldM (add_table sheets) ([], []) (mf_tables m) with
          | Raise e => inr (ReadRaises e)
          | Ok (submissions, repeats) => inl (map (with_repeats repeats) submissions)
          end
      end
  end.

End Readback.
