(* ===== verification/ExportService.v ===== *)
(** * Exporting a form: export/service.py

    From the tables to the files: the submissions that match, each read under
    the version it was collected under and named through that version's
    pins.  The moments a submission holds are taken as their ISO text, and
    [received_at], which the server record does not keep, is a parameter with
    the order it gives; the formats pyreadstat and openpyxl write are left
    out beyond what is planned for them.  The tables are those the session
    sees: the row-level policies, which hide from an export the submissions,
    ops and forms its asker may not see (api/access.py, migrations/schema), are
    outside this model and [matching_submissions] filters nothing by them. *)

From S2P Require Import Prelude PyStr PyNum PyDate Value Expr Expression Datasets Compile Runtime Projection Fold.
From S2P Require Import DatasetKeys Surface Printer PublishGate Server Push Catalog Forms Entities.
From S2P Require Import TextFormats Cells ExportPlan Statistical ExportManifest.

Record export_request := ExportRequest {
  er_form_key : pystr;
  er_project : option pystr;
  er_environment : option pystr;
  er_status : option pystr;
  er_language : option pystr;
  er_shape : shape;
  er_limit : nat
}.

Record bundle := Bundle {
  bn_files : odict pystr;
  bn_tables : list table;
  bn_manifest : manifest
}.

Inductive export_error :=
| ExportTooLarge (found limit : nat)
| SeveralForms                              (* [MultipleResultsFound] *)
| ExportRaises (e : exn).

(** The choices a form gives in place: code -> name. *)
Section Labels.
Context {env : PyEnv} {uni : UnicodeDB}.

Definition inline_label (language : pystr) (found : odict pystr) (item : value) : odict pystr :=
  let labels := vdict (vfield item "label") in
  let text := match not_none (vget labels language) with
              | Some t => Some t
              | None => head (dvalues labels) ≫= not_none
              end in
  match text with
  | Some t => dset found (py_str (vfield item "value")) (py_str t)
  | None => found
  end.

(** [_inline_labels] *)
Definition inline_labels (node : odict value) (language : pystr) : odict pystr :=
  match vget node "choices" with
  | VDict choices =>
      if py_eq (vget choices "kind") (VStr "inline")
      then fold_left (inline_label language) (vlist (vget choices "items")) []
      else []
  | _ => []
  end.

(** [query.label_columns.get(wanted) or next(iter(...), query.value_column)] *)
Definition label_column (q : choice_query) (language : pystr) : pystr :=
  let found := vget (cq_label_columns q) language in
  if truthy found then py_str found
  else match dvalues (cq_label_columns q) with v :: _ => py_str v | [] => cq_value_column q end.

(** The names a pinned list gives its codes. *)
Definition dataset_labels (q : choice_query) (language : pystr) (rows : list (odict value)) : odict pystr :=
  fold_left (fun found row =>
    match vget row (cq_value_column q) with
    | VNone => found
    | code => dset found (py_str code) (py_str (default (VStr []) (dget row (label_column q language))))
    end) rows [].

Definition field_labels (language : pystr) (rows_of : pystr -> list (odict value)) (cf : cfield) : odict pystr :=
  match cf_choice_query cf with
  | None => inline_labels (cf_node cf) language
  | Some q => dataset_labels q language (rows_of (cq_dataset q))
  end.

(** The names of one version, given the rows its pins resolve each key to. *)
Definition form_labels (language : option pystr) (f : cform) (rows_of : pystr -> list (odict value))
    : odict (odict pystr) :=
  map (fun kf => (kf.1, field_labels (wanted_language language f) rows_of kf.2)) (f_fields f).
End Labels.

Section ExportForm.
Context {env : PyEnv} {uni : UnicodeDB} (collate : pystr -> pystr -> comparison).
Context (today : date) (now : pystr) (received_at : pystr -> pystr).

(** [(form.form_id, form.version)] *)
Definition form_name_of (f : cform) : pystr * Z := (form_id f, form_version_number f).

(** [representatives]: the first submission of each version. *)
Definition representative (compiled : odict cform) (f : cform) : option pystr :=
  fst <$> List.find (fun sf => bool_decide (form_name_of sf.2 = form_name_of f)) compiled.

(** [forms]: the last form under each name. *)
Definition form_under (compiled : odict cform) (f : cform) : cform :=
  default f (snd <$> List.find (fun sf => bool_decide (form_name_of sf.2 = form_name_of f)) (reverse compiled)).

(** [_labels_by_version], asked for one version: the rows of each key are
    those of the version's representative. *)
Definition labels_by_version (c : catalog) (compiled : odict cform) (language : option pystr) (f : cform)
    : odict (odict pystr) :=
  form_labels language (form_under compiled f)
    (fun key => match representative compiled f with
                | Some submission_id => default [] (dataset_rows_for c submission_id key)
                | None => []
                end).

(** ** What was encrypted, and whose keys open it *)

(** [_folds]: a submission without ops has none. *)
Definition folds_of (c : catalog) (submission_ids : list pystr) : odict fold :=
  omap (fun i => if existsb (fun r => str_eqb (ro_submission r) i) (sv_ops (ct_server c))
                 then Some (i, fold_of collate (ct_server c) i) else None) submission_ids.

(** [_openable_by] *)
Definition keys_opening (c : catalog) (content_key : pystr) : list pystr :=
  map wk_project_key (List.filter (fun w => str_eqb (wk_owner w) content_key) (sv_wrapped_keys (ct_server c))).

Definition openable_by (c : catalog) (folds : odict fold) : odict (list pystr) :=
  map (fun kv => (kv.1, sort_str (remove_dups kv.2)))
    (fold_left (fun found kf =>
       fold_left (fun found pk =>
         let field_id := field_of pk.1 in
         dset found field_id (default [] (dget found field_id) ++ keys_opening c pk.2)) (fo_unreadable kf.2) found)
       folds []).

(** ** The export *)

Definition matching_forms (c : catalog) (rq : export_request) : list form :=
  List.filter (fun f => str_eqb (fm_key f) (er_form_key rq) &&
                        match er_project rq with Some p => str_eqb (fm_project f) p | None => true end) (ct_forms c).

(** The submissions of a form's versions that pass the filters. *)
Definition matching_submissions (c : catalog) (rq : export_request) (f : form) : odict submission :=
  List.filter (fun kv =>
    existsb (fun v => str_eqb (vr_id v) (sb_form_version kv.2) && str_eqb (vr_form v) (fm_id f)) (ct_versions c) &&
    match er_environment rq with Some e => str_eqb (sb_environment kv.2) e | None => true end &&
    match er_status rq with Some s => str_eqb (sb_status kv.2) s | None => true end) (sv_submissions (ct_server c)).

(** [ORDER BY received_at, id] *)
Definition received_before (a b : pystr * submission) : bool :=
  match str_cmp (received_at a.1) (received_at b.1) with
  | Lt => true
  | Gt => false
  | Eq => match collate a.1 b.1 with Gt => false | _ => true end
  end.

(** The world a submission is read back in: the server's clock, no metadata
    and no datasets. *)
Definition export_world (f : cform) : world := World f today now [] (in_memory []).

Definition no_fold : fold := fold_ops [].

Definition record_of (c : catalog) (rq : export_request) (f : form) (compiled : odict cform) (folds : odict fold)
    (row : pystr * submission) : res (list submission_record) :=
  match dget compiled row.1 with
  | None => Ok []
  | Some cf =>
      let folded := default no_fold (dget folds row.1) in
      projection ← project_for_export (export_world cf) (fo_data folded) (fo_instances folded)
                     (dkeys (fo_unreadable folded));
      Ok [SubmissionRecord row.1 (fm_key f) (form_version_number cf) (sb_status row.2) (Some (sb_origin_device row.2))
            (sb_created_by row.2) (Some (sb_started_at row.2)) (sb_finalized_at row.2) (Some (received_at row.1))
            projection (labels_by_version c compiled (er_language rq) cf)]
  end.

(** [set(compiled.values())]: one object per version. *)
Definition distinct_forms (c : catalog) (compiled : odict cform) : list cform :=
  omap (fun v => snd <$> List.find (fun sf => match version_of_submission c sf.1 with
                                              | Some w => str_eqb (vr_id w) (vr_id v)
                                              | None => false
                                              end) compiled) (ct_versions c).

(** [_title] *)
Definition title_of_export (compiled : odict cform) (language : option pystr) (f : form) : pystr :=
  let newest_first := sort_by (fun a b => form_version_number b <=? form_version_number a) (dvalues compiled) in
  match List.find (fun cf => match vget (f_ir cf) "title" with VDict (_ :: _) => true | _ => false end) newest_first with
  | Some cf =>
      let titles := vdict (vget (f_ir cf) "title") in
      let found := vget titles (wanted_language language cf) in
      if truthy found then py_str found else match dvalues titles with v :: _ => py_str v | [] => [] end
  | None => fm_title f
  end.

Definition export_records (c : catalog) (rq : export_request) (f : form) (rows : odict submission)
    : res (odict cform * odict fold * list submission_record) :=
  compiled ← compiled_forms_for_submissions c (dkeys rows);
  let folds := folds_of c (dkeys rows) in
  records ← mapR (record_of c rq f compiled folds) rows;
  Ok (compiled, folds, concat records).

Definition export_bundle (c : catalog) (rq : export_request) (f : form) (rows : odict submission) : res bundle :=
  '(compiled, folds, records) ← export_records c rq f rows;
  let plan := build_plan (distinct_forms c compiled) (er_language rq) in
  tables ← build_tables plan records (er_shape rq) (fm_key f);
  Ok (Bundle (csv_files tables) tables
        (build_manifest plan tables records (fm_key f) (Some (title_of_export compiled (er_language rq) f))
           (er_language rq) (er_shape rq) (openable_by c folds) None)).

(** [export_form] as CSV. *)
Definition export_form (c : catalog) (rq : export_request) : option bundle + export_error :=
  match matching_forms c rq with
  | [] => inl None
  | [f] =>
      let rows := take (S (er_limit rq)) (sort_by received_before (matching_submissions c rq f)) in
      if (er_limit rq <? length rows)%nat then inr (ExportTooLarge (length rows) (er_limit rq))
      else match export_bundle c rq f rows with
           | Ok b => inl (Some b)
           | Raise e => inr (ExportRaises e)
           end
  | _ => inr SeveralForms
  end.

End ExportForm.
