(* ===== verification/CatalogFacts.v ===== *)
(** * What publishing keeps: uniqueness and immutability of the catalog

    Every operation of the forms and dataset services only appends rows, and
    never under a key or a parent that is already complete.  [kept] is that
    relation between the tables before and after; [unique] the constraints. *)

From S2P Require Import Prelude PyStr Value PyJson Expr Expression Compile DatasetKeys.
From S2P Require Import Surface PublishGate Server Push Catalog Forms Entities.

(** ** The constraints *)

Record unique (c : catalog) : Prop := {
  un_forms : NoDup (map fm_id (ct_forms c));
  un_form_names : NoDup (map form_name (ct_forms c));
  un_versions : NoDup (map vr_id (ct_versions c));
  un_numbers : NoDup (map version_number (ct_versions c));
  un_pins : NoDup (map pin_name (ct_pins c));
  un_datasets : NoDup (map ds_id (ct_datasets c));
  un_dataset_names : NoDup (map dataset_name (ct_datasets c));
  un_dataset_versions : NoDup (map xv_id (ct_dataset_versions c));
  un_dataset_numbers : NoDup (map dataset_number (ct_dataset_versions c));
  un_records : NoDup (map record_name (ct_records c));
  un_places : NoDup (map record_place (ct_records c))
}.

(** Every reference names a row that is there. *)
Record referenced (c : catalog) : Prop := {
  rf_versions : forall v, v ∈ ct_versions c -> vr_form v ∈ map fm_id (ct_forms c);
  rf_pins : forall p, p ∈ ct_pins c ->
    pr_version p ∈ map vr_id (ct_versions c) /\ pr_dataset_version p ∈ map xv_id (ct_dataset_versions c);
  rf_dataset_versions : forall v, v ∈ ct_dataset_versions c -> xv_dataset v ∈ map ds_id (ct_datasets c);
  rf_records : forall r, r ∈ ct_records c -> xr_version r ∈ map xv_id (ct_dataset_versions c);
  rf_drafts : forall i d, dget (ct_drafts c) i = Some d -> i ∈ map fm_id (ct_forms c)
}.

(** ** Only appended to *)

Record extends (c c' : catalog) : Prop := {
  ex_server : ct_server c' = ct_server c;
  ex_users : ct_users c' = ct_users c;
  ex_forms : ct_forms c `prefix_of` ct_forms c';
  ex_versions : ct_versions c `prefix_of` ct_versions c';
  ex_pins : ct_pins c `prefix_of` ct_pins c';
  ex_deployments : ct_deployments c `prefix_of` ct_deployments c';
  ex_datasets : ct_datasets c `prefix_of` ct_datasets c';
  ex_dataset_versions : ct_dataset_versions c `prefix_of` ct_dataset_versions c';
  ex_records : ct_records c `prefix_of` ct_records c';
  ex_drafts : forall i d, dget (ct_drafts c) i = Some d ->
    exists d', dget (ct_drafts c') i = Some d' /\ dr_revision d <= dr_revision d'
}.

#[export] Instance extends_refl : Reflexive extends.
Proof. intros c. split; try done. intros i d Hd. exists d. split; [done|lia]. Qed.

#[export] Instance extends_trans : Transitive extends.
Proof.
  intros a b c [] []. split; try (by etrans); try congruence.
  intros i d (d' & Hd' & Hr)%ex_drafts0. apply ex_drafts1 in Hd' as (e & He & Hr'). exists e. split; [done|lia].
Qed.

(** What one step does: it extends the tables and keeps their constraints. *)
Record steps (c c' : catalog) : Prop := {
  st_extends : extends c c';
  st_unique : unique c -> unique c';
  st_referenced : referenced c -> referenced c'
}.

#[export] Instance steps_refl : Reflexive steps.
Proof. by split. Qed.

#[export] Instance steps_trans : Transitive steps.
Proof. intros a b c [] []. split; [by etrans|auto|auto]. Qed.

Lemma prefix_snoc {A} (l : list A) x : l `prefix_of` l ++ [x].
Proof. by exists [x]. Qed.
#[export] Hint Resolve prefix_snoc : core.

(** A constraint the insertion checks, as the absence of its key. *)
Lemma NoDup_map_snoc {A B} (f : A -> B) l x : f x ∉ map f l -> NoDup (map f l) -> NoDup (map f (l ++ [x])).
Proof.
  intros Hx Hl. rewrite map_app. apply NoDup_app. split_and!; [done| |apply NoDup_singleton].
  intros y Hy ->%list_elem_of_singleton. done.
Qed.

(** ** Each insertion *)

Lemma elem_map {A B} (f : A -> B) l x : x ∈ l -> f x ∈ map f l.
Proof. apply list_elem_of_fmap_2. Qed.

Lemma map_elem_snoc {A B} (f : A -> B) (y : B) l x : y ∈ map f l -> y ∈ map f (l ++ [x]).
Proof. rewrite map_app, elem_of_app. by left. Qed.
#[export] Hint Resolve map_elem_snoc : core.

Lemma insertion_run allowed add c c' r :
  insertion allowed add c = (c', r) ->
  (allowed c = true /\ c' = add c /\ r = inl tt) \/ (c' = c /\ r = inr IntegrityError).
Proof.
  unfold insertion, mbind, ST_bind, unless, asks, writes, refuse, id. cbn. destruct (allowed c); intros [= <- <-]; auto.
Qed.

Lemma fresh_true {A B} `{EqDecision B} (key : A -> B) x rows : fresh key x rows = true <-> key x ∉ map key rows.
Proof. apply bool_decide_eq_true. Qed.

Lemma present_true {A} (key : A -> pystr) i rows : present key i rows = true <-> i ∈ map key rows.
Proof. apply bool_decide_eq_true. Qed.

Ltac insertion_steps :=
  let c := fresh "c" in let Hok := fresh "Hok" in
  intros c ? ? [(Hok & -> & _)|[-> _]]%insertion_run; [|reflexivity];
  rewrite ?andb_true_iff, ?fresh_true, ?present_true in Hok; destruct_and? Hok;
  split; [split; simpl; try done; auto; let i := fresh in let e := fresh in intros i e ?; exists e; (split; [done|lia])
         |intros []; split; simpl; try done; by apply NoDup_map_snoc
         |intros [? Hpins ? ? ?]; split; simpl; intros;
          try match goal with H : _ ∈ _ ++ [_] |- _ => apply elem_of_app in H as [H| ->%list_elem_of_singleton] end;
          try match goal with H : _ ∈ ct_pins _ |- _ => apply Hpins in H as [? ?] end; eauto].

Lemma insert_form_steps f : along steps (insert_form f).
Proof. insertion_steps. Qed.
Lemma insert_version_steps v : along steps (insert_version v).
Proof. insertion_steps. Qed.
Lemma insert_pin_steps p : along steps (insert_pin p).
Proof. insertion_steps. Qed.
Lemma insert_deployment_steps d : along steps (insert_deployment d).
Proof. insertion_steps. Qed.
Lemma insert_dataset_steps d : along steps (insert_dataset d).
Proof. insertion_steps. Qed.
Lemma insert_dataset_version_steps v : along steps (insert_dataset_version v).
Proof. insertion_steps. Qed.
Lemma insert_record_steps r : along steps (insert_record r).
Proof. insertion_steps. Qed.

(** ** Each service *)

Section Along.
Context (R : catalog -> catalog -> Prop) `{!Reflexive R} `{!Transitive R}.

Lemma along_scalar {A} (l : list A) : along R (scalar_one_or_none l).
Proof. destruct l as [|x [|y l]]; [apply along_ret|apply along_ret|apply along_refuse]; done. Qed.

Lemma along_atomically {A} (m : CT A) : along R m -> along R (atomically m).
Proof.
  intros Hm c c' r. unfold atomically. destruct (m c) as [c1 [a|e]] eqn:E; intros [= <- <-]; [|done].
  by eapply Hm.
Qed.
End Along.

Create HintDb steps discriminated.
#[export] Hint Resolve insert_form_steps insert_version_steps insert_pin_steps insert_deployment_steps
  insert_dataset_steps insert_dataset_version_steps insert_record_steps : steps.

(** A read, a check, a loop or a sequence keeps what its parts keep. *)
Ltac along_step :=
  match goal with
  | |- along _ (_ ≫= _) => apply along_bind; [apply _| |intro]
  | |- along _ (mret _) => apply along_ret, _
  | |- along _ (asks _) => apply along_asks, _
  | |- along _ (refuse _) => apply along_refuse, _
  | |- along _ (unless _ _) => apply along_unless, _
  | |- along _ (each _ _) => apply along_each; [apply _|apply _|intro]
  | |- along _ (scalar_one_or_none _) => apply along_scalar, _
  | |- along _ (new_ulid _) => solve [eauto with steps]
  | |- along _ (match ?x with _ => _ end) => destruct x
  | |- along _ (let _ := _ in _) => cbv zeta
  | |- along _ _ => solve [eauto with steps]
  end.

(** What a transaction leaves when it succeeds, and when it does not. *)
Lemma atomically_run {A} (m : CT A) c c' r :
  atomically m c = (c', r) -> (exists a, r = inl a /\ m c = (c', inl a)) \/ (c' = c /\ exists e, r = inr e).
Proof. unfold atomically. destruct (m c) as [c1 [a|e]]; intros [= <- <-]; eauto. Qed.

Lemma new_ulid_steps ulid : along steps (new_ulid ulid).
Proof.
  intros c c' r [= <- _]. split; [split; simpl; try done|by intros []|by intros []].
  intros i d Hd. exists d. split; [done|lia].
Qed.
#[export] Hint Resolve new_ulid_steps : steps.

Lemma or_new_ulid_steps ulid given : along steps (or_new_ulid ulid given).
Proof. unfold or_new_ulid. repeat along_step. Qed.
#[export] Hint Resolve or_new_ulid_steps : steps.

(** ** Complete once published *)

Definition pins_of (c : catalog) (form_version_id : pystr) : list pin_row :=
  List.filter (fun p => str_eqb (pr_version p) form_version_id) (ct_pins c).
Definition records_of (c : catalog) (dataset_version_id : pystr) : list dataset_record :=
  List.filter (fun r => str_eqb (xr_version r) dataset_version_id) (ct_records c).

(** The tables are extended, and the pins and rows of what was published
    before are the ones they were. *)
Record kept (c c' : catalog) : Prop := {
  kp_steps : steps c c';
  kp_pins : forall i, i ∈ map vr_id (ct_versions c) -> pins_of c' i = pins_of c i;
  kp_records : forall i, i ∈ map xv_id (ct_dataset_versions c) -> records_of c' i = records_of c i
}.

Lemma kept_same c c' : steps c c' -> ct_pins c' = ct_pins c -> ct_records c' = ct_records c -> kept c c'.
Proof. intros Hs Hp Hr. split; [done|..]; intros; unfold pins_of, records_of; by rewrite ?Hp, ?Hr. Qed.

#[export] Instance kept_refl : Reflexive kept.
Proof. intros c. by apply kept_same. Qed.

Lemma prefix_map {A B} (f : A -> B) l k x : l `prefix_of` k -> x ∈ map f l -> x ∈ map f k.
Proof. intros [r ->]. rewrite map_app, elem_of_app. by left. Qed.

#[export] Instance kept_trans : Transitive kept.
Proof.
  intros a b c [Hs Hp Hr] [Hs' Hp' Hr']. split; [by etrans|..]; intros i Hi.
  - rewrite Hp', Hp; [done..|]. eapply prefix_map; [apply Hs|done].
  - rewrite Hr', Hr; [done..|]. eapply prefix_map; [apply Hs|done].
Qed.

Ltac kept_insertion H :=
  let c := fresh "c" in let c' := fresh "c'" in let r := fresh "r" in let E := fresh "E" in
  intros c c' r E; pose proof (H c c' r E); apply insertion_run in E as [(_ & -> & _)|[-> _]]; by apply kept_same.

Lemma insert_form_kept f : along kept (insert_form f).
Proof. kept_insertion (insert_form_steps f). Qed.
Lemma insert_version_kept v : along kept (insert_version v).
Proof. kept_insertion (insert_version_steps v). Qed.
Lemma insert_deployment_kept d : along kept (insert_deployment d).
Proof. kept_insertion (insert_deployment_steps d). Qed.
Lemma insert_dataset_kept d : along kept (insert_dataset d).
Proof. kept_insertion (insert_dataset_steps d). Qed.
Lemma insert_dataset_version_kept v : along kept (insert_dataset_version v).
Proof. kept_insertion (insert_dataset_version_steps v). Qed.

Lemma new_ulid_kept ulid : along kept (new_ulid ulid).
Proof. intros c c' r E. pose proof (new_ulid_steps ulid c c' r E). injection E as <- _. by apply kept_same. Qed.

(** A row added under a parent of the base catalog's future. *)
Definition beside (c0 c c' : catalog) : Prop :=
  (forall i, i ∈ map vr_id (ct_versions c0) -> pins_of c' i = pins_of c i) /\
  (forall i, i ∈ map xv_id (ct_dataset_versions c0) -> records_of c' i = records_of c i).

#[export] Instance beside_refl c0 : Reflexive (beside c0).
Proof. by split. Qed.
#[export] Instance beside_trans c0 : Transitive (beside c0).
Proof. intros a b c [H1 H2] [H3 H4]. split; intros i Hi; rewrite ?H3, ?H4; auto. Qed.

Lemma insert_pin_beside c0 p : pr_version p ∉ map vr_id (ct_versions c0) -> along (beside c0) (insert_pin p).
Proof.
  intros Hp c c' r [(_ & -> & _)|[-> _]]%insertion_run; [|reflexivity]. split; [|done]. intros i Hi.
  unfold pins_of. simpl. rewrite List.filter_app. simpl. rewrite str_eqb_ne by (intros <-; done). by rewrite app_nil_r.
Qed.

Lemma insert_record_beside c0 q : xr_version q ∉ map xv_id (ct_dataset_versions c0) ->
  along (beside c0) (insert_record q).
Proof.
  intros Hp c c' r [(_ & -> & _)|[-> _]]%insertion_run; [|reflexivity]. split; [done|]. intros i Hi.
  unfold records_of. simpl. rewrite List.filter_app. simpl. rewrite str_eqb_ne by (intros <-; done). by rewrite app_nil_r.
Qed.

Lemma insert_version_beside c0 v : along (beside c0) (insert_version v).
Proof. intros c c' r [(_ & -> & _)|[-> _]]%insertion_run; by split. Qed.
Lemma insert_dataset_version_beside c0 v : along (beside c0) (insert_dataset_version v).
Proof. intros c c' r [(_ & -> & _)|[-> _]]%insertion_run; by split. Qed.
Lemma insert_deployment_beside c0 d : along (beside c0) (insert_deployment d).
Proof. intros c c' r [(_ & -> & _)|[-> _]]%insertion_run; by split. Qed.
Lemma new_ulid_beside c0 ulid : along (beside c0) (new_ulid ulid).
Proof. intros c c' r [= <- _]. by split. Qed.

#[export] Hint Resolve insert_form_kept insert_version_kept insert_deployment_kept insert_dataset_kept
  insert_dataset_version_kept new_ulid_kept insert_version_beside insert_dataset_version_beside
  insert_deployment_beside new_ulid_beside : steps.

(** Drawing an identifier changes nothing else. *)
Lemma or_new_ulid_run ulid given c c' r :
  or_new_ulid ulid given c = (c', r) -> exists n i, c' = with_ct_minted n c /\ r = inl i.
Proof.
  assert (c = with_ct_minted (ct_minted c) c) as Hc by by destruct c.
  destruct given as [[|x i]|]; intros [= <- <-]; eauto.
Qed.

Section Services.
Context {env : PyEnv} (ulid : N -> pystr).
Context (sha256_hex : list N -> pystr) (utf8 : pystr -> list N) (casefold : pystr -> pystr) (rg : registry).

Ltac service := repeat along_step.

Lemma deploy_version_steps now project i kinds : along steps (deploy_version ulid now project i kinds).
Proof. unfold deploy_version, deploy_one. service. Qed.
#[local] Hint Resolve deploy_version_steps : steps.

Lemma form_row_steps rq compiled : along steps (form_row ulid rq compiled).
Proof. unfold form_row. service. Qed.
#[local] Hint Resolve form_row_steps : steps.

Lemma publish_version_steps now rq : along steps (publish_version ulid sha256_hex utf8 rg now rq).
Proof. unfold publish_version, republish, publish_new, insert_pins. service. Qed.

Lemma create_form_steps project key title : along steps (create_form ulid project key title).
Proof. unfold create_form. service. Qed.

Lemma publish_dataset_steps now rq :
  along steps (publish_dataset_version ulid sha256_hex utf8 casefold now rq).
Proof. unfold publish_dataset_version, dataset_row, publish_numbered. service. Qed.

Lemma publish_numbered_steps now rq d hashed warnings number :
  along steps (publish_numbered ulid sha256_hex utf8 now rq d hashed warnings number).
Proof. unfold publish_numbered. service. Qed.

(** Storing a draft that is not behind the one it replaces. *)
Lemma store_draft_steps i d c c' r :
  (forall e, dget (ct_drafts c) i = Some e -> dr_revision e <= dr_revision d) ->
  store_draft i d c = (c', r) -> steps c c'.
Proof.
  intros Hrev H. unfold store_draft in H. st_unless H Hw; [|reflexivity].
  apply insertion_run in H as [(Hok & -> & _)|[-> _]]; [|reflexivity].
  rewrite andb_true_iff, present_true in Hok. destruct Hok as [Hi _]. split.
  - split; simpl; try done. intros j e He. rewrite dget_dset. case_decide as Hj; [|by exists e].
    subst j. exists d. split; [done|]. by apply Hrev.
  - intros []. by split.
  - intros []. split; simpl; try done. intros j e. rewrite dget_dset. case_decide; naive_solver.
Qed.

(** A draft's revision only rises, and a draft never goes away. *)
Lemma save_draft_steps now i rq : along steps (save_draft now i rq).
Proof.
  intros c c' r H. unfold save_draft in H. st_read H. simpl in H. unfold id in *.
  destruct (dget (ct_drafts c) i) as [d|] eqn:Ed.
  - st_unless H Hrev; [|reflexivity]. apply bind_run in H as [([] & c1 & H1 & H)|(e & H1 & _)].
    + injection H as <- _. eapply store_draft_steps in H1; [done|]. intros e. rewrite Ed. intros [= ->]. simpl. lia.
    + eapply store_draft_steps in H1; [done|]. intros e'. rewrite Ed. intros [= ->]. simpl. lia.
  - destruct (sd_expected rq); [injection H as <- _; reflexivity|].
    apply bind_run in H as [([] & c1 & H1 & H)|(e & H1 & _)].
    + injection H as <- _. eapply store_draft_steps in H1; [done|]. by rewrite Ed.
    + eapply store_draft_steps in H1; [done|]. by rewrite Ed.
Qed.

(** Nothing of what is already published is touched. *)
Lemma deploy_version_kept now project i kinds : along kept (deploy_version ulid now project i kinds).
Proof. unfold deploy_version, deploy_one. service. Qed.

Lemma deploy_version_beside c0 now project i kinds : along (beside c0) (deploy_version ulid now project i kinds).
Proof. unfold deploy_version, deploy_one. service. Qed.
#[local] Hint Resolve deploy_version_kept deploy_version_beside : steps.

Lemma or_new_ulid_kept given : along kept (or_new_ulid ulid given).
Proof. unfold or_new_ulid. service. Qed.
#[local] Hint Resolve or_new_ulid_kept : steps.

Lemma form_row_kept rq compiled : along kept (form_row ulid rq compiled).
Proof. unfold form_row. service. Qed.
#[local] Hint Resolve form_row_kept : steps.

Lemma beside_kept c c' : steps c c' -> beside c c c' -> kept c c'.
Proof. intros Hs [Hp Hr]. by split. Qed.

Lemma insert_pins_beside c0 i pins : i ∉ map vr_id (ct_versions c0) -> along (beside c0) (insert_pins i pins).
Proof. intros Hi. unfold insert_pins. apply along_each; [apply _|apply _|]. intros p. by apply insert_pin_beside. Qed.

Lemma publish_new_steps now rq compiled f pins : along steps (publish_new ulid sha256_hex utf8 now rq compiled f pins).
Proof. unfold publish_new, insert_pins. service. Qed.

Lemma publish_new_kept now rq compiled f pins : along kept (publish_new ulid sha256_hex utf8 now rq compiled f pins).
Proof.
  intros c c' r H. apply beside_kept; [by eapply publish_new_steps|]. unfold publish_new in H.
  apply bind_run in H as [(i & c1 & H1 & H)|(e & H1 & _)].
  2:{ by apply or_new_ulid_run in H1 as (? & ? & _ & ?). }
  apply or_new_ulid_run in H1 as (n & j & -> & _).
  apply bind_run in H as [([] & c2 & H1 & H)|(e & H1 & _)].
  2:{ by eapply insert_version_beside in H1. }
  pose proof (insert_version_beside c _ _ _ _ H1) as Hb.
  apply insertion_run in H1 as [(Hok & -> & _)|[_ ?]]; [|done].
  rewrite !andb_true_iff, !fresh_true in Hok. destruct Hok as [[[Hi _] _] _].
  assert (beside c c (with_ct_minted n c)) as Hc by done. etrans; [exact Hc|]. etrans; [exact Hb|].
  revert H. apply along_bind; [apply _|by apply insert_pins_beside|]. intros _. service.
Qed.
#[local] Hint Resolve publish_new_kept : steps.

Lemma publish_version_kept now rq : along kept (publish_version ulid sha256_hex utf8 rg now rq).
Proof. unfold publish_version, republish. service. Qed.

Lemma create_form_kept project key title : along kept (create_form ulid project key title).
Proof. unfold create_form. service. Qed.

Lemma save_draft_kept now i rq : along kept (save_draft now i rq).
Proof.
  intros c c' r H. pose proof (save_draft_steps now i rq c c' r H) as Hs.
  assert (ct_pins c' = ct_pins c /\ ct_records c' = ct_records c) as [Hp Hr]; [|by apply kept_same].
  revert H. unfold save_draft. generalize c c' r. clear. intros c c' r H.
  assert (forall j d, along (fun c c' => ct_pins c' = ct_pins c /\ ct_records c' = ct_records c) (store_draft j d)) as Hd.
  { intros j d a b q Hq. unfold store_draft in Hq. st_unless Hq Hw; [|done].
    by apply insertion_run in Hq as [(_ & -> & _)|[-> _]]. }
  st_read H. simpl in H. unfold id in *. destruct (dget (ct_drafts c) i) as [d|].
  - st_unless H Hrev; [|done]. apply bind_run in H as [([] & c1 & H1 & H)|(e & H1 & _)]; [injection H as <- _|];
      by eapply Hd.
  - destruct (sd_expected rq); [by injection H as <- _|].
    apply bind_run in H as [([] & c1 & H1 & H)|(e & H1 & _)]; [injection H as <- _|]; by eapply Hd.
Qed.

Lemma dataset_row_kept rq : along kept (dataset_row ulid rq).
Proof. unfold dataset_row. service. Qed.
#[local] Hint Resolve dataset_row_kept : steps.

Lemma records_from_version i n rows hashed r : r ∈ records_from i n rows hashed -> xr_version r = i.
Proof.
  revert n hashed. induction rows as [|row rows IH]; intros n [|[k h] hashed]; simpl; intros Hr; try (by inversion Hr).
  apply elem_of_cons in Hr as [->|Hr]; [done|]. by eapply IH.
Qed.

Lemma each_beside {A} c0 (l : list A) (body : A -> CT unit) : (forall x, x ∈ l -> along (beside c0) (body x)) -> along (beside c0) (each l body).
Proof.
  induction l as [|x l IH]; intros Hb; [by apply along_ret, _|]. simpl. apply along_bind; [apply _|apply Hb; by left|].
  intros _. apply IH. intros y Hy. apply Hb. by right.
Qed.

Lemma publish_numbered_kept now rq d hashed warnings number :
  along kept (publish_numbered ulid sha256_hex utf8 now rq d hashed warnings number).
Proof.
  intros c c' r H. apply beside_kept; [by eapply publish_numbered_steps|]. unfold publish_numbered in H.
  st_unless H Hw; [|done]. st_read H. apply bind_run in H as [(existing & c1 & H1 & H)|(e & H1 & _)].
  2:{ by eapply along_scalar in H1. }
  assert (c1 = c) as -> by (revert H1; clear; destruct (List.filter _ _) as [|? [|]]; by intros [= <- _]).
  destruct existing as [v|]; [destruct (str_eqb _ _); by injection H as <- _|].
  apply bind_run in H as [(i & c1 & [= <- <-] & H)|(e & [=] & _)].
  apply bind_run in H as [([] & c2 & H2 & H)|(e & H2 & _)].
  2:{ by eapply insert_dataset_version_beside in H2. }
  pose proof (insert_dataset_version_beside c _ _ _ _ H2) as Hb.
  apply insertion_run in H2 as [(Hok & -> & _)|[_ ?]]; [|done].
  rewrite !andb_true_iff, !fresh_true in Hok. destruct Hok as [[Hi _] _].
  assert (beside c c (with_ct_minted (ct_minted c + 1) c)) as Hc by done. etrans; [exact Hc|]. etrans; [exact Hb|].
  revert H. apply along_bind; [apply _| |intros _; by apply along_ret, _].
  apply each_beside. intros q Hq%records_from_version. apply insert_record_beside. by rewrite Hq.
Qed.
#[local] Hint Resolve publish_numbered_kept : steps.

Lemma publish_dataset_kept now rq : along kept (publish_dataset_version ulid sha256_hex utf8 casefold now rq).
Proof. unfold publish_dataset_version. service. Qed.

(** ** Requests *)

Inductive request :=
| CreateForm (project form_key title : pystr)
| Publish (rq : publish_request)
| SaveDraft (form_id : pystr) (rq : save_request)
| PublishDataset (rq : dataset_request).

(** The tables after one request at a time [now]: its route's transaction. *)
Definition serve (c : catalog) (at_ : Z * request) : catalog :=
  match at_.2 with
  | CreateForm project key title => (atomically (create_form ulid project key title) c).1
  | Publish rq => (atomically (publish_version ulid sha256_hex utf8 rg at_.1 rq) c).1
  | SaveDraft i rq => (atomically (save_draft at_.1 i rq) c).1
  | PublishDataset rq => (atomically (publish_dataset_version ulid sha256_hex utf8 casefold at_.1 rq) c).1
  end.

Lemma along_fst {A} (R : catalog -> catalog -> Prop) (m : CT A) c : along R m -> R c (m c).1.
Proof. intros Hm. destruct (m c) as [c' r] eqn:E. by eapply Hm. Qed.

Lemma serve_kept c at_ : kept c (serve c at_).
Proof.
  destruct at_ as [now [project key title|rq|i rq|rq]]; unfold serve; simpl; apply along_fst, along_atomically;
    eauto using kept_refl, create_form_kept, publish_version_kept, save_draft_kept, publish_dataset_kept.
Qed.

Lemma serve_all_kept requests c : kept c (fold_left serve requests c).
Proof.
  revert c. induction requests as [|rq requests IH]; intros c; [reflexivity|]. simpl.
  etrans; [apply serve_kept|apply IH].
Qed.

End Services.
