(* ===== verification/CatalogSound.v ===== *)
(** * What is in the catalog is what the gates let in

    [sound]: the constraints hold, every form version passed the gate and has
    exactly its pins, each to a version of the dataset it names in its own
    project; every deployment stays in its project; every dataset version
    holds the rows its content address and count say.  Every request keeps
    it. *)

From S2P Require Import Prelude PyStr Value PyJson Expr Expression Compile DatasetKeys CaseKey.
From S2P Require Import Surface PublishGate Server Push Catalog Forms Entities CatalogFacts.

(** ** Runs that succeed *)

Lemma bind_inl {S E A B} (m : ST S E A) (f : A -> ST S E B) s s' b :
  (m ≫= f) s = (s', inl b) -> exists a s1, m s = (s1, inl a) /\ f a s1 = (s', inl b).
Proof. unfold mbind, ST_bind. destruct (m s) as [s1 [a|e]]; [eauto|done]. Qed.

Lemma unless_inl {S E} (b : bool) (e : E) (s s' : S) u : unless b e s = (s', inl u) -> b = true /\ s' = s.
Proof. unfold unless. destruct b; [by intros [= <-]|done]. Qed.

Lemma scalar_inl {A} (l : list A) (c c' : catalog) o :
  scalar_one_or_none l c = (c', inl o) -> c' = c /\ l = option_list o.
Proof. destruct l as [|x [|y l]]; intros [= <- <-]; done. Qed.

Lemma scalar_same {A} (l : list A) (c c' : catalog) r : scalar_one_or_none l c = (c', r) -> c' = c.
Proof. destruct l as [|x [|y l]]; by intros [= <- _]. Qed.

Lemma insertion_inl allowed add c c' u : insertion allowed add c = (c', inl u) -> allowed c = true /\ c' = add c.
Proof. intros [(? & ? & _)|[_ ?]]%insertion_run; done. Qed.

(** Stepping through a success: a read, a check, a row looked up, a step. *)
Ltac run_step H a s :=
  let E := fresh "E" in apply bind_inl in H as (a & s & E & H).
Ltac run_read H := 
  let a := fresh "a" in let s1 := fresh "s1" in let E := fresh "E" in
  apply bind_inl in H as (a & s1 & E & H); injection E as <- <-.
Ltac run_check H Hb :=
  let a := fresh "a" in let s1 := fresh "s1" in let E := fresh "E" in
  apply bind_inl in H as (a & s1 & E & H); apply unless_inl in E as [Hb ->].
Ltac run_scalar H o Ho :=
  let s1 := fresh "s1" in let E := fresh "E" in
  apply bind_inl in H as (o & s1 & E & H); apply scalar_inl in E as [-> Ho].

(** ** Soundness *)

Section Sound.
Context {env : PyEnv} (ulid : N -> pystr).
Context (sha256_hex : list N -> pystr) (utf8 : pystr -> list N) (casefold : pystr -> pystr) (rg : registry).

Abbreviation checksum_of := (ir_checksum sha256_hex utf8) (only parsing).

(** A dataset version a pin names: of this dataset key, in this project. *)
Definition pinned_to (c : catalog) (project key dataset_version_id : pystr) : Prop :=
  exists x d, x ∈ ct_dataset_versions c /\ xv_id x = dataset_version_id /\
              d ∈ ct_datasets c /\ ds_id d = xv_dataset x /\ ds_project d = project /\ ds_key d = key.

Record version_sound (c : catalog) (v : version) (compiled : cform) (f : form) : Prop := {
  vs_gate : check_publishable rg (vr_ir v) = inl compiled;
  vs_number : vr_version v = form_version_number compiled;
  vs_checksum : vr_checksum v = checksum_of (vr_ir v);
  vs_import : import_errors (vr_import v) = [];
  vs_form : f ∈ ct_forms c /\ fm_id f = vr_form v /\ fm_key f = form_id compiled;
  vs_pins : map pr_key (pins_of c (vr_id v)) = dataset_keys compiled;
  vs_pinned : forall p, p ∈ pins_of c (vr_id v) -> pinned_to c (fm_project f) (pr_key p) (pr_dataset_version p)
}.

Definition deployment_sound (c : catalog) (d : deployment) : Prop :=
  exists v f e, v ∈ ct_versions c /\ vr_id v = dp_version d /\ f ∈ ct_forms c /\ fm_id f = vr_form v /\
    e ∈ sv_environments (ct_server c) /\ en_id e = dp_environment d /\ en_project e = fm_project f.

(** A dataset version under the column its keys were taken from. *)
Record rows_sound (c : catalog) (x : dataset_version) (column : pystr) : Prop := {
  rs_count : xv_row_count x = Z.of_nat (length (records_of c (xv_id x)));
  rs_ordinals : map xr_ordinal (records_of c (xv_id x)) = seqZ 0 (xv_row_count x);
  rs_checksum : xv_checksum x = content_address sha256_hex utf8 (canonical_json utf8)
                                  (map xr_data (records_of c (xv_id x))) column;
  rs_keys : forall r, r ∈ records_of c (xv_id x) ->
    xr_key r = cell_str (vget (xr_data r) column) /\ strip (xr_key r) <> [] /\
    xr_hash r = row_hash sha256_hex (canonical_json utf8) (xr_data r)
}.

Record sound (c : catalog) : Prop := {
  sd_unique : unique c;
  sd_referenced : referenced c;
  sd_versions : forall v, v ∈ ct_versions c -> exists compiled f, version_sound c v compiled f;
  sd_deployments : forall d, d ∈ ct_deployments c -> deployment_sound c d;
  sd_datasets : forall x, x ∈ ct_dataset_versions c -> exists column, rows_sound c x column
}.

Lemma prefix_elem {A} (l k : list A) x : l `prefix_of` k -> x ∈ l -> x ∈ k.
Proof. intros [r ->] Hx. apply elem_of_app. by left. Qed.

(** What was sound stays so in tables that keep it. *)
Lemma pinned_to_kept c c' project key x : kept c c' -> pinned_to c project key x -> pinned_to c' project key x.
Proof.
  intros [[[] _ _] _ _] (y & d & Hy & Hx & Hd & ? & ? & ?). exists y, d.
  split_and!; try done; by eapply prefix_elem.
Qed.

Lemma version_sound_kept c c' v compiled f :
  kept c c' -> v ∈ ct_versions c -> version_sound c v compiled f -> version_sound c' v compiled f.
Proof.
  intros Hk Hv []. assert (pins_of c' (vr_id v) = pins_of c (vr_id v)) as Hp.
  { apply Hk. by apply elem_map. }
  split; rewrite ?Hp; try done.
  - destruct vs_form0 as (Hf & ? & ?). split_and!; [|done..]. eapply prefix_elem; [apply Hk|done].
  - intros p Hin. eapply pinned_to_kept; eauto.
Qed.

Lemma deployment_sound_kept c c' d : kept c c' -> deployment_sound c d -> deployment_sound c' d.
Proof.
  intros [[[] _ _] _ _] (v & f & e & Hv & ? & Hf & ? & He & ? & ?). exists v, f, e. rewrite ex_server.
  split_and!; try done; eapply prefix_elem; eauto.
Qed.

Lemma rows_sound_kept c c' x column :
  kept c c' -> x ∈ ct_dataset_versions c -> rows_sound c x column -> rows_sound c' x column.
Proof.
  intros Hk Hx []. assert (records_of c' (xv_id x) = records_of c (xv_id x)) as Hp.
  { apply Hk. by apply elem_map. }
  by split; rewrite ?Hp.
Qed.

(** So only what a request adds has to be looked at. *)
Lemma sound_kept c c' : sound c -> kept c c' ->
  (forall v, v ∈ ct_versions c' -> v ∈ ct_versions c \/ exists compiled f, version_sound c' v compiled f) ->
  (forall d, d ∈ ct_deployments c' -> d ∈ ct_deployments c \/ deployment_sound c' d) ->
  (forall x, x ∈ ct_dataset_versions c' -> x ∈ ct_dataset_versions c \/ exists column, rows_sound c' x column) ->
  sound c'.
Proof.
  intros [Hu Hr Hv Hd Hx] Hk Hv' Hd' Hx'. split; [by apply Hk|by apply Hk|..].
  - intros v [Hin|?]%Hv'; [|done]. destruct (Hv v Hin) as (compiled & f & H). exists compiled, f.
    by eapply version_sound_kept.
  - intros d [Hin|?]%Hd'; [|done]. by eapply deployment_sound_kept, Hd.
  - intros x [Hin|?]%Hx'; [|done]. destruct (Hx x Hin) as (column & H). exists column. by eapply rows_sound_kept.
Qed.

(** ** Pins *)

(** A pin the checks let through. *)
Lemma check_pin_ok c project key x : check_pin c project key x = [] -> pinned_to c project key x.
Proof.
  unfold check_pin. destruct (dataset_of_version c x) as [d|] eqn:E; [|done].
  destruct (negb (str_eqb (ds_project d) project)) eqn:Ep; [done|].
  destruct (negb (str_eqb (ds_key d) key)) eqn:Ek; [done|]. intros _.
  apply negb_false_iff, str_eqb_eq in Ep, Ek. unfold dataset_of_version in E.
  apply bind_Some in E as (v & Hv & Hd). apply List.find_some in Hv as [Hv Hvx], Hd as [Hd Hdv].
  apply str_eqb_eq in Hvx, Hdv. apply list_elem_of_In in Hv, Hd. by exists v, d.
Qed.

(** The pins of a form are one for each key it names, each checked. *)
Lemma resolve_pins_ok c project compiled requested pins :
  resolve_dataset_pins c project compiled requested = inl pins ->
  map pn_key pins = dataset_keys compiled /\
  forall p, p ∈ pins -> pinned_to c project (pn_key p) (pn_version p).
Proof.
  unfold resolve_dataset_pins. destruct (fold_left collect_pin requested ([], [])) as [by_key twice].
  destruct (twice ++ _ ++ _ ++ _) as [|b l] eqn:E; [|done]. intros [= <-].
  apply app_eq_nil in E as [_ E]. apply app_eq_nil in E as [Hm E]. apply app_eq_nil in E as [_ Hc].
  destruct (List.filter (fun key => negb (dhas by_key key)) (dataset_keys compiled)) as [|k ks] eqn:Hf; [clear Hm|done].
  induction (dataset_keys compiled) as [|key keys IH]; [split; [done|by intros p ?%elem_of_nil]|].
  simpl in Hf, Hc |- *. destruct (dhas by_key key) eqn:Hk; [|done]. simpl in Hf.
  apply app_eq_nil in Hc as [Hc1 Hc]. destruct (IH Hf Hc) as [IH1 IH2]. clear IH.
  unfold dhas in Hk. destruct (dget by_key key) as [x|] eqn:Ex; [|done].
  simpl. split; [by f_equal|]. intros p [->|Hp]%elem_of_cons; [|by apply IH2]. by apply check_pin_ok.
Qed.

(** ** Steps that add no version and deploy nothing *)

Definition quiet (c c' : catalog) : Prop :=
  ct_versions c' = ct_versions c /\ ct_deployments c' = ct_deployments c /\
  ct_dataset_versions c' = ct_dataset_versions c.

#[local] Instance quiet_refl : Reflexive quiet.
Proof. by split. Qed.
#[local] Instance quiet_trans : Transitive quiet.
Proof. intros a b c (? & ? & ?) (? & ? & ?). split_and!; congruence. Qed.

Lemma insertion_quiet allowed add : (forall c, quiet c (add c)) -> along quiet (insertion allowed add).
Proof. intros Ha c c' r [(_ & -> & _)|[-> _]]%insertion_run; [apply Ha|done]. Qed.

Lemma insert_form_quiet f : along quiet (insert_form f).
Proof. by apply insertion_quiet. Qed.
Lemma insert_pin_quiet p : along quiet (insert_pin p).
Proof. by apply insertion_quiet. Qed.
Lemma insert_dataset_quiet d : along quiet (insert_dataset d).
Proof. by apply insertion_quiet. Qed.
Lemma insert_record_quiet r : along quiet (insert_record r).
Proof. by apply insertion_quiet. Qed.
Lemma new_ulid_quiet : along quiet (new_ulid ulid).
Proof. by intros c c' r [= <- _]. Qed.
#[local] Hint Resolve insert_form_quiet insert_pin_quiet insert_dataset_quiet insert_record_quiet
  new_ulid_quiet : steps.

Ltac service := repeat along_step.

Lemma or_new_ulid_quiet given : along quiet (or_new_ulid ulid given).
Proof. unfold or_new_ulid. service. Qed.
#[local] Hint Resolve or_new_ulid_quiet : steps.

Lemma form_row_quiet rq compiled : along quiet (form_row ulid rq compiled).
Proof. unfold form_row. service. Qed.

Lemma dataset_row_quiet rq : along quiet (dataset_row ulid rq).
Proof. unfold dataset_row. service. Qed.

Lemma create_form_quiet project key title : along quiet (create_form ulid project key title).
Proof. unfold create_form. service. Qed.

Lemma store_draft_quiet i d : along quiet (store_draft i d).
Proof. unfold store_draft. repeat along_step. by apply insertion_quiet. Qed.
#[local] Hint Resolve store_draft_quiet : steps.

Lemma save_draft_quiet now i rq : along quiet (save_draft now i rq).
Proof. unfold save_draft, get_draft. service. Qed.

(** ** Deployment *)

Lemma fold_dset_get {A B} (k : A -> pystr) (v : A -> B) l d x y :
  dget (fold_left (fun d e => dset d (k e) (v e)) l d) x = Some y ->
  (exists e, e ∈ l /\ k e = x /\ v e = y) \/ dget d x = Some y.
Proof.
  revert d. induction l as [|e l IH]; intros d; simpl; [by right|].
  intros [(e' & He & Hk & Hv)|H]%IH; [left; exists e'; split_and!; try done; by right|].
  rewrite dget_dset in H. case_decide as Hx; [|by right]. injection H as <-. left. exists e.
  split_and!; [by left|done|done].
Qed.

Lemma environments_of_get c project kind i :
  dget (environments_of c project) kind = Some i ->
  exists e, e ∈ sv_environments (ct_server c) /\ en_project e = project /\ en_kind e = kind /\ en_id e = i.
Proof.
  intros [(e & He & Hk & Hi)|H]%fold_dset_get; [|done]. apply elem_of_Lfilter in He as [He Hp].
  apply str_eqb_eq in Hp. by exists e.
Qed.

(** Deploying a version of a project adds deployments of that version to
    environments of that project. *)
Record deploys (project i : pystr) (c c' : catalog) : Prop := {
  dy_server : ct_server c' = ct_server c;
  dy_versions : ct_versions c' = ct_versions c;
  dy_dataset_versions : ct_dataset_versions c' = ct_dataset_versions c;
  dy_added : forall d, d ∈ ct_deployments c' -> d ∈ ct_deployments c \/
    (dp_version d = i /\ exists e, e ∈ sv_environments (ct_server c) /\ en_id e = dp_environment d /\
                                   en_project e = project)
}.

#[local] Instance deploys_refl project i : Reflexive (deploys project i).
Proof. intros c. split; auto. Qed.
#[local] Instance deploys_trans project i : Transitive (deploys project i).
Proof.
  intros a b c [] []. split; try congruence. intros d [H|(? & e & ? & ?)]%dy_added1; [by apply dy_added0|].
  right. split; [done|]. exists e. by rewrite <- dy_server0.
Qed.

Lemma deploy_one_deploys now c0 project i kind :
  along (fun c c' => ct_server c = ct_server c0 -> deploys project i c c')
    (deploy_one ulid now (environments_of c0 project) i kind).
Proof.
  intros c c' r H Hs. unfold deploy_one in H. destruct (dget _ kind) as [environment_id|] eqn:Ee.
  2:{ by injection H as <- _. }
  apply environments_of_get in Ee as (e & He & Hp & _ & Hi). rewrite <- Hs in He.
  st_read H. apply bind_run in H as [(already & c1 & H1 & H)|(x & H1 & _)].
  2:{ by apply scalar_same in H1 as ->. }
  apply scalar_same in H1 as ->. destruct already; [by injection H as <- _|].
  apply bind_run in H as [(j & c1 & [= <- <-] & H)|(x & [=] & _)].
  apply insertion_run in H as [(_ & -> & _)|[-> _]]; [|split; auto]. split; simpl; try done.
  intros d [Hd|Hd%list_elem_of_singleton]%elem_of_app; [by left|]. subst d. right. simpl. split; [done|]. by exists e.
Qed.

Lemma deploy_version_deploys now project i kinds : along (deploys project i) (deploy_version ulid now project i kinds).
Proof.
  intros c c' r H. unfold deploy_version in H. st_read H.
  assert (forall kinds c1 c2 r', ct_server c1 = ct_server c ->
            each kinds (deploy_one ulid now (environments_of c project) i) c1 = (c2, r') -> deploys project i c1 c2) as He.
  { clear. induction kinds as [|k kinds IH]; intros c1 c2 r' Hs E; [by injection E as <- _|]. simpl in E.
    apply bind_run in E as [([] & c3 & H1 & E)|(x & H1 & _)].
    - apply deploy_one_deploys in H1. specialize (H1 Hs). etrans; [exact H1|]. eapply IH; [|exact E].
      by rewrite (dy_server _ _ _ _ H1).
    - apply deploy_one_deploys in H1. by apply H1. }
  apply bind_run in H as [([] & c1 & H1 & H)|(x & H1 & _)].
  - injection H as <- _. by eapply He in H1.
  - by eapply He in H1.
Qed.

(** ** Each request *)

Lemma sound_quiet c c' : sound c -> kept c c' -> quiet c c' -> sound c'.
Proof. intros Hs Hk (Hv & Hd & Hx). eapply sound_kept; [done..|rewrite Hv|rewrite Hd|rewrite Hx]; auto. Qed.

Lemma deployed_sound c c' project i v f :
  deploys project i c c' -> kept c c' -> v ∈ ct_versions c -> vr_id v = i -> f ∈ ct_forms c -> fm_id f = vr_form v ->
  fm_project f = project -> forall d, d ∈ ct_deployments c' -> d ∈ ct_deployments c \/ deployment_sound c' d.
Proof.
  intros Hd Hk Hv Hi Hf Hfv Hp d [?|(Hdv & e & He & Hen & Hep)]%(dy_added _ _ _ _ Hd); [by left|right].
  exists v, f, e. rewrite (dy_server _ _ _ _ Hd), (dy_versions _ _ _ _ Hd). split_and!; try done; try congruence.
  eapply prefix_elem; [apply Hk|done].
Qed.

Lemma republish_sound now rq compiled f pins v c c' r :
  sound c -> f ∈ ct_forms c -> fm_project f = rq_project rq -> v ∈ ct_versions c -> vr_form v = fm_id f ->
  republish ulid sha256_hex utf8 now rq compiled f pins v c = (c', inl r) -> sound c'.
Proof.
  intros Hs Hf Hp Hv Hfv H. unfold republish in H. run_check H Hsum. run_read H. run_check H Hmoved.
  run_step H kinds c1. injection H as <- _. rename E into H.
  pose proof (deploy_version_kept _ _ _ _ _ _ _ _ H) as Hk.
  pose proof (deploy_version_deploys _ _ _ _ _ _ _ H) as Hd.
  eapply sound_kept; [done|done| | |].
  - rewrite (dy_versions _ _ _ _ Hd). auto.
  - by eapply deployed_sound.
  - rewrite (dy_dataset_versions _ _ _ _ Hd). auto.
Qed.

Lemma insert_pins_run i pins c c' u :
  insert_pins i pins c = (c', inl u) ->
  ct_pins c' = ct_pins c ++ map (fun p => PinRow i (pn_key p) (pn_version p)) pins /\ quiet c c' /\
  ct_forms c' = ct_forms c /\ ct_datasets c' = ct_datasets c.
Proof.
  unfold insert_pins. revert c. induction pins as [|p pins IH]; intros c H; simpl in H.
  { injection H as <- _. by rewrite app_nil_r. }
  run_step H a c1. apply insertion_inl in E as [_ ->]. destruct (IH _ H) as (Hp & (? & ? & ?) & ? & ?). simpl in *.
  split_and!; try done. by rewrite Hp, <- app_assoc.
Qed.

Lemma pins_of_missing c i : referenced c -> i ∉ map vr_id (ct_versions c) -> pins_of c i = [].
Proof.
  intros Hr Hi. apply filter_none. intros p Hp. apply str_eqb_ne. intros <-. apply Hi. by apply Hr.
Qed.

Lemma publish_new_sound now rq compiled f pins c c' r :
  sound c -> check_publishable rg (rq_form rq) = inl compiled -> import_errors (rq_import rq) = [] ->
  f ∈ ct_forms c -> fm_project f = rq_project rq -> fm_key f = form_id compiled ->
  map pn_key pins = dataset_keys compiled ->
  (forall p, p ∈ pins -> pinned_to c (rq_project rq) (pn_key p) (pn_version p)) ->
  publish_new ulid sha256_hex utf8 now rq compiled f pins c = (c', inl r) -> sound c'.
Proof.
  intros Hs Hgate Himp Hf Hfp Hfk Hkeys Hpinned H.
  pose proof (publish_new_kept _ _ _ _ _ _ _ _ _ _ _ H) as Hkept. unfold publish_new in H.
  run_step H i c1. apply or_new_ulid_run in E as (n & i' & -> & [= <-]).
  run_step H u c2. apply insertion_inl in E as [Hok ->]. rewrite !andb_true_iff, !fresh_true in Hok.
  destruct Hok as [[[Hfresh _] _] _]. simpl in Hfresh. run_step H u' c3.
  apply insert_pins_run in E as (Hpins & (Hv3 & Hd3 & Hx3) & Hf3 & _). simpl in *.
  run_step H kinds c4. injection H as <- _. rename E into H.
  pose proof (deploy_version_kept _ _ _ _ _ _ _ _ H) as Hk4.
  pose proof (deploy_version_deploys _ _ _ _ _ _ _ H) as Hd4.
  set (v := Version _ _ _ _ _ _ _ _) in *.
  assert (v ∈ ct_versions c3) as Hv by (rewrite Hv3; apply elem_of_app; right; by left).
  assert (f ∈ ct_forms c4) as Hf4 by (eapply prefix_elem; [apply Hkept|done]).
  assert (pins_of c4 i = map (fun p => PinRow i (pn_key p) (pn_version p)) pins) as Hpi.
  { rewrite (kp_pins _ _ Hk4) by (by apply (elem_map vr_id _ v)). unfold pins_of. rewrite Hpins, List.filter_app.
    fold (pins_of c i). rewrite pins_of_missing by (done || apply Hs). simpl. apply filter_all.
    intros p (q & -> & _)%list_elem_of_fmap. apply str_eqb_refl. }
  eapply sound_kept; [exact Hs|exact Hkept| | |].
  - intros w. rewrite (dy_versions _ _ _ _ Hd4), Hv3. intros [Hw|Hw%list_elem_of_singleton]%elem_of_app; [by left|right].
    subst w. exists compiled, f. split; try done; cbn [vr_id vr_form v].
    + by rewrite Hpi, map_map.
    + rewrite Hpi. intros p (q & -> & Hq)%list_elem_of_fmap. simpl. rewrite Hfp.
      eapply pinned_to_kept; [exact Hkept|]. by apply Hpinned.
  - intros d Hd. eapply deployed_sound in Hd; [|exact Hd4|exact Hk4|exact Hv|done|rewrite Hf3; exact Hf|done|done].
    by rewrite Hd3 in Hd.
  - rewrite (dy_dataset_versions _ _ _ _ Hd4), Hx3. auto.
Qed.

(** The form a version goes under is there, by the name it gives. *)
Lemma form_row_inl rq compiled c c' f :
  form_row ulid rq compiled c = (c', inl f) ->
  f ∈ ct_forms c' /\ fm_project f = rq_project rq /\ fm_key f = form_id compiled.
Proof.
  intros H. unfold form_row in H. run_read H. run_scalar H o Ho. destruct o as [g|].
  - injection H as <- <-. assert (g ∈ form_named c (rq_project rq) (form_id compiled)) as Hg by (rewrite Ho; by left).
    apply elem_of_Lfilter in Hg as [Hg [Hp%str_eqb_eq Hk%str_eqb_eq]%andb_true_iff]. done.
  - run_step H i c1. destruct (title_of _ _ _) as [title|e]; [|done]. run_step H u c2. injection H as <- <-.
    apply insertion_inl in E0 as [_ ->]. simpl. split; [apply elem_of_app; right; by left|done].
Qed.

Lemma publish_version_sound now rq c c' r :
  sound c -> publish_version ulid sha256_hex utf8 rg now rq c = (c', inl r) -> sound c'.
Proof.
  intros Hs H. unfold publish_version in H.
  destruct (check_publishable rg (rq_form rq)) as [compiled|[v|e]] eqn:Hgate; [|done..].
  run_read H. unfold id in *. destruct (resolve_dataset_pins _ _ _ _) as [pins|v] eqn:Hpins; [|done].
  apply resolve_pins_ok in Hpins as [Hkeys Hpinned]. run_check H Himp. apply bool_decide_eq_true in Himp.
  run_step H f c1. pose proof (form_row_kept _ _ _ _ _ _ E) as Hk1. pose proof (form_row_quiet _ _ _ _ _ E) as Hq1.
  apply form_row_inl in E as (Hf & Hfp & Hfk). pose proof (sound_quiet _ _ Hs Hk1 Hq1) as Hs1.
  run_check H Hw. run_read H. run_scalar H o Ho. destruct o as [v|].
  - assert (v ∈ version_numbered c1 (fm_id f) (form_version_number compiled)) as Hv by (rewrite Ho; by left).
    apply elem_of_Lfilter in Hv as [Hv [Hvf%str_eqb_eq _]%andb_true_iff]. by eapply republish_sound.
  - eapply publish_new_sound; [exact Hs1|done..| |exact H]. intros p Hp. eapply pinned_to_kept; eauto.
Qed.

(** ** Datasets *)

Lemma each_records l c c' u :
  each l insert_record c = (c', inl u) -> ct_records c' = ct_records c ++ l /\ quiet c c'.
Proof.
  revert c. induction l as [|q l IH]; intros c H; simpl in H; [injection H as <- _; by rewrite app_nil_r|].
  run_step H a c1. apply insertion_inl in E as [_ ->]. destruct (IH _ H) as (Hp & ? & ? & ?). simpl in *.
  split; [|by split_and!]. by rewrite Hp, <- app_assoc.
Qed.

(** The records made of rows and of what is computed from each. *)
Lemma records_from_rows (i : pystr) (n : Z) (rows : list (odict value)) (key digest : odict value -> pystr) :
  let l := records_from i n rows (map (fun row => (key row, digest row)) rows) in
  map xr_data l = rows /\ map xr_ordinal l = seqZ n (Z.of_nat (length rows)) /\
  forall r, r ∈ l -> xr_version r = i /\ xr_key r = key (xr_data r) /\ xr_hash r = digest (xr_data r) /\ xr_data r ∈ rows.
Proof.
  revert n. induction rows as [|row rows IH]; intros n; cbn zeta in *; simpl; [split_and!; [done|done|by intros r ?%elem_of_nil]|].
  destruct (IH (n + 1)) as (H1 & H2 & H3). split_and!.
  - by f_equal.
  - rewrite H2, (seqZ_cons n) by lia. f_equal. f_equal; lia.
  - intros r [->|Hr]%elem_of_cons; simpl; [split_and!; try done; by left|].
    destruct (H3 r Hr) as (? & ? & ? & ?). split_and!; try done. by right.
Qed.

Lemma records_of_missing c i : referenced c -> i ∉ map xv_id (ct_dataset_versions c) -> records_of c i = [].
Proof.
  intros Hr Hi. apply filter_none. intros p Hp. apply str_eqb_ne. intros <-. apply Hi. by apply Hr.
Qed.

Lemma publish_numbered_sound now rq d warnings number c c' r :
  sound c -> (forall row, row ∈ dq_rows rq -> strip (cell_str (vget row (dq_key_column rq))) <> []) ->
  publish_numbered ulid sha256_hex utf8 now rq d
    (map (fun row => (cell_str (vget row (dq_key_column rq)), row_hash sha256_hex (canonical_json utf8) row)) (dq_rows rq))
    warnings number c = (c', inl r) -> sound c'.
Proof.
  intros Hs Hkeys H. pose proof (publish_numbered_kept _ _ _ _ _ _ _ _ _ _ _ _ H) as Hkept.
  unfold publish_numbered in H. run_check H Hw. run_read H. run_scalar H o Ho. destruct o as [v|].
  { destruct (str_eqb _ _); [by injection H as <- _|done]. }
  apply bind_inl in H as (i & c1 & [= <- <-] & H). run_step H u c2. apply insertion_inl in E as [Hok ->].
  rewrite !andb_true_iff, !fresh_true in Hok. destruct Hok as [[Hfresh _] _]. simpl in Hfresh.
  run_step H u' c3. injection H as <- _. apply each_records in E as (Hrec & Hv3 & Hd3 & Hx3). simpl in *.
  eapply sound_kept; [exact Hs|exact Hkept|rewrite Hv3; auto|rewrite Hd3; auto|]. rewrite Hx3.
  intros x [Hx|Hx%list_elem_of_singleton]%elem_of_app; [by left|right]. exists (dq_key_column rq).
  assert (records_of c3 (xv_id x) = records_from (ulid (ct_minted c)) 0 (dq_rows rq)
    (map (fun row => (cell_str (vget row (dq_key_column rq)), row_hash sha256_hex (canonical_json utf8) row)) (dq_rows rq)))
    as Hro.
  { subst x. unfold records_of. simpl. rewrite Hrec, List.filter_app.
    fold (records_of c (ulid (ct_minted c))). rewrite records_of_missing by (done || apply Hs). simpl. apply filter_all.
    intros q Hq%records_from_version. rewrite Hq. apply str_eqb_refl. }
  destruct (records_from_rows (ulid (ct_minted c)) 0 (dq_rows rq) (fun row => cell_str (vget row (dq_key_column rq)))
              (row_hash sha256_hex (canonical_json utf8))) as (Hdata & Hord & Hrow).
  split; rewrite Hro; subst x; simpl.
  - by rewrite <- (length_map xr_data), Hdata.
  - done.
  - rewrite Hdata. done.
  - intros q Hq. destruct (Hrow q Hq) as (_ & Hk & Hh & Hin). rewrite Hk. split_and!; [done| |done]. by apply Hkeys.
Qed.

Lemma publish_dataset_sound now rq c c' r :
  sound c -> publish_dataset_version ulid sha256_hex utf8 casefold now rq c = (c', inl r) -> sound c'.
Proof.
  intros Hs H. unfold publish_dataset_version in H. destruct (dq_rows rq) as [|row0 rows0] eqn:Hrows; [done|].
  rewrite <- Hrows in H. clear Hrows. destruct (refused _) eqn:Href; [done|].
  apply check_keys_accepts in Href as [Hkeys _]. unfold row_keys in Hkeys. rewrite Forall_map, Forall_forall in Hkeys.
  run_step H d c1. pose proof (dataset_row_kept _ _ _ _ _ E) as Hk1.
  pose proof (sound_quiet _ _ Hs Hk1 (dataset_row_quiet _ _ _ _ E)) as Hs1. run_check H Hnan.
  destruct (dq_version rq) as [number|]; [by eapply publish_numbered_sound|]. run_read H.
  destruct (newest_version c1 (ds_id d)) as [v|]; [|by eapply publish_numbered_sound].
  destruct (str_eqb _ _); [by injection H as <- _|by eapply publish_numbered_sound].
Qed.

Lemma serve_sound c at_ : sound c -> sound (serve ulid sha256_hex utf8 casefold rg c at_).
Proof.
  intros Hs. destruct at_ as [now [project key title|rq|i rq|rq]]; unfold serve; simpl;
    match goal with |- sound (?m c).1 => destruct (m c) as [c' r] eqn:E end; simpl;
    apply atomically_run in E as [(a & -> & E)|[-> _]]; try done.
  - eapply sound_quiet; [done|by eapply create_form_kept|by eapply create_form_quiet].
  - by eapply publish_version_sound.
  - eapply sound_quiet; [done|by eapply save_draft_kept|by eapply save_draft_quiet].
  - by eapply publish_dataset_sound.
Qed.

Lemma serve_all_sound requests c : sound c -> sound (fold_left (serve ulid sha256_hex utf8 casefold rg) requests c).
Proof. revert c. induction requests as [|rq requests IH]; intros c Hs; simpl; [done|]. apply IH. by apply serve_sound. Qed.

End Sound.
