(* ===== verification/DeltaFacts.v ===== *)
(** * Deployments, manifests, pages of rows and deltas

    Rows found by a unique key, what a successful publication stored, that
    deploying again adds nothing, and the joins behind a device's manifests;
    a client following the cursor of [dataset_rows_page] or of a delta
    ([follow]), the device's copy of a version ([apply_page]), and what the
    pages add up to. *)

From Stdlib Require Import Sorting.Sorted.
From S2P Require Import Prelude PyStr Value PyJson Expr Expression Compile DatasetKeys CaseKey Surface PublishGate.
From S2P Require Import Server Push Catalog Forms Entities CatalogFacts CatalogSound PyNum SurfaceFacts.

(** ** Looking rows up by a unique key *)

Lemma filter_key {A B} (key : A -> B) (p : A -> bool) (l : list A) x :
  NoDup (map key l) -> x ∈ l -> (forall y, p y = true <-> key y = key x) -> List.filter p l = [x].
Proof.
  intros Hn Hx Hp. induction l as [|y l IH]; simpl in *; [by inversion Hx|]. apply NoDup_cons in Hn as [Hy Hn].
  apply elem_of_cons in Hx as [->|Hx].
  - rewrite (proj2 (Hp y)) by done. f_equal. apply filter_none. intros z Hz. apply not_true_is_false.
    intros E%Hp. apply Hy. rewrite <- E. by apply elem_map.
  - destruct (p y) eqn:E; [|by apply IH]. apply Hp in E. destruct Hy. rewrite E. by apply elem_map.
Qed.

Lemma filter_unique {A} (key : A -> pystr) (l : list A) x :
  NoDup (map key l) -> x ∈ l -> List.filter (fun y => str_eqb (key y) (key x)) l = [x].
Proof. intros Hn Hx. eapply filter_key; [done..|]. intros y. apply str_eqb_eq. Qed.

(** Two rows with one key are one row. *)
Lemma same_key {A B} (key : A -> B) (l : list A) x y : NoDup (map key l) -> x ∈ l -> y ∈ l -> key y = key x -> y = x.
Proof.
  intros Hn [i Hi]%list_elem_of_lookup [j Hj]%list_elem_of_lookup E. assert (j = i) as ->; [|congruence].
  eapply NoDup_lookup; [exact Hn|..]; rewrite list_lookup_fmap; [rewrite Hj; simpl; by rewrite E|by rewrite Hi].
Qed.

Lemma find_unique {A} (key : A -> pystr) (l : list A) x :
  NoDup (map key l) -> x ∈ l -> List.find (fun y => str_eqb (key y) (key x)) l = Some x.
Proof.
  induction l as [|y l IH]; simpl; intros Hn Hx; [by inversion Hx|]. apply NoDup_cons in Hn as [Hy Hn].
  apply elem_of_cons in Hx as [->|Hx]; [by rewrite str_eqb_refl|].
  rewrite str_eqb_ne by (intros E; apply Hy; rewrite E; by apply elem_map). by apply IH.
Qed.

Lemma find_key {A} (key : A -> pystr) (l : list A) i x :
  List.find (fun y => str_eqb (key y) i) l = Some x -> x ∈ l /\ key x = i.
Proof. intros [Hx E]%List.find_some. apply str_eqb_eq in E. split; [by apply list_elem_of_In|done]. Qed.

(** Running a step whose outcome is known, or which evaluates to it. *)
Lemma bind_run_ok {S E A B} (m : ST S E A) (f : A -> ST S E B) s s1 a : m s = (s1, inl a) -> (m ≫= f) s = f a s1.
Proof. unfold mbind, ST_bind. by intros ->. Qed.

Ltac read_ok := erewrite bind_run_ok; [|reflexivity].

Section Deploying.
Context {env : PyEnv} (ulid : N -> pystr) (sha256_hex : list N -> pystr) (utf8 : pystr -> list N) (rg : registry).

Abbreviation checksum_of := (ir_checksum sha256_hex utf8) (only parsing).

(** ** Deploying again *)

Lemma live_snoc c d e i :
  live_deployments (with_deployments (ct_deployments c ++ [d]) c) e i =
  live_deployments c e i ++ List.filter (fun d => str_eqb (dp_environment d) e && str_eqb (dp_version d) i &&
                                                 negb (dp_retired d)) [d].
Proof. unfold live_deployments. simpl. apply List.filter_app. Qed.

(** After a kind was deployed its environment has one live deployment, and
    those that had one keep it. *)
Lemma deploy_one_live now environments i kind c c' u :
  deploy_one ulid now environments i kind c = (c', inl u) ->
  (forall e, dget environments kind = Some e -> exists d, live_deployments c' e i = [d]) /\
  (forall e d, live_deployments c e i = [d] -> live_deployments c' e i = [d]).
Proof.
  unfold deploy_one. intros H. destruct (dget environments kind) as [e|] eqn:Ee.
  2:{ injection H as <- _. by split. }
  run_read H. run_scalar H o Ho. destruct o as [d|].
  { injection H as <- _. split; [|done]. intros ? [= <-]. by exists d. }
  apply bind_inl in H as (j & c1 & [= <- <-] & H). apply insertion_inl in H as [_ ->].
  match goal with |- context [ with_deployments (_ ++ [?d]) ?c1] => set (new := d); set (cm := c1) end.
  change (live_deployments c e i) with (live_deployments cm e i) in Ho. split.
  - intros ? [= <-]. exists new. rewrite live_snoc, Ho. simpl. by rewrite !str_eqb_refl.
  - intros e' d Hd. change (live_deployments c e' i) with (live_deployments cm e' i) in Hd. rewrite live_snoc, Hd.
    simpl. rewrite (str_eqb_ne e e'); [done|]. intros <-. rewrite Hd in Ho. done.
Qed.

Lemma deploy_all_live now environments i kinds c c' u :
  each kinds (deploy_one ulid now environments i) c = (c', inl u) ->
  (forall kind e, kind ∈ kinds -> dget environments kind = Some e -> exists d, live_deployments c' e i = [d]) /\
  (forall e d, live_deployments c e i = [d] -> live_deployments c' e i = [d]).
Proof.
  revert c. induction kinds as [|k kinds IH]; intros c H; simpl in H.
  { injection H as <- _. split; [|done]. by intros kind e ?%elem_of_nil. }
  run_step H a c1. apply deploy_one_live in E as [H1 H2]. destruct (IH _ H) as [H3 H4]. split.
  - intros kind e [->|Hk]%elem_of_cons Hd; [|by eapply H3]. destruct (H1 e Hd) as [d ?]. exists d. by apply H4.
  - intros e d Hd. by apply H4, H2.
Qed.

Lemma deploy_all_again now environments i kinds c :
  (forall kind e, kind ∈ kinds -> dget environments kind = Some e -> exists d, live_deployments c e i = [d]) ->
  each kinds (deploy_one ulid now environments i) c = (c, inl tt).
Proof.
  induction kinds as [|k kinds IH]; intros Hl; simpl; [done|].
  assert (deploy_one ulid now environments i k c = (c, inl tt)) as Hk.
  { unfold deploy_one. destruct (dget environments k) as [e|] eqn:Ee; [|done].
    destruct (Hl k e ltac:(by left) Ee) as [d Hd]. unfold mbind, ST_bind, asks. by rewrite Hd. }
  unfold mbind, ST_bind. rewrite Hk. apply IH. intros kind e Hin. apply Hl. by right.
Qed.

Lemma deploy_version_again now now' project i kinds c c' ds :
  deploy_version ulid now project i kinds c = (c', inl ds) ->
  deploy_version ulid now' project i kinds c' = (c', inl ds).
Proof.
  intros H. pose proof (deploy_version_deploys _ _ _ _ _ _ _ _ H) as Hd. unfold deploy_version in *. run_read H.
  run_step H u c1. injection H as <- <-. apply deploy_all_live in E as [Hl _].
  assert (environments_of c1 project = environments_of c project) as He.
  { unfold environments_of. by rewrite (dy_server _ _ _ _ Hd). }
  unfold mbind, ST_bind, asks. rewrite He, deploy_all_again; done.
Qed.

(** ** What a publication stored *)

(** The row, the answer and the deployments of a successful publication under
    a form and pins. *)
Record stored_as (now : Z) (rq : publish_request) (compiled : cform) (f : form) (pins : list dataset_pin)
    (c' : catalog) (r : publish_response) (v : version) : Prop := {
  sa_row : v ∈ ct_versions c';
  sa_form : vr_form v = fm_id f;
  sa_number : vr_version v = form_version_number compiled;
  sa_checksum : vr_checksum v = checksum_of (rq_form rq);
  sa_moved : moved_pins (stored_dataset_pins c' (vr_id v)) pins = [];
  sa_deployed : exists c3, deploy_version ulid now (rq_project rq) (vr_id v) (rq_deploy_to rq) c3 =
                           (c', inl (pb_deployments r));
  sa_answer : r = PublishVersionResponse (vr_id v) (fm_key f) (vr_version v) (vr_checksum v) (vr_published_at v)
                    (pb_created r) (f_warnings compiled) (pb_deployments r) pins
}.

Lemma dataset_keys_nodup f : NoDup (dataset_keys f).
Proof.
  unfold dataset_keys. match goal with |- NoDup (fold_left ?g _ []) =>
    enough (forall l acc, NoDup acc -> NoDup (fold_left g l acc)) as H by (apply H; constructor) end.
  clear. intros l. induction l as [|i l IH]; intros acc Hacc; simpl; [done|]. apply IH.
  destruct (dget (f_fields f) i) as [c|]; [|done]. destruct (dataset_key_of c) as [k|]; [|done].
  case_bool_decide; [done|]. apply NoDup_app. split_and!; [done| |apply NoDup_singleton].
  intros x Hx ->%list_elem_of_singleton. done.
Qed.

(** Pins that were stored are not moved by themselves. *)
Lemma own_pins_unmoved i pins :
  NoDup (map pn_key pins) ->
  moved_pins (fold_left (fun d p => dset d (pr_key p) (pr_dataset_version p))
                (map (fun p => PinRow i (pn_key p) (pn_version p)) pins) []) pins = [].
Proof.
  intros Hn. unfold moved_pins. rewrite (filter_none _ pins); [done|]. intros p Hp.
  destruct (dget _ (pn_key p)) as [x|] eqn:Ex; [|done].
  apply fold_dset_get in Ex as [(q & (q' & -> & Hq)%list_elem_of_fmap & Hk & <-)|Ex]; [|done]. simpl in *.
  by rewrite (same_key _ _ _ _ Hn Hp Hq Hk), str_eqb_refl.
Qed.

Lemma publish_new_stored now rq compiled f pins c c' r :
  referenced c -> map pn_key pins = dataset_keys compiled ->
  publish_new ulid sha256_hex utf8 now rq compiled f pins c = (c', inl r) ->
  exists v, stored_as now rq compiled f pins c' r v.
Proof.
  intros Href Hkeys H. unfold publish_new in H. run_step H i c1. apply or_new_ulid_run in E as (n & i' & -> & [= <-]).
  run_step H u c2. apply insertion_inl in E as [Hok ->]. rewrite !andb_true_iff, !fresh_true in Hok.
  destruct Hok as [[[Hfresh _] _] _]. simpl in Hfresh. run_step H u' c3.
  apply insert_pins_run in E as (Hpins & (Hv3 & Hd3 & Hx3) & Hf3 & _). simpl in *.
  run_step H kinds c4. injection H as <- <-. rename E into H. set (v := Version _ _ _ _ _ _ _ _) in *.
  assert (v ∈ ct_versions c3) as Hv by (rewrite Hv3; apply elem_of_app; right; by left).
  exists v. split; try done.
  - by rewrite (dy_versions _ _ _ _ (deploy_version_deploys _ _ _ _ _ _ _ _ H)).
  - unfold stored_dataset_pins. fold (pins_of c4 (vr_id v)).
    rewrite (kp_pins _ _ (deploy_version_kept _ _ _ _ _ _ _ _ H)) by by apply elem_map.
    unfold pins_of. rewrite Hpins, List.filter_app. fold (pins_of c (vr_id v)). rewrite pins_of_missing by done.
    cbn [app]. rewrite filter_all.
    + apply own_pins_unmoved. rewrite Hkeys. apply dataset_keys_nodup.
    + intros p (q & -> & _)%list_elem_of_fmap. apply str_eqb_refl.
  - by exists c3.
Qed.

Lemma republish_stored now rq compiled f pins v c c' r :
  v ∈ ct_versions c -> vr_form v = fm_id f -> vr_version v = form_version_number compiled ->
  republish ulid sha256_hex utf8 now rq compiled f pins v c = (c', inl r) ->
  stored_as now rq compiled f pins c' r v.
Proof.
  intros Hv Hf Hn H. unfold republish in H. run_check H Hsum. apply str_eqb_eq in Hsum. run_read H.
  run_check H Hmoved. apply bool_decide_eq_true in Hmoved. run_step H kinds c1. injection H as <- <-. rename E into H.
  split; try done.
  - by rewrite (dy_versions _ _ _ _ (deploy_version_deploys _ _ _ _ _ _ _ _ H)).
  - unfold stored_dataset_pins in *. fold (pins_of c1 (vr_id v)).
    rewrite (kp_pins _ _ (deploy_version_kept _ _ _ _ _ _ _ _ H)) by by apply elem_map. done.
  - by exists c.
Qed.

(** Publishing leaves the datasets alone. *)
Definition same_data (c c' : catalog) : Prop :=
  ct_datasets c' = ct_datasets c /\ ct_dataset_versions c' = ct_dataset_versions c.

#[local] Instance same_data_refl : Reflexive same_data.
Proof. by split. Qed.
#[local] Instance same_data_trans : Transitive same_data.
Proof. intros a b c [] []. split; congruence. Qed.

Lemma insertion_same_data allowed add : (forall c, same_data c (add c)) -> along same_data (insertion allowed add).
Proof. intros Ha c c' r [(_ & -> & _)|[-> _]]%insertion_run; [apply Ha|done]. Qed.

Lemma publish_version_same_data now rq : along same_data (publish_version ulid sha256_hex utf8 rg now rq).
Proof.
  unfold publish_version, form_row, republish, publish_new, insert_pins, deploy_version, deploy_one, or_new_ulid.
  repeat first [along_step | by apply insertion_same_data | by intros ? ? ? [= <- _]].
Qed.

(** A successful publication, whole. *)
Lemma publish_version_stored now rq c c' r :
  referenced c -> publish_version ulid sha256_hex utf8 rg now rq c = (c', inl r) ->
  exists compiled pins f v,
    check_publishable rg (rq_form rq) = inl compiled /\
    resolve_dataset_pins c (rq_project rq) compiled (rq_datasets rq) = inl pins /\
    import_errors (rq_import rq) = [] /\ int4 (form_version_number compiled) = true /\
    f ∈ ct_forms c' /\ fm_project f = rq_project rq /\ fm_key f = form_id compiled /\
    stored_as now rq compiled f pins c' r v.
Proof.
  intros Hr H. unfold publish_version in H.
  destruct (check_publishable rg (rq_form rq)) as [compiled|[v|e]] eqn:Hgate; [|done..].
  run_read H. unfold id in *. destruct (resolve_dataset_pins _ _ _ _) as [pins|v] eqn:Hpins; [|done].
  pose proof (proj1 (resolve_pins_ok _ _ _ _ _ Hpins)) as Hkeys.
  run_check H Himp. apply bool_decide_eq_true in Himp. run_step H f c1.
  pose proof (form_row_kept _ _ _ _ _ _ E) as Hk1. apply form_row_inl in E as (Hf & Hfp & Hfk).
  assert (referenced c1) as Hr1 by by apply Hk1. run_check H Hw. run_read H. run_scalar H o Ho.
  assert (forall c2, kept c1 c2 -> f ∈ ct_forms c2) as Hf2 by (intros c2 Hk; eapply prefix_elem; [apply Hk|done]).
  destruct o as [v|].
  - assert (v ∈ version_numbered c1 (fm_id f) (form_version_number compiled)) as Hv by (rewrite Ho; by left).
    apply elem_of_Lfilter in Hv as [Hv [Hvf%str_eqb_eq Hn%Z.eqb_eq]%andb_true_iff].
    exists compiled, pins, f, v. split_and!; try done; [|by eapply republish_stored].
    apply Hf2. assert (along kept (republish ulid sha256_hex utf8 now rq compiled f pins v)) as Ha; [|by eapply Ha].
    unfold republish. pose proof (deploy_version_kept ulid). repeat along_step.
  - pose proof (publish_new_kept _ _ _ _ _ _ _ _ _ _ _ H) as Hk2.
    apply publish_new_stored in H as [v Hst]; [|done..]. exists compiled, pins, f, v. split_and!; auto.
Qed.

(** ** Publishing again *)

Lemma resolve_pins_same c c' project compiled requested :
  same_data c c' -> resolve_dataset_pins c' project compiled requested = resolve_dataset_pins c project compiled requested.
Proof.
  intros [Hd Hv]. unfold resolve_dataset_pins, check_pin, dataset_of_version. by rewrite Hd, Hv.
Qed.

Lemma form_named_unique c f : unique c -> f ∈ ct_forms c -> form_named c (fm_project f) (fm_key f) = [f].
Proof.
  intros Hu Hf. apply (filter_key form_name); [apply Hu|done|]. intros y.
  rewrite andb_true_iff, !str_eqb_eq. unfold form_name. split; [by intros [-> ->]|by intros [= -> ->]].
Qed.

Lemma version_numbered_unique c v : unique c -> v ∈ ct_versions c -> version_numbered c (vr_form v) (vr_version v) = [v].
Proof.
  intros Hu Hv. apply (filter_key version_number); [apply Hu|done|]. intros y.
  rewrite andb_true_iff, str_eqb_eq, Z.eqb_eq. unfold version_number. split; [by intros [-> ->]|by intros [= -> ->]].
Qed.

Lemma publish_again now now' rq c c' r :
  unique c -> referenced c -> publish_version ulid sha256_hex utf8 rg now rq c = (c', inl r) ->
  publish_version ulid sha256_hex utf8 rg now' rq c' =
    (c', inl (PublishVersionResponse (pb_id r) (pb_form_key r) (pb_version r) (pb_checksum r) (pb_published_at r)
                false (pb_warnings r) (pb_deployments r) (pb_datasets r))).
Proof.
  intros Hu Hr H. pose proof (publish_version_kept _ _ _ _ _ _ _ _ _ H) as Hk.
  pose proof (publish_version_same_data _ _ _ _ _ H) as Hsame. assert (unique c') as Hu' by by apply Hk.
  apply publish_version_stored in H as (compiled & pins & f & v & Hgate & Hpins & Himp & Hw & Hf & Hp & Hfk & Hsa); [|done].
  destruct Hsa as [Hv Hvf Hn Hsum Hmoved (c3 & Hdep) Hans]. apply deploy_version_again with (now' := now') in Hdep.
  assert (form_row ulid rq compiled c' = (c', inl f)) as Hform.
  { unfold form_row. rewrite <- Hp, <- Hfk. read_ok. rewrite form_named_unique by done. by read_ok. }
  unfold publish_version. rewrite Hgate. read_ok. unfold id. rewrite (resolve_pins_same c), Hpins by done.
  rewrite Himp. read_ok. rewrite (bind_run_ok _ _ _ _ _ Hform), Hw. read_ok. read_ok.
  rewrite <- Hvf, <- Hn, version_numbered_unique by done. read_ok. unfold republish. rewrite Hsum, str_eqb_refl.
  read_ok. read_ok. rewrite Hmoved. read_ok. rewrite (bind_run_ok _ _ _ _ _ Hdep), Hans. cbn. by rewrite <- Hsum.
Qed.
End Deploying.

(** ** The client *)

(** Page after page until one has no cursor; [None] when a page is refused or
    the fuel runs out. *)
Fixpoint follow {P} (fuel : nat) (fetch : option pystr -> option (P * option pystr)) (cursor : option pystr)
    : option (list P) :=
  match fuel with
  | O => None
  | S n =>
      match fetch cursor with
      | None => None
      | Some (page, None) => Some [page]
      | Some (page, Some next) => (page ::.) <$> follow n fetch (Some next)
      end
  end.

(** A device's copy of a dataset: rows by key, the key being the cell of the
    key column. *)
Definition apply_page (column : pystr) (held : odict (odict value)) (page : list (odict value) * list pystr)
    : odict (odict value) :=
  fold_left dpop page.2 (fold_left (fun h row => dset h (cell_str (vget row column)) row) page.1 held).

Definition held_rows (rows : list dataset_record) : odict (odict value) :=
  fold_left (fun h r => dset h (xr_key r) (xr_data r)) rows [].

(** ** Cursors *)

Lemma parse_int_nat z : 0 <= z -> parse_int (str_Z z) = Some z /\ str_Z z <> [].
Proof.
  intros Hz. assert (str_Z z = str_N (Z.to_N z)) as ->.
  { unfold str_Z. destruct (Z.ltb_spec z 0); [lia|done]. }
  destruct (str_N_spec (Z.to_N z)) as (Hval & Hd & Hne). split; [|done].
  rewrite parse_int_digits; [rewrite Hval, Z2N.id by lia; done| |done].
  eapply Forall_impl; [exact Hd|]. intros c. apply is_digit_ascii.
Qed.

Lemma filter_past {A} (p : A -> bool) l1 l2 :
  (forall x, x ∈ l1 -> p x = false) -> (forall x, x ∈ l2 -> p x = true) -> List.filter p (l1 ++ l2) = l2.
Proof. intros H1 H2. by rewrite List.filter_app, (filter_none p l1), (filter_all p l2). Qed.

Lemma sorted_app {A} (R : A -> A -> Prop) l1 l2 x y :
  StronglySorted R (l1 ++ l2) -> x ∈ l1 -> y ∈ l2 -> R x y.
Proof.
  induction l1 as [|z l1 IH]; intros Hs Hx Hy; [by inversion Hx|]. simpl in Hs. inversion Hs as [|? ? Hs' Hall].
  apply elem_of_cons in Hx as [->|Hx]; [|by apply IH]. rewrite List.Forall_forall in Hall. apply Hall.
  apply in_or_app. right. by apply list_elem_of_In.
Qed.

Lemma last_snoc_inv {A} (l : list A) x : last l = Some x -> exists k, l = k ++ [x].
Proof. induction l as [|y l _] using rev_ind; [done|]. rewrite last_snoc. intros [= ->]. by exists l. Qed.

Lemma sorted_weaken {A} (R Q : A -> A -> Prop) l :
  (forall x y, R x y -> Q x y) -> StronglySorted R l -> StronglySorted Q l.
Proof.
  intros H. induction 1 as [|x l Hs IH Hall]; [constructor|]. constructor; [done|].
  eapply List.Forall_impl; [|exact Hall]. intros y. apply H.
Qed.

(** Sorting what is in order changes nothing. *)
Lemma sort_by_sorted_id {A} (le : A -> A -> bool) l :
  StronglySorted (fun x y => le x y = true) l -> sort_by le l = l.
Proof.
  induction l as [|x l IH]; intros Hs; [done|]. inversion Hs as [|? ? Hs' Hall]; subst. unfold sort_by in *. simpl.
  rewrite IH by done. destruct l as [|y l]; [done|]. simpl. inversion Hall; subst. by rewrite H1.
Qed.

(** ** Rows in publication order *)

Definition in_order (rows : list dataset_record) : Prop :=
  StronglySorted (fun r q => xr_ordinal r < xr_ordinal q) rows /\
  forall r, r ∈ rows -> 0 <= xr_ordinal r < 2 ^ 31.

Lemma seqZ_in_order rows n :
  map xr_ordinal rows = seqZ 0 n -> n < 2 ^ 31 -> in_order rows.
Proof.
  intros Hs Hn. split.
  - assert (forall m k, map xr_ordinal rows = seqZ m k -> StronglySorted (fun r q => xr_ordinal r < xr_ordinal q) rows) as H;
      [|by eapply H]. clear. induction rows as [|r rows IH]; intros m k Hs; [constructor|].
    simpl in Hs. destruct (decide (0 < k)); [|rewrite seqZ_nil in Hs by lia; done].
    rewrite seqZ_cons in Hs by lia. injection Hs as Hr Hs. constructor; [by eapply IH|].
    apply List.Forall_forall. intros q Hq%list_elem_of_In. apply (elem_map xr_ordinal) in Hq. rewrite Hs in Hq.
    apply elem_of_seqZ in Hq. lia.
  - intros r Hr%(elem_map xr_ordinal). rewrite Hs in Hr. apply elem_of_seqZ in Hr. lia.
Qed.

Lemma int4_ordinal rows r : in_order rows -> r ∈ rows -> int4 (xr_ordinal r) = true.
Proof. intros [_ H] Hr%H. unfold int4. apply andb_true_iff. split; [apply Z.leb_le|apply Z.ltb_lt]; lia. Qed.

Lemma rows_of_in_order c x : in_order (records_of c x) -> rows_of c x = records_of c x.
Proof.
  intros [Hs _]. apply sort_by_sorted_id. eapply sorted_weaken; [|exact Hs]. intros r q H. simpl in H.
  apply Z.leb_le. lia.
Qed.

(** What is left after the last row of a page. *)
Lemma after_last rows front rest r :
  in_order rows -> rows = front ++ rest -> last front = Some r ->
  List.filter (fun q => xr_ordinal r <? xr_ordinal q) rows = rest.
Proof.
  intros [Hs _] -> (k & ->)%last_snoc_inv. apply filter_past.
  - intros q Hq. apply Z.ltb_ge. apply elem_of_app in Hq as [Hq|Hq%list_elem_of_singleton]; [|subst; lia].
    rewrite <- app_assoc in Hs. assert (xr_ordinal q < xr_ordinal r); [|lia].
    eapply (sorted_app (fun r q => xr_ordinal r < xr_ordinal q)); [exact Hs|done|]. by left.
  - intros q Hq. apply Z.ltb_lt. eapply (sorted_app (fun r q => xr_ordinal r < xr_ordinal q)); [exact Hs| |done].
    apply elem_of_app. right. by left.
Qed.

(** ** Following the pages of a version *)

(** A cursor that has taken the rows of [front]. *)
Definition taken (prefix : pystr) (cursor : option pystr) (front : list dataset_record) : Prop :=
  (cursor = None /\ front = []) \/
  exists r, last front = Some r /\ cursor = Some (prefix ++ str_Z (xr_ordinal r)).

Section Rows.
Context (c : catalog) (x : pystr) (limit : nat).
Context (Hx : has_version c x = true) (Hord : in_order (records_of c x)) (Hlimit : (0 < limit)%nat).

Definition fetch_rows (cursor : option pystr) : option rows_page :=
  match dataset_rows_page c x cursor limit with inl (Some page) => Some page | _ => None end.

Lemma after_cursor_taken cursor front rest :
  records_of c x = front ++ rest -> taken [] cursor front -> after_cursor cursor (rows_of c x) = inl rest.
Proof.
  intros Hrows [[-> ->]|(r & Hr & ->)]; rewrite rows_of_in_order by done; [by rewrite Hrows|]. simpl.
  assert (r ∈ records_of c x) as Hin.
  { rewrite Hrows. apply last_snoc_inv in Hr as (k & ->). rewrite !elem_of_app. left. right. by left. }
  destruct (parse_int_nat (xr_ordinal r)) as [Hp Hne]; [by apply Hord|].
  destruct (str_Z (xr_ordinal r)) as [|a l]; [done|]. rewrite Hp, (int4_ordinal (records_of c x)) by done.
  by rewrite (after_last (records_of c x) front rest).
Qed.

Lemma follow_rows fuel cursor front rest :
  records_of c x = front ++ rest -> taken [] cursor front -> (length rest < fuel)%nat ->
  exists pages, follow fuel fetch_rows cursor = Some pages /\ concat pages = map xr_data rest.
Proof.
  revert cursor front rest. induction fuel as [|fuel IH]; intros cursor front rest Hrows Ht Hf; [lia|]. simpl.
  unfold fetch_rows at 1. unfold dataset_rows_page. rewrite Hx. simpl.
  rewrite (after_cursor_taken cursor front rest) by done. rewrite take_take, Nat.min_l by lia.
  rewrite length_take. destruct (Nat.ltb_spec limit (S limit `min` length rest)) as [Hlt|Hge].
  - destruct (last (take limit rest)) as [r|] eqn:El.
    2:{ apply last_None in El. apply (f_equal length) in El. rewrite length_take in El. simpl in El. lia. }
    simpl. destruct (IH (Some (str_Z (xr_ordinal r))) (front ++ take limit rest) (drop limit rest)) as (pages & Hp & Hc).
    + by rewrite <- app_assoc, take_drop.
    + right. exists r. split; [|done]. by rewrite last_app, El.
    + rewrite length_drop. lia.
    + fold fetch_rows. rewrite Hp. simpl. eexists. split; [done|]. simpl. by rewrite Hc, <- map_app, take_drop.
  - simpl. eexists. split; [done|]. simpl. rewrite app_nil_r, take_ge; [done|lia].
Qed.
End Rows.

(** ** Following a delta *)

(** The loop stops at the row that fills the page. *)
Lemma collect_changed_spec chg limit acc rows :
  (length acc < limit)%nat ->
  (collect_changed chg limit acc rows = (acc ++ map xr_data (List.filter chg rows), None)) \/
  exists front r rest, rows = front ++ r :: rest /\
    collect_changed chg limit acc rows = (acc ++ map xr_data (List.filter chg (front ++ [r])), Some (xr_ordinal r)).
Proof.
  revert acc. induction rows as [|r rows IH]; intros acc Hacc; simpl; [left; by rewrite app_nil_r|].
  destruct (Nat.leb_spec limit (length (if chg r then acc ++ [xr_data r] else acc))) as [Hle|Hlt].
  - right. exists [], r, rows. split; [done|]. simpl. destruct (chg r); [done|]. lia.
  - destruct (IH _ Hlt) as [E|(front & q & rest & -> & E)]; rewrite E; [left|right].
    + destruct (chg r); [|done]. simpl. by rewrite <- app_assoc.
    + exists (r :: front), q, rest. split; [done|]. simpl. destruct (chg r); [|done]. simpl. by rewrite <- app_assoc.
Qed.

Definition key_order (keys : list pystr) : Prop := StronglySorted (fun s t => str_cmp s t = Lt) keys.

(** The keys after the last one of a page. *)
Lemma keys_after keys front rest k :
  key_order keys -> keys = front ++ rest -> last front = Some k ->
  List.filter (fun s => str_gt s k) keys = rest.
Proof.
  intros Hs -> (l & ->)%last_snoc_inv. apply filter_past; intros s Hin; unfold str_gt.
  - apply elem_of_app in Hin as [Hin|Hin%list_elem_of_singleton].
    + unfold key_order in Hs. rewrite <- app_assoc in Hs.
      by rewrite (sorted_app _ _ _ s k Hs Hin) by by left.
    + subst. by rewrite (proj2 (str_cmp_eq k k)).
  - assert (str_cmp k s = Lt) as H.
    { apply (sorted_app _ _ _ k s Hs); [|done]. apply elem_of_app. right. by left. }
    by rewrite str_cmp_antisym, H.
Qed.

Section Delta.
Context (chg : dataset_record -> bool) (rows : list dataset_record) (gone : list pystr) (limit : nat).
Context (Hord : in_order rows) (Hgone : key_order gone) (Hne : forall k, k ∈ gone -> k <> []).
Context (Hlimit : (0 < limit)%nat).

Definition fetch_delta (cursor : option pystr) : option ((list (odict value) * list pystr) * option pystr) :=
  match delta_page chg rows gone cursor limit with
  | inl (changed, deleted, next) => Some ((changed, deleted), next)
  | inr _ => None
  end.

(** The deleted phase, from what is left of the keys. *)
Lemma deleted_page_spec position front rest :
  gone = front ++ rest -> (position = [] /\ front = [] \/ last front = Some position) ->
  deleted_page gone position limit =
    (take limit rest, if (limit <? length rest)%nat then (fun k => lit "d:" ++ k) <$> last (take limit rest) else None).
Proof.
  intros Hg [[-> ->]|Hl]; unfold deleted_page; [by rewrite Hg|].
  assert (position <> []) as Hp.
  { apply Hne. rewrite Hg. apply last_snoc_inv in Hl as (l & ->). rewrite !elem_of_app. left. right. by left. }
  destruct position as [|a l] eqn:Ep; [done|]. rewrite <- Ep in *. by rewrite (keys_after gone front rest).
Qed.

Lemma follow_deleted fuel front rest k :
  gone = front ++ rest -> last front = Some k -> (length rest < fuel)%nat ->
  exists pages, follow fuel fetch_delta (Some (lit "d:" ++ k)) = Some pages /\
    concat (map fst pages) = [] /\ concat (map snd pages) = rest.
Proof.
  revert front rest k. induction fuel as [|fuel IH]; intros front rest k Hg Hl Hf; [lia|]. cbn [follow].
  unfold fetch_delta at 1. unfold delta_page. change (read_cursor (Some (lit "d:" ++ k))) with (lit "d", k).
  cbv iota beta. change (str_eqb (lit "d") (lit "c")) with false. cbv iota.
  rewrite (deleted_page_spec k front rest) by auto. destruct (Nat.ltb_spec limit (length rest)) as [Hlt|Hge].
  - destruct (last (take limit rest)) as [k'|] eqn:El.
    2:{ apply last_None in El. apply (f_equal length) in El. rewrite length_take in El. simpl in El. lia. }
    simpl. destruct (IH (front ++ take limit rest) (drop limit rest) k') as (pages & Hp & H1 & H2).
    + by rewrite <- app_assoc, take_drop.
    + by rewrite last_app, El.
    + rewrite length_drop. lia.
    + fold fetch_delta. simpl in Hp. rewrite Hp. eexists. split; [done|]. simpl. split; [done|]. by rewrite H2, take_drop.
  - eexists. split; [done|]. simpl. split; [done|]. rewrite app_nil_r. by apply take_ge.
Qed.
Lemma read_cursor_taken cursor front rest :
  rows = front ++ rest -> taken (lit "c:") cursor front ->
  exists position, read_cursor cursor = (lit "c", position) /\ after_position position rows = inl rest.
Proof.
  intros Hrows [[-> ->]|(r & Hr & ->)]; [exists []; by rewrite Hrows|]. exists (str_Z (xr_ordinal r)). split; [done|].
  assert (r ∈ rows) as Hin.
  { rewrite Hrows. apply last_snoc_inv in Hr as (k & ->). rewrite !elem_of_app. left. right. by left. }
  destruct (parse_int_nat (xr_ordinal r)) as [Hp Hs]; [by apply Hord|]. unfold after_position.
  destruct (str_Z (xr_ordinal r)) as [|a l]; [done|]. rewrite Hp, (int4_ordinal rows) by done.
  by rewrite (after_last rows front rest).
Qed.

Lemma follow_changed fuel cursor front rest :
  rows = front ++ rest -> taken (lit "c:") cursor front -> (length rest + length gone < fuel)%nat ->
  exists pages, follow fuel fetch_delta cursor = Some pages /\
    concat (map fst pages) = map xr_data (List.filter chg rest) /\ concat (map snd pages) = gone.
Proof.
  revert cursor front rest. induction fuel as [|fuel IH]; intros cursor front rest Hrows Ht Hf; [lia|]. cbn [follow].
  destruct (read_cursor_taken cursor front rest Hrows Ht) as (position & Hcur & Hafter).
  unfold fetch_delta at 1. unfold delta_page. rewrite Hcur. change (str_eqb (lit "c") (lit "c")) with true.
  cbv iota. rewrite Hafter. destruct (collect_changed_spec chg limit [] rest) as [->|(pre & r & post & -> & ->)]; [done|..].
  - rewrite (deleted_page_spec [] [] gone) by auto. destruct (Nat.ltb_spec limit (length gone)) as [Hlt|Hge].
    + destruct (last (take limit gone)) as [k|] eqn:El.
      2:{ apply last_None in El. apply (f_equal length) in El. rewrite length_take in El. simpl in El. lia. }
      simpl. destruct (follow_deleted fuel (take limit gone) (drop limit gone) k) as (pages & Hp & H1 & H2);
        [by rewrite take_drop|done|rewrite length_drop; lia|].
      fold fetch_delta. simpl in Hp. rewrite Hp. eexists. split; [done|]. simpl.
      by rewrite H1, H2, app_nil_r, take_drop.
    + eexists. split; [done|]. simpl. by rewrite !app_nil_r, take_ge.
  - destruct (IH (Some (lit "c:" ++ str_Z (xr_ordinal r))) (front ++ pre ++ [r]) post) as (pages & Hp & H1 & H2).
    + by rewrite Hrows, <- !app_assoc.
    + right. exists r. split; [|done]. by rewrite app_assoc, last_snoc.
    + rewrite length_app in Hf. simpl in Hf. lia.
    + fold fetch_delta. rewrite Hp. eexists. split; [done|]. simpl. rewrite H1, H2. split; [|done].
      rewrite <- map_app, <- List.filter_app, <- app_assoc. done.
Qed.
End Delta.

(** ** A device's copy *)

Section Copy.
Context (column : pystr).

Abbreviation key_of row := (cell_str (vget row column)) (only parsing).

Lemma dget_puts (l : list (odict value)) (h : odict (odict value)) k :
  dget (fold_left (fun h row => dset h (key_of row) row) l h) k =
  match last (List.filter (fun row => str_eqb (key_of row) k) l) with Some row => Some row | None => dget h k end.
Proof.
  revert h. induction l as [|row l IH]; intros h; [done|]. cbn [fold_left List.filter]. rewrite IH, dget_dset.
  destruct (str_eqb (key_of row) k) eqn:E.
  - apply str_eqb_eq in E. rewrite decide_True by done.
    destruct (List.filter _ l) as [|y r] eqn:Ef; [done|]. destruct (last (y :: r)) eqn:El; [|by apply last_None in El].
    rewrite last_cons, El. done.
  - rewrite decide_False; [done|]. intros ->. by rewrite str_eqb_refl in E.
Qed.

Lemma dpops_spec (l : list pystr) (h : odict (odict value)) :
  NoDup (dkeys h) -> NoDup (dkeys (fold_left dpop l h)) /\
  forall k, dget (fold_left dpop l h) k = if bool_decide (k ∈ l) then None else dget h k.
Proof.
  revert h. induction l as [|x l IH]; intros h Hn; [done|]. simpl.
  destruct (IH (dpop h x) (NoDup_dkeys_dpop _ _ Hn)) as [H1 H2]. split; [done|]. intros k. rewrite H2, dget_dpop by done.
  repeat case_bool_decide; try case_decide; try done; set_solver.
Qed.

Lemma puts_nodup (l : list (odict value)) (h : odict (odict value)) :
  NoDup (dkeys h) -> NoDup (dkeys (fold_left (fun h row => dset h (key_of row) row) l h)).
Proof. revert h. induction l as [|x l IH]; intros h Hn; simpl; [done|]. apply IH. by apply NoDup_dkeys_dset. Qed.

(** A key no page deletes holds the last row put under it; a key no page puts
    is gone when a page deletes it, and what it was otherwise. *)
Lemma apply_pages_get pages held k :
  NoDup (dkeys held) ->
  let held' := fold_left (apply_page column) pages held in
  (k ∉ concat (map snd pages) ->
   dget held' k = match last (List.filter (fun row => str_eqb (key_of row) k) (concat (map fst pages))) with
                  | Some row => Some row
                  | None => dget held k
                  end) /\
  (List.filter (fun row => str_eqb (key_of row) k) (concat (map fst pages)) = [] ->
   dget held' k = if bool_decide (k ∈ concat (map snd pages)) then None else dget held k).
Proof.
  revert held. induction pages as [|[changed deleted] pages IH]; intros held Hn; [done|]. simpl.
  destruct (dpops_spec deleted _ (puts_nodup changed held Hn)) as [Hn' Hget].
  destruct (IH (apply_page column held (changed, deleted)) Hn') as [H1 H2]. unfold apply_page in *. simpl in *. split.
  - intros [Hd Hds]%not_elem_of_app. rewrite H1 by done. rewrite Hget, bool_decide_eq_false_2, dget_puts by done.
    rewrite List.filter_app, last_app. by destruct (last (List.filter _ (concat _))).
  - rewrite List.filter_app. intros [Hc Hcs]%app_eq_nil. rewrite H2 by done. rewrite Hget, dget_puts, Hc. simpl.
    repeat case_bool_decide; try done; set_solver.
Qed.
End Copy.

(** ** Dictionaries of rows *)

Lemma fold_dset_out {A B} (k : A -> pystr) (v : A -> B) l d x :
  x ∉ map k l -> dget (fold_left (fun d e => dset d (k e) (v e)) l d) x = dget d x.
Proof.
  revert d. induction l as [|e l IH]; intros d Hx; [done|]. simpl in *. apply not_elem_of_cons in Hx as [Hne Hx].
  rewrite IH, dget_dset_ne by done. done.
Qed.

Lemma fold_dset_in {A B} (k : A -> pystr) (v : A -> B) l d x :
  NoDup (map k l) -> x ∈ l -> dget (fold_left (fun d e => dset d (k e) (v e)) l d) (k x) = Some (v x).
Proof.
  revert d. induction l as [|e l IH]; intros d Hn Hx; [by inversion Hx|]. simpl in *. apply NoDup_cons in Hn as [He Hn].
  apply elem_of_cons in Hx as [->|Hx]; [|by apply IH]. by rewrite fold_dset_out, dget_dset_eq.
Qed.

Lemma fold_dset_nodup {A B} (k : A -> pystr) (v : A -> B) l d :
  NoDup (dkeys d) -> NoDup (dkeys (fold_left (fun d e => dset d (k e) (v e)) l d)).
Proof. revert d. induction l as [|x l IH]; intros d Hn; simpl; [done|]. apply IH. by apply NoDup_dkeys_dset. Qed.

Lemma fold_dset_keys {A B} (k : A -> pystr) (v : A -> B) l x :
  x ∈ dkeys (fold_left (fun d e => dset d (k e) (v e)) l []) <-> x ∈ map k l.
Proof.
  rewrite <- dget_elem. split.
  - intros [y [(e & He & <- & _)|Hy]%fold_dset_get]; [by apply elem_map|done].
  - intros Hx. destruct (decide (is_Some (dget (fold_left (fun d e => dset d (k e) (v e)) l []) x))) as [|Hno]; [done|].
    exfalso. revert Hx Hno. generalize ([] : odict B). induction l as [|e l IH]; intros d; simpl; [by inversion 1|].
    intros [->|Hx]%elem_of_cons Hno; [|by eapply IH].
    destruct (decide (k e ∈ map k l)) as [Hin|Hout]; [by eapply IH|]. apply Hno.
    rewrite fold_dset_out, dget_dset_eq by done. done.
Qed.

(** [sorted] of keys that differ is strictly in order. *)
Lemma insert_str_order x l : x ∉ l -> key_order l -> key_order (insert_str x l).
Proof.
  unfold key_order. induction l as [|y l IH]; intros Hx Hs; simpl; [by repeat constructor|].
  apply not_elem_of_cons in Hx as [Hne Hx]. inversion Hs as [|? ? Hs' Hall]; subst.
  assert (Lt <> Eq) as Hlt by done.
  destruct (str_cmp x y) eqn:E; [by apply str_cmp_eq in E| |].
  - constructor; [done|]. constructor; [done|]. eapply List.Forall_impl; [|exact Hall]. intros z Hz.
    by apply (str_cmp_trans x y z Lt).
  - constructor; [by apply IH|]. apply List.Forall_forall. intros z Hz%list_elem_of_In.
    rewrite (insert_str_perm x l) in Hz. apply elem_of_cons in Hz as [->|Hz].
    + by rewrite str_cmp_antisym, E.
    + rewrite List.Forall_forall in Hall. by apply Hall, list_elem_of_In.
Qed.

Lemma sort_str_order l : NoDup l -> key_order (sort_str l).
Proof.
  induction l as [|x l IH]; intros Hn; [constructor|]. apply NoDup_cons in Hn as [Hx Hn]. simpl.
  apply insert_str_order; [by rewrite sort_str_perm|by apply IH].
Qed.
