(* ===== verification/CellFacts.v ===== *)
(** * What a cell's text reads back as

    A cell written to CSV is text; these lemmas say that [parse] makes the
    same of the text as of the cell itself. *)

From S2P Require Import Prelude PyStr PyNum Value PyJson TextFormats Expr Expression Surface SurfaceFacts Printer.
From S2P Require Import FloatText Cells ExportPlan Statistical ExportManifest.

(** ** Floats of the model are binary64 *)

Abbreviation float64 := (valid_binary 53 1024) (only parsing).

Fixpoint floats_ok (v : value) : bool :=
  match v with
  | VFloat f => float64 f
  | VList l => forallb floats_ok l
  | VDict d => forallb (fun kv => floats_ok kv.2) d
  | _ => true
  end.

(** What rounding gives is one. *)
Lemma second_valid s m e l :
  0 <= m <= 2 ^ 53 -> (m < 2 ^ 52 -> e = -1074) -> -1074 <= e -> l = loc_Exact ->
  float64 (let '(mrs, e') := shr_fexp 53 1024 m e l in
           match shr_m mrs with
           | 0 => S754_zero s
           | Z.pos m => if e' <=? 971 then S754_finite s m e' else S754_infinity s
           | Z.neg _ => S754_nan
           end) = true.
Proof.
  intros Hm Hsub He ->. unfold shr_fexp. destruct (Z.eq_dec m 0) as [->|Hne].
  { rewrite (Hsub ltac:(lia)). reflexivity. }
  destruct (Z.eq_dec m (2 ^ 53)) as [->|Hlt].
  - change (Zdigits2 (2 ^ 53)) with 54. rewrite fexp_eq. replace (Z.max _ _ - e) with 1 by lia. simpl.
    destruct (Z.leb_spec (e + 1) 971); [|done].
    change ((SpecFloat.fexp 53 1024 (53 + (e + 1)) =? e + 1) && (e + 1 <=? 971) = true). rewrite fexp_eq.
    apply andb_true_iff. split; [apply Z.eqb_eq; lia|by apply Z.leb_le].
  - rewrite digits_log2 by lia. assert (SpecFloat.fexp 53 1024 (Z.log2 m + 1 + e) = e) as Hf.
    { rewrite fexp_eq. destruct (Z.lt_ge_cases m (2 ^ 52)) as [Hs|Hs].
      - rewrite (Hsub Hs). assert (Z.log2 m < 52) by (apply Z.log2_lt_pow2; lia). lia.
      - assert (Z.log2 m = 52) as -> by (apply Z.log2_unique; lia). lia. }
    rewrite Hf, Z.sub_diag. simpl. destruct m as [|p|]; try lia. destruct (Z.leb_spec e 971); [|done].
    unfold valid_binary, bounded, canonical_mantissa. assert (Z.pos (digits2_pos p) = Z.log2 (Z.pos p) + 1) as -> by (by apply (digits_log2 (Z.pos p))).
    rewrite Hf. apply andb_true_iff. split; [apply Z.eqb_refl|by apply Z.leb_le].
Qed.

Lemma rounds_valid s n d f : 0 < n -> 0 < d -> rounds_to s n d f -> float64 f = true.
Proof.
  intros Hn Hd (e & l & He & Hl & ->). unfold binary_round_aux. rewrite shr_to_target by done.
  set (t := target n d e) in *. rewrite at_exp_m. set (l' := loc_of_shr_record _).
  assert (units n d t = units n d e / 2 ^ (t - e)) as Hu.
  { replace t with (e + (t - e)) at 1 by lia. apply units_add; [done..|lia]. }
  pose proof (units_nonneg n d Hn Hd e) as H0.
  assert (0 <= units n d t < 2 ^ 53 /\ (units n d t < 2 ^ 52 -> t = -1074) /\ -1074 <= t) as (Hb & Hsub & Ht).
  { assert (t = Z.max (Zdigits2 (units n d e) + e - 53) (-1074)) as Htx by (unfold t, target; by rewrite fexp_eq).
    rewrite Hu. assert (0 < 2 ^ (t - e)) by (apply Z.pow_pos_nonneg; lia). destruct (Z.eq_dec (units n d e) 0) as [Hz|Hz].
    { rewrite Hz in *. cbn [Zdigits2] in Htx. rewrite Z.div_0_l by lia. lia. }
    rewrite digits_log2 in Htx by lia. pose proof (log2_bounds (units n d e) ltac:(lia)) as [Hlo Hhi].
    split_and!; [apply Z.div_pos; lia| | |lia].
    - apply Z.div_lt_upper_bound; [done|]. rewrite <- Z.pow_add_r by lia.
      eapply Z.lt_le_trans; [exact Hhi|]. apply Z.pow_le_mono_r; lia.
    - intros Hs. destruct (Z.eq_dec t (-1074)) as [|Hne]; [done|exfalso]. apply Z.lt_nge in Hs. apply Hs.
      apply Z.div_le_lower_bound; [done|]. rewrite <- Z.pow_add_r by lia. eapply Z.le_trans; [|exact Hlo].
      apply Z.pow_le_mono_r; lia. }
  apply second_valid; [|intros|done|done].
  - unfold round_nearest_even. destruct l' as [|[]]; [lia| |lia|lia]. destruct (Z.even _); lia.
  - apply Hsub. unfold round_nearest_even in *. destruct l' as [|[]]; [lia| |lia|lia]. destruct (Z.even _); lia.
Qed.

Lemma opp_valid f : float64 f = true -> float64 (SFopp f) = true.
Proof. by destruct f. Qed.

Lemma decimal_valid neg c x : 0 <= c -> float64 (float_of_decimal neg c x) = true.
Proof.
  intros Hc. rewrite decimal_sign. assert (float64 (float_of_decimal false c x) = true) as Hv.
  { destruct (Z.eq_dec c 0) as [->|].
    - rewrite float_of_decimal_ratio. unfold dec_num. by rewrite Z.mul_0_l.
    - eapply rounds_valid; [..|apply decimal_rounds; lia]; [apply dec_num_pos; lia|apply dec_den_pos]. }
  destruct neg; [by apply opp_valid|done].
Qed.

Lemma parse_float_valid s f : parse_float s = Some f -> float64 f = true.
Proof.
  unfold parse_float. destruct (strip_underscores false s) as [t|]; [|done]. destruct (read_sign t) as [neg r].
  destruct (_ || _); [by intros [= <-]|]. destruct (str_eqb _ _); [by intros [= <-]|].
  destruct (span_digits r) as [w r1]. destruct (match r1 with [] => _ | _ => _ end) as [frac r2].
  destruct (w ++ frac); [done|]. destruct (read_exponent r2); [|done]. intros [= <-]. apply decimal_valid. lia.
Qed.

Lemma float_of_Z_opp z : float_of_Z (- z) = if z =? 0 then float_of_Z 0 else SFopp (float_of_Z z).
Proof.
  assert (forall s m e, binary_round 53 1024 (negb s) m e = SFopp (binary_round 53 1024 s m e)) as Hopp.
  { intros s m e. unfold binary_round. destruct (shl_align _ _ _) as [mz ez]. unfold binary_round_aux.
    destruct (shr_fexp _ _ _ _ _) as [mrs e1]. destruct (shr_fexp _ _ _ _ _) as [mrs' e2].
    destruct (shr_m mrs'); [done| |done]. by destruct (_ <=? _). }
  destruct z as [|p|p]; [done| |]; unfold float_of_Z, binary_normalize; simpl Z.opp; cbv iota; simpl Z.eqb; cbv iota.
  - apply (Hopp false).
  - apply (Hopp true).
Qed.

Lemma float_of_Z_valid z : float64 (float_of_Z z) = true.
Proof.
  destruct (Z.lt_trichotomy z 0) as [Hz|[->|Hz]]; [|done|].
  - replace z with (- - z) by lia. rewrite float_of_Z_opp, (proj2 (Z.eqb_neq _ _)) by lia. apply opp_valid.
    eapply (rounds_valid false (- z) 1); [lia..|]. apply float_of_Z_rounds. lia.
  - by eapply (rounds_valid false z 1); [lia..|apply float_of_Z_rounds].
Qed.

(** ** Numbers as text *)

Definition number_char (c : N) : bool := is_digit c || bool_decide (c ∈ [43; 45; 46; 101]%N).

Lemma number_char_no_space c : number_char c = true -> is_space c = false.
Proof.
  unfold number_char. intros [Hd|Hd]%orb_true_iff.
  - destruct (is_space c) eqn:E; [|done]. apply space_no_digit in E. congruence.
  - apply bool_decide_eq_true in Hd. repeat (apply elem_of_cons in Hd as [->|Hd]; [by vm_compute|]). by inversion Hd.
Qed.

Lemma strip_number s : Forall (fun c => number_char c = true) s -> s <> [] -> strip s = s.
Proof.
  intros Hs Hne. apply strip_trimmed. split.
  - destruct Hs as [|c r Hc Hs]; [done|]. exists c, r. split; [done|by apply number_char_no_space].
  - destruct s as [|c s] using rev_ind; [done|]. apply Forall_app in Hs as [_ [Hc _]%Forall_cons].
    exists s, c. split; [done|by apply number_char_no_space].
Qed.

Lemma digits_number s : Forall (fun c => is_digit c = true) s -> Forall (fun c => number_char c = true) s.
Proof. intros H. eapply Forall_impl; [exact H|]. intros c Hc. unfold number_char. by rewrite Hc. Qed.

Lemma str_Z_number z : Forall (fun c => number_char c = true) (str_Z z) /\ str_Z z <> [].
Proof.
  unfold str_Z. destruct (Z.ltb_spec z 0).
  - destruct (str_N_spec (Z.to_N (- z))) as (_ & Hd & Hne). split; [|by intros [? _]%app_eq_nil].
    constructor; [done|]. apply digits_number. eapply Forall_impl; [exact Hd|]. intros c. apply is_digit_ascii.
  - destruct (digits_str_Z z ltac:(lia)) as (Hd & Hne & _). unfold str_Z in *. rewrite (proj2 (Z.ltb_ge z 0)) in * by lia.
    split; [by apply digits_number|done].
Qed.

Lemma zeros_number n : Forall (fun c => number_char c = true) (zeros n).
Proof. apply digits_number, digits_zeros. Qed.

Lemma format_number c dp : 0 < c -> Forall (fun c => number_char c = true) (format_digits (str_Z c) dp).
Proof.
  intros Hc. pose proof (proj1 (str_Z_number c)) as Hd. unfold format_digits. set (ds := str_Z c) in *.
  assert (forall s : string, forallb number_char (lit s) = true -> Forall (fun c => number_char c = true) (lit s)) as Hlit.
  { intros s Hs. apply Forall_forall. intros x Hx. rewrite forallb_forall in Hs. by apply Hs, list_elem_of_In. }
  destruct (_ && _); [destruct (_ <=? 0); [|destruct (_ <=? dp)]|]; repeat (apply Forall_app; split);
    try apply zeros_number; try (by apply Hlit); try (by apply Forall_take); try (by apply Forall_drop); try done.
  - destruct (1 <? _); [|constructor]. apply Forall_app. split; [by apply Hlit|by apply Forall_drop].
  - destruct (_ <? 0); by apply Hlit.
  - destruct (_ <? 10); [apply Forall_app; split; [by apply Hlit|]|]; apply str_Z_number.
Qed.

Lemma float_repr_number f :
  float64 f = true -> is_nan f || is_inf f = false -> Forall (fun c => number_char c = true) (float_repr f).
Proof.
  intros Hf Hn. destruct f as [s|s| |s m e]; [|done..|].
  - destruct s; repeat constructor.
  - destruct (shortest_digits_read m e Hf) as (c & Hc & Hds & _). unfold float_repr.
    destruct (shortest_digits m e) as [ds dp]. injection Hds as ->.
    apply Forall_app. split; [destruct s; by repeat constructor|by apply format_number].
Qed.

(** [float(str(z))] *)
Lemma float_of_int_text z : parse_float (strip (str_Z z)) = Some (float_of_Z z).
Proof.
  destruct (str_Z_number z) as [Hs Hne]. rewrite strip_number by done.
  destruct (Z.lt_trichotomy z 0) as [Hz|[->|Hz]]; [|done|].
  - pose proof (parse_decimal true (str_Z (- z)) [] [] 0) as Hp. destruct (digits_str_Z (- z) ltac:(lia)) as (Hd & Hne' & Hv).
    cbn [point_text app] in Hp. rewrite app_nil_r in Hp.
    assert (str_Z z = sign_text true ++ str_Z (- z)) as ->.
    { unfold str_Z. rewrite (proj2 (Z.ltb_lt z 0)), (proj2 (Z.ltb_ge (- z) 0)) by lia. done. }
    rewrite Hp; [|done|constructor|done|set_solver|done|by left]. rewrite Hv. f_equal.
    rewrite decimal_sign. replace z with (- - z) at 2 by lia. rewrite float_of_Z_opp, (proj2 (Z.eqb_neq _ _)) by lia. f_equal.
    rewrite float_of_decimal_ratio. unfold dec_num, dec_den. simpl. rewrite Z.mul_1_r.
    eapply (rounds_unique false (- z) 1); [lia..|apply float_ratio_rounds; lia|apply float_of_Z_rounds; lia].
  - pose proof (parse_decimal false (str_Z z) [] [] 0) as Hp. destruct (digits_str_Z z ltac:(lia)) as (Hd & Hne' & Hv).
    cbn [point_text app sign_text] in Hp. rewrite app_nil_r in Hp.
    rewrite Hp; [|done|constructor|done|set_solver|done|by left]. rewrite Hv. f_equal.
    rewrite float_of_decimal_ratio. unfold dec_num, dec_den. simpl. rewrite Z.mul_1_r.
    eapply (rounds_unique false z 1); [lia..|apply float_ratio_rounds; lia|apply float_of_Z_rounds; lia].
Qed.

Lemma float_of_float_text f : float64 f = true -> is_nan f || is_inf f = false -> parse_float (strip (float_repr f)) = Some f.
Proof.
  intros Hf Hn. pose proof (repr_reads_back f Hf) as Hr. rewrite strip_number; [done|by apply float_repr_number|].
  intros E. by rewrite E in Hr.
Qed.

(** ** Cells as text *)

(** A cell that is not text reads as a number of the same value. *)
Definition cell_ok (c : cell) : Prop :=
  match c with CFloat f => float64 f = true /\ is_nan f || is_inf f = false | _ => True end.

Lemma number_text_shape s f : parse_float (strip s) = Some f -> s <> [] /\ s <> ENCRYPTED.
Proof. intros H. split; intros ->; by vm_compute in H. Qed.

Lemma float_of_text_cell c z :
  (c = CInt z \/ exists f, c = CFloat f /\ cell_ok c) ->
  exists f, float_of_cell (CText (csv_text c)) = Ok f /\
    float_of_cell c = (if is_inf f then Raise OverflowError else Ok f) /\
    csv_text c <> [] /\ csv_text c <> ENCRYPTED.
Proof.
  intros [->|(f & -> & Hf & Hn)].
  - exists (float_of_Z z). cbn [float_of_cell csv_text cell_str]. unfold float_of_text. rewrite float_of_int_text.
    destruct (number_text_shape _ _ (float_of_int_text z)). done.
  - exists f. cbn [float_of_cell csv_text cell_str]. unfold float_of_text. rewrite float_of_float_text by done.
    destruct (number_text_shape _ _ (float_of_float_text f Hf Hn)). apply orb_false_iff in Hn as [_ Hn]. by rewrite Hn.
Qed.

Section Render.
Context {env : PyEnv} {uni : UnicodeDB}.

Lemma float_of_value_ok v f : floats_ok v = true -> float_of_value v = Ok f -> float64 f = true.
Proof.
  destruct v as [|b|z|g|s|l|d]; simpl; try done.
  - intros _ [= <-]. apply float_of_Z_valid.
  - unfold float_of_int. intros _. destruct (is_inf _); [done|]. intros [= <-]. apply float_of_Z_valid.
  - by intros Hf [= <-].
  - unfold float_of_text, of_option. intros _. destruct (parse_float _) eqn:E; [|done]. intros [= <-]. by eapply parse_float_valid.
Qed.

Lemma finite_cell_ok f : float64 f = true -> cell_ok (finite_cell f).
Proof. unfold finite_cell. destruct (is_nan f || is_inf f) eqn:E; simpl; [done|]. by split. Qed.

(** A cell out of [render], and the integer columns it may be an integer of. *)
Definition cell_fits (data_type : pystr) (component : option pystr) (c : cell) : Prop :=
  cell_ok c /\
  forall z, c = CInt z -> is_inf (float_of_Z z) = true ->
    component = Some (lit "size") \/ (component = None /\ data_type = lit "integer").

Lemma text_cell_fits dt comp s : cell_fits dt comp (text_cell s).
Proof. by destruct s. Qed.

Lemma fits_fmap {A} (r : res A) (g : A -> cell) dt comp c :
  g <$> r = Ok c -> (forall a, r = Ok a -> cell_fits dt comp (g a)) -> cell_fits dt comp c.
Proof. destruct r as [a|e]; [|done]. intros [= <-] H. by apply H. Qed.

Lemma floats_ok_get d k : floats_ok (VDict d) = true -> floats_ok (vget d k) = true.
Proof.
  simpl. rewrite forallb_forall. intros Hd. unfold vget. destruct (dget d k) as [v|] eqn:E; [|done].
  by apply (Hd (k, v)), list_elem_of_In, dget_Some_elem.
Qed.

Lemma component_fits v part c dt : floats_ok v = true -> component_cell v part = Ok c -> cell_fits dt (Some part) c.
Proof.
  intros Hv. unfold component_cell. destruct v as [| | | | | |d]; try (by intros [= <-]). pose proof (floats_ok_get d part Hv) as Hg.
  destruct (str_eqb part "size") eqn:Es.
  - apply str_eqb_eq in Es as ->.
    assert (forall g, CInt <$> py_int g = Ok c -> cell_fits dt (Some (lit "size")) c) as Hcell.
    { intros g Hc. eapply fits_fmap; [exact Hc|]. intros z _. split; [done|by left]. }
    destruct (vget d "size") eqn:E; [by intros [= <-]|..]; by apply Hcell.
  - assert (forall g, floats_ok g = true ->
      (if bool_decide (part ∈ NUMERIC_COMPONENTS) then finite_cell <$> float_of_value g else Ok (text_cell (py_str g))) = Ok c ->
      cell_fits dt (Some part) c) as Hcell.
    { intros g Hok. case_bool_decide; [|intros [= <-]; apply text_cell_fits]. intros Hc. eapply fits_fmap; [exact Hc|].
      intros f Hf. split; [apply finite_cell_ok; by eapply float_of_value_ok|]. unfold finite_cell. by destruct (_ || _). }
    destruct (vget d part) eqn:E; [by intros [= <-]|..]; by apply Hcell.
Qed.

Lemma whole_fits v dt c : floats_ok v = true -> render_whole v dt = Ok c -> cell_fits dt None c.
Proof.
  intros Hv. unfold render_whole. destruct (dhas _ _); [by intros [= <-]|].
  destruct (str_eqb dt "boolean"). { intros [= <-]. split; [done|]. intros z [= <-]. by destruct (truthy v). }
  destruct (str_eqb dt "integer") eqn:Ei.
  { apply str_eqb_eq in Ei as ->. intros Hc. eapply fits_fmap; [exact Hc|]. intros z _. split; [done|by right]. }
  destruct (str_eqb dt "decimal").
  { intros Hc. eapply fits_fmap; [exact Hc|]. intros f Hf. split; [apply finite_cell_ok; by eapply float_of_value_ok|].
    unfold finite_cell. by destruct (_ || _). }
  destruct (str_eqb dt "select_multiple"). { intros [= <-]. by destruct v as [| | | | |[]|]. }
  destruct (is_trace dt). { intros [= <-]. by destruct (truthy v). }
  intros [= <-]. apply text_cell_fits.
Qed.

Lemma render_fits v dt comp c : floats_ok v = true -> render v dt comp = Ok c -> cell_fits dt comp c.
Proof.
  intros Hv. unfold render. destruct v eqn:E; [by intros [= <-]|..]; rewrite <- E in *;
    (destruct comp as [part|]; [by apply component_fits|by apply whole_fits]).
Qed.

(** Cells with the same text and the same number parse to the same. *)
Lemma parse_same c c' dt comp :
  blank c = blank c' -> c <> CText ENCRYPTED -> c' <> CText ENCRYPTED -> cell_str c = cell_str c' ->
  float_of_cell c = float_of_cell c' -> parse c dt comp = parse c' dt comp.
Proof.
  intros Hb He He' Hs Hf. unfold parse, parse_number, parse_whole, parse_boolean. rewrite !Hb, !Hs, !Hf.
  by rewrite !bool_decide_eq_false_2.
Qed.

Lemma not_blank c : c <> CEmpty -> c <> CText [] -> blank c = false.
Proof. intros. apply bool_decide_eq_false. naive_solver. Qed.

(** An integer too large for a float raises from the cell and from its text. *)
Lemma parse_infinite z dt comp :
  is_inf (float_of_Z z) = true -> comp = Some (lit "size") \/ (comp = None /\ dt = lit "integer") ->
  parse (CText (str_Z z)) dt comp = Raise OverflowError /\ parse (CInt z) dt comp = Raise OverflowError.
Proof.
  intros Hi Hd. destruct (number_text_shape _ _ (float_of_int_text z)) as [Hne He].
  assert (float_of_cell (CText (str_Z z)) = Ok (float_of_Z z)) as Ht.
  { cbn [float_of_cell]. unfold float_of_text. by rewrite float_of_int_text. }
  assert (float_of_cell (CInt z) = Raise OverflowError) as Hc by (cbn [float_of_cell]; unfold float_of_int; by rewrite Hi).
  assert (float_trunc (float_of_Z z) = Raise OverflowError) as Htr by by destruct (float_of_Z z).
  unfold parse. rewrite !not_blank, !bool_decide_eq_false_2 by congruence.
  destruct Hd as [->|[-> ->]].
  - rewrite !bool_decide_eq_true_2 by (unfold NUMERIC_COMPONENTS; set_solver).
    unfold parse_number. rewrite Ht, Hc. cbn [mbind res_bind]. change (str_eqb (lit "size") (lit "size")) with true.
    cbv iota. by rewrite Htr.
  - unfold parse_whole. change (str_eqb (lit "integer") (lit "boolean")) with false. change (str_eqb (lit "integer") (lit "integer")) with true.
    cbv iota. rewrite Ht, Hc. cbn [mbind res_bind]. by rewrite Htr.
Qed.

(** The text of a cell and the cell parse to the same. *)
Lemma parse_csv_text c dt comp : cell_fits dt comp c -> parse (CText (csv_text c)) dt comp = parse c dt comp.
Proof.
  intros [Hok Hint]. destruct c as [|s|z|f]; [done|done|..].
  - destruct (float_of_text_cell (CInt z) z) as (g & Hg & Hx & Hne & He); [by left|].
    destruct (is_inf (float_of_Z z)) eqn:Ei.
    { destruct (parse_infinite z dt comp Ei (Hint z eq_refl Ei)) as [H1 H2]. by rewrite H2. }
    assert (g = float_of_Z z) as ->.
    { cbn [float_of_cell csv_text cell_str] in Hg. unfold float_of_text in Hg. rewrite float_of_int_text in Hg. by injection Hg. }
    rewrite Ei in Hx. apply parse_same; [by rewrite !not_blank by congruence|congruence|done|done|by rewrite Hg, Hx].
  - destruct (float_of_text_cell (CFloat f) 0) as (g & Hg & Hx & Hne & He); [right; by eexists|].
    destruct Hok as [Hf Hn]. apply orb_false_iff in Hn as Hn'. destruct Hn' as [_ Hi].
    assert (g = f) as ->.
    { cbn [float_of_cell csv_text cell_str] in Hg. unfold float_of_text in Hg. rewrite float_of_float_text in Hg by done. by injection Hg. }
    rewrite Hi in Hx. apply parse_same; [by rewrite !not_blank by congruence|congruence|done|done|by rewrite Hg, Hx].
Qed.
End Render.
