(* ===== verification/PlanFacts.v ===== *)
(** * The columns of a plan

    Names are handed out once and an author's own identifiers are kept; the
    columns of every table are those of a reference definition: the questions
    of all versions, oldest first, each kept where it is first met. *)

From S2P Require Import Prelude PyStr PyNum Value Expr Expression Datasets Compile Surface Printer Server PublishGate.
From S2P Require Import Projection Cells ExportPlan.

(** ** The first free serial *)

Lemma first_free_spec (taken : nat -> bool) fuel : forall serial,
  let n := first_free taken fuel serial in
  (serial <= n <= serial + fuel)%nat /\ (forall k, (serial <= k < n)%nat -> taken k = true) /\
  (taken n = false \/ n = (serial + fuel)%nat).
Proof.
  induction fuel as [|fuel IH]; intros serial; cbn [first_free]; [split; [lia|split; [lia|right; lia]]|].
  destruct (taken serial) eqn:E.
  - destruct (IH (S serial)) as (Hn & Hall & Hend). split; [lia|split; [|destruct Hend; [by left|right; lia]]].
    intros k Hk. destruct (decide (k = serial)) as [->|]; [done|]. apply Hall. lia.
  - split; [lia|split; [lia|by left]].
Qed.

(** Among more distinct names than are taken one is free. *)
Lemma first_free_is_free (name : nat -> pystr) (taken : list pystr) :
  (forall j k, (1 <= j)%nat -> (1 <= k)%nat -> name j = name k -> j = k) ->
  let n := first_free (fun n => bool_decide (name n ∈ taken)) (S (length taken)) 1 in
  name n ∉ taken /\ (1 <= n <= S (length taken))%nat.
Proof.
  intros Hinj n. destruct (first_free_spec (fun n => bool_decide (name n ∈ taken)) (S (length taken)) 1) as (Hn & Hall & Hend).
  fold n in Hn, Hall, Hend.
  assert (n <> (1 + S (length taken))%nat) as Hfuel.
  { intros He. assert (length (map name (seq 1 (S (length taken)))) <= length taken)%nat as Hle; [|rewrite length_map, length_seq in Hle; lia].
    apply submseteq_length, NoDup_submseteq.
    - apply NoDup_ListNoDup, Finite.Injective_map_NoDup_in; [|apply seq_NoDup]. intros j k Hj%in_seq Hk%in_seq. apply Hinj; lia.
    - intros x Hx%list_elem_of_In%in_map_iff. destruct Hx as (k & <- & Hk%in_seq).
      specialize (Hall k ltac:(lia)). by apply bool_decide_eq_true in Hall. }
  destruct Hend as [Hend|Hend]; [|lia]. apply bool_decide_eq_false in Hend. split; [done|lia].
Qed.

Lemma serial_name_inj wanted j k :
  (1 <= j)%nat -> (1 <= k)%nat -> serial_name wanted j = serial_name wanted k -> j = k.
Proof.
  intros Hj Hk H. assert (forall n, serial_name wanted (S (S n)) = wanted ++ lit "_" ++ str_nat (S (S n))) as Hs by done.
  destruct j as [|[|j]], k as [|[|k]]; try lia; rewrite ?Hs in H.
  - apply (f_equal length) in H. rewrite !length_app in H. simpl in H. lia.
  - apply (f_equal length) in H. rewrite !length_app in H. simpl in H. lia.
  - apply app_inv_head in H. injection H as H. by apply str_nat_inj in H.
Qed.

Lemma free_name_fresh taken wanted : free_name taken wanted ∉ taken.
Proof. apply (first_free_is_free (serial_name wanted)). apply serial_name_inj. Qed.

Lemma claim_all_fresh wanted : forall taken names taken',
  claim_all taken wanted = (names, taken') ->
  NoDup names /\ length names = length wanted /\ (forall x, x ∈ names -> x ∉ taken) /\
  (forall x, x ∈ taken' <-> x ∈ names \/ x ∈ taken).
Proof.
  induction wanted as [|w ws IH]; intros taken names taken'; cbn [claim_all claim].
  { intros [= <- <-]. split_and!; [constructor|done|by intros x ?%elem_of_nil|]. intros x. rewrite elem_of_nil. tauto. }
  pose proof (free_name_fresh taken w) as Hf. set (name := free_name taken w) in *.
  destruct (claim_all (name :: taken) ws) as [names0 taken0] eqn:E. intros [= <- <-].
  destruct (IH _ _ _ E) as (Hn & Hl & Hd & Ht). split_and!.
  - constructor; [|done]. intros Hin. apply (Hd _ Hin). by left.
  - cbn. by rewrite Hl.
  - intros x [->|Hx]%elem_of_cons; [done|]. intros Hin. apply (Hd _ Hx). by right.
  - intros x. rewrite Ht, !elem_of_cons. tauto.
Qed.

(** ** One table of a plan being built *)

Definition columns_in (repeat : option pystr) (b : building) : list column :=
  match repeat with None => bd_parent b | Some r => default [] (dget (bd_repeats b) r) end.
Definition names_in (repeat : option pystr) (b : building) : list pystr :=
  match repeat with None => bd_parent_names b | Some r => default [] (dget (bd_repeat_names b) r) end.
(** The table has been entered. *)
Definition entered (repeat : option pystr) (b : building) : Prop :=
  match repeat with None => True | Some r => r ∈ dkeys (bd_repeats b) end.

Definition unseen (repeat : option pystr) (c : column) (b : building) : Prop :=
  versions_at (key_in repeat c) (bd_versions b) = None.

Lemma columns_emit repeat c b repeat' :
  columns_in repeat' (emit c repeat b) =
  if bool_decide (repeat' = repeat /\ unseen repeat c b) then columns_in repeat b ++ [c] else columns_in repeat' b.
Proof.
  unfold emit, unseen. destruct (versions_at _ _) eqn:E.
  - rewrite bool_decide_eq_false_2 by (intros [_ ?]; congruence). by destruct repeat'.
  - case_bool_decide as H.
    + destruct H as [-> _]. destruct repeat as [r|]; cbn; [|done]. by rewrite dget_dset_eq.
    + assert (repeat' <> repeat) as Hne by naive_solver.
      destruct repeat as [r|], repeat' as [r'|]; cbn; try done. rewrite dget_dset_ne; [done|congruence].
Qed.

Lemma names_emit repeat c b repeat' : names_in repeat' (emit c repeat b) = names_in repeat' b.
Proof. unfold emit. destruct (versions_at _ _); by destruct repeat'. Qed.

Lemma entered_emit repeat c b repeat' :
  entered repeat b -> (entered repeat' (emit c repeat b) <-> entered repeat' b).
Proof.
  unfold emit. destruct (versions_at _ _); [by destruct repeat'|]. destruct repeat' as [r'|]; [|done].
  destruct repeat as [r|]; cbn [entered bd_repeats]; [|done]. intros Hr. rewrite elem_dkeys_dset. naive_solver.
Qed.

Lemma versions_at_add k k' more l :
  versions_at k' (add_versions k more l) =
  if decide (k' = k) then (fun v => v ++ more) <$> versions_at k' l else versions_at k' l.
Proof.
  induction l as [|[k0 v0] l IH]; cbn; [by destruct (decide _)|].
  destruct (decide (k = k0)) as [->|]; cbn; destruct (decide (k' = k0)) as [->|];
    solve [done | by rewrite decide_True | by rewrite decide_False].
Qed.

Lemma versions_at_snoc k k' v l :
  versions_at k' (l ++ [(k, v)]) =
  match versions_at k' l with Some w => Some w | None => if decide (k' = k) then Some v else None end.
Proof. induction l as [|[k0 v0] l IH]; cbn; [done|]. by destruct (decide (k' = k0)). Qed.

(** After an emission the versions of its key end with its own. *)
Lemma versions_emit repeat c b k :
  versions_at k (bd_versions (emit c repeat b)) =
  if decide (k = key_in repeat c) then Some (default [] (versions_at k (bd_versions b)) ++ cl_versions c)
  else versions_at k (bd_versions b).
Proof.
  unfold emit. destruct (versions_at (key_in repeat c) (bd_versions b)) as [v|] eqn:E; cbn [bd_versions].
  - rewrite versions_at_add. destruct (decide _) as [->|]; [by rewrite E|done].
  - rewrite versions_at_snoc. destruct (decide (k = key_in repeat c)) as [->|]; [by rewrite E|].
    by destruct (versions_at k (bd_versions b)).
Qed.

(** ** Handing out a name *)

Definition claimed (repeat : option pystr) (wanted : pystr) (own : bool) (b : building) : pystr :=
  if own then wanted else free_name (names_in repeat b) wanted.

Definition claim_in_spec (repeat : option pystr) (wanted : pystr) (own : bool) (b b' : building) : Prop :=
  (forall r, columns_in r b' = columns_in r b) /\
  (forall r, names_in r b' = if decide (r = repeat) then claimed repeat wanted own b :: names_in repeat b else names_in r b) /\
  (forall r, entered r b' <-> entered r b) /\
  bd_versions b' = bd_versions b /\ bd_repeats b' = bd_repeats b /\ bd_repeat_versions b' = bd_repeat_versions b.

Lemma claim_in_ok repeat wanted own b :
  (claim_in repeat wanted own b).1 = claimed repeat wanted own b /\
  claim_in_spec repeat wanted own b (claim_in repeat wanted own b).2.
Proof.
  unfold claim_in_spec. destruct repeat as [r|]; cbn [claim_in]; unfold claimed, claim, names_in; destruct own; cbn [fst snd];
    (split; [done|]); (split_and!; try done; intros [r'|]; cbn; try done);
    (destruct (decide _) as [[= ->]|]; [by rewrite dget_dset_eq|rewrite dget_dset_ne by congruence; done]).
Qed.

(** ** The names of a table stay distinct *)

Definition own_kept (repeat : option pystr) (b : building) (c : column) : Prop :=
  cl_field c = Some (cl_name c) /\ is_Some (versions_at (repeat, cl_name c, None, Field) (bd_versions b)).

Record table_names (reserved : list pystr) (repeat : option pystr) (b : building) : Prop := TableNames {
  tn_distinct : NoDup (map cl_name (columns_in repeat b));
  tn_reserved : forall x, x ∈ reserved -> x ∈ names_in repeat b;
  tn_taken : forall c, c ∈ columns_in repeat b -> cl_name c ∈ names_in repeat b;
  tn_own : forall c, c ∈ columns_in repeat b -> if is_own c then own_kept repeat b c else cl_name c ∉ reserved
}.

Definition names_ok (reserved : list pystr) (b : building) : Prop := forall repeat, entered repeat b -> table_names reserved repeat b.

Lemma own_key repeat c :
  is_own c = true -> cl_field c = Some (cl_name c) -> key_in repeat c = (repeat, cl_name c, None, Field).
Proof.
  unfold is_own, key_in. intros [-> ->]%bool_decide_eq_true ->. by destruct (cl_name c).
Qed.

Lemma own_kept_emit repeat repeat' c c' b : own_kept repeat b c -> own_kept repeat (emit c' repeat' b) c.
Proof. intros [Ho Hv]. split; [done|]. rewrite versions_emit. by destruct (decide _). Qed.

(** A column is added under a name nobody has, or is a question's own. *)
Lemma table_names_emit reserved repeat b c :
  table_names reserved repeat b -> cl_name c ∈ names_in repeat b ->
  (if is_own c then cl_name c ∈ reserved /\ cl_field c = Some (cl_name c)
   else cl_name c ∉ reserved /\ cl_name c ∉ map cl_name (columns_in repeat b)) ->
  table_names reserved repeat (emit c repeat b).
Proof.
  intros [Hd Hr Ht Ho] Hin Hc.
  assert (if is_own c then own_kept repeat (emit c repeat b) c else cl_name c ∉ reserved) as Hnew.
  { destruct (is_own c) eqn:E; [|tauto]. destruct Hc as [_ Hf]. split; [done|].
    rewrite versions_emit, (own_key repeat c E Hf). by rewrite decide_True. }
  assert (forall x, x ∈ columns_in repeat (emit c repeat b) -> x ∈ columns_in repeat b \/ x = c) as Hcols.
  { intros x. rewrite columns_emit. case_bool_decide; [|by left]. rewrite elem_of_app, list_elem_of_singleton. tauto. }
  constructor.
  - rewrite columns_emit. case_bool_decide as Hu; [|done]. destruct Hu as [_ Hu]. rewrite map_app. apply NoDup_app. split_and!; [done| |by apply NoDup_singleton].
    intros x Hx ->%list_elem_of_singleton. destruct (is_own c) eqn:E; [|by apply Hc].
    destruct Hc as [Hres Hf]. apply list_elem_of_In, in_map_iff in Hx. destruct Hx as (c0 & Hname & Hc0%list_elem_of_In).
    pose proof (Ho _ Hc0) as H0. destruct (is_own c0); [|by rewrite Hname in H0]. destruct H0 as [_ [v Hv]].
    unfold unseen in Hu. rewrite (own_key repeat c E Hf), <- Hname in Hu. congruence.
  - intros x Hx. rewrite names_emit. by apply Hr.
  - intros x [Hx| ->]%Hcols; rewrite names_emit; [by apply Ht|done].
  - intros x [Hx| ->]%Hcols; [|done]. pose proof (Ho _ Hx) as H0. destruct (is_own x); [by apply own_kept_emit|done].
Qed.

Lemma table_names_other reserved repeat repeat' b c :
  repeat' <> repeat -> table_names reserved repeat' b -> table_names reserved repeat' (emit c repeat b).
Proof.
  intros Hne [Hd Hr Ht Ho]. assert (columns_in repeat' (emit c repeat b) = columns_in repeat' b) as He.
  { rewrite columns_emit. by rewrite bool_decide_eq_false_2 by tauto. }
  constructor; rewrite ?He, ?names_emit; try done. intros x Hx. pose proof (Ho _ Hx) as H0.
  destruct (is_own x); [by apply own_kept_emit|done].
Qed.

(** Claiming changes only the names taken. *)
Lemma table_names_claim reserved repeat wanted own b b' repeat' :
  claim_in_spec repeat wanted own b b' -> table_names reserved repeat' b -> table_names reserved repeat' b'.
Proof.
  intros (Hc & Hn & _ & Hv & _) [Hd Hr Ht Ho].
  assert (forall x, x ∈ names_in repeat' b -> x ∈ names_in repeat' b') as Hmore.
  { intros x Hx. rewrite Hn. destruct (decide _) as [->|]; [by right|done]. }
  constructor; rewrite ?Hc; [done|auto|auto|]. intros c Hin. unfold own_kept. rewrite Hv. by apply Ho.
Qed.

Lemma claimed_fresh reserved repeat wanted b :
  table_names reserved repeat b ->
  claimed repeat wanted false b ∉ reserved /\ claimed repeat wanted false b ∉ map cl_name (columns_in repeat b).
Proof.
  intros [Hd Hr Ht Ho]. pose proof (free_name_fresh (names_in repeat b) wanted) as Hf. unfold claimed. split; [auto|].
  intros (c & Hc & Hin%list_elem_of_In)%list_elem_of_In%in_map_iff. rewrite <- Hc in Hf. auto.
Qed.

Lemma with_name_own name c : is_own (with_name name c) = is_own c.
Proof. done. Qed.

(** A column is placed: its name is claimed, then it is emitted. *)
Lemma place_emits repeat b c :
  exists b', claim_in_spec repeat (cl_name c) (is_own c) b b' /\
    place repeat b c = emit (with_name (claimed repeat (cl_name c) (is_own c) b) c) repeat b'.
Proof.
  unfold place. destruct (claim_in_ok repeat (cl_name c) (is_own c) b) as [Hn Hs].
  destruct (claim_in repeat (cl_name c) (is_own c) b) as [name b'] eqn:E. cbn in Hn, Hs. subst name. by exists b'.
Qed.

Lemma place_names reserved repeat b c :
  entered repeat b -> (is_own c = true -> cl_name c ∈ reserved /\ cl_field c = Some (cl_name c)) ->
  names_ok reserved b -> names_ok reserved (place repeat b c) /\ (forall r, entered r (place repeat b c) <-> entered r b).
Proof.
  intros He Hc Hok. destruct (place_emits repeat b c) as (b' & Hs & ->). pose proof Hs as (Hcols & Hnames & Hent & Hv & _).
  assert (forall r, entered r (emit (with_name (claimed repeat (cl_name c) (is_own c) b) c) repeat b') <-> entered r b) as Hall.
  { intros r. rewrite entered_emit by by apply Hent. apply Hent. }
  split; [|done]. intros r Hr%Hall. destruct (decide (r = repeat)) as [->|Hne].
  - apply table_names_emit; [by eapply table_names_claim; [|apply Hok]| |].
    + rewrite Hnames, decide_True by done. by left.
    + rewrite with_name_own, Hcols. destruct (is_own c) eqn:E; cbn [claimed with_name cl_name cl_field]; [by apply Hc|].
      apply claimed_fresh. by apply Hok.
  - apply table_names_other; [done|]. eapply table_names_claim; [done|]. by apply Hok.
Qed.

(** ** Entering a repeat *)

Lemma names_ok_ext reserved b b' :
  (forall r, columns_in r b' = columns_in r b) -> (forall r, names_in r b' = names_in r b) ->
  (forall r, entered r b' <-> entered r b) -> bd_versions b' = bd_versions b ->
  names_ok reserved b -> names_ok reserved b'.
Proof.
  intros Hc Hn He Hv Hok repeat Hr%He. destruct (Hok _ Hr) as [Hd Hres Ht Ho].
  constructor; unfold own_kept; rewrite ?Hc, ?Hn, ?Hv; done.
Qed.

Lemma note_dataset_same i q b :
  (forall r, columns_in r (note_dataset i q b) = columns_in r b) /\ (forall r, names_in r (note_dataset i q b) = names_in r b) /\
  (forall r, entered r (note_dataset i q b) <-> entered r b) /\ bd_versions (note_dataset i q b) = bd_versions b /\
  bd_repeats (note_dataset i q b) = bd_repeats b /\ bd_repeat_versions (note_dataset i q b) = bd_repeat_versions b.
Proof. unfold note_dataset. destruct q; split_and!; try done; by intros []. Qed.

Lemma entered_enter reserved repeat v b r :
  entered r (enter_repeat reserved repeat v b) <-> r = repeat \/ entered r b.
Proof.
  destruct repeat as [r0|]; cbn [enter_repeat]; [|destruct r; cbn; naive_solver].
  destruct r as [r|]; cbn [entered bd_repeats]; [|naive_solver].
  destruct (dhas _ _) eqn:E; [apply dhas_spec in E|rewrite elem_dkeys_dset]; naive_solver.
Qed.

Lemma columns_enter reserved repeat v b r :
  columns_in r (enter_repeat reserved repeat v b) = columns_in r b.
Proof.
  destruct repeat as [r0|]; cbn [enter_repeat]; [|done]. destruct r as [r|]; cbn [columns_in bd_repeats bd_parent]; [|done].
  destruct (dhas _ _) eqn:E; [done|]. destruct (decide (r = r0)) as [->|]; [|by rewrite dget_dset_ne].
  rewrite dget_dset_eq. unfold dhas in E. by destruct (dget _ r0).
Qed.

Lemma versions_enter reserved repeat v b : bd_versions (enter_repeat reserved repeat v b) = bd_versions b.
Proof. by destruct repeat. Qed.

Lemma enter_names reserved repeat v b : names_ok reserved b -> names_ok reserved (enter_repeat reserved repeat v b).
Proof.
  intros Hok r Hr. assert (entered r b -> names_in r (enter_repeat reserved repeat v b) = names_in r b) as Hn.
  { destruct repeat as [r0|]; [|done]. destruct r as [r|]; cbn [enter_repeat entered names_in bd_repeat_names bd_parent_names]; [|done].
    intros Hin%dhas_spec. destruct (dhas _ r0) eqn:E; [done|]. rewrite dget_dset_ne; [done|]. congruence. }
  destruct (decide (dhas (bd_repeats b) (default [] r) = true \/ r = None)) as [Hin|Hnot].
  - assert (entered r b) as He. { destruct r; [|done]. destruct Hin as [Hin%dhas_spec|]; done. }
    destruct (Hok _ He) as [Hd Hres Ht Ho]. constructor; unfold own_kept; rewrite ?columns_enter, ?versions_enter, ?Hn by done; done.
  - apply entered_enter in Hr as [->|He]; [|destruct Hnot; destruct r; [left; by apply dhas_spec|by right]].
    destruct repeat as [r|]; [|destruct Hnot; by right].
    assert (dhas (bd_repeats b) r = false) as Hno by (apply not_true_is_false; intros ?; destruct Hnot; by left).
    assert (columns_in (Some r) b = []) as Hc.
    { unfold dhas in Hno. cbn [columns_in]. by destruct (dget _ r). }
    constructor; rewrite ?columns_enter, ?Hc; [constructor| |by intros ? ?%elem_of_nil..].
    intros x Hx. cbn [enter_repeat names_in bd_repeat_names]. by rewrite Hno, dget_dset_eq.
Qed.

(** ** The whole plan *)

Lemma fold_left_keeps {A B} (I : B -> Prop) (P : A -> Prop) (f : B -> A -> B) l b :
  (forall x, x ∈ l -> P x) -> (forall b x, I b -> P x -> I (f b x)) -> I b -> I (fold_left f l b).
Proof.
  revert b. induction l as [|x l IH]; intros b Hp Hf Hb; [done|]. cbn. apply IH; [..|apply Hf; [done|apply Hp; by left]].
  - intros y Hy. apply Hp. by right.
  - done.
Qed.

Lemma columns_for_own i dt label repeat v c :
  c ∈ columns_for i dt label repeat v ->
  cl_field c = Some i /\ cl_repeat c = repeat /\ cl_type c = Some dt /\ cl_versions c = [v] /\ cl_position c = None /\
  (cl_source c = Field \/ cl_source c = Label) /\ (is_own c = true -> cl_name c = i).
Proof.
  unfold columns_for. destruct (str_eqb dt "note"); [by intros ?%elem_of_nil|]. destruct (dget COMPONENTS dt).
  - intros (p & <- & _)%list_elem_of_In%in_map_iff. cbn. split_and!; try done; try (by left).
  - intros [->|Hc]%elem_of_cons; cbn; [split_and!; solve [done | by left]|].
    case_bool_decide; [|by apply elem_of_nil in Hc]. apply list_elem_of_singleton in Hc as ->. cbn.
    split_and!; try done; try (by right).
Qed.

Section Planned.
Context {env : PyEnv} {uni : UnicodeDB} (language : option pystr).

Lemma plan_field_names reserved f b i :
  (forall j, j ∈ dkeys (f_fields f) -> j ∈ reserved) -> names_ok reserved b -> names_ok reserved (plan_field language reserved f b i).
Proof.
  intros Hres Hok. unfold plan_field. destruct (dget (f_fields f) i) as [cf|] eqn:E; [|done].
  set (b1 := note_dataset _ _ _). set (rep := cf_repeat cf).
  assert (names_ok reserved b1 /\ entered rep b1) as H1.
  { destruct (note_dataset_same i (cf_choice_query cf) (enter_repeat reserved rep (form_version_number f) b)) as (Hc & Hn & He & Hv & _).
    split; [|apply He, entered_enter; by left]. eapply names_ok_ext; [done..|]. by apply enter_names. }
  apply (fold_left_keeps (fun b => names_ok reserved b /\ entered rep b)
           (fun c => is_own c = true -> cl_name c ∈ reserved /\ cl_field c = Some (cl_name c))); [..|done].
  - intros c Hc Ho. destruct (columns_for_own _ _ _ _ _ _ Hc) as (Hf & _ & _ & _ & _ & _ & Hn). rewrite (Hn Ho). split; [|done].
    apply Hres. apply dget_elem. by exists cf.
  - intros b' c [Hb He] Hc. destruct (place_names reserved rep b' c He Hc Hb) as [? H']. split; [done|by apply H'].
Qed.

Lemma emit_count_names reserved b r : names_ok reserved b -> names_ok reserved (emit_count b r).
Proof.
  intros Hok. unfold emit_count. destruct (claim_in_ok None (r ++ COUNT_SUFFIX) false b) as [Hn Hs].
  destruct (claim_in None (r ++ COUNT_SUFFIX) false b) as [name b'] eqn:E. cbn [fst snd] in Hn, Hs. subst name.
  pose proof Hs as (Hcols & Hnames & Hent & Hv & _). intros repeat Hr. rewrite entered_emit in Hr by done. apply Hent in Hr.
  assert (table_names reserved repeat b') as Ht by (eapply table_names_claim; [done|by apply Hok]).
  destruct repeat as [r'|]; [by apply table_names_other|]. apply table_names_emit; [done|..].
  - rewrite Hnames, decide_True by done. by left.
  - rewrite Hcols. cbn [is_own count_column cl_source cl_name]. change (is_own _) with false. cbv iota.
    apply (claimed_fresh reserved None (r ++ COUNT_SUFFIX) b). by apply Hok.
Qed.

(** The names every version's questions have. *)
Definition reserved_by (forms : list cform) : list pystr := concat (map (fun f => dkeys (f_fields f)) (by_version forms)).

Definition blank_building (forms : list cform) : building := Building [] [] (reserved_by forms) [] [] [] [].

(** What is built before the metadata columns. *)
Definition built (forms : list cform) : building :=
  let b := fold_left (plan_form language (reserved_by forms)) (by_version forms) (blank_building forms) in
  fold_left emit_count (dkeys (bd_repeats b)) b.

Lemma built_names forms : names_ok (reserved_by forms) (built forms).
Proof.
  unfold built. apply (fold_left_keeps (names_ok (reserved_by forms)) (fun _ => True)); [done|intros; by apply emit_count_names|].
  apply (fold_left_keeps (names_ok (reserved_by forms)) (fun f => forall j, j ∈ dkeys (f_fields f) -> j ∈ reserved_by forms)).
  - intros f Hf j Hj. unfold reserved_by. apply list_elem_of_In, in_concat. exists (dkeys (f_fields f)).
    split; [|by apply list_elem_of_In]. apply (in_map (fun f => dkeys (f_fields f))). by apply list_elem_of_In.
  - intros b f Hb Hf. apply (fold_left_keeps _ (fun _ => True)); [done|intros; by apply plan_field_names|done].
  - intros [r|] He; [by apply elem_of_nil in He|]. constructor; cbn; [constructor|done|by intros ? ?%elem_of_nil..].
Qed.

Lemma meta_names repeat wanted names :
  length names = length wanted -> map cl_name (zip_with (fun named name => meta_column repeat name named) wanted names) = names.
Proof. revert names. induction wanted as [|w ws IH]; intros [|n ns] [=]; [done|]. cbn. by rewrite IH. Qed.

Lemma versioned_name b c : cl_name (versioned b c) = cl_name c.
Proof. unfold versioned. by destruct (cl_source c). Qed.

Lemma table_distinct reserved repeat b wanted named (finish : column -> column) :
  (forall c, cl_name (finish c) = cl_name c) -> table_names reserved repeat b -> wanted = map fst named ->
  NoDup (map cl_name (zip_with (fun w name => meta_column repeat name w) named (claim_all (names_in repeat b) wanted).1 ++
                      map finish (columns_in repeat b))).
Proof.
  intros Hf [Hd _ Ht _] ->. destruct (claim_all (names_in repeat b) (map fst named)) as [names taken] eqn:E.
  destruct (claim_all_fresh _ _ _ _ E) as (Hn & Hl & Hfresh & _). cbn [fst]. rewrite length_map in Hl.
  rewrite map_app, meta_names, map_map, (map_ext _ cl_name) by done. apply NoDup_app. split_and!; [done| |done].
  intros x Hx (c & <- & Hc%list_elem_of_In)%list_elem_of_In%in_map_iff. by apply (Hfresh _ Hx), Ht.
Qed.

Lemma plan_of_built forms :
  pl_parent (build_plan forms language) =
    zip_with (fun w name => meta_column None name w) META_COLUMNS (claim_all (names_in None (built forms)) (map fst META_COLUMNS)).1 ++
    map (versioned (built forms)) (columns_in None (built forms)) /\
  pl_repeats (build_plan forms language) =
    map (fun rc => (rc.1, key_columns (built forms) rc.1 ++ map (versioned (built forms)) rc.2)) (bd_repeats (built forms)).
Proof. done. Qed.

(** The tables of repeats are named apart. *)
Lemma emit_repeats repeat c b : NoDup (dkeys (bd_repeats b)) -> NoDup (dkeys (bd_repeats (emit c repeat b))).
Proof. intros H. unfold emit. destruct (versions_at _ _), repeat; try done. by apply NoDup_dkeys_dset. Qed.

Lemma place_repeats repeat c b : NoDup (dkeys (bd_repeats b)) -> NoDup (dkeys (bd_repeats (place repeat b c))).
Proof.
  intros H. destruct (place_emits repeat b c) as (b' & (_ & _ & _ & _ & Hr & _) & ->). apply emit_repeats. by rewrite Hr.
Qed.

Lemma built_repeats forms : NoDup (dkeys (bd_repeats (built forms))).
Proof.
  unfold built. apply (fold_left_keeps (fun b => NoDup (dkeys (bd_repeats b))) (fun _ => True)); [done|..].
  - intros b r Hb _. unfold emit_count. destruct (claim_in_ok None (r ++ COUNT_SUFFIX) false b) as [_ (_ & _ & _ & _ & Hr & _)].
    destruct (claim_in _ _ _ _) as [name b']. cbn [snd] in Hr. apply emit_repeats. by rewrite Hr.
  - apply (fold_left_keeps (fun b => NoDup (dkeys (bd_repeats b))) (fun _ => True)); [done| |constructor].
    intros b f Hb _. apply (fold_left_keeps (fun b => NoDup (dkeys (bd_repeats b))) (fun _ => True)); [done| |done].
    intros b1 i Hb1 _. unfold plan_field. destruct (dget _ i) as [cf|]; [|done].
    apply (fold_left_keeps (fun b => NoDup (dkeys (bd_repeats b))) (fun _ => True)); [done|intros; by apply place_repeats|].
    destruct (note_dataset_same i (cf_choice_query cf) (enter_repeat (reserved_by forms) (cf_repeat cf) (form_version_number f) b1))
      as (_ & _ & _ & _ & -> & _).
    destruct (cf_repeat cf) as [r|]; cbn [enter_repeat bd_repeats]; [|done]. destruct (dhas _ r); [done|by apply NoDup_dkeys_dset].
Qed.

Lemma plan_repeat_table forms r cols :
  (r, cols) ∈ pl_repeats (build_plan forms language) ->
  r ∈ dkeys (bd_repeats (built forms)) /\
  cols = key_columns (built forms) r ++ map (versioned (built forms)) (columns_in (Some r) (built forms)).
Proof.
  destruct (plan_of_built forms) as [_ ->].
  intros ([r' cols'] & [= <- <-] & Hin%list_elem_of_In)%list_elem_of_In%in_map_iff. cbn.
  split; [apply (list_elem_of_fmap_2 fst _ _ Hin)|]. f_equal. by rewrite (dget_elem_NoDup _ _ _ (built_repeats forms) Hin).
Qed.

Lemma parent_names_distinct forms : NoDup (map cl_name (pl_parent (build_plan forms language))).
Proof.
  destruct (plan_of_built forms) as [-> _].
  apply (table_distinct (reserved_by forms)); [apply versioned_name|by apply built_names|done].
Qed.

Lemma repeat_names_distinct forms r cols :
  (r, cols) ∈ pl_repeats (build_plan forms language) -> NoDup (map cl_name cols).
Proof.
  intros [Hr ->]%plan_repeat_table.
  apply (table_distinct (reserved_by forms) (Some r)); [apply versioned_name|by apply built_names|done].
Qed.

(** A question keeps its identifier as the name of its column. *)
Lemma own_column_named forms repeat c :
  entered repeat (built forms) -> c ∈ columns_in repeat (built forms) -> is_own c = true -> cl_field c = Some (cl_name c).
Proof. intros Hr Hc Ho. pose proof (tn_own _ _ _ (built_names forms _ Hr) _ Hc) as H. rewrite Ho in H. apply H. Qed.

(** ** The wide table *)

Definition flat_ok (acc : list (pystr * nat * column) * list pystr) (parent : list pystr) : Prop :=
  NoDup (parent ++ map cl_name (map snd acc.1)) /\ (forall x, x ∈ parent ++ map cl_name (map snd acc.1) -> x ∈ acc.2).

Lemma flatten_step_ok r position acc parent c : flat_ok acc parent -> flat_ok (flatten_step r position acc c) parent.
Proof.
  intros [Hn Ht]. unfold flatten_step. destruct (is_meta c); [done|]. unfold claim.
  pose proof (free_name_fresh acc.2 (wide_name r position (cl_name c))) as Hf. set (name := free_name _ _) in *.
  unfold flat_ok. cbn [fst snd]. rewrite !map_app, app_assoc. cbn. split.
  - apply NoDup_app. split_and!; [done| |apply NoDup_singleton]. intros x Hx ->%list_elem_of_singleton. by apply Hf, Ht.
  - intros x [Hx| ->%list_elem_of_singleton]%elem_of_app; [right; by apply Ht|by left].
Qed.

Lemma wide_names_distinct forms records :
  NoDup (map cl_name (pl_parent (build_plan forms language) ++
                      map snd (flatten records (build_plan forms language)))).
Proof.
  rewrite map_app. set (parent := map cl_name (pl_parent (build_plan forms language))).
  apply (fold_left_keeps (fun acc => flat_ok acc parent) (fun _ => True)); [done|..].
  - intros acc rc Hacc _. apply (fold_left_keeps (fun acc => flat_ok acc parent) (fun _ => True)); [done| |done].
    intros acc' position Hacc' _. apply (fold_left_keeps (fun acc => flat_ok acc parent) (fun _ => True)); [done| |done].
    intros; by apply flatten_step_ok.
  - unfold flat_ok. cbn [fst snd map]. rewrite app_nil_r. split; [apply parent_names_distinct|done].
Qed.

End Planned.

(** ** First occurrences *)

#[export] Instance column_key_eq_dec : EqDecision column_key.
Proof. unfold column_key. solve_decision. Defined.

Definition has_key (k : column_key) (c : column) : bool := bool_decide (key_of c = k).

(** The columns of a list, one per key: the first. *)
Definition keep_first (kept : list column) (c : column) : list column :=
  if existsb (has_key (key_of c)) kept then kept else kept ++ [c].

Definition firsts (l : list column) : list column := fold_left keep_first l [].

Definition in_table (repeat : option pystr) (c : column) : bool := bool_decide (cl_repeat c = repeat).

(** Every version that has a column of the key. *)
Definition versions_of (k : column_key) (l : list column) : list Z := concat (map cl_versions (List.filter (has_key k) l)).

Section Union.
Context {env : PyEnv} {uni : UnicodeDB} (language : option pystr).

(** The columns of one question of one version. *)
Definition question_columns (f : cform) (i : pystr) : list column :=
  match dget (f_fields f) i with
  | None => []
  | Some cf => columns_for i (cf_data_type cf) (label_of (cf_node cf) f language) (cf_repeat cf) (form_version_number f)
  end.

Definition form_columns (f : cform) : list column := concat (map (question_columns f) (f_order f)).

(** Those of every version, oldest first. *)
Definition questions (forms : list cform) : list column := concat (map form_columns (by_version forms)).

(** The answer columns a table should have, their names apart. *)
Definition union_columns (forms : list cform) (repeat : option pystr) : list column :=
  map (fun c => with_name [] (with_column_versions (sorted_versions (versions_of (key_of c) (questions forms))) c))
    (List.filter (in_table repeat) (firsts (questions forms))).

End Union.

Lemma firsts_snoc l c :
  firsts (l ++ [c]) = if existsb (has_key (key_of c)) (firsts l) then firsts l else firsts l ++ [c].
Proof. unfold firsts. by rewrite fold_left_app. Qed.

Lemma existsb_key k l : existsb (has_key k) l = true <-> k ∈ map key_of l.
Proof.
  rewrite existsb_exists, list_elem_of_In, in_map_iff. unfold has_key. split.
  - intros (c & Hc & Hk%bool_decide_eq_true). by exists c.
  - intros (c & Hk & Hc). exists c. split; [done|by apply bool_decide_eq_true].
Qed.

Lemma firsts_keys l : forall k, k ∈ map key_of (firsts l) <-> k ∈ map key_of l.
Proof.
  induction l as [|c l IH] using rev_ind; intros k; [done|]. rewrite firsts_snoc, map_app, elem_of_app, <- IH. cbn [map].
  rewrite list_elem_of_singleton. destruct (existsb _ _) eqn:E.
  - apply existsb_key in E. naive_solver.
  - rewrite map_app, elem_of_app. cbn [map]. by rewrite list_elem_of_singleton.
Qed.

Lemma firsts_incl l c : c ∈ firsts l -> c ∈ l.
Proof.
  induction l as [|x l IH] using rev_ind; [done|]. rewrite firsts_snoc, elem_of_app.
  destruct (existsb _ _); [auto|]. rewrite elem_of_app, list_elem_of_singleton. naive_solver.
Qed.

Lemma firsts_distinct l : NoDup (map key_of (firsts l)).
Proof.
  induction l as [|c l IH] using rev_ind; [constructor|]. rewrite firsts_snoc. destruct (existsb _ _) eqn:E; [done|].
  rewrite map_app. apply NoDup_app. split_and!; [done| |apply NoDup_singleton].
  intros k Hk ->%list_elem_of_singleton. apply existsb_key in Hk. congruence.
Qed.

Lemma versions_of_snoc k l c : versions_of k (l ++ [c]) = versions_of k l ++ (if has_key k c then cl_versions c else []).
Proof.
  unfold versions_of. rewrite List.filter_app, map_app, concat_app. cbn. destruct (has_key k c); cbn; by rewrite ?app_nil_r.
Qed.

(** ** The plan as it is built *)

Definition unnamed (c : column) : column := with_name [] (with_column_versions [] c).

(** A column whose key does not depend on the name it is given. *)
Definition identified (c : column) : Prop := exists i0 i, cl_field c = Some (i0 :: i).

Lemma key_named name c repeat : identified c -> cl_repeat c = repeat -> key_in repeat (with_name name c) = key_of c.
Proof. intros (i0 & i & Hi) <-. unfold key_of, key_in. cbn. by rewrite Hi. Qed.

Record union_so_far (met : list column) (b : building) : Prop := UnionSoFar {
  us_columns : forall repeat,
    map unnamed (List.filter is_value_column (columns_in repeat b)) =
    map unnamed (List.filter (in_table repeat) (firsts met));
  us_seen : forall k, k.2 <> Count -> is_Some (versions_at k (bd_versions b)) <-> k ∈ map key_of met;
  us_versions : forall k, k.2 <> Count -> default [] (versions_at k (bd_versions b)) = versions_of k met
}.

Lemma union_ext met b b' :
  (forall r, columns_in r b' = columns_in r b) -> bd_versions b' = bd_versions b -> union_so_far met b -> union_so_far met b'.
Proof. intros Hc Hv [H1 H2 H3]. constructor; rewrite ?Hv; try done. intros r. by rewrite Hc. Qed.

Lemma place_union met b c repeat :
  identified c -> cl_repeat c = repeat -> is_value_column c = true -> union_so_far met b ->
  union_so_far (met ++ [c]) (place repeat b c).
Proof.
  intros Hi Hr Hval [Hcols Hseen Hvers]. destruct (place_emits repeat b c) as (b' & (Hc & _ & _ & Hv & _) & ->).
  set (c' := with_name _ c). assert (key_in repeat c' = key_of c) as Hk by by apply key_named.
  assert ((key_of c).2 <> Count) as Hnc.
  { clear -Hval. unfold is_value_column, key_of in *. cbn. by destruct (cl_source c). }
  assert (unseen repeat c' b' <-> existsb (has_key (key_of c)) (firsts met) = false) as Hu.
  { unfold unseen. rewrite Hk, Hv, <- not_true_iff_false, existsb_key, firsts_keys, <- Hseen, <- eq_None_not_Some by done. done. }
  constructor.
  - intros repeat'. rewrite columns_emit, firsts_snoc, !Hc.
    destruct (existsb _ _) eqn:E; [rewrite bool_decide_eq_false_2 by (rewrite Hu; intros [_ ?]; congruence); apply Hcols|].
    case_bool_decide as Hd.
    + destruct Hd as [-> _]. rewrite !List.filter_app, !map_app, Hcols. f_equal. cbn.
      unfold in_table. rewrite Hr, bool_decide_eq_true_2 by done. change (is_value_column c') with (is_value_column c).
      by rewrite Hval.
    + rewrite List.filter_app, map_app, Hcols. cbn. unfold in_table at 3.
      rewrite bool_decide_eq_false_2 by (intros ?; apply Hd; split; [congruence|by apply Hu]). by rewrite app_nil_r.
  - intros k Hkn. rewrite versions_emit, Hk, Hv, map_app, elem_of_app, <- Hseen by done. cbn [map].
    rewrite list_elem_of_singleton. destruct (decide _); [|tauto]. split; [by right|by eexists].
  - intros k Hkn. rewrite versions_emit, Hk, Hv, versions_of_snoc, <- Hvers by done. unfold has_key.
    destruct (decide _) as [->|Hne]; [by rewrite bool_decide_eq_true_2|].
    rewrite bool_decide_eq_false_2 by congruence. by rewrite app_nil_r.
Qed.

Lemma places_union repeat l : forall met b,
  Forall (fun c => identified c /\ cl_repeat c = repeat /\ is_value_column c = true) l -> union_so_far met b ->
  union_so_far (met ++ l) (fold_left (place repeat) l b).
Proof.
  induction l as [|c l IH]; intros met b Hl Hb; [by rewrite app_nil_r|]. apply Forall_cons in Hl as [(Hi & Hr & Hv) Hl].
  cbn [fold_left]. replace (met ++ c :: l) with ((met ++ [c]) ++ l) by by rewrite <- app_assoc.
  apply IH; [done|]. by apply place_union.
Qed.

(** A question's identifier is not empty. *)
Definition ids_given (forms : list cform) : Prop := forall f, f ∈ forms -> [] ∉ dkeys (f_fields f).

Lemma by_version_elem forms f : f ∈ by_version forms <-> f ∈ forms.
Proof. unfold by_version. by rewrite sort_by_perm. Qed.

Section Union.
Context {env : PyEnv} {uni : UnicodeDB} (language : option pystr).

Lemma question_column f i c :
  c ∈ question_columns language f i ->
  exists cf, dget (f_fields f) i = Some cf /\ cl_field c = Some i /\ cl_type c = Some (cf_data_type cf) /\
    cl_repeat c = cf_repeat cf /\ cl_versions c = [form_version_number f] /\ cl_position c = None /\
    (cl_source c = Field \/ cl_source c = Label).
Proof.
  unfold question_columns. destruct (dget (f_fields f) i) as [cf|]; [|by intros ?%elem_of_nil].
  intros Hc. exists cf. destruct (columns_for_own _ _ _ _ _ _ Hc) as (? & ? & ? & ? & ? & ? & _). done.
Qed.

Lemma plan_field_union f met b i :
  [] ∉ dkeys (f_fields f) -> forall reserved, union_so_far met b ->
  union_so_far (met ++ question_columns language f i) (plan_field language reserved f b i).
Proof.
  intros Hne reserved Hb. unfold plan_field, question_columns. destruct (dget (f_fields f) i) as [cf|] eqn:E; [|by rewrite app_nil_r].
  apply places_union.
  - apply Forall_forall. intros c Hc. destruct (columns_for_own _ _ _ _ _ _ Hc) as (Hf & Hr & _ & _ & _ & Hs & _).
    split_and!; [|done|unfold is_value_column; by destruct Hs as [-> | ->]].
    destruct i as [|i0 i]; [|by exists i0, i]. destruct Hne. apply dget_elem. by exists cf.
  - destruct (note_dataset_same i (cf_choice_query cf) (enter_repeat reserved (cf_repeat cf) (form_version_number f) b))
      as (Hc & _ & _ & Hv & _).
    eapply union_ext; [done..|]. eapply union_ext; [intros; by rewrite columns_enter|by rewrite versions_enter|done].
Qed.

Lemma plan_form_union f met b reserved :
  [] ∉ dkeys (f_fields f) -> union_so_far met b ->
  union_so_far (met ++ form_columns language f) (plan_form language reserved b f).
Proof.
  intros Hne. unfold plan_form, form_columns. generalize (f_order f) as l. intros l. revert met b.
  induction l as [|i l IH]; intros met b Hb; [by rewrite app_nil_r|]. cbn. rewrite app_assoc.
  by apply IH, plan_field_union.
Qed.

Lemma plan_forms_union l reserved : forall met b,
  (forall f, f ∈ l -> [] ∉ dkeys (f_fields f)) -> union_so_far met b ->
  union_so_far (met ++ concat (map (form_columns language) l)) (fold_left (plan_form language reserved) l b).
Proof.
  induction l as [|f l IH]; intros met b Hne Hb; [by rewrite app_nil_r|]. cbn. rewrite app_assoc.
  apply IH; [intros; apply Hne; by right|]. apply plan_form_union; [|done]. apply Hne. by left.
Qed.

Lemma emit_count_union met b r : union_so_far met b -> union_so_far met (emit_count b r).
Proof.
  intros [Hcols Hseen Hvers]. unfold emit_count.
  destruct (claim_in_ok None (r ++ COUNT_SUFFIX) false b) as [_ (Hc & _ & _ & Hv & _)].
  destruct (claim_in None (r ++ COUNT_SUFFIX) false b) as [name b']. cbn [snd] in Hc, Hv.
  set (c := count_column _ _ _).
  assert (forall k, k.2 <> Count -> versions_at k (bd_versions (emit c None b')) = versions_at k (bd_versions b)) as Hk.
  { intros k Hne. rewrite versions_emit, Hv. rewrite decide_False; [done|]. by intros ->. }
  constructor.
  - intros repeat. rewrite columns_emit, !Hc, <- Hcols. case_bool_decide as Hd; [|done]. destruct Hd as [-> _].
    rewrite List.filter_app. cbn. by rewrite app_nil_r.
  - intros k Hne. rewrite Hk by done. by apply Hseen.
  - intros k Hne. rewrite Hk by done. by apply Hvers.
Qed.

Lemma built_union forms : ids_given forms -> union_so_far (questions language forms) (built language forms).
Proof.
  intros Hne. unfold built. apply (fold_left_keeps (union_so_far (questions language forms)) (fun _ => True)); [done|intros; by apply emit_count_union|].
  change (questions language forms) with ([] ++ questions language forms). apply plan_forms_union.
  - intros f Hf. exact (Hne f (proj1 (by_version_elem _ _) Hf)).
  - constructor; [by intros []|intros; cbn; split; [by intros []|by intros ?%elem_of_nil]|done].
Qed.

Lemma map_unnamed l l0 : map unnamed l = map unnamed l0 -> Forall2 (fun c c0 => unnamed c = unnamed c0) l l0.
Proof.
  revert l0. induction l as [|c l IH]; intros [|c0 l0] H; try done. constructor; [|apply IH].
  - by apply (f_equal head), Some_inj in H.
  - by apply (f_equal tail) in H.
Qed.

(** A column of a table, finished: the versions of its key, its name its own. *)
Lemma finished_column forms repeat c c0 :
  ids_given forms -> c0 ∈ questions language forms -> unnamed c = unnamed c0 -> is_value_column c = true -> cl_repeat c0 = repeat ->
  with_name [] (versioned (built language forms) c) =
  with_name [] (with_column_versions (sorted_versions (versions_of (key_of c0) (questions language forms))) c0).
Proof.
  intros Hne Hc0 Hu Hval Hrep.
  apply list_elem_of_In, in_concat in Hc0. destruct Hc0 as (? & (f & <- & Hf%list_elem_of_In)%in_map_iff & Hc0).
  rewrite by_version_elem in Hf.
  apply in_concat in Hc0. destruct Hc0 as (? & (i & <- & Hi)%in_map_iff & Hc0%list_elem_of_In).
  destruct (question_column _ _ _ Hc0) as (cf & Hcf & Hfield & _).
  destruct i as [|i0 i]; [destruct (Hne f Hf); apply dget_elem; by exists cf|].
  assert (key_of c = key_of c0) as Hk.
  { unfold key_of, key_in. destruct c, c0. injection Hu. cbn in *. intros. by subst. }
  rewrite <- (us_versions _ _ (built_union forms Hne)), <- Hk.
  - unfold versioned, is_value_column in *. destruct c, c0, cl_source; injection Hu; cbn in *; try done; intros; by subst.
  - rewrite <- Hk. unfold is_value_column, key_of in *. cbn. by destruct (cl_source c).
Qed.

Lemma finished_columns forms repeat :
  ids_given forms ->
  map (with_name []) (List.filter is_value_column (map (versioned (built language forms)) (columns_in repeat (built language forms)))) =
  union_columns language forms repeat.
Proof.
  intros Hne. pose proof (us_columns _ _ (built_union forms Hne) repeat) as H. unfold union_columns.
  assert (forall l, List.filter is_value_column (map (versioned (built language forms)) l) =
                    map (versioned (built language forms)) (List.filter is_value_column l)) as Hf.
  { intros l. induction l as [|c l IH]; [done|]. cbn.
    replace (is_value_column (versioned (built language forms) c)) with (is_value_column c); [|unfold is_value_column, versioned; by destruct (cl_source c) eqn:E; cbn; rewrite ?E].
    destruct (is_value_column c); cbn; by rewrite IH. }
  rewrite Hf, map_map. 
  assert (forall c0, c0 ∈ List.filter (in_table repeat) (firsts (questions language forms)) -> c0 ∈ questions language forms /\ cl_repeat c0 = repeat) as Hin.
  { intros c0 Hc0%list_elem_of_In%filter_In. destruct Hc0 as [Hc0%list_elem_of_In Ht%bool_decide_eq_true]. split; [by apply firsts_incl|done]. }
  assert (forall c, c ∈ List.filter is_value_column (columns_in repeat (built language forms)) -> is_value_column c = true) as Hval.
  { by intros c [_ ?]%list_elem_of_In%filter_In. }
  apply map_unnamed in H. revert Hin Hval. induction H as [|c c0 l l0 Hu _ IH]; intros Hin Hval; [done|]. cbn [map]. f_equal.
  - destruct (Hin c0 ltac:(by left)). eapply finished_column; [done..| |done]. apply Hval. by left.
  - apply IH; [intros; apply Hin; by right|intros; apply Hval; by right].
Qed.

Lemma value_columns_meta repeat named names :
  List.filter is_value_column (zip_with (fun w name => meta_column repeat name w) named names) = [].
Proof. revert names. by induction named as [|w ws IH]; intros [|n ns]; cbn; auto. Qed.

(** The repeats met, and no others, have tables. *)
Lemma union_entered_fields f reserved r l : forall b,
  entered (Some r) (fold_left (plan_field language reserved f) l b) <->
  entered (Some r) b \/ exists i cf, i ∈ l /\ dget (f_fields f) i = Some cf /\ cf_repeat cf = Some r.
Proof.
  induction l as [|i l IH]; intros b; cbn [fold_left]; [split; [tauto|]; intros [?|(i & cf & ?%elem_of_nil & _)]; done|].
  rewrite IH. assert (entered (Some r) (plan_field language reserved f b i) <->
    entered (Some r) b \/ exists cf, dget (f_fields f) i = Some cf /\ cf_repeat cf = Some r) as ->.
  { unfold plan_field. destruct (dget (f_fields f) i) as [cf|]; [|naive_solver]. set (b0 := note_dataset _ _ _).
    assert (forall l b, entered (cf_repeat cf) b -> entered (Some r) (fold_left (place (cf_repeat cf)) l b) <-> entered (Some r) b) as Hp.
    { intros l0. induction l0 as [|c l0 IH0]; intros b1 Hb1; cbn [fold_left]; [done|].
      destruct (place_emits (cf_repeat cf) b1 c) as (b' & (_ & _ & He & _) & Hpl).
      assert (forall r', entered r' (place (cf_repeat cf) b1 c) <-> entered r' b1) as Hpe.
      { intros r'. rewrite Hpl, entered_emit by by apply He. apply He. }
      rewrite IH0 by by apply Hpe. apply Hpe. }
    destruct (note_dataset_same i (cf_choice_query cf) (enter_repeat reserved (cf_repeat cf) (form_version_number f) b)) as (_ & _ & He & _).
    rewrite Hp by (apply He, entered_enter; by left). unfold b0. rewrite He, entered_enter. naive_solver. }
  setoid_rewrite elem_of_cons. naive_solver.
Qed.

Lemma plan_repeats forms r :
  r ∈ dkeys (pl_repeats (build_plan forms language)) <->
  exists f i cf, f ∈ forms /\ i ∈ f_order f /\ dget (f_fields f) i = Some cf /\ cf_repeat cf = Some r.
Proof.
  destruct (plan_of_built language forms) as [_ ->]. unfold dkeys. rewrite <- list_fmap_compose.
  change (fst ∘ _) with (@fst pystr (list column)). change ((bd_repeats (built language forms)).*1) with (dkeys (bd_repeats (built language forms))).
  change (entered (Some r) (built language forms) <-> exists f i cf, f ∈ forms /\ i ∈ f_order f /\ dget (f_fields f) i = Some cf /\ cf_repeat cf = Some r).
  unfold built. set (b := fold_left _ (by_version forms) _).
  assert (forall l b, entered (Some r) (fold_left emit_count l b) <-> entered (Some r) b) as ->.
  { induction l as [|x l IH]; intros b0; cbn [fold_left]; [done|]. rewrite IH. unfold emit_count.
    destruct (claim_in_ok None (x ++ COUNT_SUFFIX) false b0) as [_ (_ & _ & He & _)].
    destruct (claim_in _ _ _ _) as [name b']. cbn [snd] in He. rewrite entered_emit by done. apply He. }
  unfold b. assert (forall l b reserved, entered (Some r) (fold_left (plan_form language reserved) l b) <->
    entered (Some r) b \/ exists f i cf, f ∈ l /\ i ∈ f_order f /\ dget (f_fields f) i = Some cf /\ cf_repeat cf = Some r) as Hl.
  { induction l as [|f l IH]; intros b0 reserved; cbn [fold_left]; [split; [tauto|]; intros [?|(f & _ & _ & ?%elem_of_nil & _)]; done|].
    rewrite IH. unfold plan_form at 1. rewrite union_entered_fields. setoid_rewrite (elem_of_cons l). naive_solver. }
  rewrite Hl. setoid_rewrite by_version_elem. split; [|by right]. intros [Hb|H]; [by apply elem_of_nil in Hb|done].
Qed.

End Union.

(** ** The columns of one question *)

Lemma elem_filter_bool {A} (p : A -> bool) l x : x ∈ List.filter p l <-> x ∈ l /\ p x = true.
Proof. rewrite !list_elem_of_In. apply filter_In. Qed.

(** A filter that looks at keys alone commutes with keeping the first. *)
Lemma filter_firsts (p : column -> bool) l :
  (forall c c', c ∈ l -> c' ∈ l -> key_of c = key_of c' -> p c = p c') -> List.filter p (firsts l) = firsts (List.filter p l).
Proof.
  induction l as [|c l IH] using rev_ind; [done|]. intros Hp.
  assert (List.filter p (firsts l) = firsts (List.filter p l)) as IH'.
  { apply IH. intros c1 c2 H1 H2. apply Hp; rewrite elem_of_app; by left. }
  assert (p c = true -> existsb (has_key (key_of c)) (firsts (List.filter p l)) = existsb (has_key (key_of c)) (firsts l)) as Hex.
  { intros Hc. apply eq_true_iff_eq. rewrite !existsb_key, !firsts_keys, !list_elem_of_In, !in_map_iff.
    setoid_rewrite <- list_elem_of_In. setoid_rewrite elem_filter_bool. split; [intros (x & ? & ? & _); by exists x|].
    intros (x & Hk & Hx). exists x. split_and!; [done..|]. rewrite <- Hc. apply Hp; rewrite ?elem_of_app, ?list_elem_of_singleton; tauto. }
  rewrite firsts_snoc, List.filter_app. cbn. destruct (p c) eqn:Ec.
  - rewrite firsts_snoc, Hex by done. destruct (existsb (has_key (key_of c)) (firsts l)); [done|].
    rewrite List.filter_app, IH'. cbn. by rewrite Ec.
  - rewrite app_nil_r, <- IH'. destruct (existsb (has_key (key_of c)) (firsts l)); [done|]. rewrite List.filter_app. cbn. by rewrite Ec, app_nil_r.
Qed.

Lemma firsts_known l b : (forall c, c ∈ b -> key_of c ∈ map key_of l) -> firsts (l ++ b) = firsts l.
Proof.
  induction b as [|c b IH] using rev_ind; intros Hb; [by rewrite app_nil_r|]. rewrite app_assoc, firsts_snoc.
  rewrite IH by (intros x Hx; apply Hb; rewrite elem_of_app; by left).
  assert (existsb (has_key (key_of c)) (firsts l) = true) as ->; [|done].
  apply existsb_key, firsts_keys, Hb. rewrite elem_of_app, list_elem_of_singleton. by right.
Qed.

Lemma firsts_id b : NoDup (map key_of b) -> firsts b = b.
Proof.
  induction b as [|c b IH] using rev_ind; intros Hn; [done|]. rewrite map_app in Hn. apply NoDup_app in Hn as (Hn & Hd & _).
  rewrite firsts_snoc, IH by done. destruct (existsb _ _) eqn:E; [|done]. apply existsb_key in E.
  destruct (Hd _ E). by apply list_elem_of_singleton.
Qed.

(** Of blocks with the same keys the first is kept. *)
Lemma firsts_blocks (keys : list column_key) bs :
  NoDup keys -> keys <> [] -> Forall (fun b => b = [] \/ map key_of b = keys) bs ->
  (exists b, b ∈ bs /\ map key_of b = keys) -> exists b, b ∈ bs /\ map key_of b = keys /\ firsts (concat bs) = b.
Proof.
  intros Hn Hne. induction bs as [|b bs IH] using rev_ind; [by intros _ (b & ?%elem_of_nil & _)|].
  intros [Hbs [Hb _]%Forall_cons]%Forall_app Hex. rewrite concat_app. cbn [concat]. rewrite app_nil_r.
  destruct (decide (concat bs = [])) as [He|Hc].
  - rewrite He. cbn. exists b. assert (map key_of b = keys) as Hk.
    { destruct Hex as (b0 & [Hin|Hin]%elem_of_app & Hk); [|by apply list_elem_of_singleton in Hin as <-].
      exfalso. apply Hne. rewrite <- Hk. assert (b0 = []) as ->; [|done].
      apply list_elem_of_split in Hin as (l1 & l2 & ->). rewrite concat_app in He. cbn in He.
      apply app_eq_nil in He as [_ He]. by apply app_eq_nil in He as [-> _]. }
    split_and!; [rewrite elem_of_app, list_elem_of_singleton; by right|done|]. apply firsts_id. by rewrite Hk.
  - assert (exists b, b ∈ bs /\ map key_of b = keys) as Hex'.
    { clear -Hbs Hc. induction Hbs as [|b bs Hb Hbs IH]; [done|]. destruct Hb as [->|Hb]; [|exists b; split; [by left|done]].
      destruct (IH Hc) as (b & Hin & Hk). exists b. split; [by right|done]. }
    destruct (IH Hbs Hex') as (b0 & Hin & Hk & Hf). exists b0. split_and!; [rewrite elem_of_app; by left|done|].
    rewrite <- Hf. apply firsts_known. intros c Hcb. destruct Hb as [->|Hb]; [by apply elem_of_nil in Hcb|].
    apply firsts_keys. rewrite Hf, Hk, <- Hb. by apply (list_elem_of_fmap_2 key_of).
Qed.

Definition of_field (i : pystr) (c : column) : bool := bool_decide (cl_source c = Field /\ cl_field c = Some i).

(** The types of a question agree across versions. *)
Definition types_agree (forms : list cform) : Prop := forall f g i cf cg,
  f ∈ forms -> g ∈ forms -> dget (f_fields f) i = Some cf -> dget (f_fields g) i = Some cg -> cf_data_type cf = cf_data_type cg.

(** What a question's answer columns are: a column, or one for each part. *)
Definition answer_shape (data_type : pystr) : list (option pystr * option pystr) :=
  match dget COMPONENTS data_type with
  | Some parts => map (fun part => (Some part, Some data_type)) parts
  | None => [(None, Some data_type)]
  end.

Definition shape_of (c : column) : option pystr * option pystr := (cl_component c, cl_type c).

Lemma components_distinct data_type parts : dget COMPONENTS data_type = Some parts -> parts <> [] /\ NoDup parts.
Proof.
  intros H%dget_Some_elem. assert (Forall (fun kv : pystr * list pystr => kv.2 <> [] /\ NoDup kv.2) COMPONENTS) as Hall.
  { apply (bool_decide_unpack _). by vm_compute. }
  rewrite Forall_forall in Hall. apply (Hall _ H).
Qed.

Lemma of_field_value i c : of_field i c = true -> is_value_column c = true.
Proof. unfold of_field, is_value_column. by intros [-> _]%bool_decide_eq_true. Qed.

Lemma shapes_named i cols :
  map shape_of (List.filter (of_field i) cols) =
  map shape_of (List.filter (of_field i) (map (with_name []) (List.filter is_value_column cols))).
Proof.
  induction cols as [|c cols IH]; [done|]. cbn [List.filter]. destruct (is_value_column c) eqn:Ev; cbn [map List.filter].
  - change (of_field i (with_name [] c)) with (of_field i c). destruct (of_field i c); cbn; by rewrite IH.
  - destruct (of_field i c) eqn:E; [|done]. apply of_field_value in E. congruence.
Qed.

Section Fields.
Context {env : PyEnv} {uni : UnicodeDB} (language : option pystr).

Definition answers_of (i : pystr) (repeat : option pystr) (c : column) : bool := of_field i c && in_table repeat c.

(** The answer columns among those of one question of one version. *)
Lemma question_answers f j i repeat :
  [] ∉ dkeys (f_fields f) ->
  let mine := List.filter (answers_of i repeat) (question_columns language f j) in
  match dget (f_fields f) j with
  | Some cf =>
      if bool_decide (j = i /\ cf_repeat cf = repeat /\ cf_data_type cf <> lit "note")
      then map shape_of mine = answer_shape (cf_data_type cf) /\
           map key_of mine = map (fun s => (repeat, i, s.1, Field)) (answer_shape (cf_data_type cf))
      else mine = []
  | None => mine = []
  end.
Proof.
  intros Hne. cbn zeta. unfold question_columns. destruct (dget (f_fields f) j) as [cf|] eqn:E; [|done].
  assert (j <> []) as Hj by (intros ->; apply Hne, dget_elem; by eexists).
  set (dt := cf_data_type cf). unfold columns_for. case_bool_decide as Hd.
  - destruct Hd as (-> & <- & Hn). rewrite str_eqb_ne by done. unfold answer_shape. destruct i as [|i0 i]; [done|].
    destruct (dget COMPONENTS dt) as [parts|].
    + rewrite filter_all; [rewrite !map_map; split; [done|by apply map_ext]|].
      intros c (p & <- & _)%list_elem_of_In%in_map_iff. unfold answers_of, of_field, in_table. cbn. by rewrite !bool_decide_eq_true_2.
    + destruct (bool_decide (dt ∈ _)); cbn; unfold answers_of, of_field, in_table; cbn; rewrite !bool_decide_eq_true_2 by done; cbn; done.
  - destruct (str_eqb dt "note") eqn:En; [done|]. apply not_true_iff_false in En. rewrite str_eqb_eq in En.
    assert (forall l, Forall (fun c => cl_field c = Some j /\ cl_repeat c = cf_repeat cf) l -> List.filter (answers_of i repeat) l = []) as Hnone.
    { intros l. induction 1 as [|c l [Hf Hr] _ IH]; [done|]. cbn. rewrite IH. unfold answers_of, of_field, in_table. rewrite Hf, Hr.
      destruct (decide (j = i)) as [->|]; [rewrite (bool_decide_eq_false_2 (cf_repeat cf = repeat)) by tauto; by rewrite andb_false_r|].
      rewrite bool_decide_eq_false_2 by naive_solver. done. }
    apply Hnone. apply Forall_forall. intros c Hc.
    assert (c ∈ columns_for j dt (label_of (cf_node cf) f language) (cf_repeat cf) (form_version_number f)) as Hc'.
    { unfold columns_for. by rewrite str_eqb_ne. }
    destruct (columns_for_own _ _ _ _ _ _ Hc') as (? & ? & _). done.
Qed.

Definition blocks (forms : list cform) : list (list column) :=
  concat (map (fun f => map (question_columns language f) (f_order f)) (by_version forms)).

Lemma questions_blocks forms : questions language forms = concat (blocks forms).
Proof.
  unfold questions, blocks, form_columns. induction (by_version forms) as [|f l IH]; [done|]. cbn. by rewrite IH, concat_app.
Qed.

Lemma blocks_elem forms b : b ∈ blocks forms <-> exists f i, f ∈ forms /\ i ∈ f_order f /\ b = question_columns language f i.
Proof.
  unfold blocks. rewrite list_elem_of_In, in_concat. split.
  - intros (x & (f & <- & Hf%list_elem_of_In)%in_map_iff & (i & <- & Hi%list_elem_of_In)%in_map_iff). rewrite by_version_elem in Hf.
    by exists f, i.
  - intros (f & i & Hf & Hi & ->). exists (map (question_columns language f) (f_order f)).
    split; [|apply in_map; by apply list_elem_of_In].
    apply (in_map (fun f => map (question_columns language f) (f_order f))). by apply list_elem_of_In, by_version_elem.
Qed.

Lemma filter_concat {A} (p : A -> bool) ls : List.filter p (concat ls) = concat (map (List.filter p) ls).
Proof. induction ls as [|l ls IH]; [done|]. cbn. by rewrite List.filter_app, IH. Qed.

(** A question's answer columns in a table that has the union's columns. *)
Lemma field_columns forms cols f i cf :
  ids_given forms -> types_agree forms -> f ∈ forms -> i ∈ f_order f -> dget (f_fields f) i = Some cf ->
  cf_data_type cf <> lit "note" ->
  map (with_name []) (List.filter is_value_column cols) = union_columns language forms (cf_repeat cf) ->
  map shape_of (List.filter (of_field i) cols) = answer_shape (cf_data_type cf).
Proof.
  intros Hids Hty Hf Hi Hcf Hnote Hcols. set (repeat := cf_repeat cf) in *. set (dt := cf_data_type cf) in *.
  assert (map shape_of (List.filter (of_field i) cols) =
          map shape_of (List.filter (answers_of i repeat) (firsts (questions language forms)))) as ->.
  { transitivity (map shape_of (List.filter (of_field i) (map (with_name []) (List.filter is_value_column cols)))).
    - apply shapes_named.
    - rewrite Hcols. unfold union_columns. generalize (firsts (questions language forms)) as l.
      induction l as [|c l IH]; [done|]. cbn [List.filter]. unfold answers_of at 1.
      destruct (in_table repeat c) eqn:Et; [|by rewrite andb_false_r]. cbn [map List.filter]. rewrite andb_true_r.
      change (of_field i (with_name [] _)) with (of_field i c). destruct (of_field i c); cbn [map]; by rewrite IH. }
  rewrite filter_firsts.
  2:{ intros c c' Hc Hc' Hk. rewrite questions_blocks in Hc, Hc'.
      assert (forall c, c ∈ concat (blocks forms) -> identified c) as Hident.
      { intros x (b & (g & j & Hg & _ & ->)%list_elem_of_In%blocks_elem & Hx%list_elem_of_In)%list_elem_of_In%in_concat.
        destruct (question_column _ _ _ _ Hx) as (cg & Hcg & Hfield & _). destruct j as [|j0 j]; [|by exists j0, j].
        destruct (Hids g Hg). apply dget_elem. by exists cg. }
      destruct (Hident c Hc) as (i0 & i1 & H1), (Hident c' Hc') as (i2 & i3 & H2). unfold key_of, key_in in Hk. rewrite H1, H2 in Hk.
      injection Hk as Hr <- <- Hcomp Hs. unfold answers_of, of_field, in_table. by rewrite Hr, Hs, H1, H2. }
  rewrite questions_blocks, filter_concat.
  set (keys := map (fun s => (repeat, i, s.1, Field)) (answer_shape dt) : list column_key).
  assert (forall b, b ∈ map (List.filter (answers_of i repeat)) (blocks forms) ->
            b = [] \/ (map key_of b = keys /\ map shape_of b = answer_shape dt)) as Hall.
  { intros b (b0 & <- & (g & j & Hg & _ & ->)%list_elem_of_In%blocks_elem)%list_elem_of_In%in_map_iff.
    pose proof (question_answers g j i repeat (Hids g Hg)) as H. cbn zeta in H.
    destruct (dget (f_fields g) j) as [cg|] eqn:Eg; [|by left]. case_bool_decide as Hd; [|by left]. right. destruct Hd as (-> & _ & _).
    assert (cf_data_type cg = dt) as Hdt by (by eapply (Hty g f)). rewrite Hdt in H. by destruct H. }
  assert (keys <> [] /\ NoDup keys) as [Hkne Hkn].
  { unfold keys, answer_shape. destruct (dget COMPONENTS dt) as [parts|] eqn:Ec; [|split; [done|apply NoDup_singleton]].
    destruct (components_distinct _ _ Ec) as [Hp Hn]. rewrite map_map. split; [by destruct parts|].
    apply (NoDup_fmap_2_strong (fun p => (repeat, i, Some p, Field))); [|done]. by intros ? ? _ _ [= ->]. }
  destruct (firsts_blocks keys (map (List.filter (answers_of i repeat)) (blocks forms)) Hkn Hkne) as (b & Hb & Hk & ->).
  - apply Forall_forall. intros b Hb. destruct (Hall b Hb) as [?|[? _]]; [by left|by right].
  - exists (List.filter (answers_of i repeat) (question_columns language f i)). split.
    + apply (list_elem_of_fmap_2 (List.filter (answers_of i repeat))). apply blocks_elem. by exists f, i.
    + pose proof (question_answers f i i repeat (Hids f Hf)) as H. cbn zeta in H. rewrite Hcf, bool_decide_eq_true_2 in H by done. apply H.
  - destruct (Hall b Hb) as [->|[_ ?]]; [by destruct keys|done].
Qed.

End Fields.

(** ** The tables of repeats hold keys and answers *)

Section Sources.
Context {env : PyEnv} {uni : UnicodeDB} (language : option pystr).

Definition repeats_hold_answers (b : building) : Prop := forall r c, c ∈ columns_in (Some r) b -> is_value_column c = true.

Lemma hold_answers_ext b b' :
  (forall r, columns_in r b' = columns_in r b) -> repeats_hold_answers b -> repeats_hold_answers b'.
Proof. intros Hc Hb r c. rewrite Hc. apply Hb. Qed.

Lemma emit_hold_answers c repeat b :
  repeat = None \/ is_value_column c = true -> repeats_hold_answers b -> repeats_hold_answers (emit c repeat b).
Proof.
  intros Hc Hb r c'. rewrite columns_emit. case_bool_decide as Hd; [|apply Hb]. destruct Hd as [<- _].
  rewrite elem_of_app, list_elem_of_singleton. intros [Hin| ->]; [by eapply Hb|by destruct Hc].
Qed.

Lemma built_hold_answers forms : repeats_hold_answers (built language forms).
Proof.
  unfold built. apply (fold_left_keeps repeats_hold_answers (fun _ => True)); [done|..].
  - intros b r Hb _. unfold emit_count. destruct (claim_in_ok None (r ++ COUNT_SUFFIX) false b) as [_ (Hc & _)].
    destruct (claim_in _ _ _ _) as [name b']. apply emit_hold_answers; [by left|by eapply hold_answers_ext].
  - apply (fold_left_keeps repeats_hold_answers (fun _ => True)); [done| |by intros r c ?%elem_of_nil].
    intros b f Hb _. apply (fold_left_keeps repeats_hold_answers (fun _ => True)); [done| |done].
    intros b1 i Hb1 _. unfold plan_field. destruct (dget _ i) as [cf|]; [|done].
    apply (fold_left_keeps repeats_hold_answers (fun c => is_value_column c = true)).
    + intros c Hc. destruct (columns_for_own _ _ _ _ _ _ Hc) as (_ & _ & _ & _ & _ & Hs & _).
      unfold is_value_column. by destruct Hs as [-> | ->].
    + intros b2 c Hb2 Hc. destruct (place_emits (cf_repeat cf) b2 c) as (b' & (Hcol & _) & ->).
      apply emit_hold_answers; [by right|by eapply hold_answers_ext].
    + destruct (note_dataset_same i (cf_choice_query cf) (enter_repeat (reserved_by forms) (cf_repeat cf) (form_version_number f) b1))
        as (Hcol & _). eapply hold_answers_ext; [exact Hcol|]. eapply hold_answers_ext; [|exact Hb1]. intros; apply columns_enter.
Qed.

Lemma meta_columns_source repeat named : forall names c,
  c ∈ zip_with (fun w name => meta_column repeat name w) named names -> cl_source c = Meta.
Proof. intros names c (k & x & y & -> & _)%elem_of_lookup_zip_with. done. Qed.

Lemma repeat_columns_sources forms r cols c :
  (r, cols) ∈ pl_repeats (build_plan forms language) -> c ∈ cols -> cl_source c <> Count.
Proof.
  intros [Hr ->]%plan_repeat_table [Hc|Hc]%elem_of_app.
  - unfold key_columns in Hc. apply meta_columns_source in Hc. by rewrite Hc.
  - apply list_elem_of_In, in_map_iff in Hc as (c0 & <- & Hc0%list_elem_of_In). apply built_hold_answers in Hc0.
    unfold versioned, is_value_column in *. by destruct (cl_source c0) eqn:E; cbn; rewrite ?E.
Qed.

Lemma filter_meta_app repeat named names l :
  List.filter is_value_column (zip_with (fun w name => meta_column repeat name w) named names ++ l) = List.filter is_value_column l.
Proof. by rewrite List.filter_app, value_columns_meta. Qed.

(** The answer columns of a plan are the union of the versions' questions. *)
Lemma parent_union forms :
  ids_given forms ->
  map (with_name []) (List.filter is_value_column (pl_parent (build_plan forms language))) = union_columns language forms None.
Proof. intros Hids. destruct (plan_of_built language forms) as [-> _]. rewrite filter_meta_app. by apply finished_columns. Qed.

Lemma repeat_union forms r cols :
  ids_given forms -> (r, cols) ∈ pl_repeats (build_plan forms language) ->
  map (with_name []) (List.filter is_value_column cols) = union_columns language forms (Some r).
Proof.
  intros Hids [Hr ->]%plan_repeat_table. unfold key_columns. rewrite filter_meta_app. by apply finished_columns.
Qed.

Lemma plan_repeats_distinct forms : NoDup (dkeys (pl_repeats (build_plan forms language))).
Proof.
  destruct (plan_of_built language forms) as [_ ->]. pose proof (built_repeats language forms) as H. unfold dkeys in *.
  by rewrite <- list_fmap_compose.
Qed.

End Sources.
