(* ===== verification/ReadbackFacts.v ===== *)
(** * What one row of a file reads back as

    The columns of a row set its keys, its whole answers and the parts of its
    structured ones; read by their names they come back column by column, and
    a row built by [value_cell] gives back what its answers read as. *)

From S2P Require Import Prelude PyStr PyNum Value PyJson TextFormats Expr Expression Projection DatasetKeys Surface.
From S2P Require Import Printer Server Cells ExportPlan PlanFacts Statistical ExportManifest Datasets Compile.
From S2P Require Import SurfaceFacts PublishGate FloatText CellFacts.

(** ** Assignments one after another *)

Definition set_all {A} (d : odict A) (entries : list (pystr * A)) : odict A :=
  fold_left (fun d kv => dset d kv.1 kv.2) entries d.

Lemma set_all_snoc {A} (d : odict A) l kv : set_all d (l ++ [kv]) = dset (set_all d l) kv.1 kv.2.
Proof. unfold set_all. by rewrite fold_left_app. Qed.

Lemma set_all_other {A} (d : odict A) l k : k ∉ l.*1 -> dget (set_all d l) k = dget d k.
Proof.
  induction l as [|[k0 v0] l IH] using rev_ind; [done|]. rewrite set_all_snoc, fmap_app, not_elem_of_app. cbn.
  intros [Hl Hk]. rewrite dget_dset_ne; [by apply IH|]. set_solver.
Qed.

Lemma set_all_get {A} (d : odict A) l k v :
  (k, v) ∈ l -> (forall v', (k, v') ∈ l -> v' = v) -> dget (set_all d l) k = Some v.
Proof.
  induction l as [|[k0 v0] l IH] using rev_ind; [by intros ?%elem_of_nil|]. rewrite set_all_snoc. cbn. intros Hin Hv.
  destruct (decide (k = k0)) as [<-|Hne].
  - rewrite dget_dset_eq. f_equal. apply Hv. rewrite elem_of_app, list_elem_of_singleton. by right.
  - rewrite dget_dset_ne by done. apply IH.
    + rewrite elem_of_app, list_elem_of_singleton in Hin. destruct Hin as [|[=]]; [done|congruence].
    + intros v' Hv'. apply Hv. rewrite elem_of_app. by left.
Qed.

(** New keys go last, in order. *)
Lemma set_all_fresh {A} (l : list (pystr * A)) : forall d, NoDup (d.*1 ++ l.*1) -> set_all d l = d ++ l.
Proof.
  induction l as [|[k v] l IH]; intros d Hd; cbn; [by rewrite app_nil_r|]. fold (set_all (dset d k v) l).
  assert (k ∉ dkeys d) as Hk.
  { cbn in Hd. apply NoDup_app in Hd as (_ & Hd & _). intros Hin. apply (Hd k Hin). by left. }
  rewrite dset_fresh by done. rewrite IH; [by rewrite <- app_assoc|].
  rewrite fmap_app. cbn in Hd |- *. by rewrite <- app_assoc.
Qed.

Definition set_parts {A} (d : odict (odict A)) (entries : list (pystr * (pystr * A))) : odict (odict A) :=
  fold_left (fun d e => dset d e.1 (dset (default [] (dget d e.1)) e.2.1 e.2.2)) entries d.

(** The parts of one path. *)
Definition parts_at {A} (i : pystr) (entries : list (pystr * A)) : list A :=
  map snd (List.filter (fun e => bool_decide (e.1 = i)) entries).

Lemma set_parts_get {A} (d : odict (odict A)) l i :
  dget (set_parts d l) i =
  match parts_at i l with [] => dget d i | mine => Some (set_all (default [] (dget d i)) mine) end.
Proof.
  induction l as [|[k [p v]] l IH] using rev_ind; [done|]. unfold set_parts in *. rewrite fold_left_app.
  set (d' := fold_left _ l d) in *. unfold parts_at in *. rewrite List.filter_app, map_app. cbn.
  destruct (decide (k = i)) as [->|Hne].
  - rewrite dget_dset_eq, bool_decide_eq_true_2, IH by done. cbn. destruct (map snd _) as [|e mine]; [done|].
    cbn [app default]. by rewrite fold_left_app.
  - rewrite dget_dset_ne, bool_decide_eq_false_2, IH by congruence. cbn. by rewrite app_nil_r.
Qed.

Lemma set_parts_keys {A} (l : list (pystr * (pystr * A))) : forall d, NoDup (dkeys d) -> NoDup (dkeys (set_parts d l)).
Proof. induction l as [|e l IH]; intros d Hd; [done|]. apply IH. by apply NoDup_dkeys_dset. Qed.

Lemma lookup_map {A B} (f : A -> B) l k : map f l !! k = f <$> (l !! k).
Proof. apply (list_lookup_fmap f). Qed.

(** ** The columns of a row *)

Section Row.
Context {env : PyEnv} {uni : UnicodeDB}.

Definition type_or_text (t : option pystr) : pystr := match t with Some ((_ :: _) as t) => t | _ => lit "text" end.

(** A column with the text of its field. *)
Abbreviation entry := (column * list N)%type (only parsing).

Definition reading (e : entry) : res value := parse (CText e.2) (type_or_text (cl_type e.1)) (cl_component e.1).
Definition read_as (e : entry) : value := match reading e with Ok v => v | Raise _ => VNone end.

Definition text_or_none (s : pystr) : option pystr := match s with [] => None | _ => Some s end.

Definition key_entry (e : entry) : option (pystr * option pystr) :=
  match cl_source e.1 with Meta => Some (cl_name e.1, text_or_none e.2) | _ => None end.
Definition whole_entry (e : entry) : option (pystr * value) :=
  match cl_source e.1, cl_field e.1, cl_component e.1 with
  | Field, Some i, None => Some (i, read_as e)
  | _, _, _ => None
  end.
Definition part_entry (e : entry) : option (pystr * (pystr * value)) :=
  match cl_source e.1, cl_field e.1, cl_component e.1 with
  | Field, Some i, Some part => Some (i, (part, read_as e))
  | _, _, _ => None
  end.

Definition readable (e : entry) : Prop := cl_source e.1 = Field -> is_ok (reading e) = true.

Definition described (records : list submission_record) (ciphers : odict (list pystr)) (c : column) : column_manifest :=
  describe records ciphers c None.

Lemma describe_csv records ciphers name cols :
  imap (fun index c => describe records ciphers c (stat_for None name index)) cols = map (described records ciphers) cols.
Proof. induction cols as [|c cols IH] using rev_ind; [done|]. rewrite imap_app, map_app, IH. done. Qed.

(** The index of a name in a header without repetitions. *)
Lemma header_index_lookup names k name :
  NoDup names -> names !! k = Some name -> dget (header_index names) name = Some k.
Proof.
  intros Hn Hk. unfold header_index.
  assert (forall l, fold_left (fun d ni => dset d ni.2 ni.1) l [] = set_all [] (map (fun ni : nat * pystr => (ni.2, ni.1)) l)) as ->.
  { intros l. unfold set_all. generalize (@nil (pystr * nat)). induction l as [|x l IH]; intros d; [done|]. cbn. apply IH. }
  assert (forall (j : nat) x, (x, j) ∈ map (fun ni : nat * pystr => (ni.2, ni.1)) (imap (fun i n => (i, n)) names) <-> names !! j = Some x) as Hin.
  { intros j x. rewrite list_elem_of_In, in_map_iff. split.
    - intros ([j' x'] & [= -> ->] & H%list_elem_of_In). apply elem_of_lookup_imap in H as (i & y & [= -> ->] & H). done.
    - intros H. exists (j, x). split; [done|]. apply list_elem_of_In, elem_of_lookup_imap. by exists j, x. }
  apply set_all_get; [by apply Hin|]. intros j Hj%Hin. by eapply NoDup_lookup.
Qed.

Lemma read_column_entry records ciphers at_ row acc (e : entry) :
  dget at_ (cl_name e.1) ≫= (fun i => row !! i) = Some e.2 -> readable e ->
  read_column at_ row acc (described records ciphers e.1) =
  Ok (ReadRow (set_all (rd_key acc) (option_list (key_entry e))) (set_all (rd_cells acc) (option_list (whole_entry e)))
        (set_parts (rd_parts acc) (option_list (part_entry e)))).
Proof.
  intros Hat Hr. unfold read_column, described, describe, value_field, is_value_column.
  cbn [cm_stored_as cm_source cm_path cm_column cm_type cm_component]. rewrite Hat.
  unfold key_entry, whole_entry, part_entry, readable, read_as, reading in *. destruct acc as [key cells parts], e as [c text]. cbn [fst snd] in *.
  destruct (cl_source c) eqn:Es; cbn [option_list set_all set_parts fold_left fst snd rd_key rd_cells rd_parts]; try done.
  destruct (cl_field c) as [i|]; [|done]. specialize (Hr eq_refl).
  fold (type_or_text (cl_type c)). destruct (parse _ _ _) as [v|]; [|done].
  destruct (cl_component c) as [part|]; done.
Qed.

(** All columns of a row, read. *)
Lemma read_columns records ciphers at_ row : forall (l : list entry) acc,
  (forall e, e ∈ l -> dget at_ (cl_name e.1) ≫= (fun i => row !! i) = Some e.2 /\ readable e) ->
  foldM (read_column at_ row) acc (map (fun e : entry => described records ciphers e.1) l) =
  Ok (ReadRow (set_all (rd_key acc) (omap key_entry l)) (set_all (rd_cells acc) (omap whole_entry l))
        (set_parts (rd_parts acc) (omap part_entry l))).
Proof.
  induction l as [|e l IH]; intros acc Hl; [by destruct acc|].
  destruct (Hl e ltac:(by left)) as [Hat Hr]. cbn [map foldM].
  rewrite (read_column_entry _ _ _ _ _ _ Hat Hr), IH by (intros; apply Hl; by right). cbn [rd_key rd_cells rd_parts].
  unfold set_all, set_parts. cbn [omap list_omap].
  by destruct (key_entry e), (whole_entry e), (part_entry e).
Qed.

(** A row with a field per column. *)
Definition entries (cols : list column) (row : list pystr) : list entry := zip cols row.

Lemma entry_found cols row e :
  NoDup (map cl_name cols) -> length row = length cols -> e ∈ entries cols row ->
  dget (header_index (map cl_name cols)) (cl_name e.1) ≫= (fun i => row !! i) = Some e.2.
Proof.
  intros Hn Hl (k & Hk)%list_elem_of_lookup. unfold entries in Hk. apply lookup_zip_with_Some in Hk as (c & t & -> & Hc & Ht).
  cbn. rewrite (header_index_lookup _ k); [done|done|]. by rewrite lookup_map, Hc.
Qed.

Lemma entries_columns cols row : length row = length cols -> (entries cols row).*1 = cols.
Proof. intros H. apply fst_zip. lia. Qed.

Lemma row_reads records ciphers cols row :
  NoDup (map cl_name cols) -> length row = length cols -> (forall e, e ∈ entries cols row -> readable e) ->
  read_row_of (map (described records ciphers) cols) (header_index (map cl_name cols)) row =
  Ok (set_all [] (omap key_entry (entries cols row)),
      join_parts (set_all [] (omap whole_entry (entries cols row))) (set_parts [] (omap part_entry (entries cols row)))).
Proof.
  intros Hn Hl Hr. unfold read_row_of.
  assert (map (described records ciphers) cols = map (fun e : entry => described records ciphers e.1) (entries cols row)) as ->.
  { rewrite <- (entries_columns cols row Hl) at 1. apply (map_map (fun e : entry => e.1)). }
  rewrite read_columns; [done|]. intros e He. split; [by apply entry_found|by apply Hr].
Qed.

(** ** What is found under a key, and under a question *)

Lemma key_found (l : list entry) (e0 : entry) :
  NoDup (map cl_name l.*1) -> e0 ∈ l -> cl_source e0.1 = Meta ->
  dget (set_all [] (omap key_entry l)) (cl_name e0.1) = Some (text_or_none e0.2).
Proof.
  intros Hn Hin Hm. apply set_all_get.
  - apply list_elem_of_omap. exists e0. split; [done|]. unfold key_entry. by rewrite Hm.
  - intros t (e & He & Hk)%list_elem_of_omap. unfold key_entry in Hk. destruct (cl_source e.1) eqn:E; try done.
    injection Hk as Hname <-. enough (e = e0) as -> by done.
    apply list_elem_of_lookup in Hin as [j Hj], He as [k Hk]. enough (j = k) as <- by congruence.
    eapply (NoDup_lookup _ _ _ (cl_name e0.1) Hn); rewrite lookup_map, list_lookup_fmap, ?Hj, ?Hk; cbn; congruence.
Qed.

Lemma join_parts_all cells parts : join_parts cells parts = set_all cells (map (fun pc => (pc.1, whole_of pc.2)) parts).
Proof. unfold join_parts, set_all. revert cells. induction parts as [|pc parts IH]; intros cells; [done|]. cbn. apply IH. Qed.

Lemma join_found cells parts i :
  NoDup (dkeys parts) ->
  dget (join_parts cells parts) i = match dget parts i with Some p => Some (whole_of p) | None => dget cells i end.
Proof.
  intros Hn. rewrite join_parts_all. set (l := map _ parts).
  assert (forall k v, (k, v) ∈ l <-> exists p, (k, p) ∈ parts /\ v = whole_of p) as Hin.
  { intros k v. unfold l. rewrite list_elem_of_In, in_map_iff. setoid_rewrite <- list_elem_of_In. split.
    - intros ([k' p] & [= -> <-] & H). by exists p.
    - intros (p & H & ->). by exists (k, p). }
  destruct (dget parts i) as [p|] eqn:E.
  - apply set_all_get; [apply Hin; exists p; split; [by apply dget_Some_elem|done]|].
    intros v (p' & Hp' & ->)%Hin. apply (dget_elem_NoDup _ _ _ Hn) in Hp'. congruence.
  - apply set_all_other. intros ([k v] & -> & (p & Hp & _)%Hin)%list_elem_of_fmap. apply dget_None in E. apply E.
    apply (list_elem_of_fmap_2 fst _ _ Hp).
Qed.

Lemma parts_of_field i (l : list entry) :
  parts_at i (omap part_entry l) =
  omap (fun e => (fun part => (part, read_as e)) <$> cl_component e.1) (List.filter (fun e => of_field i e.1) l).
Proof.
  unfold parts_at. induction l as [|e l IH]; [done|]. cbn [omap list_omap List.filter]. unfold part_entry at 1.
  destruct (of_field i e.1) eqn:Eo.
  - apply bool_decide_eq_true in Eo as [-> ->]. cbn [omap list_omap].
    destruct (cl_component e.1) as [part|]; cbn; [|exact IH]. rewrite bool_decide_eq_true_2 by done. cbn. by rewrite IH.
  - apply bool_decide_eq_false in Eo. destruct (cl_source e.1); try exact IH. destruct (cl_field e.1) as [j|]; [|exact IH].
    destruct (cl_component e.1) as [part|]; [|exact IH]. cbn. rewrite bool_decide_eq_false_2 by naive_solver. exact IH.
Qed.

Lemma parts_listed (parts : list pystr) : forall l : list entry,
  map (fun e => cl_component e.1) l = map Some parts ->
  omap (fun e => (fun part => (part, read_as e)) <$> cl_component e.1) l = zip parts (map read_as l).
Proof.
  induction parts as [|p parts IH]; intros [|e l] H; try done. injection H as He Hl. cbn [omap list_omap map]. rewrite He. cbn.
  f_equal. by apply IH.
Qed.

(** A question whose answer is in one column. *)
Lemma whole_found (l : list entry) e i :
  List.filter (fun e => of_field i e.1) l = [e] -> cl_component e.1 = None ->
  dget (join_parts (set_all [] (omap whole_entry l)) (set_parts [] (omap part_entry l))) i = Some (read_as e).
Proof.
  intros Hf Hc. rewrite join_found by (apply set_parts_keys; constructor). rewrite set_parts_get, parts_of_field, Hf. cbn.
  rewrite Hc. cbn.
  assert (forall e', e' ∈ l /\ of_field i e'.1 = true <-> e' = e) as Hin.
  { intros e'. rewrite <- (elem_filter_bool (fun e => of_field i e.1)), Hf. apply list_elem_of_singleton. }
  destruct (proj2 (Hin e) eq_refl) as [He [Hs Hi]%bool_decide_eq_true].
  apply set_all_get.
  - apply list_elem_of_omap. exists e. split; [done|]. unfold whole_entry. by rewrite Hs, Hi, Hc.
  - intros v (e' & He' & Hw)%list_elem_of_omap. enough (e' = e) as ->.
    { unfold whole_entry in Hw. rewrite Hs, Hi, Hc in Hw. by injection Hw. }
    apply Hin. split; [done|]. unfold whole_entry in Hw. apply bool_decide_eq_true.
    destruct (cl_source e'.1), (cl_field e'.1), (cl_component e'.1); try done. by injection Hw as -> _.
Qed.

(** A question whose answer is in several. *)
Lemma parts_found (l : list entry) parts i :
  map (fun e => cl_component e.1) (List.filter (fun e => of_field i e.1) l) = map Some parts ->
  parts <> [] -> NoDup parts ->
  dget (join_parts (set_all [] (omap whole_entry l)) (set_parts [] (omap part_entry l))) i =
  Some (whole_of (zip parts (map read_as (List.filter (fun e => of_field i e.1) l)))).
Proof.
  intros Hf Hne Hn. rewrite join_found by (apply set_parts_keys; constructor).
  rewrite set_parts_get, parts_of_field, (parts_listed parts) by done. set (mine := List.filter _ l) in *.
  assert (length mine = length parts) as Hl by (apply (f_equal length) in Hf; by rewrite !length_map in Hf).
  destruct (zip parts (map read_as mine)) eqn:E.
  - destruct parts, mine; try done.
  - rewrite <- E. f_equal. cbn [dget default]. rewrite set_all_fresh; [done|]. cbn [fmap list_fmap app].
    change (NoDup ((zip parts (map read_as mine)).*1)). rewrite fst_zip; [done|]. rewrite length_map. lia.
Qed.

End Row.

Lemma parse_int_Z z : parse_int (str_Z z) = Some z /\ str_Z z <> [].
Proof.
  split; [|apply str_Z_number]. destruct (Z.ltb_spec z 0) as [Hz|Hz].
  - unfold parse_int. rewrite strip_number by apply str_Z_number. unfold str_Z. rewrite (proj2 (Z.ltb_lt z 0)) by done.
    destruct (str_N_spec (Z.to_N (- z))) as (Hval & Hd & Hne).
    assert (Forall (fun c => is_digit c = true) (str_N (Z.to_N (- z)))) as Hdig.
    { eapply Forall_impl; [exact Hd|]. intros c. apply is_digit_ascii. }
    change (read_sign _) with (true, str_N (Z.to_N (- z))). cbv iota. destruct (str_N (Z.to_N (- z))) as [|c s]; [done|].
    rewrite strip_underscores_none by (by apply digits_no_char).
    assert (all_digits (c :: s) = true) as ->.
    { apply forallb_forall. intros x Hx%list_elem_of_In. rewrite Forall_forall in Hdig. auto. }
    rewrite Hval, Z2N.id by lia. f_equal. lia.
  - destruct (digits_str_Z z Hz) as (Hd & Hne & Hval). rewrite parse_int_digits by done. by rewrite Hval.
Qed.

Section Answers.
Context {env : PyEnv} {uni : UnicodeDB}.

(** A value once it has been through a table, a structured one read whole. *)
Definition read_value (v : value) (data_type : pystr) : res value :=
  canonical ← canonical_value v data_type;
  Ok (match dget COMPONENTS data_type with
      | Some _ => match canonical with VDict parts => whole_of parts | _ => VNone end
      | None => canonical
      end).

(** What a question of a row reads back as: the token where the record has no
    readable answer, null where it has none, else the canonical value. *)
Definition answer_reads (r : submission_record) (prefix : pystr) (cells : odict value) (i data_type : pystr) : res value :=
  if bool_decide (path_under prefix i ∈ ep_unreadable (sr_projection r)) then Ok (VStr ENCRYPTED)
  else match dget cells i with
       | None => Ok VNone
       | Some v => read_value v (type_or_text (Some data_type))
       end.

(** The same for one of its columns. *)
Definition part_reads (r : submission_record) (prefix : pystr) (cells : odict value) (i data_type : pystr)
    (part : option pystr) : res value :=
  if bool_decide (path_under prefix i ∈ ep_unreadable (sr_projection r)) then Ok (VStr ENCRYPTED)
  else match dget cells i with
       | None => Ok VNone
       | Some v => c ← render v (type_or_text (Some data_type)) part; parse c (type_or_text (Some data_type)) part
       end.

Lemma token_parses dt comp : parse (CText ENCRYPTED) dt comp = Ok (VStr ENCRYPTED).
Proof. done. Qed.

Lemma empty_parses dt comp : parse (CText []) dt comp = Ok VNone /\ parse CEmpty dt comp = Ok VNone.
Proof. done. Qed.

(** The text of a cell reads as its column should. *)
Lemma cell_reads r prefix cells (c : column) cl i dt :
  cl_source c = Field -> cl_field c = Some i -> cl_type c = Some dt ->
  Forall (fun v => floats_ok v = true) (dvalues cells) ->
  value_cell c prefix cells r = Ok cl ->
  reading (c, csv_text cl) = part_reads r prefix cells i dt (cl_component c).
Proof.
  intros Hs Hi Hd Hok. unfold value_cell, reading, part_reads, field_of_column. cbn [fst snd]. rewrite Hs, Hi, Hd. cbn [default].
  cbn [id]. change (match dt with [] => lit "text" | _ :: _ => dt end) with (type_or_text (Some dt)).
  destruct (bool_decide _); [by intros [= <-]|]. destruct (dget cells i) as [v|] eqn:E; [|by intros [= <-]].
  intros Hc. rewrite Hc. cbn [mbind res_bind]. apply parse_csv_text.
  eapply render_fits; [|done]. rewrite Forall_forall in Hok. apply Hok. by apply (list_elem_of_fmap_2 snd _ (i, v)), dget_Some_elem.
Qed.

(** A cell there is whenever its reading is defined. *)
Lemma cell_exists r prefix cells (c : column) i dt :
  cl_source c = Field -> cl_field c = Some i -> cl_type c = Some dt ->
  is_ok (part_reads r prefix cells i dt (cl_component c)) = true -> exists cl, value_cell c prefix cells r = Ok cl.
Proof.
  intros Hs Hi Hd. unfold value_cell, part_reads, field_of_column. rewrite Hs, Hi, Hd. cbn [default].
  cbn [id]. change (match dt with [] => lit "text" | _ :: _ => dt end) with (type_or_text (Some dt)).
  destruct (bool_decide _); [by eexists|]. destruct (dget cells i) as [v|]; [|by eexists].
  destruct (render _ _ _) as [cl|]; [by eexists|done].
Qed.

Lemma type_components dt : dget COMPONENTS (type_or_text (Some dt)) = dget COMPONENTS dt.
Proof. by destruct dt. Qed.

(** An answer in one column. *)
Lemma answer_whole r prefix cells i dt :
  dget COMPONENTS dt = None -> answer_reads r prefix cells i dt = part_reads r prefix cells i dt None.
Proof.
  intros Hc. unfold answer_reads, part_reads. destruct (bool_decide _); [done|]. destruct (dget cells i) as [v|]; [|done].
  unfold read_value, canonical_value. rewrite type_components, Hc.
  destruct v; [done|..]; by destruct (render _ _ _) as [c|]; cbn [mbind res_bind]; [destruct (parse _ _ _)|].
Qed.

Lemma nulls_whole (parts : list pystr) : whole_of (zip parts (map (fun _ => VNone) parts)) = VNone.
Proof.
  unfold whole_of. set (l := zip _ _). assert (forall kv, kv ∈ l -> kv.2 = VNone) as Hl.
  { intros [k v] (j & x & y & [= -> ->] & _ & Hy)%elem_of_lookup_zip_with. rewrite lookup_map in Hy.
    destruct (parts !! j); [|done]. by injection Hy. }
  assert (existsb (fun kv => py_eq kv.2 (VStr ENCRYPTED)) l = false) as ->.
  { apply not_true_iff_false. rewrite existsb_exists. intros (kv & Hkv%list_elem_of_In%Hl & He). by rewrite Hkv in He. }
  assert (forallb (fun kv => is_null kv.2) l = true) as ->; [|done].
  apply forallb_forall. intros kv Hkv%list_elem_of_In%Hl. by rewrite Hkv.
Qed.

Lemma tokens_whole (parts : list pystr) : parts <> [] -> whole_of (zip parts (map (fun _ => VStr ENCRYPTED) parts)) = VStr ENCRYPTED.
Proof. by destruct parts. Qed.

Lemma Forall2_map_same {A B} (P : A -> B -> Prop) (f : A -> B) l : (forall x, P x (f x)) -> Forall2 P l (map f l).
Proof. intros H. induction l; constructor; auto. Qed.

Lemma parts_canonical d dt : forall parts entries,
  mapR (fun part => c ← component_cell (VDict d) part; p ← parse c dt (Some part); Ok (part, p)) parts = Ok entries ->
  exists vs, entries = zip parts vs /\
    Forall2 (fun part v => (c ← render (VDict d) dt (Some part); parse c dt (Some part)) = Ok v) parts vs.
Proof.
  induction parts as [|p parts IH]; intros entries; cbn [mapR]; [intros [= <-]; exists []; split; [done|constructor]|].
  change (render (VDict d) dt) with (fun part => match part with Some part => component_cell (VDict d) part | None => render_whole (VDict d) dt end) in *.
  destruct (component_cell (VDict d) p) as [c|] eqn:Ec; [|done]. cbn [mbind res_bind].
  destruct (parse c dt (Some p)) as [v|] eqn:Ep; [|done]. destruct (mapR _ parts) as [rest|] eqn:Em; [|done]. intros [= <-].
  destruct (IH rest eq_refl) as (vs & -> & Hvs). exists (v :: vs). split; [done|]. constructor; [|done]. by rewrite Ec.
Qed.

(** An answer in several columns: their readings, joined. *)
Lemma answer_parts r prefix cells i dt parts a :
  dget COMPONENTS dt = Some parts -> answer_reads r prefix cells i dt = Ok a ->
  exists vs, Forall2 (fun part v => part_reads r prefix cells i dt (Some part) = Ok v) parts vs /\ a = whole_of (zip parts vs).
Proof.
  intros Hc. destruct (components_distinct _ _ Hc) as [Hne _]. unfold answer_reads, part_reads. destruct (bool_decide _).
  { intros [= <-]. exists (map (fun _ => VStr ENCRYPTED) parts). split; [by apply Forall2_map_same|by rewrite tokens_whole]. }
  destruct (dget cells i) as [v|].
  2:{ intros [= <-]. exists (map (fun _ => VNone) parts). split; [by apply Forall2_map_same|by rewrite nulls_whole]. }
  unfold read_value, canonical_value. rewrite type_components, Hc.
  destruct v as [| | | | | |d]; cbn [mbind res_bind];
    try (intros [= <-]; exists (map (fun _ => VNone) parts); split; [by apply Forall2_map_same|by rewrite nulls_whole]).
  destruct (mapR _ parts) as [entries|] eqn:E; [|done]. cbn [fmap res_fmap mbind res_bind]. intros [= <-].
  destruct (parts_canonical _ _ _ _ E) as (vs & -> & Hvs). by exists vs.
Qed.

(** ** A row of a table *)

(** Every question of a table has a defined reading. *)
Definition answers_defined (forms : list cform) (repeat : option pystr) (r : submission_record) (prefix : pystr)
    (cells : odict value) : Prop :=
  Forall (fun v => floats_ok v = true) (dvalues cells) /\
  forall f i cf, f ∈ forms -> i ∈ f_order f -> dget (f_fields f) i = Some cf -> cf_repeat cf = repeat ->
    cf_data_type cf <> lit "note" -> is_ok (answer_reads r prefix cells i (cf_data_type cf)) = true.

(** The answers found are those the questions read back as. *)
Definition answers_found (forms : list cform) (repeat : option pystr) (r : submission_record) (prefix : pystr)
    (cells found : odict value) : Prop :=
  forall f i cf, f ∈ forms -> i ∈ f_order f -> dget (f_fields f) i = Some cf -> cf_repeat cf = repeat ->
    cf_data_type cf <> lit "note" -> Ok <$> dget found i = Some (answer_reads r prefix cells i (cf_data_type cf)).

(** The cells of a row: a value cell in each answer column. *)
Definition row_cells (r : submission_record) (prefix : pystr) (cells : odict value) (cols : list column) (row : list cell) : Prop :=
  Forall2 (fun c cl => is_value_column c = true -> value_cell c prefix cells r = Ok cl) cols row.

Context (language : option pystr).

(** A table as a plan has it. *)
Definition table_planned (forms : list cform) (repeat : option pystr) (cols : list column) : Prop :=
  NoDup (map cl_name cols) /\ map (with_name []) (List.filter is_value_column cols) = union_columns language forms repeat.

(** An answer column of a planned table is of a question, and has its shape. *)
Lemma column_of_question forms repeat cols c :
  ids_given forms -> types_agree forms -> table_planned forms repeat cols -> c ∈ cols -> cl_source c = Field ->
  exists f i cf, f ∈ forms /\ i ∈ f_order f /\ dget (f_fields f) i = Some cf /\ cf_repeat cf = repeat /\
    cf_data_type cf <> lit "note" /\ cl_field c = Some i /\ shape_of c ∈ answer_shape (cf_data_type cf).
Proof.
  intros Hids Hty [_ Hcols] Hc Hs. assert (is_value_column c = true) as Hv by (unfold is_value_column; by rewrite Hs).
  assert (with_name [] c ∈ union_columns language forms repeat) as Hin.
  { rewrite <- Hcols. apply (list_elem_of_fmap_2 (with_name [])). by apply elem_filter_bool. }
  unfold union_columns in Hin. apply list_elem_of_In, in_map_iff in Hin as (c0 & Hc0 & Hin%list_elem_of_In).
  apply elem_filter_bool in Hin as [Hin%firsts_incl Hrep%bool_decide_eq_true].
  rewrite questions_blocks in Hin. apply list_elem_of_In, in_concat in Hin.
  destruct Hin as (b & (f & i & Hf & Hi & ->)%list_elem_of_In%blocks_elem & Hin%list_elem_of_In).
  destruct (question_column _ _ _ _ Hin) as (cf & Hcf & Hfield & Htype & Hr & _).
  assert (cl_field c = Some i) as Hci by (rewrite <- Hfield; by destruct c, c0; injection Hc0).
  exists f, i, cf. assert (cf_data_type cf <> lit "note") as Hn.
  { intros Hn. unfold question_columns in Hin. rewrite Hcf, Hn in Hin. by apply elem_of_nil in Hin. }
  split_and!; try done; [congruence|]. rewrite <- (field_columns language forms cols f i cf Hids Hty Hf Hi Hcf Hn).
  - apply (list_elem_of_fmap_2 shape_of). apply elem_filter_bool. split; [done|]. by apply bool_decide_eq_true.
  - rewrite Hcols. congruence.
Qed.

Lemma shape_reading forms repeat (c : column) r prefix cells cl f i cf :
  answers_defined forms repeat r prefix cells ->
  f ∈ forms -> i ∈ f_order f -> dget (f_fields f) i = Some cf -> cf_repeat cf = repeat -> cf_data_type cf <> lit "note" ->
  of_field i c = true -> shape_of c ∈ answer_shape (cf_data_type cf) ->
  is_ok (part_reads r prefix cells i (cf_data_type cf) (cl_component c)) = true /\
  (value_cell c prefix cells r = Ok cl ->
   reading (c, csv_text cl) = part_reads r prefix cells i (cf_data_type cf) (cl_component c)).
Proof.
  intros [Hok Hdef] Hf Hi Hcf Hr Hn [Hs Hci]%bool_decide_eq_true Hshape.
  specialize (Hdef f i cf Hf Hi Hcf Hr Hn). set (dt := cf_data_type cf) in *. unfold answer_shape in Hshape.
  assert (cl_type c = Some dt) as Ht.
  { destruct (dget COMPONENTS dt) as [parts|].
    - apply list_elem_of_In, in_map_iff in Hshape as (p & Hp & _). by injection Hp.
    - apply list_elem_of_singleton in Hshape. by injection Hshape. }
  split; [|by apply cell_reads].
  destruct (dget COMPONENTS dt) as [parts|] eqn:Ec.
  - apply list_elem_of_In, in_map_iff in Hshape as (p & Hp & Hin%list_elem_of_In). injection Hp as Hp _. rewrite <- Hp.
    destruct (answer_reads r prefix cells i dt) as [a|] eqn:Ea; [|done].
    destruct (answer_parts _ _ _ _ _ _ _ Ec Ea) as (vs & Hvs & _). apply list_elem_of_lookup in Hin as [k Hk].
    destruct (Forall2_lookup_l _ _ _ _ _ Hvs Hk) as (v & _ & Hv). by rewrite Hv.
  - apply list_elem_of_singleton in Hshape. injection Hshape as Hp _. rewrite Hp. by rewrite <- answer_whole.
Qed.

Lemma column_field (c : column) i : cl_source c = Field -> cl_field c = Some i -> of_field i c = true.
Proof. intros Hs Hi. by apply bool_decide_eq_true. Qed.

(** An entry of a row is a column with the text of its cell. *)
Lemma entry_cell r prefix cells cols row e :
  row_cells r prefix cells cols row -> e ∈ entries cols (map csv_text row) ->
  e.1 ∈ cols /\ exists cl, e.2 = csv_text cl /\ (is_value_column e.1 = true -> value_cell e.1 prefix cells r = Ok cl).
Proof.
  intros Hrow (k & c & t & -> & Hc & Ht)%elem_of_lookup_zip_with. cbn. rewrite lookup_map in Ht.
  destruct (row !! k) as [cl|] eqn:E; [|done]. injection Ht as <-. split; [by eapply list_elem_of_lookup_2|].
  exists cl. split; [done|]. by eapply (Forall2_lookup_lr _ _ _ k _ _ Hrow).
Qed.

(** Every answer column of a row of a planned table can be read. *)
Lemma row_readable forms repeat cols r prefix cells row e :
  ids_given forms -> types_agree forms -> table_planned forms repeat cols -> answers_defined forms repeat r prefix cells ->
  row_cells r prefix cells cols row -> e ∈ entries cols (map csv_text row) -> readable e.
Proof.
  intros Hids Hty Hplan Hdef Hrow He Hs. destruct (entry_cell _ _ _ _ _ _ Hrow He) as (Hc & cl & Ht & Hcl).
  destruct (column_of_question _ _ _ _ Hids Hty Hplan Hc Hs) as (f & i & cf & Hf & Hi & Hcf & Hr & Hn & Hfield & Hshape).
  destruct (shape_reading _ _ _ _ _ _ cl _ _ _ Hdef Hf Hi Hcf Hr Hn (column_field _ _ Hs Hfield) Hshape) as [Hpart Hread].
  destruct e as [c t]. cbn [fst snd] in *. subst t. rewrite Hread; [done|]. apply Hcl. unfold is_value_column. by rewrite Hs.
Qed.

Lemma filter_fst (p : column -> bool) (l : list (column * list N)) : map fst (List.filter (fun e => p e.1) l) = List.filter p (map fst l).
Proof. induction l as [|e l IH]; [done|]. cbn. destruct (p e.1); cbn; by rewrite IH. Qed.

(** The answers of a row of a planned table are found. *)
Lemma row_answers forms repeat cols r prefix cells row :
  ids_given forms -> types_agree forms -> table_planned forms repeat cols -> answers_defined forms repeat r prefix cells ->
  row_cells r prefix cells cols row ->
  answers_found forms repeat r prefix cells
    (join_parts (set_all [] (omap whole_entry (entries cols (map csv_text row))))
       (set_parts [] (omap part_entry (entries cols (map csv_text row))))).
Proof.
  intros Hids Hty Hplan Hdef Hrow f i cf Hf Hi Hcf Hr Hn. set (l := entries cols (map csv_text row)).
  assert (l.*1 = cols) as Hfst.
  { apply entries_columns. rewrite length_map. symmetry. by eapply Forall2_length. }
  set (dt := cf_data_type cf) in *. set (fc := List.filter (fun e => of_field i e.1) l).
  assert (map (fun e => shape_of e.1) fc = answer_shape dt) as Hshape.
  { unfold dt. rewrite <- (field_columns language forms cols f i cf Hids Hty Hf Hi Hcf Hn) by (rewrite Hr; apply Hplan).
    rewrite <- Hfst. change (l.*1) with (map fst l). rewrite <- filter_fst, map_map. done. }
  assert (forall e, e ∈ fc -> reading e = part_reads r prefix cells i dt (cl_component e.1)) as Hread.
  { intros e [He Ho]%elem_filter_bool. destruct (entry_cell _ _ _ _ _ _ Hrow He) as (Hc & cl & Ht & Hcl).
    assert (shape_of e.1 ∈ answer_shape dt) as Hsh.
    { rewrite <- Hshape. apply (list_elem_of_fmap_2 (fun e => shape_of e.1)). by apply elem_filter_bool. }
    destruct (shape_reading _ _ _ _ _ _ cl _ _ _ Hdef Hf Hi Hcf Hr Hn Ho Hsh) as [_ Hx].
    destruct e as [c t]. cbn [fst snd] in *. subst t. apply Hx, Hcl. by eapply of_field_value. }
  pose proof (proj2 Hdef f i cf Hf Hi Hcf Hr Hn) as Hans. fold dt in Hans.
  destruct (answer_reads r prefix cells i dt) as [a|] eqn:Ea; [|done]. unfold answer_shape in Hshape.
  destruct (dget COMPONENTS dt) as [parts|] eqn:Ec.
  - destruct (components_distinct _ _ Ec) as [Hne Hnd]. destruct (answer_parts _ _ _ _ _ _ _ Ec Ea) as (vs & Hvs & ->).
    assert (map (fun e => cl_component e.1) fc = map Some parts) as Hcomp.
    { apply (f_equal (map fst)) in Hshape. rewrite !map_map in Hshape. done. }
    rewrite (parts_found _ parts) by done. fold fc. cbn. do 4 f_equal.
    clearbody fc. clear -Hcomp Hread Hvs. revert fc Hcomp Hread. induction Hvs as [|p v parts vs Hp _ IH]; intros [|e fc] Hcomp Hread; try done.
    injection Hcomp as He Hcomp. cbn. f_equal; [|apply IH; [done|]; intros; apply Hread; by right].
    unfold read_as. rewrite Hread, He, Hp by by left. done.
  - destruct fc as [|e [|e' fc']] eqn:Efc; try done. injection Hshape as Hcomp _.
    rewrite (whole_found _ e) by done. cbn. do 2 f_equal. unfold read_as. rewrite Hread by by left.
    rewrite Hcomp, <- answer_whole by done. by rewrite Ea.
Qed.

(** A row that is read: its keys and its answers. *)
Lemma planned_row_reads records ciphers forms repeat cols r prefix cells row :
  ids_given forms -> types_agree forms -> table_planned forms repeat cols -> answers_defined forms repeat r prefix cells ->
  row_cells r prefix cells cols row ->
  exists key found,
    read_row_of (map (described records ciphers) cols) (header_index (map cl_name cols)) (map csv_text row) = Ok (key, found) /\
    answers_found forms repeat r prefix cells found /\
    (forall k c cl, cols !! k = Some c -> row !! k = Some cl -> cl_source c = Meta ->
       dget key (cl_name c) = Some (text_or_none (csv_text cl))).
Proof.
  intros Hids Hty Hplan Hdef Hrow. assert (length (map csv_text row) = length cols) as Hl.
  { rewrite length_map. symmetry. by eapply Forall2_length. }
  eexists _, _. split; [apply row_reads; [apply Hplan|done|intros e He; by eapply row_readable]|].
  split; [by apply (row_answers forms repeat)|].
  intros k c cl Hc Hcl Hm. apply (key_found _ (c, csv_text cl)); [rewrite entries_columns by done; apply Hplan| |done].
  apply elem_of_lookup_zip_with. exists k, c, (csv_text cl). rewrite lookup_map, Hcl. done.
Qed.

End Answers.
