(* ===== verification/ExportFacts.v ===== *)
(** * An export and its files

    From the rows of a long export to the submissions they hold: what every
    row adds, table after table; and that the tables of an export exist, read
    back, and hold the answers their columns say. *)

From Stdlib Require Import Sorted.
From S2P Require Import Prelude PyStr PyNum Value PyJson TextFormats Expr Expression Datasets Compile Projection.
From S2P Require Import DatasetKeys Surface SurfaceFacts Printer PublishGate Server Cells ExportPlan PlanFacts.
From S2P Require Import Statistical ExportManifest FloatText CellFacts ReadbackFacts DeltaFacts ExpressionFacts.
From S2P Require Import Runtime.

(** ** What a reader needs of a plan *)

(** A key column under its own name. *)
Definition keeps_key (cols : list column) (key : pystr) : bool :=
  existsb (fun c => bool_decide (cl_source c = Meta /\ cl_field c = Some key /\ cl_name c = key)) cols.

(** The key columns a reader looks for have kept their names. *)
Definition keeps_keys (plan : column_plan) : bool :=
  keeps_key (pl_parent plan) "submission_id" && keeps_key (pl_parent plan) "form_version" &&
  forallb (fun rc => forallb (keeps_key rc.2) (map fst REPEAT_KEY_COLUMNS)) (pl_repeats plan).

(** Every name and cell is within the reader's field limit. *)
Definition fields_fit (tables : list table) : Prop :=
  forall t, t ∈ tables ->
    Forall within_limit (map cl_name (tb_columns t)) /\ Forall (fun row => Forall within_limit (map csv_text row)) (tb_rows t).

Lemma keeps_key_at cols key :
  keeps_key cols key = true -> exists k c, cols !! k = Some c /\ cl_source c = Meta /\ cl_field c = Some key /\ cl_name c = key.
Proof.
  unfold keeps_key. rewrite existsb_exists. intros (c & Hc%list_elem_of_In%list_elem_of_lookup & H%bool_decide_eq_true).
  destruct Hc as [k Hk]. by exists k, c.
Qed.

(** ** The files *)

Definition sheet_of (t : table) : sheet := (map cl_name (tb_columns t), map (map csv_text) (tb_rows t)).

Lemma read_csv_written t :
  tb_columns t <> [] -> Forall (fun row => length row = length (tb_columns t)) (tb_rows t) ->
  Forall within_limit (map cl_name (tb_columns t)) -> Forall (fun row => Forall within_limit (map csv_text row)) (tb_rows t) ->
  read_csv (write_csv t) = Some (sheet_of t).
Proof.
  intros Hne Hl Hn Hr. unfold read_csv, write_csv. rewrite read_written_rows; [done|].
  constructor; [split; [by destruct (tb_columns t)|done]|]. apply Forall_forall.
  intros x (row & <- & Hrow%list_elem_of_In)%list_elem_of_In%in_map_iff. rewrite Forall_forall in Hl, Hr. split; [|by apply Hr].
  specialize (Hl row Hrow). destruct row; [|done]. by destruct (tb_columns t).
Qed.

Lemma read_sheets_written tables :
  NoDup (map tb_name tables) -> (forall t, t ∈ tables -> read_csv (write_csv t) = Some (sheet_of t)) ->
  read_sheets (csv_files tables) = Some (map (fun t => (tb_name t, sheet_of t)) tables).
Proof.
  intros Hn Hr. unfold read_sheets, csv_files.
  assert (forall l d, (forall t, t ∈ l -> read_csv (write_csv t) = Some (sheet_of t)) ->
    fold_left (fun found file => found ← found; s ← read_csv file.2; Some (dset found file.1 s))
      (map (fun t => (tb_name t, write_csv t)) l) (Some d) = Some (set_all d (map (fun t => (tb_name t, sheet_of t)) l))) as Hl.
  { induction l as [|t l IH]; intros d Hd; [done|]. cbn [map fold_left fst snd]. rewrite Hd by by left. cbn [mbind option_bind].
    rewrite IH by (intros; apply Hd; by right). done. }
  rewrite Hl by done. rewrite set_all_fresh; [done|]. cbn [fmap list_fmap app].
  enough ((map (fun t => (tb_name t, sheet_of t)) tables).*1 = map tb_name tables) as -> by done.
  unfold fmap. clear. induction tables as [|t l IH]; [done|]. cbn. by f_equal.
Qed.

(** ** Instances gathered by submission and repeat *)

Definition gathered (repeats : odict (odict (list read_instance))) (sid repeat_id : pystr) : list read_instance :=
  default [] (dget (default [] (dget repeats sid)) repeat_id).

Definition gather (repeats : odict (odict (list read_instance))) (sid repeat_id : pystr) (i : read_instance)
    : odict (odict (list read_instance)) :=
  dset repeats sid (dset (default [] (dget repeats sid)) repeat_id (gathered repeats sid repeat_id ++ [i])).

Lemma gathered_gather repeats sid repeat_id i sid' repeat_id' :
  gathered (gather repeats sid repeat_id i) sid' repeat_id' =
  gathered repeats sid' repeat_id' ++ (if bool_decide (sid' = sid /\ repeat_id' = repeat_id) then [i] else []).
Proof.
  unfold gathered at 1, gather. destruct (decide (sid' = sid)) as [->|Hne].
  - rewrite dget_dset_eq. cbn [from_option id]. destruct (decide (repeat_id' = repeat_id)) as [->|Hne'].
    + rewrite dget_dset_eq, bool_decide_eq_true_2 by done. done.
    + rewrite dget_dset_ne, bool_decide_eq_false_2, app_nil_r by naive_solver. done.
  - rewrite dget_dset_ne, bool_decide_eq_false_2, app_nil_r by naive_solver. done.
Qed.

Definition gather_all (repeats : odict (odict (list read_instance))) (repeat_id : pystr) (found : list (pystr * read_instance))
    : odict (odict (list read_instance)) :=
  fold_left (fun reps ii => gather reps ii.1 repeat_id ii.2) found repeats.

Lemma gathered_all repeat_id found : forall repeats sid repeat_id',
  gathered (gather_all repeats repeat_id found) sid repeat_id' =
  gathered repeats sid repeat_id' ++
  (if decide (repeat_id' = repeat_id) then map snd (List.filter (fun ii => bool_decide (ii.1 = sid)) found) else []).
Proof.
  induction found as [|[sid0 i0] found IH]; intros repeats sid repeat_id'; [cbn; destruct (decide _); by rewrite app_nil_r|].
  change (gather_all repeats repeat_id ((sid0, i0) :: found)) with (gather_all (gather repeats sid0 repeat_id i0) repeat_id found).
  cbn [List.filter fst]. rewrite IH, gathered_gather, <- app_assoc. f_equal.
  destruct (decide (repeat_id' = repeat_id)) as [->|Hne]; [|by rewrite bool_decide_eq_false_2, app_nil_r by tauto].
  destruct (decide (sid0 = sid)) as [->|Hne].
  - by rewrite !bool_decide_eq_true_2.
  - by rewrite !bool_decide_eq_false_2 by naive_solver.
Qed.

Section Bundle.
Context {env : PyEnv} {uni : UnicodeDB} (language : option pystr).

(** ** What a record reads back as *)

Definition instance_reads (forms : list cform) (r : submission_record) (repeat_id : pystr) (row : repeat_row) (i : read_instance)
    : Prop :=
  ri_instance i = rr_instance row /\ ri_index i = Z.of_nat (rr_index row) /\
  answers_found forms (Some repeat_id) r (instance_prefix repeat_id (rr_instance row)) (rr_cells row) (ri_cells i).

Definition top_reads (forms : list cform) (r : submission_record) (s : read_submission) : Prop :=
  rs_id s = sr_id r /\ rs_version s = Some (sr_form_version r) /\
  answers_found forms None r [] (ep_top (sr_projection r)) (rs_top s).

(** A record whose answers have readings, instances in their order. *)
Definition record_defined (forms : list cform) (r : submission_record) : Prop :=
  answers_defined forms None r [] (ep_top (sr_projection r)) /\
  forall repeat_id,
    StronglySorted le (map rr_index (instances_in r repeat_id)) /\
    forall row, row ∈ instances_in r repeat_id ->
      answers_defined forms (Some repeat_id) r (instance_prefix repeat_id (rr_instance row)) (rr_cells row).

(** ** One row *)

(** A key column's cell, and what is read under the key. *)
Lemma key_read (keys : odict (option pystr)) cols row (r : column -> cell -> Prop) (key : string) (text : pystr) :
  keeps_key cols (lit key) = true -> length row = length cols ->
  (forall k c cl, cols !! k = Some c -> row !! k = Some cl -> cl_source c = Meta ->
     dget keys (cl_name c) = Some (text_or_none (csv_text cl))) ->
  (forall k c cl, cols !! k = Some c -> row !! k = Some cl -> cl_source c = Meta -> cl_field c = Some (lit key) -> csv_text cl = text) ->
  key_text keys key = text_or_none text.
Proof.
  intros (k & c & Hc & Hm & Hf & Hn)%keeps_key_at Hl Hkeys Hcell.
  destruct (lookup_lt_is_Some_2 row k) as [cl Hcl]; [rewrite Hl; by eapply lookup_lt_Some|].
  specialize (Hkeys k c cl Hc Hcl Hm). rewrite Hn in Hkeys. unfold key_text. rewrite Hkeys. cbn.
  by rewrite (Hcell k c cl).
Qed.

Lemma text_given s : s <> [] -> text_or_none s = Some s.
Proof. by destruct s. Qed.

Definition described_table (records : list submission_record) (ciphers : odict (list pystr)) (t : table) : table_manifest :=
  describe_table records ciphers None t.

Lemma described_columns records ciphers t :
  tm_columns (described_table records ciphers t) = map (described records ciphers) (tb_columns t).
Proof. apply describe_csv. Qed.

(** A row of the parent table. *)
Lemma add_parent_row records ciphers forms t r row subs reps :
  ids_given forms -> types_agree forms -> table_planned language forms None (tb_columns t) -> tb_kind t = Submissions ->
  keeps_key (tb_columns t) "submission_id" = true -> keeps_key (tb_columns t) "form_version" = true ->
  answers_defined forms None r [] (ep_top (sr_projection r)) -> sr_id r <> [] ->
  parent_row (tb_columns t) r = Ok row ->
  exists s, add_row (described_table records ciphers t) (header_index (map cl_name (tb_columns t))) (subs, reps) (map csv_text row) =
      Ok (dset subs (sr_id r) s, reps) /\ top_reads forms r s /\ rs_repeats s = [].
Proof.
  intros Hids Hty Hplan Hkind Hid Hver Hdef Hne Hrow. apply mapR_Ok in Hrow.
  assert (row_cells r [] (ep_top (sr_projection r)) (tb_columns t) row) as Hcells.
  { eapply Forall2_impl; [exact Hrow|]. intros c cl Hc Hv. cbn in Hc. by rewrite Hv in Hc. }
  assert (forall k c cl, tb_columns t !! k = Some c -> row !! k = Some cl -> cl_source c = Meta -> cl = meta_cell (field_of_column c) r) as Hmeta.
  { intros k c cl Hc Hcl Hm. pose proof (Forall2_lookup_lr _ _ _ _ _ _ Hrow Hc Hcl) as H. cbn in H.
    unfold is_value_column, meta_or_count in H. rewrite Hm in H. by injection H. }
  destruct (planned_row_reads language records ciphers forms None _ _ _ _ _ Hids Hty Hplan Hdef Hcells) as (key & found & Hread & Hfound & Hkeys).
  assert (length row = length (tb_columns t)) as Hl by (symmetry; by eapply Forall2_length).
  assert (key_text key "submission_id" = text_or_none (sr_id r)) as Hk1.
  { eapply (key_read key _ row (fun _ _ => True)); [done..|]. intros k c cl Hc Hcl Hm Hf. rewrite (Hmeta k c cl) by done.
    unfold field_of_column. by rewrite Hf. }
  assert (key_text key "form_version" = text_or_none (str_Z (sr_form_version r))) as Hk2.
  { eapply (key_read key _ row (fun _ _ => True)); [done..|]. intros k c cl Hc Hcl Hm Hf. rewrite (Hmeta k c cl) by done.
    unfold field_of_column. by rewrite Hf. }
  destruct (parse_int_Z (sr_form_version r)) as [Hpi Hpne].
  exists (ReadSubmission (sr_id r) (Some (sr_form_version r)) found []). split_and!; [|done|done].
  unfold add_row. rewrite described_columns, Hread. cbn [mbind res_bind]. rewrite Hk1, text_given by done.
  destruct (sr_id r) as [|i0 i] eqn:Ei; [done|]. change (tm_kind (described_table records ciphers t)) with (tb_kind t). rewrite Hkind.
  rewrite Hk2, text_given by done. unfold int_of_text. rewrite Hpi. done.
Qed.

(** A row of a repeat's table. *)
Lemma add_repeat_row records ciphers forms t repeat_id r inst row subs reps :
  ids_given forms -> types_agree forms -> table_planned language forms (Some repeat_id) (tb_columns t) -> tb_kind t = RepeatOf repeat_id ->
  forallb (keeps_key (tb_columns t)) (map fst REPEAT_KEY_COLUMNS) = true ->
  answers_defined forms (Some repeat_id) r (instance_prefix repeat_id (rr_instance inst)) (rr_cells inst) -> sr_id r <> [] ->
  repeat_table_row (tb_columns t) repeat_id r inst = Ok row ->
  (forall c, c ∈ tb_columns t -> cl_source c <> Count) ->
  exists i, add_row (described_table records ciphers t) (header_index (map cl_name (tb_columns t))) (subs, reps) (map csv_text row) =
      Ok (subs, gather reps (sr_id r) repeat_id i) /\ instance_reads forms r repeat_id inst i.
Proof.
  intros Hids Hty Hplan Hkind Hkept Hdef Hne Hrow Hnc. apply mapR_Ok in Hrow.
  assert (row_cells r (instance_prefix repeat_id (rr_instance inst)) (rr_cells inst) (tb_columns t) row) as Hcells.
  { eapply Forall2_impl; [exact Hrow|]. intros c cl Hc Hv. cbn in Hc. unfold is_value_column in Hv. by destruct (cl_source c). }
  assert (forall k c cl, tb_columns t !! k = Some c -> row !! k = Some cl -> cl_source c = Meta -> cl = key_cell (field_of_column c) r inst) as Hmeta.
  { intros k c cl Hc Hcl Hm. pose proof (Forall2_lookup_lr _ _ _ _ _ _ Hrow Hc Hcl) as H. cbn in H. rewrite Hm in H. by injection H. }
  destruct (planned_row_reads language records ciphers forms _ _ _ _ _ _ Hids Hty Hplan Hdef Hcells) as (key & found & Hread & Hfound & Hkeys).
  assert (length row = length (tb_columns t)) as Hl by (symmetry; by eapply Forall2_length).
  rewrite forallb_forall in Hkept.
  assert (key_text key "submission_id" = text_or_none (sr_id r)) as Hk1.
  { eapply (key_read key _ row (fun _ _ => True)); [apply Hkept; cbn; tauto|done|done|]. intros k c cl Hc Hcl Hm Hf. rewrite (Hmeta k c cl) by done.
    unfold field_of_column. by rewrite Hf. }
  assert (key_text key "instance_id" = text_or_none (rr_instance inst)) as Hk2.
  { eapply (key_read key _ row (fun _ _ => True)); [apply Hkept; cbn; tauto|done|done|]. intros k c cl Hc Hcl Hm Hf. rewrite (Hmeta k c cl) by done.
    unfold field_of_column. by rewrite Hf. }
  assert (key_text key "instance_index" = text_or_none (str_Z (Z.of_nat (rr_index inst)))) as Hk3.
  { eapply (key_read key _ row (fun _ _ => True)); [apply Hkept; cbn; tauto|done|done|]. intros k c cl Hc Hcl Hm Hf. rewrite (Hmeta k c cl) by done.
    unfold field_of_column. by rewrite Hf. }
  destruct (parse_int_Z (Z.of_nat (rr_index inst))) as [Hpi Hpne].
  exists (ReadInstance (rr_instance inst) (Z.of_nat (rr_index inst)) found). split; [|done].
  unfold add_row. rewrite described_columns, Hread. cbn [mbind res_bind]. rewrite Hk1, text_given by done.
  destruct (sr_id r) as [|i0 i] eqn:Ei; [done|]. change (tm_kind (described_table records ciphers t)) with (tb_kind t). rewrite Hkind.
  rewrite Hk3, text_given by done. unfold int_of_text. rewrite Hpi. cbn [of_option mbind res_bind]. rewrite Hk2.
  assert (default [] (text_or_none (rr_instance inst)) = rr_instance inst) as -> by by destruct (rr_instance inst).
  done.
Qed.

(** ** The rows of a table *)

Lemma add_parent_rows records ciphers forms t recs rows :
  ids_given forms -> types_agree forms -> table_planned language forms None (tb_columns t) -> tb_kind t = Submissions ->
  keeps_key (tb_columns t) "submission_id" = true -> keeps_key (tb_columns t) "form_version" = true ->
  (forall r, r ∈ recs -> answers_defined forms None r [] (ep_top (sr_projection r)) /\ sr_id r <> []) ->
  Forall2 (fun r row => parent_row (tb_columns t) r = Ok row) recs rows -> forall subs reps,
  exists ss, foldM (add_row (described_table records ciphers t) (header_index (map cl_name (tb_columns t)))) (subs, reps)
      (map (map csv_text) rows) = Ok (set_all subs (zip (map sr_id recs) ss), reps) /\
    Forall2 (fun r s => top_reads forms r s /\ rs_repeats s = []) recs ss.
Proof.
  intros Hids Hty Hplan Hkind Hk1 Hk2 Hrecs Hrows. induction Hrows as [|r row recs rows Hrow _ IH]; intros subs reps.
  { by exists []. }
  destruct (Hrecs r ltac:(by left)) as [Hdef Hne].
  destruct (add_parent_row records ciphers forms t r row subs reps) as (s & Hadd & Htop & Hno); [done..|].
  destruct (IH ltac:(intros; apply Hrecs; by right) (dset subs (sr_id r) s) reps) as (ss & Hss & Hall).
  exists (s :: ss). split; [|by constructor]. cbn [map foldM]. rewrite Hadd. exact Hss.
Qed.

(** Each instance of each record. *)
Definition instances_of (records : list submission_record) (repeat_id : pystr) : list (submission_record * repeat_row) :=
  concat (map (fun r => map (pair r) (instances_in r repeat_id)) records).

Lemma mapR_nested {A B C} (f : A -> B -> res C) (g : A -> list B) l : forall rows,
  mapR (fun a => mapR (f a) (g a)) l = Ok rows ->
  Forall2 (fun p c => f p.1 p.2 = Ok c) (concat (map (fun a => map (pair a) (g a)) l)) (concat rows).
Proof.
  induction l as [|a l IH]; intros rows Hrows%mapR_Ok; inversion Hrows as [|? row ? rest Ha Hrest]; subst; [constructor|].
  cbn. apply Forall2_app; [|by apply IH, mapR_Ok]. apply mapR_Ok in Ha. clear -Ha. induction Ha; by constructor.
Qed.

Lemma add_repeat_rows records ciphers forms t repeat_id pairs rows :
  ids_given forms -> types_agree forms -> table_planned language forms (Some repeat_id) (tb_columns t) -> tb_kind t = RepeatOf repeat_id ->
  forallb (keeps_key (tb_columns t)) (map fst REPEAT_KEY_COLUMNS) = true ->
  (forall c, c ∈ tb_columns t -> cl_source c <> Count) ->
  (forall p, p ∈ pairs -> answers_defined forms (Some repeat_id) p.1 (instance_prefix repeat_id (rr_instance p.2)) (rr_cells p.2) /\
                          sr_id p.1 <> []) ->
  Forall2 (fun p row => repeat_table_row (tb_columns t) repeat_id p.1 p.2 = Ok row) pairs rows -> forall subs reps,
  exists found, foldM (add_row (described_table records ciphers t) (header_index (map cl_name (tb_columns t)))) (subs, reps)
      (map (map csv_text) rows) = Ok (subs, gather_all reps repeat_id (zip (map (fun p => sr_id p.1) pairs) found)) /\
    Forall2 (fun p i => instance_reads forms p.1 repeat_id p.2 i) pairs found.
Proof.
  intros Hids Hty Hplan Hkind Hk Hnc Hpairs Hrows. induction Hrows as [|[r inst] row pairs rows Hrow _ IH]; intros subs reps.
  { by exists []. }
  destruct (Hpairs (r, inst) ltac:(by left)) as [Hdef Hne].
  destruct (add_repeat_row records ciphers forms t repeat_id r inst row subs reps) as (i & Hadd & Hreads); [done..|].
  destruct (IH ltac:(intros; apply Hpairs; by right) subs (gather reps (sr_id r) repeat_id i)) as (found & His & Hall).
  exists (i :: found). split; [|by constructor]. cbn [map foldM]. rewrite Hadd. exact His.
Qed.

(** Among the instances of all records, those of one. *)
Lemma instances_of_record (Q : submission_record -> repeat_row -> read_instance -> Prop) records repeat_id : forall found r,
  NoDup (map sr_id records) -> r ∈ records ->
  Forall2 (fun p i => Q p.1 p.2 i) (instances_of records repeat_id) found ->
  Forall2 (Q r) (instances_in r repeat_id)
    (map snd (List.filter (fun ii => bool_decide (ii.1 = sr_id r)) (zip (map (fun p => sr_id p.1) (instances_of records repeat_id)) found))).
Proof.
  induction records as [|r0 records IH]; intros found r Hn Hr His; [by apply elem_of_nil in Hr|].
  change (NoDup (sr_id r0 :: map sr_id records)) in Hn. apply NoDup_cons in Hn as [Hfresh Hn].
  change (instances_of (r0 :: records) repeat_id) with (map (pair r0) (instances_in r0 repeat_id) ++ instances_of records repeat_id) in *. apply Forall2_app_inv_l in His as (is1 & is2 & H1 & H2 & ->).
  rewrite map_app, zip_with_app, List.filter_app, map_app by (rewrite length_map; by eapply Forall2_length).
  assert (Forall2 (Q r0) (instances_in r0 repeat_id) is1) as H1' by (apply Forall2_fmap_l in H1; exact H1).
  set (rest := instances_of records repeat_id) in *.
  assert (forall (l : list (submission_record * repeat_row)) (js : list read_instance), (forall p, p ∈ l -> sr_id p.1 <> sr_id r) ->
    List.filter (fun ii : pystr * read_instance => bool_decide (ii.1 = sr_id r)) (zip (map (fun p => sr_id p.1) l) js) = []) as Hnone.
  { intros l js Hl. apply filter_none. intros ii (k & x & y & -> & Hx & _)%elem_of_lookup_zip_with. rewrite lookup_map in Hx.
    destruct (l !! k) as [p|] eqn:E; [|done]. injection Hx as <-. apply bool_decide_eq_false, Hl. by eapply list_elem_of_lookup_2. }
  assert (forall p, p ∈ rest -> sr_id p.1 ∈ map sr_id records) as Hrest.
  { intros p (x & (r1 & <- & Hr1)%in_map_iff & (row & <- & _)%in_map_iff)%list_elem_of_In%in_concat. cbn.
    apply list_elem_of_In, in_map, Hr1. }
  apply elem_of_cons in Hr as [->|Hr].
  - rewrite (Hnone rest), app_nil_r by (intros p Hp Heq; apply Hfresh; rewrite <- Heq; by apply Hrest).
    rewrite filter_all, map_map; [|intros ii (k & x & y & -> & Hx & _)%elem_of_lookup_zip_with; rewrite !lookup_map in Hx;
      destruct (instances_in r0 repeat_id !! k); [|done]; injection Hx as <-; by apply bool_decide_eq_true].
    clear -H1'. induction H1'; by constructor.
  - rewrite (Hnone (map (pair r0) _)); [by apply IH|]. intros p (row & <- & _)%list_elem_of_In%in_map_iff. cbn. intros Heq. apply Hfresh. rewrite Heq.
    apply list_elem_of_In, in_map. by apply list_elem_of_In.
Qed.

(** ** The tables of an export *)

Definition repeat_table_of (base : pystr) (rc : pystr * list column) (t : table) : Prop :=
  tb_name t = base ++ lit "-" ++ rc.1 /\ tb_kind t = RepeatOf rc.1 /\ tb_columns t = rc.2.

Lemma build_long plan records base tables :
  build_tables plan records Long base = Ok tables ->
  exists parent repeats, tables = parent :: repeats /\
    (tb_name parent = base /\ tb_kind parent = Submissions /\ tb_columns parent = pl_parent plan /\
     Forall2 (fun r row => parent_row (pl_parent plan) r = Ok row) records (tb_rows parent)) /\
    Forall2 (fun rc t => repeat_table_of base rc t /\ repeat_table_rows rc.2 rc.1 records = Ok (tb_rows t)) (pl_repeats plan) repeats.
Proof.
  unfold build_tables, parent_table. destruct (mapR (parent_row _) records) as [rows|] eqn:Erows; [|done]. cbn [mbind res_bind].
  destruct (mapR (repeat_table _ _) _) as [repeats|] eqn:Ereps; [|done]. cbn [mbind res_bind]. intros [= <-].
  eexists _, repeats. split; [done|]. split; [split_and!; try done; by apply mapR_Ok|].
  apply mapR_Ok in Ereps. eapply Forall2_impl; [exact Ereps|]. intros rc t Ht. unfold repeat_table in Ht.
  destruct (repeat_table_rows _ _ _) as [rows'|]; [|done]. by injection Ht as <-.
Qed.

Lemma repeat_names base rcs ts :
  Forall2 (fun rc t => repeat_table_of base rc t) rcs ts -> map tb_name ts = map (fun r => base ++ lit "-" ++ r) (dkeys rcs).
Proof. induction 1 as [|rc t rcs ts (Hn & _) _ IH]; [done|]. cbn. by rewrite Hn, IH. Qed.

Lemma table_names_distinct base rcs parent ts :
  tb_name parent = base -> NoDup (dkeys rcs) -> Forall2 (fun rc t => repeat_table_of base rc t) rcs ts ->
  NoDup (map tb_name (parent :: ts)).
Proof.
  intros Hp Hn Hts. cbn [map]. rewrite Hp, (repeat_names _ _ _ Hts). apply NoDup_cons. split.
  - intros (r & Heq & _)%list_elem_of_In%in_map_iff. apply (f_equal length) in Heq. rewrite !length_app in Heq. change (length (lit "-")) with 1%nat in Heq. lia.
  - apply (NoDup_fmap_2_strong (fun r => base ++ lit "-" ++ r)); [|done]. intros r r' _ _ Heq%app_inv_head%app_inv_head. done.
Qed.

(** The rows of every repeat's table, gathered. *)
Lemma add_repeat_tables records ciphers forms sheets base rcs ts :
  ids_given forms -> types_agree forms -> NoDup (map sr_id records) ->
  (forall r, r ∈ records -> record_defined forms r /\ sr_id r <> []) ->
  NoDup (dkeys rcs) ->
  (forall rc, rc ∈ rcs -> table_planned language forms (Some rc.1) rc.2 /\ (forall c, c ∈ rc.2 -> cl_source c <> Count) /\
                          forallb (keeps_key rc.2) (map fst REPEAT_KEY_COLUMNS) = true) ->
  Forall2 (fun rc t => repeat_table_of base rc t /\ repeat_table_rows rc.2 rc.1 records = Ok (tb_rows t)) rcs ts ->
  (forall t, t ∈ ts -> dget sheets (tb_name t) = Some (sheet_of t)) ->
  (forall rc, rc ∈ rcs -> rc.2 <> []) ->
  forall subs reps, exists reps',
    foldM (add_table sheets) (subs, reps) (map (described_table records ciphers) ts) = Ok (subs, reps') /\
    (forall sid repeat_id, repeat_id ∉ dkeys rcs -> gathered reps' sid repeat_id = gathered reps sid repeat_id) /\
    (forall r repeat_id, r ∈ records -> repeat_id ∈ dkeys rcs -> (forall sid, gathered reps sid repeat_id = []) ->
       Forall2 (instance_reads forms r repeat_id) (instances_in r repeat_id) (gathered reps' (sr_id r) repeat_id)).
Proof.
  intros Hids Hty Hn Hrecs Hkeys Hrcs Hts Hsheets Hne. induction Hts as [|[repeat_id cols] t rcs ts [(Htn & Htk & Htc) Hrows] _ IH];
    intros subs reps.
  { exists reps. split_and!; [done|done|]. by intros r x _ ?%elem_of_nil. }
  cbn [fst snd] in *. change (NoDup (repeat_id :: dkeys rcs)) in Hkeys. apply NoDup_cons in Hkeys as [Hfresh Hkeys].
  destruct (Hrcs (repeat_id, cols) ltac:(by left)) as (Hplan & Hnc & Hkept). cbn [fst snd] in *.
  unfold repeat_table_rows in Hrows. destruct (mapR _ records) as [rowss|] eqn:Erows; [|done]. injection Hrows as Hrows.
  apply mapR_nested in Erows. fold (instances_of records repeat_id) in Erows. rewrite Hrows in Erows.
  rewrite <- Htc in Hplan, Hnc, Hkept, Erows.
  destruct (add_repeat_rows records ciphers forms t repeat_id (instances_of records repeat_id) (tb_rows t)) with (subs := subs) (reps := reps)
    as (found & Hfold & Hfound); try done.
  { intros p (x & (r & <- & Hr%list_elem_of_In)%in_map_iff & (row & <- & Hrow%list_elem_of_In)%in_map_iff)%list_elem_of_In%in_concat.
    cbn. destruct (Hrecs r Hr) as [Hdef Hid]. split; [|done]. by apply Hdef. }
  set (reps1 := gather_all reps repeat_id _) in Hfold.
  destruct (IH Hkeys ltac:(intros; apply Hrcs; by right) ltac:(intros; apply Hsheets; by right) ltac:(intros; apply Hne; by right) subs reps1)
    as (reps' & Hrest & Hother & Hall).
  exists reps'. split_and!.
  - cbn [map foldM]. unfold add_table at 1, sheet_for. change (tm_name (described_table records ciphers t)) with (tb_name t).
    rewrite (Hsheets t) by by left. unfold sheet_of.
    destruct (map cl_name (tb_columns t)) eqn:Ec.
    { destruct (tb_columns t) eqn:E; [|done]. rewrite <- Htc in Hne. by destruct (Hne (repeat_id, []) ltac:(by left)). }
    rewrite Hfold. exact Hrest.
  - intros sid x. change (dkeys ((repeat_id, cols) :: rcs)) with (repeat_id :: dkeys rcs). rewrite not_elem_of_cons. intros [Hx Hxs].
    rewrite Hother by done. unfold reps1. rewrite gathered_all, decide_False, app_nil_r by done. done.
  - intros r x Hr Hx Hempty. change (x ∈ repeat_id :: dkeys rcs) in Hx. destruct (decide (x = repeat_id)) as [->|Hxne].
    + rewrite Hother by done. unfold reps1. rewrite gathered_all, decide_True, Hempty by done. cbn [app].
      by apply (instances_of_record (fun r row i => instance_reads forms r repeat_id row i)).
    + apply elem_of_cons in Hx as [|Hx]; [done|]. apply Hall; [done..|]. intros sid. unfold reps1.
      by rewrite gathered_all, decide_False, app_nil_r, Hempty by done.
Qed.

(** Instances read in their order stay in it. *)
Lemma instances_sorted forms r repeat_id rows found :
  Forall2 (instance_reads forms r repeat_id) rows found -> StronglySorted le (map rr_index rows) -> sort_by by_index found = found.
Proof.
  intros Hall Hs. apply sort_by_sorted_id. induction Hall as [|row i rows found (_ & Hi & _) Hall IH]; [constructor|].
  cbn in Hs. inversion Hs as [|? ? Hs' Hle]; subst. constructor; [by apply IH|].
  clear -Hi Hall Hle. induction Hall as [|row' i' rows found (_ & Hi' & _) Hall IH]; [constructor|].
  inversion Hle; subst. constructor; [|by apply IH]. unfold by_index. rewrite Hi, Hi'. apply Z.leb_le. lia.
Qed.

Lemma with_repeats_get reps sid s subs :
  dget subs sid = Some s -> dget (map (with_repeats reps) subs) sid = Some (with_repeats reps (sid, s)).2.
Proof.
  induction subs as [|[k v] subs IH]; [done|]. cbn. destruct (decide (sid = k)) as [<-|]; [by intros [= ->]|done].
Qed.

Lemma sorted_repeats reps sid repeat_id :
  default [] (dget (map (fun rl => (rl.1, sort_by by_index rl.2)) (default [] (dget reps sid))) repeat_id) =
  sort_by by_index (gathered reps sid repeat_id).
Proof.
  unfold gathered. generalize (default [] (dget reps sid)) as d. induction d as [|[k l] d IH]; [done|]. cbn.
  by destruct (decide (repeat_id = k)).
Qed.

End Bundle.

Section RoundTrip.
Context {env : PyEnv} {uni : UnicodeDB} (language : option pystr).

Lemma parent_planned forms : ids_given forms -> table_planned language forms None (pl_parent (build_plan forms language)).
Proof. intros Hids. split; [apply parent_names_distinct|by apply parent_union]. Qed.

Lemma repeat_planned forms rc :
  ids_given forms -> rc ∈ pl_repeats (build_plan forms language) -> table_planned language forms (Some rc.1) rc.2.
Proof. destruct rc. intros Hids Hrc. split; [by eapply repeat_names_distinct|by apply repeat_union]. Qed.

Lemma kept_columns cols key : keeps_key cols key = true -> cols <> [].
Proof. by destruct cols. Qed.

Lemma rows_width {A} (f : A -> column -> res cell) cols l rows :
  Forall2 (fun a row => mapR (f a) cols = Ok row) l rows -> Forall (fun row => length row = length cols) rows.
Proof. induction 1 as [|a row l rows Hrow _ IH]; constructor; [by eapply mapR_length|done]. Qed.

(** Every table of a long export can be written and read. *)
Lemma long_tables_read plan records base tables :
  build_tables plan records Long base = Ok tables -> keeps_keys plan = true -> fields_fit tables ->
  forall t, t ∈ tables -> read_csv (write_csv t) = Some (sheet_of t).
Proof.
  intros Hbuild Hkeys Hfit t Ht. destruct (Hfit t Ht) as [Hnames Hrows].
  destruct (build_long _ _ _ _ Hbuild) as (parent & repeats & -> & (_ & _ & Hpc & Hprows) & Hreps).
  unfold keeps_keys in Hkeys. apply andb_true_iff in Hkeys as [[Hk1 _]%andb_true_iff Hk2].
  apply elem_of_cons in Ht as [->|Ht].
  - apply read_csv_written; [rewrite Hpc; by eapply kept_columns| |done|done]. rewrite Hpc.
    by apply (rows_width (fun r c => if is_value_column c then value_cell c [] (ep_top (sr_projection r)) r else Ok (meta_or_count c r)) _ records).
  - apply list_elem_of_lookup in Ht as [k Hk]. destruct (Forall2_lookup_r _ _ _ _ _ Hreps Hk) as (rc & Hrc & (_ & _ & Htc) & Htr).
    apply list_elem_of_lookup_2 in Hrc. rewrite forallb_forall in Hk2. specialize (Hk2 rc (proj1 (list_elem_of_In _ _) Hrc)).
    apply andb_true_iff in Hk2 as [Hk2 _].
    apply read_csv_written; [rewrite Htc; by eapply kept_columns| |done|done]. rewrite Htc.
    unfold repeat_table_rows in Htr. destruct (mapR _ records) as [rowss|] eqn:E; [|done]. injection Htr as <-.
    apply mapR_nested in E. eapply (rows_width (fun p => _)). exact E.
Qed.

(** Reading back what was written of a long export. *)
Lemma read_long forms records base form_id title ciphers tables :
  ids_given forms -> types_agree forms -> keeps_keys (build_plan forms language) = true ->
  NoDup (map sr_id records) -> (forall r, r ∈ records -> record_defined forms r /\ sr_id r <> []) ->
  build_tables (build_plan forms language) records Long base = Ok tables -> fields_fit tables ->
  exists found,
    read_bundle (build_manifest (build_plan forms language) tables records form_id title language Long ciphers None) (csv_files tables) =
      inl found /\
    dkeys found = map sr_id records /\
    forall r, r ∈ records -> exists s, dget found (sr_id r) = Some s /\ top_reads forms r s /\
      forall repeat_id, repeat_id ∈ dkeys (pl_repeats (build_plan forms language)) ->
        Forall2 (instance_reads forms r repeat_id) (instances_in r repeat_id) (default [] (dget (rs_repeats s) repeat_id)).
Proof.
  intros Hids Hty Hkeys Hn Hrecs Hbuild Hfit. set (plan := build_plan forms language) in *.
  pose proof (long_tables_read _ _ _ _ Hbuild Hkeys Hfit) as Hread.
  destruct (build_long _ _ _ _ Hbuild) as (parent & repeats & -> & (Hpn & Hpk & Hpc & Hprows) & Hreps).
  unfold keeps_keys in Hkeys. apply andb_true_iff in Hkeys as [[Hk1 Hk2]%andb_true_iff Hk3]. rewrite forallb_forall in Hk3.
  assert (NoDup (map tb_name (parent :: repeats))) as Hnames.
  { eapply table_names_distinct; [exact Hpn|apply (plan_repeats_distinct language forms)|].
    eapply Forall2_impl; [exact Hreps|]. by intros rc t [? _]. }
  pose proof (read_sheets_written _ Hnames Hread) as Hsheets. set (sheets := map _ (parent :: repeats)) in Hsheets.
  assert (forall t, t ∈ parent :: repeats -> dget sheets (tb_name t) = Some (sheet_of t)) as Hsheet.
  { intros t Ht. apply dget_elem_NoDup; [|by apply (list_elem_of_fmap_2 (fun t => (tb_name t, sheet_of t)))].
    unfold dkeys, sheets. rewrite <- (list_fmap_compose (fun t => (tb_name t, sheet_of t)) fst). exact Hnames. }
  destruct (add_parent_rows language records ciphers forms parent records (tb_rows parent)) with (subs := @nil (pystr * read_submission))
    (reps := @nil (pystr * odict (list read_instance))) as (ss & Hss & Htops); try done.
  { rewrite Hpc. by apply parent_planned. } { by rewrite Hpc. } { by rewrite Hpc. }
  { intros r Hr. destruct (Hrecs r Hr) as [[Hdef _] Hne]. done. } { by rewrite Hpc. }
  destruct (add_repeat_tables language records ciphers forms sheets base (pl_repeats plan) repeats) with
    (subs := set_all [] (zip (map sr_id records) ss)) (reps := @nil (pystr * odict (list read_instance))) as (reps & Hfold & _ & Hall);
    try done.
  { apply (plan_repeats_distinct language forms). }
  { intros rc Hrc. split_and!; [by apply repeat_planned|destruct rc; intros c; by eapply repeat_columns_sources|].
    apply Hk3. by apply list_elem_of_In. }
  { intros t Ht. apply Hsheet. by right. }
  { intros rc Hrc. specialize (Hk3 rc (proj1 (list_elem_of_In _ _) Hrc)). apply andb_true_iff in Hk3 as [Hk3 _]. by eapply kept_columns. }
  assert (set_all [] (zip (map sr_id records) ss) = zip (map sr_id records) ss) as Hset.
  { apply set_all_fresh. cbn [fmap list_fmap app]. change (NoDup ((zip (map sr_id records) ss).*1)).
    rewrite fst_zip; [done|]. rewrite length_map. apply Forall2_length in Htops. lia. }
  exists (map (with_repeats reps) (zip (map sr_id records) ss)). split_and!.
  - unfold read_bundle, build_manifest. cbn [mf_shape mf_tables]. rewrite Hsheets. cbn [map foldM].
    unfold add_table at 1, sheet_for. change (tm_name (describe_table records ciphers None parent)) with (tb_name parent).
    rewrite (Hsheet parent) by by left. unfold sheet_of at 1.
    destruct (map cl_name (tb_columns parent)) as [|name names] eqn:Ec.
    { rewrite Hpc in Ec. apply kept_columns in Hk1. by destruct (pl_parent plan). }
    change (describe_table records ciphers None) with (described_table records ciphers) in *.
    rewrite Hss, Hfold, Hset. done.
  - unfold dkeys. rewrite <- list_fmap_compose. change (fst ∘ with_repeats reps) with (@fst pystr read_submission).
    rewrite fst_zip; [done|]. rewrite length_map. apply Forall2_length in Htops. lia.
  - intros r Hr. apply list_elem_of_lookup in Hr as Hk. destruct Hk as [k Hk].
    destruct (Forall2_lookup_l _ _ _ _ _ Htops Hk) as (s & Hs & Htop & Hno).
    assert (dget (zip (map sr_id records) ss) (sr_id r) = Some s) as Hget.
    { apply dget_elem_NoDup.
      - unfold dkeys. rewrite fst_zip; [done|]. rewrite length_map. apply Forall2_length in Htops. lia.
      - apply elem_of_lookup_zip_with. exists k, (sr_id r), s. by rewrite lookup_map, Hk. }
    eexists. split; [by apply with_repeats_get|]. destruct Htop as (Hid & Hver & Hans). cbn [with_repeats fst snd]. split.
    + split_and!; cbn [rs_id rs_version rs_top]; done.
    + intros repeat_id Hrep. cbn [rs_repeats]. rewrite sorted_repeats.
      pose proof (Hall r repeat_id Hr Hrep (fun _ => eq_refl)) as H.
      rewrite (instances_sorted _ _ _ _ _ H); [done|]. apply (Hrecs r Hr).
Qed.

(** ** An export there is *)

Lemma mapR_exists {A B} (f : A -> res B) l : (forall x, x ∈ l -> exists y, f x = Ok y) -> exists ys, mapR f l = Ok ys.
Proof.
  induction l as [|x l IH]; intros H; [by exists []|]. destruct (H x ltac:(by left)) as [y Hy].
  destruct (IH ltac:(intros; apply H; by right)) as [ys Hys]. exists (y :: ys). cbn. by rewrite Hy, Hys.
Qed.

Lemma value_cell_exists forms repeat cols r prefix cells c :
  ids_given forms -> types_agree forms -> table_planned language forms repeat cols -> answers_defined forms repeat r prefix cells ->
  c ∈ cols -> is_value_column c = true -> exists cl, value_cell c prefix cells r = Ok cl.
Proof.
  intros Hids Hty Hplan Hdef Hc Hv. destruct (cl_source c) eqn:Hs; try (unfold is_value_column in Hv; by rewrite Hs in Hv).
  - destruct (column_of_question language _ _ _ _ Hids Hty Hplan Hc Hs) as (f & i & cf & Hf & Hi & Hcf & Hr & Hn & Hfield & Hshape).
    destruct (shape_reading forms repeat c r prefix cells CEmpty f i cf Hdef Hf Hi Hcf Hr Hn (column_field _ _ Hs Hfield) Hshape) as [Hpart _].
    assert (cl_type c = Some (cf_data_type cf)) as Ht.
    { unfold answer_shape in Hshape. destruct (dget COMPONENTS _).
      - apply list_elem_of_In, in_map_iff in Hshape as (p & Hp & _). by injection Hp.
      - apply list_elem_of_singleton in Hshape. by injection Hshape. }
    by apply (cell_exists r prefix cells c i (cf_data_type cf)).
  - unfold value_cell. rewrite Hs. destruct (bool_decide _); [by eexists|]. destruct (dget cells _); by eexists.
Qed.

Lemma long_tables_exist forms records base :
  ids_given forms -> types_agree forms -> (forall r, r ∈ records -> record_defined forms r) ->
  exists tables, build_tables (build_plan forms language) records Long base = Ok tables.
Proof.
  intros Hids Hty Hrecs. set (plan := build_plan forms language). unfold build_tables, parent_table.
  destruct (mapR_exists (parent_row (pl_parent plan)) records) as [rows ->].
  { intros r Hr. apply mapR_exists. intros c Hc. destruct (is_value_column c) eqn:Hv; [|by eexists].
    eapply value_cell_exists; try done; [by apply parent_planned|]. by apply (Hrecs r Hr). }
  cbn [mbind res_bind]. destruct (mapR_exists (repeat_table records base) (pl_repeats plan)) as [ts ->]; [|by eexists].
  intros rc Hrc. unfold repeat_table, repeat_table_rows.
  destruct (mapR_exists (fun r => mapR (repeat_table_row rc.2 rc.1 r) (instances_in r rc.1)) records) as [rowss ->]; [|by eexists].
  intros r Hr. apply mapR_exists. intros row Hrow. apply mapR_exists. intros c Hc.
  destruct (cl_source c) eqn:Hs; [by eexists|..]; try (eapply value_cell_exists;
    [exact Hids|exact Hty|by apply repeat_planned|by apply (Hrecs r Hr)|done|unfold is_value_column; by rewrite Hs]).
  destruct rc as [rid cols]. by destruct (repeat_columns_sources _ _ _ _ c Hrc Hc).
Qed.

End RoundTrip.

Section Marks.
Context {env : PyEnv} {uni : UnicodeDB}.

(** ** What the manifest says of a cell *)

(** The path of a column's answer names the column's question. *)
Lemma field_of_top i : 93%N ∉ i -> field_of (path_under [] i) = i.
Proof. apply field_part_bare. Qed.

Lemma field_of_instance repeat_id instance_id i :
  93%N ∉ repeat_id -> 93%N ∉ instance_id -> field_of (path_under (instance_prefix repeat_id instance_id) i) = i.
Proof.
  intros Hr Hi. unfold path_under. assert (instance_prefix repeat_id instance_id <> []) as Hne.
  { unfold instance_prefix. intros H%app_eq_nil. destruct H as [_ H]. done. }
  destruct (instance_prefix repeat_id instance_id) as [|p0 p] eqn:E; [done|]. rewrite <- E. rewrite <- (field_part_inst repeat_id instance_id i Hr Hi) at 2.
  unfold field_of, instance_prefix, inst_path. rewrite <- !app_assoc. done.
Qed.

(** Identifiers as the form compiler lets them through: given, and without
    brackets. *)
Definition plain_ids (forms : list cform) : Prop := forall f i cf, f ∈ forms -> dget (f_fields f) i = Some cf ->
  i <> [] /\ 93%N ∉ i /\ forall r, cf_repeat cf = Some r -> 93%N ∉ r.

Lemma plain_given forms : plain_ids forms -> ids_given forms.
Proof. intros H f Hf [cf Hcf]%dget_elem. by destruct (H f [] cf Hf Hcf). Qed.

(** Where the answer of a cell comes from: a record's row, or an instance's. *)
Definition answer_row (records : list submission_record) (r : submission_record) (prefix : pystr) (cells : odict value) : Prop :=
  r ∈ records /\
  ((prefix = [] /\ cells = ep_top (sr_projection r)) \/
   exists repeat_id row, row ∈ instances_in r repeat_id /\ 93%N ∉ repeat_id /\
     prefix = instance_prefix repeat_id (rr_instance row) /\ cells = rr_cells row).

(** A record with nothing unreadable in it. *)
Definition all_readable (r : submission_record) : submission_record :=
  let p := sr_projection r in
  SubmissionRecord (sr_id r) (sr_form_key r) (sr_form_version r) (sr_status r) (sr_device r) (sr_created_by r) (sr_started_at r)
    (sr_finalized_at r) (sr_received_at r)
    (ExportProjection (ep_top p) (ep_repeats p) [] (ep_relevance_uncertain p) (ep_unmapped p)) (sr_labels r).

Context (language : option pystr).

Lemma value_column_of_question forms repeat cols c :
  ids_given forms -> map (with_name []) (List.filter is_value_column cols) = union_columns language forms repeat ->
  c ∈ cols -> is_value_column c = true ->
  exists f i cf, f ∈ forms /\ dget (f_fields f) i = Some cf /\ cf_repeat cf = repeat /\ cl_field c = Some i.
Proof.
  intros Hids Hcols Hc Hv. assert (with_name [] c ∈ union_columns language forms repeat) as Hin.
  { rewrite <- Hcols. apply (list_elem_of_fmap_2 (with_name [])). by apply elem_filter_bool. }
  unfold union_columns in Hin. apply list_elem_of_In, in_map_iff in Hin as (c0 & Hc0 & Hin%list_elem_of_In).
  apply elem_filter_bool in Hin as [Hin%firsts_incl Hrep%bool_decide_eq_true].
  rewrite questions_blocks in Hin. apply list_elem_of_In, in_concat in Hin.
  destruct Hin as (b & (f & i & Hf & Hi & ->)%list_elem_of_In%blocks_elem & Hin%list_elem_of_In).
  destruct (question_column _ _ _ _ Hin) as (cf & Hcf & Hfield & _ & Hr & _).
  exists f, i, cf. split_and!; [done..|congruence|]. rewrite <- Hfield. by destruct c, c0; injection Hc0.
Qed.

(** A value cell of some answer, in a column of some question. *)
Definition cell_of_answer (forms : list cform) (records : list submission_record) (c : column) (cl : cell) : Prop :=
  exists r prefix cells f i cf, answer_row records r prefix cells /\ value_cell c prefix cells r = Ok cl /\
    f ∈ forms /\ dget (f_fields f) i = Some cf /\ cl_field c = Some i.

Lemma parent_cell forms records r row k c cl :
  ids_given forms -> r ∈ records -> parent_row (pl_parent (build_plan forms language)) r = Ok row ->
  pl_parent (build_plan forms language) !! k = Some c -> row !! k = Some cl -> is_value_column c = true -> cell_of_answer forms records c cl.
Proof.
  intros Hids Hr Hrow%mapR_Ok Hc Hcl Hv. pose proof (Forall2_lookup_lr _ _ _ _ _ _ Hrow Hc Hcl) as H. cbn in H. rewrite Hv in H.
  destruct (value_column_of_question forms None _ c Hids (parent_union language forms Hids) ltac:(by eapply list_elem_of_lookup_2) Hv)
    as (f & i & cf & Hf & Hcf & _ & Hi).
  exists r, [], (ep_top (sr_projection r)), f, i, cf. split_and!; try done. split; [done|by left].
Qed.

Lemma instance_cell forms records rid cols r inst c c' cl :
  plain_ids forms -> (rid, cols) ∈ pl_repeats (build_plan forms language) -> r ∈ records -> inst ∈ instances_in r rid ->
  c ∈ cols -> is_value_column c = true -> cl_field c' = cl_field c ->
  value_cell c' (instance_prefix rid (rr_instance inst)) (rr_cells inst) r = Ok cl -> cell_of_answer forms records c' cl.
Proof.
  intros Hplain Hrc Hr Hinst Hc Hv Hfield Hcell.
  destruct (value_column_of_question forms (Some rid) cols c (plain_given _ Hplain)
    (repeat_union language forms _ _ (plain_given _ Hplain) Hrc) Hc Hv) as (f & i & cf & Hf & Hcf & Hrep & Hi).
  exists r, (instance_prefix rid (rr_instance inst)), (rr_cells inst), f, i, cf. split_and!; try done; [|congruence].
  split; [done|right]. exists rid, inst. split_and!; try done. by destruct (Hplain f i cf Hf Hcf) as (_ & _ & H); apply H.
Qed.

(** The flattened columns are those of repeats, renamed and placed. *)
Lemma flatten_from (plan : column_plan) records slot :
  slot ∈ flatten records plan -> exists cols c, (slot.1.1, cols) ∈ pl_repeats plan /\ c ∈ cols /\ is_meta c = false /\
    cl_source slot.2 = cl_source c /\ cl_field slot.2 = cl_field c.
Proof.
  unfold flatten. set (Q := fun slot : pystr * nat * column => exists cols c, (slot.1.1, cols) ∈ pl_repeats plan /\ c ∈ cols /\ is_meta c = false /\
    cl_source slot.2 = cl_source c /\ cl_field slot.2 = cl_field c).
  set (I := fun acc : list (pystr * nat * column) * list pystr => forall s, s ∈ acc.1 -> Q s). intros Hin. revert slot Hin.
  change (I (fold_left (fun acc rc => fold_left (fun acc position => fold_left (flatten_step rc.1 position) rc.2 acc)
     (seq 1 (widest records rc.1)) acc) (pl_repeats plan) ([], map cl_name (pl_parent plan)))).
  apply (fold_left_keeps I (fun rc => rc ∈ pl_repeats plan)); [done| |by intros s ?%elem_of_nil].
  intros acc rc Hacc Hrc. apply (fold_left_keeps I (fun _ => True)); [done| |done]. intros acc1 position Hacc1 _.
  apply (fold_left_keeps I (fun c => c ∈ rc.2)); [done| |done]. intros acc2 c Hacc2 Hc. unfold flatten_step.
  destruct (is_meta c) eqn:Em; [done|]. unfold claim. intros s. cbn [fst]. rewrite elem_of_app, list_elem_of_singleton.
  intros [Hs| ->]; [by apply Hacc2|]. exists rc.2, c. cbn. by destruct rc.
Qed.

Lemma wide_cell_from forms records r slot cl :
  plain_ids forms -> r ∈ records -> slot ∈ flatten records (build_plan forms language) -> wide_cell r slot = Ok cl ->
  cl = CEmpty \/ cell_of_answer forms records slot.2 cl.
Proof.
  intros Hplain Hr Hslot. destruct (flatten_from _ _ _ Hslot) as (cols & c & Hrc & Hc & Hm & Hs & Hf).
  destruct slot as [[rid index] c']. cbn in *. destruct (instances_in r rid !! index) as [inst|] eqn:E; [|intros [= <-]; by left].
  intros Hcell. right. eapply instance_cell; try done; [by eapply list_elem_of_lookup_2|].
  apply bool_decide_eq_false in Hm. pose proof (repeat_columns_sources _ _ _ _ _ Hrc Hc). unfold is_value_column. by destruct (cl_source c).
Qed.

Lemma build_wide plan records base tables :
  build_tables plan records Wide base = Ok tables ->
  exists rows, tables = [Table base Submissions (pl_parent plan ++ map snd (flatten records plan)) rows] /\
    Forall2 (fun r row => wide_row plan (flatten records plan) r = Ok row) records rows.
Proof.
  unfold build_tables, wide_table. destruct (mapR (wide_row _ _) records) as [rows|] eqn:E; [|done]. intros [= <-].
  exists rows. split; [done|by apply mapR_Ok].
Qed.

(** Every cell of an answer column, whatever the shape. *)
Lemma cells_are_answers forms records sh base tables t j row k c cl :
  plain_ids forms -> build_tables (build_plan forms language) records sh base = Ok tables -> t ∈ tables ->
  tb_rows t !! j = Some row -> tb_columns t !! k = Some c -> row !! k = Some cl -> is_value_column c = true ->
  (sh = Wide /\ cl = CEmpty) \/ cell_of_answer forms records c cl.
Proof.
  intros Hplain Hbuild Ht Hrow Hc Hcl Hv. pose proof (plain_given _ Hplain) as Hids. destruct sh.
  - destruct (build_long _ _ _ _ Hbuild) as (parent & repeats & -> & (_ & _ & Hpc & Hprows) & Hreps).
    apply elem_of_cons in Ht as [->|Ht].
    + destruct (Forall2_lookup_r _ _ _ _ _ Hprows Hrow) as (r & Hr & Hprow). rewrite Hpc in Hc. right.
      eapply parent_cell; [done|by eapply list_elem_of_lookup_2|done..].
    + apply list_elem_of_lookup in Ht as [n Hn]. destruct (Forall2_lookup_r _ _ _ _ _ Hreps Hn) as ([rid cols] & Hrc & (_ & _ & Htc) & Htr).
      cbn [fst snd] in *. apply list_elem_of_lookup_2 in Hrc. rewrite Htc in Hc. unfold repeat_table_rows in Htr.
      destruct (mapR _ records) as [rowss|] eqn:E; [|done]. injection Htr as Htr. apply mapR_nested in E. rewrite Htr in E.
      destruct (Forall2_lookup_r _ _ _ _ _ E Hrow) as ([r inst] & Hp & Hinst). apply list_elem_of_lookup_2 in Hp.
      apply list_elem_of_In, in_concat in Hp. destruct Hp as (x & (r' & <- & Hr%list_elem_of_In)%in_map_iff & (i' & [= -> ->] & Hi%list_elem_of_In)%in_map_iff).
      apply mapR_Ok in Hinst. pose proof (Forall2_lookup_lr _ _ _ _ _ _ Hinst Hc Hcl) as Hcell. cbn in Hcell. right.
      eapply instance_cell; try done; [by eapply list_elem_of_lookup_2|]. unfold is_value_column in Hv. by destruct (cl_source c).
  - destruct (build_wide _ _ _ _ Hbuild) as (rows & -> & E). clear Hbuild.
    apply list_elem_of_singleton in Ht as ->. cbn [tb_rows tb_columns] in Hrow, Hc.
    set (plan := build_plan forms language) in *.
    destruct (Forall2_lookup_r _ _ _ _ _ E Hrow) as (r & Hr & Hwide). apply list_elem_of_lookup_2 in Hr. unfold wide_row in Hwide.
    destruct (parent_row (pl_parent plan) r) as [prow|] eqn:Ep; [|done]. cbn [mbind res_bind] in Hwide.
    destruct (mapR (wide_cell r) _) as [slots|] eqn:Es; [|done]. injection Hwide as <-.
    assert (length prow = length (pl_parent plan)) as Hl by by eapply mapR_length.
    destruct (decide (k < length (pl_parent plan))%nat) as [Hk|Hk].
    + rewrite lookup_app_l in Hc by done. rewrite lookup_app_l in Hcl by by rewrite Hl. right. by eapply parent_cell.
    + rewrite lookup_app_r in Hc by lia. rewrite lookup_app_r, Hl in Hcl by lia. rewrite lookup_map in Hc. apply mapR_Ok in Es.
      destruct (flatten records plan !! (k - length (pl_parent plan))%nat) as [slot|] eqn:Eslot; [|done]. injection Hc as <-.
      pose proof (Forall2_lookup_lr _ _ _ _ _ _ Es Eslot Hcl) as Hcell. cbn in Hcell.
      destruct (wide_cell_from forms records r slot cl) as [?|?]; [done|done|by eapply list_elem_of_lookup_2|done|by left|by right].
Qed.

(** A column with an unreadable answer under it is marked. *)
Lemma unreadable_marked records ciphers c i r path stat :
  r ∈ records -> path ∈ ep_unreadable (sr_projection r) -> field_of path = i -> cl_field c = Some i -> is_value_column c = true ->
  cm_unreadable (describe records ciphers c stat) <> None.
Proof.
  intros Hr Hpath Hfield Hi Hv. unfold describe, value_field. rewrite Hv, Hi. cbn [cm_unreadable].
  rewrite bool_decide_eq_true_2; [by destruct (dhas _ _)|]. unfold unreadable_in. apply list_elem_of_In, in_concat.
  exists (map field_of (ep_unreadable (sr_projection r))). split.
  - apply (in_map (fun r => map field_of (ep_unreadable (sr_projection r)))). by apply list_elem_of_In.
  - rewrite <- Hfield. apply in_map. by apply list_elem_of_In.
Qed.

(** The path an answer of a column has names the column's question. *)
Lemma answer_row_field forms records r prefix cells f i cf :
  plain_ids forms -> f ∈ forms -> dget (f_fields f) i = Some cf ->
  (forall r rid row, r ∈ records -> row ∈ instances_in r rid -> 93%N ∉ rr_instance row) ->
  answer_row records r prefix cells -> field_of (path_under prefix i) = i.
Proof.
  intros Hplain Hf Hcf Hinst [Hr [[-> _]|(rid & row & Hrow & Hrid & -> & _)]]; destruct (Hplain f i cf Hf Hcf) as (_ & Hi & _).
  - by apply field_of_top.
  - apply field_of_instance; [done|]. by eapply Hinst.
Qed.

(** ** The columns of a plan *)

Lemma own_names forms repeat c :
  entered repeat (built language forms) -> c ∈ columns_in repeat (built language forms) ->
  cl_source c = Field -> cl_component c = None -> cl_field c = Some (cl_name c).
Proof. intros Hr Hc Hs Hn. eapply own_column_named; [done..|]. by apply bool_decide_eq_true. Qed.

Lemma versioned_fields b c :
  cl_source (versioned b c) = cl_source c /\ cl_component (versioned b c) = cl_component c /\ cl_field (versioned b c) = cl_field c.
Proof. unfold versioned. destruct (cl_source c) eqn:E; cbn; rewrite ?E; done. Qed.

Lemma table_own_names forms repeat named names c :
  entered repeat (built language forms) ->
  c ∈ zip_with (fun w name => meta_column repeat name w) named names ++
      map (versioned (built language forms)) (columns_in repeat (built language forms)) ->
  cl_source c = Field -> cl_component c = None -> cl_field c = Some (cl_name c).
Proof.
  intros Hr [Hc|Hc]%elem_of_app Hs Hn; [apply meta_columns_source in Hc; congruence|].
  apply list_elem_of_In, in_map_iff in Hc as (c0 & <- & Hc0%list_elem_of_In).
  destruct (versioned_fields (built language forms) c0) as (H1 & H2 & H3). rewrite H1 in Hs. rewrite H2 in Hn. rewrite H3, versioned_name.
  by eapply own_names.
Qed.

End Marks.
