(* ===== verification/StatisticalFacts.v ===== *)
(** * Names and types in a .dta or .sav: what they keep

    Every name is legal and told from the others without its case, and every
    cell of a planned column goes into the type its plan chose. *)

From S2P Require Import Prelude PyStr PyNum PyDate Value PyJson TextFormats Expr Expression Datasets Compile Projection.
From S2P Require Import DatasetKeys Surface SurfaceShape Printer PublishGate Server Cells ExportPlan PlanFacts.
From S2P Require Import Statistical CellFacts ReadbackFacts ExportFacts.

(** What [str] does to the names made here: digits are alphanumeric and have
    no case, the letter v is alphabetic, and a serial after an underscore has
    no part in the case of what precedes it. *)
Class CharLaws {env : PyEnv} {chars : CharClasses} := {
  alpha_v : is_alpha 118%N = true;
  alnum_v : is_alnum 118%N = true;
  alnum_digit c : (48 <= c < 58)%N -> is_alnum c = true;
  lower_serial s n : str_lower (s ++ lit "_" ++ str_nat n) = str_lower s ++ lit "_" ++ str_nat n
}.

(** ** A free serial, where the first name may repeat another *)

Lemma first_free_is_free_after (name : nat -> pystr) (taken : list pystr) :
  (forall j k, (2 <= j)%nat -> (2 <= k)%nat -> name j = name k -> j = k) ->
  let n := first_free (fun n => bool_decide (name n ∈ taken)) (S (length taken)) 1 in
  name n ∉ taken /\ (1 <= n <= 2 + length taken)%nat.
Proof.
  intros Hinj n. destruct (first_free_spec (fun n => bool_decide (name n ∈ taken)) (S (length taken)) 1) as (Hn & Hall & Hend).
  fold n in Hn, Hall, Hend. split; [|lia]. destruct Hend as [Hend|Hend]; [by apply bool_decide_eq_false in Hend|]. intros Hin.
  assert (length (map name (seq 2 (S (length taken)))) <= length taken)%nat as Hle; [|rewrite length_map, length_seq in Hle; lia].
  apply submseteq_length, NoDup_submseteq.
  - apply NoDup_ListNoDup, Finite.Injective_map_NoDup_in; [|apply seq_NoDup]. intros j k Hj%in_seq Hk%in_seq. apply Hinj; lia.
  - intros x Hx%list_elem_of_In%in_map_iff. destruct Hx as (k & <- & Hk%in_seq).
    destruct (decide (k = n)) as [->|]; [done|]. specialize (Hall k ltac:(lia)). by apply bool_decide_eq_true in Hall.
Qed.

(** The serial after the last underscore. *)
Lemma serial_unique a b m n : a ++ lit "_" ++ str_nat m = b ++ lit "_" ++ str_nat n -> m = n.
Proof.
  intros H. apply str_nat_inj. assert (forall k, 95%N ∉ str_nat k) as Hno.
  { intros k Hin. destruct (str_N_spec (N.of_nat k)) as (_ & Hd & _). rewrite Forall_forall in Hd. specialize (Hd _ Hin). lia. }
  change (lit "_") with [95%N] in H. revert H. generalize (Hno m) (Hno n). generalize (str_nat m) as s, (str_nat n) as t.
  clear. intros s t Hs Ht H. apply (f_equal (@reverse N)) in H. rewrite !reverse_app, !reverse_singleton, <- !app_assoc in H.
  assert (95%N ∉ reverse s /\ 95%N ∉ reverse t) as [Hs' Ht'] by by rewrite !elem_of_reverse.
  enough (reverse s = reverse t) as E by (apply (f_equal (@reverse N)) in E; by rewrite !reverse_involutive in E).
  clear Hs Ht. revert H Hs' Ht'. generalize (reverse s) (reverse t) (reverse a) (reverse b). clear.
  induction l as [|x l IH]; intros [|y l'] ra rb H Hs Ht; [done|..].
  - injection H as H _. destruct Ht. rewrite H. by left.
  - injection H as H _. destruct Hs. rewrite H. by left.
  - injection H as -> H. apply not_elem_of_cons in Hs as [_ Hs], Ht as [_ Ht]. f_equal. by apply (IH _ _ _ H).
Qed.

Section Names.
Context {env : PyEnv} {chars : CharClasses} {laws : CharLaws}.

(** Legal in Stata: at most 32 characters, a letter first. *)
Definition legal_name (name : pystr) : Prop :=
  (length name <= NAME_LIMIT)%nat /\
  Forall (fun c => is_alnum c = true \/ c = 95%N) name /\
  exists c rest, name = c :: rest /\ is_alpha c = true.

Lemma safe_name_legal wanted :
  Forall (fun c => is_alnum c = true \/ c = 95%N) (safe_name wanted) /\
  exists c rest, safe_name wanted = c :: rest /\ is_alpha c = true.
Proof.
  unfold safe_name. set (safe := map _ wanted).
  assert (Forall (fun c => is_alnum c = true \/ c = 95%N) safe) as Hs.
  { apply Forall_forall. intros c (c0 & <- & _)%list_elem_of_In%in_map_iff. destruct (is_alnum c0) eqn:E; [by left|by right]. }
  destruct safe as [|c rest]; [split; [|exists 118%N, [95%N]; split; [done|exact alpha_v]]|].
  - constructor; [left; exact alnum_v|]. constructor; [by right|constructor].
  - destruct (is_alpha c) eqn:E; [split; [done|by exists c, rest]|].
    split; [|exists 118%N, (95%N :: c :: rest); split; [done|exact alpha_v]].
    constructor; [left; exact alnum_v|]. constructor; [by right|done].
Qed.

Lemma slice_front s n : slice s 0 (Some (Z.of_nat n)) = take n s.
Proof.
  unfold slice, clamp_index. rewrite (proj2 (Z.ltb_ge 0 0)), (proj2 (Z.ltb_ge (Z.of_nat n) 0)) by lia.
  replace (Z.to_nat (Z.min 0 (Z.of_nat (length s)))) with 0%nat by lia. rewrite drop_0.
  replace (Z.to_nat _) with (Nat.min n (length s)) by lia. destruct (Nat.le_ge_cases n (length s)).
  - by rewrite Nat.min_l.
  - rewrite Nat.min_r, !take_ge by lia. done.
Qed.

Definition serial_fits (n : nat) : Prop := (length (str_nat n) <= 30)%nat.

Lemma short_name_serial safe n :
  (2 <= n)%nat -> serial_fits n ->
  short_name safe n = take (31 - length (str_nat n)) safe ++ lit "_" ++ str_nat n.
Proof.
  intros Hn Hf. unfold serial_fits in Hf. destruct n as [|[|n]]; [lia..|]. unfold short_name, NAME_LIMIT. rewrite length_app. cbn [length].
  replace (Z.of_nat 32 - _) with (Z.of_nat (31 - length (str_nat (S (S n)))) : Z) by (change (length (lit "_")) with 1%nat; lia).
  by rewrite slice_front.
Qed.

Lemma short_name_legal wanted n : serial_fits n -> legal_name (short_name (safe_name wanted) n).
Proof.
  destruct (safe_name_legal wanted) as [Hs (c & rest & Hc & Ha)]. intros Hf. unfold serial_fits in Hf.
  destruct (decide (2 <= n)%nat) as [Hn|Hn].
  - rewrite short_name_serial by done. destruct (str_N_spec (N.of_nat n)) as (_ & Hd & Hne). split_and!.
    + rewrite !length_app, length_take. change (length (lit "_")) with 1%nat. unfold NAME_LIMIT. lia.
    + apply Forall_app. split; [by apply Forall_take|]. constructor; [by right|]. eapply Forall_impl; [exact Hd|].
      intros d Hd'. left. by apply alnum_digit.
    + rewrite Hc. destruct (31 - length (str_nat n))%nat eqn:E; [lia|]. cbn. by eexists _, _.
  - assert (short_name (safe_name wanted) n = take NAME_LIMIT (safe_name wanted)) as -> by (by destruct n as [|[|n]]; try lia).
    split_and!; [rewrite length_take; lia|by apply Forall_take|]. rewrite Hc. cbn. by eexists _, _.
Qed.

Lemma serial_fits_below n : (N.of_nat n < 10 ^ 30)%N -> serial_fits n.
Proof. intros Hn. unfold serial_fits. by apply (str_N_length _ 30); [|lia]. Qed.

Lemma claim_short_ok taken wanted :
  (N.of_nat (2 + length taken) < 10 ^ 30)%N ->
  legal_name (claim_short taken wanted).1 /\ str_lower (claim_short taken wanted).1 ∉ taken /\
  (claim_short taken wanted).2 = str_lower (claim_short taken wanted).1 :: taken.
Proof.
  intros Hlen. unfold claim_short, free_short_name. cbn [fst snd]. set (safe := safe_name wanted).
  (* serials within the fuel fit; beyond it the names are not looked at *)
  set (name := fun n => if (n <=? 2 + length taken)%nat then str_lower (short_name safe n) else str_lower safe ++ lit "_" ++ str_nat n).
  assert (forall fuel serial, (serial + fuel <= 2 + length taken)%nat ->
    first_free (fun n => bool_decide (str_lower (short_name safe n) ∈ taken)) fuel serial =
    first_free (fun n => bool_decide (name n ∈ taken)) fuel serial) as Hsame.
  { induction fuel as [|fuel IH]; intros serial Hs; [done|]. cbn [first_free].
    assert (name serial = str_lower (short_name safe serial)) as ->; [|by rewrite IH by lia].
    unfold name. by rewrite (proj2 (Nat.leb_le serial (2 + length taken))) by lia. }
  rewrite Hsame by lia. destruct (first_free_is_free_after name taken) as [Hfree Hn].
  - intros j k Hj Hk H. assert (forall n, (2 <= n)%nat -> exists s, name n = s ++ lit "_" ++ str_nat n) as Hshape.
    { intros n Hn. unfold name. destruct (Nat.leb_spec n (2 + length taken)); [|by eexists].
      rewrite short_name_serial by (try apply serial_fits_below; lia). rewrite lower_serial. by eexists. }
    destruct (Hshape j Hj) as [s Hs], (Hshape k Hk) as [t Ht]. rewrite Hs, Ht in H. by apply serial_unique in H.
  - set (n := first_free _ _ _) in *. unfold name in Hfree. rewrite (proj2 (Nat.leb_le n (2 + length taken))) in Hfree by lia.
    split_and!; [apply short_name_legal, serial_fits_below; lia|done|done].
Qed.

Lemma plan_from_names rows columns : forall index taken,
  (N.of_nat (2 + length taken + length columns) < 10 ^ 30)%N ->
  let names := map st_name (plan_from rows index taken columns) in
  Forall legal_name names /\ NoDup (map str_lower names) /\ (forall x, x ∈ map str_lower names -> x ∉ taken).
Proof.
  induction columns as [|c columns IH]; intros index taken Hlen; cbn [plan_from map].
  { split_and!; [constructor|constructor|by intros x ?%elem_of_nil]. }
  destruct (claim_short_ok taken (cl_name c)) as (Hlegal & Hfresh & Htaken); [cbn in Hlen; lia|].
  destruct (claim_short taken (cl_name c)) as [name taken'] eqn:E. cbn [fst snd] in *. subst taken'.
  destruct (IH (S index) (str_lower name :: taken)) as (H1 & H2 & H3); [cbn in Hlen |- *; lia|].
  cbn [map st_name plan_column] in *. split_and!.
  - by constructor.
  - constructor; [|done]. intros Hin. apply (H3 _ Hin). by left.
  - intros x [->|Hx]%elem_of_cons; [done|]. intros Hin. apply (H3 _ Hx). by right.
Qed.

Lemma plan_from_length rows columns : forall index taken, length (plan_from rows index taken columns) = length columns.
Proof. induction columns as [|c columns IH]; intros index taken; [done|]. cbn. destruct (claim_short taken (cl_name c)). cbn. by rewrite IH. Qed.

(** The names do not depend on the rows. *)
Lemma plan_from_rows rows rows' columns : forall index taken,
  map st_name (plan_from rows index taken columns) = map st_name (plan_from rows' index taken columns).
Proof.
  induction columns as [|c columns IH]; intros index taken; [done|]. cbn. destruct (claim_short taken (cl_name c)). cbn. by rewrite (IH _ _).
Qed.

End Names.

(** ** Every cell goes into its column's type *)

Section Types.
Context {env : PyEnv} {uni : UnicodeDB}.

(** What a numeric column may hold. *)
Definition numeric_cell (c : cell) : Prop := (forall s, c = CText s -> s = ENCRYPTED).

Lemma finite_cell_numeric f : numeric_cell (finite_cell f).
Proof. unfold numeric_cell, finite_cell. by destruct (_ || _). Qed.

Lemma fmap_numeric {A} (g : A -> cell) (r : res A) c : g <$> r = Ok c -> (forall a, numeric_cell (g a)) -> numeric_cell c.
Proof. destruct r; [|done]. intros [= <-] H. apply H. Qed.

Lemma component_numeric v part c :
  part ∈ NUMERIC_COMPONENTS -> component_cell v part = Ok c -> numeric_cell c.
Proof.
  intros Hpart. unfold component_cell. destruct v as [| | | | | |d]; try (by intros [= <-]).
  assert (forall w, (if str_eqb part "size" then CInt <$> py_int w
     else if bool_decide (part ∈ NUMERIC_COMPONENTS) then finite_cell <$> float_of_value w else Ok (text_cell (py_str w))) = Ok c ->
     numeric_cell c) as H.
  { intros w. rewrite bool_decide_eq_true_2 by done. destruct (str_eqb part "size"); intros Hc;
      eapply fmap_numeric; [exact Hc|done|exact Hc|intros; apply finite_cell_numeric]. }
  destruct (vget d part); [by intros [= <-]|..]; apply H.
Qed.

Lemma whole_numeric v dt c : dt ∈ NUMERIC_TYPES -> render_whole v dt = Ok c -> numeric_cell c.
Proof.
  intros Hdt. unfold render_whole. destruct (dhas _ _); [by intros [= <-]|]. repeat (apply elem_of_cons in Hdt as [->|Hdt]).
  - change (CInt <$> py_int v = Ok c -> numeric_cell c). intros Hc. by eapply fmap_numeric.
  - change (finite_cell <$> float_of_value v = Ok c -> numeric_cell c). intros Hc.
    eapply fmap_numeric; [exact Hc|intros; apply finite_cell_numeric].
  - by intros [= <-].
  - by apply elem_of_nil in Hdt.
Qed.

Lemma value_cell_numeric c prefix cells r cl :
  is_value_column c = true -> declared_storage c = Numeric -> value_cell c prefix cells r = Ok cl -> numeric_cell cl.
Proof.
  intros Hv Hd. unfold value_cell. destruct (bool_decide _); [intros [= <-]; by intros s [= <-]|].
  destruct (dget cells _) as [v|]; [|by intros [= <-]]. unfold declared_storage, is_value_column in *.
  destruct (cl_source c); try done. unfold render. destruct v eqn:Ev; [by intros [= <-]|..]; rewrite <- Ev; clear Ev;
    (destruct (cl_component c) as [part|];
     [case_bool_decide as Hp; [by apply component_numeric|done]|]);
    (destruct (cl_type c) as [[|t0 t]|]; [case_bool_decide as Ht; [|by destruct (str_eqb _ _)]|case_bool_decide as Ht; [|by destruct (str_eqb _ _)]|done]);
    first [by apply whole_numeric | exfalso; revert Ht; unfold NUMERIC_TYPES; set_solver].
Qed.

Lemma meta_cell_numeric c r : cl_source c = Meta -> declared_storage c = Numeric -> numeric_cell (meta_cell (field_of_column c) r).
Proof.
  unfold declared_storage, field_of_column. intros ->. destruct (cl_field c) as [[|i0 i]|]; try done. cbn [from_option id].
  case_bool_decide as Hi; [|done]. intros _. repeat (apply elem_of_cons in Hi as [->|Hi]; [done|]). by apply elem_of_nil in Hi.
Qed.

Lemma key_cell_numeric c r row : cl_source c = Meta -> declared_storage c = Numeric -> numeric_cell (key_cell (field_of_column c) r row).
Proof.
  unfold declared_storage, field_of_column. intros ->. destruct (cl_field c) as [[|i0 i]|]; try done. cbn [from_option id].
  case_bool_decide as Hi; [|done]. intros _. repeat (apply elem_of_cons in Hi as [->|Hi]; [done|]). by apply elem_of_nil in Hi.
Qed.

Lemma parent_row_numeric cols r row k c cl :
  parent_row cols r = Ok row -> cols !! k = Some c -> row !! k = Some cl -> declared_storage c = Numeric -> numeric_cell cl.
Proof.
  intros Hrow%mapR_Ok Hc Hcl Hd. pose proof (Forall2_lookup_lr _ _ _ _ _ _ Hrow Hc Hcl) as H. cbn in H.
  destruct (is_value_column c) eqn:Ev; [by eapply value_cell_numeric|]. injection H as <-. unfold meta_or_count, is_value_column in *.
  destruct (cl_source c) eqn:Es; try done; [by apply meta_cell_numeric|]. by destruct (dget _ _).
Qed.

(** The flattened columns store what the repeat's column stores. *)
Lemma flatten_storage (plan : column_plan) records slot :
  slot ∈ flatten records plan -> exists cols c, (slot.1.1, cols) ∈ pl_repeats plan /\ c ∈ cols /\ is_meta c = false /\
    exists position name, slot.2 = at_position position (with_name name c).
Proof.
  unfold flatten. set (Q := fun slot : pystr * nat * column => exists cols c, (slot.1.1, cols) ∈ pl_repeats plan /\ c ∈ cols /\
    is_meta c = false /\ exists position name, slot.2 = at_position position (with_name name c)).
  set (I := fun acc : list (pystr * nat * column) * list pystr => forall s, s ∈ acc.1 -> Q s). intros Hin. revert slot Hin.
  change (I (fold_left (fun acc rc => fold_left (fun acc position => fold_left (flatten_step rc.1 position) rc.2 acc)
     (seq 1 (widest records rc.1)) acc) (pl_repeats plan) ([], map cl_name (pl_parent plan)))).
  apply (fold_left_keeps I (fun rc => rc ∈ pl_repeats plan)); [done| |by intros s ?%elem_of_nil].
  intros acc rc Hacc Hrc. apply (fold_left_keeps I (fun _ => True)); [done| |done]. intros acc1 position Hacc1 _.
  apply (fold_left_keeps I (fun c => c ∈ rc.2)); [done| |done]. intros acc2 c Hacc2 Hc. unfold flatten_step.
  destruct (is_meta c) eqn:Em; [done|]. unfold claim. intros s. cbn [fst]. rewrite elem_of_app, list_elem_of_singleton.
  intros [Hs| ->]; [by apply Hacc2|]. exists rc.2, c. cbn. split_and!; [by destruct rc|done..|by eexists _, _].
Qed.

Lemma repeat_row_numeric language forms rid cols r inst row k c cl :
  (rid, cols) ∈ pl_repeats (build_plan forms language) -> repeat_table_row cols rid r inst = Ok row ->
  cols !! k = Some c -> row !! k = Some cl -> declared_storage c = Numeric -> numeric_cell cl.
Proof.
  intros Hrc Hrow%mapR_Ok Hc Hcl Hd. pose proof (Forall2_lookup_lr _ _ _ _ _ _ Hrow Hc Hcl) as H. cbn in H.
  destruct (cl_source c) eqn:Es; [injection H as <-; by apply key_cell_numeric|..];
    try (eapply value_cell_numeric; [|exact Hd|exact H]; unfold is_value_column; by rewrite Es).
  by destruct (repeat_columns_sources language forms rid cols c Hrc (list_elem_of_lookup_2 _ _ _ Hc)).
Qed.

Lemma table_cells_numeric language forms records sh base tables t j row k c cl :
  build_tables (build_plan forms language) records sh base = Ok tables -> t ∈ tables ->
  tb_rows t !! j = Some row -> tb_columns t !! k = Some c -> row !! k = Some cl -> declared_storage c = Numeric -> numeric_cell cl.
Proof.
  intros Hbuild Ht Hrow Hc Hcl Hd. destruct sh.
  - destruct (build_long _ _ _ _ Hbuild) as (parent & repeats & -> & (_ & _ & Hpc & Hprows) & Hreps).
    apply elem_of_cons in Ht as [->|Ht].
    + destruct (Forall2_lookup_r _ _ _ _ _ Hprows Hrow) as (r & _ & Hprow). rewrite Hpc in Hc. by eapply parent_row_numeric.
    + apply list_elem_of_lookup in Ht as [n Hn]. destruct (Forall2_lookup_r _ _ _ _ _ Hreps Hn) as ([rid cols] & Hrc & (_ & _ & Htc) & Htr).
      cbn [fst snd] in *. apply list_elem_of_lookup_2 in Hrc. rewrite Htc in Hc. unfold repeat_table_rows in Htr.
      destruct (mapR _ records) as [rowss|] eqn:E; [|done]. injection Htr as Htr. apply mapR_nested in E. rewrite Htr in E.
      destruct (Forall2_lookup_r _ _ _ _ _ E Hrow) as ([r inst] & _ & Hinst). by eapply repeat_row_numeric.
  - destruct (build_wide _ _ _ _ Hbuild) as (rows & -> & E). clear Hbuild.
    apply list_elem_of_singleton in Ht as ->. cbn [tb_rows tb_columns] in Hrow, Hc. set (plan := build_plan forms language) in *.
    destruct (Forall2_lookup_r _ _ _ _ _ E Hrow) as (r & _ & Hwide). unfold wide_row in Hwide.
    destruct (parent_row (pl_parent plan) r) as [prow|] eqn:Ep; [|done]. cbn [mbind res_bind] in Hwide.
    destruct (mapR (wide_cell r) _) as [slots|] eqn:Es; [|done]. injection Hwide as <-.
    assert (length prow = length (pl_parent plan)) as Hl by by eapply mapR_length.
    destruct (decide (k < length (pl_parent plan))%nat) as [Hk|Hk].
    + rewrite lookup_app_l in Hc by done. rewrite lookup_app_l in Hcl by by rewrite Hl. by eapply parent_row_numeric.
    + rewrite lookup_app_r in Hc by lia. rewrite lookup_app_r, Hl in Hcl by lia. rewrite lookup_map in Hc. apply mapR_Ok in Es.
      destruct (flatten records plan !! (k - length (pl_parent plan))%nat) as [slot|] eqn:Eslot; [|done]. injection Hc as <-.
      pose proof (Forall2_lookup_lr _ _ _ _ _ _ Es Eslot Hcl) as Hcell. apply list_elem_of_lookup_2 in Eslot.
      destruct (flatten_storage _ _ _ Eslot) as (cols & c & Hrc & Hc & Hm & position & name & Hslot).
      destruct slot as [[rid index] c']. cbn in Hslot, Hcell, Hd, Hrc. subst c'.
      destruct (instances_in r rid !! index) as [inst|]; [|by injection Hcell as <-].
      apply bool_decide_eq_false in Hm. pose proof (repeat_columns_sources _ _ _ _ _ Hrc Hc) as Hcount.
      eapply value_cell_numeric; [|exact Hd|exact Hcell]. unfold is_value_column. cbn. by destruct (cl_source c).
Qed.

(** ** The conversion *)

(** All it can let out is an integer too large for a float. *)
Definition converts {A} (r : A + stat_error) : Prop := match r with inl _ => True | inr e => e = StatRaises OverflowError end.

Lemma all_in_converts {A} (f : cell -> A + stat_error) cells :
  (forall c, c ∈ cells -> converts (f c)) -> converts (all_in f cells).
Proof.
  induction cells as [|c cells IH]; intros H; [done|]. cbn. pose proof (H c ltac:(by left)) as Hc. destruct (f c); [|done].
  specialize (IH ltac:(intros; apply H; by right)). by destruct (all_in f cells).
Qed.

Lemma number_converts name c : numeric_cell c -> c <> CText ENCRYPTED -> converts (number_in name c).
Proof.
  intros Hn Ht. destruct c as [|s|z|f]; [done| |..]; cbn; [by rewrite (Hn s eq_refl) in Ht| |done].
  unfold float_of_int. by destruct (is_inf _).
Qed.

Lemma existsb_none {A} (p : A -> bool) l x : existsb p l = false -> x ∈ l -> p x = false.
Proof.
  intros H Hx. apply not_true_iff_false. intros Hp. apply not_true_iff_false in H. apply H, existsb_exists. exists x.
  split; [by apply list_elem_of_In|done].
Qed.

(** A column planned from its cells takes them. *)
Lemma series_converts rows index name c :
  (declared_storage c = Numeric -> forall cl, cl ∈ column_cells index rows -> numeric_cell cl) ->
  converts (series_of (plan_column rows index name c) (column_cells index rows)).
Proof.
  intros Hnum. unfold series_of, plan_column. cbn [st_storage st_name]. set (cells := column_cells index rows) in *.
  destruct (forced_string (declared_storage c) cells) eqn:E; [done|]. unfold forced_string in E.
  destruct (declared_storage c) eqn:Ed; [|done|].
  - destruct (existsb _ cells) eqn:Et; [done|]. enough (converts (all_in (number_in name) cells)) as H.
    { unfold converts in *. by destruct (all_in (number_in name) cells). }
    apply all_in_converts. intros cl Hcl. apply number_converts; [by apply Hnum|].
    apply (existsb_none _ _ _ Et) in Hcl. by apply bool_decide_eq_false in Hcl.
  - destruct (existsb _ cells) eqn:Et; [done|]. destruct (existsb (fun c0 => negb _ && _) cells) eqn:En; [done|].
    enough (converts (all_in (date_in name) cells)) as H.
    { unfold converts in *. by destruct (all_in (date_in name) cells). }
    apply all_in_converts. intros cl Hcl. apply (existsb_none _ _ _ En) in Hcl. unfold date_in, is_empty in *.
    destruct cl; [done|..]; rewrite bool_decide_eq_false_2 in Hcl by done; cbn in Hcl;
      apply bool_decide_eq_false in Hcl; by destruct (as_date _).
Qed.

Lemma plan_from_lookup {chars : CharClasses} rows columns : forall index taken k p,
  plan_from rows index taken columns !! k = Some p ->
  exists c name, columns !! k = Some c /\ p = plan_column rows (index + k) name c.
Proof.
  induction columns as [|c columns IH]; intros index taken k p; cbn [plan_from]; [done|].
  destruct (claim_short taken (cl_name c)) as [name taken']. destruct k as [|k]; cbn.
  - intros [= <-]. exists c, name. by rewrite Nat.add_0_r.
  - intros Hk. destruct (IH _ _ _ _ Hk) as (c' & name' & Hc & ->). exists c', name'. split; [done|]. f_equal. lia.
Qed.

End Types.
