(* ===== verification/ExportServiceFacts.v ===== *)
(** * The records of an export

    Every submission of an export is read under the version it was collected
    under, and named through that version's pins: what is asked once per
    version is what asking for each submission gives. *)

From Stdlib Require Import Sorted.
From S2P Require Import Prelude PyStr PyNum PyDate Value PyJson Expr Expression Datasets Compile Runtime Projection Fold.
From S2P Require Import DatasetKeys Surface Printer PublishGate Server Push Catalog Forms Entities CatalogFacts CatalogSound.
From S2P Require Import DeltaFacts Reachability Cells ExportPlan Statistical ExportManifest ExportService PlanFacts ReadbackFacts.

Section Service.
Context {env : PyEnv} {uni : UnicodeDB} (collate : pystr -> pystr -> comparison).
Context (today : date) (now : pystr) (received_at : pystr -> pystr).

Lemma key_unique {A B} (key : A -> B) l x y : NoDup (map key l) -> x ∈ l -> y ∈ l -> key x = key y -> x = y.
Proof.
  intros Hn [i Hi]%list_elem_of_lookup [j Hj]%list_elem_of_lookup Hk. enough (i = j) as <- by congruence.
  eapply (NoDup_lookup _ _ _ (key x) Hn); rewrite lookup_map, ?Hi, ?Hj; cbn; congruence.
Qed.

(** The row of [form_version] a submission names. *)
Lemma version_found c sid v : version_of_submission c sid = Some v ->
  exists sb, dget (sv_submissions (ct_server c)) sid = Some sb /\ v ∈ ct_versions c /\ vr_id v = sb_form_version sb.
Proof.
  unfold version_of_submission. destruct (dget _ sid) as [sb|]; [|done]. cbn. intros [Hv E]%List.find_some. exists sb.
  split_and!; [done|by apply list_elem_of_In|by apply str_eqb_eq].
Qed.

(** ** The forms compiled *)

Definition rows_asked (c : catalog) (ids : list pystr) : list (pystr * version) :=
  concat (map (fun kv =>
      if bool_decide (kv.1 ∈ ids)
      then match List.find (fun v => str_eqb (vr_id v) (sb_form_version kv.2)) (ct_versions c) with
           | Some v => [(kv.1, v)]
           | None => []
           end
      else []) (sv_submissions (ct_server c))).

Lemma row_asked c ids sid v :
  NoDup (dkeys (sv_submissions (ct_server c))) -> (sid, v) ∈ rows_asked c ids -> sid ∈ ids /\ version_of_submission c sid = Some v.
Proof.
  intros Hn (x & ([k sb] & <- & Hk%list_elem_of_In)%in_map_iff & Hin)%list_elem_of_In%in_concat. cbn in Hin.
  case_bool_decide as Hids; [|done]. destruct (List.find _ _) as [w|] eqn:E; [|done]. destruct Hin as [[= <- <-]|[]].
  split; [done|]. unfold version_of_submission. rewrite (dget_elem_NoDup _ _ _ Hn Hk). cbn. exact E.
Qed.

Definition compiled_so_far (c : catalog) (rows : list (pystr * version)) (acc : odict cform * odict cform) : Prop :=
  (forall sid f, dget acc.1 sid = Some f -> exists v, (sid, v) ∈ rows /\ compile (vr_ir v) = Ok f) /\
  (forall i f, dget acc.2 i = Some f -> exists v, v ∈ ct_versions c /\ vr_id v = i /\ compile (vr_ir v) = Ok f).

Lemma compile_rows_ok c rows l acc acc' :
  unique c -> (forall sid v, (sid, v) ∈ rows -> v ∈ ct_versions c) -> (forall x, x ∈ l -> x ∈ rows) ->
  compiled_so_far c rows acc -> foldM compile_row acc l = Ok acc' -> compiled_so_far c rows acc'.
Proof.
  intros Hu Hrows Hl Hacc. apply foldM_ind; [|done]. intros [d b] [sid v] acc1 Hin%Hl [Hd Hb] H. cbn in *.
  assert (forall f (d' : odict cform), compile (vr_ir v) = Ok f -> forall sid' f', dget (dset d sid f) sid' = Some f' ->
    exists v, (sid', v) ∈ rows /\ compile (vr_ir v) = Ok f') as Hset.
  { intros f _ Hf sid' f'. rewrite dget_dset. destruct (decide _) as [->|]; [|apply Hd]. intros [= <-]. by exists v. }
  destruct (dget b (vr_id v)) as [f|] eqn:E.
  - injection H as <-. split; cbn; [|done]. destruct (Hb _ _ E) as (w & Hw & Hid & Hf).
    assert (w = v) as -> by (by eapply (key_unique vr_id); [apply un_versions|..]; [|done|by eapply Hrows|]). by apply Hset.
  - destruct (compile (vr_ir v)) as [f|] eqn:Ef; [|done]. injection H as <-. split; cbn; [by apply Hset|].
    intros i g. rewrite dget_dset. destruct (decide _) as [->|]; [|apply Hb]. intros [= <-]. exists v. split; [by eapply Hrows|done].
Qed.

Lemma compiled_distinct c ids compiled : compiled_forms_for_submissions c ids = Ok compiled -> NoDup (dkeys compiled).
Proof.
  unfold compiled_forms_for_submissions. intros Hc. destruct (foldM compile_row _ _) as [acc|] eqn:E; [|done]. injection Hc as <-.
  revert E. apply (foldM_ind (fun acc => NoDup (dkeys acc.1))); [|constructor]. intros [d b] [s w] acc1 _ Hd H. cbn in *.
  destruct (dget b _); [injection H as <-; by apply NoDup_dkeys_dset|]. destruct (compile _); [|done]. injection H as <-. by apply NoDup_dkeys_dset.
Qed.

Lemma compiled_under_own c ids compiled sid f :
  unique c -> NoDup (dkeys (sv_submissions (ct_server c))) -> compiled_forms_for_submissions c ids = Ok compiled ->
  dget compiled sid = Some f -> exists v, version_of_submission c sid = Some v /\ sid ∈ ids /\ compile (vr_ir v) = Ok f.
Proof.
  intros Hu Hn Hc Hf. unfold compiled_forms_for_submissions in Hc. fold (rows_asked c ids) in Hc.
  destruct (foldM compile_row _ _) as [acc|] eqn:E; [|done]. injection Hc as <-.
  destruct (compile_rows_ok c (rows_asked c ids) (rows_asked c ids) ([], []) acc Hu) as [H _]; [|done|split; done|exact E|].
  - intros s v [_ Hv]%row_asked; [|done]. apply version_found in Hv as (sb & _ & Hin & _). exact Hin.
  - destruct (H _ _ Hf) as (v & [Hids Hv]%row_asked & Hcomp); [|done]. by exists v.
Qed.

(** ** The rows a version's pins resolve a key to *)

Definition pinned_rows (c : catalog) (v : version) (key : pystr) : option (list (odict value)) :=
  last (map (fun p => map xr_data (rows_of c (pr_dataset_version p)))
          (List.filter (fun p => str_eqb (pr_version p) (vr_id v) && str_eqb (pr_key p) key) (ct_pins c))).

Lemma pinned_versions_one c sid sb key :
  NoDup (dkeys (sv_submissions (ct_server c))) -> dget (sv_submissions (ct_server c)) sid = Some sb ->
  pinned_versions c [sid] key =
  map (fun p => (sid, pr_dataset_version p))
    (List.filter (fun p => str_eqb (pr_version p) (sb_form_version sb) && str_eqb (pr_key p) key) (ct_pins c)).
Proof.
  unfold pinned_versions. induction (sv_submissions (ct_server c)) as [|[k w] l IH]; [done|]. intros Hn. cbn [map concat fst snd dget].
  change (NoDup (k :: dkeys l)) in Hn. apply NoDup_cons in Hn as [Hk Hn].
  destruct (decide (sid = k)) as [->|Hne].
  - intros [= ->]. rewrite bool_decide_eq_true_2 by by left.
    assert (concat (map (fun kv : pystr * submission => if bool_decide (kv.1 ∈ [k]) then
      map (fun p => (kv.1, pr_dataset_version p)) (List.filter (fun p => str_eqb (pr_version p) (sb_form_version kv.2) && str_eqb (pr_key p) key) (ct_pins c))
      else []) l) = []) as ->; [|by rewrite app_nil_r].
    clear -Hk. induction l as [|[k' w'] l IH]; [done|]. cbn [map concat fst]. rewrite bool_decide_eq_false_2.
    + apply IH. intros H. apply Hk. by right.
    + intros ->%list_elem_of_singleton. apply Hk. by left.
  - intros Hget. rewrite bool_decide_eq_false_2 by (intros ?%list_elem_of_singleton; congruence). by apply IH.
Qed.

Lemma rows_of_own_version c sid v key :
  NoDup (dkeys (sv_submissions (ct_server c))) -> version_of_submission c sid = Some v -> dataset_rows_for c sid key = pinned_rows c v key.
Proof.
  intros Hn (sb & Hsb & _ & Hid)%version_found. unfold dataset_rows_for, dataset_rows_for_submissions, pinned_rows.
  rewrite (pinned_versions_one c sid sb key Hn Hsb), Hid. set (l := List.filter _ (ct_pins c)). clearbody l. clear.
  induction l as [|p l IH] using rev_ind; [done|]. rewrite !map_app, fold_left_app. cbn. rewrite last_snoc. by rewrite dget_dset_eq.
Qed.

(** ** The names of a submission's choices *)

Context (sha256_hex : list N -> pystr) (utf8 : pystr -> list N) (rg : registry).

Lemma number_of_version c v f :
  sound sha256_hex utf8 rg c -> v ∈ ct_versions c -> compile (vr_ir v) = Ok f -> form_version_number f = vr_version v.
Proof.
  intros Hs Hv Hf. destruct (sd_versions _ _ _ _ Hs v Hv) as (f' & fm & Hvs). rewrite (vs_number _ _ _ _ _ _ _ Hvs).
  pose proof (vs_gate _ _ _ _ _ _ _ Hvs) as Hg. unfold check_publishable in Hg. rewrite Hf in Hg. destruct (f_fields f); [done|].
  destruct (check_reachability _); [|done]. destruct (_ ++ _); [|done]. by injection Hg as <-.
Qed.

(** Submissions of one form whose versions go by one name are of one version. *)
Lemma same_name_same_version c fid v w f g :
  sound sha256_hex utf8 rg c -> v ∈ ct_versions c -> w ∈ ct_versions c -> vr_form v = fid -> vr_form w = fid ->
  compile (vr_ir v) = Ok f -> compile (vr_ir w) = Ok g -> form_name_of f = form_name_of g -> v = w.
Proof.
  intros Hs Hv Hw Hfv Hfw Hf Hg Hname. injection Hname as _ Hnum. pose proof (un_numbers c (sd_unique _ _ _ _ Hs)) as Hu.
  apply (key_unique version_number _ _ _ Hu Hv Hw). unfold version_number.
  rewrite <- (number_of_version c v f Hs Hv Hf), <- (number_of_version c w g Hs Hw Hg). congruence.
Qed.

Section OneForm.
Context (c : catalog) (fid : pystr) (ids : list pystr) (compiled : odict cform).
Context (Hsound : sound sha256_hex utf8 rg c) (Hsubs : NoDup (dkeys (sv_submissions (ct_server c)))).
Context (Hform : forall sid v, sid ∈ ids -> version_of_submission c sid = Some v -> vr_form v = fid).
Context (Hcompiled : compiled_forms_for_submissions c ids = Ok compiled).

(** Asking on behalf of one submission of a version is asking on behalf of
    all of them. *)
Lemma labels_of_own_version language sid f v :
  dget compiled sid = Some f -> version_of_submission c sid = Some v ->
  labels_by_version c compiled language f = form_labels language f (fun key => default [] (dataset_rows_for c sid key)).
Proof.
  intros Hf Hv. pose proof (sd_unique _ _ _ _ Hsound) as Hu.
  pose proof (compiled_distinct c ids compiled Hcompiled) as Hnd.
  destruct (compiled_under_own c ids compiled sid f Hu Hsubs Hcompiled Hf) as (v' & Hv' & Hids & Hcomp).
  rewrite Hv in Hv'. injection Hv' as <-. destruct (version_found _ _ _ Hv) as (_ & _ & Hvin & _).
  (* a submission that goes by the same name is of the same version *)
  assert (forall s g, (s, g) ∈ compiled -> form_name_of g = form_name_of f -> g = f /\ version_of_submission c s = Some v) as Hsame.
  { intros s g Hg%(dget_elem_NoDup _ _ _ Hnd) Hname.
    destruct (compiled_under_own c ids compiled s g Hu Hsubs Hcompiled Hg) as (w & Hw & Hsids & Hgc).
    destruct (version_found _ _ _ Hw) as (_ & _ & Hwin & _).
    assert (w = v) as -> by exact (same_name_same_version c fid w v g f Hsound Hwin Hvin (Hform s w Hsids Hw) (Hform sid v Hids Hv) Hgc Hcomp Hname).
    split; [congruence|done]. }
  unfold labels_by_version.
  assert (exists s, representative compiled f = Some s /\ version_of_submission c s = Some v) as (s & -> & Hs).
  { unfold representative. destruct (List.find _ compiled) as [[s g]|] eqn:E.
    - apply List.find_some in E as [Hin%list_elem_of_In Hname%bool_decide_eq_true]. exists s. split; [done|].
      by apply (Hsame s g).
    - exfalso. apply (List.find_none _ _) with (x := (sid, f)) in E; [|by apply list_elem_of_In, dget_Some_elem].
      by apply bool_decide_eq_false in E. }
  assert (form_under compiled f = f) as ->.
  { unfold form_under. destruct (List.find _ (reverse compiled)) as [[s' g]|] eqn:E; [|done]. cbn.
    apply List.find_some in E as [Hin%list_elem_of_In Hname%bool_decide_eq_true]. rewrite elem_of_reverse in Hin.
    by apply (Hsame s' g). }
  unfold form_labels. apply map_ext. intros [i cf]. cbn. f_equal. unfold field_labels. destruct (cf_choice_query cf) as [q|]; [|done].
  by rewrite (rows_of_own_version c s v), (rows_of_own_version c sid v).
Qed.

(** A submission that is asked for and has a version is compiled. *)
Lemma compiled_all sid v : sid ∈ ids -> version_of_submission c sid = Some v -> is_Some (dget compiled sid).
Proof.
  intros Hids Hv. unfold compiled_forms_for_submissions in Hcompiled. fold (rows_asked c ids) in Hcompiled.
  destruct (foldM compile_row _ _) as [acc|] eqn:E; [|done]. injection Hcompiled as <-.
  assert ((sid, v) ∈ rows_asked c ids) as Hin.
  { unfold version_of_submission in Hv. destruct (dget _ sid) as [sb|] eqn:Esb; [|done]. cbn in Hv.
    apply list_elem_of_In, in_concat. exists [(sid, v)]. split; [|by left]. apply in_map_iff. exists (sid, sb).
    split; [cbn; by rewrite bool_decide_eq_true_2, Hv|by apply list_elem_of_In, dget_Some_elem]. }
  revert E. generalize (@nil (pystr * cform), @nil (pystr * cform)) as acc0.
  induction (rows_asked c ids) as [|[s w] l IH]; intros acc0 E; [by apply elem_of_nil in Hin|]. cbn in E.
  destruct (compile_row acc0 (s, w)) as [acc1|] eqn:E1; [|done]. apply elem_of_cons in Hin as [[= <- <-]|Hin]; [|by eapply IH].
  revert E. apply (foldM_ind (fun acc => is_Some (dget acc.1 sid))).
  - intros [d b] [s' w'] acc2 _ Hd H. cbn in *. destruct (dget b _); [|destruct (compile _); [|done]]; injection H as <-; cbn;
      rewrite dget_dset; by destruct (decide _).
  - destruct acc0 as [d b]. cbn in E1. destruct (dget b _); [|destruct (compile _); [|done]]; injection E1 as <-; cbn;
      rewrite dget_dset, decide_True by done; by eexists.
Qed.

End OneForm.

(** What a submission of a form is found with. *)
Lemma matching_version c rq f row :
  sound sha256_hex utf8 rg c -> NoDup (dkeys (sv_submissions (ct_server c))) -> row ∈ matching_submissions c rq f ->
  exists v, version_of_submission c row.1 = Some v /\ vr_form v = fm_id f.
Proof.
  intros Hs Hn [Hrow [[Hex _]%andb_true_iff _]%andb_true_iff]%elem_filter_bool. apply existsb_exists in Hex as (v & Hv & Hid).
  apply andb_true_iff in Hid as [Hid%str_eqb_eq Hform%str_eqb_eq]. exists v. split; [|done]. unfold version_of_submission.
  destruct row as [sid sb]. cbn in *. rewrite (dget_elem_NoDup _ _ _ Hn Hrow). cbn.
  destruct (List.find _ (ct_versions c)) as [w|] eqn:E.
  - apply List.find_some in E as [Hw Hwid%str_eqb_eq]. f_equal.
    eapply (key_unique vr_id); [apply un_versions, (sd_unique _ _ _ _ Hs)|by apply list_elem_of_In..|congruence].
  - apply (List.find_none _ _ E) in Hv. by rewrite Hid, str_eqb_refl in Hv.
Qed.

Lemma folds_lookup c sids sid :
  sid ∈ sids -> default no_fold (dget (folds_of collate c sids) sid) = fold_of collate (ct_server c) sid.
Proof.
  intros Hsid. assert (forall l, dget (folds_of collate c l) sid =
    if bool_decide (sid ∈ l) && existsb (fun r => str_eqb (ro_submission r) sid) (sv_ops (ct_server c))
    then Some (fold_of collate (ct_server c) sid) else None) as ->.
  { induction l as [|s l IH]; [done|]. unfold folds_of in *. cbn [omap list_omap].
    destruct (existsb (fun r => str_eqb (ro_submission r) s) _) eqn:E; cbn [dget]; rewrite ?IH.
    - destruct (decide (sid = s)) as [->|Hne].
      + rewrite bool_decide_eq_true_2 by by left. by rewrite E.
      + by rewrite (bool_decide_ext (sid ∈ s :: l) (sid ∈ l)) by (rewrite elem_of_cons; tauto).
    - destruct (decide (sid = s)) as [->|Hne]; [by rewrite E, !andb_false_r|].
      by rewrite (bool_decide_ext (sid ∈ s :: l) (sid ∈ l)) by (rewrite elem_of_cons; tauto). }
  rewrite bool_decide_eq_true_2 by done. destruct (existsb _ _) eqn:E; [done|]. cbn.
  unfold fold_of. assert (List.filter (fun r => str_eqb (ro_submission r) sid) (sv_ops (ct_server c)) = []) as H.
  { apply filter_none. intros r Hr. apply not_true_iff_false. intros Hx. apply not_true_iff_false in E. apply E, existsb_exists.
    exists r. split; [by apply list_elem_of_In|done]. }
  unfold Push.rows_of. by rewrite H.
Qed.

(** ** The records *)

(** A record is its submission's own: read under the version it was collected
    under, named through that version's pins, projected from its own ops. *)
Record own_record (c : catalog) (rq : export_request) (f : form) (row : pystr * submission) (r : submission_record) : Prop := {
  ow_id : sr_id r = row.1;
  ow_status : sr_status r = sb_status row.2;
  ow_read : exists v cf,
    version_of_submission c row.1 = Some v /\ vr_form v = fm_id f /\ compile (vr_ir v) = Ok cf /\
    sr_form_version r = vr_version v /\
    sr_labels r = form_labels (er_language rq) cf (fun key => default [] (dataset_rows_for c row.1 key)) /\
    let folded := fold_of collate (ct_server c) row.1 in
    project_for_export (export_world today now cf) (fo_data folded) (fo_instances folded) (dkeys (fo_unreadable folded))
    = Ok (sr_projection r)
}.

Lemma record_is_own c rq f rows row compiled :
  sound sha256_hex utf8 rg c -> NoDup (dkeys (sv_submissions (ct_server c))) ->
  (forall x, x ∈ rows -> x ∈ matching_submissions c rq f) -> row ∈ rows ->
  compiled_forms_for_submissions c (dkeys rows) = Ok compiled ->
  forall out, record_of today now received_at c rq f compiled (folds_of collate c (dkeys rows)) row = Ok out ->
  exists r, out = [r] /\ own_record c rq f row r.
Proof.
  intros Hs Hn Hrows Hrow Hc out Hout. destruct (matching_version c rq f row Hs Hn (Hrows row Hrow)) as (v & Hv & Hform).
  assert (row.1 ∈ dkeys rows) as Hid by (by apply list_elem_of_fmap; exists row).
  assert (forall sid w, sid ∈ dkeys rows -> version_of_submission c sid = Some w -> vr_form w = fm_id f) as Hall.
  { intros sid w ([k sb] & -> & Hin)%list_elem_of_fmap Hw. destruct (matching_version c rq f _ Hs Hn (Hrows _ Hin)) as (u & Hu & Huf).
    cbn in *. congruence. }
  destruct (compiled_all c (dkeys rows) compiled Hc row.1 v Hid Hv) as [cf Hcf].
  destruct (compiled_under_own c _ compiled row.1 cf (sd_unique _ _ _ _ Hs) Hn Hc Hcf) as (v' & Hv' & _ & Hcomp).
  rewrite Hv in Hv'. injection Hv' as <-. unfold record_of in Hout. rewrite Hcf in Hout. rewrite (folds_lookup c _ _ Hid) in Hout.
  destruct (project_for_export _ _ _ _) as [p|] eqn:Ep; [|done]. injection Hout as <-. eexists. split; [done|]. split; [done..|].
  destruct (version_found _ _ _ Hv) as (_ & _ & Hvin & _). exists v, cf. split_and!; try done.
  - exact (number_of_version c v cf Hs Hvin Hcomp).
  - exact (labels_of_own_version c (fm_id f) (dkeys rows) compiled Hs Hn Hall Hc _ row.1 cf v Hcf Hv).
Qed.

Lemma records_are_own c rq f rows compiled folds records :
  sound sha256_hex utf8 rg c -> NoDup (dkeys (sv_submissions (ct_server c))) ->
  (forall x, x ∈ rows -> x ∈ matching_submissions c rq f) ->
  export_records collate today now received_at c rq f rows = Ok (compiled, folds, records) ->
  Forall2 (own_record c rq f) rows records.
Proof.
  intros Hs Hn Hrows H. unfold export_records in H. destruct (compiled_forms_for_submissions _ _) as [comp|] eqn:Ec; [|done]. cbn in H.
  destruct (mapR _ rows) as [out|] eqn:E; [|done]. injection H as <- <- <-.
  assert (forall l, (forall x, x ∈ l -> x ∈ rows) -> forall out, mapR (record_of today now received_at c rq f comp (folds_of collate c (dkeys rows))) l = Ok out ->
    Forall2 (own_record c rq f) l (concat out)) as Hgo; [|by eapply Hgo].
  clear out E. induction l as [|row l IH]; intros Hl out E; cbn in E; [injection E as <-; constructor|].
  destruct (record_of _ _ _ _ _ _ _ _ row) as [o|] eqn:Eo; [|done]. cbn in E. destruct (mapR _ l) as [os|] eqn:El; [|done]. injection E as <-.
  destruct (record_is_own c rq f rows row comp Hs Hn Hrows (Hl _ (list_elem_of_here _ _)) Ec o Eo) as (r & -> & Hr).
  cbn. constructor; [done|]. apply IH; [|done]. intros x Hx. apply Hl. by right.
Qed.

(** The forms a plan is built from are the versions of what is exported. *)
Lemma forms_exported c ids compiled f :
  sound sha256_hex utf8 rg c -> NoDup (dkeys (sv_submissions (ct_server c))) -> compiled_forms_for_submissions c ids = Ok compiled ->
  f ∈ distinct_forms c compiled <->
  exists sid v, sid ∈ ids /\ version_of_submission c sid = Some v /\ compile (vr_ir v) = Ok f.
Proof.
  intros Hs Hn Hc. pose proof (sd_unique _ _ _ _ Hs) as Hu.
  assert (NoDup (dkeys compiled)) as Hnd by (by eapply compiled_distinct). unfold distinct_forms. rewrite list_elem_of_omap. split.
  - intros (v & Hv & Hf). destruct (List.find _ compiled) as [[sid g]|] eqn:E; [|done]. cbn in Hf. injection Hf as ->.
    apply List.find_some in E as [Hin%list_elem_of_In%(dget_elem_NoDup _ _ _ Hnd) _].
    destruct (compiled_under_own c ids compiled sid f Hu Hn Hc Hin) as (w & Hw & Hids & Hcomp). by exists sid, w.
  - intros (sid & v & Hids & Hv & Hcomp). destruct (version_found _ _ _ Hv) as (_ & _ & Hvin & _). exists v. split; [done|].
    destruct (compiled_all c ids compiled Hc sid v Hids Hv) as [g Hg]. destruct (List.find _ compiled) as [[s h]|] eqn:E.
    + apply List.find_some in E as [Hin%list_elem_of_In%(dget_elem_NoDup _ _ _ Hnd) Hid].
      destruct (compiled_under_own c ids compiled s h Hu Hn Hc Hin) as (w & Hw & _ & Hh). cbn in Hid. rewrite Hw in Hid.
      apply str_eqb_eq in Hid. destruct (version_found _ _ _ Hw) as (_ & _ & Hwin & _).
      assert (w = v) as -> by (by eapply (key_unique vr_id); [apply un_versions|..]). cbn. congruence.
    + apply (List.find_none _ _) with (x := (sid, g)) in E; [|by apply list_elem_of_In, dget_Some_elem]. cbn in E.
      by rewrite Hv, str_eqb_refl in E.
Qed.

(** ** The export *)

Lemma export_form_spec c rq b :
  export_form collate today now received_at c rq = inl (Some b) ->
  exists f rows compiled folds records,
    matching_forms c rq = [f] /\ rows = sort_by (received_before collate received_at) (matching_submissions c rq f) /\
    (length rows <= er_limit rq)%nat /\
    export_records collate today now received_at c rq f rows = Ok (compiled, folds, records) /\
    build_tables (build_plan (distinct_forms c compiled) (er_language rq)) records (er_shape rq) (fm_key f) = Ok (bn_tables b) /\
    bn_files b = csv_files (bn_tables b) /\
    bn_manifest b = build_manifest (build_plan (distinct_forms c compiled) (er_language rq)) (bn_tables b) records (fm_key f)
      (Some (title_of_export compiled (er_language rq) f)) (er_language rq) (er_shape rq) (openable_by c folds) None.
Proof.
  clear rg utf8 sha256_hex. unfold export_form. destruct (matching_forms c rq) as [|f [|? ?]]; [done| |done]. cbn zeta.
  set (rows := sort_by _ _). destruct (er_limit rq <? _)%nat eqn:El; [done|]. apply Nat.ltb_ge in El.
  assert (length rows <= er_limit rq)%nat as Hlen by (rewrite length_take in El; lia). rewrite take_ge by lia.
  destruct (export_bundle _ _ _ _ c rq f rows) as [b'|] eqn:E; [|done]. intros [= ->]. exists f, rows.
  unfold export_bundle in E. destruct (export_records _ _ _ _ c rq f rows) as [[[compiled folds] records]|] eqn:Er; [|done]. cbn in E.
  destruct (build_tables _ _ _ _) as [tables|] eqn:Et; [|done]. injection E as <-. by exists compiled, folds, records.
Qed.

Lemma export_records_compiled c rq f rows compiled folds records :
  export_records collate today now received_at c rq f rows = Ok (compiled, folds, records) ->
  compiled_forms_for_submissions c (dkeys rows) = Ok compiled.
Proof.
  unfold export_records. destruct (compiled_forms_for_submissions _ _); [|done]. cbn. destruct (mapR _ _); [|done]. by intros [= <- _ _].
Qed.

Lemma received_sorted l :
  (forall x y, collate y x = CompOpp (collate x y)) ->
  Sorted (fun x y => received_before collate received_at x y = true) (sort_by (received_before collate received_at) l).
Proof.
  intros Hanti. apply sort_by_sorted. intros x y. destruct (received_before _ _ x y) eqn:E; [done|]. revert E. unfold received_before.
  rewrite (str_cmp_antisym (received_at y.1)). destruct (str_cmp _ _); [|done|done]. cbn. rewrite (Hanti x.1 y.1). by destruct (collate _ _).
Qed.

End Service.
