(* ===== verification/Samples.v ===== *)
(** * Sample documents

    Small forms in the shape of the repository's conformance vectors; the
    theorems of the development are applied to them at concrete inputs. *)

From S2P Require Import Prelude PyStr PyNum PyDate Value Expr Expression Datasets Document Topo Compile.
From S2P Require Import Runtime.

#[export] Existing Instance ascii_env.

(** ** Writing a document *)

Definition text (s : string) : value := VStr (lit s).
Definition obj (l : list (string * value)) : value := VDict (map (fun kv => (lit kv.1, kv.2)) l).
Definition lit_expr (v : value) : value := obj [("op"%string, text "lit"); ("value"%string, v)].
Definition ref_expr (path : string) : value := obj [("op"%string, text "ref"); ("path"%string, text path)].
Definition op_expr (op : string) (args : list value) : value :=
  obj [("op"%string, text op); ("args"%string, VList args)].
Definition call_expr (fn : string) (args : list value) : value :=
  obj [("op"%string, text "call"); ("fn"%string, text fn); ("args"%string, VList args)].
Definition question (id type : string) (extra : list (string * value)) : value :=
  obj ([("type"%string, text "question"); ("id"%string, text id); ("dataType"%string, text type)] ++ extra).
Definition container (kind id : string) (extra : list (string * value)) (children : list value) : value :=
  obj ([("type"%string, text kind); ("id"%string, text id)] ++ extra ++ [("children"%string, VList children)]).
Definition document (children : list value) : value :=
  obj [("irVersion"%string, text "0.1"); ("formId"%string, text "sample"); ("version"%string, VInt 1);
       ("languages"%string, VList [text "en"]); ("children"%string, VList children)].

(** The compiled form, or the empty one. *)
Definition compiled_or_empty (ir : value) : cform :=
  match compile ir with Ok f => f | Raise _ => empty_form [] end.

Definition no_datasets : dataset_source := fun _ _ _ => [].

Definition world_of (f : cform) : world := World f (Date 2026 9 14) (lit "2026-09-14T08:00:00+00:00") [] no_datasets.

(** What an operation leaves, an exception or not. *)
Definition after {A} (m : M A) (s : inst) : inst := (m s).1.

(** ** A household: a calculate, a gate, a roster with bounds *)

Definition household : value := document
  [ question "adults" "integer" [];
    question "kids" "integer" [];
    question "size" "integer" [("calculate"%string, op_expr "add" [ref_expr "adults"; ref_expr "kids"])];
    container "group" "more" [("relevant"%string, op_expr "gt" [ref_expr "size"; lit_expr (VInt 2)])]
      [ question "crowded" "text" [("required"%string, VBool true);
          ("label"%string, obj [("en"%string, text "For {0} people")]);
          ("labelArgs"%string, VList [ref_expr "size"])] ];
    container "repeat" "members" [("minInstances"%string, VInt 1); ("maxInstances"%string, VInt 3)]
      [ question "name" "text" [];
        question "age" "integer"
          [("constraint"%string, op_expr "gte" [ref_expr "age"; lit_expr (VInt 0)])] ];
    question "oldest" "integer" [("calculate"%string, call_expr "max" [ref_expr "members[].age"])] ].

Definition household_form : cform := compiled_or_empty household.
Definition household_world : world := world_of household_form.

Lemma household_compiles : compile household = Ok household_form.
Proof. vm_compute. reflexivity. Qed.

Definition household_fresh : inst := (construct household_world).1.
Definition household_answered : inst :=
  after (set_many household_world [(lit "adults", VInt 2); (lit "kids", VInt 1); (lit "members[0].age", VInt 40)])
    household_fresh.
Definition household_small : inst :=
  after (set_many household_world [(lit "adults", VInt 1); (lit "kids", VInt 0)]) household_fresh.

(** ** An income roster: a total over encrypted incomes *)

Definition incomes : value := document
  [ question "consent" "text" [];
    container "repeat" "earners" [("minInstances"%string, VInt 2)]
      [ question "income" "integer" [];
        question "yearly" "integer"
          [("calculate"%string, op_expr "mul" [ref_expr "income"; lit_expr (VInt 12)])] ];
    question "total" "integer" [("calculate"%string, call_expr "sum" [ref_expr "earners[].yearly"])];
    question "people" "integer" [];
    question "double" "integer" [("calculate"%string, op_expr "mul" [ref_expr "people"; lit_expr (VInt 2)])] ].

Definition incomes_form : cform := compiled_or_empty incomes.
Definition incomes_world : world := world_of incomes_form.

Lemma incomes_compiles : compile incomes = Ok incomes_form.
Proof. vm_compute. reflexivity. Qed.

Definition incomes_fresh : inst := (construct incomes_world).1.
Definition incomes_answered : inst :=
  after (set_many incomes_world [(lit "people", VInt 3); (lit "earners[0].income", VInt 100)]) incomes_fresh.
