(* ===== verification/SyncSamples.v ===== *)
(** * Sample server and batches

    A project with two handsets, a published form, a rule and a recovery key,
    and the requests the sync theorems are applied to. *)

From S2P Require Import Prelude PyStr PyJson PyNum PyDate Value Expr Expression Compile Fold Status Server.
From S2P Require Import Media DatasetKeys Quality Identity Cases Push PushFacts Pull Samples.

(** ** Decoding the wire *)

Definition text_field (d : odict value) (k : string) : option pystr :=
  match vget d k with VStr t => Some t | _ => None end.
Definition int_field (d : odict value) (k : string) : option Z :=
  match vget d k with VInt n => Some n | _ => None end.

(** The declared fields of [SyncOp], required and optional. *)
Definition decode_wire (d : odict value) : option sync_op :=
  i ← text_field d "opId"; sub ← text_field d "submissionId"; form ← text_field d "formId";
  version ← int_field d "formVersion"; kind ← text_field d "kind"; dev ← text_field d "deviceId";
  counter ← int_field d "counter"; clock ← text_field d "wallClock";
  if (counter <? 0) || (version <? 1) then None
  else Some (SyncOp i sub form version kind (text_field d "path") (vget d "value") (text_field d "valueCiphertext")
               (text_field d "contentKeyId") (text_field d "nonce") dev (text_field d "actorId") (text_field d "caseId")
               counter clock).

Definition wire (i sub kind dev : string) (counter : Z) (more : list (string * value)) : odict value :=
  fold_left (fun d kv => dset d (lit kv.1) kv.2)
    ([("opId"%string, text i); ("submissionId"%string, text sub); ("formId"%string, text "census");
      ("formVersion"%string, VInt 1); ("kind"%string, text kind); ("deviceId"%string, text dev);
      ("actorId"%string, text "usr_local"); ("counter"%string, VInt counter);
      ("wallClock"%string, text "2026-09-14T08:00:00+00:00")] ++ more) [].

Definition sample_ulid (n : N) : pystr := lit "u" ++ str_Z (Z.of_N n).
Definition open_all (s : server) (i : pystr) (sb : submission) : bool := true.
Definition sample_clocks : clocks := Clocks (Date 2026 9 14) (lit "2026-09-14T08:00:00+00:00") 100.
Definition ann : identity := Identity (Some (lit "ann")) (lit "d1").

(** ** The server *)

Definition census_ir : value := document
  [ question "name" "text" []; question "age" "integer" []; question "income" "integer" [];
    container "repeat" "members" [] [question "age_m" "integer" []] ].

Definition adult_rule : rule_row :=
  RuleRow (lit "r1") (lit "p") None (lit "adults only")
    (op_expr "gte" [ref_expr "age"; lit_expr (VInt 18)]) (lit "warning") true.

Definition fresh_server : server :=
  Server [(lit "p", Project (lit "none") 1600 80 50)]
    [Environment (lit "e1") (lit "p") (lit "production")]
    [(lit "d1", Device (lit "p") (Some (lit "ann")) false 0 None None);
     (lit "d2", Device (lit "p") (Some (lit "bob")) false 0 None None);
     (lit "lost", Device (lit "p") (Some (lit "eve")) true 0 None None)]
    [ProjectKey (lit "rk") (lit "p") false]
    [FormVersion (lit "fv1") (lit "f1") (lit "p") (lit "census") 1 census_ir]
    [] [] [] [] [] [] [] [] [] [] [] [adult_rule] [] 0 0 ∅.

(** ** Batches *)

Definition first_batch : list (odict value) :=
  [ wire "o1" "s1" "set" "d1" 1 [("path"%string, text "name"); ("value"%string, text "Ada")];
    wire "o2" "s1" "set" "d1" 2 [("path"%string, text "age"); ("value"%string, VInt 12)];
    wire "o3" "s1" "repeat_add" "d1" 3 [("path"%string, text "members[i1]")];
    wire "o4" "s1" "set" "d1" 4 [("path"%string, text "income");
      ("valueCiphertext"%string, text "0A0b"); ("contentKeyId"%string, text "ck"); ("nonce"%string, text "000102030405060708090a0b")];
    wire "o5" "s1" "repeat_delete" "d1" 5 [("path"%string, text "members[i1]")];
    wire "o6" "s1" "finalize" "d1" 6 [];
    wire "o1" "s1" "set" "d1" 1 [("path"%string, text "name"); ("value"%string, text "Ada")] ].

Definition first_keys : list key_in :=
  [KeyIn (lit "ck") (lit "s1") (lit "d1") [WrappedKey [] (lit "rk") [1%N] [2%N] [3%N]]].

(** A push of the sample project's person, alone on the server. *)
Abbreviation sample_push clk who raws keys s :=
  (push str_cmp sample_ulid decode_wire open_all clk id who raws keys (Some (lit "ann")) None s) (only parsing).

Definition after_first : server :=
  Eval vm_compute in (sample_push sample_clocks (lit "d1") first_batch first_keys fresh_server).1.

Lemma first_push :
  sample_push sample_clocks (lit "d1") first_batch first_keys fresh_server =
  (after_first, inl (Response (map lit ["o1"; "o1"; "o2"; "o3"; "o4"; "o5"; "o6"]%string) [] 7)).
Proof. vm_compute. reflexivity. Qed.

(** A lost handset, a forged author, an unknown form, a key nobody has, and a
    second op under a taken counter. *)
Definition mixed_batch : list (odict value) :=
  [ wire "x1" "s2" "set" "lost" 1 [("path"%string, text "name"); ("value"%string, text "Eve")];
    wire "x2" "s2" "set" "d2" 1 [("path"%string, text "name"); ("value"%string, text "Bob"); ("actorId"%string, text "ann")];
    [(lit "opId", text "x3")];
    wire "x4" "s2" "set" "d1" 7 [("path"%string, text "income");
      ("valueCiphertext"%string, text "00"); ("contentKeyId"%string, text "nokey"); ("nonce"%string, text "000102030405060708090a0b")];
    wire "x5" "s2" "set" "d1" 8 [("path"%string, text "age"); ("value"%string, VInt 30)];
    wire "x6" "s2" "set" "d1" 8 [("path"%string, text "age"); ("value"%string, VInt 31)];
    wire "x7" "s1" "set" "d1" 9 [("path"%string, text "age"); ("value"%string, VInt 40)] ].

(** The first submission, approved by a reviewer. *)
Definition approve (i : pystr) (s : server) : server :=
  match dget (sv_submissions s) i with
  | Some sb => with_submissions (dset (sv_submissions s) i (set_status_columns sb (lit "approved") (sb_finalized_at sb) sb)) s
  | None => s
  end.

Definition approved_server : server := Eval vm_compute in approve (lit "s1") after_first.

Definition mixed_response : response :=
  Response (map lit ["x5"; "x6"]%string)
    [Rejected (Some (lit "x3")) malformed; Rejected (Some (lit "x1")) not_authorized;
     Rejected (Some (lit "x2")) not_authorized; Rejected (Some (lit "x7")) submission_closed;
     Rejected (Some (lit "x4")) unknown_content_key] 8.

Definition after_mixed : server :=
  Eval vm_compute in (sample_push sample_clocks (lit "d1") mixed_batch [] approved_server).1.

Lemma mixed_push :
  sample_push sample_clocks (lit "d1") mixed_batch [] approved_server = (after_mixed, inl mixed_response).
Proof. vm_compute. reflexivity. Qed.

(** The first submission reopened. *)
Definition reopen_batch : list (odict value) := [wire "o7" "s1" "reopen" "d1" 7 []].
Definition after_reopen : server :=
  Eval vm_compute in (sample_push sample_clocks (lit "d1") reopen_batch [] after_first).1.

Lemma reopen_push :
  sample_push sample_clocks (lit "d1") reopen_batch [] after_first = (after_reopen, inl (Response [lit "o7"] [] 8)).
Proof. vm_compute. reflexivity. Qed.

(** The row of the first submission. *)
Definition s1_of (s : server) : submission :=
  default (Submission [] [] [] None [] None [] [] None) (dget (sv_submissions s) (lit "s1")).

(** Bob's own submission beside Ann's. *)
Definition bobs_batch : list (odict value) := [wire "b1" "s3" "set" "d2" 1 [("path"%string, text "name"); ("value"%string, text "Bo")]].
Definition after_bob : server :=
  Eval vm_compute in (push str_cmp sample_ulid decode_wire open_all sample_clocks id (lit "d2") bobs_batch [] (Some (lit "bob")) None after_first).1.

(** Bob, who holds no grant, and someone of the whole organisation. *)
Definition nobodys_cases : casework :=
  Casework (Directory [] [] [] [] [] [] [(lit "p", lit "org")] [] [] [] [] 0)
    (Catalog.Catalog fresh_server [] [] [] [] [] [] [] [] [] 0) [] [] [] [].
Definition bob_alone : principal := Principal (lit "org") (lit "org.example") (lit "bob") None [lit "bob"] [] [] [].
Definition org_admin : principal := Principal (lit "org") (lit "org.example") (lit "cleo") (Some OrganizationScope) [lit "cleo"] [] [] [].
