(* ===== verification/EngineTheorems.v ===== *)
(** * The form engine below the runtime: its theorems

    Documents, compilation, expressions, text and dataset filters, each
    stated of the operations of Document, Topo, Compile, Expression, Text and
    Datasets and applied at a concrete input. *)

From S2P Require Import Prelude PyStr PyNum PyDate Value Expr Expression ExpressionFacts Text Datasets.
From S2P Require Import Document Topo Compile CompileFacts Runtime RuntimeFrame Samples.

(** ** Dataset filters *)

(** C3: where the selector's values come out text or null, the columns it
    narrows on hold text, and the filter and its conjuncts evaluate on each
    row to a boolean or null, splitting a choice filter into a selector the
    store applies and a residual the engine applies loses and adds nothing:
    over the rows of the dataset, in their order, keeping those the selector
    matches and then those the residual permits gives exactly the rows the
    whole filter permits.  (With a number for a value it does not: the store
    equates it with its digits; Findings, [selector_matches_number_as_text].) *)
Theorem selector_decomposition_exact `{PyEnv} (choices : odict value) (q : choice_query) (ctx : eval_ctx)
    (sel : odict value) (rows : list (odict value))
    (Hq : compile_choices choices = Some q) (Hfilter : truthy (vget choices "filter") = true)
    (Hsel : selector_values q ctx = Ok sel)
    (Htext : Forall (fun cv => is_str cv.2 || is_null cv.2 = true) sel)
    (Hrows : Forall (fun r => Forall (fun cv => is_str (vget r cv.1) = true) sel /\
                              decidable_row ctx (vget choices "filter") r) rows) :
  after_residual q ctx (List.filter (fun r => matches r sel) rows) =
  filterR (row_permitted ctx (vget choices "filter")) rows.
Proof. by eapply decomposed_rows. Qed.

(** Villages of a district above a population, as rows. *)
Definition village (district name : string) (people : Z) : odict value :=
  [(lit "district", text district); (lit "name", text name); (lit "people", VInt people)].
Definition villages : list (odict value) :=
  [village "north" "a" 10; village "south" "b" 20; village "north" "c" 30].
Definition village_choices : odict value :=
  vdict (obj [("kind"%string, text "dataset"); ("datasetId"%string, text "villages"); ("valueColumn"%string, text "name");
    ("filter"%string, op_expr "and" [op_expr "eq" [ref_expr "$row.district"; ref_expr "where"];
                                     op_expr "gt" [ref_expr "$row.people"; lit_expr (VInt 15)]])]).
Definition in_north : eval_ctx :=
  EvalCtx [(lit "where", text "north")] (Date 2026 9 14) [] None [] None [] None.

(** One row whose filter and conjuncts evaluate. *)
Ltac decided_row :=
  split; [apply Forall_cons_2; [vm_compute; reflexivity|apply Forall_nil_2]|];
  split; [vm_compute; reflexivity|];
  apply Forall_cons_2;
    [|apply Forall_cons_2; [|apply Forall_nil_2]];
  first [exists (Some true); vm_compute; reflexivity | exists (Some false); vm_compute; reflexivity].

Lemma selector_decomposition_exact_witness :
  exists q, compile_choices village_choices = Some q /\ cq_residual q <> None /\
    after_residual q in_north (List.filter (fun r => matches r [(lit "district", text "north")]) villages) =
    Ok [village "north" "c" 30].
Proof.
  eexists. split; [vm_compute; reflexivity|]. split; [discriminate|].
  transitivity (filterR (row_permitted in_north (vget village_choices "filter")) villages); [|vm_compute; reflexivity].
  apply (selector_decomposition_exact village_choices).
  - vm_compute. reflexivity.
  - vm_compute. reflexivity.
  - vm_compute. reflexivity.
  - repeat constructor.
  - unfold villages. apply Forall_cons_2; [decided_row|apply Forall_cons_2; [decided_row|
      apply Forall_cons_2; [decided_row|apply Forall_nil_2]]].
Defined.

(** ** Compilation *)

(** C33: in a form that compiles every field and container id is well formed
    and used once, fields, containers and repeats are registered under the ids
    of their own nodes, and the evaluation order lists the fields of the
    document, each once. *)
Theorem compiled_ids_unique `{PyEnv} (ir : value) (f : cform) (Hcompile : compile ir = Ok f) :
  NoDup (dkeys (f_fields f)) /\ NoDup (dkeys (f_repeats f)) /\
  (forall i, i ∈ dkeys (f_fields f) -> i ∉ dkeys (f_containers f)) /\
  dkeys (f_repeats f) ⊆ dkeys (f_containers f) /\
  (forall i cf, dget (f_fields f) i = Some cf -> cf_id cf = i /\ id_pattern i = true) /\
  (forall i, i ∈ dkeys (f_containers f) -> id_pattern i = true) /\
  f_topo_order f ≡ₚ dkeys (f_fields f).
Proof.
  pose proof (compile_compiled _ _ Hcompile) as Hc. pose proof (cp_form _ Hc) as Hf. destruct Hf as [H1 H2 H3 H4 H5 H6 H7].
  split_and!; try done.
  - intros i cf Hi. specialize (H7 _ _ Hi). split; [apply H7|apply H7].
  - rewrite <- H3. apply (cp_topo _ Hc).
Qed.

Lemma compiled_ids_unique_witness :
  f_topo_order household_form ≡ₚ [lit "adults"; lit "kids"; lit "size"; lit "crowded"; lit "name"; lit "age"; lit "oldest"].
Proof. apply (compiled_ids_unique household household_form household_compiles). Defined.

(** In a form that compiles every name an expression of a field reads,
    its relevance chain, its choice filter and its option labels included, is
    a field or a container of the form, and every rows list names a repeat. *)
Theorem compiled_references_closed `{PyEnv} (ir : value) (f : cform) (i : pystr) (cf : cfield)
    (Hcompile : compile ir = Ok f) (Hi : dget (f_fields f) i = Some cf) :
  field_expr_deps (f_containers f) (cf_node cf) (cf_ancestors cf) ∪
    opt_deps rows_filter_deps (cf_rows_query cf) ∪ opt_deps dataset_filter_deps (cf_choice_query cf) ⊆ cf_depends_on cf /\
  (forall dep, dep ∈ cf_depends_on cf -> base_of dep ∈ dkeys (f_fields f) \/ base_of dep ∈ dkeys (f_containers f)) /\
  (forall q, cf_rows_query cf = Some q -> rq_repeat q ∈ dkeys (f_repeats f)).
Proof.
  pose proof (compile_compiled _ _ Hcompile) as Hc. split_and!.
  - exact (fv_deps _ _ _ (fm_field _ (cp_form _ Hc) _ _ Hi)).
  - intros dep. by apply (cp_references _ Hc i).
  - intros q. by apply (cp_rows _ Hc i).
Qed.

Lemma compiled_references_closed_witness :
  exists cf, dget (f_fields household_form) (lit "oldest") = Some cf /\
    (base_of (lit "age") ∈ dkeys (f_fields household_form) \/ base_of (lit "age") ∈ dkeys (f_containers household_form)).
Proof.
  destruct (dget (f_fields household_form) (lit "oldest")) as [cf|] eqn:E; [|vm_compute in E; discriminate].
  exists cf. split; [reflexivity|].
  apply (compiled_references_closed household household_form (lit "oldest") cf household_compiles E).
  vm_compute in E. injection E as <-. apply (bool_decide_eq_true_1 (_ ∈ _)). vm_compute. reflexivity.
Defined.

(** In a form that compiles a field lies in at most one repeat, the one
    it is evaluated in, and a rows list that excludes the answering row is
    asked inside the repeat it lists. *)
Theorem compiled_one_repeat `{PyEnv} (ir : value) (f : cform) (i : pystr) (cf : cfield)
    (Hcompile : compile ir = Ok f) (Hi : dget (f_fields f) i = Some cf) :
  cf_ancestors cf ⊆ dkeys (f_containers f) /\
  match cf_repeat cf with
  | None => forall a, a ∈ cf_ancestors cf -> dhas (f_repeats f) a = false
  | Some r => forall a, a ∈ cf_ancestors cf -> dhas (f_repeats f) a = true -> a = r
  end /\
  (forall q, cf_rows_query cf = Some q -> rq_exclude_self q = true -> cf_repeat cf = Some (rq_repeat q)).
Proof.
  pose proof (fm_field _ (cp_form _ (compile_compiled _ _ Hcompile)) _ _ Hi) as Hf.
  split; [apply Hf|]. split; [|intros q Hq Hx; by apply (fv_self _ _ _ Hf)].
  pose proof (fv_one_repeat _ _ _ Hf) as Hone. rewrite (fv_repeat _ _ _ Hf).
  assert (forall a, a ∈ enclosing_repeats f (cf_ancestors cf) <-> a ∈ cf_ancestors cf /\ dhas (f_repeats f) a = true) as Hin.
  { intros a. unfold enclosing_repeats. rewrite !list_elem_of_In, filter_In. done. }
  destruct (enclosing_repeats f (cf_ancestors cf)) as [|r [|r' l]]; cbn [head]; [| |cbn in Hone; lia].
  - intros a Ha. destruct (dhas (f_repeats f) a) eqn:E; [|done]. specialize (Hin a). set_solver.
  - intros a Ha Hd. specialize (Hin a). set_solver.
Qed.

Lemma compiled_one_repeat_witness :
  exists cf, dget (f_fields household_form) (lit "age") = Some cf /\ cf_repeat cf = Some (lit "members") /\
    cf_ancestors cf ⊆ dkeys (f_containers household_form).
Proof.
  destruct (dget (f_fields household_form) (lit "age")) as [cf|] eqn:E; [|vm_compute in E; discriminate].
  exists cf. split; [reflexivity|]. split; [vm_compute in E; injection E as <-; reflexivity|].
  apply (compiled_one_repeat household household_form (lit "age") cf household_compiles E).
Defined.

(** In a form that compiles no text has a slot without an argument: in
    every language, of every label, constraint message and summary label. *)
Theorem compiled_text_filled `{PyEnv} (ir : value) (f : cform) (Hcompile : compile ir = Ok f) :
  (forall i cf, (i, cf) ∈ f_fields f -> slots_filled (cf_node cf) "label" "labelArgs" /\
     slots_filled (cf_node cf) "constraintMessage" "constraintMessageArgs") /\
  (forall i n, (i, n) ∈ f_repeats f -> slots_filled n "summaryLabel" "summaryLabelArgs").
Proof. pose proof (compile_compiled _ _ Hcompile) as Hc. split; [apply Hc|apply Hc]. Qed.

Lemma compiled_text_filled_witness :
  exists cf, dget (f_fields household_form) (lit "crowded") = Some cf /\
    slots_filled (cf_node cf) "label" "labelArgs".
Proof.
  destruct (dget (f_fields household_form) (lit "crowded")) as [cf|] eqn:E; [|vm_compute in E; discriminate].
  exists cf. split; [reflexivity|]. apply dget_Some_elem in E.
  exact (proj1 (proj1 (compiled_text_filled household household_form household_compiles) (lit "crowded") cf E)).
Defined.

(** ** Evaluation order *)

(** Both conditions leave no choice: the order is determined. *)
Lemma topological_order_unique fields deps ord ord' :
  NoDup fields -> topo_sorted fields deps ord -> lowest_first fields deps ord ->
  topo_sorted fields deps ord' -> lowest_first fields deps ord' -> ord = ord'.
Proof.
  intros Hnd [Hp Hb] Hl [Hp' Hb'] Hl'.
  assert (NoDup ord) as Hn by (by rewrite Hp). assert (NoDup ord') as Hn' by (by rewrite Hp').
  assert (length ord = length ord') as Hlen by (by rewrite Hp, Hp').
  assert (forall k, take k ord = take k ord') as Htake.
  { induction k as [|k IH]; [done|].
    destruct (ord !! k) as [p|] eqn:Ep.
    2: { apply lookup_ge_None in Ep. by rewrite !take_ge in IH |- * by lia. }
    destruct (lookup_lt_is_Some_2 ord' k) as [q Eq]; [apply lookup_lt_Some in Ep; lia|].
    rewrite (take_S_r _ _ _ Ep), (take_S_r _ _ _ Eq), IH. do 2 f_equal.
    assert (p ∈ fields) as Hpf by (rewrite <- Hp; by eapply list_elem_of_lookup_2).
    assert (q ∈ fields) as Hqf by (rewrite <- Hp'; by eapply list_elem_of_lookup_2).
    assert (forall (l : list pystr) x, NoDup l -> l !! k = Some x -> x ∉ take k l) as Hout.
    { intros l x Hl0 Hx Hin. apply list_elem_of_lookup in Hin as [j Hj]. apply lookup_take_Some in Hj as [Hj Hjk].
      pose proof (NoDup_lookup _ _ _ _ Hl0 Hx Hj). lia. }
    assert (position fields p <= position fields q)%nat as H1.
    { eapply Hl; [exact Ep|done| |]; rewrite IH; [by apply Hout|]. intros d. by apply (Hb' k). }
    assert (position fields q <= position fields p)%nat as H2.
    { eapply Hl'; [exact Eq|done| |]; rewrite <- IH; [by apply Hout|]. intros d. by apply (Hb k). }
    pose proof (position_lookup fields p Hpf) as E1. pose proof (position_lookup fields q Hqf) as E2.
    assert (position fields p = position fields q) as E by lia. rewrite E in E1. congruence. }
  specialize (Htake (length ord)). rewrite firstn_all in Htake. by rewrite Hlen, firstn_all in Htake.
Qed.

(** C35: the evaluation order of a form that compiles places every field after
    the fields it depends on, at each place takes the earliest field of the
    document among those that could go there, and is the only order that does
    both; so two engines that follow the rule evaluate in the same order. *)
Theorem compiled_topological `{PyEnv} (ir : value) (f : cform) (Hcompile : compile ir = Ok f) :
  let sorted ord := topo_sorted (f_order f) (field_deps f) ord /\ lowest_first (f_order f) (field_deps f) ord in
  sorted (f_topo_order f) /\ forall ord, sorted ord -> ord = f_topo_order f.
Proof.
  pose proof (compile_compiled _ _ Hcompile) as Hc. cbv zeta. split; [split; apply Hc|].
  intros ord [H1 H2]. apply (topological_order_unique (f_order f) (field_deps f)); try done.
  - rewrite (fm_order _ (cp_form _ Hc)). apply (cp_form _ Hc).
  - apply (cp_topo _ Hc).
  - apply (cp_lowest _ Hc).
Qed.

Lemma compiled_topological_witness :
  topo_sorted (f_order household_form) (field_deps household_form) (f_topo_order household_form).
Proof. exact (proj1 (proj1 (compiled_topological household household_form household_compiles))). Defined.

(** C36: Kahn's algorithm as the code runs it fails exactly when the fields
    have a dependency cycle, and then with a compile error; otherwise it
    returns an order (its fuel, one more than the number of fields, is
    enough). *)
Theorem topological_error_iff_cycle (fields : list pystr) (deps : pystr -> list pystr)
    (Hnd : NoDup fields) (Hdeps : forall p d, p ∈ fields -> d ∈ deps p -> d ∈ fields /\ d <> p) :
  (is_ok (topological_order fields deps) = false <-> exists C, cyclic fields deps C) /\
  (forall e, topological_order fields deps = Raise e -> is_compile_error e = true) /\
  (forall ord, topological_order fields deps = Ok ord -> topo_sorted fields deps ord).
Proof.
  split_and!.
  - split; [by apply topological_order_cyclic|]. intros [C HC].
    destruct (topological_order fields deps) as [ord|] eqn:E; [|done]. exfalso.
    apply topological_order_Ok in E as [E _]; [|done..]. by eapply cyclic_no_order.
  - intros e He. destruct (topological_order_cases fields deps Hnd Hdeps) as (result & ind & _ & [[_ E]|(_ & _ & Hall)]);
      [congruence|]. by apply Hall.
  - intros ord E. by apply topological_order_Ok in E as [E _].
Qed.

(** Two fields that read each other, and a third. *)
Definition loop_fields : list pystr := [lit "a"; lit "b"; lit "c"].
Definition loop_deps (p : pystr) : list pystr :=
  if str_eqb p "a" then [lit "b"] else if str_eqb p "b" then [lit "a"] else [].

Lemma topological_error_iff_cycle_witness : exists C, cyclic loop_fields loop_deps C.
Proof.
  apply (topological_error_iff_cycle loop_fields loop_deps).
  - apply (bool_decide_eq_true_1 (NoDup _)). vm_compute. reflexivity.
  - intros p d Hp Hd. unfold loop_fields in Hp. rewrite !elem_of_cons, elem_of_nil in Hp.
    destruct Hp as [->|[->|[->|[]]]]; vm_compute in Hd; try (by apply not_elem_of_nil in Hd);
      apply list_elem_of_singleton in Hd as ->; (split; [|discriminate]);
      apply (bool_decide_eq_true_1 (_ ∈ _)); vm_compute; reflexivity.
  - vm_compute. reflexivity.
Defined.

(** ** Documents *)

(** [check_document] accepts exactly the documents whose top-level keys
    and nodes are of the shape the compiler reads, and a compile that succeeds
    was given one. *)
Theorem document_check_decides `{PyEnv} (v : value) :
  (is_ok (check_document v) = true <-> is_document v) /\ (is_ok (compile v) = true -> is_document v).
Proof.
  split; [apply check_document_spec|]. intros Hc. apply check_document_spec. unfold compile in Hc.
  by destruct (check_document v).
Qed.

(** Whatever it is given, [check_document] either accepts it or raises a
    document error naming a place: no other exception. *)
Theorem document_check_reports (v : value) (e : exn) (Hraise : check_document v = Raise e) :
  exists reason where_, e = DocumentError reason where_.
Proof. pose proof (check_document_errors v) as H. by rewrite Hraise in H. Qed.

Lemma document_check_reports_witness :
  exists reason where_, DocumentError (lit "not_an_object") (lit "") = DocumentError reason where_.
Proof. apply (document_check_reports (VInt 3)). vm_compute. reflexivity. Defined.

(** ** Expressions *)

(** C32: an expression whose references are spelled as section 4.2 spells them
    reads nothing but what [collect_refs] says: two contexts
    that agree on the values of those fields (in every instance), on the row
    columns it names and on the clock, the metadata, the instance and the
    datasets give it the same result, exceptions included. *)
Theorem evaluation_reads_its_references `{PyEnv} (e : expr) (c1 c2 : eval_ctx)
    (Hspelled : forall p, p ∈ paths_of e -> off_form p = true \/ path_ok p = true)
    (Hids : ids_ok c1) (Hagree : ctx_agree (collect_refs e) (row_columns e) c1 c2) :
  evaluate c1 e = evaluate c2 e.
Proof. by apply evaluate_frame. Qed.

(** Two contexts that differ in a field the expression does not read. *)
Definition people_ctx (other : Z) : eval_ctx :=
  EvalCtx [(lit "members[i1].age", VInt 40); (lit "other", VInt other)] (Date 2026 9 14) [] None [] None
    [(lit "members", [lit "i1"])] None.

Lemma evaluation_reads_its_references_witness :
  evaluate (people_ctx 1) (expr_of (call_expr "max" [ref_expr "members[].age"])) =
  evaluate (people_ctx 2) (expr_of (call_expr "max" [ref_expr "members[].age"])).
Proof.
  set (e := expr_of (call_expr "max" [ref_expr "members[].age"])).
  apply evaluation_reads_its_references.
  - intros p. apply (spelled_spec (call_expr "max" [ref_expr "members[].age"])). vm_compute. reflexivity.
  - split; [discriminate|]. intros r ids Hr. unfold people_ctx in Hr. cbn [ctx_instances dget] in Hr.
    case_decide; [|discriminate]. injection Hr as <-. apply Forall_singleton.
    apply (bool_decide_eq_true_1 (_ ∉ _)). vm_compute. reflexivity.
  - assert (collect_refs e = {[ lit "age" ]}) as E
      by (apply (bool_decide_eq_true_1 (collect_refs e = _)); vm_compute; reflexivity).
    rewrite E. split; try reflexivity. intros k Hk. apply elem_of_singleton in Hk.
    unfold people_ctx. cbn [ctx_values dget]. destruct (decide (k = lit "members[i1].age")); [reflexivity|].
    destruct (decide (k = lit "other")) as [->|]; [vm_compute in Hk; discriminate|reflexivity].
Defined.

(** An expression the compiler and the arity checks accept, over answers
    of any type, never raises, except for an integer overflow; the casts and
    the functions of the math module aside ([partial_functions], [idiv]). *)
Theorem evaluation_total `{PyEnv} (ctx : eval_ctx) (e : expr)
    (Hwf : well_formed e = true) (Hrefs : forall p, p ∈ paths_of e -> is_ok (resolve_ p ctx) = true) :
  match evaluate ctx e with Ok _ => True | Raise x => overflow_only x end.
Proof. by apply evaluate_total. Qed.

Lemma paths_resolve `{PyEnv} (ctx : eval_ctx) (e : expr) :
  forallb (fun p => is_ok (resolve_ p ctx)) (elements (paths_of e)) = true ->
  forall p, p ∈ paths_of e -> is_ok (resolve_ p ctx) = true.
Proof. rewrite forallb_forall. intros Hall p Hp. apply Hall, list_elem_of_In. by apply elem_of_elements. Qed.

Lemma evaluation_total_witness :
  match evaluate (people_ctx 1) (expr_of (op_expr "div" [ref_expr "members[0].age"; lit_expr (text "x")])) with
  | Ok _ => True | Raise x => overflow_only x end.
Proof.
  set (e := expr_of (op_expr "div" [ref_expr "members[0].age"; lit_expr (text "x")])).
  apply evaluation_total; [vm_compute; reflexivity|]. apply paths_resolve. vm_compute. reflexivity.
Defined.

(** What the publish gate decides without answers is decided: a static
    expression ([is_static]; not calling [age_years] or [pulldata]) evaluates
    to its [static_value] in every context. *)
Theorem static_value_fixed `{PyEnv} (ctx : eval_ctx) (e : expr)
    (Hstatic : is_static e = true) (Hage : calls "age_years" e = false) (Hpull : calls "pulldata" e = false) :
  evaluate ctx e = static_value e.
Proof. apply is_static_spec in Hstatic as (_ & Hp & Hc). by apply static_one_value. Qed.

Lemma static_value_fixed_witness :
  evaluate (people_ctx 1) (expr_of (op_expr "gt" [lit_expr (VInt 1); lit_expr (VInt 2)])) = Ok (VBool false).
Proof.
  transitivity (static_value (expr_of (op_expr "gt" [lit_expr (VInt 1); lit_expr (VInt 2)]))); [|vm_compute; reflexivity].
  apply static_value_fixed; vm_compute; reflexivity.
Defined.

(** [and], [or] and [not] are the connectives of Kleene's three-valued
    logic, one argument at a time, any non-boolean read as unknown, and obey
    De Morgan's laws. *)
Theorem connectives_are_kleene (v : value) (vs : list value) :
  and_ [] = Some true /\ or_ [] = Some false /\
  and_ (v :: vs) = kleene_and (boolean_ v) (and_ vs) /\
  or_ (v :: vs) = kleene_or (boolean_ v) (or_ vs) /\
  not_ (of_tri (and_ vs)) = or_ (map (fun x => of_tri (not_ x)) vs) /\
  not_ (of_tri (or_ vs)) = and_ (map (fun x => of_tri (not_ x)) vs).
Proof.
  split; [done|]. split; [done|]. split; [apply and_cons|]. split; [apply or_cons|].
  unfold not_ at 1 3. rewrite !boolean_of_tri. induction vs as [|x vs [IH1 IH2]]; [done|].
  cbn [map]. rewrite !and_cons, !or_cons, <- IH1, <- IH2, !boolean_of_tri. unfold not_, kleene_or.
  split; destruct (boolean_ x) as [[]|], (and_ vs) as [[]|], (or_ vs) as [[]|]; reflexivity.
Qed.

(** Equality is null exactly when an operand is, and does not depend on
    the order of its operands. *)
Theorem equality_null_and_symmetric (a b : value) (Ha : wf_value a = true) (Hb : wf_value b = true) :
  (equal_ a b = None <-> a = VNone \/ b = VNone) /\ equal_ a b = equal_ b a.
Proof.
  split; [apply equal_null|]. unfold equal_. rewrite (orb_comm (is_null b)), (py_eq_sym b a) by done.
  destruct (is_null a || is_null b); [done|].
  replace (eqb (is_bool b) (is_bool a)) with (eqb (is_bool a) (is_bool b)) by (by destruct (is_bool a), (is_bool b)).
  destruct (negb _); [done|].
  destruct (number_ a) as [x|] eqn:Ea, (number_ b) as [y|] eqn:Eb; try (by rewrite num_eqb_sym).
  all: rewrite Nat.eqb_sym, (andb_comm (is_str b)); done.
Qed.

Lemma equality_null_and_symmetric_witness :
  equal_ (VDict [(lit "a", VInt 1); (lit "b", VNone)]) (VDict [(lit "b", VNone); (lit "a", VInt 1)]) =
  equal_ (VDict [(lit "b", VNone); (lit "a", VInt 1)]) (VDict [(lit "a", VInt 1); (lit "b", VNone)]).
Proof. apply equality_null_and_symmetric; vm_compute; reflexivity. Defined.

(** The integer operation of an operator. *)
Definition integer_op (op : operator) : option (Z -> Z -> Z) :=
  match op with OpAdd => Some Z.add | OpSub => Some Z.sub | OpMul => Some Z.mul | _ => None end.

(** Sums, differences and products of integers are exact or refused: in
    the 64-bit range the mathematical result, outside it an evaluation error,
    and no addition, subtraction or multiplication of any operands returns an
    integer outside the range. *)
Theorem arithmetic_stays_int64 (op : operator) (f : Z -> Z -> Z) (Hop : integer_op op = Some f) :
  (forall x y, eval_binary op (VInt x) (VInt y) =
     if (INT_MIN <=? f x y) && (f x y <=? INT_MAX) then Ok (VInt (f x y))
     else Raise (EvaluationError "integer overflow")) /\
  (forall a b z, eval_binary op a b = Ok (VInt z) -> INT_MIN <= z <= INT_MAX).
Proof.
  assert (forall g a b z, arith g a b = Ok (VInt z) -> INT_MIN <= z <= INT_MAX) as Hrange.
  { intros g a b z. unfold arith. destruct (number_ a), (number_ b); try done.
    destruct (g _ _) as [[z'|]|]; try done. cbn [mbind res_bind].
    destruct (Z.ltb_spec z' INT_MIN), (Z.ltb_spec INT_MAX z'); try done. intros [= <-]. lia. }
  assert (forall g x y, arith (num_op g fadd) (VInt x) (VInt y) = arith (num_op g fsub) (VInt x) (VInt y)) as _ by done.
  assert (forall g h x y, arith (num_op g h) (VInt x) (VInt y) =
     if (INT_MIN <=? g x y) && (g x y <=? INT_MAX) then Ok (VInt (g x y)) else Raise (EvaluationError "integer overflow")) as Hint.
  { intros g h x y. unfold arith. cbn [number_ num_op mbind res_bind].
    destruct (Z.ltb_spec (g x y) INT_MIN), (Z.ltb_spec INT_MAX (g x y)), (Z.leb_spec INT_MIN (g x y)),
      (Z.leb_spec (g x y) INT_MAX); try lia; done. }
  destruct op; try done; injection Hop as <-; cbn [eval_binary]; (split; [intros; apply Hint|apply Hrange]).
Qed.

Lemma arithmetic_stays_int64_witness :
  eval_binary OpAdd (VInt INT_MAX) (VInt 1) = Raise (EvaluationError "integer overflow").
Proof.
  destruct (arithmetic_stays_int64 OpAdd Z.add eq_refl) as [H _].
  transitivity (if (INT_MIN <=? INT_MAX + 1) && (INT_MAX + 1 <=? INT_MAX) then Ok (VInt (INT_MAX + 1))
                else Raise (EvaluationError "integer overflow")); [apply H|reflexivity].
Defined.

(** Adding days and taking the difference of dates are inverse: what
    [date_add_days] returns is that many days from where it started, and from
    one date the difference to another leads to it. *)
Theorem date_add_diff_inverse (a b : pystr) (n : Z) :
  (fn_date_add_days [VStr a; VInt n] = VStr b -> fn_date_diff_days [VStr b; VStr a] = VInt n) /\
  (fn_date_diff_days [VStr b; VStr a] = VInt n ->
   exists d, fromisoformat b = Some d /\ fn_date_add_days [VStr a; VInt n] = VStr (isoformat d)).
Proof.
  unfold fn_date_add_days, fn_date_diff_days. cbn [arg nth_default default date_or_none integer_ number_].
  change (arg [VStr a; VInt n] 0) with (VStr a). change (arg [VStr a; VInt n] 1) with (VInt n).
  change (arg [VStr b; VStr a] 0) with (VStr b). change (arg [VStr b; VStr a] 1) with (VStr a).
  cbn [date_or_none integer_ number_].
  destruct (fromisoformat a) as [da|] eqn:Ea; [|split; [done|by destruct (fromisoformat b)]].
  unfold date_plus, date_minus. split.
  - destruct (_ && _) eqn:Er; [|done]. intros [= <-]. apply andb_true_iff in Er as [H1%Z.leb_le H2%Z.leb_le].
    rewrite fromisoformat_isoformat by (by apply fromordinal_valid). rewrite to_from_ordinal. f_equal. lia.
  - destruct (fromisoformat b) as [db|] eqn:Eb; [|done]. intros [= <-]. exists db. split; [done|].
    pose proof (from_to_ordinal db (fromisoformat_valid _ _ Eb)) as Hdb.
    replace (toordinal da + (toordinal db - toordinal da)) with (toordinal db) by lia.
    pose proof (valid_ordinal db (fromisoformat_valid _ _ Eb)) as [H1 H2].
    rewrite (proj2 (Z.leb_le _ _) H1), (proj2 (Z.leb_le _ _) H2). cbn [andb]. by rewrite Hdb.
Qed.

(** ** Text *)

(** Rendering a template puts each argument, isolated, where its slot is
    and leaves the rest of the text as the author wrote it (with doubled
    braces single); a slot without an argument renders as nothing. *)
Theorem text_renders_slots (s t : pystr) (n : N) (values : list pystr) :
  render (Text.escape s) values = s /\
  render (Text.escape s ++ slot n ++ t) values =
    s ++ match values !! N.to_nat n with Some v => isolate v | None => [] end ++ render t values /\
  forall v, unisolate (isolate v) = v.
Proof. split; [apply render_literal|]. split; [apply render_slot|]. apply unisolate_isolate. Qed.
