(* ===== verification/RuntimeTheorems.v ===== *)
(** * The form runtime: its theorems

    Recalculation, repeat instances, screens, navigation and the export
    projection, each stated of the operations of Runtime, Screens and
    Projection and applied to a sample form. *)

From S2P Require Import Prelude PyStr PyNum PyDate Value Expr Expression ExpressionFacts Datasets.
From S2P Require Import Document Topo Compile CompileFacts Runtime RuntimeFrame Recalculate Instances.
From S2P Require Import Screens ScreenFacts Reachability Projection ProjectionFacts Samples.

(** ** The sample, once *)

Lemma household_compiled : compiled (form household_world).
Proof. exact (compile_compiled _ _ household_compiles). Qed.

Lemma household_fresh_wf : inst_wf household_fresh.
Proof. apply construct_wf. Qed.

Lemma household_answered_wf : inst_wf household_answered.
Proof.
  unfold household_answered, after.
  destruct (set_many household_world _ household_fresh) as [s r] eqn:E. cbn [fst].
  eapply (perform_sound household_world (OSet _)); [exact E|apply household_fresh_wf].
Qed.

Lemma incomes_answered_wf : inst_wf incomes_answered.
Proof.
  unfold incomes_answered, after.
  destruct (set_many incomes_world _ incomes_fresh) as [s r] eqn:E. cbn [fst].
  eapply (perform_sound incomes_world (OSet _)); [exact E|apply construct_wf].
Qed.

(** ** Recalculation *)

(** C1: in a compiled form whose references are spelled as section 4.2 spells
    them, and none of whose calculates feeds its own value or relevance or
    sums its own instances ([settling_form]), a recalculation that returns
    leaves every field, in every instance, holding the value, relevance, flags
    and errors that evaluating it again in the resulting state would give; so a
    second topological pass succeeds and changes nothing.  (A calculate that
    reads its own field compiles and never settles: Findings,
    [self_reading_calculate_never_settles].) *)
Theorem recalculation_settles `{PyEnv} (w : world) (ir : value) (s s' : inst)
    (Hcompile : compile ir = Ok (w_form w)) (Hform : settling_form w = true) (Hwf : inst_wf s)
    (Hrun : recalculate w s = (s', Ok tt)) :
  settled w s' /\ evaluate_all w s' = (s', Ok tt).
Proof.
  pose proof (compile_compiled _ _ Hcompile) as Hc. unfold recalculate in Hrun.
  apply bind_inv in Hrun as (s1 & [] & H1 & Hrun). apply bind_inv in Hrun as (s2 & [] & H2 & Hrun).
  assert (inst_wf s2) as Hwf2.
  { assert (sound_step s s2) as Hs; [|by apply Hs]. transitivity s1.
    - eapply (always_for_each sound_step); [|exact H1]. intros. apply always_resolve_rows; [apply _|].
      intros. apply sound_create.
    - eapply (always_for_each sound_step); [|exact H2]. intros. apply sound_apply_count. }
  assert (settled w s') as Hset.
  { eapply (evaluate_all_settles w Hc Hform s2); [|exact Hrun]. destruct Hwf2. by split. }
  split; [done|]. by apply (settled_pass w Hc).
Qed.

Lemma recalculation_settles_witness :
  settled household_world (recalculate household_world household_answered).1 /\
  evaluate_all household_world (recalculate household_world household_answered).1 =
    ((recalculate household_world household_answered).1, Ok tt).
Proof.
  apply (recalculation_settles household_world household household_answered).
  - exact household_compiles.
  - vm_compute. reflexivity.
  - exact household_answered_wf.
  - vm_compute. reflexivity.
Defined.

Lemma no_calculated_at `{PyEnv} (w : world) (s : inst) (k : pystr) :
  forallb (fun c => negb (calculated w c) || negb (str_eqb c.1.2 k)) (cells w s) = true ->
  forall c, c ∈ cells w s -> calculated w c = true -> c.1.2 <> k.
Proof.
  intros Hall c Hc Hcalc E. rewrite forallb_forall in Hall. apply list_elem_of_In in Hc. specialize (Hall c Hc).
  by rewrite Hcalc, E, str_eqb_refl in Hall.
Qed.

(** A topological pass writes only calculates: every answer that is not
    the value of a calculated field, in any instance, is what it was before,
    whether or not its question is still relevant. *)
Theorem pass_keeps_answers `{PyEnv} (w : world) (s s' : inst) (k : pystr)
    (Hrun : evaluate_all w s = (s', Ok tt))
    (Hk : forall c, c ∈ cells w s -> calculated w c = true -> c.1.2 <> k) :
  dget (i_values s') k = dget (i_values s) k.
Proof. apply evaluate_all_cells in Hrun. by apply (run_cells_frame w _ _ _ Hrun). Qed.

Lemma pass_keeps_answers_witness :
  dget (i_values (evaluate_all household_world household_answered).1) (lit "kids") =
  dget (i_values household_answered) (lit "kids").
Proof.
  apply (pass_keeps_answers household_world); [vm_compute; reflexivity|].
  apply no_calculated_at. vm_compute. reflexivity.
Defined.

(** ** Repeat instances *)

(** C12: whatever a respondent does to a live form (setting answers, adding
    and deleting instances, in any order, exceptions included), every repeat
    keeps its instances in creation order under distinct ids, no id above the
    counter has been handed out, and each list is a sublist of the earlier one
    followed by ids never used before: no instance is ever renumbered. *)
Theorem session_keeps_identity `{PyEnv} (w : world) (l : list operation) :
  let s0 := (construct w).1 in
  inst_wf s0 /\ inst_wf (session w l s0) /\ evolves s0 (session w l s0).
Proof.
  pose proof (construct_wf w) as H0. split; [done|]. by apply session_step.
Qed.

(** C38: a repeat with neither [countExpr] nor [rowSource] starts with
    [minInstances] instances and, whatever the respondent does, never has
    fewer than [minInstances] nor more than [maxInstances]. *)
Theorem instance_bounds_hold `{PyEnv} (w : world) (ir : value) (r : pystr) (node : odict value) (lo hi : Z)
    (s0 : inst) (l : list operation)
    (Hcompile : compile ir = Ok (w_form w)) (Hr : dget (f_repeats (form w)) r = Some node)
    (Hcount : is_null (vget node "countExpr") = true) (Hrows : is_null (vget node "rowSource") = true)
    (Hlo : dget node "minInstances" = Some (VInt lo)) (Hhi : vget node "maxInstances" = VInt hi)
    (Hle : 0 <= lo <= hi) (Hs0 : construct w = (s0, Ok tt)) :
  Z.of_nat (length (instances_of r s0)) = lo /\
  lo <= Z.of_nat (length (instances_of r (session w l s0))) <= hi.
Proof.
  pose proof (fm_repeats _ (cp_form _ (compile_compiled _ _ Hcompile))) as Hnd.
  pose proof (construct_count w r node lo hi Hnd Hr Hcount Hrows Hlo Hhi Hle s0 Hs0) as H0.
  split; [exact H0|]. pose proof (construct_wf w) as Hw. rewrite Hs0 in Hw.
  exact (session_bounds w r node lo hi Hnd Hr Hcount Hrows Hlo Hhi l s0 Hw
           (conj (Z.eq_le_incl _ _ (eq_sym H0)) (eq_ind_r (fun z => z <= hi) (proj2 Hle) H0))).
Qed.

Lemma instance_bounds_hold_witness :
  let l := [OAdd (lit "members"); OAdd (lit "members"); OAdd (lit "members"); ODelete (lit "members") 0] in
  Z.of_nat (length (instances_of (lit "members") household_fresh)) = 1 /\
  1 <= Z.of_nat (length (instances_of (lit "members") (session household_world l household_fresh))) <= 3.
Proof.
  intros l.
  apply (instance_bounds_hold household_world household (lit "members")
           (default [] (dget (f_repeats household_form) (lit "members"))) 1 3 household_fresh l).
  - exact household_compiles.
  - vm_compute. reflexivity.
  - vm_compute. reflexivity.
  - vm_compute. reflexivity.
  - vm_compute. reflexivity.
  - vm_compute. reflexivity.
  - lia.
  - vm_compute. reflexivity.
Defined.

(** Under a [countExpr], [apply_count] succeeds and leaves exactly the
    count asked for (null and negatives count as zero): the oldest instances
    stay, the trailing ones go, what is missing is appended, and no other
    repeat is touched. *)
Theorem count_expression_applied `{PyEnv} (w : world) (rid : pystr) (node : odict value) (s : inst) (z : Z)
    (Hwf : inst_wf s) (Hcount : is_null (vget node "countExpr") = false) (Hz : wanted_count w node s = Ok z) :
  exists s' fresh, apply_count w rid node s = (s', Ok tt) /\
    instances_of rid s' = take (Z.to_nat z) (instances_of rid s) ++ fresh /\
    length (instances_of rid s') = Z.to_nat z /\
    forall r, r <> rid -> instances_of r s' = instances_of r s.
Proof.
  destruct (apply_count_spec w rid node s z Hwf Hcount Hz) as (s' & fresh & H1 & _ & H2 & H3 & H4).
  exists s', fresh. by split_and!.
Qed.

Lemma count_expression_applied_witness :
  exists s' fresh,
    apply_count household_world (lit "members") [(lit "countExpr", ref_expr "size")] household_answered = (s', Ok tt) /\
    instances_of (lit "members") s' = take 3 (instances_of (lit "members") household_answered) ++ fresh /\
    length (instances_of (lit "members") s') = 3%nat /\
    forall r, r <> lit "members" -> instances_of r s' = instances_of r household_answered.
Proof.
  apply (count_expression_applied household_world (lit "members") [(lit "countExpr", ref_expr "size")]
           household_answered 3).
  - exact household_answered_wf.
  - reflexivity.
  - vm_compute. reflexivity.
Defined.

(** An instance that is gone stays gone: no later operation brings its id
    back. *)
Theorem removed_instance_never_returns `{PyEnv} (w : world) (r i : pystr) (s : inst) (o : operation) (l : list operation)
    (Hwf : inst_wf s) (Hin : i ∈ instances_of r s) (Hgone : i ∉ instances_of r (perform w o s).1) :
  i ∉ instances_of r (session w (o :: l) s).
Proof.
  cbn [session fold_left]. destruct (perform w o s) as [s1 res] eqn:E. cbn [fst] in *.
  destruct (perform_sound w o _ _ _ E Hwf) as [Hwf1 [Hser _]].
  destruct (session_step w l s1 Hwf1) as [_ [_ Hlists]]. change (fold_left _ l s1) with (session w l s1).
  destruct (Hlists r) as (kept & fresh & -> & Hk & Hf). rewrite elem_of_app. intros [Hi|Hi].
  - apply Hgone. by eapply sublist_subseteq in Hk; apply Hk.
  - rewrite Forall_forall in Hf. destruct (Hf _ Hi) as (n & Hn & Hlt).
    pose proof (iw_serial _ Hwf _ _ _ Hin Hn). lia.
Qed.

Lemma removed_instance_never_returns_witness :
  lit "i1" ∉ instances_of (lit "members")
    (session household_world [ODelete (lit "members") 0; OAdd (lit "members")]
       (session household_world [OAdd (lit "members")] household_answered)).
Proof.
  apply (removed_instance_never_returns household_world).
  - apply (session_step household_world [OAdd (lit "members")] household_answered household_answered_wf).
  - vm_compute. left.
  - apply (bool_decide_eq_true_1 (lit "i1" ∉ _)). vm_compute. reflexivity.
Defined.

(** ** Screens *)

(** The screen plan of a form that compiles asks every question that is
    not a calculate exactly once, on a screen of its own, of its field-list or
    of its repeat's instances.  (Its nodes are questions, groups and repeats,
    as the document check requires, and its questions hold no nodes.) *)
Theorem plan_asks_every_question_once `{PyEnv} (ir : value) (f : cform)
    (Hcompile : compile ir = Ok f) (Hleafy : forallb leafy (children (node_of ir)) = true) :
  askable_question_ids (build_screen_plan (children (node_of ir))) ≡ₚ answerable (children (node_of ir)).
Proof. by eapply compiled_places. Qed.

Lemma plan_asks_every_question_once_witness :
  askable_question_ids (build_screen_plan (children (node_of household))) ≡ₚ
    [lit "adults"; lit "kids"; lit "crowded"; lit "name"; lit "age"].
Proof.
  change [lit "adults"; lit "kids"; lit "crowded"; lit "name"; lit "age"] with (answerable (children (node_of household))).
  apply (plan_asks_every_question_once household household_form).
  - exact household_compiles.
  - vm_compute. reflexivity.
Defined.

(** [next_screen] returns the nearest relevant screen after the current
    one, every screen between being irrelevant, and [previous_screen] the
    nearest before it. *)
Theorem next_screen_is_nearest `{PyEnv} (w : world) (nodes : list node) (s : inst) (from j : nat)
    (Hfrom : (from <= length (pl_screens (build_screen_plan nodes)))%nat) :
  let plan := build_screen_plan nodes in
  (next_screen w plan s (Z.of_nat from) = Ok (Some j) <->
     (from < j)%nat /\ relevant_at w plan s j /\ forall i, (from < i < j)%nat -> irrelevant_at w plan s i) /\
  (previous_screen w plan s (Z.of_nat from) = Ok (Some j) <->
     (j < from)%nat /\ relevant_at w plan s j /\ forall i, (j < i < from)%nat -> irrelevant_at w plan s i).
Proof.
  intros plan. assert (indexed (pl_screens plan)) as Hi by apply build_plan_good.
  split; [by apply next_screen_least|by apply previous_screen_greatest].
Qed.

(** The plan of the sample, and its state. *)
Definition household_plan : screen_plan := build_screen_plan (children (node_of household)).

Lemma next_screen_is_nearest_witness :
  relevant_at household_world household_plan household_small 3 /\
  irrelevant_at household_world household_plan household_small 2.
Proof.
  destruct (next_screen_is_nearest household_world (children (node_of household)) household_small 1 3) as [[H1 _] _].
  - vm_compute. lia.
  - destruct H1 as (_ & Hrel & Hirr); [vm_compute; reflexivity|]. split; [exact Hrel|]. apply Hirr. lia.
Defined.

(** Going on and coming back: from a relevant screen, [previous_screen]
    of [next_screen] is the screen one left. *)
Theorem next_then_previous `{PyEnv} (w : world) (nodes : list node) (s : inst) (i j : nat) :
  let plan := build_screen_plan nodes in
  relevant_at w plan s i -> next_screen w plan s (Z.of_nat i) = Ok (Some j) ->
  previous_screen w plan s (Z.of_nat j) = Ok (Some i).
Proof.
  intros plan Hrel. assert (indexed (pl_screens plan)) as Hi by apply build_plan_good.
  apply next_previous; try done. destruct Hrel as (sc & Hsc & _). by eapply lookup_lt_Some.
Qed.

Lemma next_then_previous_witness :
  previous_screen household_world household_plan household_answered 3 = Ok (Some 2%nat).
Proof.
  apply (next_then_previous household_world (children (node_of household)) household_answered 2 3).
  - exists (FormScreen 2 QUESTIONS None (Some (lit "more")) [lit "crowded"] None). split; vm_compute; reflexivity.
  - vm_compute. reflexivity.
Defined.

(** From inside a live instance, [next_position] and [previous_position]
    always return a position: in the same instance, or its repeat screen;
    never another instance, never another top-level screen. *)
Theorem inner_moves_stay `{PyEnv} (w : world) (plan : screen_plan) (s : inst) (p p' : position) (q : option position)
    (Hp : resolve_position plan s p = Ok p') (Hin : inside p' = true)
    (Hq : next_position w plan s p = Ok q \/ previous_position w plan s p = Ok q) :
  exists q', q = Some q' /\ p_screen q' = p_screen p' /\
    (p_instance q' = p_instance p' \/ q' = at_screen (p_screen p')).
Proof. destruct Hq as [Hq|Hq]; [by eapply next_position_stays|by eapply previous_position_stays]. Qed.

Lemma inner_moves_stay_witness :
  exists q', Some (Position 3 (Some (lit "i1")) (Some 1%nat)) = Some q' /\ p_screen q' = 3%nat /\
    (p_instance q' = Some (lit "i1") \/ q' = at_screen 3).
Proof.
  apply (inner_moves_stay household_world household_plan household_answered
           (Position 3 (Some (lit "i1")) (Some 0%nat)) (Position 3 (Some (lit "i1")) (Some 0%nat))).
  - vm_compute. reflexivity.
  - reflexivity.
  - left. vm_compute. reflexivity.
Defined.

(** A form opens at what blocks it.  [first_blocking_position] returns
    nothing when the form can be finalised; a position it returns holds a
    field whose error blocks; and when a blocking field is on some screen of
    the plan (of an instance that exists, for a repeat) it returns one. *)
Theorem blocked_form_opens_at_blocker `{PyEnv} (w : world) (nodes : list node) (s : inst) :
  let plan := build_screen_plan nodes in
  (can_finalize s = true -> first_blocking_position plan s = Ok None) /\
  (forall p, first_blocking_position plan s = Ok (Some p) ->
     exists path, path ∈ blocking_fields s /\ holds plan s p path) /\
  (forall p path, path ∈ blocking_fields s -> holds plan s p path ->
     exists q, first_blocking_position plan s = Ok (Some q)).
Proof.
  intros plan. destruct (build_plan_good nodes) as [[Hi Hw] Hin].
  assert (first_blocking_position plan s =
          match blocking_fields s with [] => Ok None
          | _ => first_blocking_screen (blocking_fields s) plan s (pl_screens plan) end) as E.
  { unfold first_blocking_position. by destruct (blocking_fields s). }
  rewrite E. split_and!.
  - unfold can_finalize. by destruct (blocking_fields s).
  - intros p Hp. destruct (blocking_fields s) as [|b bs] eqn:Eb; [done|].
    eapply first_blocking_screen_holds in Hp; eauto. intros r l Hl. by apply (Hin r l).
  - intros p path Hpath (sc & Hsc & Hh).
    destruct (blocking_fields s) as [|b bs] eqn:Eb; [set_solver|]. rewrite <- Eb in *.
    eapply (first_blocking_screen_found plan s); [exact Hw| |exact Hpath].
    exists sc. split; [by eapply list_elem_of_lookup_2|].
    destruct (p_instance p) as [iid|], (p_inner p) as [k|]; try done; [right|by left].
    destruct Hh as (r & inner & q & Hr & Hid & Hk & Hq & Hpq). exists r, iid, inner, q. split_and!; try done.
    + assert (well_made sc) as Hm by (by eapply Forall_lookup_1 in Hsc).
      unfold well_made in Hm. destruct (sc_kind sc); [|done]. destruct Hm as [_ Hm]. congruence.
    + by eapply list_elem_of_lookup_2.
Qed.

Lemma blocked_form_opens_at_blocker_witness :
  exists q, first_blocking_position household_plan household_answered = Ok (Some q).
Proof.
  destruct (blocked_form_opens_at_blocker household_world (children (node_of household)) household_answered)
    as (_ & _ & Hfound).
  apply (Hfound (at_screen 2) (lit "crowded")).
  - apply (bool_decide_eq_true_1 (_ ∈ _)). vm_compute. reflexivity.
  - exists (FormScreen 2 QUESTIONS None (Some (lit "more")) [lit "crowded"] None). split; [vm_compute; reflexivity|].
    split; [reflexivity|]. apply (bool_decide_eq_true_1 (_ ∈ _)). vm_compute. reflexivity.
Defined.

(** ** Export *)

(** A submission as the server sees it: one answer missing. *)
Definition withheld (path : pystr) (s : inst) : inst := with_values (dset (i_values s) path VNone) s.

Lemma withheld_instances path s : i_instances s = i_instances (withheld path s).
Proof. reflexivity. Qed.

Lemma withheld_values (path : pystr) (s : inst) (hidden : gset pystr) :
  field_part path ∈ hidden ->
  forall k, field_part k ∉ hidden -> dget (i_values s) k = dget (i_values (withheld path s)) k.
Proof.
  intros Hp k Hk. unfold withheld. cbn [i_values with_values]. rewrite dget_dset. case_decide; [by subst|done].
Qed.

(** The fields an export names as unreadable are those whose answers
    arrived unreadable and, transitively, every calculate that reads one, and
    no others; and the calculate of any other field evaluates to the same
    value whatever the unreadable answers are. *)
Theorem hidden_closed_and_independent `{PyEnv} (w : world) (ir : value) (unreadable : list pystr) (g : pystr) (cf : cfield)
    (Hcompile : compile ir = Ok (w_form w)) (Hg : dget (f_fields (form w)) g = Some cf) :
  let hidden := unreadable_fields (form w) unreadable in
  (g ∈ hidden <-> g ∈ arrived_hidden (form w) unreadable \/ exists h, h ∈ refs_of (vget (cf_node cf) "calculate") /\ h ∈ hidden) /\
  (g ∉ hidden -> field_spelled w cf = true -> forall scope s s',
     ids_clean s -> scope_clean scope -> i_instances s = i_instances s' ->
     (forall k, field_part k ∉ hidden -> dget (i_values s) k = dget (i_values s') k) ->
     eval_in w scope (vget (cf_node cf) "calculate") s = eval_in w scope (vget (cf_node cf) "calculate") s').
Proof.
  intros hidden. pose proof (compile_compiled _ _ Hcompile) as Hc. split; [split|].
  - intros Hin. destruct (hidden_sound _ _ _ Hin) as [Ha|(cf' & Hg' & Hr)]; [by left|right].
    assert (cf' = cf) as -> by (unfold form in *; congruence). by apply reads_hidden_spec.
  - intros [Ha|Hr].
    + unfold hidden, unreadable_fields. by apply hide_fold_mono.
    + eapply hidden_closed; [exact Hc|exact Hg|]. by apply reads_hidden_spec.
  - intros Hn Hsp scope s s' H1 H2 H3 H4. by apply (readable_value_agrees w Hc unreadable g cf).
Qed.

Lemma hidden_closed_and_independent_witness :
  let cf := default (CompiledField [] [] [] ∅ [] None None None) (dget (f_fields (form incomes_world)) (lit "double")) in
  eval_in incomes_world None (vget (cf_node cf) "calculate") incomes_answered =
  eval_in incomes_world None (vget (cf_node cf) "calculate") (withheld (lit "earners[i1].income") incomes_answered).
Proof.
  intros cf.
  destruct (hidden_closed_and_independent incomes_world incomes [lit "earners[i1].income"] (lit "double") cf) as [_ Hind].
  - exact incomes_compiles.
  - vm_compute. reflexivity.
  - apply Hind.
    + apply (bool_decide_eq_true_1 (_ ∉ _)). vm_compute. reflexivity.
    + vm_compute. reflexivity.
    + exact (iw_clean _ incomes_answered_wf).
    + by intros r i.
    + apply withheld_instances.
    + apply withheld_values. apply (bool_decide_eq_true_1 (field_part _ ∈ _)). vm_compute. reflexivity.
Defined.
