(* ===== verification/SyncTheorems.v ===== *)
(** * Sync: the theorems of push and pull

    The log and the states behind it over any sequence of pushes, the verdict
    of every op, the gates, the status machine, replay, the insertion's
    fallback, and the streams a client pulls. *)

From Stdlib Require Import Sorting.Sorted.
From S2P Require Import Prelude PyStr PyJson PyNum PyDate Value Expr Expression Compile Fold Status Server.
From S2P Require Import Media DatasetKeys Quality Identity Cases Push PushFacts Pull Samples SyncSamples.

Section Sync.
Context `{PyEnv} (collate : pystr -> pystr -> comparison) (ulid : N -> pystr).
Context (decode : odict value -> option sync_op) (may_open : server -> pystr -> submission -> bool).

Abbreviation serial_push clk := (push collate ulid decode may_open clk id) (only parsing).

(** One request after another, whatever each comes to. *)
Definition serve (s : server) (rq : clocks * identity * push_request) : server :=
  (push_route collate ulid decode may_open rq.1.1 rq.1.2 rq.2 s).1.

Lemma push_inv clk batch raws keys actor pending s s' resp :
  log_inv collate s -> keys_named keys ->
  serial_push clk batch raws keys actor pending s = (s', inl resp) -> log_inv collate s'.
Proof.
  intros Hs Hk. unfold push. destruct (prepare _ _ _ _ _ _ _ _) as [p|e] eqn:Ep; [|done].
  apply prepare_spec in Ep as (l & a & Hp); [|apply Hs|done]. intros Hrun.
  eapply settle_spec in Hrun as (? & _ & _ & _ & _ & _ & _ & _ & _ & _ & _ & _ & _ & _ & Hinv); [|exact Hp].
  apply Hinv. by eapply prepared_inv.
Qed.

(** C2: whatever requests are pushed, in whatever order, and whatever each of
    them comes to (accepted, partly rejected, refused or failed), the op log
    has no two ops with the same id, device counter or key and nonce, every
    arrival number of an op or tombstone is its own and at most the sequence's,
    and exactly the submissions with ops have a stored state, which is the
    fold of their ops in counter order. *)
Theorem pushes_keep_the_log (requests : list (clocks * identity * push_request)) (s : server)
    (Hs : log_inv collate s) (Hkeys : forall rq, rq ∈ requests -> keys_named (pq_keys rq.2)) :
  let s' := fold_left serve requests s in
  log_unique (sv_ops s') /\ seq_ok s' /\ states_ok collate s'.
Proof.
  assert (log_inv collate (fold_left serve requests s)) as [? ? ? _]; [|done].
  revert s Hs. induction requests as [|rq requests IH]; intros s Hs; cbn [fold_left]; [done|].
  apply IH; [intros; apply Hkeys; by right|]. unfold serve, push_route. destruct (negb _); [done|]. unfold transact.
  destruct (push _ _ _ _ _ _ _ _ _ _ _ s) as [s1 [resp|e]] eqn:Er; cbn [fst].
  - eapply push_inv; [exact Hs| |exact Er]. apply Hkeys. by left.
  - destruct Hs as [H1 H2 H3 H4]. by split.
Qed.

(** C31: every op of a batch gets one verdict: whatever other transactions did
    meanwhile, the ids accepted and the ids rejected are together exactly the
    ids of the ops sent, duplicates and malformed ones included. *)
Theorem push_answers_every_op clk (concurrent : server -> server) batch raws keys actor pending s s' resp
    (Hs : tables_ok s) (Hkeys : keys_named keys)
    (Hpush : push collate ulid decode may_open clk concurrent batch raws keys actor pending s = (s', inl resp)) :
  answers (rp_accepted resp) (rp_rejected resp) ≡ₚ map (verdict_id decode) raws.
Proof.
  unfold push in Hpush. destruct (prepare _ _ _ _ _ _ _ _) as [p|e] eqn:Ep; [|done].
  apply prepare_spec in Ep as (l & a & Hp); [|done..].
  eapply settle_spec in Hpush as (refused & Hn & Hin & _ & _ & Hresp & _); [|exact Hp].
  pose proof (refuse_all_answers refused (sg_accepted (pl_staging p)) (sg_rejected (pl_staging p)) Hn) as Ha.
  rewrite <- Hresp in Ha. rewrite Ha; [apply (pp_answers _ _ _ _ _ _ Hp)|].
  intros i Hi%Hin. apply list_elem_of_fmap in Hi as (op & -> & Hop). by apply (pp_accepted _ _ _ _ _ _ Hp).
Qed.

(** A row that went through the gates of a push from [s] to [s']. *)
Record gates_passed (s s' : server) (op : sync_op) : Prop := {
  gp_valid : op_valid op = true;
  gp_device : exists device sb,
    dget (sv_devices s) (so_device op) = Some device /\ dv_revoked device = false /\
    dget (sv_submissions s') (so_submission op) = Some sb /\ sb_project sb = dv_project device /\
    resolve_form_version s (dv_project device) (so_form op) (so_version op) = Some (sb_form_version sb);
  gp_open : forall sb, dget (sv_submissions s) (so_submission op) = Some sb -> sb_status sb ∉ CLOSED;
  gp_key : key_held s' op
}.

Lemma prepared_gates clk batch pending raws p l a s s' resp op :
  log_unique (sv_ops s) -> prepared decode s raws p l a ->
  settle collate ulid clk batch pending p (pl_server p) = (s', inl resp) -> op ∈ l -> gates_passed s s' op.
Proof.
  intros Hu Hp Hrun Hop. pose proof (pp_gated _ _ _ _ _ _ Hp op Hop) as (d & sb & Ed & Er & Esb & Epr & Est & Ev).
  pose proof (pp_server _ _ _ _ _ _ Hp) as (s1 & (E1 & Hmono & _) & (E2 & _)).
  eapply settle_spec in Hrun as (refused & _ & _ & _ & _ & _ & _ & _ & Eck & Hsub & _); [|exact Hp].
  split.
  - by apply (pp_valid _ _ _ _ _ _ Hp).
  - specialize (Hsub (so_submission op)). rewrite Esb in Hsub. inversion Hsub as [? sb' Hw E1' Esb'|]; subst.
    destruct Hw as (Hpr & _ & Hfv & _). exists d, sb'. rewrite E2, E1 in Ed, Ev. cbn in Ed, Ev.
    split_and!; [done|done|done|by rewrite <- Hpr|]. by rewrite <- Hfv.
  - intros sb0 Hsb0%Hmono. rewrite E2 in Esb. cbn in Esb. rewrite Hsb0 in Esb. by injection Esb as ->.
  - intros k He Ek. rewrite Eck. by apply (pp_keys _ _ _ _ _ _ Hp).
Qed.

(** C20: an op is stored only past every gate: it was in the batch and well
    formed, its device is registered and not revoked, its submission belongs
    to the device's project, was not approved or rejected and is pinned to the
    form version the op names, and if it is encrypted its content key is
    stored for that submission. *)
Theorem push_is_gated clk batch raws keys actor pending s s' resp r
    (Hs : log_inv collate s) (Hkeys : keys_named keys)
    (Hpush : serial_push clk batch raws keys actor pending s = (s', inl resp)) (Hr : r ∈ sv_ops s') :
  r ∈ sv_ops s \/
  exists op a n, op ∈ in_ops (take_in decode raws) /\ r = stamp n (row_of a op) /\ gates_passed s s' op.
Proof.
  unfold push in Hpush. destruct (prepare _ _ _ _ _ _ _ _) as [p|e] eqn:Ep; [|done].
  apply prepare_spec in Ep as (l & a & Hp); [|apply Hs|done].
  pose proof (settle_serial ulid decode collate s raws p l a clk batch pending s' resp (li_unique _ _ Hs) Hp Hpush) as (Eops & _).
  rewrite Eops in Hr. apply elem_of_app in Hr as [Hr|Hr]; [by left|right].
  apply stamped_in in Hr as (r0 & n & Hr & ->). apply list_elem_of_fmap in Hr as (op & -> & Hop).
  exists op, a, n. split_and!; [|done|].
  - eapply elem_of_sublist; [apply (pp_sub _ _ _ _ _ _ Hp)|done].
  - eapply prepared_gates; [apply (li_unique _ _ Hs)|exact Hp|exact Hpush|done].
Qed.

(** What a serial push has done to the submissions there were. *)
Lemma push_work clk batch raws keys actor pending s s' resp :
  log_inv collate s -> keys_named keys ->
  serial_push clk batch raws keys actor pending s = (s', inl resp) ->
  exists l a, sv_ops s' = sv_ops s ++ stamped (sv_seq s + 1) (map (row_of a) l) /\
    (forall op, op ∈ l -> gates_passed s s' op) /\
    forall i sb, dget (sv_submissions s) i = Some sb ->
      dget (sv_submissions s') i = Some (if decide (i ∈ map so_submission l) then refolded sb (fold_of collate s' i) sb else sb).
Proof.
  intros Hs Hkeys Hpush. unfold push in Hpush. destruct (prepare _ _ _ _ _ _ _ _) as [p|e] eqn:Ep; [|done].
  apply prepare_spec in Ep as (l & a & Hp); [|apply Hs|done]. exists l, a.
  pose proof (settle_serial ulid decode collate s raws p l a clk batch pending s' resp (li_unique _ _ Hs) Hp Hpush)
    as (Eops & _ & _ & Esub).
  split; [done|]. split; [intros op Hop; eapply prepared_gates; [apply Hs|done..]|].
  intros i sb Hsb. pose proof (pp_server _ _ _ _ _ _ Hp) as (s1 & (_ & Hmono & _) & (E2 & _)).
  rewrite Esub, E2. cbn [sv_submissions with_wrapped_keys with_content_keys]. rewrite (Hmono _ _ Hsb). by case_decide.
Qed.

(** C40: on a log as pushes keep it (C2), a push that no other transaction commits under (alone on the server
    from its first read to its fold) moves a submission only as the device's
    half of the status machine: its row is what it was, but for the status the
    machine gives for the finalize or reopen its whole log folds to.  (With a
    decision committed in between it may undo it: Findings,
    [push_undoes_a_decision].) *)
Theorem push_moves_status clk batch raws keys actor pending s s' resp i sb
    (Hs : log_inv collate s) (Hkeys : keys_named keys)
    (Hpush : serial_push clk batch raws keys actor pending s = (s', inl resp))
    (Hsb : dget (sv_submissions s) i = Some sb) :
  exists sb', dget (sv_submissions s') i = Some sb' /\ same_work sb sb' /\
    (sb' = sb \/
     exists event, event ∈ DEVICE_EVENTS /\ event_for_folded (fo_status (fold_of collate s' i)) = Some event /\
       next_status (sb_status sb) event = Some (sb_status sb') /\
       sb_finalized_at sb' = fo_finalized_at (fold_of collate s' i)).
Proof.
  destruct (push_work _ _ _ _ _ _ _ _ _ Hs Hkeys Hpush) as (l & a & _ & _ & Hsub). rewrite (Hsub i sb Hsb).
  eexists. split; [done|]. case_decide; [|split; [done|by left]]. split; [by unfold refolded; destruct (moved _ _)|].
  assert (forall A `{EqDecision A} (x y : A), orm_write x y x = y) as Hw by (intros; unfold orm_write; by case_decide).
  unfold refolded, moved. destruct (event_for_folded _) as [event|] eqn:Ee.
  - destruct (next_status (sb_status sb) event) as [st|] eqn:En.
    + right. exists event. cbn [set_status_columns sb_status sb_finalized_at]. rewrite !Hw. split_and!; try done.
      revert Ee. unfold event_for_folded. destruct (fo_status _) as [f|]; [|done]. destruct (str_eqb _ _); intros [= <-];
        rewrite <- (bool_decide_eq_true (_ ∈ DEVICE_EVENTS)); done.
    + left. unfold set_status_columns. rewrite !Hw. by destruct sb.
  - left. unfold set_status_columns. rewrite !Hw. by destruct sb.
Qed.

(** A push leaves approved and rejected work alone: the submission's row,
    its ops and its stored state are what they were. *)
Theorem push_leaves_closed_work clk batch raws keys actor pending s s' resp i sb
    (Hs : log_inv collate s) (Hkeys : keys_named keys)
    (Hpush : serial_push clk batch raws keys actor pending s = (s', inl resp))
    (Hsb : dget (sv_submissions s) i = Some sb) (Hclosed : sb_status sb ∈ CLOSED) :
  dget (sv_submissions s') i = Some sb /\ rows_of collate s' i = rows_of collate s i /\
  dget (sv_states s') i = dget (sv_states s) i.
Proof.
  destruct (push_work _ _ _ _ _ _ _ _ _ Hs Hkeys Hpush) as (l & a & Eops & Hgates & Hsub).
  assert (i ∉ map so_submission l) as Hi.
  { intros (op & -> & Hop)%list_elem_of_fmap. by apply (gp_open _ _ _ (Hgates op Hop) sb). }
  assert (i ∉ map ro_submission (map (row_of a) l)) as Hi' by by rewrite map_map.
  assert (sv_ops s' = sv_ops (appended s (map (row_of a) l))) as Eo by done.
  assert (rows_of collate s' i = rows_of collate s i) as Er.
  { unfold rows_of. rewrite Eops, List.filter_app, (filter_none _ (stamped _ _)), app_nil_r; [done|].
    intros r (r0 & n & Hr & ->)%stamped_in. cbn. apply not_true_iff_false. rewrite str_eqb_eq. intros <-.
    apply Hi'. by apply list_elem_of_fmap_2. }
  split; [rewrite (Hsub i sb Hsb); by rewrite decide_False|]. split; [done|].
  assert (log_inv collate s') as Hs' by by eapply push_inv.
  rewrite (li_states _ _ Hs'), (li_states _ _ Hs), Eo.
  rewrite (state_of_ops collate (appended s (map (row_of a) l)) s' i) by done.
  rewrite state_of_untouched by done. unfold appended. cbn [sv_ops with_seq with_ops].
  rewrite map_app, (proj1 (stamped_columns _ _)).
  destruct (decide (i ∈ map ro_submission (sv_ops s))).
  - rewrite decide_True; [done|]. apply elem_of_app. by left.
  - rewrite decide_False; [done|]. by intros [?|?]%elem_of_app.
Qed.

(** Nothing but the reported backlog of one device changed. *)
Definition only_reported (device : pystr) (s s' : server) : Prop :=
  s' = with_devices (sv_devices s') s /\
  forall i, dget (sv_devices s') i = dget (sv_devices s) i \/
    i = device /\ exists d report, dget (sv_devices s) i = Some d /\
      dget (sv_devices s') i =
        Some (Device (dv_project d) (dv_user d) (dv_revoked d) (dv_last_counter d) (dv_last_sync d) (Some report)).

Lemma report_only clk batch pending s : only_reported batch s (report_pending clk (sv_devices s) batch pending s).
Proof.
  unfold report_pending. destruct pending as [n|]; [|split; [by destruct s|by left]].
  destruct (dget (sv_devices s) batch) as [d|] eqn:E; [|split; [by destruct s|by left]]. split; [done|]. intros i.
  cbn [sv_devices with_devices]. destruct (decide (batch = i)) as [<-|Hne].
  - right. split; [done|]. eexists d, _. split; [done|]. by rewrite dget_dset_eq.
  - left. by rewrite dget_dset_ne.
Qed.

(** C11: retry is safe: on a log as pushes keep it (C2), when a batch went
    through with nothing rejected, sending it again, keys and all, from any device and session, answers every op
    accepted and changes nothing on the server but the backlog the device
    reports ([pendingOps], with its time), and nothing at all where it reports
    none.  Both pushes are of people the row-level policies show the batch's
    rows, alone on the server. *)
Theorem retry_changes_nothing clk clk' batch batch' raws keys actor actor' pending pending' s s' resp
    (Hs : log_inv collate s) (Hkeys : keys_named keys)
    (Hpush : serial_push clk batch raws keys actor pending s = (s', inl resp)) (Hall : rp_rejected resp = []) :
  exists accepted s'', serial_push clk' batch' raws keys actor' pending' s' = (s'', inl (Response accepted [] (rp_cursor resp))) /\
    map Some accepted ≡ₚ map (verdict_id decode) raws /\
    only_reported batch' s' s'' /\ (pending' = None -> s'' = s').
Proof.
  pose proof (push_inv _ _ _ _ _ _ _ _ _ Hs Hkeys Hpush) as Hs'. unfold push in Hpush.
  destruct (prepare _ _ _ _ _ _ _ _) as [p|e] eqn:Ep; [|done]. pose proof Ep as Ep'.
  apply prepare_spec in Ep as (l & a & Hp); [|apply Hs|done].
  pose proof (settle_serial ulid decode collate s raws p l a clk batch pending s' resp (li_unique _ _ Hs) Hp Hpush)
    as (Eops & _ & Erej & _).
  eapply settle_spec in Hpush as (refused & _ & _ & _ & _ & _ & Ecur & _ & Eck & Hsub & _ & Hdev & _ & Epk & _); [|exact Hp].
  pose proof (pp_rejected _ _ _ _ _ _ Hp) as Hknown. rewrite <- Erej in Hknown. specialize (Hknown Hall).
  destruct (take_in_spec decode raws) as [Ta _ _ _].
  destruct (prepare_steps _ _ _ _ _ _ _ _ _ Ep') as (st & ad & Hck & Ek & Est & Hfits & Hrej); [apply Hs|].
  assert (in_rejected (take_in decode raws) = []) as Ei.
  { destruct Hrej as (r & Er). rewrite <- Erej, Hall in Er. by destruct (in_rejected _). }
  exists (in_accepted (take_in decode raws) ++ map so_id (in_ops (take_in decode raws))), (report_pending clk' (sv_devices s') batch' pending' s').
  split_and!; [| |apply report_only|by intros ->].
  - rewrite push_known.
    + rewrite Ei, Ecur. done.
    + intros op Hop. rewrite Eops, !map_app. destruct (stamped_columns (sv_seq s + 1) (map (row_of a) l)) as [_ Eids].
      assert (map row_counter (stamped (sv_seq s + 1) (map (row_of a) l)) = map op_counter l) as Ec.
      { generalize (sv_seq s + 1) as n. clear. induction l as [|op l IH]; intros n; [done|]. cbn. by rewrite IH. }
      rewrite Ec. destruct (Hknown op Hop) as [Hi|Hc]; [left; apply elem_of_app; by left|by right].
    + intros k Hk. eapply settled_later; [|by eapply admit_content_keys_settle]. rewrite <- Est. change (id (pl_server p)) with (pl_server p) in *. split.
      * by rewrite Eck.
      * split; [|apply Hs']. rewrite <- Eck. apply Hs'.
      * done.
      * done.
      * done.
    + done.
  - rewrite map_app. rewrite <- Ta. unfold answers, op_ids. rewrite Ei. cbn. rewrite app_nil_r, map_map. done.
Qed.

(** Inserting a batch in one flush, with a savepoint per op only when that
    fails, is inserting each op in its own savepoint: the same rows go in with
    the same arrival numbers and the same ops are named as refused; and a
    named op is one of the batch, the others are all stored, in order. *)
Theorem insertion_fallback_exact s rows s' refused
    (Hids : NoDup (map ro_id rows)) (Hinsert : insert_ops s rows = (s', refused)) :
  fold_left insert_saved rows (s, []) = (s', refused) /\
  (forall i, i ∈ dkeys refused -> i ∈ map ro_id rows) /\
  sv_ops s' = sv_ops s ++ stamped (sv_seq s + 1) (kept_rows refused rows) /\
  (log_unique (sv_ops s) -> log_unique (sv_ops s')).
Proof.
  pose proof (insert_ops_unique s rows) as Hu. rewrite Hinsert in Hu.
  rewrite <- insert_ops_saved, Hinsert. apply insert_ops_run in Hinsert as (-> & _ & Hin); [|done]. done.
Qed.

(** What a device pushed is what a device pulls: the wire form of a stored
    op has the op's id, submission, kind, path, value, device, counter, clock
    and key, and hex that decodes to the same ciphertext and nonce bytes. *)
Theorem relay_roundtrip op a n form (Hvalid : op_valid op = true) :
  let o := wire_op form (stamp n (row_of a op)) in
  po_id o = so_id op /\ po_submission o = so_submission op /\ po_kind o = so_kind op /\ po_path o = so_path op /\
  po_value o = so_value op /\ po_device o = so_device op /\ po_counter o = so_counter op /\
  po_wall_clock o = so_wall_clock op /\ po_content_key o = so_content_key op /\
  (po_ciphertext o ≫= fromhex) = (so_ciphertext op ≫= fromhex) /\ (po_nonce o ≫= fromhex) = (so_nonce op ≫= fromhex).
Proof.
  unfold op_valid in Hvalid. rewrite !andb_true_iff in Hvalid. destruct Hvalid as [[[[Hc Hn] _] He] Hv].
  unfold wire_op, row_of, stamp, is_encrypted, op_nonce in *. cbn in *. split_and!; try done.
  - destruct (so_ciphertext op); cbn in *; [|done]. by destruct (so_value op).
  - destruct (so_ciphertext op) as [t|]; [|done]. cbn in Hc |- *. destruct t as [|c t]; [done|].
    rewrite bool_decide_eq_false_2 by done. destruct (fromhex (c :: t)) as [b|] eqn:E; [|done]. cbn.
    apply fromhex_tohex, (fromhex_bytes _ _ E).
  - destruct (so_ciphertext op), (so_nonce op) as [t|]; cbn in *; try done.
    + destruct (fromhex t) as [b|] eqn:E; [|done]. cbn. apply fromhex_tohex, (fromhex_bytes _ _ E).
    + by destruct (so_content_key op).
    + by destruct (so_content_key op).
Qed.

End Sync.

(** C24: a client that follows the cursor while there is more, on a log that
    does not change meanwhile (its arrival numbers unique, its submissions
    pinned to versions of their own project), receives from any cursor and with any page size
    every op the row-level policies show the asking person and every tombstone
    of a project they see that arrived after it, each exactly once and in
    arrival order, and no other; after at most one page per such row, and the
    cursor it ends with leaves nothing to pull.  (What commits out of order
    meanwhile it may miss: Findings, [late_commit_is_never_pulled].) *)
Theorem pull_relays_everything (asker : principal) (w : casework) s cursor limit fuel
    (Hs : sequenced s) (Hp : pinned s) (Hlimit : (0 < limit)%nat)
    (Hfuel : (length (stream asker w s cursor) < fuel)%nat) :
  exists rows stones ops next,
    drain asker w fuel s cursor limit = Some (ops, stones, next) /\ Forall2 (relayed asker w s) rows ops /\
    (rows ≡ₚ List.filter (fun r => sees_op asker w s r && (cursor <? ro_seq r)) (sv_ops s) /\
     Sorted (fun a b => ro_seq a <= ro_seq b) rows) /\
    (stones ≡ₚ List.filter (fun t => sees_tombstone asker w t && (cursor <? ts_seq t)) (sv_tombstones s) /\
     Sorted (fun a b => ts_seq a <= ts_seq b) stones) /\
    stream asker w s next = [].
Proof.
  destruct (drain_stream asker w s cursor limit fuel Hs Hp Hlimit Hfuel) as (ops & Hd & Hall).
  destruct (stream_rows asker w s cursor Hs) as [Er Es]. rewrite Er in Hall. rewrite Es in Hd.
  eexists _, _, _, _. split; [exact Hd|]. split; [exact Hall|]. split_and!.
  - unfold rows_after, ops_seen. by rewrite sort_by_perm, filter_filter_and.
  - apply sort_by_sorted. intros a b. destruct (_ <=? _) eqn:E; lia.
  - unfold stones_after, stones_seen. by rewrite sort_by_perm, filter_filter_and.
  - apply sort_by_sorted. intros a b. destruct (_ <=? _) eqn:E; lia.
  - unfold next_cursor. destruct (last (stream asker w s cursor)) as [x|] eqn:El; [|by apply last_None in El].
    rewrite (stream_drop asker w s cursor (length (stream asker w s cursor)) x Hs); [by rewrite drop_all|]. by rewrite take_ge.
Qed.

(** ** The theorems at concrete requests *)

Lemma fresh_log : log_inv str_cmp fresh_server.
Proof.
  split.
  - split; constructor.
  - split; [constructor|]. intros n Hn. by apply not_elem_of_nil in Hn.
  - intros i. rewrite decide_False; [done|apply not_elem_of_nil].
  - split; constructor.
Qed.

Lemma named_keys keys : forallb (fun k => negb (bool_decide (ki_id k = []))) keys = true -> keys_named keys.
Proof.
  intros Hf k Hk. rewrite forallb_forall in Hf. apply list_elem_of_In in Hk. apply Hf in Hk.
  by apply negb_true_iff, bool_decide_eq_false in Hk.
Qed.

Lemma after_first_log : log_inv str_cmp after_first.
Proof.
  eapply (push_inv str_cmp sample_ulid decode_wire open_all); [apply fresh_log| |exact first_push]. by apply named_keys.
Qed.

Lemma log_submissions d s : NoDup (dkeys d) -> log_inv str_cmp s -> log_inv str_cmp (with_submissions d s).
Proof. intros Hn [H1 H2 H3 [_ H4]]. by split. Qed.

Lemma approved_log : log_inv str_cmp approved_server.
Proof.
  change approved_server with (with_submissions (sv_submissions approved_server) after_first).
  apply log_submissions; [|apply after_first_log]. apply (bool_decide_eq_true_1 (NoDup (dkeys (sv_submissions approved_server)))).
  reflexivity.
Qed.

Lemma pushes_keep_the_log_witness :
  let requests := [(sample_clocks, ann, PushRequest (lit "d1") first_batch first_keys None);
                   (sample_clocks, ann, PushRequest (lit "d1") mixed_batch [] (Some 3))] in
  let s' := fold_left (serve str_cmp sample_ulid decode_wire open_all) requests fresh_server in
  length (sv_ops s') = 8%nat /\ log_unique (sv_ops s') /\ seq_ok s' /\ states_ok str_cmp s'.
Proof.
  split; [vm_compute; reflexivity|]. apply pushes_keep_the_log; [apply fresh_log|].
  intros rq. rewrite !elem_of_cons. intros [->|[->|Hin]]; [by apply named_keys..|by apply not_elem_of_nil in Hin].
Defined.

Lemma push_answers_every_op_witness :
  answers (rp_accepted mixed_response) (rp_rejected mixed_response) ≡ₚ map (verdict_id decode_wire) mixed_batch.
Proof.
  eapply push_answers_every_op; [apply (li_tables _ _ approved_log)|by apply (named_keys [])|exact mixed_push].
Defined.

Lemma push_is_gated_witness :
  exists r, r ∈ sv_ops after_mixed /\ ro_id r = lit "x5" /\
  (r ∈ sv_ops approved_server \/ exists op a n, op ∈ in_ops (take_in decode_wire mixed_batch) /\
     r = stamp n (row_of a op) /\ gates_passed approved_server after_mixed op).
Proof.
  destruct (List.find (fun r => str_eqb (ro_id r) (lit "x5")) (sv_ops after_mixed)) as [r|] eqn:E; [|vm_compute in E; done].
  apply find_some in E as [Hin Hid]. exists r. apply list_elem_of_In in Hin. split; [done|]. split; [by apply str_eqb_eq|].
  eapply push_is_gated; [apply approved_log|by apply (named_keys [])|exact mixed_push|done].
Defined.

Lemma push_moves_status_witness :
  let sb := s1_of after_first in
  sb_status sb = lit "finalized" /\ exists sb', dget (sv_submissions after_reopen) (lit "s1") = Some sb' /\
    sb_status sb' = lit "draft" /\ same_work sb sb' /\
    (sb' = sb \/ exists event, event ∈ DEVICE_EVENTS /\
       event_for_folded (fo_status (fold_of str_cmp after_reopen (lit "s1"))) = Some event /\
       next_status (sb_status sb) event = Some (sb_status sb') /\
       sb_finalized_at sb' = fo_finalized_at (fold_of str_cmp after_reopen (lit "s1"))).
Proof.
  split; [vm_compute; reflexivity|].
  destruct (push_moves_status _ _ _ _ _ _ _ _ _ _ _ _ _ (lit "s1") (s1_of after_first) after_first_log (named_keys [] eq_refl)
    reopen_push) as (sb' & E' & Hw & Hm); [vm_compute; reflexivity|].
  exists sb'. split; [exact E'|]. split; [vm_compute in E'; injection E' as <-; reflexivity|]. by split.
Defined.

Lemma push_leaves_closed_work_witness :
  sb_status (s1_of approved_server) = lit "approved" /\
  dget (sv_submissions after_mixed) (lit "s1") = Some (s1_of approved_server) /\
  rows_of str_cmp after_mixed (lit "s1") = rows_of str_cmp approved_server (lit "s1") /\
  dget (sv_states after_mixed) (lit "s1") = dget (sv_states approved_server) (lit "s1").
Proof.
  split; [vm_compute; reflexivity|].
  apply (push_leaves_closed_work _ _ _ _ _ _ _ _ _ _ _ _ _ _ _ approved_log (named_keys [] eq_refl) mixed_push).
  - vm_compute. reflexivity.
  - apply (bool_decide_eq_true_1 (sb_status (s1_of approved_server) ∈ CLOSED)). vm_compute. reflexivity.
Defined.

Lemma retry_changes_nothing_witness :
  exists accepted, sample_push (Clocks (Date 2026 9 15) [] 200) (lit "d2") first_batch first_keys after_first =
    (after_first, inl (Response accepted [] 7)) /\ map Some accepted ≡ₚ map (verdict_id decode_wire) first_batch.
Proof.
  destruct (retry_changes_nothing str_cmp sample_ulid decode_wire open_all sample_clocks (Clocks (Date 2026 9 15) [] 200) _ (lit "d2") _ _ _
    (Some (lit "ann")) None None _ _ _ fresh_log (named_keys first_keys eq_refl) first_push eq_refl) as (accepted & s'' & E & Hp & _ & Hn).
  exists accepted. rewrite (Hn eq_refl) in E. split; [exact E|exact Hp].
Defined.

(** Two rows under the nonce of a stored op: one of them under a taken counter. *)
Definition clashing_rows : list op_row :=
  map (row_of (Some (lit "ann")))
    (in_ops (take_in decode_wire
      [ wire "y1" "s1" "set" "d1" 20 [("path"%string, text "income"); ("valueCiphertext"%string, text "0c");
          ("contentKeyId"%string, text "ck"); ("nonce"%string, text "000102030405060708090a0b")];
        wire "y2" "s1" "set" "d1" 21 [("path"%string, text "age"); ("value"%string, VInt 50)];
        wire "y3" "s1" "set" "d1" 6 [("path"%string, text "age"); ("value"%string, VInt 51)] ])).

Lemma insertion_fallback_exact_witness :
  let '(s', refused) := insert_ops after_first clashing_rows in
  refused = [(lit "y1", Some nonce_reused); (lit "y3", None)] /\
  fold_left insert_saved clashing_rows (after_first, []) = (s', refused) /\
  (forall i, i ∈ dkeys refused -> i ∈ map ro_id clashing_rows) /\
  sv_ops s' = sv_ops after_first ++ stamped (sv_seq after_first + 1) (kept_rows refused clashing_rows) /\
  (log_unique (sv_ops after_first) -> log_unique (sv_ops s')).
Proof.
  destruct (insert_ops after_first clashing_rows) as [s' refused] eqn:E. split.
  - assert ((insert_ops after_first clashing_rows).2 = [(lit "y1", Some nonce_reused); (lit "y3", None)]) as E'
      by (vm_compute; reflexivity). by rewrite E in E'.
  - apply insertion_fallback_exact; [|done]. apply (bool_decide_eq_true_1 (NoDup (map ro_id clashing_rows))). reflexivity.
Defined.

(** Bob pulls his own op and the project's tombstone, and none of Ann's ops. *)
Lemma pull_relays_everything_witness :
  length (sv_ops after_bob) = 7%nat /\
  exists ops stones next, drain bob_alone nobodys_cases 3 after_bob 0 1 = Some (ops, stones, next) /\
    map po_id ops = [lit "b1"] /\ length stones = 1%nat /\ stream bob_alone nobodys_cases after_bob next = [].
Proof.
  split; [reflexivity|].
  destruct (pull_relays_everything bob_alone nobodys_cases after_bob 0 1 3) as (rows & stones & ops & next & E & _ & _ & _ & Hnil).
  - apply (bool_decide_eq_true_1 (NoDup _)). vm_compute. reflexivity.
  - intros i sb Hsb. exists (FormVersion (lit "fv1") (lit "f1") (lit "p") (lit "census") 1 census_ir).
    assert (forallb (fun isb => str_eqb (sb_form_version isb.2) "fv1" && str_eqb (sb_project isb.2) "p") (sv_submissions after_bob) = true)
      as Hf by (vm_compute; reflexivity).
    rewrite forallb_forall in Hf. apply dget_Some_elem, list_elem_of_In, Hf in Hsb. cbn [snd] in Hsb.
    apply andb_true_iff in Hsb as [E1%str_eqb_eq E2%str_eqb_eq]. rewrite E1, E2. split; [by left|done].
  - lia.
  - apply Nat.ltb_lt. vm_compute. reflexivity.
  - exists ops, stones, next. split; [exact E|]. vm_compute in E. injection E as <- <- <-. split; [reflexivity|]. by split.
Defined.

Lemma relay_roundtrip_witness :
  exists op, validate decode_wire (wire "o4" "s1" "set" "d1" 4 [("path"%string, text "income");
      ("valueCiphertext"%string, text "0A0b"); ("contentKeyId"%string, text "ck");
      ("nonce"%string, text "000102030405060708090a0b")]) = Some op /\
    let o := wire_op (lit "census", 1) (stamp 4 (row_of None op)) in
    po_ciphertext o = Some (lit "0a0b") /\ po_id o = so_id op /\
    (po_ciphertext o ≫= fromhex) = (so_ciphertext op ≫= fromhex).
Proof.
  eexists. split; [vm_compute; reflexivity|]. cbv zeta. split; [vm_compute; reflexivity|].
  edestruct relay_roundtrip as (H1 & _ & _ & _ & _ & _ & _ & _ & _ & H2 & _); [|exact (conj H1 H2)]. vm_compute. reflexivity.
Defined.
