(* ===== verification/ServerTheorems.v ===== *)
(** * The server's cores: their theorems

    The fold of the op log, the submission status machine under any
    interleaving of its two authors, composite record keys and dataset
    versions.  What a sealed
    file is worth, what completing one decides and re-sending a chunk does;
    which rules a verdict list leaves out, and what the flags of a submission
    are after its rules ran. *)

From S2P Require Import Prelude PyStr PyJson PyNum PyDate Value Expr Expression Compile Fold Status CaseKey DatasetKeys.
From S2P Require Import Server Media MediaFacts Quality Push PushFacts Samples SyncSamples.

(** ** The fold *)

(** An op as the device writes it. *)
Definition set_op (path : string) (v : value) (seq : Z) : fold_op :=
  FoldOp (lit "set") (Some (lit path)) v false None [] seq.
Definition plain_op (kind : string) (path : option pystr) (seq : Z) : fold_op :=
  FoldOp (lit kind) path VNone false None (lit "2026-09-14") seq.

(** C21: after folding an op log, the plaintext at a path is what the last op
    that concerns the path said of it: the value it set, or nothing when it
    was unset, deleted with its instance or repeat, or set to ciphertext. *)
Theorem fold_data_last_write (ops : list fold_op) (path : pystr) :
  dget (fo_data (fold_ops ops)) path =
  match latest (fun op => says_data op path) (reverse ops) with Some v => v | None => None end.
Proof. exact (fold_ops_data ops path). Qed.

(** And the key a path is reported unreadable under is what the last op
    that concerns it said: the content key of its ciphertext, or none. *)
Theorem fold_unreadable_last_write (ops : list fold_op) (path : pystr) :
  dget (fo_unreadable (fold_ops ops)) path =
  match latest (fun op => says_unreadable op path) (reverse ops) with Some v => v | None => None end.
Proof. exact (fold_ops_unreadable ops path). Qed.

(** The folded status is the last of the finalize and reopen ops, and the
    high-water mark is the greatest server sequence number folded. *)
Theorem fold_status_last (ops : list fold_op) :
  fo_status (fold_ops ops) = latest says_status (reverse ops) /\
  0 <= fo_high_water (fold_ops ops) /\
  Forall (fun op => op_server_seq op <= fo_high_water (fold_ops ops)) ops.
Proof.
  split; [apply fold_ops_status|]. induction ops as [|op ops [IH0 IH]] using rev_ind; [done|].
  rewrite fold_ops_snoc, fold_step_high_water. split; [lia|]. apply Forall_app. split.
  - eapply Forall_impl; [exact IH|]. intros x Hx. cbv beta in *. lia.
  - apply Forall_singleton. lia.
Qed.

(** In a folded log no path is both readable and unreadable, each path
    and each repeat occurs once, and no repeat lists an instance twice. *)
Theorem fold_keeps_keys_apart (ops : list fold_op) :
  let f := fold_ops ops in
  NoDup (dkeys (fo_data f)) /\ NoDup (dkeys (fo_unreadable f)) /\ NoDup (dkeys (fo_instances f)) /\
  (forall p, p ∈ dkeys (fo_data f) -> p ∉ dkeys (fo_unreadable f)) /\
  (forall r l, dget (fo_instances f) r = Some l -> NoDup l).
Proof. destruct (fold_ops_inv ops). by split_and!. Qed.

(** ** The status machine *)

(** A submission that was approved or rejected stays so: no decision of a
    reviewer and no op of a device, in whatever order they arrive, moves it
    again. *)
Theorem closed_statuses_absorb (d d' : db) (i status : pystr)
    (Hsteps : steps d d') (Hstatus : dget (db_status d) i = Some status) (Hclosed : status ∈ CLOSED) :
  dget (db_status d') i = Some status.
Proof.
  destruct (steps_status (fun c => c = status) d d' i status) as (n & Hn & ->); try done.
  intros c n -> Hm. by apply closed_absorbs in Hm.
Qed.

Definition approved_db : db := Db [(lit "s1", lit "approved")] [] [].

Lemma closed_statuses_absorb_witness :
  dget (db_status (fold_submission approved_db (lit "s1") [plain_op "reopen" None 1])) (lit "s1") = Some (lit "approved").
Proof.
  apply (closed_statuses_absorb approved_db).
  - eapply steps_trans; [apply steps_refl|apply step_device].
  - reflexivity.
  - apply (bool_decide_eq_true_1 (_ ∈ _)). vm_compute. reflexivity.
Defined.

(** No submission is ever handed back without a reason: in every state
    reached from one where it holds, each review that rejects or asks for
    correction carries a comment that is not blank. *)
Theorem returned_work_has_reason (d d' : db) (Hsteps : steps d d') (Hd : returned_with_reason d) :
  Forall (fun r => rv_decision r ∈ RETURNS_WORK -> blank (rv_comment r) = false) (db_reviews d').
Proof. exact (steps_reason d d' Hsteps Hd). Qed.

Definition finalized_db : db := Db [(lit "s1", lit "finalized")] [] [].

Lemma returned_work_has_reason_witness :
  Forall (fun r => rv_decision r ∈ RETURNS_WORK -> blank (rv_comment r) = false)
    (db_reviews (decide_review finalized_db (lit "s1") (lit "u1") (lit "rejected") (Some (lit "no gps")) (lit "r1")).1).
Proof.
  apply (returned_work_has_reason finalized_db).
  - eapply steps_trans; [apply steps_refl|apply step_review].
  - constructor.
Defined.

(** A submission's status is always one of the six: every move of the
    machine leads to one, from every state and event, and along every
    interleaving of reviewers and devices. *)
Theorem status_known (d d' : db) (i status : pystr)
    (Hsteps : steps d d') (Hstatus : dget (db_status d) i = Some status) (Hknown : status ∈ STATUSES) :
  exists status', dget (db_status d') i = Some status' /\ status' ∈ STATUSES.
Proof.
  apply (steps_status (fun c => c ∈ STATUSES) d d' i status); try done.
  intros c n Hc [->|[e He]]; [done|]. by eapply next_status_known.
Qed.

Lemma status_known_witness :
  exists status', dget (db_status (decide_review finalized_db (lit "s1") (lit "u1") (lit "approved") None (lit "r1")).1)
    (lit "s1") = Some status' /\ status' ∈ STATUSES.
Proof.
  apply (status_known finalized_db _ (lit "s1") (lit "finalized")).
  - eapply steps_trans; [apply steps_refl|apply step_review].
  - reflexivity.
  - apply (bool_decide_eq_true_1 (_ ∈ _)). vm_compute. reflexivity.
Defined.

(** ** Composite keys and dataset versions *)

(** A composite key reads back as the parts it was made of, whatever
    characters they hold, and so two lists of parts never share a key. *)
Theorem case_key_roundtrip (p : pystr) (ps : list pystr) :
  split (compose (p :: ps)) = p :: ps /\
  forall q qs, compose (p :: ps) = compose (q :: qs) -> p :: ps = q :: qs.
Proof. split; [apply split_compose|]. intros q qs. by apply compose_inj. Qed.

(** A row has a key exactly when none of its key columns is blank, the
    key is that of its cells in column order, and a refusal names the first
    blank column. *)
Theorem case_key_of_row (row : odict value) (columns : list pystr) :
  match key_of row columns with
  | inl k => k = compose (map (fun c => cell_str (vget row c)) columns) /\
             Forall (fun c => strip (cell_str (vget row c)) <> []) columns
  | inr c => exists l1 l2, columns = l1 ++ c :: l2 /\ strip (cell_str (vget row c)) = [] /\
             Forall (fun c => strip (cell_str (vget row c)) <> []) l1
  end.
Proof.
  unfold key_of. pose proof (key_parts_spec row columns) as Hspec. destruct (key_parts row columns) as [ps|c]; [|done].
  destruct Hspec as [-> Hall]. split; [done|]. exact (proj1 (List.Forall_map _ _ _) Hall).
Qed.

(** Rows may be published under a key column exactly when every key is
    non-blank and no two are equal. *)
Theorem keys_accepted_iff (casefold : pystr -> pystr) (rows : list (odict value)) (key_column : pystr) :
  refused (check_keys casefold rows key_column) = false <->
  Forall (fun k => strip k <> []) (row_keys rows key_column) /\ NoDup (row_keys rows key_column).
Proof. apply check_keys_accepts. Qed.

(** The content address of a dataset version does not depend on the order
    of its rows. *)
Theorem version_checksum_order_free (sha256_hex : list N -> pystr) (utf8 : pystr -> list N)
    (canonical_json : odict value -> list N) (rows rows' : list (odict value)) (key_column : pystr)
    (Hperm : rows ≡ₚ rows') :
  content_address sha256_hex utf8 canonical_json rows key_column =
  content_address sha256_hex utf8 canonical_json rows' key_column.
Proof.
  unfold content_address, version_checksum, version_bytes. do 4 f_equal. apply sort_pairs_perm.
  by apply Permutation_map.
Qed.

Lemma version_checksum_order_free_witness :
  let a := [(lit "id", VStr (lit "a"))] in let b := [(lit "id", VStr (lit "b"))] in
  content_address id id (fun d => concat (map fst d)) [a; b] (lit "id") =
  content_address id id (fun d => concat (map fst d)) [b; a] (lit "id").
Proof. intros a b. apply version_checksum_order_free. apply perm_swap. Defined.

(** ** Media *)

Section Media.
Context (root : list pystr) (sha256_hex : list N -> pystr) (ulid : N -> pystr) (ttl : Z).

(** C8: from no files, however the calls of any number of uploads interleave (opening,
    resuming and re-sending, completing, refused calls and the pairing with
    ops), as long as every media id is plain (not empty, without a slash, not
    a dot or two: what [media_steps] asks of each), a file the server calls
    complete is whole: its chunks are exactly the indexes up to its count,
    each has its object, and its hash and size are those of the objects' bytes
    in order.  (The
    service does not refuse other ids, and one with dots shares another file's
    objects: Findings, [file_id_climbs].) *)
Theorem complete_files_are_whole s s' i m
    (Hnone : sv_media s = [] /\ sv_chunks s = []) (Hsteps : media_steps root sha256_hex ulid ttl s s')
    (Hm : dget (sv_media s') i = Some m) (Hcomplete : m_status m = Complete) :
  received_indexes s' i = map Z.of_nat (seq 0 (Z.to_nat (m_chunk_count m))) /\
  (forall k, (k < Z.to_nat (m_chunk_count m))%nat -> is_Some (object root s' i (Z.of_nat k))) /\
  m_hash m = Some (sha256_hex (file_content root s' i (m_chunk_count m))) /\
  m_size m = Z.of_nat (length (file_content root s' i (m_chunk_count m))).
Proof.
  destruct Hnone as [Hn Hc]. pose proof (media_steps_inv _ _ _ _ _ _ Hsteps (no_media_inv root sha256_hex s Hn Hc)) as Hinv.
  destruct (mi_sealed _ _ _ _ Hinv i m) as (Hr & parts & Hp & Hh & Hs); [done..|].
  assert (map (fun k => default [] (object root s' i (Z.of_nat k))) (seq 0 (Z.to_nat (m_chunk_count m))) = parts) as Ep.
  { rewrite <- (map_map Z.of_nat (fun k => default [] (object root s' i k))), <- Hr, map_map.
    clear Hr Hh Hs. induction Hp as [|c d l l' E _ IH]; [done|]. cbn. by rewrite E, IH. }
  unfold file_content. rewrite Ep. split_and!; [done| |done|done]. intros k Hk.
  assert (Z.of_nat k ∈ map c_index (chunks_of s' i)) as Hin.
  { rewrite Hr. apply list_elem_of_fmap_2, elem_of_seq. lia. }
  apply list_elem_of_fmap in Hin as (c & -> & Hin). apply list_elem_of_lookup in Hin as [j Hj].
  eapply Forall2_lookup_l in Hp as (d & _ & E); [|exact Hj]. by rewrite E.
Qed.

(** Completing an upload decides by what is stored: with chunks missing it
    is refused so, with a hash other than that of the stored bytes in order it
    is refused as a mismatch, and otherwise it always succeeds and reports
    that hash, the size of those bytes and the chunk count. *)
Theorem complete_decides_by_content now uid declared s u m
    (Hinv : media_inv_but root sha256_hex None s) (Hu : dget (sv_uploads s) uid = Some u) (Hnow : now < u_expires u)
    (Hm : dget (sv_media s) (u_media u) = Some m) :
  (complete root sha256_hex now uid declared s).2 = complete_outcome root sha256_hex s (u_media u) m declared.
Proof. by eapply complete_decides. Qed.

(** Sending a chunk again is safe: the second call answers as the first did
    and changes nothing. *)
Theorem chunk_resent_changes_nothing now uid k data s s1 resp
    (Hinv : media_inv_but root sha256_hex None s)
    (Hfirst : put_chunk root sha256_hex now uid k data s = (s1, inl resp)) :
  put_chunk root sha256_hex now uid k data s1 = (s1, inl resp).
Proof. by eapply put_chunk_again. Qed.
End Media.

(** ** Quality *)

Section Quality.
Context `{PyEnv}.

(** No rule is silently skipped: when the rules of a submission have been
    run, each either passed (on paths the server can all read, evaluating to
    true or to nothing) or is reported, every report is justified by what the
    rule reads and evaluates to, and the reports keep the rules' order. *)
Theorem every_rule_passes_or_is_reported rules values unreadable known today now outcomes
    (Hrun : evaluate_rules rules values unreadable known today now = Ok outcomes) :
  let ctx := rule_context values known today now in
  (forall r, r ∈ rules -> passed ctx unreadable r \/ exists o, o ∈ outcomes /\ oc_rule o = r) /\
  (forall o, o ∈ outcomes -> justified ctx unreadable o) /\ sublist (map oc_rule outcomes) rules.
Proof. cbv zeta. exact (judge_all_spec _ unreadable rules outcomes Hrun). Qed.

(** After a submission's rules ran, its open flags are exactly the reports
    of that run, each with the rule's text as it was; the flags it had before
    are kept, closed. *)
Theorem open_flags_are_todays ulid s i now outcomes :
  exists fresh, sv_flags (record ulid s i now outcomes) = map (resolve_flag i now) (sv_flags s) ++ fresh /\
    open_flags (record ulid s i now outcomes) i = fresh /\ Forall2 (flag_of i) outcomes fresh.
Proof. apply record_spec. Qed.
End Quality.

(** ** The theorems at concrete uploads and rules *)

Definition sample_root : list pystr := [lit "srv"].
Definition photo : upload_request :=
  UploadRequest (lit "m1") (lit "s1") (lit "d1") (Some (lit "o2")) None (lit "image/png") 3 1 false None [].

(** A photograph opened, sent and sealed, hashing a file to its hex. *)
Definition opened_server : server :=
  Eval vm_compute in (transact (open_session sample_ulid 3600 10 photo) after_first).1.
Definition sent_server : server :=
  Eval vm_compute in (transact (put_chunk sample_root tohex 11 (sample_ulid 3) 0 [1; 2; 3]%N) opened_server).1.
Definition sealed_server : server :=
  Eval vm_compute in (transact (complete sample_root tohex 12 (sample_ulid 3) (lit "010203")) sent_server).1.

Definition photo_row (s : server) : media :=
  default (Media [] None None None [] 0 0 None false None None Pending None) (dget (sv_media s) (lit "m1")).

Lemma photo_steps : media_steps sample_root tohex sample_ulid 3600 after_first sealed_server.
Proof.
  assert (opened_server = (transact (open_session sample_ulid 3600 10 photo) after_first).1) as E1 by (vm_compute; reflexivity).
  assert (sent_server = (transact (put_chunk sample_root tohex 11 (sample_ulid 3) 0 [1; 2; 3]%N) opened_server).1) as E2
    by (vm_compute; reflexivity).
  assert (sealed_server = (transact (complete sample_root tohex 12 (sample_ulid 3) (lit "010203")) sent_server).1) as E3
    by (vm_compute; reflexivity).
  apply (media_more _ _ _ _ _ sent_server); [|rewrite E3; apply media_complete].
  apply (media_more _ _ _ _ _ opened_server); [|rewrite E2; apply media_put].
  apply (media_more _ _ _ _ _ after_first); [apply media_done|]. rewrite E1. apply media_open.
  split_and!; apply (bool_decide_eq_true_1 _); reflexivity.
Qed.

Lemma complete_files_are_whole_witness :
  let m := photo_row sealed_server in
  m_status m = Complete /\ file_content sample_root sealed_server (lit "m1") 1 = [1; 2; 3]%N /\
  received_indexes sealed_server (lit "m1") = [0] /\
  m_hash m = Some (tohex (file_content sample_root sealed_server (lit "m1") (m_chunk_count m))) /\
  m_size m = Z.of_nat (length (file_content sample_root sealed_server (lit "m1") (m_chunk_count m))).
Proof.
  split; [vm_compute; reflexivity|]. split; [vm_compute; reflexivity|].
  edestruct (complete_files_are_whole sample_root tohex sample_ulid 3600 after_first sealed_server (lit "m1")
    (photo_row sealed_server)) as (H1 & _ & H2 & H3); [by split|apply photo_steps|vm_compute; reflexivity..|].
  split; [|by split]. exact H1.
Defined.

Lemma sent_inv : media_inv_but sample_root tohex None sent_server.
Proof.
  eapply (media_steps_inv sample_root tohex sample_ulid 3600 after_first); [|by apply no_media_inv].
  assert (sent_server = (transact (put_chunk sample_root tohex 11 (sample_ulid 3) 0 [1; 2; 3]%N) opened_server).1) as E2
    by (vm_compute; reflexivity).
  assert (opened_server = (transact (open_session sample_ulid 3600 10 photo) after_first).1) as E1 by (vm_compute; reflexivity).
  apply (media_more _ _ _ _ _ opened_server); [|rewrite E2; apply media_put].
  apply (media_more _ _ _ _ _ after_first); [apply media_done|]. rewrite E1. apply media_open.
  split_and!; apply (bool_decide_eq_true_1 _); reflexivity.
Qed.

Definition photo_upload : upload := default (Upload [] 0 0 0) (dget (sv_uploads sent_server) (sample_ulid 3)).

Lemma complete_decides_by_content_witness :
  (complete sample_root tohex 12 (sample_ulid 3) (lit "ffff") sent_server).2 =
    complete_outcome sample_root tohex sent_server (u_media photo_upload) (photo_row sent_server) (lit "ffff") /\
  complete_outcome sample_root tohex sent_server (u_media photo_upload) (photo_row sent_server) (lit "ffff") =
    inr (MediaError 422 "hash_mismatch").
Proof.
  split; [|vm_compute; reflexivity].
  apply complete_decides_by_content; [apply sent_inv|vm_compute; reflexivity..].
Defined.

Lemma chunk_resent_changes_nothing_witness :
  exists s1 resp, put_chunk sample_root tohex 11 (sample_ulid 3) 0 [1; 2; 3]%N sent_server = (s1, inl resp) /\
    put_chunk sample_root tohex 11 (sample_ulid 3) 0 [1; 2; 3]%N s1 = (s1, inl resp).
Proof.
  exists sent_server, (ChunkResponse (lit "m1") 0 3 1 1). split; [vm_compute; reflexivity|].
  apply (chunk_resent_changes_nothing _ _ _ _ _ _ sent_server); [apply sent_inv|vm_compute; reflexivity].
Defined.

(** The rule of the sample project, on an answer and on none it can read. *)
Definition sample_rule : rule := Rule (lit "r1") (lit "adults only") (rl_definition adult_rule) (lit "warning") None.

Lemma every_rule_passes_or_is_reported_witness :
  exists outcomes,
    evaluate_rules [sample_rule] [] [(lit "age", lit "ck")] [lit "age"] (Date 2026 9 14) [] = Ok outcomes /\
    map oc_detail outcomes = [Encrypted [lit "age"]] /\
    let ctx := rule_context [] [lit "age"] (Date 2026 9 14) [] in
    (forall r, r ∈ [sample_rule] -> passed ctx [(lit "age", lit "ck")] r \/ exists o, o ∈ outcomes /\ oc_rule o = r) /\
    (forall o, o ∈ outcomes -> justified ctx [(lit "age", lit "ck")] o) /\ sublist (map oc_rule outcomes) [sample_rule].
Proof.
  exists [Outcome sample_rule false (Encrypted [lit "age"])]. split; [vm_compute; reflexivity|]. split; [reflexivity|].
  apply (every_rule_passes_or_is_reported [sample_rule] [] [(lit "age", lit "ck")] [lit "age"] (Date 2026 9 14) []).
  vm_compute. reflexivity.
Defined.
