(* ===== verification/SurfaceTheorems.v ===== *)
(** * Properties of the expression surface

    Reading ([translate], [parse]), printing ([render]) and the code field's
    endpoint, which does one and then the other.  The Unicode database is any
    that satisfies [UnicodeLaws]. *)

From S2P Require Import Prelude PyStr PyNum Value Expr Expression Surface Grammar SurfaceFacts.
From S2P Require Import Printer PrinterFacts SurfaceShape.

Section Reading.
Context {env : PyEnv} {uni : UnicodeDB} {laws : UnicodeLaws}.

(** A spelling of the whole token list is what [parse_tokens] answers. *)
Lemma parse_tokens_complete end_ self_path row_scope ir e ts :
  g_or self_path row_scope ir e ts -> parse_tokens end_ self_path row_scope ir ts = Done e.
Proof.
  intros Hg. unfold parse_tokens.
  pose proof (parse_or_complete end_ self_path row_scope ir e ts Hg (S (length ts)) []) as Hp.
  rewrite app_nil_r in Hp. rewrite Hp; [done|done|lia].
Qed.

Lemma grammar_nonempty self_path row_scope ir e : ~ g_or self_path row_scope ir e [].
Proof.
  intros Hg. pose proof (parse_or_complete 0 self_path row_scope ir e [] Hg 1%nat [] I) as Hp.
  simpl in Hp. specialize (Hp ltac:(lia)). done.
Qed.

Lemma translate_complete source self_path row_scope ir e ts :
  tokenize (strip source) = Done ts -> g_or self_path row_scope ir e ts ->
  translate source self_path row_scope ir = Done e.
Proof.
  intros Ht Hg. unfold translate. destruct (strip source) as [|c r] eqn:E.
  { injection Ht as <-. by apply grammar_nonempty in Hg. }
  rewrite Ht. cbn [mbind outcome_bind]. by rewrite (parse_tokens_complete _ _ _ _ _ _ Hg).
Qed.

(** Text that spells a node, standing alone. *)
Lemma parse_spelled self_path row_scope e text :
  spells (g_or self_path row_scope true) e text -> parse text self_path row_scope = Done e.
Proof.
  intros (Hl & Hs & He). assert (strip text = text) as Hstrip by by apply strip_trimmed.
  destruct (Hl 0%nat [] I) as (used & Hg & E). rewrite app_nil_r in E.
  unfold parse. eapply translate_complete; [|exact Hg]. rewrite Hstrip. unfold tokenize. fold (tok 0 text).
  rewrite E. unfold tok. simpl. by rewrite app_nil_r.
Qed.

Lemma translate_grammar source self_path row_scope ir e :
  translate source self_path row_scope ir = Done e ->
  exists ts, tokenize (strip source) = Done ts /\ g_or self_path row_scope ir e ts.
Proof. intros E. pose proof (translate_wp source self_path row_scope ir) as Hw. by rewrite E in Hw. Qed.

Lemma translate_shaped source self_path row_scope ir e :
  translate source self_path row_scope ir = Done e -> engine_node e = true /\ normal e = e.
Proof.
  intros (ts & Ht & Hg)%translate_grammar. eapply grammar_shaped; [exact Hg|].
  pose proof (tokenize_ok (strip source)) as Hok. rewrite Ht in Hok.
  eapply Forall_impl; [exact Hok|]. by intros t (_ & ? & _).
Qed.

End Reading.

(** C4: text and nodes round trip (Form IR A.4). Every node the surface can
    express is printed, and the code field's parser reads the printed text
    back as the node, a negative literal as the negation of the positive
    one: the precedence, associativity, chains, quoting and numbers the
    printer chooses are the ones the parser reads. *)
Theorem printed_text_reads_back {env : PyEnv} {uni : UnicodeDB} {laws : UnicodeLaws} e self_path row_scope :
  surface row_scope e = true ->
  exists text, render (node_of e) = Ok text /\ parse text self_path row_scope = Done (normal e).
Proof.
  intros Hs. destruct (surface_shown self_path row_scope e Hs 0%nat ltac:(lia)) as (text & Hr & Hsp).
  exists text. split; [done|]. by apply parse_spelled.
Qed.

(** C22: the recursive-descent parser is the grammar. [translate] answers a
    node exactly when the tokens of the trimmed text spell that node: [or],
    [and] and their chains, one comparison, [+ - div mod idiv] together on
    the left, [*], a sign, and the primaries, so no spelling is refused and
    none is read two ways. *)
Theorem translate_reads_the_grammar {env : PyEnv} {uni : UnicodeDB} {laws : UnicodeLaws}
    source self_path row_scope ir e :
  translate source self_path row_scope ir = Done e <->
  exists ts, tokenize (strip source) = Done ts /\ g_or self_path row_scope ir e ts.
Proof.
  split; [apply translate_grammar|]. intros (ts & Ht & Hg). by eapply translate_complete.
Qed.

(** Reading terminates and points inside the text. Whatever the source,
    [translate] gives a node, or refuses with a caret no further than the
    end of the source as the caller holds it, or lets out one of two
    exceptions: the assertion of the number token, on a character [isdigit]
    accepts and [\d] does not, or the [ValueError] of an integer longer than
    CPython converts. *)
Theorem translate_always_answers {env : PyEnv} {uni : UnicodeDB} source self_path row_scope ir :
  match translate source self_path row_scope ir with
  | Done _ => True
  | Halted (Refused e) => forall caret, err_offset e = Some caret -> (caret <= length source)%nat
  | Halted (Crashed x) => crash_of source x
  | Halted OutOfFuel => False
  end.
Proof.
  pose proof (translate_wp source self_path row_scope ir) as Hw.
  destruct (translate source self_path row_scope ir) as [e|[e|x|]]; [done| |done|done].
  intros caret Hc. simpl in Hw. unfold caret_ok in Hw. by rewrite Hc in Hw.
Qed.

(** What the importer and the code field hand on is a node the engine
    has: every operator at its arity (chains of two or more, never [in]),
    every function one of section 4.3's, every literal a scalar and none
    negative; and decoding its JSON gives the node back. *)
Theorem translated_nodes_are_the_engines {env : PyEnv} {uni : UnicodeDB} {laws : UnicodeLaws}
    source self_path row_scope ir e :
  translate source self_path row_scope ir = Done e ->
  engine_node e = true /\ normal e = e /\ expr_of (node_of e) = e.
Proof. intros [He Hn]%translate_shaped. split_and!; [done|done|]. by apply expr_of_node_of. Qed.

(** The code field's canonical text is stable. The endpoint answers text
    it can read with the node and a canonical text, and sending that text
    answers the same node and the same text. *)
Theorem canonical_text_is_stable {env : PyEnv} {uni : UnicodeDB} {laws : UnicodeLaws}
    source self_path row_scope e :
  parse source self_path row_scope = Done e -> surface row_scope e = true ->
  exists text,
    expressions (ExpressionRequest (Some source) None self_path row_scope) =
      Ok (ExpressionResponse (Some (node_of e)) (Some text) None None) /\
    expressions (ExpressionRequest (Some text) None self_path row_scope) =
      Ok (ExpressionResponse (Some (node_of e)) (Some text) None None).
Proof.
  intros Hp Hs. destruct (translate_shaped _ _ _ _ _ Hp) as [_ Hn].
  destruct (surface_shown self_path row_scope e Hs 0%nat ltac:(lia)) as (text & Hr & Hsp).
  rewrite Hn in Hsp. pose proof (parse_spelled _ _ _ _ Hsp) as Hback. unfold render in *. exists text.
  unfold expressions. simpl. rewrite Hp, Hback. unfold render. by rewrite Hr.
Qed.

(** Half-written text is an answer, not a failure. The endpoint answers
    every text it is sent (a node, or an error with a caret inside the
    text, and then no text of its own); the only exceptions that leave it
    are the two of reading, none of printing what was read. *)
Theorem code_field_answers {env : PyEnv} {uni : UnicodeDB} {laws : UnicodeLaws} source self_path row_scope :
  match expressions (ExpressionRequest (Some source) None self_path row_scope) with
  | Ok r =>
      (resp_error r = None /\ resp_expression r <> None) \/
      (resp_error r <> None /\ resp_expression r = None /\ resp_text r = None /\
       forall caret, resp_offset r = Some caret -> (caret <= length source)%nat)
  | Raise x => crash_of source x
  end.
Proof.
  pose proof (translate_wp source self_path row_scope true) as Hw. unfold expressions. simpl. unfold parse.
  destruct (translate source self_path row_scope true) as [e|[e|x|]] eqn:E; [| |done|done].
  - pose proof (proj1 (translate_shaped _ _ _ _ _ E)) as He.
    pose proof (engine_node_safe e He 0%nat) as Hs. unfold render, reports in *.
    destruct (render_at (node_of e) 0) as [t|x]; [by left|]. rewrite Hs. by left.
  - right. split_and!; [done|done|done|]. intros caret Hc. simpl in Hw, Hc. unfold caret_ok in Hw.
    by rewrite Hc in Hw.
Qed.

(** ** Witnesses: ASCII case mapping and word characters *)

Section Witnesses.
#[local] Existing Instance ascii_env.
#[local] Existing Instance ascii_unicode.
#[local] Existing Instance ascii_laws.

Definition half : pyfloat := S754_finite false 4503599627370496 (-53).

(** A node with every level of the ladder, both nestings, a negative literal,
    a decimal, both quotes and a row's column. *)
Definition sample_node : expr :=
  EOp OpOr
    [EOp OpLt [EOp OpSub [ERef "a"; EOp OpSub [ERef "b"; ELit (VInt (-3))]];
               EOp OpMul [ELit (VFloat half); EOp OpNeg [EOp OpAdd [ERef "$row.area"; ELit (VInt 1)]]]];
     EOp OpOr [EOp OpNot [EOp OpEq [ERef "s"; ELit (VStr "it's")]]; ELit (VBool true)];
     EOp OpAnd [EOp OpSelected [ERef "m"; ELit (VStr "x")];
                EOp OpNe [ECall "coalesce" [ELit VNone; ERef "g"]; EOp OpIf [ERef "p"; ERef "q"; ELit VNone]]]].

Definition sample_text : pystr :=
  lit "${a} - (${b} - -3) < 0.5 * -(area + 1) or (not(${s} = " ++ [34%N] ++ lit "it's" ++ [34%N] ++
  lit ") or true()) or selected(${m}, 'x') and coalesce(null(), ${g}) != if(${p}, ${q}, null())".

Lemma printed_text_reads_back_witness :
  surface true sample_node = true /\ render (node_of sample_node) = Ok sample_text /\
  exists text, render (node_of sample_node) = Ok text /\
               parse text None true = Done (normal sample_node).
Proof.
  split; [vm_compute; reflexivity|]. split; [vm_compute; reflexivity|].
  apply printed_text_reads_back. vm_compute. reflexivity.
Defined.

Definition typed_text : pystr := "  ${age}+2 *3>7 and not( ${x} = 'y' ) div 2".

Definition typed_node : expr :=
  EOp OpAnd [EOp OpGt [EOp OpAdd [ERef "age"; EOp OpMul [ELit (VInt 2); ELit (VInt 3)]]; ELit (VInt 7)];
             EOp OpDiv [EOp OpNot [EOp OpEq [ERef "x"; ELit (VStr "y")]]; ELit (VInt 2)]].

Lemma translate_reads_the_grammar_witness :
  translate typed_text None false false = Done typed_node /\
  exists ts, tokenize (strip typed_text) = Done ts /\ g_or None false false typed_node ts.
Proof.
  split; [vm_compute; reflexivity|].
  apply translate_reads_the_grammar. vm_compute. reflexivity.
Defined.

Lemma translated_nodes_are_the_engines_witness :
  translate typed_text None false false = Done typed_node /\
  engine_node typed_node = true /\ normal typed_node = typed_node /\
  expr_of (node_of typed_node) = typed_node.
Proof.
  split; [vm_compute; reflexivity|].
  apply (translated_nodes_are_the_engines typed_text None false false). vm_compute. reflexivity.
Defined.

Lemma canonical_text_is_stable_witness :
  parse typed_text None false = Done typed_node /\ surface false typed_node = true /\
  exists text,
    expressions (ExpressionRequest (Some typed_text) None None false) =
      Ok (ExpressionResponse (Some (node_of typed_node)) (Some text) None None) /\
    expressions (ExpressionRequest (Some text) None None false) =
      Ok (ExpressionResponse (Some (node_of typed_node)) (Some text) None None).
Proof.
  split; [vm_compute; reflexivity|]. split; [vm_compute; reflexivity|].
  apply canonical_text_is_stable; vm_compute; reflexivity.
Defined.

Lemma code_field_answers_witness :
  match expressions (ExpressionRequest (Some (lit "${a} + ")) None None false) with
  | Ok r => resp_error r <> None
  | Raise _ => False
  end /\
  match expressions (ExpressionRequest (Some typed_text) None None false) with
  | Ok r =>
      (resp_error r = None /\ resp_expression r <> None) \/
      (resp_error r <> None /\ resp_expression r = None /\ resp_text r = None /\
       forall caret, resp_offset r = Some caret -> (caret <= length typed_text)%nat)
  | Raise x => crash_of typed_text x
  end.
Proof. split; [vm_compute; done|]. apply code_field_answers. Defined.

End Witnesses.
