(* ===== verification/CatalogSamples.v ===== *)
(** * Sample catalog

    A project that publishes a list of villages twice and a form that chooses
    from it, the requests that do so, and what they leave.  The hash and the
    encoding of the samples are the identity. *)

From S2P Require Import Prelude PyStr PyNum PyDate Value PyJson Expr Expression Compile DatasetKeys Surface.
From S2P Require Import PublishGate Server Push Samples SyncSamples Catalog Forms Entities CatalogFacts CatalogSound.

#[export] Existing Instance ascii_unicode.

Definition same_bytes (b : list N) : list N := b.

Definition sample_registry : registry :=
  Registry (map lit ["text"; "integer"; "decimal"; "date"; "select_one"; "note"]%string)
    (map lit ["inline"; "dataset"]%string)
    (map lit ["text"; "integer"; "decimal"; "date"; "select_one"; "note"; "time"]%string).

Definition village (name region label note : string) : odict value :=
  [(lit "name", text name); (lit "region", text region); (lit "label", text label); (lit "note", text note)].

Definition villages_1 : list (odict value) :=
  [village "v1" "north" "Aster" "x"; village "v2" "north" "Briar" "x"; village "v3" "south" "Cedar" "x"].

(** One renamed, one gone, one new, and one whose note no form reads. *)
Definition villages_2 : list (odict value) :=
  [village "v4" "south" "Dale" "x"; village "v1" "north" "Aster" "y"; village "v2" "north" "Bramble" "x"].

Definition register (version : Z) : value :=
  obj [("irVersion"%string, text "0.1"); ("formId"%string, text "register"); ("version"%string, VInt version);
       ("languages"%string, VList [text "en"]); ("title"%string, obj [("en"%string, text "Register")]);
       ("children"%string, VList
         [ question "region" "text" [];
           question "village" "select_one"
             [("choices"%string, obj [("kind"%string, text "dataset"); ("dataset"%string, text "villages");
                ("valueColumn"%string, text "name"); ("labelColumn"%string, obj [("en"%string, text "label")]);
                ("filter"%string, op_expr "eq" [ref_expr "$row.region"; ref_expr "region"])])];
           question "income" "integer" [("sensitive"%string, VBool true)];
           question "taxed" "text" [("sensitive"%string, VBool true);
             ("relevant"%string, op_expr "gt" [ref_expr "income"; lit_expr (VInt 9)])] ])].

Definition publish_villages (rows : list (odict value)) : request :=
  PublishDataset (PublishDatasetRequest (lit "p") (lit "villages") rows (lit "name") None None).

Definition publish_request_of (version : Z) (dataset_version : string) : publish_request :=
  PublishVersionRequest (lit "p") (register version) None (Some (lit "ann")) None None [lit "production"; lit "staging"]
    None [DatasetPin (lit "villages") (lit dataset_version)].

Definition empty_catalog : catalog := Catalog fresh_server [lit "ann"; lit "bob"] [] [] [] [] [] [] [] [] 0.

Definition first_save : save_request := SaveDraftRequest (register 3) None (Some (lit "ann")) None.
Definition save_at (r : Z) (who : string) : save_request := SaveDraftRequest (register 4) (Some r) (Some (lit who)) None.

Definition sample_requests : list (Z * request) :=
  [ (1, publish_villages villages_1);                     (* dataset u0, version u1 *)
    (2, Publish (publish_request_of 1 "u1"));             (* form u2, version u3, deployment u4 *)
    (3, Publish (publish_request_of 1 "u9"));             (* a pin to nothing: refused *)
    (4, publish_villages villages_2);
    (5, SaveDraft (lit "u2") first_save);
    (6, Publish (publish_request_of 2 "u5")) ].          (* version u6, deployment u7 *)

Abbreviation sample_serve :=
  (fold_left (serve sample_ulid same_bytes same_bytes same_bytes sample_registry)) (only parsing).
Abbreviation sample_publish now rq :=
  (publish_version sample_ulid same_bytes same_bytes sample_registry now rq) (only parsing).

Definition sample_catalog : catalog := Eval vm_compute in sample_serve sample_requests empty_catalog.

Lemma sample_catalog_served : sample_serve sample_requests empty_catalog = sample_catalog.
Proof. vm_compute. reflexivity. Qed.

Lemma empty_sound `{PyEnv} sha256_hex utf8 rg s users n :
  sound sha256_hex utf8 rg (Catalog s users [] [] [] [] [] [] [] [] n).
Proof.
  split; [split; constructor| |by intros ? ?%elem_of_nil..].
  split; simpl; [by intros ? ?%elem_of_nil..|done].
Qed.

Lemma sample_catalog_sound : sound same_bytes same_bytes sample_registry sample_catalog.
Proof. rewrite <- sample_catalog_served. apply serve_all_sound, empty_sound. Qed.

(** The rows of the catalog the witnesses name. *)
Definition villages_first : dataset_version := Eval vm_compute in
  default (DatasetVersion [] [] 0 0 [] 0) (ct_dataset_versions sample_catalog !! 0%nat).
Definition villages_second : dataset_version := Eval vm_compute in
  default (DatasetVersion [] [] 0 0 [] 0) (ct_dataset_versions sample_catalog !! 1%nat).

Definition register_form : cform := compiled_or_empty (register 1).
