(* ===== verification/ExportSamples.v ===== *)
(** * Sample export

    Two versions of a form, a submission of each with something unreadable in
    it, and the decision procedures that discharge the export theorems'
    hypotheses at them. *)

From Stdlib Require Import Sorted.
From S2P Require Import Prelude PyStr PyNum Value PyJson TextFormats Expr Expression Datasets Compile Runtime Projection Samples.
From S2P Require Import DatasetKeys Surface Printer PublishGate Server Push Catalog CatalogSamples Cells ExportPlan.
From S2P Require Import PlanFacts Statistical ExportManifest FloatText CellFacts ReadbackFacts StatisticalFacts.
From S2P Require Import ExportFacts PyDate SyncSamples Fold Forms Entities CatalogFacts CatalogSound DeltaFacts Reachability.
From S2P Require Import ExportService ExportServiceFacts.

(** ** Deciding the hypotheses *)

Section Decide.
Context {env : PyEnv} {uni : UnicodeDB}.

Definition answers_check (forms : list cform) (repeat : option pystr) (r : submission_record) (prefix : pystr) (cells : odict value)
    : bool :=
  forallb floats_ok (dvalues cells) &&
  forallb (fun f => forallb (fun i =>
    match dget (f_fields f) i with
    | Some cf => negb (bool_decide (cf_repeat cf = repeat)) || str_eqb (cf_data_type cf) "note" ||
                 is_ok (answer_reads r prefix cells i (cf_data_type cf))
    | None => true
    end) (f_order f)) forms.

Lemma answers_checked forms repeat r prefix cells :
  answers_check forms repeat r prefix cells = true -> answers_defined forms repeat r prefix cells.
Proof.
  intros [Hf Ha]%andb_true_iff. rewrite forallb_forall in Hf, Ha. split.
  - apply Forall_forall. intros v Hv. by apply Hf, list_elem_of_In.
  - intros f i cf Hin Hi Hcf Hr Hn. specialize (Ha f (proj1 (list_elem_of_In _ _) Hin)). rewrite forallb_forall in Ha.
    specialize (Ha i (proj1 (list_elem_of_In _ _) Hi)). rewrite Hcf, bool_decide_eq_true_2, str_eqb_ne in Ha by done. exact Ha.
Qed.

Definition instances_check (forms : list cform) (r : submission_record) (rl : pystr * list repeat_row) : bool :=
  bool_decide (map rr_index rl.2 = seq 0 (length rl.2)) &&
  forallb (fun row => answers_check forms (Some rl.1) r (instance_prefix rl.1 (rr_instance row)) (rr_cells row)) rl.2.

Definition record_check (forms : list cform) (r : submission_record) : bool :=
  answers_check forms None r [] (ep_top (sr_projection r)) && forallb (instances_check forms r) (ep_repeats (sr_projection r)).

Lemma seq_sorted n : forall m, StronglySorted le (seq m n).
Proof.
  induction n as [|n IH]; intros m; constructor; [apply IH|]. apply Forall_forall. intros k Hk%list_elem_of_In%in_seq. lia.
Qed.

Lemma record_checked forms r : record_check forms r = true -> record_defined forms r.
Proof.
  intros [Ht Hr]%andb_true_iff. split; [by apply answers_checked|]. intros rid. unfold instances_in.
  destruct (dget (ep_repeats (sr_projection r)) rid) as [rows|] eqn:E; cbn [from_option id].
  2:{ split; [constructor|by intros row ?%elem_of_nil]. }
  rewrite forallb_forall in Hr. specialize (Hr (rid, rows) (proj1 (list_elem_of_In _ _) (dget_Some_elem _ _ _ E))).
  apply andb_true_iff in Hr as [Hi%bool_decide_eq_true Ha]. cbn [fst snd] in *. rewrite Hi. split; [apply seq_sorted|].
  rewrite forallb_forall in Ha. intros row Hrow. apply answers_checked, Ha. by apply list_elem_of_In.
Qed.

Definition types_check (forms : list cform) : bool :=
  forallb (fun f => forallb (fun g => forallb (fun kf =>
    match dget (f_fields g) kf.1 with
    | Some cg => str_eqb (cf_data_type kf.2) (cf_data_type cg)
    | None => true
    end) (f_fields f)) forms) forms.

Lemma types_checked forms : types_check forms = true -> types_agree forms.
Proof.
  intros H f g i cf cg Hf Hg Hcf Hcg. unfold types_check in H. rewrite forallb_forall in H.
  specialize (H f (proj1 (list_elem_of_In _ _) Hf)). rewrite forallb_forall in H.
  specialize (H g (proj1 (list_elem_of_In _ _) Hg)). rewrite forallb_forall in H.
  specialize (H (i, cf) (proj1 (list_elem_of_In _ _) (dget_Some_elem _ _ _ Hcf))). cbn [fst snd] in H. rewrite Hcg in H.
  by apply str_eqb_eq in H.
Qed.

Definition plain_check (forms : list cform) : bool :=
  forallb (fun f => forallb (fun kf => bool_decide (kf.1 <> [] /\ 93%N ∉ kf.1 /\ 93%N ∉ default [] (cf_repeat kf.2))) (f_fields f)) forms.

Lemma plain_checked forms : plain_check forms = true -> plain_ids forms.
Proof.
  intros H f i cf Hf Hcf. unfold plain_check in H. rewrite forallb_forall in H.
  specialize (H f (proj1 (list_elem_of_In _ _) Hf)). rewrite forallb_forall in H.
  specialize (H (i, cf) (proj1 (list_elem_of_In _ _) (dget_Some_elem _ _ _ Hcf))). apply bool_decide_eq_true in H.
  destruct H as (? & ? & Hr). split_and!; [done..|]. intros r Hrep. cbn in Hr. by rewrite Hrep in Hr.
Qed.

Definition fit_check (tables : list table) : bool :=
  forallb (fun t => bool_decide (Forall within_limit (map cl_name (tb_columns t)) /\
                                 Forall (fun row => Forall within_limit (map csv_text row)) (tb_rows t))) tables.
End Decide.

Lemma fit_checked tables : fit_check tables = true -> fields_fit tables.
Proof.
  intros H t Ht. unfold fit_check in H. rewrite forallb_forall in H. specialize (H t (proj1 (list_elem_of_In _ _) Ht)).
  by apply bool_decide_eq_true in H.
Qed.

(** ** Characters, as ASCII has them *)

#[export] Instance ascii_chars : CharClasses := {|
  is_alnum := fun c => is_digit c || bool_decide (65 <= c <= 90 \/ 97 <= c <= 122)%N;
  is_alpha := fun c => bool_decide (65 <= c <= 90 \/ 97 <= c <= 122)%N
|}.

#[export] Instance ascii_laws : CharLaws.
Proof.
  split; [by_compute|by_compute|intros c Hc; cbn; by rewrite is_digit_ascii|].
  intros s n. change (map ascii_lower (s ++ lit "_" ++ str_nat n) = map ascii_lower s ++ lit "_" ++ str_nat n).
  rewrite !map_app. do 2 f_equal. destruct (str_N_spec (N.of_nat n)) as (_ & Hd & _). unfold str_nat.
  induction Hd as [|c r Hc _ IH]; [done|]. cbn. rewrite IH. f_equal. unfold ascii_lower. rewrite bool_decide_eq_false_2 by lia. done.
Qed.

(** ** A form in two versions *)

Definition visit (version : Z) (later : list value) : value :=
  obj [("irVersion"%string, text "0.1"); ("formId"%string, text "visit"); ("version"%string, VInt version);
       ("languages"%string, VList [text "en"]); ("title"%string, obj [("en"%string, text "Visit")]);
       ("children"%string, VList
         ([ question "name" "text" [];
            question "spot" "geopoint" [];
            question "crop" "select_one"
              [("choices"%string, obj [("kind"%string, text "inline");
                 ("items"%string, VList [obj [("value"%string, text "c1"); ("label"%string, obj [("en"%string, text "Maize")])]])])];
            container "repeat" "members" [] [ question "age" "integer" []; question "kin" "text" [] ] ] ++ later))].

Definition visit_1 : cform := compiled_or_empty (visit 1 []).
Definition visit_2 : cform := compiled_or_empty (visit 2 [question "weight" "decimal" []; question "photo" "image" []]).

Definition visits : list cform := [visit_2; visit_1].

Definition half : value := match parse_float "2.5" with Some f => VFloat f | None => VNone end.

(** A record of the first version, its name and an age unreadable. *)
Definition visit_a : submission_record :=
  SubmissionRecord "s1" "visit" 1 "received" (Some (lit "d1")) None None None None
    (ExportProjection
       [(lit "name", VNone); (lit "spot", VDict [(lit "lat", half); (lit "lon", half)]); (lit "crop", text "c1")]
       [(lit "members", [RepeatRow "members" "i1" 0 [(lit "age", VInt 3); (lit "kin", text "son, eldest")];
                         RepeatRow "members" "i2" 1 [(lit "age", VNone)]])]
       [lit "name"; lit "members[i2].age"] [] []) [(lit "crop", [(lit "c1", lit "Maize")])].

(** One of the second, with a photo. *)
Definition visit_b : submission_record :=
  SubmissionRecord "s2" "visit" 2 "approved" None None None None None
    (ExportProjection
       [(lit "name", text "Ann
Bee"); (lit "crop", VNone); (lit "weight", half);
        (lit "photo", VDict [(lit "filename", text "p.jpg"); (lit "size", VInt 120)])]
       [(lit "members", [])] [] [] []) [].

Definition visit_records : list submission_record := [visit_a; visit_b].

Definition visit_plan : column_plan := build_plan visits None.

Definition visit_tables (sh : shape) : list table :=
  match build_tables visit_plan visit_records sh "visit" with Ok ts => ts | Raise _ => [] end.

Lemma visits_compile : is_ok (compile (visit 1 [])) = true /\ map form_version_number visits = [2; 1].
Proof. by_compute. Qed.

Lemma visits_plain : plain_ids visits.
Proof. apply plain_checked. by_compute. Qed.

Lemma visits_agree : types_agree visits.
Proof. apply types_checked. by_compute. Qed.

Lemma visit_records_defined r : r ∈ visit_records -> record_defined visits r /\ sr_id r <> [].
Proof.
  intros Hr. repeat (apply elem_of_cons in Hr as [->|Hr]; [split; [apply record_checked; by_compute|done]|]).
  by apply elem_of_nil in Hr.
Qed.

Lemma visit_tables_built sh : build_tables visit_plan visit_records sh "visit" = Ok (visit_tables sh).
Proof. destruct sh; by_compute. Qed.

Lemma visit_tables_fit : fields_fit (visit_tables Long).
Proof. apply fit_checked. by_compute. Qed.

(** The wide table, its first row and the column of the name. *)
Definition visit_wide : table := Eval vm_compute in
  match visit_tables Wide with t :: _ => t | [] => Table [] Submissions [] [] end.
Definition visit_row : list cell := Eval vm_compute in match tb_rows visit_wide with row :: _ => row | [] => [] end.
Definition name_column : column := Eval vm_compute in
  match tb_columns visit_wide !! 9%nat with Some c => c | None => meta_column None [] ([], []) end.

Lemma visit_wide_table : visit_tables Wide = [visit_wide].
Proof. by_compute. Qed.

Lemma visit_instances_plain r rid row : r ∈ visit_records -> row ∈ instances_in r rid -> 93%N ∉ rr_instance row.
Proof.
  intros Hr Hrow. assert (forallb (fun r => forallb (fun rl => forallb (fun row => bool_decide (93%N ∉ rr_instance row)) rl.2)
    (ep_repeats (sr_projection r))) visit_records = true) as H by by_compute.
  rewrite forallb_forall in H. specialize (H r (proj1 (list_elem_of_In _ _) Hr)). rewrite forallb_forall in H.
  unfold instances_in in Hrow. destruct (dget (ep_repeats (sr_projection r)) rid) as [rows|] eqn:E; [|by apply elem_of_nil in Hrow].
  specialize (H (rid, rows) (proj1 (list_elem_of_In _ _) (dget_Some_elem _ _ _ E))). rewrite forallb_forall in H.
  specialize (H row (proj1 (list_elem_of_In _ _) Hrow)). by apply bool_decide_eq_true in H.
Qed.

(** ** A catalog with submissions of two versions *)

Definition field_submission (version : string) : submission :=
  Submission (lit "p") (lit "e1") (lit version) None (lit "d1") (Some (lit "ann")) (lit "received") (lit "2026-09-14") None.

Definition field_op (i sub path : string) (v : value) (counter : Z) : op_row :=
  OpRow (lit i) (lit sub) (lit "set") (Some (lit path)) (Some v) None None None (lit "d1") (Some (lit "ann")) counter
    (lit "2026-09-14T08:00:00+00:00") counter.

Definition field_server : server :=
  Server (sv_projects fresh_server) (sv_environments fresh_server) (sv_devices fresh_server) (sv_project_keys fresh_server) []
    [(lit "s1", field_submission "u3"); (lit "s2", field_submission "u6")] [] []
    [field_op "o1" "s1" "region" (text "north") 1; field_op "o2" "s1" "village" (text "v2") 2;
     field_op "o3" "s2" "region" (text "north") 3; field_op "o4" "s2" "village" (text "v2") 4]
    [] [] [] [] [] [] [] [] [] 0 0 ∅.

Definition field_catalog : catalog := Eval vm_compute in
  sample_serve sample_requests (Catalog field_server [lit "ann"; lit "bob"] [] [] [] [] [] [] [] [] 0).

Lemma field_catalog_sound : sound same_bytes same_bytes sample_registry field_catalog.
Proof.
  replace field_catalog with (sample_serve sample_requests (Catalog field_server [lit "ann"; lit "bob"] [] [] [] [] [] [] [] [] 0)) by by_compute.
  apply serve_all_sound, empty_sound.
Qed.

Definition field_request : export_request := ExportRequest (lit "register") (Some (lit "p")) None None None Long 10.

Lemma Forall2_elem {A B} (P Q : A -> B -> Prop) l k : (forall x y, x ∈ l -> P x y -> Q x y) -> Forall2 P l k -> Forall2 Q l k.
Proof.
  intros H HP. induction HP as [|x y l k Hxy _ IH]; constructor; [apply H; [by left|done]|].
  apply IH. intros x' y' Hx'. apply H. by right.
Qed.

(** What a record of it calls the village. *)
Definition village_label (r : submission_record) : option pystr := dget (default [] (dget (sr_labels r) (lit "village"))) (lit "v2").

Lemma village_labelled collate today now f row r :
  row ∈ sv_submissions (ct_server field_catalog) -> own_record collate today now field_catalog field_request f row r ->
  village_label r = Some (if str_eqb row.1 (lit "s1") then lit "Briar" else lit "Bramble").
Proof.
  intros Hrow [_ _ (v & cf & Hv & _ & Hc & _ & Hl & _)]. unfold village_label. rewrite Hl. clear Hl.
  repeat (apply elem_of_cons in Hrow as [->|Hrow];
    [vm_compute in Hv; injection Hv as <-; vm_compute in Hc; injection Hc as <-; by_compute|]).
  by apply elem_of_nil in Hrow.
Qed.
