(* ===== verification/CatalogTheorems.v ===== *)
(** * Properties of publishing, deploying and drafting

    What any sequence of requests to the forms and dataset services leaves:
    a catalog every row of which went through its gate, whose published
    content is the same for ever, and whose drafts are never overwritten by a
    stale save; and what a device is told of it.

    Last, what no published form does: let an answer that is not sensitive be
    computed, directly or through other fields, from one that is. *)

From S2P Require Import Prelude PyStr Value PyJson Expr Expression Compile DatasetKeys CaseKey.
From S2P Require Import Surface PublishGate Server Push Catalog Forms Entities CatalogFacts CatalogSound DeltaFacts.
From S2P Require Import Samples SyncSamples CatalogSamples.
From S2P Require Import Document Topo CompileFacts Screens Reachability.

Section Catalogs.
Context {env : PyEnv} (ulid : N -> pystr).
Context (sha256_hex : list N -> pystr) (utf8 : pystr -> list N) (casefold : pystr -> pystr) (rg : registry).

Abbreviation serve_all := (fold_left (serve ulid sha256_hex utf8 casefold rg)) (only parsing).
Abbreviation catalog_sound := (sound sha256_hex utf8 rg) (only parsing).

(** One version's document, by its row and its form's. *)
Lemma get_form_version_row c v f :
  unique c -> v ∈ ct_versions c -> f ∈ ct_forms c -> fm_id f = vr_form v ->
  get_form_version c (vr_id v) =
    Some (FormVersionDocument (vr_id v) (fm_key f) (vr_version v) (fm_title f) (vr_checksum v) (vr_published_at v) (vr_ir v)).
Proof.
  intros Hu Hv Hf Hfv. unfold get_form_version. rewrite (filter_unique vr_id) by (done || apply Hu). simpl.
  rewrite <- Hfv, (filter_unique fm_id) by (done || apply Hu). done.
Qed.

Lemma get_form_version_inv c i doc :
  get_form_version c i = Some doc ->
  exists v f, v ∈ ct_versions c /\ vr_id v = i /\ f ∈ ct_forms c /\ fm_id f = vr_form v.
Proof.
  unfold get_form_version. intros Hd.
  assert (doc ∈ concat (map (fun v => map (fun f => FormVersionDocument (vr_id v) (fm_key f) (vr_version v)
    (fm_title f) (vr_checksum v) (vr_published_at v) (vr_ir v))
      (List.filter (fun f => str_eqb (fm_id f) (vr_form v)) (ct_forms c)))
    (List.filter (fun v => str_eqb (vr_id v) i) (ct_versions c)))) as Hin.
  { destruct (concat _); simpl in Hd; [done|]. injection Hd as ->. by left. }
  apply list_elem_of_In, in_concat in Hin as (l & Hl & Hin). apply in_map_iff in Hl as (v & <- & Hv).
  apply in_map_iff in Hin as (f & _ & Hf). apply filter_In in Hv as [Hv ?%str_eqb_eq], Hf as [Hf ?%str_eqb_eq].
  exists v, f. split_and!; try done; by apply list_elem_of_In.
Qed.

Lemma version_of_submission_kept c c' s v :
  unique c -> kept c c' -> version_of_submission c s = Some v -> version_of_submission c' s = Some v.
Proof.
  intros Hu Hk. unfold version_of_submission. rewrite (ex_server _ _ (st_extends _ _ (kp_steps _ _ Hk))).
  intros (sb & Hsb & Hv)%bind_Some. rewrite Hsb. simpl. apply (find_key vr_id) in Hv as [Hv Hi].
  rewrite <- Hi. apply (find_unique vr_id); [by apply Hk|]. eapply prefix_elem; [apply Hk|done].
Qed.

(** C9: every catalog reached by requests is one the gates let in. Whatever
    is created, published, drafted or uploaded, in any order and whatever
    each request comes to: the constraints hold; every form version passed
    every check that blocks publication, carries its document's checksum,
    and has exactly one pin for each dataset key its choice lists name, to a
    version of that dataset in its own project (a dataset only [pulldata]
    names gets none: Findings, [pulldata_dataset_is_not_pinned]); no
    deployment leaves its
    project; and every dataset version has the rows its count and content
    address say, under distinct keys that are not blank. *)
Theorem catalog_stays_sound (requests : list (Z * request)) (c : catalog) (Hc : catalog_sound c) :
  catalog_sound (serve_all requests c).
Proof. by apply serve_all_sound. Qed.

(** C19: published content never changes. After any requests, the document
    behind a version's id is the one it was, so are its pins and every page
    of a dataset version's rows; the form a submission was collected under
    and the rows it chose from are still those. *)
Theorem published_content_never_changes (requests : list (Z * request)) (c : catalog) (Hc : unique c) :
  let c' := serve_all requests c in
  (forall i doc, get_form_version c i = Some doc ->
     get_form_version c' i = Some doc /\ stored_dataset_pins c' i = stored_dataset_pins c i) /\
  (forall x cursor limit, has_version c x = true ->
     dataset_rows_page c' x cursor limit = dataset_rows_page c x cursor limit) /\
  (forall s v, version_of_submission c s = Some v ->
     compiled_form_for_submission c' s = compiled_form_for_submission c s).
Proof.
  intros c'. pose proof (serve_all_kept ulid sha256_hex utf8 casefold rg requests c) as Hk. fold c' in Hk.
  assert (unique c') as Hc' by by apply Hk. split_and!.
  - intros i doc Hd. destruct (get_form_version_inv _ _ _ Hd) as (v & f & Hv & <- & Hf & Hfv).
    rewrite (get_form_version_row c v f) in Hd by done. injection Hd as <-. split.
    + apply get_form_version_row; [done| | |done]; (eapply prefix_elem; [apply Hk|done]).
    + unfold stored_dataset_pins. fold (pins_of c' (vr_id v)) (pins_of c (vr_id v)).
      by rewrite (kp_pins _ _ Hk) by by apply elem_map.
  - intros x cursor limit Hx. apply bool_decide_eq_true in Hx. unfold dataset_rows_page, has_version, rows_of.
    fold (records_of c' x) (records_of c x). rewrite (kp_records _ _ Hk) by done.
    rewrite !bool_decide_eq_true_2; [done..|]. eapply prefix_map; [apply Hk|done].
  - intros s v Hv. unfold compiled_form_for_submission. by rewrite Hv, (version_of_submission_kept c c' s v).
Qed.

(** ** Drafts *)

(** C28: a stale save is refused. Once a save that named revision [r] has gone
    through, no later save of the same draft naming [r] does, whatever else
    was requested in between: it is refused with a revision beyond [r], and
    changes nothing. So of two authors who loaded the same revision one is
    told. *)
Theorem stale_draft_is_refused (requests : list (Z * request)) (c c1 : catalog) now now' form_id
    (rq rq' : save_request) (r : Z) (d : draft)
    (Hfirst : sd_expected rq = Some r) (Hsecond : sd_expected rq' = Some r)
    (Hsaved : atomically (save_draft now form_id rq) c = (c1, inl d)) :
  let c2 := serve_all requests c1 in
  exists current, r < current /\ atomically (save_draft now' form_id rq') c2 = (c2, inr (DraftConflict current)).
Proof.
  intros c2. pose proof (kp_steps _ _ (serve_all_kept ulid sha256_hex utf8 casefold rg requests c1)) as Hk. fold c2 in Hk.
  assert (exists d1, dget (ct_drafts c1) form_id = Some d1 /\ dr_revision d1 = r + 1) as (d1 & Hd1 & Hr1).
  { apply atomically_run in Hsaved as [(? & [= <-] & H)|[_ [? ?]]]; [|done]. unfold save_draft in H.
    run_read H. simpl in H. unfold id in *. rewrite Hfirst in H. destruct (dget (ct_drafts c) form_id) as [d0|]; [|done].
    run_check H Hrev. run_step H u c3. injection H as <- _. unfold store_draft in E. run_check E Hw.
    apply insertion_inl in E as [_ ->]. simpl. rewrite dget_dset_eq. eexists. split; [done|]. simpl.
    apply Z.eqb_eq in Hrev. lia. }
  destruct (ex_drafts _ _ (st_extends _ _ Hk) form_id d1 Hd1) as (d2 & Hd2 & Hle). exists (dr_revision d2).
  split; [lia|]. unfold atomically, save_draft, get_draft, mbind, ST_bind, asks. rewrite Hd2, Hsecond.
  replace (r =? dr_revision d2) with false by (symmetry; apply Z.eqb_neq; lia). done.
Qed.

(** ** Publishing again *)

(** Publishing is idempotent by content. Sending again the request of a
    version that was published answers the same version, checksum, pins,
    warnings and deployments, says it was not created, and leaves every
    table as it was. *)
Theorem republish_changes_nothing (c c1 : catalog) now now' (rq : publish_request) (r : publish_response)
    (Hc : catalog_sound c)
    (Hpub : atomically (publish_version ulid sha256_hex utf8 rg now rq) c = (c1, inl r)) :
  atomically (publish_version ulid sha256_hex utf8 rg now' rq) c1 =
    (c1, inl (PublishVersionResponse (pb_id r) (pb_form_key r) (pb_version r) (pb_checksum r) (pb_published_at r)
                false (pb_warnings r) (pb_deployments r) (pb_datasets r))).
Proof.
  apply atomically_run in Hpub as [(? & [= <-] & H)|[_ [? ?]]]; [|done]. unfold atomically.
  by rewrite (publish_again _ _ _ _ now now' rq c c1 r (sd_unique _ _ _ _ Hc) (sd_referenced _ _ _ _ Hc) H).
Qed.

(** ** What a device is told *)

Lemma joined_elem c w :
  w ∈ joined c <-> exists v f, v ∈ ct_versions c /\ f ∈ ct_forms c /\ fm_id f = vr_form v /\
    w = FormVersion (vr_id v) (fm_id f) (fm_project f) (fm_key f) (vr_version v) (vr_ir v).
Proof.
  unfold joined. rewrite list_elem_of_In, in_concat. setoid_rewrite in_map_iff. split.
  - intros (l & (v & <- & Hv) & Hw). apply in_map_iff in Hw as (f & <- & Hf).
    apply filter_In in Hf as [Hf Hfi%str_eqb_eq]. apply list_elem_of_In in Hv, Hf. by exists v, f.
  - intros (v & f & Hv & Hf & Hfi & ->). apply list_elem_of_In in Hv, Hf. eexists. split; [by exists v|].
    apply in_map_iff. exists f. split; [done|]. apply filter_In. by rewrite Hfi, str_eqb_refl.
Qed.

(** The version a push resolves a form key and number to. *)
Lemma resolve_joined c v f :
  unique c -> v ∈ ct_versions c -> f ∈ ct_forms c -> fm_id f = vr_form v ->
  resolve_form_version (served c) (fm_project f) (fm_key f) (vr_version v) = Some (vr_id v).
Proof.
  intros Hu Hv Hf Hfv. unfold resolve_form_version, served. simpl.
  destruct (List.find _ (joined c)) as [w|] eqn:Ew.
  - apply List.find_some in Ew as [Hw Heq]. rewrite !andb_true_iff, !str_eqb_eq, Z.eqb_eq in Heq.
    destruct Heq as [[Hp Hk] Hn]. apply list_elem_of_In, joined_elem in Hw as (v' & f' & Hv' & Hf' & Hfv' & ->).
    simpl in *. f_equal. assert (f' = f) as ->.
    { apply (same_key form_name (ct_forms c)); [apply Hu|done|done|]. unfold form_name. congruence. }
    assert (v' = v) as ->; [|done].
    apply (same_key version_number (ct_versions c)); [apply Hu|done|done|]. unfold version_number. congruence.
  - set (w := FormVersion (vr_id v) (fm_id f) (fm_project f) (fm_key f) (vr_version v) (vr_ir v)).
    assert (In w (joined c)) as Hw by (apply list_elem_of_In, joined_elem; by exists v, f).
    pose proof (List.find_none _ _ Ew w Hw) as H. simpl in H. by rewrite !str_eqb_refl, Z.eqb_refl in H.
Qed.

(** A row of a device's manifest: its deployment, version and form. *)
Lemma deployed_rows_inv c environment_id e :
  e ∈ deployed_rows c environment_id <->
  exists d v f, d ∈ ct_deployments c /\ dp_environment d = environment_id /\ dp_retired d = false /\
    v ∈ ct_versions c /\ vr_id v = dp_version d /\ f ∈ ct_forms c /\ fm_id f = vr_form v /\
    e = DeployedFormVersion (vr_id v) (fm_key f) (vr_version v) (fm_title f) (vr_checksum v) (dp_deployed_at d).
Proof.
  unfold deployed_rows. rewrite list_elem_of_In, in_concat. setoid_rewrite in_map_iff. split.
  - intros (l & (d & <- & Hd) & He). apply in_concat in He as (l & Hl & He). apply in_map_iff in Hl as (v & <- & Hv).
    apply in_map_iff in He as (f & <- & Hf). apply filter_In in Hd as [Hd Hde], Hv as [Hv Hvi%str_eqb_eq], Hf as [Hf Hfi%str_eqb_eq].
    apply andb_true_iff in Hde as [Hde%str_eqb_eq Hr%negb_true_iff]. apply list_elem_of_In in Hd, Hv, Hf.
    exists d, v, f. done.
  - intros (d & v & f & Hd & He & Hr & Hv & Hvi & Hf & Hfi & ->). apply list_elem_of_In in Hd, Hv, Hf.
    eexists. split.
    { exists d. split; [reflexivity|]. apply filter_In. by rewrite He, str_eqb_refl, Hr. }
    apply in_concat. eexists. split.
    { apply in_map_iff. exists v. split; [reflexivity|]. apply filter_In. by rewrite Hvi, str_eqb_refl. }
    apply in_map_iff. exists f. split; [done|]. apply filter_In. by rewrite Hfi, str_eqb_refl.
Qed.

(** C15: what a device is told to run, push accepts. The manifest of a device
    that is known and not revoked lists exactly the versions whose
    deployment in its environment is not retired; that environment is the
    one a push files its submissions under; and the form key and number of
    each entry resolve, for a push from the device's project, to that very
    version, whose document has the checksum the manifest states. *)
Theorem manifest_is_what_push_accepts (collate : pystr -> pystr -> comparison) (c : catalog) (device_id : pystr) (d : device) (l : list deployed_version)
    (Hc : catalog_sound c) (Henv : NoDup (map en_id (sv_environments (ct_server c))))
    (Hd : dget (sv_devices (ct_server c)) device_id = Some d)
    (Hl : deployed_versions_for_device collate c device_id = Some l) :
  dv_revoked d = false /\ device_environment_id c d = resolve_environment (served c) (dv_project d) /\
  (forall environment_id dp, device_environment_id c d = Some environment_id -> dp ∈ ct_deployments c ->
     dp_environment dp = environment_id -> dp_retired dp = false -> dp_version dp ∈ map df_form_version l) /\
  forall e, e ∈ l ->
    resolve_form_version (served c) (dv_project d) (df_form_key e) (df_version e) = Some (df_form_version e) /\
    exists doc, get_form_version c (df_form_version e) = Some doc /\ fd_checksum doc = df_checksum e.
Proof.
  unfold deployed_versions_for_device in Hl. rewrite Hd in Hl. destruct (dv_revoked d) eqn:Hr; [done|].
  split; [done|]. split; [reflexivity|]. destruct (device_environment_id c d) as [environment_id|] eqn:He.
  2:{ injection Hl as <-. split; [done|]. by intros e ?%elem_of_nil. }
  injection Hl as <-. pose proof (sd_unique _ _ _ _ Hc) as Hu. split.
  - intros ? dp [= <-] Hdp Hde Hret. destruct (sd_deployments _ _ _ _ Hc dp Hdp) as (v & f & e & Hv & Hvi & Hf & Hfi & _).
    rewrite <- Hvi. apply list_elem_of_fmap. eexists (DeployedFormVersion (vr_id v) _ _ _ _ _). split; [done|].
    rewrite sort_by_perm. apply deployed_rows_inv. exists dp, v, f. split_and!; try done; by rewrite Hvi.
  - intros e He'. rewrite sort_by_perm in He'.
    apply deployed_rows_inv in He' as (dp & v & f & Hdp & Hde & Hret & Hv & Hvi & Hf & Hfi & ->). simpl.
    destruct (sd_deployments _ _ _ _ Hc dp Hdp) as (v' & f' & e' & Hv' & Hvi' & Hf' & Hfi' & Hen & Hee & Hep).
    assert (v' = v) as ->.
    { apply (same_key vr_id (ct_versions c)); [apply Hu|done|done|congruence]. }
    assert (f' = f) as ->.
    { apply (same_key fm_id (ct_forms c)); [apply Hu|done|done|congruence]. }
    assert (fm_project f = dv_project d) as <-.
    { unfold device_environment_id in He. destruct (omap _ _) as [|i r] eqn:Ho; [done|]. injection He as ->.
      assert (environment_id ∈ omap (dget (environments_of c (dv_project d))) ENVIRONMENT_ORDER) as Hin by (rewrite Ho; by left).
      apply list_elem_of_omap in Hin as (kind & _ & Hk). apply environments_of_get in Hk as (e2 & He2 & Hp2 & _ & Hi2).
      assert (e' = e2) as -> by (apply (same_key en_id _ _ _ Henv); [done|done|congruence]). congruence. }
    split; [by apply resolve_joined|]. eexists. split; [by apply get_form_version_row|done].
Qed.
End Catalogs.

(** ** Witnesses *)

Lemma catalog_stays_sound_witness :
  sound same_bytes same_bytes sample_registry empty_catalog /\
  sound same_bytes same_bytes sample_registry (sample_serve sample_requests empty_catalog).
Proof. split; [apply empty_sound|]. apply catalog_stays_sound. apply empty_sound. Defined.

(** Publishing a third time, and a list again, moves nothing. *)
Definition later_requests : list (Z * request) :=
  [ (7, publish_villages villages_1); (8, Publish (publish_request_of 1 "u1")); (9, Publish (publish_request_of 1 "u5")) ].

Lemma published_content_never_changes_witness :
  unique sample_catalog /\ is_Some (get_form_version sample_catalog (lit "u3")) /\
  stored_dataset_pins (sample_serve later_requests sample_catalog) (lit "u3") = [(lit "villages", lit "u1")] /\
  get_form_version (sample_serve later_requests sample_catalog) (lit "u3") = get_form_version sample_catalog (lit "u3").
Proof.
  assert (unique sample_catalog) as Hu by apply (sd_unique _ _ _ _ sample_catalog_sound).
  split; [exact Hu|]. split; [vm_compute; by eexists|].
  destruct (published_content_never_changes sample_ulid same_bytes same_bytes same_bytes sample_registry later_requests
              sample_catalog Hu) as [H _].
  destruct (get_form_version sample_catalog (lit "u3")) as [doc|] eqn:Ed; [|vm_compute in Ed; discriminate].
  destruct (H (lit "u3") doc Ed) as [H1 H2]. split; [rewrite H2; vm_compute; reflexivity|exact H1].
Defined.

Definition saved_catalog : catalog := (atomically (save_draft 10 (lit "u2") (save_at 1 "ann")) sample_catalog).1.
Definition saved_draft : draft := Draft (register 4) 2 10 (Some (lit "ann")) [].

Lemma stale_draft_is_refused_witness :
  atomically (save_draft 10 (lit "u2") (save_at 1 "ann")) sample_catalog = (saved_catalog, inl saved_draft) /\
  let c2 := sample_serve later_requests saved_catalog in
  exists current, 1 < current /\
    atomically (save_draft 11 (lit "u2") (save_at 1 "bob")) c2 = (c2, inr (DraftConflict current)).
Proof.
  assert (atomically (save_draft 10 (lit "u2") (save_at 1 "ann")) sample_catalog = (saved_catalog, inl saved_draft)) as H
    by (vm_compute; reflexivity).
  split; [exact H|].
  apply (stale_draft_is_refused sample_ulid same_bytes same_bytes same_bytes sample_registry later_requests sample_catalog
           saved_catalog 10 11 (lit "u2") (save_at 1 "ann") (save_at 1 "bob") 1 saved_draft); [reflexivity|reflexivity|exact H].
Defined.

Definition third : publish_request := publish_request_of 3 "u5".
Definition third_catalog : catalog := (atomically (sample_publish 12 third) sample_catalog).1.
Definition third_answer : publish_response :=
  PublishVersionResponse (lit "u8") (lit "register") 3 (ir_checksum same_bytes same_bytes (register 3)) 12 true
    (f_warnings (compiled_or_empty (register 3)))
    [lit "production"] [DatasetPin (lit "villages") (lit "u5")].

Lemma republish_changes_nothing_witness :
  atomically (sample_publish 12 third) sample_catalog = (third_catalog, inl third_answer) /\
  atomically (sample_publish 13 third) third_catalog =
    (third_catalog, inl (PublishVersionResponse (lit "u8") (lit "register") 3
       (ir_checksum same_bytes same_bytes (register 3)) 12 false
       (f_warnings (compiled_or_empty (register 3))) [lit "production"]
       [DatasetPin (lit "villages") (lit "u5")])).
Proof.
  assert (atomically (sample_publish 12 third) sample_catalog = (third_catalog, inl third_answer)) as H
    by (vm_compute; reflexivity).
  split; [exact H|].
  exact (republish_changes_nothing sample_ulid same_bytes same_bytes sample_registry sample_catalog third_catalog 12 13 third
           third_answer sample_catalog_sound H).
Defined.

Lemma manifest_is_what_push_accepts_witness :
  exists l, deployed_versions_for_device str_cmp sample_catalog (lit "d1") = Some l /\
    map df_form_version l = [lit "u3"; lit "u6"] /\
    forall e, e ∈ l ->
      resolve_form_version (served sample_catalog) (lit "p") (df_form_key e) (df_version e) = Some (df_form_version e).
Proof.
  destruct (deployed_versions_for_device str_cmp sample_catalog (lit "d1")) as [l|] eqn:El; [|vm_compute in El; discriminate].
  exists l. split; [reflexivity|]. split; [vm_compute in El; injection El as <-; reflexivity|].
  destruct (manifest_is_what_push_accepts same_bytes same_bytes sample_registry str_cmp sample_catalog (lit "d1")
    (Device (lit "p") (Some (lit "ann")) false 0 None None) l sample_catalog_sound) as (_ & _ & _ & H).
  - apply (bool_decide_unpack _). vm_compute. exact I.
  - vm_compute. reflexivity.
  - exact El.
  - intros e He. exact (proj1 (H e He)).
Defined.

(** ** The publish gate *)

Section Gate.
Context {env : PyEnv}.

(** [x] reads the field [y] of the form: [y] is the field a reference of one
    of its expressions is about. *)
Definition reads_field (f : cform) (x y : pystr) : Prop :=
  exists c, dget (f_fields f) x = Some c /\ y ∈ bases (cf_depends_on c) /\ y ∈ dkeys (f_fields f).

(** A repeat's count or summary reads the field [y]. *)
Definition repeat_reads (f : cform) (repeat_id y : pystr) : Prop :=
  repeat_id ∈ dkeys (f_repeats f) /\
  exists per_key key deps, dget (f_container_expr_deps f) repeat_id = Some per_key /\
    key ∈ [lit "countExpr"; lit "summaryLabelArgs"] /\ dget per_key key = Some deps /\
    y ∈ bases deps /\ y ∈ dkeys (f_fields f).

Definition sensitive (f : cform) (x : pystr) : Prop :=
  exists c, dget (f_fields f) x = Some c /\ is_sensitive c = true.

Lemma gate_parts rg ir f :
  check_publishable rg ir = inl f ->
  compile ir = Ok f /\ f_fields f <> [] /\ forbidden_patterns f = [] /\ check_sensitivity_propagation f = [] /\
  check_reachability (children (node_of ir)) = Ok [] /\ check_answerability (children (node_of ir)) = [] /\
  check_collectability rg (children (node_of ir)) = [].
Proof.
  unfold check_publishable. destruct (compile ir) as [g|e]; [|done]. destruct (f_fields g) eqn:Eg; [done|].
  destruct (check_reachability _) as [reach|e]; [|done].
  destruct (forbidden_patterns g ++ _) as [|b0 r0] eqn:E; [|done]. intros [= <-].
  apply app_eq_nil in E as [Hp E]. apply app_eq_nil in E as [Hs E]. apply app_eq_nil in E as [Hr E].
  apply app_eq_nil in E as [Ha Hc]. apply map_eq_nil in Hr as ->, Ha. split_and!; try done. by rewrite Eg.
Qed.

Lemma sensitive_bases_none f deps y :
  sensitive_bases f deps = [] -> y ∈ bases deps -> ~ sensitive f y.
Proof.
  intros Hn Hy (c & Hc & Hs). assert (y ∈ sensitive_bases f deps) as Hin; [|rewrite Hn in Hin; by inversion Hin].
  apply list_elem_of_In, filter_In. split; [by apply list_elem_of_In|]. by rewrite Hc.
Qed.

Lemma concat_nil {A B} (g : A -> list B) l x : concat (map g l) = [] -> x ∈ l -> g x = [].
Proof.
  induction l as [|y l IH]; simpl; intros Hn Hx; [by inversion Hx|]. apply app_eq_nil in Hn as [Hy Hn].
  apply elem_of_cons in Hx as [->|Hx]; [done|by apply IH].
Qed.

(** C37: sensitive answers do not flow (envelope 5.2). In a form that passed
    the gate every field that reads a sensitive one, directly or through any
    number of other fields, is sensitive itself; and no repeat's count or
    summary reads one so, since a repeat cannot be marked. *)
Theorem sensitive_answers_do_not_flow (rg : registry) (ir : value) (f : cform) (x s : pystr)
    (Hgate : check_publishable rg ir = inl f) (Hs : sensitive f s) :
  (rtc (reads_field f) x s -> sensitive f x) /\
  (forall repeat_id y, repeat_reads f repeat_id y -> rtc (reads_field f) y s -> False).
Proof.
  apply gate_parts in Hgate as (Hc & _ & _ & Hp & _). pose proof (cp_form _ (compile_compiled _ _ Hc)) as Hinv.
  unfold check_sensitivity_propagation in Hp. apply app_eq_nil in Hp as [Hfields Hrepeats].
  assert (forall y, rtc (reads_field f) y s -> sensitive f y) as Hflow.
  { intros y Hy. induction Hy as [|y z s (c & Hy & Hz & _) _ IH]; [done|]. specialize (IH Hs).
    destruct (is_sensitive c) eqn:Ec; [by exists c|]. exfalso.
    assert (field_leaks f y = []) as Hl.
    { eapply concat_nil; [exact Hfields|]. rewrite (fm_order _ Hinv). apply dget_elem. by rewrite Hy. }
    unfold field_leaks in Hl. rewrite Hy, Ec in Hl. apply map_eq_nil in Hl. by eapply sensitive_bases_none. }
  split; [apply Hflow|]. intros r y (Hr & per_key & key & deps & Hper & Hkey & Hdeps & Hy & _) Hreads.
  pose proof (concat_nil _ _ _ Hrepeats Hr) as Hl. unfold repeat_leaks in Hl. rewrite Hper in Hl.
  pose proof (concat_nil _ _ _ Hl Hkey) as Hk. simpl in Hk. rewrite Hdeps in Hk. apply map_eq_nil in Hk.
  by eapply sensitive_bases_none; [exact Hk|exact Hy|apply Hflow].
Qed.
End Gate.

(** ** Witness: a form whose sensitive text is shown by a sensitive number *)

Lemma sensitive_answers_do_not_flow_witness :
  check_publishable sample_registry (register 1) = inl register_form /\ sensitive register_form (lit "income") /\
  reads_field register_form (lit "taxed") (lit "income") /\ sensitive register_form (lit "taxed").
Proof.
  assert (check_publishable sample_registry (register 1) = inl register_form) as Hg by (vm_compute; reflexivity).
  assert (sensitive register_form (lit "income")) as Hs.
  { eexists. split; [vm_compute; reflexivity|vm_compute; reflexivity]. }
  assert (reads_field register_form (lit "taxed") (lit "income")) as Hr.
  { eexists. split; [vm_compute; reflexivity|]. split; apply (bool_decide_unpack _); vm_compute; exact I. }
  split_and!; [exact Hg|exact Hs|exact Hr|].
  apply (sensitive_answers_do_not_flow sample_registry (register 1) register_form (lit "taxed") (lit "income") Hg Hs).
  by apply rtc_once.
Defined.
