(* ===== verification/DeliveryTheorems.v ===== *)
(** * Properties of delivering reference data

    What a device is told to hold covers what its forms choose from; the
    pages of a version are the version; and the pages of a delta bring the
    copy of an earlier version up to date in everything the form reads. *)

From S2P Require Import Prelude PyStr PyNum Value PyJson Expr Expression Datasets Document Compile CompileFacts DatasetKeys CaseKey.
From S2P Require Import Surface Printer PublishGate Server Catalog Forms Entities CatalogFacts CatalogSound.
From S2P Require Import DeltaFacts Samples Push SyncSamples CatalogSamples.

Section Delivery.
Context {env : PyEnv} {uni : UnicodeDB}.
Context (sha256_hex : list N -> pystr) (utf8 : pystr -> list N) (rg : registry).

Abbreviation catalog_sound := (sound sha256_hex utf8 rg) (only parsing).

(** ** The manifest *)

Lemma manifest_entry_pin c p e : manifest_entry c p = Some e -> dd_form_version e = pr_version p /\ dd_key e = pr_key p.
Proof. unfold manifest_entry. intros (v & _ & [= <-])%bind_Some. done. Qed.

Lemma manifest_entries_of c i l :
  List.filter (fun e => str_eqb (dd_form_version e) i) (omap (manifest_entry c) l) =
  omap (manifest_entry c) (List.filter (fun p => str_eqb (pr_version p) i) l).
Proof.
  induction l as [|p l IH]; [done|]. csimpl. destruct (manifest_entry c p) as [e|] eqn:E; csimpl.
  - destruct (manifest_entry_pin c p e E) as [-> _]. rewrite IH. destruct (str_eqb _ _); csimpl; [by rewrite E|done].
  - rewrite IH. destruct (str_eqb _ _); csimpl; [by rewrite E|done].
Qed.

Lemma manifest_keys c l :
  (forall p, p ∈ l -> is_Some (manifest_entry c p)) -> map dd_key (omap (manifest_entry c) l) = map pr_key l.
Proof.
  induction l as [|p l IH]; intros Hl; [done|]. destruct (Hl p ltac:(by left)) as [e He]. csimpl. rewrite He. csimpl.
  rewrite (proj2 (manifest_entry_pin c p e He)), IH; [done|]. intros q Hq. apply Hl. by right.
Qed.

(** A device's dataset manifest covers its forms. For each version the
    device is told to run the manifest has exactly one entry for each
    dataset key the version's document names and none besides; each entry
    states the number, row count and checksum of a stored version, which is
    of the dataset the key names, in the project of the form. *)
Theorem dataset_manifest_covers_forms (collate : pystr -> pystr -> comparison) (c : catalog) (device_id : pystr) (l : list deployed_version)
    (m : list deployed_dataset)
    (Hc : catalog_sound c) (Hl : deployed_versions_for_device collate c device_id = Some l)
    (Hm : deployed_dataset_versions_for_device collate c device_id = Some m) :
  (forall e, e ∈ m -> dd_form_version e ∈ map df_form_version l) /\
  forall v, v ∈ ct_versions c -> vr_id v ∈ map df_form_version l ->
    exists compiled f, check_publishable rg (vr_ir v) = inl compiled /\ f ∈ ct_forms c /\ fm_id f = vr_form v /\
      map dd_key (List.filter (fun e => str_eqb (dd_form_version e) (vr_id v)) m) ≡ₚ dataset_keys compiled /\
      forall e, e ∈ m -> dd_form_version e = vr_id v ->
        pinned_to c (fm_project f) (dd_key e) (dd_dataset_version e) /\
        exists x, x ∈ ct_dataset_versions c /\ xv_id x = dd_dataset_version e /\ xv_version x = dd_version e /\
                  xv_row_count x = dd_row_count e /\ xv_checksum x = dd_checksum e.
Proof.
  unfold deployed_dataset_versions_for_device in Hm. rewrite Hl in Hm.
  destruct l as [|e0 l0] eqn:El; rewrite <- ?El in *; [injection Hm as <-; subst l|clear El].
  { split; [by intros e ?%elem_of_nil|]. intros v _ Hin. by inversion Hin. }
  injection Hm as <-. split.
  { intros e (p & Hp & He)%list_elem_of_omap. rewrite sort_by_perm in Hp. apply elem_of_Lfilter in Hp as [_ Hp].
    apply bool_decide_eq_true in Hp. by rewrite (proj1 (manifest_entry_pin c p e He)). }
  intros v Hv Hin. destruct (sd_versions _ _ _ _ Hc v Hv) as (compiled & f & [Hgate _ _ _ (Hf & Hfi & _) Hpins Hpinned]).
  exists compiled, f. split_and!; try done.
  - rewrite manifest_entries_of, manifest_keys.
    + rewrite <- Hpins. apply Permutation_map. unfold pins_of. rewrite (Lfilter_perm _ _ _ (sort_by_perm _ _)).
      rewrite filter_filter_le; [done|]. intros p Hp%str_eqb_eq. rewrite Hp. by apply bool_decide_eq_true.
    + intros p [Hp _]%elem_of_Lfilter. rewrite sort_by_perm in Hp. apply elem_of_Lfilter in Hp as [Hp _].
      apply (rf_pins _ (sd_referenced _ _ _ _ Hc)) in Hp as [_ (x & Hx & Hin')%list_elem_of_fmap]. unfold manifest_entry.
      rewrite Hx, (find_unique xv_id); [done| |done]. apply (sd_unique _ _ _ _ Hc).
  - intros e (p & Hp & He)%list_elem_of_omap Hev. rewrite sort_by_perm in Hp. apply elem_of_Lfilter in Hp as [Hp _].
    pose proof (manifest_entry_pin c p e He) as [Hep Hek].
    unfold manifest_entry in He. apply bind_Some in He as (x & Hx & [= <-]). apply (find_key xv_id) in Hx as [Hx Hxi].
    simpl in *. split; [|by exists x]. rewrite Hxi. apply Hpinned. apply elem_of_Lfilter. split; [done|].
    rewrite Hev. apply str_eqb_refl.
Qed.

(** ** Whole versions *)

(** The pages of a version are the version. A device that follows the
    cursor from the start, with any page size, comes to an end having been
    sent every row once, in the order of the file it was published from; one
    request more than there are rows is enough. *)
Theorem row_pages_are_the_version (c : catalog) (x : dataset_version) (limit : nat)
    (Hc : catalog_sound c) (Hx : x ∈ ct_dataset_versions c) (Hsize : xv_row_count x < 2 ^ 31) (Hlimit : (0 < limit)%nat) :
  exists pages,
    follow (S (length (records_of c (xv_id x)))) (fetch_rows c (xv_id x) limit) None = Some pages /\
    concat pages = map xr_data (records_of c (xv_id x)) /\
    map xr_ordinal (records_of c (xv_id x)) = seqZ 0 (xv_row_count x).
Proof.
  destruct (sd_datasets _ _ _ _ Hc x Hx) as (column & Hr). destruct Hr as [Hcount Hord Hsum Hkeys].
  destruct (follow_rows c (xv_id x) limit) with (fuel := S (length (records_of c (xv_id x)))) (cursor := @None pystr)
    (front := @nil dataset_record) (rest := records_of c (xv_id x)) as (pages & Hp & Hcat); try done; [..|lia|].
  - apply bool_decide_eq_true. by apply elem_map.
  - by eapply seqZ_in_order.
  - by left.
  - by exists pages.
Qed.

(** ** Deltas *)

(** The pages of the delta a form version asks for. *)
Definition fetch_delta_for (c : catalog) (form_version_id dataset_key from_version : pystr) (limit : nat)
    (cursor : option pystr) : option ((list (odict value) * list pystr) * option pystr) :=
  match dataset_delta_for sha256_hex utf8 c form_version_id dataset_key from_version cursor limit with
  | inl d => Some ((dl_changed d, dl_deleted d), dl_next d)
  | inr _ => None
  end.

(** The columns the form version reads of the dataset, and a row as it reads
    it: the hash the delta compares. *)
Definition columns_for (c : catalog) (form_version_id dataset_key : pystr) : list pystr :=
  sort_str (elements (columns_read_by (default (VDict []) (ir_of c form_version_id)) dataset_key)).

Abbreviation read_as columns data := (projection sha256_hex utf8 columns data) (only parsing).

(** *** What the form reads

    The engine's side of it, apart from the walk of the document the service
    takes its columns from: a choice list reads a row's value, its labels,
    the columns it narrows on and, through its filter, the [$row.] columns. *)

(** Two rows that choosing with a query treats alike. *)
Record chosen_alike (q : choice_query) (a b : odict value) : Prop := {
  al_value : vget a (cq_value_column q) = vget b (cq_value_column q);
  al_labels : forall l, l ∈ dvalues (cq_label_columns q) -> vget a (vtext l) = vget b (vtext l);
  al_matches : forall narrowed, dkeys narrowed = dkeys (cq_selector q) -> matches a narrowed = matches b narrowed;
  al_permitted : forall ctx filter, cq_residual q = Some filter -> row_permitted ctx filter a = row_permitted ctx filter b
}.

Lemma row_refs_dict d :
  row_refs (VDict d) =
  (if has_op (VDict d) "ref" && startswith (py_str (default (VStr []) (dget d "path"))) ROW_PREFIX
   then {[ py_str (vget d "path") ]} else ∅) ∪ ⋃ map row_refs (raw_args (VDict d)).
Proof.
  cbn [row_refs]. f_equal. rewrite raw_args_dget.
  set (look := fix look (d : list (pystr * value)) : gset pystr := _).
  assert (forall d, look d = ⋃ map row_refs (match dget d "args" with Some (VList l) => l | _ => [] end)) as ->; [|done].
  clear d. induction d as [|[k x] d IH]; [done|]. cbn [dget]. subst look. cbn -[lit decide].
  destruct (decide (k = lit "args")), (decide (lit "args" = k)); congruence || by destruct x.
Qed.

Lemma row_refs_paths e p : p ∈ paths_of (expr_of e) -> startswith p ROW_PREFIX = true -> p ∈ row_refs e.
Proof.
  revert p. induction e as [e IH] using Expr.node_ind. intros p Hp Hr.
  destruct e as [| | | | |l|d]; try (by apply not_elem_of_empty in Hp). rewrite row_refs_dict.
  apply paths_of_node in Hp as [[Ho Hv]|(a & Ha & Hp)].
  - apply elem_of_union_l. unfold vfield, vget in *. rewrite Ho. destruct (dget d "path") as [[| | | |t| |]|]; cbn in Hv; subst p; cbn; try done.
    rewrite Hr. set_solver.
  - apply elem_of_union_r, elem_of_union_map. exists a. split; [done|]. by apply IH.
Qed.

(** Rows alike in a query's columns are chosen alike. *)
Lemma query_columns_alike q a b :
  (forall k, k ∈ query_columns q -> vget a k = vget b k) -> chosen_alike q a b.
Proof.
  intros Hk. split.
  - apply Hk. unfold query_columns. set_solver.
  - intros l Hl. apply Hk. unfold query_columns. rewrite !elem_of_union, !elem_of_list_to_set. left; left; right.
    by apply list_elem_of_fmap_2.
  - intros narrowed E. apply matches_alike. intros k Hin. apply Hk. unfold query_columns. rewrite E in Hin.
    rewrite !elem_of_union, !elem_of_list_to_set. by left; right.
  - intros ctx filter E. apply row_permitted_alike. intros p Hp Hr. apply Hk. unfold query_columns. rewrite E, !elem_of_union.
    right. apply elem_of_map. exists p. split; [done|]. by apply row_refs_paths.
Qed.

Lemma walk_all_nodes l anc n a : (n, a) ∈ walk l anc -> n ∈ concat (map all_nodes l).
Proof.
  unfold walk. assert (forall m anc, (n, a) ∈ walk_node anc m -> n ∈ all_nodes m) as Hm.
  { induction m as [at_ c IH] using node_ind'. intros anc' [E|H]%elem_of_cons; cbn [all_nodes]; [injection E as -> _; by left|].
    right. destruct (bool_decide _); [|by apply elem_of_nil in H]. rewrite Forall_forall in IH.
    apply list_elem_of_In, in_concat in H as (l' & (m & <- & Hm%list_elem_of_In)%in_map_iff & H%list_elem_of_In).
    apply list_elem_of_In, in_concat. exists (all_nodes m). split; [apply in_map_iff; exists m; by rewrite <- list_elem_of_In|].
    apply list_elem_of_In. by eapply IH. }
  intros H. apply list_elem_of_In, in_concat in H as (l' & (m & <- & Hin)%in_map_iff & H%list_elem_of_In).
  apply list_elem_of_In, in_concat. exists (all_nodes m). split; [by apply in_map_iff; exists m|]. apply list_elem_of_In. by eapply Hm.
Qed.

(** The query of a compiled field that chooses from the dataset reads only
    columns the service computes. *)
Lemma field_reads ir compiled i cf dataset_key :
  compile ir = Ok compiled -> dget (f_fields compiled) i = Some cf -> dataset_key_of cf = Some dataset_key ->
  exists q, cf_choice_query cf = Some q /\ cq_dataset q = dataset_key /\ query_columns q ⊆ columns_read_by ir dataset_key.
Proof.
  intros Hc Hcf Hkey. destruct (compile_from_nodes _ _ Hc i cf Hcf) as (n & anc & Hn & Hnode).
  pose proof (fv_query _ _ _ (fm_field _ (cp_form _ (compile_compiled _ _ Hc)) _ _ Hcf)) as Hq. unfold dataset_key_of in Hkey.
  destruct (vget (cf_node cf) "choices") as [| | | | | |choices] eqn:Ech; try done. cbn [vfield] in Hkey.
  unfold compile_choices in Hq. destruct (vget choices "kind") as [| | | |kind| |] eqn:Ek; try done.
  destruct (str_eqb kind "dataset") eqn:Ekd; [|done]. destruct (vget choices "dataset") as [| | | |key| |] eqn:Ed; try done.
  injection Hkey as ->. cbn [py_eq] in Hq. rewrite Ekd in Hq. destruct (split_conjuncts _) as [selector residuals] eqn:Es.
  eexists. split; [exact Hq|]. split; [done|]. intros k Hk. unfold columns_read_by. apply elem_of_union_map. exists choices. split.
  - unfold lists_of. apply list_elem_of_omap. exists n. split; [by eapply walk_all_nodes|]. rewrite <- Hnode, Ech, Ed.
    cbn [py_eq]. by rewrite str_eqb_refl.
  - unfold compile_choices. rewrite Ek, Ed. cbn [py_eq]. by rewrite Ekd, Es.
Qed.

(** The rows of one version have a key each. *)
Lemma record_keys_nodup c i : unique c -> NoDup (map xr_key (records_of c i)).
Proof.
  intros Hu. pose proof (un_records _ Hu) as Hn. unfold records_of. revert Hn.
  induction (ct_records c) as [|r l IH]; intros Hn; [constructor|]. simpl in *. apply NoDup_cons in Hn as [Hr Hn].
  destruct (str_eqb (xr_version r) i) eqn:E; [|by apply IH]. apply str_eqb_eq in E. simpl. constructor; [|by apply IH].
  intros (q & Hk & Hq)%list_elem_of_fmap. apply elem_of_Lfilter in Hq as [Hq Hqi%str_eqb_eq]. apply Hr.
  apply list_elem_of_fmap. exists q. split; [|done]. unfold record_name. congruence.
Qed.

(** The text a row's hash is of. *)
Definition hashed_text (columns : list pystr) (data : odict value) : pystr :=
  dumps (VDict (map (fun col => (col, vget data col)) columns)).

Section Delta.
Context (c : catalog) (form_version_id dataset_key : pystr) (xf xt : dataset_version) (column : pystr) (limit : nat).
Context (Hc : catalog_sound c) (Hpin : pinned_version c form_version_id dataset_key = Some (xv_id xt)).
Context (Hxf : xf ∈ ct_dataset_versions c) (Hxt : xt ∈ ct_dataset_versions c) (Hsame : xv_dataset xf = xv_dataset xt).
Context (Hf : rows_sound sha256_hex utf8 c xf column) (Ht : rows_sound sha256_hex utf8 c xt column).
Context (Hsize : xv_row_count xt < 2 ^ 31) (Hlimit : (0 < limit)%nat).

#[local] Notation columns := (columns_for c form_version_id dataset_key) (only parsing).
#[local] Notation old := (records_of c (xv_id xf)) (only parsing).
#[local] Notation new := (records_of c (xv_id xt)) (only parsing).
#[local] Notation before := (projections sha256_hex utf8 columns old) (only parsing).
#[local] Notation changed := (row_changed sha256_hex utf8 columns before) (only parsing).

Lemma delta_fetch cursor :
  fetch_delta_for c form_version_id dataset_key (xv_id xf) limit cursor =
  fetch_delta changed new (gone_keys before new) limit cursor.
Proof.
  unfold fetch_delta_for, dataset_delta_for, fetch_delta. rewrite Hpin.
  assert (NoDup (map xv_id (ct_dataset_versions c))) as Hn by apply (sd_unique _ _ _ _ Hc).
  rewrite (find_unique xv_id _ xf), (find_unique xv_id _ xt) by done. rewrite Hsame, str_eqb_refl. simpl.
  rewrite rows_of_in_order by (eapply seqZ_in_order; [apply Ht|done]). fold (columns_for c form_version_id dataset_key) old.
  by destruct (delta_page _ _ _ _ _) as [[[? ?] ?]|?].
Qed.

Lemma before_old r : r ∈ old -> dget before (xr_key r) = Some (read_as columns (xr_data r)).
Proof. intros Hr. apply (fold_dset_in xr_key (fun r => read_as columns (xr_data r))); [apply record_keys_nodup, (sd_unique _ _ _ _ Hc)|done]. Qed.

Lemma held_old r : r ∈ old -> dget (held_rows old) (xr_key r) = Some (xr_data r).
Proof. intros Hr. apply (fold_dset_in xr_key xr_data); [apply record_keys_nodup, (sd_unique _ _ _ _ Hc)|done]. Qed.

Lemma gone_elem k : k ∈ gone_keys before new <-> k ∈ map xr_key old /\ k ∉ map xr_key new.
Proof.
  unfold gone_keys. rewrite sort_str_perm, elem_of_Lfilter. unfold projections. rewrite fold_dset_keys.
  by rewrite negb_true_iff, bool_decide_eq_false.
Qed.

Lemma gone_order : key_order (gone_keys before new).
Proof. apply sort_str_order. apply NoDup_ListNoDup, List.NoDup_filter, NoDup_ListNoDup. apply fold_dset_nodup. constructor. Qed.

Lemma gone_length : (length (gone_keys before new) <= length old)%nat.
Proof.
  rewrite <- (length_map xr_key old). apply NoDup_incl_length.
  - apply NoDup_ListNoDup. unfold gone_keys. rewrite sort_str_perm.
    apply NoDup_ListNoDup, List.NoDup_filter, NoDup_ListNoDup. apply fold_dset_nodup. constructor.
  - intros k [Hk _]%list_elem_of_In%gone_elem. by apply list_elem_of_In.
Qed.

Lemma delta_pages :
  exists pages, follow (S (length old + length new)) (fetch_delta_for c form_version_id dataset_key (xv_id xf) limit) None = Some pages /\
    concat (map fst pages) = map xr_data (List.filter changed new) /\ concat (map snd pages) = gone_keys before new.
Proof.
  assert (forall fuel cursor, follow fuel (fetch_delta_for c form_version_id dataset_key (xv_id xf) limit) cursor =
            follow fuel (fetch_delta changed new (gone_keys before new) limit) cursor) as E.
  { induction fuel as [|fuel IH]; intros cursor; [done|]. cbn [follow]. rewrite delta_fetch.
    destruct (fetch_delta _ _ _ _ _) as [[page [next|]]|]; [|done..]. by rewrite IH. }
  rewrite E. apply follow_changed with (front := []); [..|done| |].
  - eapply seqZ_in_order; [apply Ht|done].
  - apply gone_order.
  - intros k [(r & -> & Hr)%list_elem_of_fmap _]%gone_elem. destruct (rs_keys _ _ _ _ _ Hf r Hr) as (_ & Hs & _).
    intros Hk. by rewrite Hk in Hs.
  - done.
  - by left.
  - pose proof gone_length. lia.
Qed.

(** The changed rows under a key: that row, when its reading changed. *)
Lemma changed_under r :
  r ∈ new -> List.filter (fun row => str_eqb (cell_str (vget row column)) (xr_key r)) (map xr_data (List.filter changed new)) =
             if changed r then [xr_data r] else [].
Proof.
  intros Hr. assert (forall l, (forall q, q ∈ l -> q ∈ new) -> NoDup (map xr_key l) ->
    List.filter (fun row => str_eqb (cell_str (vget row column)) (xr_key r)) (map xr_data (List.filter changed l)) =
    map xr_data (List.filter changed (List.filter (fun q => str_eqb (xr_key q) (xr_key r)) l))) as H.
  { induction l as [|q l IH]; intros Hl Hn; [done|]. simpl in *. apply NoDup_cons in Hn as [Hq Hn].
    assert (cell_str (vget (xr_data q) column) = xr_key q) as Hk by (symmetry; apply (rs_keys _ _ _ _ _ Ht), Hl; by left).
    specialize (IH ltac:(intros; apply Hl; by right) Hn).
    destruct (changed q) eqn:Ec; simpl; rewrite ?Hk; destruct (str_eqb (xr_key q) (xr_key r)); simpl; rewrite ?Ec, IH; done. }
  pose proof (record_keys_nodup c (xv_id xt) (sd_unique _ _ _ _ Hc)) as Hn. rewrite H by done.
  rewrite (filter_unique xr_key new r) by done. simpl. by destruct (changed r).
Qed.

Lemma changed_elsewhere k :
  k ∉ map xr_key new -> List.filter (fun row => str_eqb (cell_str (vget row column)) k) (map xr_data (List.filter changed new)) = [].
Proof.
  intros Hk. apply filter_none. intros row (r & -> & Hr)%list_elem_of_fmap. apply elem_of_Lfilter in Hr as [Hr _].
  apply str_eqb_ne. rewrite <- (proj1 (rs_keys _ _ _ _ _ Ht r Hr)). intros <-. apply Hk. by apply elem_map.
Qed.

(** The copy of the old version after a page sequence that sends the changed
    rows and the keys that are gone. *)
Lemma copy_after pages :
  concat (map fst pages) = map xr_data (List.filter changed new) -> concat (map snd pages) = gone_keys before new ->
  forall k, match List.find (fun r => str_eqb (xr_key r) k) new with
            | Some r => r ∈ new /\
                exists row, dget (fold_left (apply_page column) pages (held_rows old)) k = Some row /\
                            read_as columns row = read_as columns (xr_data r) /\
                            (row = xr_data r \/ exists q, q ∈ old /\ row = xr_data q)
            | None => dget (fold_left (apply_page column) pages (held_rows old)) k = None
            end.
Proof.
  intros Hch Hdel k. destruct (apply_pages_get column pages (held_rows old) k) as [H1 H2].
  { apply fold_dset_nodup. constructor. }
  rewrite Hch, Hdel in *. destruct (List.find _ new) as [r|] eqn:Er.
  - apply (find_key xr_key) in Er as [Hr <-]. rewrite H1 by (intros [_ Hno]%gone_elem; by apply Hno, elem_map).
    rewrite changed_under by done. split; [done|]. destruct (changed r) eqn:Ec; [exists (xr_data r); auto|]. simpl.
    unfold row_changed in Ec. destruct (dget before (xr_key r)) as [p|] eqn:Ep; [|done].
    apply negb_false_iff, str_eqb_eq in Ec as ->. apply fold_dset_get in Ep as [(q & Hq & Hk & Hp)|Ep]; [|done].
    exists (xr_data q). rewrite <- Hk, held_old by done. split_and!; [done..|]. right. by exists q.
  - assert (k ∉ map xr_key new) as Hk.
    { intros (r & -> & Hr)%list_elem_of_fmap. pose proof (List.find_none _ _ Er r (proj1 (list_elem_of_In _ _) Hr)) as H.
      simpl in H. by rewrite str_eqb_refl in H. }
    rewrite H2 by by apply changed_elsewhere. case_bool_decide as Hg; [done|].
    destruct (dget (held_rows old) k) as [row|] eqn:Eh; [|done].
    apply fold_dset_get in Eh as [(q & Hq & Hkq & _)|Eh]; [|done]. exfalso. apply Hg, gone_elem. split; [|done].
    rewrite <- Hkq. by apply elem_map.
Qed.
Lemma check_publishable_compile ir compiled : check_publishable rg ir = inl compiled -> compile ir = Ok compiled.
Proof.
  unfold check_publishable. destruct (compile ir) as [f|]; [|done]. destruct (f_fields f); [done|].
  repeat case_match; try done. by intros [= ->].
Qed.

(** Rows whose readings hash alike are alike in what a field of the form
    reads, when no two of the texts hashed share a hash. *)
Lemma reading_alike a b v compiled i cf :
  (forall k, k ∈ columns -> plain_cell (vget a k) = true /\ plain_cell (vget b k) = true) ->
  (read_as columns a = read_as columns b -> hashed_text columns a = hashed_text columns b) ->
  read_as columns a = read_as columns b ->
  v ∈ ct_versions c -> vr_id v = form_version_id -> check_publishable rg (vr_ir v) = inl compiled ->
  dget (f_fields compiled) i = Some cf -> dataset_key_of cf = Some dataset_key ->
  exists q, cf_choice_query cf = Some q /\ chosen_alike q a b.
Proof.
  intros Hp Hh E Hv Hi Hg Hcf Hk. apply check_publishable_compile in Hg.
  destruct (field_reads _ _ _ _ _ Hg Hcf Hk) as (q & Hq & _ & Hsub). exists q. split; [done|].
  apply query_columns_alike. intros k Hin. apply (flat_text_inj (vget a) (vget b) columns); [done|by apply Hh|].
  unfold columns_for, ir_of. rewrite sort_str_perm, elem_of_elements, <- Hi, (find_unique vr_id) by (apply (sd_unique _ _ _ _ Hc) || done).
  by apply Hsub.
Qed.
End Delta.

(** C6: a delta brings a copy up to date for choosing. In a sound catalog a
    device that holds
    exactly an earlier version of the dataset a form version is pinned to, and
    follows the delta from the start with any page size, comes to an end with
    a copy that has a row for exactly the keys of the pinned version; under
    each key every question of the compiled form that chooses from the dataset
    treats the copy's row and the pinned one alike: the same value and labels,
    matched by the same narrowing, permitted by the filter in the same
    contexts; and only rows whose projection onto the columns the service
    computes ([columns_read_by]) differs, or that are new, were sent.  Asked:
    fewer than 2^31 rows, cells in those columns that are text, whole numbers, booleans or empty, and
    no two of the rows' texts with one hash.  What [pulldata] reads of the
    dataset is not among those columns and stays as it was (Findings,
    [pulldata_column_stays_stale]). *)
Theorem delta_brings_the_copy_up_to_date (c : catalog) (form_version_id dataset_key : pystr)
    (xf xt : dataset_version) (column : pystr) (limit : nat)
    (Hc : catalog_sound c) (Hpin : pinned_version c form_version_id dataset_key = Some (xv_id xt))
    (Hxf : xf ∈ ct_dataset_versions c) (Hxt : xt ∈ ct_dataset_versions c) (Hsame : xv_dataset xf = xv_dataset xt)
    (Hf : rows_sound sha256_hex utf8 c xf column) (Ht : rows_sound sha256_hex utf8 c xt column)
    (Hsize : xv_row_count xt < 2 ^ 31) (Hlimit : (0 < limit)%nat) :
  let columns := columns_for c form_version_id dataset_key in
  let old := records_of c (xv_id xf) in
  let new := records_of c (xv_id xt) in
  forall (Hcells : forall r k, r ∈ old ++ new -> k ∈ columns -> plain_cell (vget (xr_data r) k) = true)
    (Hhash : forall q r, q ∈ old -> r ∈ new -> read_as columns (xr_data q) = read_as columns (xr_data r) ->
               hashed_text columns (xr_data q) = hashed_text columns (xr_data r)),
  exists pages,
    follow (S (length old + length new)) (fetch_delta_for c form_version_id dataset_key (xv_id xf) limit) None =
      Some pages /\
    (forall k, match List.find (fun r => str_eqb (xr_key r) k) new with
               | Some r => exists row, dget (fold_left (apply_page column) pages (held_rows old)) k = Some row /\
                   forall v compiled i cf, v ∈ ct_versions c -> vr_id v = form_version_id ->
                     check_publishable rg (vr_ir v) = inl compiled -> dget (f_fields compiled) i = Some cf ->
                     dataset_key_of cf = Some dataset_key ->
                     exists q, cf_choice_query cf = Some q /\ chosen_alike q row (xr_data r)
               | None => dget (fold_left (apply_page column) pages (held_rows old)) k = None
               end) /\
    forall row, row ∈ concat (map fst pages) ->
      exists r, r ∈ new /\ row = xr_data r /\
        forall q, q ∈ old -> xr_key q = xr_key r -> read_as columns (xr_data q) <> read_as columns (xr_data r).
Proof.
  cbv zeta. intros Hcells Hhash. destruct (delta_pages c form_version_id dataset_key xf xt column limit) as (pages & Hp & Hch & Hdel); try done.
  exists pages. split_and!; [done| |].
  - intros k. pose proof (copy_after c form_version_id dataset_key xf xt column Hc Ht pages Hch Hdel k) as H.
    destruct (List.find _ _) as [r|]; [|done]. destruct H as (Hr & row & Hrow & Hread & Hfrom). exists row. split; [done|].
    intros v compiled i cf Hv Hi Hg Hcf Hk. eapply reading_alike; try done; destruct Hfrom as [->|(q & Hq & ->)]; try done.
    + intros x Hx. split; (apply Hcells; [|done]); apply elem_of_app; by right.
    + intros x Hx. split; (apply Hcells; [|done]); apply elem_of_app; auto.
    + by apply Hhash.
  - intros row Hrow. rewrite Hch in Hrow. apply list_elem_of_fmap in Hrow as (r & -> & Hr).
    apply elem_of_Lfilter in Hr as [Hr Hchg]. exists r. split_and!; [done..|]. intros q Hq Hk Heq.
    unfold row_changed in Hchg. rewrite <- Hk in Hchg. rewrite before_old in Hchg by done.
    by rewrite Heq, str_eqb_refl in Hchg.
Qed.
End Delivery.

(** ** Witnesses *)

Definition d1_forms : list deployed_version := Eval vm_compute in
  default [] (deployed_versions_for_device str_cmp sample_catalog (lit "d1")).
Definition d1_datasets : list deployed_dataset := Eval vm_compute in
  default [] (deployed_dataset_versions_for_device str_cmp sample_catalog (lit "d1")).
Definition register_1 : version := Eval vm_compute in
  default (Version [] [] 0 VNone [] 0 None None) (ct_versions sample_catalog !! 0%nat).

Lemma dataset_manifest_covers_forms_witness :
  deployed_versions_for_device str_cmp sample_catalog (lit "d1") = Some d1_forms /\
  deployed_dataset_versions_for_device str_cmp sample_catalog (lit "d1") = Some d1_datasets /\
  length d1_datasets = 2%nat /\
  exists compiled f, check_publishable sample_registry (vr_ir register_1) = inl compiled /\
    f ∈ ct_forms sample_catalog /\
    map dd_key (List.filter (fun e => str_eqb (dd_form_version e) (vr_id register_1)) d1_datasets) ≡ₚ dataset_keys compiled.
Proof.
  assert (deployed_versions_for_device str_cmp sample_catalog (lit "d1") = Some d1_forms) as Hl by (vm_compute; reflexivity).
  assert (deployed_dataset_versions_for_device str_cmp sample_catalog (lit "d1") = Some d1_datasets) as Hm
    by (vm_compute; reflexivity).
  split_and!; [exact Hl|exact Hm|reflexivity|].
  destruct (dataset_manifest_covers_forms same_bytes same_bytes sample_registry str_cmp sample_catalog (lit "d1") d1_forms
              d1_datasets sample_catalog_sound Hl Hm) as [_ H].
  destruct (H register_1) as (compiled & f & H1 & H2 & _ & H3 & _); [by left|vm_compute; by left|].
  exists compiled, f. split; [exact H1|]. split; [exact H2|exact H3].
Defined.

Lemma row_pages_are_the_version_witness :
  villages_first ∈ ct_dataset_versions sample_catalog /\
  exists pages,
    follow 4 (fetch_rows sample_catalog (xv_id villages_first) 2) None = Some pages /\ concat pages = villages_1.
Proof.
  assert (villages_first ∈ ct_dataset_versions sample_catalog) as Hx by by left. split; [exact Hx|].
  destruct (row_pages_are_the_version same_bytes same_bytes sample_registry sample_catalog villages_first 2
              sample_catalog_sound Hx) as (pages & Hp & Hc & _); [vm_compute; reflexivity|lia|].
  exists pages. split; [exact Hp|]. rewrite Hc. vm_compute. reflexivity.
Defined.

Ltac village_rows :=
  split; [vm_compute; reflexivity|vm_compute; reflexivity|vm_compute; reflexivity|];
  let r := fresh "r" in let Hr := fresh "Hr" in
  intros r Hr; repeat (apply elem_of_cons in Hr as [->|Hr];
    [split; [vm_compute; reflexivity|split; [vm_compute; discriminate|vm_compute; reflexivity]]|]); by inversion Hr.

Lemma villages_rows (x : dataset_version) :
  x ∈ ct_dataset_versions sample_catalog -> rows_sound same_bytes same_bytes sample_catalog x (lit "name").
Proof.
  intros Hx. assert (x = villages_first \/ x = villages_second) as [->| ->].
  { apply elem_of_cons in Hx as [->|Hx]; [by left|]. apply elem_of_cons in Hx as [->|Hx]; [by right|by inversion Hx]. }
  - village_rows.
  - village_rows.
Qed.

(** The second list from a copy of the first: the new village and the renamed
    one are sent, the one whose unread note changed is not, and the village
    that is gone is named. *)
Lemma delta_brings_the_copy_up_to_date_witness :
  follow 7 (fetch_delta_for same_bytes same_bytes sample_catalog (lit "u6") (lit "villages") (lit "u1") 1) None =
    Some [([village "v4" "south" "Dale" "x"], []); ([village "v2" "north" "Bramble" "x"], []); ([], [lit "v3"])] /\
  exists pages,
    follow 7 (fetch_delta_for same_bytes same_bytes sample_catalog (lit "u6") (lit "villages") (lit "u1") 1) None = Some pages /\
    dget (fold_left (apply_page (lit "name")) pages (held_rows (records_of sample_catalog (lit "u1")))) (lit "v3") = None /\
    exists row, dget (fold_left (apply_page (lit "name")) pages (held_rows (records_of sample_catalog (lit "u1")))) (lit "v1") = Some row /\
      forall v compiled i cf, v ∈ ct_versions sample_catalog -> vr_id v = lit "u6" ->
        check_publishable sample_registry (vr_ir v) = inl compiled -> dget (f_fields compiled) i = Some cf ->
        dataset_key_of cf = Some (lit "villages") ->
        exists q, cf_choice_query cf = Some q /\ chosen_alike q row (village "v1" "north" "Aster" "y").
Proof.
  split; [vm_compute; reflexivity|].
  assert (villages_first ∈ ct_dataset_versions sample_catalog) as Hf by by left.
  assert (villages_second ∈ ct_dataset_versions sample_catalog) as Ht by (right; by left).
  destruct (delta_brings_the_copy_up_to_date same_bytes same_bytes sample_registry sample_catalog (lit "u6") (lit "villages")
    villages_first villages_second (lit "name") 1 sample_catalog_sound) as (pages & Hp & Hk & _);
    [vm_compute; reflexivity|exact Hf|exact Ht|reflexivity|exact (villages_rows _ Hf)|exact (villages_rows _ Ht)|
     vm_compute; reflexivity|lia| | |].
  - assert (forallb (fun r => forallb (fun k => plain_cell (vget (xr_data r) k)) (columns_for sample_catalog (lit "u6") (lit "villages")))
      (records_of sample_catalog (xv_id villages_first) ++ records_of sample_catalog (xv_id villages_second)) = true) as H
      by (vm_compute; reflexivity).
    intros r k Hr Hin. rewrite forallb_forall in H. apply list_elem_of_In, H in Hr. rewrite forallb_forall in Hr.
    by apply Hr, list_elem_of_In.
  - intros q r _ _ E. apply app_inv_head in E. exact E.
  - exists pages. split; [exact Hp|]. split; [exact (Hk (lit "v3"))|exact (Hk (lit "v1"))].
Defined.
