(* ===== verification/ExportTheorems.v ===== *)
(** * The export: theorems

    The columns of a plan, what a bundle says of its cells, and the round
    trip through the files. *)

From Stdlib Require Import Sorted.
From S2P Require Import Prelude PyStr PyNum Value PyJson TextFormats Expr Expression Datasets Compile Runtime Projection.
From S2P Require Import DatasetKeys Surface Printer PublishGate Server Samples CatalogSamples Cells ExportPlan PlanFacts.
From S2P Require Import Statistical ExportManifest CellFacts ReadbackFacts ExportFacts.
From S2P Require Import StatisticalFacts PyDate Fold Push Catalog Forms Entities CatalogFacts CatalogSound.
From S2P Require Import Reachability ExportService ExportServiceFacts ExportSamples.

(** C7: the round trip of docs/project-conventions.md item 5.  Asked: the
    forms' ids are plain and every version gives a field the same type
    ([types_agree]); no question takes the name of a key column, submission_id,
    form_version or instance ([keeps_keys]); records have an id each, their
    instances in order, and answers that have a canonical value for their type
    ([record_defined]).  Then the long tables can be built; and where their
    names and cells fit the CSV reader's field limit ([fields_fit]), reading
    the files back with the manifest gives exactly the submissions exported,
    each under its own version; every answer of every version's questions as
    its canonical value, the token where it is unreadable and null where there
    is none; and every repeat's instances, in order, under their ids.
    (Without these it need not: Findings, [key_column_taken_loses_rows],
    [retyped_field_fails_the_export]; and the canonical value, the code's
    [canonical_value], is not always the answer itself:
    [long_integer_reads_back_another].) *)
Theorem export_reads_back {env : PyEnv} {uni : UnicodeDB} language forms records base form_id title ciphers
    (Hids : plain_ids forms) (Htypes : types_agree forms) (Hkeys : keeps_keys (build_plan forms language) = true)
    (Hrecords : NoDup (map sr_id records)) (Hdefined : forall r, r ∈ records -> record_defined forms r /\ sr_id r <> []) :
  (exists tables, build_tables (build_plan forms language) records Long base = Ok tables) /\
  forall tables, build_tables (build_plan forms language) records Long base = Ok tables -> fields_fit tables ->
    exists found,
      read_bundle (build_manifest (build_plan forms language) tables records form_id title language Long ciphers None)
        (csv_files tables) = inl found /\
      dkeys found = map sr_id records /\
      forall r, r ∈ records -> exists s, dget found (sr_id r) = Some s /\ rs_id s = sr_id r /\
        rs_version s = Some (sr_form_version r) /\
        answers_found forms None r [] (ep_top (sr_projection r)) (rs_top s) /\
        forall repeat_id, repeat_id ∈ dkeys (pl_repeats (build_plan forms language)) ->
          Forall2 (instance_reads forms r repeat_id) (instances_in r repeat_id) (default [] (dget (rs_repeats s) repeat_id)).
Proof.
  pose proof (plain_given _ Hids) as Hgiven. split.
  - apply long_tables_exist; [done..|]. intros r Hr. apply (Hdefined r Hr).
  - intros tables Hbuild Hfit.
    destruct (read_long language forms records base form_id title ciphers tables) as (found & Hread & Hids' & Hall); [done..|].
    exists found. split_and!; [done..|]. intros r Hr. destruct (Hall r Hr) as (s & Hs & (Hid & Hver & Htop) & Hrep). by exists s.
Qed.

(** C16: a cell of an answer column, in either shape and whatever the format
    made of the columns, is the answer of one record's row or of one of its
    instances.  If that answer is unreadable the cell is the token and the
    manifest marks the column; if not the cell is what it would be if
    nothing of the record were unreadable.  A wide table pads with blanks. *)
Theorem unreadable_answers_are_marked {env : PyEnv} {uni : UnicodeDB} language forms records sh base tables ciphers stored t j row k c cl
    (Hids : plain_ids forms)
    (Hinstances : forall r rid row, r ∈ records -> row ∈ instances_in r rid -> 93%N ∉ rr_instance row)
    (Hbuild : build_tables (build_plan forms language) records sh base = Ok tables)
    (Ht : t ∈ tables) (Hrow : tb_rows t !! j = Some row) (Hc : tb_columns t !! k = Some c) (Hcl : row !! k = Some cl)
    (Hvalue : is_value_column c = true) :
  (sh = Wide /\ cl = CEmpty) \/
  exists r prefix cells, answer_row records r prefix cells /\
    if bool_decide (path_under prefix (field_of_column c) ∈ ep_unreadable (sr_projection r))
    then cl = CText ENCRYPTED /\
         exists m, tm_columns (describe_table records ciphers stored t) !! k = Some m /\ cm_unreadable m <> None
    else value_cell c prefix cells (all_readable r) = Ok cl.
Proof.
  destruct (cells_are_answers language _ _ _ _ _ _ _ _ _ _ _ Hids Hbuild Ht Hrow Hc Hcl Hvalue) as [?|H]; [by left|right].
  destruct H as (r & prefix & cells & f & i & cf & Hans & Hcell & Hf & Hcf & Hi). exists r, prefix, cells. split; [done|].
  unfold value_cell in *. unfold field_of_column in *. rewrite Hi in *. cbn [from_option id] in *.
  case_bool_decide as Hu; [|exact Hcell]. injection Hcell as <-. split; [done|].
  eexists. split; [unfold describe_table; cbn [tm_columns]; by rewrite list_lookup_imap, Hc|].
  eapply unreadable_marked; [apply Hans|done| |done|done]. by eapply (answer_row_field forms records r prefix cells f).
Qed.

(** C34: the columns of every table of a plan have distinct names, of the
    parent's, of each repeat's and of the wide table's whatever the records,
    and the column that holds a question's whole answer is named by the
    question's own identifier. *)
Theorem column_names_are_distinct {env : PyEnv} {uni : UnicodeDB} language forms records :
  let plan := build_plan forms language in
  let tables := pl_parent plan :: map snd (pl_repeats plan) in
  (forall cols, cols ∈ tables ->
     NoDup (map cl_name cols) /\
     forall c, c ∈ cols -> cl_source c = Field -> cl_component c = None -> cl_field c = Some (cl_name c)) /\
  NoDup (map cl_name (pl_parent plan ++ map snd (flatten records plan))).
Proof.
  cbn zeta. split; [|apply wide_names_distinct]. intros cols [->|Hcols]%elem_of_cons.
  - split; [apply parent_names_distinct|]. destruct (plan_of_built language forms) as [-> _]. intros c. by apply table_own_names.
  - apply list_elem_of_In, in_map_iff in Hcols as ([r cols'] & <- & Hrc%list_elem_of_In). cbn.
    split; [by eapply repeat_names_distinct|]. destruct (plan_repeat_table _ _ _ _ Hrc) as [Hr ->]. intros c.
    by apply (table_own_names _ _ (Some r)).
Qed.

(** C23: a plan is the union of its versions.  The answer columns of every
    table are, in order, the first occurrences among the questions of all
    versions, oldest version first and in document order, each with exactly
    the versions that have it; and the repeats with a table are those some
    version's question is in. *)
Theorem plan_is_the_union {env : PyEnv} {uni : UnicodeDB} language forms (Hids : plain_ids forms) :
  let plan := build_plan forms language in
  let unnamed_answers cols := map (with_name []) (List.filter is_value_column cols) in
  unnamed_answers (pl_parent plan) = union_columns language forms None /\
  (forall r cols, (r, cols) ∈ pl_repeats plan -> unnamed_answers cols = union_columns language forms (Some r)) /\
  NoDup (dkeys (pl_repeats plan)) /\
  (forall r, r ∈ dkeys (pl_repeats plan) <->
     exists f i cf, f ∈ forms /\ i ∈ f_order f /\ dget (f_fields f) i = Some cf /\ cf_repeat cf = Some r) /\
  pl_versions plan ≡ₚ map form_version_number forms.
Proof.
  pose proof (plain_given _ Hids) as Hgiven. cbn zeta. split_and!.
  - by apply parent_union.
  - intros r cols. by apply repeat_union.
  - apply plan_repeats_distinct.
  - apply plan_repeats.
  - change (map form_version_number (by_version forms) ≡ₚ map form_version_number forms). apply Permutation_map, sort_by_perm.
Qed.

(** C39: the names a .dta or .sav gets.  One per column, at most 32
    characters, letters, digits and underscores after a first letter, no two
    the same whatever their case, and whatever the rows. *)
Theorem statistical_names_are_legal {env : PyEnv} {chars : CharClasses} {laws : CharLaws} columns rows
    (Hcount : (N.of_nat (2 + length columns) < 10 ^ 30)%N) :
  let names := map st_name (plan_columns columns rows) in
  length names = length columns /\ Forall legal_name names /\ NoDup (map str_lower names) /\
  forall rows', map st_name (plan_columns columns rows') = names.
Proof.
  cbn zeta. destruct (plan_from_names rows columns 0 []) as (Hlegal & Hdistinct & _); [done|].
  split_and!; [|exact Hlegal|exact Hdistinct|intros; apply plan_from_rows].
  rewrite length_map. apply plan_from_length.
Qed.

(** Every column of every table goes into the type its plan gave it:
    the conversion never finds a cell that is not of it.  A numeric column
    holds numbers or was turned to text because it holds the token; a date
    column holds dates or was turned to text.  All that can be let out is an
    integer too large for a float. *)
Theorem planned_columns_convert {env : PyEnv} {uni : UnicodeDB} {chars : CharClasses} language forms records sh base tables t k p
    (Hbuild : build_tables (build_plan forms language) records sh base = Ok tables) (Ht : t ∈ tables)
    (Hp : plan_columns (tb_columns t) (tb_rows t) !! k = Some p) :
  match series_of p (column_cells k (tb_rows t)) with
  | inl _ => True
  | inr e => e = StatRaises OverflowError
  end.
Proof.
  destruct (plan_from_lookup _ _ _ _ _ _ Hp) as (c & name & Hc & ->). apply series_converts. intros Hd cl Hcl.
  apply list_elem_of_In, in_map_iff in Hcl as (row & <- & Hrow%list_elem_of_In). apply list_elem_of_lookup in Hrow as [j Hj].
  destruct (row !! k) as [cl|] eqn:Ecl; [|done]. cbn [from_option id].
  by eapply (table_cells_numeric language forms records sh base tables t j row k c cl).
Qed.

(** C10: an export, end to end, over the tables as the session sees them (the
    row-level policies, which hide other rows from it, are outside this model).
    When it is not refused it is of one form and of every submission there
    that matches, once each, in the order they were received and within the
    limit; each is read under the version it was
    collected under, named through the rows that version's pins resolve to,
    and projected from the fold of its own ops; the plan is built from exactly
    the versions of those submissions; and the files are the tables' as CSV,
    described by their manifest. *)
Theorem export_of_every_submission {env : PyEnv} {uni : UnicodeDB} collate today now received_at sha256_hex utf8 rg c rq b
    (Hsound : sound sha256_hex utf8 rg c) (Hsubs : NoDup (dkeys (sv_submissions (ct_server c))))
    (Hcollate : forall x y, collate y x = CompOpp (collate x y))
    (Hexport : export_form collate today now received_at c rq = inl (Some b)) :
  exists f rows records forms ciphers title,
    matching_forms c rq = [f] /\
    rows ≡ₚ matching_submissions c rq f /\ Sorted (fun x y => received_before collate received_at x y = true) rows /\
    (length rows <= er_limit rq)%nat /\
    Forall2 (own_record collate today now c rq f) rows records /\
    (forall g, g ∈ forms <-> exists sid v, sid ∈ dkeys rows /\ version_of_submission c sid = Some v /\ compile (vr_ir v) = Ok g) /\
    let plan := build_plan forms (er_language rq) in
    build_tables plan records (er_shape rq) (fm_key f) = Ok (bn_tables b) /\
    bn_files b = csv_files (bn_tables b) /\
    bn_manifest b = build_manifest plan (bn_tables b) records (fm_key f) title (er_language rq) (er_shape rq) ciphers None.
Proof.
  apply export_form_spec in Hexport as (f & rows & compiled & folds & records & Hf & -> & Hlen & Hrec & Ht & Hfiles & Hman).
  set (rows := sort_by _ _) in *. assert (rows ≡ₚ matching_submissions c rq f) as Hp by apply sort_by_perm.
  eexists f, rows, records, (distinct_forms c compiled), _, _. cbn zeta. split_and!; try done.
  - by apply received_sorted.
  - eapply records_are_own; [done..| |exact Hrec]. intros x. by rewrite Hp.
  - intros g. eapply forms_exported; [done..|]. by eapply export_records_compiled.
Qed.

(** ** Witnesses *)

Lemma export_reads_back_witness :
  plain_ids visits /\ exists found,
    read_bundle (build_manifest visit_plan (visit_tables Long) visit_records "visit" None None Long [] None)
      (csv_files (visit_tables Long)) = inl found /\ dkeys found = [lit "s1"; lit "s2"].
Proof.
  split; [exact visits_plain|].
  destruct (export_reads_back None visits visit_records "visit" "visit" None [] visits_plain visits_agree) as [_ H].
  - by_compute.
  - apply (bool_decide_unpack _). by_compute.
  - exact visit_records_defined.
  - destruct (H (visit_tables Long) (visit_tables_built Long) visit_tables_fit) as (found & Hread & Hkeys & _).
    exists found. exact (conj Hread Hkeys).
Defined.

Lemma unreadable_answers_are_marked_witness :
  visit_row !! 9%nat = Some (CText ENCRYPTED) /\ cl_field name_column = Some (lit "name") /\
  exists r prefix cells, answer_row visit_records r prefix cells /\
    if bool_decide (path_under prefix (field_of_column name_column) ∈ ep_unreadable (sr_projection r))
    then CText ENCRYPTED = CText ENCRYPTED /\
         exists m, tm_columns (describe_table visit_records [] None visit_wide) !! 9%nat = Some m /\ cm_unreadable m <> None
    else value_cell name_column prefix cells (all_readable r) = Ok (CText ENCRYPTED).
Proof.
  split; [by_compute|]. split; [by_compute|].
  destruct (unreadable_answers_are_marked None visits visit_records Wide "visit" (visit_tables Wide) [] None visit_wide 0 visit_row 9
    name_column (CText ENCRYPTED) visits_plain visit_instances_plain (visit_tables_built Wide)) as [[_ ?]|H]; try done.
  rewrite visit_wide_table. by left.
Defined.

Lemma plan_is_the_union_witness :
  plain_ids visits /\
  map (with_name []) (List.filter is_value_column (pl_parent (build_plan visits None))) = union_columns None visits None /\
  length (union_columns None visits None) = 12%nat.
Proof.
  split; [exact visits_plain|]. split; [|by_compute].
  pose proof (plan_is_the_union None visits visits_plain) as H. cbv zeta in H. destruct H as [H _]. exact H.
Defined.

Lemma statistical_names_are_legal_witness :
  map st_name (plan_columns (tb_columns visit_wide) []) !! 9%nat = Some (lit "name") /\
  NoDup (map str_lower (map st_name (plan_columns (tb_columns visit_wide) (tb_rows visit_wide)))).
Proof.
  split; [by_compute|].
  destruct (statistical_names_are_legal (tb_columns visit_wide) (tb_rows visit_wide)) as (_ & _ & H & _); [by_compute|exact H].
Defined.

Lemma planned_columns_convert_witness :
  exists p, plan_columns (tb_columns visit_wide) (tb_rows visit_wide) !! 9%nat = Some p /\
    match series_of p (column_cells 9 (tb_rows visit_wide)) with inl _ => True | inr e => e = StatRaises OverflowError end.
Proof.
  destruct (plan_columns (tb_columns visit_wide) (tb_rows visit_wide) !! 9%nat) as [p|] eqn:E; [|exfalso; by vm_compute in E].
  exists p. split; [done|].
  apply (planned_columns_convert None visits visit_records Wide "visit" (visit_tables Wide) visit_wide 9 p (visit_tables_built Wide)); [|exact E].
  rewrite visit_wide_table. by left.
Defined.

(** Two visits to one village, under versions that pin different lists. *)
Lemma export_of_every_submission_witness :
  sound same_bytes same_bytes sample_registry field_catalog /\
  exists f rows records,
    rows ≡ₚ matching_submissions field_catalog field_request f /\
    Forall2 (fun row r => sr_id r = row.1 /\ village_label r = Some (if str_eqb row.1 (lit "s1") then lit "Briar" else lit "Bramble"))
      rows records.
Proof.
  split; [exact field_catalog_sound|].
  assert (NoDup (dkeys (sv_submissions (ct_server field_catalog)))) as Hdistinct by (apply (bool_decide_unpack _); by_compute).
  destruct (export_form str_cmp (Date 2026 9 14) [] (fun _ => []) field_catalog field_request) as [[b|]|] eqn:E; [|by vm_compute in E..].
  destruct (export_of_every_submission str_cmp (Date 2026 9 14) [] (fun _ => []) same_bytes same_bytes sample_registry field_catalog
    field_request b field_catalog_sound Hdistinct
    (fun x y => str_cmp_antisym y x) E)
    as (f & rows & records & forms & ciphers & title & Hf & Hrows & _ & _ & Hown & _).
  exists f, rows, records. split_and!; [done|]. eapply Forall2_elem; [|exact Hown]. intros row r Hrow Hr.
  split; [apply Hr|]. eapply village_labelled; [|exact Hr]. rewrite Hrows in Hrow. by apply elem_of_Lfilter in Hrow as [? _].
Defined.
