(* ===== verification/AuthorityTheorems.v ===== *)
(** * People and authority: theorems

    What any sequence of requests leaves of permissions, grants, memberships
    and standard roles, what a principal is, and what a login opens. *)

From S2P Require Import Prelude PyStr Value Expression DatasetKeys Server Catalog Media MediaFacts Identity People AuthorityFacts.

Section Authority.
Context (ulid : N -> pystr) (token_hash : pystr -> pystr) (argon2 : pystr -> pystr -> bool).
Context (hash_password : pystr -> pystr) (collate : pystr -> pystr -> comparison) (ttl : Z).

Abbreviation serving := (serve_person ulid token_hash argon2 hash_password collate ttl) (only parsing).
Abbreviation acting := (actor token_hash ttl) (only parsing).

(** The tables after a sequence of requests. *)
Definition run (d : directory) (l : list (Z * request)) : directory := fold_left serving l d.

Lemma run_snoc d l rq : run d (l ++ [rq]) = serving (run d l) rq.
Proof. unfold run. by rewrite fold_left_app. Qed.

Lemma serving_lawful d rq : lawful d -> lawful (serving d rq).
Proof.
  intros Hl. destruct (handle_does ulid token_hash argon2 hash_password collate ttl d rq) as [(org & slug & H)|(i & d1 & org & slug & _ & _ & _ & _ & H1 & H2)].
  - by eapply does_lawful.
  - eapply does_lawful; [exact H2|]. by eapply does_lawful.
Qed.

Lemma run_lawful d l : lawful d -> lawful (run d l).
Proof. intros Hl. induction l as [|rq l IH] using rev_ind; [done|]. rewrite run_snoc. by apply serving_lawful. Qed.

(** What a principal has is what its person holds. *)
Lemma principal_has d user org slug x :
  lawful d -> dcp_has (principal_for d user org slug) x = true -> x ∈ held_permissions d user.
Proof.
  intros Hl Hx%bool_decide_eq_true. apply setting_list_sound in Hx; [done|].
  intros y (g & _ & Hy)%held_elem. apply PERMISSIONS_plain. by apply (lf_permissions _ Hl _ Hy).
Qed.

Lemma request_held d rq user x :
  lawful d -> x ∈ held_permissions (serving d rq) user ->
  x ∈ held_permissions d user \/ exists i, acting d rq = Some i /\ x ∈ held_permissions d (ie_user i).
Proof.
  intros Hl Hx. destruct (handle_does ulid token_hash argon2 hash_password collate ttl d rq)
    as [(org & slug & H)|(i & d1 & org & slug & Hi & _ & Hp & _ & H1 & H2)].
  - destruct (within_held _ _ _ _ _ (does_within _ _ _ H) Hx) as [|Hn]; [by left|]. by rewrite nobody_has in Hn.
  - destruct (within_held _ _ _ _ _ (does_within _ _ _ H2) Hx) as [H1x|Hh].
    + destruct (within_held _ _ _ _ _ (does_within _ _ _ H1) H1x) as [|Hn]; [by left|]. by rewrite nobody_has in Hn.
    + right. exists i. split; [done|]. rewrite Hp in Hh. by eapply principal_has.
Qed.

(** C5: authority is never created.  Whatever requests are made, by whom and
    with what they come to, a person who ends up holding a permission held it
    at the start, or some request was acted on for someone who held it then;
    a permission nobody holds at the start nobody ever holds. *)
Theorem permissions_come_from_holders d l user x (Hlawful : lawful d) (Hheld : x ∈ held_permissions (run d l) user) :
  (x ∈ held_permissions d user \/
   exists before rq after i, l = before ++ rq :: after /\ acting (run d before) rq = Some i /\
     x ∈ held_permissions (run d before) (ie_user i)) /\
  exists someone, x ∈ held_permissions d someone.
Proof.
  revert user Hheld. induction l as [|rq l IH] using rev_ind; intros user Hheld; [split; [by left|by exists user]|].
  rewrite run_snoc in Hheld. destruct (request_held _ _ _ _ (run_lawful d l Hlawful) Hheld) as [Hx|(i & Hi & Hx)].
  - destruct (IH user Hx) as [[H|(before & rq' & after & i & -> & Hi & Hx')] Hsome]; split; [by left|done| |done].
    right. exists before, rq', (after ++ [rq]), i. by rewrite <- app_assoc.
  - destruct (IH (ie_user i) Hx) as [_ Hsome]. split; [right|done]. by exists l, rq, [], i.
Qed.

(** A principal's scope names projects and teams of the tables. *)
Lemma principal_plain d user org slug :
  lawful d -> (forall pr, pr ∈ di_projects d -> 44%N ∉ pr.1) -> (forall te, te ∈ di_teams d -> 44%N ∉ te_id te) ->
  plain_targets (principal_for d user org slug).
Proof.
  intros Hl Hpr Hte. split; cbn.
  - intros x (g & [Hg _]%grants_of_elem & _ & Hx)%granted_projects_elem. destruct (lf_targets _ Hl g Hg) as [Hk _]. rewrite Hx in Hk.
    cbn in Hk. apply bool_decide_eq_true, list_elem_of_In, in_map_iff in Hk as (pr & <- & Hin%list_elem_of_In). by apply Hpr.
  - intros x (g & s & [Hg _]%grants_of_elem & Hs & Hr)%granted_teams_elem.
    assert (forall y, rtc (child_of (di_teams d)) y x -> 44%N ∉ y -> 44%N ∉ x) as Hdown.
    { induction 1 as [|y z w (te & Hin & <- & _) _ IH]; [done|]. intros _. by apply IH, Hte. }
    apply (Hdown s Hr). destruct (lf_targets _ Hl g Hg) as [_ Hk]. rewrite Hs in Hk. cbn in Hk.
    apply bool_decide_eq_true, list_elem_of_In, in_map_iff in Hk as (te & <- & Hin%list_elem_of_In). by apply Hte.
Qed.

Lemma nobody_plain org slug : plain_targets (organization_only org slug).
Proof. split; by intros ? ?%elem_of_nil. Qed.

Lemma request_authorised d rq g :
  lawful d -> (forall pr, pr ∈ di_projects d -> 44%N ∉ pr.1) -> (forall te, te ∈ di_teams d -> 44%N ∉ te_id te) ->
  g ∈ di_grants (serving d rq) -> live g ->
  g ∈ di_grants d \/ exists i, acting d rq = Some i /\ lit "user.assign_role" ∈ held_permissions d (ie_user i) /\
    covers (ie_principal i) (serving d rq) g.
Proof.
  intros Hl Hpr Hte Hg Hlive. destruct (handle_does ulid token_hash argon2 hash_password collate ttl d rq)
    as [(org & slug & H)|(i & d1 & org & slug & Hi & _ & Hp & _ & H1 & H2)].
  - destruct (au_grants _ _ _ (does_authorised _ _ _ (nobody_plain org slug) H) g Hg Hlive) as [|[Ha _]]; [by left|].
    by rewrite nobody_has in Ha.
  - assert (plain_targets (ie_principal i)) as Hplain by (rewrite Hp; by apply principal_plain).
    destruct (au_grants _ _ _ (does_authorised _ _ _ Hplain H2) g Hg Hlive) as [Hg1|[Ha Hc]].
    + destruct (au_grants _ _ _ (does_authorised _ _ _ (nobody_plain org slug) H1) g Hg1 Hlive) as [|[Ha _]]; [by left|].
      by rewrite nobody_has in Ha.
    + right. exists i. split; [done|]. split; [|done]. rewrite Hp in Ha. by eapply principal_has.
Qed.

Lemma request_tables d rq : di_projects (serving d rq) = di_projects d /\ forall te, te ∈ di_teams d -> te ∈ di_teams (serving d rq).
Proof.
  assert (forall p e f, does p e f -> di_projects f = di_projects e /\ forall te, te ∈ di_teams e -> te ∈ di_teams f) as H.
  { induction 1 as [|e f g Hef _ [Hp Ht]]; [done|]. rewrite Hp. split; [by destruct Hef|]. intros te Hte. apply Ht.
    destruct Hef; cbn; try done. apply elem_of_app. by left. }
  destruct (handle_does ulid token_hash argon2 hash_password collate ttl d rq) as [(org & slug & H1)|(i & d1 & org & slug & _ & _ & _ & _ & H1 & H2)].
  - by apply H in H1.
  - apply H in H1 as [P1 T1]. apply H in H2 as [P2 T2]. split; [congruence|auto].
Qed.

(** C13: what a grant made by a request is.  From lawful tables, a live grant after any requests
    was there at the start, or was made by a request acted on for someone who
    could assign roles then, of a role and to a person of their own
    organisation, and, if they were not organisation-wide, on one of their
    projects, one of their teams or those below, or a team of their projects.
    An organisation-wide maker's grant may be on any project or team there is,
    another organisation's too: the policy does not ask (Findings,
    [administrator_grants_on_another_organization]).  Project and team
    identifiers have no comma. *)
Theorem grants_stay_in_scope d l g (Hlawful : lawful d)
    (Hprojects : forall pr, pr ∈ di_projects d -> 44%N ∉ pr.1) (Hteams : forall te, te ∈ di_teams (run d l) -> 44%N ∉ te_id te)
    (Hg : g ∈ di_grants (run d l)) (Hlive : live g) :
  g ∈ di_grants d \/
  exists before rq after i, l = before ++ rq :: after /\ acting (run d before) rq = Some i /\
    lit "user.assign_role" ∈ held_permissions (run d before) (ie_user i) /\
    covers (ie_principal i) (run d (before ++ [rq])) g.
Proof.
  assert (forall l, di_projects (run d l) = di_projects d) as Hsame.
  { intros l'. induction l' as [|rq l' IH] using rev_ind; [done|]. rewrite run_snoc. destruct (request_tables (run d l') rq) as [-> _]. done. }
  revert Hteams Hg. induction l as [|rq l IH] using rev_ind; intros Hteams Hg; [by left|]. rewrite run_snoc in Hteams, Hg.
  assert (forall te, te ∈ di_teams (run d l) -> 44%N ∉ te_id te) as Hteams' by (intros te Hte; by apply Hteams, request_tables).
  destruct (request_authorised (run d l) rq g (run_lawful d l Hlawful)) as [Hx|(i & Hi & Ha & Hc)]; [by rewrite Hsame|done..| |].
  - destruct (IH Hteams' Hx) as [|(before & rq' & after & i & -> & H)]; [by left|]. right. exists before, rq', (after ++ [rq]), i.
    by rewrite <- app_assoc.
  - right. exists l, rq, [], i. rewrite run_snoc. auto.
Qed.

(** C14: only members act, and only an approver makes one.  Whatever a request
    acts as has an active membership in its organisation at that moment; and a
    person whose membership is active after any requests had it at the start,
    or some request was acted on for someone of that organisation who could
    approve then. *)
Theorem only_the_approved_act d l (Hlawful : lawful d) :
  (forall rq i, acting (run d l) rq = Some i -> active_in (pn_org (ie_principal i)) (ie_user i) (run d l)) /\
  (forall org user, active_in org user (run d l) -> active_in org user d \/
     exists before rq after i, l = before ++ rq :: after /\ acting (run d before) rq = Some i /\ pn_org (ie_principal i) = org /\
       lit "user.approve" ∈ held_permissions (run d before) (ie_user i)).
Proof.
  split.
  - intros [now rq] i Hi. unfold actor in Hi. cbn in Hi. destruct rq as [|slug token a]; [done|].
    destruct (current_identity token_hash now ttl slug token (run d l)) as [d1 [oi|]] eqn:E; [|done]. cbn in Hi. subst oi.
    by destruct (resolved _ _ _ _ _ _ _ _ E) as (org & -> & _ & Ha & _).
  - intros org user. induction l as [|rq l IH] using rev_ind; [by left|]. rewrite run_snoc. intros Ha.
    assert (active_in org user (run d l) \/ exists i, acting (run d l) rq = Some i /\ pn_org (ie_principal i) = org /\
      lit "user.approve" ∈ held_permissions (run d l) (ie_user i)) as [H|(i & Hi & Ho & Hx)].
    { destruct (handle_does ulid token_hash argon2 hash_password collate ttl (run d l) rq)
        as [(o & slug & H)|(i & d1 & o & slug & Hi & Hor & Hp & _ & H1 & H2)].
      - destruct (does_active _ _ _ _ _ H Ha) as [|[_ Hh]]; [by left|]. by rewrite nobody_has in Hh.
      - destruct (does_active _ _ _ _ _ H2 Ha) as [Ha1|[-> Hh]].
        + destruct (does_active _ _ _ _ _ H1 Ha1) as [|[_ Hh]]; [by left|]. by rewrite nobody_has in Hh.
        + right. exists i. split_and!; [done..|]. rewrite Hp in Hh. eapply principal_has; [by apply run_lawful|done]. }
    + destruct (IH H) as [|(before & rq' & after & i & -> & Hb)]; [by left|]. right. exists before, rq', (after ++ [rq]), i.
      by rewrite <- app_assoc.
    + right. by exists l, rq, [], i.
Qed.

(** C27: the standard roles stay as made.  No sequence of requests adds,
    removes or renames one, or changes what it permits. *)
Theorem standard_roles_stay d l (Hlawful : lawful d) : standard_kept d (run d l).
Proof.
  induction l as [|rq l IH] using rev_ind; [apply standard_refl|]. rewrite run_snoc. eapply standard_trans; [exact IH|].
  pose proof (run_lawful d l Hlawful) as Hl.
  destruct (handle_does ulid token_hash argon2 hash_password collate ttl (run d l) rq) as [(o & slug & H)|(i & d1 & o & slug & _ & _ & _ & _ & H1 & H2)].
  - by eapply does_standard.
  - eapply standard_trans; [by eapply does_standard|]. eapply does_standard; [exact H2|]. by eapply does_lawful.
Qed.

(** C26: a principal is exactly what its person's live grants amount to: the
    permissions their roles carry, the projects they name, the teams they name
    and every team below those, the widest of their scopes (organisation over
    project over team; none only where there is no live grant); and who it sees
    are the person and, with submission.view alone, the active members of
    those projects and teams. *)
Theorem principal_is_the_live_grants d user org slug :
  let p := principal_for d user org slug in
  let granted g := g ∈ di_grants d /\ ur_user g = user /\ live g in
  (forall x, x ∈ pn_permissions p <-> exists g, granted g /\ (ur_role g, x) ∈ di_permissions d) /\
  (forall x, x ∈ pn_projects p <-> exists g, granted g /\ ur_scope g = ProjectScope /\ ur_project g = Some x) /\
  (forall t, t ∈ pn_teams p <-> exists g s, granted g /\ ur_team g = Some s /\ rtc (child_of (di_teams d)) s t) /\
  (forall s, pn_scope p = Some s <->
     (exists g, granted g /\ ur_scope g = s) /\ forall g, granted g -> (width (ur_scope g) <= width s)%nat) /\
  (pn_scope p = None <-> forall g, ~ granted g) /\
  (forall u, u ∈ pn_visible p <-> u = user \/ lit "submission.view" ∈ pn_permissions p /\
     exists m, m ∈ di_members d /\ pm_user m = u /\ pm_active m = true /\
       (pm_project m ∈ pn_projects p \/ exists t, pm_team m = Some t /\ t ∈ pn_teams p)).
Proof.
  cbv zeta. unfold principal_for. cbn [pn_permissions pn_projects pn_teams pn_scope pn_visible]. split_and!.
  - intros x. rewrite held_elem. by setoid_rewrite grants_of_elem.
  - intros x. rewrite granted_projects_elem. by setoid_rewrite grants_of_elem.
  - intros t. rewrite granted_teams_elem. by setoid_rewrite grants_of_elem.
  - intros s. rewrite widest_scope_some. by setoid_rewrite grants_of_elem.
  - rewrite widest_scope_none. setoid_rewrite <- grants_of_elem. split; [intros ->; by intros ? ?%elem_of_nil|].
    destruct (grants_of d user) as [|g l]; [done|]. intros H. destruct (H g). by left.
  - intros u. unfold visible_people. rewrite distinct_elem, elem_of_cons. apply or_iff_compat_l. rewrite list_elem_of_In, in_map_iff.
    setoid_rewrite filter_In. setoid_rewrite andb_true_iff. setoid_rewrite andb_true_iff. setoid_rewrite orb_true_iff.
    setoid_rewrite bool_decide_eq_true. setoid_rewrite <- list_elem_of_In. split.
    + intros (m & Hu & Hm & [Hv Ha] & Hin). split; [done|]. exists m. split_and!; [done..|]. destruct Hin as [|Hin]; [by left|right].
      destruct (pm_team m) as [t|]; [|done]. apply bool_decide_eq_true in Hin. by exists t.
    + intros (Hv & m & Hm & Hu & Ha & Hin). exists m. split_and!; [done..|]. destruct Hin as [|(t & -> & Hin)]; [by left|right].
      by apply bool_decide_eq_true.
Qed.

End Authority.

Section Login.
Context (ulid : N -> pystr) (token_hash : pystr -> pystr) (argon2 : pystr -> pystr -> bool) (ttl : Z).




End Login.

(** ** At Acme *)

Section Witnesses.
Import Acme.

Ltac by_deciding := refine (bool_decide_unpack _ _); by_compute.

Abbreviation runs d l := (run ulids (fun t => lit "=" ++ t) hashes hashed str_cmp 3600 d l) (only parsing).
Lemma taken_on_run : runs tables taking_on = taken_on.
Proof. by_compute. Qed.
Lemma signed_up_run : runs taken_on signing_in = signed_up.
Proof. by_compute. Qed.

Lemma tables_lawful : lawful tables.
Proof.
  assert (forallb (fun rp => bool_decide (rp.2 ∈ PERMISSIONS)) (di_permissions tables) = true) as Hp by by_compute.
  split; [|by_deciding..|].
  - intros rp Hrp. rewrite forallb_forall in Hp. apply list_elem_of_In, Hp in Hrp. by apply bool_decide_eq_true in Hrp.
  - intros g Hg. repeat (apply elem_of_cons in Hg as [->|Hg]; [split; by_compute|]). by apply elem_of_nil in Hg.
Qed.

Lemma taken_on_lawful : lawful taken_on.
Proof. rewrite <- taken_on_run. apply run_lawful, tables_lawful. Qed.

(** Noor ends up able to take on others: Sam, who made her a supervisor, was. *)
Lemma permissions_come_from_holders_witness :
  lit "user.create" ∉ held_permissions taken_on (lit "u1") /\
  lit "user.create" ∈ held_permissions (runs taken_on signing_in) (lit "u1") /\
  exists someone, lit "user.create" ∈ held_permissions taken_on someone.
Proof.
  assert (lit "user.create" ∈ held_permissions (runs taken_on signing_in) (lit "u1")) as H
    by (by_deciding).
  split; [by_deciding|]. split; [exact H|].
  exact (proj2 (permissions_come_from_holders ulids (fun t => lit "=" ++ t) hashes hashed str_cmp 3600 taken_on signing_in
    (lit "u1") (lit "user.create") taken_on_lawful H)).
Defined.

(** Sam's team is the north; the valley is inside it. *)
Lemma grants_stay_in_scope_witness :
  valley_grant ∉ di_grants taken_on /\
  exists before rq after i, signing_in = before ++ rq :: after /\
    actor (fun t => lit "=" ++ t) 3600 (runs taken_on before) rq = Some i /\
    covers (ie_principal i) (runs taken_on (before ++ [rq])) valley_grant.
Proof.
  assert (valley_grant ∉ di_grants taken_on) as Hn by (by_deciding). split; [exact Hn|].
  destruct (grants_stay_in_scope ulids (fun t => lit "=" ++ t) hashes hashed str_cmp 3600 taken_on signing_in valley_grant
    taken_on_lawful) as [Hold|(before & rq & after & i & Hl & Hi & _ & Hc)].
  - intros pr Hpr. repeat (apply elem_of_cons in Hpr as [->|Hpr]; [by_deciding|]). by apply elem_of_nil in Hpr.
  - intros te Hte. change (di_teams (runs taken_on signing_in)) with (di_teams taken_on) in Hte.
    repeat (apply elem_of_cons in Hte as [->|Hte]; [by_deciding|]). by apply elem_of_nil in Hte.
  - by_deciding.
  - by_compute.
  - destruct (Hn Hold).
  - by exists before, rq, after, i.
Defined.

(** Noor's membership is Ann's approval. *)
Lemma only_the_approved_act_witness :
  ~ active_in "acme" "u1" tables /\ active_in "acme" "u1" (runs tables taking_on) /\
  exists before rq after i, taking_on = before ++ rq :: after /\
    actor (fun t => lit "=" ++ t) 3600 (runs tables before) rq = Some i /\
    lit "user.approve" ∈ held_permissions (runs tables before) (ie_user i).
Proof.
  assert (~ active_in "acme" "u1" tables) as Hn.
  { intros (m & Hm & _ & Hu & _). repeat (apply elem_of_cons in Hm as [->|Hm]; [discriminate Hu|]). by apply elem_of_nil in Hm. }
  assert (active_in "acme" "u1" (runs tables taking_on)) as Ha.
  { exists (PlatformOrgMembership "acme" "u1" Active Temporary (Some (lit "sam")) (Some (lit "ann")) (Some 4) None).
    split; [by_deciding|done]. }
  split; [exact Hn|]. split; [exact Ha|].
  destruct (proj2 (only_the_approved_act ulids (fun t => lit "=" ++ t) hashes hashed str_cmp 3600 tables taking_on tables_lawful)
    _ _ Ha) as [Hold|(before & rq & after & i & Hl & Hi & _ & Hp)]; [destruct (Hn Hold)|].
  by exists before, rq, after, i.
Defined.

Lemma standard_roles_stay_witness : standard_kept tables (runs (runs tables taking_on) signing_in).
Proof.
  eapply standard_trans.
  - exact (standard_roles_stay ulids (fun t => lit "=" ++ t) hashes hashed str_cmp 3600 tables taking_on tables_lawful).
  - apply standard_roles_stay. rewrite taken_on_run. exact taken_on_lawful.
Defined.


End Witnesses.
