(* ===== verification/CaseTheorems.v ===== *)
(** * Cases: theorems

    What assigning a case does to its holders, what an upload makes of the
    cases, and what any sequence of requests, people's included, leaves of
    who holds what. *)

From S2P Require Import Prelude PyStr PyNum Value PyJson Expr Expression Datasets CaseKey DatasetKeys Surface PublishGate.
From S2P Require Import Server Catalog Media MediaFacts Identity People AuthorityFacts AuthorityTheorems Forms Entities Cases.

(** ** Statements that went through *)

Lemma insert_went {S} policy constraints add (s s' : S) u :
  insert_row policy constraints add s = (s', inl u) -> policy s = true /\ constraints s = true /\ s' = add s.
Proof.
  intros H. unfold insert_row in H. st_read H. cbn in H. st_unless H Hp. st_unless H Hc.
  by injection H as <- _.
Qed.

Lemma update_went {S A} rows put matches set policy constraints (s s' : S) n :
  update_rows (A:=A) rows put matches set policy constraints s = (s', inl n) ->
  (forall r, r ∈ rows s -> matches s r = true -> policy s (set r) = true) /\
  s' = put (map (fun r => if matches s r then set r else r) (rows s)) s /\ n = length (List.filter (matches s) (rows s)).
Proof.
  intros H. unfold update_rows in H. st_read H. cbn in H. st_unless H Hp. st_unless H Hc.
  st_write H. injection H as <- <-. split_and!; [|done|done]. intros r Hr Hm. rewrite forallb_forall in Hp.
  apply Hp, filter_In. split; [by apply list_elem_of_In|done].
Qed.

Lemma guarded_went {S A} (m : ST S refusal A) s s' a : guarded m s = (s', inl a) -> m s = (s', inl a).
Proof. unfold guarded. destruct (m s) as [s1 [x|e]]; [done|]. by destruct e. Qed.

Lemma guarded_refused {S A} (m : ST S refusal A) s s' e : guarded m s = (s', inr e) -> s' = s.
Proof. unfold guarded. destruct (m s) as [s1 [x|e1]]; [done|]. destruct e1; by intros [= <- _]. Qed.

(** ** Scope *)

(** Rows that are rows of [l] or releases of them. *)
Definition releasing (now : Z) (hit : assignment -> bool) (l : list assignment) : list assignment :=
  map (fun a => if hit a then released now a else a) l.

Lemma held_released now a : held (released now a) = false.
Proof. done. Qed.

Lemma releasing_held now hit l a : a ∈ releasing now hit l -> held a = true -> a ∈ l /\ hit a = false.
Proof.
  unfold releasing. rewrite list_elem_of_In, in_map_iff. intros (b & E & Hb) Ha. destruct (hit b) eqn:Eh; subst a; [done|].
  split; [by apply list_elem_of_In|done].
Qed.

Lemma releasing_live now hit l a : a ∈ l -> hit a = false -> a ∈ releasing now hit l.
Proof.
  intros Ha Hh. unfold releasing. apply list_elem_of_In, in_map_iff. exists a. rewrite Hh. split; [done|by apply list_elem_of_In].
Qed.

(** Who is in scope with some holders released was in scope. *)
Lemma scope_before p w now hit c :
  case_in_scope p (with_assignments (releasing now hit (cw_assignments w)) w) c = true -> case_in_scope p w c = true.
Proof.
  unfold case_in_scope. rewrite !orb_true_iff. intros [[H|H]|H]; [tauto|tauto|]. right. apply existsb_exists in H as (a & Ha & H).
  apply existsb_exists. exists a. split; [|done]. apply list_elem_of_In. apply list_elem_of_In in Ha. cbn in Ha.
  apply (releasing_held now hit); [done|]. by apply andb_true_iff in H as [[_ Hh]%andb_true_iff _].
Qed.

(** Nobody who holds a case reaches further than their scope. *)
Lemma release_went p now c level w w' n :
  release p now c level w = (w', inl n) -> case_in_scope p w c = true ->
  w' = with_assignments (releasing now (fun a => str_eqb (an_case a) c && held a && negb (bool_decide (level a = None))) (cw_assignments w)) w.
Proof.
  intros H Hc. apply update_went in H as (_ & -> & _). f_equal. unfold releasing. apply map_ext_in. intros a _.
  destruct (str_eqb (an_case a) c) eqn:E; [|done]. apply str_eqb_eq in E. unfold sees_assignment. by rewrite E, Hc, andb_true_r.
Qed.

Lemma release_unseen p now c level w w' n :
  release p now c level w = (w', inl n) -> case_in_scope p w c = false -> w' = w.
Proof.
  intros H Hc. apply update_went in H as (_ & -> & _). rewrite (map_ext_in _ id).
  - rewrite map_id. by destruct w.
  - intros a _. destruct (str_eqb (an_case a) c) eqn:E; [|done]. apply str_eqb_eq in E. unfold sees_assignment.
    by rewrite E, Hc, andb_false_r.
Qed.

(** The writer, when it goes through: at the level named, and below it, the
    holders are released, and the new one is there. *)
Definition outgoing (c : pystr) (to_team : option pystr) (a : assignment) : bool :=
  str_eqb (an_case a) c && held a &&
  (negb (bool_decide (an_user a = None)) || negb (bool_decide (to_team = None)) && negb (bool_decide (an_team a = None))).

Lemma releasing_twice now f g l :
  releasing now (fun a => held a && g a) (releasing now f l) = releasing now (fun a => f a || held a && g a) l.
Proof.
  unfold releasing. rewrite map_map. apply map_ext. intros a. destruct (f a); [by rewrite held_released|]. done.
Qed.

Lemma releasing_ext now f g l : (forall a, f a = g a) -> releasing now f l = releasing now g l.
Proof. intros H. apply map_ext. intros a. by rewrite H. Qed.

Lemma may_write_in_scope p w a : may_write_assignment p w a = true -> case_in_scope p w (an_case a) = true.
Proof. unfold may_write_assignment. by intros [[_ H]%andb_true_iff _]%andb_true_iff. Qed.

Lemma assign_went p now c team user i w w' u :
  dcp_assign_case p now c team user i w = (w', inl u) ->
  let row := Assignment i c user team (me p) now None in
  let w1 := with_assignments (releasing now (outgoing c team) (cw_assignments w)) w in
  case_in_scope p w c = true /\ may_write_assignment p w1 row = true /\ assignment_ok w1 row = true /\
  w' = with_assignments (cw_assignments w1 ++ [row]) w1.
Proof.
  intros H row w1. unfold dcp_assign_case in H. fold row in H. st_step H.
  destruct (case_in_scope p w c) eqn:Hs.
  2:{ apply release_unseen in H1 as ->; [|done]. exfalso. destruct team as [t|].
      - st_step H. apply release_unseen in H1 as ->; [|done]. apply insert_went in H as [H _]. apply may_write_in_scope in H. cbn in H. congruence.
      - apply insert_went in H as [H _]. apply may_write_in_scope in H. cbn in H. congruence. }
  apply release_went in H1 as ->; [|done]. destruct team as [t|].
  - st_step H. set (wp := with_assignments _ w) in *. destruct (case_in_scope p wp c) eqn:Hs1.
    + apply release_went in H1 as ->; [|done]. match type of H with insert_assignment _ _ ?x = _ => assert (x = w1) as E end.
      { unfold wp, w1, with_assignments. cbn. f_equal.
        etrans; [apply (releasing_ext now _ (fun a => held a && (str_eqb (an_case a) c && negb (bool_decide (an_team a = None)))))|].
        - intros b. destruct (str_eqb (an_case b) c), (held b); done.
        - rewrite releasing_twice. apply releasing_ext. intros b. unfold outgoing.
          destruct (str_eqb (an_case b) c), (held b), (bool_decide (an_user b = None)), (bool_decide (an_team b = None)); done. }
      rewrite E in H. by apply insert_went in H.
    + apply release_unseen in H1 as ->; [|done]. apply insert_went in H as [H _]. apply may_write_in_scope in H. cbn in H. congruence.
  - match type of H with insert_assignment _ _ ?x = _ => assert (x = w1) as E end.
    { unfold w1. f_equal. apply releasing_ext. intros b. unfold outgoing. cbn. by rewrite orb_false_r. }
    rewrite E in H. by apply insert_went in H.
Qed.

(** ** Holders *)

(** Who holds a case now. *)
Definition holding (c : pystr) (l : list assignment) : list assignment := List.filter (fun a => str_eqb (an_case a) c && held a) l.

Definition to_team (a : assignment) : bool := negb (bool_decide (an_team a = None)).
Definition to_person (a : assignment) : bool := negb (bool_decide (an_user a = None)).

(** One team at most, one person at most, and a person under a team only. *)
Record holders (l : list assignment) : Prop := {
  ho_target : forall a, a ∈ l -> to_team a = negb (to_person a);
  ho_team : forall c, (length (List.filter to_team (holding c l)) <= 1)%nat;
  ho_person : forall c, (length (List.filter to_person (holding c l)) <= 1)%nat;
  ho_under : forall c, List.filter to_person (holding c l) <> [] -> List.filter to_team (holding c l) <> []
}.

Lemma Lfilter_filter {A} (f g : A -> bool) l : List.filter f (List.filter g l) = List.filter (fun x => g x && f x) l.
Proof. induction l as [|x l IH]; [done|]. cbn. destruct (g x); cbn; by rewrite IH. Qed.

Lemma Lfilter_ext_elem {A} (f g : A -> bool) l : (forall x, x ∈ l -> f x = g x) -> List.filter f l = List.filter g l.
Proof. intros H. apply filter_ext_in. intros x Hx. by apply H, list_elem_of_In. Qed.

Lemma holding_app c l k : holding c (l ++ k) = holding c l ++ holding c k.
Proof. apply List.filter_app. Qed.

Lemma holding_releasing c now hit l : holding c (releasing now hit l) = List.filter (fun a => negb (hit a)) (holding c l).
Proof.
  induction l as [|a l IH]; [done|]. unfold holding, releasing in *. cbn. destruct (hit a) eqn:Ea.
  - rewrite held_released, andb_false_r. destruct (_ && held a); cbn; [by rewrite Ea|done].
  - destruct (_ && held a); cbn; [rewrite Ea|]; by rewrite IH.
Qed.

(** Who stays on a case assigned anew, and on the others. *)
Lemma holding_stays c d team now l :
  (forall a, a ∈ l -> to_team a = negb (to_person a)) ->
  holding d (releasing now (outgoing c team) l) =
  if str_eqb d c then match team with Some _ => [] | None => List.filter to_team (holding c l) end else holding d l.
Proof.
  intros Ht. rewrite holding_releasing. unfold holding. rewrite Lfilter_filter. destruct (str_eqb d c) eqn:E.
  - apply str_eqb_eq in E as ->. destruct team as [t|].
    + apply filter_none. intros a Ha. unfold outgoing. specialize (Ht a Ha). unfold to_team, to_person in Ht. cbn.
      destruct (str_eqb (an_case a) c), (held a); try done. cbn. rewrite Ht. by destruct (bool_decide (an_user a = None)).
    + rewrite Lfilter_filter. apply Lfilter_ext_elem. intros a Ha. specialize (Ht a Ha). unfold outgoing. cbn. rewrite Ht.
      unfold to_person. destruct (str_eqb (an_case a) c), (held a), (bool_decide (an_user a = None)); done.
  - apply Lfilter_ext_elem. intros a _. unfold outgoing. destruct (str_eqb (an_case a) d) eqn:Ed; [|done]. apply str_eqb_eq in Ed.
    rewrite Ed, E. by rewrite andb_true_r.
Qed.

(** The policy and the constraints, for the row written. *)
Lemma row_target w a : assignment_ok w a = true -> to_team a = negb (to_person a).
Proof.
  unfold assignment_ok, to_team, to_person. intros H. do 7 apply andb_true_iff in H as [H _].
  revert H. by destruct (bool_decide (an_user a = None)), (bool_decide (an_team a = None)).
Qed.

Lemma person_needs_team p w a :
  may_write_assignment p w a = true -> to_team a = false ->
  exists u, an_user a = Some u /\ (dcp_org_wide p = true \/ dcp_in_list (pn_visible p) (Some u) = true) /\
    person_under_live_team p w (an_case a) u = true.
Proof.
  unfold may_write_assignment, to_team. intros [_ H]%andb_true_iff Ht%negb_false_iff. rewrite Ht in H. cbn in H. destruct (an_user a) as [u|]; [|done].
  apply andb_true_iff in H as [H1%orb_true_iff H2]. by exists u.
Qed.

Lemma under_live_team p w c u :
  person_under_live_team p w c u = true ->
  active_in (pn_org p) u (cw_people w) /\
  exists t m, t ∈ List.filter to_team (holding c (cw_assignments w)) /\ m ∈ di_members (cw_people w) /\
    pm_team m = an_team t /\ pm_user m = u /\ pm_active m = true.
Proof.
  unfold person_under_live_team. intros [Ha%may_hold_active H]%andb_true_iff. split; [done|].
  apply existsb_exists in H as (t & Ht & [Hc H]%andb_true_iff). apply existsb_exists in H as (m & Hm & H).
  apply andb_true_iff in Hc as [Hc Hteam]. apply andb_true_iff in H as [[Hmt%bool_decide_eq_true Hu%str_eqb_eq]%andb_true_iff Hact].
  exists t, m. split_and!; [|by apply list_elem_of_In|done..]. apply elem_of_Lfilter. split; [|done]. apply elem_of_Lfilter.
  split; [by apply list_elem_of_In|done].
Qed.

(** What the writer leaves of a case's holders, and of everybody else's. *)
Lemma assign_holding p now c team user i w w' u :
  (forall a, a ∈ cw_assignments w -> to_team a = negb (to_person a)) ->
  dcp_assign_case p now c team user i w = (w', inl u) ->
  let row := Assignment i c user team (me p) now None in
  to_team row = negb (to_person row) /\
  (forall d, holding d (cw_assignments w') =
     if str_eqb d c then match team with Some _ => [] | None => List.filter to_team (holding c (cw_assignments w)) end ++ [row]
     else holding d (cw_assignments w)) /\
  (team = None -> exists u, user = Some u /\ (dcp_org_wide p = true \/ dcp_in_list (pn_visible p) (Some u) = true) /\
     active_in (pn_org p) u (cw_people w) /\
     exists t m, t ∈ List.filter to_team (holding c (cw_assignments w)) /\ m ∈ di_members (cw_people w) /\
       pm_team m = an_team t /\ pm_user m = u /\ pm_active m = true).
Proof.
  intros Ht H row. destruct (assign_went _ _ _ _ _ _ _ _ _ H) as (_ & Hp & Hok & ->). clear H. fold row in Hp, Hok.
  split; [by eapply row_target|]. split.
  - intros d. cbn [with_assignments cw_assignments]. fold row. rewrite holding_app, holding_stays by done.
    assert (holding d [row] = if str_eqb d c then [row] else []) as -> by (unfold holding; cbn; by rewrite (str_eqb_sym c d), andb_true_r).
    destruct (str_eqb d c); [done|by rewrite app_nil_r].
  - intros ->. destruct (person_needs_team _ _ _ Hp eq_refl) as (v & Hv & Hvis & Hl). exists v.
    destruct (under_live_team _ _ _ _ Hl) as [Ha (t & m & Hin & Hrest)]. split_and!; [done..|]. exists t, m. split; [|done].
    cbn [with_assignments cw_assignments] in Hin. rewrite holding_stays in Hin by done. change (an_case row) with c in Hin.
    rewrite str_eqb_refl in Hin. by apply elem_of_Lfilter in Hin as [Hin _].
Qed.

Lemma Lfilter_none_all {A} (f g : A -> bool) l : (forall x, f x = negb (g x)) -> List.filter f (List.filter g l) = [].
Proof. intros H. rewrite Lfilter_filter. apply filter_none. intros x _. rewrite H. by destruct (g x). Qed.

Lemma filter_one {A} (f : A -> bool) x : (length (List.filter f [x]) <= 1)%nat.
Proof. cbn. destruct (f x); cbn; lia. Qed.

Lemma assign_keeps_holders p now c team user i w w' u :
  holders (cw_assignments w) -> dcp_assign_case p now c team user i w = (w', inl u) -> holders (cw_assignments w').
Proof.
  intros [Ht Hte Hpe Hu] H. destruct (assign_holding _ _ _ _ _ _ _ _ _ Ht H) as (Hrow & Hhold & Hunder).
  destruct (assign_went _ _ _ _ _ _ _ _ _ H) as (_ & _ & _ & Hw). set (row := Assignment _ _ _ _ _ _ _) in *.
  assert (forall d, str_eqb d c = false -> holding d (cw_assignments w') = holding d (cw_assignments w)) as Hother.
  { intros d E. by rewrite Hhold, E. }
  split.
  - rewrite Hw. intros a [Ha| ->%list_elem_of_singleton]%elem_of_app; [|done]. cbn in Ha. unfold releasing in Ha.
    apply list_elem_of_In, in_map_iff in Ha as (b & <- & Hb%list_elem_of_In). specialize (Ht b Hb). by destruct (outgoing c team b).
  - intros d. destruct (str_eqb d c) eqn:E; [|by rewrite Hother]. rewrite Hhold, E, List.filter_app. destruct team as [t|]; [done|].
    apply str_eqb_eq in E as ->. rewrite Lfilter_filter. rewrite (Lfilter_ext_elem _ to_team) by (intros x _; by destruct (to_team x)).
    rewrite length_app. cbn. specialize (Hte c). lia.
  - intros d. destruct (str_eqb d c) eqn:E; [|by rewrite Hother]. rewrite Hhold, E, List.filter_app, length_app. destruct team as [t|].
    + apply filter_one.
    + apply str_eqb_eq in E as ->. rewrite (Lfilter_filter to_person), filter_none; [apply filter_one|]. intros x Hx.
      apply elem_of_Lfilter in Hx as [Hx _]. rewrite (Ht x Hx). by destruct (to_person x).
  - intros d. destruct (str_eqb d c) eqn:E; [|rewrite !Hother by done; apply Hu]. rewrite Hhold, E, !List.filter_app. destruct team as [t|].
    { cbn [List.filter app]. by assert (to_team row = true) as -> by done. }
    intros _ Hnil. apply app_eq_nil in Hnil as [Hnil _]. destruct (Hunder eq_refl) as (v & _ & _ & _ & t & m & Hin & _).
    rewrite Lfilter_filter in Hnil. rewrite (Lfilter_ext_elem _ to_team) in Hnil by (intros x _; by destruct (to_team x)).
    rewrite Hnil in Hin. by apply elem_of_nil in Hin.
Qed.

(** ** Assigning *)

Section Assigning.
Context (ulid : N -> pystr).

Lemma mint_run w : mint ulid w =
  (with_catalog_of (with_ct_minted (ct_minted (cw_catalog w) + 1)%N (cw_catalog w)) w, inl (ulid (ct_minted (cw_catalog w)))).
Proof. done. Qed.

Lemma assign_run p now c team user w w' u :
  assign ulid p now c team user w = (w', inl u) ->
  (match team, user with Some _, None | None, Some _ => True | _, _ => False end) /\
  exists k i, dcp_assign_case p now c team user i (with_catalog_of k w) = (w', inl tt).
Proof.
  intros H. unfold assign in H. st_unless H Hone. split; [by destruct team, user|].
  apply bind_run in H as [(i & w1 & Hm & H)|(e & Hm & _)]; rewrite mint_run in Hm; [|done]. injection Hm as <- <-.
  apply guarded_went in H. destruct u. eauto.
Qed.

Lemma transacted {S A} (m : ST S refusal A) s s' r :
  transaction m s = (s', r) -> (exists a, r = inl a /\ m s = (s', inl a)) \/ s' = s /\ exists e, r = inr e.
Proof. unfold transaction. destruct (m s) as [s1 [a|e]]; intros [= <- <-]; eauto. Qed.

(** C29: what assigning a case comes to.  Refused, it changes nothing.  To a
    team, the case is held by that team alone; to a person, it stays with the
    one team it was with and is held, under it, by that person, who is an
    active member of the organisation and of that team.  Whoever held it at
    that level or below is released at that moment and their row kept; every
    other case keeps its holders. *)
Theorem assigning_moves_the_holder p now c team user w w' r (Hholders : holders (cw_assignments w))
    (Hassign : transaction (assign ulid p now c team user) w = (w', r)) :
  match r with
  | inr _ => w' = w
  | inl _ =>
      (exists row, an_case row = c /\ an_team row = team /\ an_user row = user /\ an_by row = me p /\ an_at row = now /\
         match team, user with
         | Some t, None => holding c (cw_assignments w') = [row]
         | None, Some u =>
             exists t m, List.filter to_team (holding c (cw_assignments w)) = [t] /\ holding c (cw_assignments w') = [t; row] /\
               active_in (pn_org p) u (cw_people w) /\ m ∈ di_members (cw_people w) /\
               pm_team m = an_team t /\ pm_user m = u /\ pm_active m = true
         | _, _ => False
         end) /\
      (forall d, d <> c -> holding d (cw_assignments w') = holding d (cw_assignments w)) /\
      (forall a, a ∈ cw_assignments w -> a ∈ cw_assignments w' \/ an_case a = c /\ held a = true /\ released now a ∈ cw_assignments w') /\
      cw_cases w' = cw_cases w /\ cw_people w' = cw_people w
  end.
Proof.
  apply transacted in Hassign as [(x & -> & H)|(-> & e & ->)]; [|done]. destruct (assign_run _ _ _ _ _ _ _ _ H) as (Hone & k & i & Ha). clear H.
  set (w0 := with_catalog_of k w) in Ha. change (holders (cw_assignments w0)) in Hholders. pose proof Hholders as [Ht Hte _ _].
  destruct (assign_holding _ _ _ _ _ _ _ _ _ Ht Ha) as (_ & Hhold & Hunder).
  destruct (assign_went _ _ _ _ _ _ _ _ _ Ha) as (_ & _ & _ & Hw). set (row := Assignment _ _ _ _ _ _ _) in *. split_and!.
  - exists row. split_and!; [done..|]. specialize (Hhold c). rewrite str_eqb_refl in Hhold. destruct team as [t|], user as [u|]; try done.
    destruct (Hunder eq_refl) as (v & [= <-] & _ & Hact & t & m & Hin & Hm & Hrest).
    specialize (Hte c). destruct (List.filter to_team (holding c (cw_assignments w0))) as [|t0 [|? ?]] eqn:E; [by apply elem_of_nil in Hin| |cbn in Hte; lia].
    apply list_elem_of_singleton in Hin as ->. by exists t0, m.
  - intros d Hd. by rewrite Hhold, str_eqb_ne.
  - intros a Hin. rewrite Hw. cbn. destruct (outgoing c team a) eqn:E.
    + right. pose proof E as [[Hc%str_eqb_eq Hh]%andb_true_iff _]%andb_true_iff. split_and!; [done..|].
      apply elem_of_app. left. apply list_elem_of_In, in_map_iff. exists a. rewrite E. split; [done|by apply list_elem_of_In].
    + left. apply elem_of_app. left. by apply releasing_live.
  - by rewrite Hw.
  - by rewrite Hw.
Qed.

End Assigning.

(** ** Uploading a sample *)

(** The asker's scope is the project. *)
Definition reaches (p : principal) (project : pystr) : Prop :=
  dcp_org_wide p = true \/ dcp_in_list (pn_projects p) (Some project) = true.

Lemma reached p w project c :
  reaches p project -> c ∈ cw_cases w -> ca_project c = project -> sees_case p w c = true.
Proof.
  intros Hr Hc Hp. unfold sees_case, case_in_scope. rewrite !orb_true_iff. left. destruct Hr as [|Hr]; [by left|right].
  apply existsb_exists. exists c. split; [by apply list_elem_of_In|]. by rewrite str_eqb_refl, Hp, Hr.
Qed.

(** A case of the sample whose key is there stands, one whose key is not is
    withdrawn, and a case of another sample is as it was. *)
Definition sampled (project dataset_key : pystr) (keys : list pystr) (now : Z) (c : case_row) : case_row :=
  if of_sample project dataset_key c then
    match keyed_among keys c, bool_decide (ca_status c = CaseWithdrawn) with
    | true, true => in_status CaseOpen None c
    | false, false => in_status CaseWithdrawn (Some now) c
    | _, _ => c
    end
  else c.

Definition returning (project dataset_key : pystr) (keys : list pystr) (c : case_row) : bool :=
  of_sample project dataset_key c && keyed_among keys c && bool_decide (ca_status c = CaseWithdrawn).
Definition leaving (project dataset_key : pystr) (keys : list pystr) (c : case_row) : bool :=
  of_sample project dataset_key c && negb (keyed_among keys c) && negb (bool_decide (ca_status c = CaseWithdrawn)).

Definition new_case (project dataset_key : pystr) (ki : pystr * pystr) : case_row :=
  CaseRecord ki.2 project (Some dataset_key) (Some ki.1) CaseOpen 0 None.

(** The keys no case of the project has. *)
Definition unknown_key (cases : list case_row) (project key : pystr) : bool :=
  negb (existsb (fun c => str_eqb (ca_project c) project && bool_decide (ca_key c = Some key)) cases).

Definition known_once (cases : list case_row) : Prop := NoDup (omap project_key cases).

Lemma inserts_went p (rows : list case_row) w w' u :
  each rows (insert_case p) w = (w', inl u) ->
  w' = with_cases (cw_cases w ++ rows) w /\ (forall c, c ∈ rows -> may_write_case p c = true) /\
  (known_once (cw_cases w) -> known_once (cw_cases w ++ rows)).
Proof.
  revert w. induction rows as [|c rows IH]; intros w H.
  - injection H as <- _. rewrite app_nil_r. split_and!; [by destruct w|by intros ? ?%elem_of_nil|done].
  - cbn [each] in H. st_step H. apply insert_went in H1 as (Hp & Hok & ->). apply IH in H as (-> & Hw & Hk). cbn in Hk |- *.
    rewrite <- app_assoc in Hk |- *. split_and!; [done| |].
    + intros x [->|Hx]%elem_of_cons; [done|by apply Hw].
    + intros Hn. apply Hk. unfold known_once in *. rewrite omap_app. cbn. destruct (project_key c) as [k|] eqn:Ek; [|by rewrite app_nil_r].
      apply NoDup_app. split_and!; [done| |apply NoDup_singleton]. intros x Hx ->%list_elem_of_singleton.
      apply list_elem_of_omap in Hx as (y & Hy & E). unfold case_ok in Hok. apply andb_true_iff in Hok as [[_ Hf%negb_true_iff]%andb_true_iff _].
      apply not_true_iff_false in Hf. apply Hf, existsb_exists. exists y. split; [by apply list_elem_of_In|].
      apply bool_decide_eq_true. by rewrite E, Ek.
Qed.

Lemma sampled_twice project dataset_key keys now (x : case_row) :
  let g c := if of_sample project dataset_key c && bool_decide (ca_status c = CaseWithdrawn) && keyed_among keys c then in_status CaseOpen None c else c in
  (if of_sample project dataset_key (g x) && negb (bool_decide (ca_status (g x) = CaseWithdrawn)) && negb (keyed_among keys (g x))
   then in_status CaseWithdrawn (Some now) (g x) else g x) = sampled project dataset_key keys now x.
Proof.
  intros g. unfold g, sampled. destruct (of_sample project dataset_key x) eqn:Es; cbn [andb]; [|by rewrite Es].
  destruct (bool_decide (ca_status x = CaseWithdrawn)) eqn:Ew, (keyed_among keys x) eqn:Ek; cbn [andb].
  - change (of_sample project dataset_key (in_status CaseOpen None x)) with (of_sample project dataset_key x).
    change (keyed_among keys (in_status CaseOpen None x)) with (keyed_among keys x). by rewrite Ek, andb_false_r.
  - by rewrite Es, Ew.
  - by rewrite Es, Ew, Ek.
  - by rewrite Es, Ew, Ek.
Qed.

Lemma unknown_without p w project k :
  reaches p project -> without_case p w project k = unknown_key (cw_cases w) project k.
Proof.
  intros Hr. unfold without_case, unknown_key. f_equal. apply eq_true_iff_eq. rewrite !existsb_exists. split.
  - intros (c & Hc & [H _]%andb_true_iff). by exists c.
  - intros (c & Hc & H). exists c. split; [done|]. rewrite H. cbn. apply andb_true_iff in H as [Hp%str_eqb_eq _].
    apply (reached p w project); [done| |done]. by apply list_elem_of_In.
Qed.

(** The cases an upload makes. *)
Definition made (cases : list case_row) (project dataset_key : pystr) (keys ids : list pystr) : list case_row :=
  map (new_case project dataset_key) (List.filter (fun ki => unknown_key cases project ki.1) (combine keys ids)).

Lemma made_standing cases project dataset_key keys ids c :
  c ∈ made cases project dataset_key keys ids ->
  of_sample project dataset_key c = true /\ keyed_among keys c = true /\ ca_status c = CaseOpen /\
  exists k, ca_key c = Some k /\ ca_project c = project /\ k ∈ keys /\ unknown_key cases project k = true.
Proof.
  intros (ki & <- & [Hin Hu]%filter_In)%list_elem_of_In%in_map_iff. destruct ki as [k i]. cbn in Hu.
  apply in_combine_l in Hin. rewrite <- list_elem_of_In in Hin. unfold of_sample, keyed_among, new_case. cbn.
  rewrite str_eqb_refl. split_and!; [by rewrite bool_decide_eq_true_2|by apply bool_decide_eq_true|done|]. by exists k.
Qed.

Lemma each_map {S E A B} (f : A -> B) (body : B -> ST S E unit) l : each (map f l) body = each l (fun x => body (f x)).
Proof. induction l as [|x l IH]; [done|]. cbn. by rewrite IH. Qed.

Lemma sample_seen p w project c (b : bool) :
  reaches p project -> c ∈ cw_cases w -> (b = true -> ca_project c = project) -> b && sees_case p w c = b.
Proof. intros Hr Hc Hb. destruct b; [|done]. by rewrite (reached p w project c) by auto. Qed.

Definition to_reopen (project dataset_key : pystr) (keys : list pystr) (c : case_row) : bool :=
  of_sample project dataset_key c && bool_decide (ca_status c = CaseWithdrawn) && keyed_among keys c.
Definition to_withdraw (project dataset_key : pystr) (keys : list pystr) (c : case_row) : bool :=
  of_sample project dataset_key c && negb (bool_decide (ca_status c = CaseWithdrawn)) && negb (keyed_among keys c).

(** The two updates, for an asker who reaches the project. *)
Lemma update_sample w w' (M : case_row -> bool) set matches (policy : casework -> case_row -> bool) n :
  (forall w c, c ∈ cw_cases w -> matches w c = M c) ->
  update_rows cw_cases with_cases matches set policy (fun _ => true) w = (w', inl n) ->
  w' = with_cases (map (fun c => if M c then set c else c) (cw_cases w)) w /\ n = length (List.filter M (cw_cases w)).
Proof.
  intros HM H. apply update_went in H as (_ & -> & ->). split.
  - f_equal. apply map_ext_in. intros c Hc%list_elem_of_In. by rewrite HM.
  - f_equal. apply Lfilter_ext_elem. intros c Hc. by rewrite HM.
Qed.

Lemma upsert_went p now project dataset_key keys ids w w' a b d :
  reaches p project -> dcp_upsert_cases p now project dataset_key keys ids w = (w', inl (a, b, d)) ->
  let new := made (cw_cases w) project dataset_key keys ids in
  let back := map (fun c => if to_reopen project dataset_key keys c then in_status CaseOpen None c else c) (cw_cases w ++ new) in
  let gone := List.filter (to_withdraw project dataset_key keys) back in
  cw_cases w' = map (fun c => if to_withdraw project dataset_key keys c then in_status CaseWithdrawn (Some now) c else c) back /\
  cw_assignments w' = cw_assignments w /\ cw_people w' = cw_people w /\
  cw_tombstones w' = cw_tombstones w ++ map (fun c => (project, ca_id c)) gone /\
  a = length new /\ b = length (List.filter (to_reopen project dataset_key keys) (cw_cases w ++ new)) /\ d = length gone /\
  (known_once (cw_cases w) -> known_once (cw_cases w ++ new)).
Proof.
  intros Hr H new back gone. unfold dcp_upsert_cases in H. st_read H. cbn [id] in H.
  rewrite (filter_ext _ (fun ki => unknown_key (cw_cases w) project ki.1)) in H by (intros ki; by apply unknown_without).
  st_step H. rewrite <- (each_map (new_case project dataset_key)) in H1. apply inserts_went in H1 as (-> & _ & Hk). fold new in Hk, H.
  change (map (new_case project dataset_key) _) with new in Hk, H.
  st_step H. apply (update_sample _ _ (to_reopen project dataset_key keys)) in H1 as [-> ->].
  2:{ intros v c Hc. apply (sample_seen p v project); [done..|]. by intros [[[Hp%str_eqb_eq _]%andb_true_iff _]%andb_true_iff _]%andb_true_iff. }
  st_read H. cbn [id] in H. set (v := with_cases back (with_cases (cw_cases w ++ new) w)).
  change (with_cases (map _ _) _) with v in H.
  assert (forall u c, c ∈ cw_cases u -> withdrawing p project dataset_key keys u c = to_withdraw project dataset_key keys c) as Hw.
  { intros u c Hc. apply (sample_seen p u project); [done..|]. by intros [[[Hp%str_eqb_eq _]%andb_true_iff _]%andb_true_iff _]%andb_true_iff. }
  rewrite (Lfilter_ext_elem (withdrawing p project dataset_key keys v) (to_withdraw project dataset_key keys)) in H by (by apply Hw).
  st_step H. apply (update_sample _ _ (to_withdraw project dataset_key keys)) in H1 as [-> ->]; [|done].
  st_unless H Hstone. st_write H. injection H as <- <- <- <-. split_and!; try done. unfold new, made. by rewrite length_map.
Qed.

Section Upserted.
Context (project dataset_key : pystr) (keys ids : list pystr) (now : Z) (cases : list case_row).

Abbreviation reopened_row c := (if to_reopen project dataset_key keys c then in_status CaseOpen None c else c) (only parsing).
Abbreviation withdrawn_row c := (if to_withdraw project dataset_key keys c then in_status CaseWithdrawn (Some now) c else c) (only parsing).
Abbreviation new := (made cases project dataset_key keys ids) (only parsing).

Lemma new_untouched c : c ∈ new -> to_reopen project dataset_key keys c = false /\ to_withdraw project dataset_key keys c = false.
Proof.
  intros (Hs & Hk & Ho & _)%made_standing. unfold to_reopen, to_withdraw. rewrite Hs, Hk, Ho. by rewrite !andb_false_r.
Qed.

Lemma upserted_cases :
  map (fun c => withdrawn_row c) (map (fun c => reopened_row c) (cases ++ new)) = map (sampled project dataset_key keys now) cases ++ new.
Proof.
  rewrite map_map, map_app. f_equal.
  - apply map_ext. intros c. unfold to_reopen, to_withdraw. apply (sampled_twice project dataset_key keys now c).
  - rewrite <- map_id. apply map_ext_in. intros c Hc%list_elem_of_In. destruct (new_untouched c Hc) as [-> ->]. done.
Qed.

Lemma withdrawn_next c :
  to_withdraw project dataset_key keys (reopened_row c) = leaving project dataset_key keys c /\
  (leaving project dataset_key keys c = true -> to_reopen project dataset_key keys c = false).
Proof.
  unfold to_reopen, to_withdraw, leaving. destruct (of_sample project dataset_key c) eqn:Es; cbn [andb]; [|by rewrite Es].
  destruct (bool_decide (ca_status c = CaseWithdrawn)) eqn:Ew, (keyed_among keys c) eqn:Ek; cbn [andb negb]; split; try done.
  - change (keyed_among keys (in_status CaseOpen None c)) with (keyed_among keys c). by rewrite Ek, andb_false_r.
  - by rewrite Es, Ew.
  - by rewrite Es, Ew, Ek.
  - by rewrite Es, Ew, Ek.
Qed.

Lemma upserted_gone :
  List.filter (to_withdraw project dataset_key keys) (map (fun c => reopened_row c) (cases ++ new)) =
  List.filter (leaving project dataset_key keys) cases.
Proof.
  rewrite map_app, List.filter_app, (filter_none _ (map _ new)), app_nil_r.
  - induction cases as [|c l IH]; [done|]. cbn [map List.filter]. destruct (withdrawn_next c) as [-> Hr]. rewrite IH.
    destruct (leaving project dataset_key keys c); [|done]. by rewrite Hr.
  - intros x (c & <- & Hc%list_elem_of_In)%list_elem_of_In%in_map_iff. destruct (new_untouched c Hc) as [Hr Hw]. by rewrite Hr.
Qed.

Lemma upserted_back :
  List.filter (to_reopen project dataset_key keys) (cases ++ new) = List.filter (returning project dataset_key keys) cases.
Proof.
  rewrite List.filter_app, (filter_none _ new), app_nil_r.
  - apply filter_ext. intros c. unfold to_reopen, returning. destruct (of_sample _ _ c), (keyed_among _ c), (bool_decide _); done.
  - intros c Hc. by destruct (new_untouched c Hc).
Qed.
End Upserted.

Lemma upsert_result p now project dataset_key keys ids w w' a b d :
  reaches p project -> dcp_upsert_cases p now project dataset_key keys ids w = (w', inl (a, b, d)) ->
  let new := made (cw_cases w) project dataset_key keys ids in
  let gone := List.filter (leaving project dataset_key keys) (cw_cases w) in
  cw_cases w' = map (sampled project dataset_key keys now) (cw_cases w) ++ new /\
  cw_assignments w' = cw_assignments w /\ cw_people w' = cw_people w /\
  cw_tombstones w' = cw_tombstones w ++ map (fun c => (project, ca_id c)) gone /\
  a = length new /\ b = length (List.filter (returning project dataset_key keys) (cw_cases w)) /\ d = length gone /\
  (known_once (cw_cases w) -> known_once (cw_cases w ++ new)).
Proof.
  intros Hr H. apply upsert_went in H as (Hc & Ha & Hp & Ht & -> & -> & -> & Hk); [|done].
  rewrite upserted_cases in Hc. rewrite upserted_gone in Ht |- *. rewrite upserted_back. by split_and!.
Qed.

Section Uploading.
Context (ulid : N -> pystr) (sha256_hex : list N -> pystr) (utf8 : pystr -> list N) (casefold : pystr -> pystr).

(** The key a row's columns compose. *)
Definition sample_key (columns : list pystr) (row : odict value) : pystr := compose (map (fun c => cell_str (vget row c)) columns).

Lemma keyed_rows_keys columns n rows keyed :
  keyed_rows columns n rows = inl keyed -> case_keys keyed = map (sample_key columns) rows.
Proof.
  revert n keyed. induction rows as [|row rows IH]; intros n keyed; cbn [keyed_rows]; [by intros [= <-]|].
  unfold key_of. pose proof (key_parts_spec row columns) as Hs. destruct (key_parts row columns) as [ps|c]; [|done].
  destruct Hs as [-> _]. destruct (keyed_rows columns (S n) rows) as [l|e] eqn:E; [|done]. intros [= <-].
  cbn [case_keys map]. unfold case_keys in IH. rewrite (IH _ _ E). f_equal. unfold vget at 1. by rewrite dget_dset_eq.
Qed.

Lemma mints_run n w : exists k is_, mints ulid n w = (with_catalog_of k w, inl is_) /\ length is_ = n.
Proof.
  revert w. induction n as [|n IH]; intros w; [exists (cw_catalog w), []; by destruct w|]. cbn [mints].
  unfold mbind, ST_bind. rewrite mint_run. destruct (IH (with_catalog_of (with_ct_minted (ct_minted (cw_catalog w) + 1)%N (cw_catalog w)) w))
    as (k & l & -> & Hl). eexists k, (_ :: l). split; [done|]. cbn. by rewrite Hl.
Qed.

Lemma publish_run p now rq keyed w w' pub :
  publish_sample ulid sha256_hex utf8 casefold p now rq keyed w = (w', inl pub) ->
  (exists k, w' = with_catalog_of k w) /\ NoDup (case_keys keyed) /\ project_seen p (cw_people w) (sm_project rq) = true.
Proof.
  unfold publish_sample, on_catalog. destruct (publish_dataset_version _ _ _ _ _ _ _) as [k [x|e]] eqn:E.
  - destruct (project_seen _ _ _); [|done]. intros [= <- <-]. split_and!; [by exists k| |done].
    unfold publish_dataset_version in E. cbn [dq_rows dq_key_column] in E. destruct keyed as [|row keyed]; [done|].
    destruct (refused _) eqn:Er; [done|]. by apply check_keys_accepts in Er as [_ Hn].
  - destruct e; try done; by destruct (project_seen _ _ _).
Qed.

Lemma upload_run p now rq w w' rep :
  upload_sample ulid sha256_hex utf8 casefold p now rq w = (w', inl rep) ->
  let keys := map (sample_key (sm_columns rq)) (sm_rows rq) in
  NoDup keys /\ exists w0 ids, length ids = length keys /\ cw_cases w0 = cw_cases w /\ cw_assignments w0 = cw_assignments w /\
    cw_people w0 = cw_people w /\ cw_tombstones w0 = cw_tombstones w /\
    dcp_upsert_cases p now (sm_project rq) (sm_dataset rq) keys ids w0 =
      (w', inl (su_created rep, su_reopened rep, su_withdrawn rep)).
Proof.
  intros H keys. unfold upload_sample in H. st_unless H Hc. st_unless H Hm.
  destruct (keyed_rows _ 1 _) as [keyed|e] eqn:Ek; [|done]. apply keyed_rows_keys in Ek. fold keys in Ek.
  apply bind_run in H as [(pub & w1 & Hpub & H)|(e & _ & ?)]; [|done]. apply publish_run in Hpub as ((k & ->) & Hn & _).
  st_step H. apply guarded_went in H1. injection H1 as <- _. rewrite Ek in H, Hn.
  apply bind_run in H as [(ids & w2 & Hids & H)|(e & _ & ?)]; [|done].
  match type of Hids with mints _ _ ?x = _ => destruct (mints_run (length keys) x) as (k2 & l & E & Hl) end. rewrite E in Hids. injection Hids as <- <-.
  apply bind_run in H as [([[made_ back_] gone_] & w3 & Hu & H)|(e & _ & ?)]; [|done]. apply guarded_went in Hu. injection H as <- <-.
  split; [done|]. eexists _, l. split; [done|]. split_and!; [| | | |exact Hu]; done.
Qed.

Lemma omap_once {A B} (f : A -> option B) l x y k :
  NoDup (omap f l) -> x ∈ l -> y ∈ l -> f x = Some k -> f y = Some k -> x = y.
Proof.
  induction l as [|z l IH]; [by intros _ ?%elem_of_nil|]. intros Hn Hx Hy Ex Ey. cbn in Hn.
  apply elem_of_cons in Hx as [->|Hx], Hy as [->|Hy]; [done|..].
  - rewrite Ex in Hn. apply NoDup_cons in Hn as [Hz _]. destruct Hz. apply list_elem_of_omap. by exists y.
  - rewrite Ey in Hn. apply NoDup_cons in Hn as [Hz _]. destruct Hz. apply list_elem_of_omap. by exists x.
  - apply IH; [|done..]. destruct (f z); [by apply NoDup_cons in Hn as [_ Hn]|done].
Qed.

Lemma sampled_same project dataset_key keys now c :
  let d := sampled project dataset_key keys now c in
  ca_id d = ca_id c /\ ca_project d = ca_project c /\ ca_dataset d = ca_dataset c /\ ca_key d = ca_key c /\ ca_priority d = ca_priority c.
Proof. unfold sampled. cbv zeta. repeat case_match; done. Qed.

Lemma sampled_once project dataset_key keys now cases :
  omap project_key (map (sampled project dataset_key keys now) cases) = omap project_key cases.
Proof.
  induction cases as [|c l IH]; [done|]. cbn. rewrite IH. unfold project_key.
  destruct (sampled_same project dataset_key keys now c) as (_ & -> & _ & -> & _). done.
Qed.

Lemma sampled_standing project dataset_key keys now c :
  let d := sampled project dataset_key keys now c in
  of_sample project dataset_key d = true -> ca_status d <> CaseWithdrawn <-> keyed_among keys d = true.
Proof.
  unfold sampled. cbv zeta. destruct (of_sample project dataset_key c) eqn:E; [|congruence].
  destruct (keyed_among keys c) eqn:Ek, (bool_decide (ca_status c = CaseWithdrawn)) eqn:Ew; intros _.
  - by change (keyed_among keys (in_status CaseOpen None c)) with (keyed_among keys c).
  - rewrite Ek. by apply bool_decide_eq_false in Ew.
  - rewrite Ek. by apply bool_decide_eq_true in Ew.
  - change (keyed_among keys (in_status CaseWithdrawn (Some now) c)) with (keyed_among keys c). by rewrite Ek.
Qed.

Lemma keyed_among_elem keys c : keyed_among keys c = true <-> exists k, ca_key c = Some k /\ k ∈ keys.
Proof.
  unfold keyed_among. destruct (ca_key c) as [k|]; [|naive_solver]. rewrite bool_decide_eq_true. naive_solver.
Qed.

Lemma unknown_key_false cases project k :
  unknown_key cases project k = false <-> exists c, c ∈ cases /\ ca_project c = project /\ ca_key c = Some k.
Proof.
  unfold unknown_key. rewrite negb_false_iff, existsb_exists. setoid_rewrite <- list_elem_of_In. setoid_rewrite andb_true_iff.
  setoid_rewrite str_eqb_eq. by setoid_rewrite bool_decide_eq_true.
Qed.

(** Each key of the upload has its case. *)
Lemma uploaded_key project dataset_key keys ids now cases k :
  length ids = length keys -> k ∈ keys ->
  exists c, c ∈ map (sampled project dataset_key keys now) cases ++ made cases project dataset_key keys ids /\
    ca_project c = project /\ ca_key c = Some k.
Proof.
  intros Hl Hk. destruct (unknown_key cases project k) eqn:E.
  - apply list_elem_of_lookup in Hk as [n Hn]. assert (is_Some (ids !! n)) as [i Hi].
    { apply lookup_lt_is_Some. rewrite Hl. by eapply lookup_lt_Some. }
    exists (new_case project dataset_key (k, i)). split; [|done]. apply elem_of_app. right. apply list_elem_of_In, in_map, filter_In.
    split; [|done]. apply list_elem_of_In, list_elem_of_lookup. exists n. clear -Hn Hi. revert ids n Hn Hi.
    induction keys as [|x keys IH]; intros [|y ids] [|n]; try done; cbn; [by intros [= ->] [= ->]|apply IH].
  - apply unknown_key_false in E as (c & Hc & Hp & Hkey). exists (sampled project dataset_key keys now c).
    destruct (sampled_same project dataset_key keys now c) as (_ & -> & _ & -> & _). split; [|done].
    apply elem_of_app. left. apply list_elem_of_In, in_map. by apply list_elem_of_In.
Qed.

(** Where every key has a case and every case stands as it should, nothing is
    left to do. *)
Lemma upserted_already project dataset_key keys ids cases :
  (forall k, k ∈ keys -> unknown_key cases project k = false) ->
  (forall c, c ∈ cases -> of_sample project dataset_key c = true -> ca_status c <> CaseWithdrawn <-> keyed_among keys c = true) ->
  (forall now, map (sampled project dataset_key keys now) cases = cases) /\ made cases project dataset_key keys ids = [] /\
  List.filter (leaving project dataset_key keys) cases = [] /\ List.filter (returning project dataset_key keys) cases = [].
Proof.
  intros Hk Hs.
  assert (forall c, c ∈ cases -> of_sample project dataset_key c = true -> bool_decide (ca_status c = CaseWithdrawn) = negb (keyed_among keys c)) as Hw.
  { intros c Hc Ho. specialize (Hs c Hc Ho). destruct (keyed_among keys c).
    - apply bool_decide_eq_false. tauto.
    - apply bool_decide_eq_true. destruct (decide (ca_status c = CaseWithdrawn)); [done|]. by apply Hs in n. }
  split_and!.
  - intros now. rewrite <- map_id. apply map_ext_in. intros c Hc%list_elem_of_In. unfold sampled. destruct (of_sample _ _ c) eqn:Ho; [|done].
    rewrite (Hw c Hc Ho). by destruct (keyed_among keys c).
  - unfold made. rewrite filter_none; [done|]. intros [k i] Hki%list_elem_of_In%in_combine_l. apply Hk. by apply list_elem_of_In.
  - apply filter_none. intros c Hc. unfold leaving. destruct (of_sample _ _ c) eqn:Ho; [|done]. rewrite (Hw c Hc Ho).
    by destruct (keyed_among keys c).
  - apply filter_none. intros c Hc. unfold returning. destruct (of_sample _ _ c) eqn:Ho; [|done]. rewrite (Hw c Hc Ho).
    by destruct (keyed_among keys c).
Qed.

(** C18: what an upload makes of the cases, when who uploads is
    organisation-wide or holds the project (so sees all its cases) and the
    project's keys were each of one case.  The rows' composed keys are
    distinct and each has one case in the project.  Of this sample, exactly
    the cases whose key is in it stand; the others are withdrawn, with a
    tombstone for each that stood before.  A case there was keeps its
    identifier, key and priority, one of another sample is untouched, and so is every
    assignment; the counts are those of what happened.  Uploading the same
    sample again changes none of it.  (A custom role of a team may be let
    upload too, and leaves the cases it does not see: Findings,
    [upload_leaves_an_unseen_case_open].) *)
Theorem upload_makes_the_cases p now rq w w' rep (Hreach : reaches p (sm_project rq)) (Hknown : known_once (cw_cases w))
    (Hupload : upload_sample ulid sha256_hex utf8 casefold p now rq w = (w', inl rep)) :
  let keys := map (sample_key (sm_columns rq)) (sm_rows rq) in
  let this c := of_sample (sm_project rq) (sm_dataset rq) c = true in
  NoDup keys /\ known_once (cw_cases w') /\
  (forall k, k ∈ keys -> exists c, c ∈ cw_cases w' /\ ca_project c = sm_project rq /\ ca_key c = Some k /\
     forall d, d ∈ cw_cases w' -> ca_project d = sm_project rq -> ca_key d = Some k -> d = c) /\
  (forall c, c ∈ cw_cases w' -> this c -> ca_status c <> CaseWithdrawn <-> exists k, ca_key c = Some k /\ k ∈ keys) /\
  (exists new, cw_cases w' = map (sampled (sm_project rq) (sm_dataset rq) keys now) (cw_cases w) ++ new /\
     length new = su_created rep /\
     forall c, c ∈ new -> exists k, ca_key c = Some k /\ k ∈ keys /\ unknown_key (cw_cases w) (sm_project rq) k = true) /\
  (exists gone, cw_tombstones w' = cw_tombstones w ++ map (fun c => (sm_project rq, ca_id c)) gone /\ length gone = su_withdrawn rep /\
     forall c, c ∈ gone <-> c ∈ cw_cases w /\ this c /\ ca_status c <> CaseWithdrawn /\ forall k, ca_key c = Some k -> k ∉ keys) /\
  cw_assignments w' = cw_assignments w /\ cw_people w' = cw_people w /\
  (forall now2 w2 rep2, upload_sample ulid sha256_hex utf8 casefold p now2 rq w' = (w2, inl rep2) ->
     cw_cases w2 = cw_cases w' /\ cw_tombstones w2 = cw_tombstones w' /\ cw_assignments w2 = cw_assignments w' /\
     su_created rep2 = O /\ su_reopened rep2 = O /\ su_withdrawn rep2 = O).
Proof.
  intros keys this. destruct (upload_run _ _ _ _ _ _ Hupload) as [Hn (w0 & ids & Hl & Hc0 & Ha0 & Hp0 & Ht0 & Hu)]. fold keys in Hn, Hl, Hu.
  destruct (upsert_result _ _ _ _ _ _ _ _ _ _ _ Hreach Hu) as (Hc & Ha & Hp & Ht & Ecr & _ & Ewd & Hk). rewrite Hc0 in Hc, Ht, Ecr, Ewd, Hk.
  rewrite Ht0 in Ht. set (new := made _ _ _ _ _) in *. set (gone := List.filter _ _) in *.
  assert (known_once (cw_cases w')) as Hknown'.
  { specialize (Hk Hknown). unfold known_once in *. rewrite Hc, omap_app, sampled_once. by rewrite omap_app in Hk. }
  assert (forall k, k ∈ keys -> exists c, c ∈ cw_cases w' /\ ca_project c = sm_project rq /\ ca_key c = Some k) as Hkeyed.
  { intros k Hin. rewrite Hc. by apply uploaded_key. }
  assert (forall c, c ∈ cw_cases w' -> this c -> ca_status c <> CaseWithdrawn <-> keyed_among keys c = true) as Hstand.
  { intros c Hin Ho. rewrite Hc in Hin. apply elem_of_app in Hin as [Hin|Hin].
    - apply list_elem_of_In, in_map_iff in Hin as (d & <- & _). by apply sampled_standing.
    - destruct (made_standing _ _ _ _ _ _ Hin) as (_ & -> & -> & _). done. }
  split_and!; [done|done| | | | | |by rewrite Hp| ].
  - intros k Hin. destruct (Hkeyed k Hin) as (c & Hcin & Hcp & Hck). exists c. split_and!; [done..|]. intros d Hd Hdp Hdk.
    apply (omap_once project_key (cw_cases w') d c (sm_project rq, k)); [done..| |]; unfold project_key.
    + by rewrite Hdk, Hdp.
    + by rewrite Hck, Hcp.
  - intros c Hin Ho. rewrite Hstand by done. apply keyed_among_elem.
  - exists new. split_and!; [done|done|]. intros c Hin. destruct (made_standing _ _ _ _ _ _ Hin) as (_ & _ & _ & k & Hck & _ & Hin2 & Hun).
    by exists k.
  - exists gone. split_and!; [done|done|]. intros c. unfold gone. rewrite elem_of_Lfilter. unfold leaving. rewrite !andb_true_iff, !negb_true_iff.
    rewrite bool_decide_eq_false. split.
    + intros (Hin & [Ho Hka] & Hst). split_and!; [done..|]. intros k Hck Hink. apply not_true_iff_false in Hka. apply Hka, keyed_among_elem. eauto.
    + intros (Hin & Ho & Hst & Hno). split_and!; [done..| |done]. apply not_true_iff_false. intros (k & Hck & Hink)%keyed_among_elem. by apply (Hno k).
  - by rewrite Ha, Ha0.
  - intros now2 w2 rep2 H2. destruct (upload_run _ _ _ _ _ _ H2) as [_ (w3 & ids2 & _ & Hc3 & Ha3 & _ & Ht3 & Hu2)]. fold keys in Hu2.
    destruct (upsert_result _ _ _ _ _ _ _ _ _ _ _ Hreach Hu2) as (Hc2 & Ha2 & _ & Ht2 & Ecr2 & Ebk2 & Ewd2 & _).
    rewrite Hc3 in Hc2, Ht2, Ecr2, Ebk2, Ewd2. rewrite Ht3 in Ht2. rewrite Ha3 in Ha2.
    destruct (upserted_already (sm_project rq) (sm_dataset rq) keys ids2 (cw_cases w')) as (Hmap & Hmade & Hgone & Hback); [|done|].
    { intros k Hin. apply unknown_key_false. by apply Hkeyed. }
    rewrite Hmade in Hc2, Ecr2. rewrite Hgone in Ht2, Ewd2. rewrite Hback in Ebk2. rewrite Hmap, app_nil_r in Hc2. cbn in Ht2.
    rewrite app_nil_r in Ht2. by split_and!.
Qed.

End Uploading.

(** ** What a device is told it holds *)

(** The statement a pull carries names exactly the cases its person holds, so
    a case released is absent from it. *)
Theorem assigned_to_is_what_is_held collate p w c :
  c ∈ map fst (assigned_to collate p w (pn_user p)) <->
  c ∈ cw_cases w /\ exists a, a ∈ cw_assignments w /\ held a = true /\ an_user a = Some (pn_user p) /\ an_case a = ca_id c.
Proof.
  assert (forall a, a ∈ cw_assignments w -> held a = true -> an_user a = Some (pn_user p) -> case_in_scope p w (an_case a) = true) as Hs.
  { intros a Ha Hh Hu. unfold case_in_scope. rewrite !orb_true_iff. right. apply existsb_exists. exists a. split; [by apply list_elem_of_In|].
    by rewrite str_eqb_refl, Hh, Hu, bool_decide_eq_true_2. }
  unfold assigned_to. rewrite map_map. cbn. rewrite map_id, sort_by_perm, list_elem_of_In, in_concat. split.
  - intros (l & (a & <- & [Ha [[Hh Hu%bool_decide_eq_true]%andb_true_iff _]%andb_true_iff]%filter_In)%in_map_iff & [Hc [Hi%str_eqb_eq _]%andb_true_iff]%filter_In).
    split; [by apply list_elem_of_In|]. exists a. split; [by apply list_elem_of_In|]. done.
  - intros (Hc & a & Ha & Hh & Hu & Hi). eexists. split.
    + apply in_map_iff. exists a. split; [done|]. apply filter_In. split; [by apply list_elem_of_In|]. rewrite Hh, Hu, bool_decide_eq_true_2 by done.
      by apply Hs.
    + apply filter_In. split; [by apply list_elem_of_In|]. unfold sees_case. rewrite <- Hi, str_eqb_refl. by apply Hs.
Qed.

(** ** Any sequence of requests *)

Definition same_case (c d : case_row) : Prop :=
  ca_id d = ca_id c /\ ca_project d = ca_project c /\ ca_dataset d = ca_dataset c /\ ca_key d = ca_key c /\ ca_priority d = ca_priority c.

(** A row is there as it was, or released since. *)
Definition kept (a : assignment) (l : list assignment) : Prop := a ∈ l \/ exists t, released t a ∈ l.

(** A person is an active member of the organisation and of a team the case
    was given to. *)
Definition placed (p : principal) (w : casework) (c u : pystr) : Prop :=
  active_in (pn_org p) u (cw_people w) /\
  exists t m, m ∈ di_members (cw_people w) /\ pm_user m = u /\ pm_active m = true /\
    an_case t = c /\ an_team t <> None /\ pm_team m = an_team t /\ kept t (cw_assignments w).

Record work (p : principal) (w w' : casework) : Prop := {
  wk_people : cw_people w' = cw_people w;
  wk_holders : holders (cw_assignments w');
  wk_known : known_once (cw_cases w) -> known_once (cw_cases w');
  wk_cases : forall c, c ∈ cw_cases w -> exists d, d ∈ cw_cases w' /\ same_case c d;
  wk_kept : forall a, a ∈ cw_assignments w -> kept a (cw_assignments w');
  wk_new : forall a, a ∈ cw_assignments w' -> held a = true -> a ∈ cw_assignments w \/
    dcp_has p "sample.assign" = true /\ forall u, an_user a = Some u -> placed p w' (an_case a) u
}.

Definition worked (p : principal) (w w' : casework) : Prop := holders (cw_assignments w) -> work p w w'.

Lemma kept_on a l k : kept a l -> (forall b, b ∈ l -> kept b k) -> kept a k.
Proof.
  intros [H|[t H]] Hk; [by apply Hk|]. destruct (Hk _ H) as [Hin|[s Hin]]; right; [by exists t|by exists s].
Qed.

#[export] Instance worked_refl p : Reflexive (worked p).
Proof. intros w Hh. split; try done; [|by left|by left]. intros c Hc. by exists c. Qed.

#[export] Instance worked_trans p : Transitive (worked p).
Proof.
  intros x y z Hxy Hyz Hx. destruct (Hxy Hx) as [P1 H1 K1 C1 T1 N1]. destruct (Hyz H1) as [P2 H2 K2 C2 T2 N2]. split.
  - by rewrite P2.
  - done.
  - auto.
  - intros c (d & Hd & Hs)%C1. destruct (C2 d Hd) as (e & He & Ht). exists e. split; [done|]. unfold same_case in *. naive_solver congruence.
  - intros a Ha. eapply kept_on; [by apply T1|done].
  - intros a Ha Hh. destruct (N2 a Ha Hh) as [Hin|]; [|by right]. destruct (N1 a Hin Hh) as [|[Hp Hu]]; [by left|right]. split; [done|].
    intros u E. destruct (Hu u E) as (Hact & t & m & Hm & Hmu & Hma & Htc & Htt & Hmt & Hk). split; [by rewrite P2|].
    exists t, m. rewrite P2. split_and!; [done..|]. by eapply kept_on.
Qed.

Section Working.
Context (ulid : N -> pystr).
Context (sha256_hex : list N -> pystr) (utf8 : pystr -> list N) (casefold : pystr -> pystr) (p : principal).

Local Abbreviation working := (along (worked p)) (only parsing).

(** A statement that leaves cases, holders and people alone. *)
Lemma working_elsewhere w w' :
  cw_people w' = cw_people w -> cw_cases w' = cw_cases w -> cw_assignments w' = cw_assignments w -> worked p w w'.
Proof.
  intros Hp Hc Ha Hh. split; rewrite ?Hp, ?Hc, ?Ha; try done; [|by left|by left]. intros c Hin. by exists c.
Qed.

(** One that leaves holders and people alone. *)
Lemma working_cases w w' :
  cw_people w' = cw_people w -> cw_assignments w' = cw_assignments w -> (known_once (cw_cases w) -> known_once (cw_cases w')) ->
  (forall c, c ∈ cw_cases w -> exists d, d ∈ cw_cases w' /\ same_case c d) -> worked p w w'.
Proof. intros Hp Ha Hk Hc Hh. split; rewrite ?Hp, ?Ha; try done; by left. Qed.

Lemma working_guarded {A} (m : WT A) : (forall w w' a, m w = (w', inl a) -> worked p w w') -> working (guarded m).
Proof.
  intros Hm w w' [a|e] H; [apply guarded_went in H; by eapply Hm|]. by apply guarded_refused in H as ->.
Qed.

Lemma working_catalog {A} (m : CT A) : working (on_catalog m).
Proof. intros w w' r. unfold on_catalog. destruct (m (cw_catalog w)) as [k [a|e]]; [|destruct e]; intros [= <- _]; by apply working_elsewhere. Qed.

Lemma working_assign_case now c team user i : working (guarded (dcp_assign_case p now c team user i)).
Proof.
  apply working_guarded. intros w w' u H Hh. pose proof Hh as [Ht _ _ _].
  destruct (assign_went _ _ _ _ _ _ _ _ _ H) as (_ & Hmay & _ & Hw). destruct (assign_holding _ _ _ _ _ _ _ _ _ Ht H) as (Hrow & _ & Hunder).
  pose proof (assign_keeps_holders _ _ _ _ _ _ _ _ _ Hh H) as Hh'. clear H. set (row := Assignment _ _ _ _ _ _ _) in *.
  assert (forall a, a ∈ cw_assignments w -> kept a (cw_assignments w')) as Hkept.
  { intros a Ha. rewrite Hw. cbn. destruct (outgoing c team a) eqn:E.
    - right. exists now. apply elem_of_app. left. apply list_elem_of_In, in_map_iff. exists a. rewrite E. split; [done|by apply list_elem_of_In].
    - left. apply elem_of_app. left. by apply releasing_live. }
  assert (cw_people w' = cw_people w) as Hp by by rewrite Hw.
  split; [done|done|by rewrite Hw|rewrite Hw; intros x Hx; by exists x|done|].
  intros a Ha Hheld. rewrite Hw in Ha. apply elem_of_app in Ha as [Ha| ->%list_elem_of_singleton].
  - left. by destruct (releasing_held _ _ _ _ Ha Hheld).
  - right. unfold may_write_assignment in Hmay. apply andb_true_iff in Hmay as [[Hhas _]%andb_true_iff Hlev]. split; [done|].
    intros v Hv. change (user = Some v) in Hv. destruct team as [t|].
    { unfold to_team, to_person, row in Hrow. cbn in Hrow. rewrite Hv in Hrow. done. }
    destruct (Hunder eq_refl) as (v' & Hv' & _ & Hact & t & m & Hin & Hm & Hmt & Hmu & Hma). rewrite Hv in Hv'. injection Hv' as <-.
    apply elem_of_Lfilter in Hin as [Hin Hteam]. apply elem_of_Lfilter in Hin as [Hin [Hc%str_eqb_eq _]%andb_true_iff].
    split; rewrite Hp; [done|]. exists t, m. split_and!; [done..| |done|by apply Hkept].
    unfold to_team in Hteam. by apply negb_true_iff, bool_decide_eq_false in Hteam.
Qed.

Lemma working_assign now c team user : working (assign ulid p now c team user).
Proof.
  unfold assign. apply along_bind; [apply _|apply along_unless, _|intros _]. apply along_bind; [apply _|apply working_catalog|intros i].
  apply working_assign_case.
Qed.

Lemma working_insert_case c : working (insert_case p c).
Proof.
  intros w w' r H. unfold insert_case, insert_row in H. st_read H. cbn in H. st_unless H Hp; [|done]. st_unless H Hc; [|done].
  injection H as <- _. apply working_cases; [done|done| |].
  - assert (each [c] (insert_case p) w = (with_cases (cw_cases w ++ [c]) w, inl tt)) as H.
    { cbn. unfold insert_case, insert_row, asks, mbind, ST_bind, id. rewrite Hp, Hc. done. }
    by destruct (inserts_went _ _ _ _ _ H) as (_ & _ & Hk).
  - intros x Hx. exists x. split; [|done]. apply elem_of_app. by left.
Qed.

Lemma working_update_cases matches policy s t : working (update_rows cw_cases with_cases matches (in_status s t) policy (fun _ => true)).
Proof.
  intros w w' [n|e] H.
  - apply update_went in H as (_ & -> & _). apply working_cases; [done|done| |]; cbn.
    + unfold known_once. enough (forall l, omap project_key (map (fun r => if matches w r then in_status s t r else r) l) = omap project_key l) as ->; [done|].
      intros l. induction l as [|c l IH]; [done|]. cbn. rewrite IH. by destruct (matches w c).
    + intros c Hc. exists (if matches w c then in_status s t c else c). split; [|by destruct (matches w c)].
      by apply list_elem_of_In, in_map_iff; exists c; rewrite <- list_elem_of_In.
  - unfold update_rows in H. st_read H. cbn in H. st_unless H Hp; [|done]. st_unless H Hc; [|done]. st_write H. discriminate H.
Qed.

Lemma working_mints n : working (mints ulid n).
Proof. intros w w' r H. destruct (mints_run ulid n w) as (k & l & E & _). rewrite E in H. injection H as <- _. by apply working_elsewhere. Qed.

Lemma working_publish now rq keyed : working (publish_sample ulid sha256_hex utf8 casefold p now rq keyed).
Proof.
  intros w w' r H. unfold publish_sample in H. destruct (on_catalog _ w) as [w1 x] eqn:E. apply working_catalog in E.
  destruct x as [x|e]; [|destruct e]; try destruct (project_seen _ _ _); injection H as <- _; done.
Qed.

Lemma working_upsert now project dataset_key keys ids : working (dcp_upsert_cases p now project dataset_key keys ids).
Proof.
  unfold dcp_upsert_cases. apply along_bind; [apply _|apply along_asks, _|intros w]. apply along_bind; [apply _| |intros _].
  { apply along_each; [apply _|apply _|intros ki]. apply working_insert_case. }
  apply along_bind; [apply _|apply working_update_cases|intros n]. apply along_bind; [apply _|apply along_asks, _|intros v].
  apply along_bind; [apply _|apply working_update_cases|intros m]. apply along_bind; [apply _|apply along_unless, _|intros _].
  apply along_bind; [apply _| |intros _; apply along_ret, _]. apply along_writes. intros x. by apply working_elsewhere.
Qed.

Lemma working_guarded_any {A} (m : WT A) : working m -> working (guarded m).
Proof. intros Hm. apply working_guarded. intros w w' a. apply Hm. Qed.

Lemma working_upload now rq : working (upload_sample ulid sha256_hex utf8 casefold p now rq).
Proof.
  unfold upload_sample. apply along_bind; [apply _|apply along_unless, _|intros _]. cbv zeta. apply along_bind; [apply _|apply along_unless, _|intros _].
  destruct (keyed_rows _ _ _) as [keyed|e]; [|apply along_refuse, _]. apply along_bind; [apply _|apply working_publish|intros pub].
  apply along_bind; [apply _|apply working_guarded_any, along_writes; intros x; by apply working_elsewhere|intros _].
  apply along_bind; [apply _|apply working_mints|intros ids]. apply along_bind; [apply _|apply working_guarded_any, working_upsert|intros counts].
  apply along_ret, _.
Qed.

Lemma perform_work_does now a : working (perform_work ulid sha256_hex utf8 casefold p now a).
Proof.
  destruct a as [c team user|cs team user|rq]; cbn [perform_work]; [apply working_assign|..].
  - apply along_bind; [apply _| |intros _; apply along_ret, _]. unfold assign_many. apply along_bind; [apply _| |intros _; apply along_ret, _].
    apply along_each; [apply _|apply _|intros c]. apply working_assign.
  - apply along_bind; [apply _|apply working_upload|intros _; apply along_ret, _].
Qed.
End Working.

Section Serving.
Context (collate : pystr -> pystr -> comparison) (ulid : N -> pystr).
Context (sha256_hex : list N -> pystr) (utf8 : pystr -> list N) (casefold : pystr -> pystr).
Context (token_hash : pystr -> pystr) (argon2 : pystr -> pystr -> bool) (hash_password : pystr -> pystr) (ttl : Z).

Abbreviation serving := (serve_work collate ulid sha256_hex utf8 casefold token_hash argon2 hash_password ttl) (only parsing).

(** The tables after a sequence of requests. *)
Definition run_work (w : casework) (l : list (Z * work_request)) : casework := fold_left serving l w.

Lemma run_work_snoc w l rq : run_work w (l ++ [rq]) = serving (run_work w l) rq.
Proof. unfold run_work. by rewrite fold_left_app. Qed.

(** Whom a request on cases acts as. *)
Definition worker (w : casework) (t_rq : Z * work_request) : option identity :=
  match t_rq.2 with
  | Work slug token _ => match (current_identity token_hash t_rq.1 ttl slug token (cw_people w)).2 with inl i => i | inr _ => None end
  | OfPeople _ => None
  end.

(** A request is one of people's, or resolves its session and works. *)
Lemma request_works w rq :
  (exists d, serving w rq = with_people_of d w /\ (lawful (cw_people w) -> lawful d)) \/
  exists i d org slug, worker w rq = Some i /\ ie_principal i = principal_for (cw_people w) (ie_user i) org slug /\
    (lawful (cw_people w) -> lawful d) /\ worked (ie_principal i) (with_people_of d w) (serving w rq).
Proof.
  destruct rq as [now rq]. unfold serve_work. cbn [fst snd]. destruct (handle_work _ _ _ _ _ _ _ _ _ now rq w) as [w' r] eqn:E.
  cbn [fst]. destruct rq as [rq|slug token a]; cbn [handle_work] in E.
  - left. exists (serve_person ulid token_hash argon2 hash_password collate ttl (cw_people w) (now, rq)). split.
    2:{ intros Hl. exact (serving_lawful ulid token_hash argon2 hash_password collate ttl (cw_people w) (now, rq) Hl). }
    unfold serve_person. cbn [fst snd]. unfold mbind, ST_bind, on_people in E.
    destruct (handle _ _ _ _ _ ttl now rq (cw_people w)) as [d [x|e]]; by injection E as <- _.
  - unfold mbind, ST_bind, on_people in E. destruct (current_identity token_hash now ttl slug token (cw_people w)) as [d ri] eqn:Ei.
    assert (lawful (cw_people w) -> lawful d) as Hd.
    { assert (exists org, does (organization_only org slug) (cw_people w) d) as [org H]; [|intros Hl; by eapply does_lawful].
      unfold current_identity in Ei. destruct token as [token|]; [|injection Ei as <- _; exists []; apply rtc_refl]. st_read Ei. cbn in Ei.
      destruct (organization_of (cw_people w) slug) as [org|]; [exists org|exists []]; (eapply doing_transaction; [|exact Ei]); apply resolve_does. }
    destruct ri as [oi|e]; [|left; exists d; by injection E as <- _].
    destruct (guard (declared_work a) oi) as [i|e] eqn:Eg; [|left; exists d; by injection E as <- _].
    assert (oi = Some i) as -> by (unfold guard in Eg; destruct oi as [j|]; [|done]; repeat case_match; congruence).
    right. destruct (resolved _ _ _ _ _ _ _ _ Ei) as (org & _ & Hp & _ & _). exists i, d, org, slug. split_and!; [|done|done|].
    + unfold worker. cbn. by rewrite Ei.
    + apply transacted in E as [(x & _ & E)|(-> & _)]; [|done]. by apply perform_work_does in E.
Qed.

(** What one request leaves, sound tables given. *)
Record fieldwork_sound (w : casework) : Prop := {
  fs_people : lawful (cw_people w);
  fs_holders : holders (cw_assignments w);
  fs_known : known_once (cw_cases w)
}.

Lemma request_sound w rq : fieldwork_sound w ->
  fieldwork_sound (serving w rq) /\
  (forall c, c ∈ cw_cases w -> exists d, d ∈ cw_cases (serving w rq) /\ same_case c d) /\
  (forall a, a ∈ cw_assignments w -> kept a (cw_assignments (serving w rq))) /\
  forall a, a ∈ cw_assignments (serving w rq) -> held a = true -> a ∈ cw_assignments w \/
    exists i, worker w rq = Some i /\ lit "sample.assign" ∈ held_permissions (cw_people w) (ie_user i) /\
      forall u, an_user a = Some u -> placed (ie_principal i) (serving w rq) (an_case a) u.
Proof.
  intros [Hl Hh Hk]. destruct (request_works w rq) as [(d & -> & Hd)|(i & d & org & slug & Hi & Hp & Hd & Hw)].
  - split; [by split; [apply Hd|..]|]. split_and!; [intros c Hc; by exists c|by left|by left].
  - destruct (Hw Hh) as [P H K C T N]. split; [|split_and!; [exact C|exact T|]].
    + split; [rewrite P; by apply Hd|done|by apply K].
    + intros a Ha Hheld. destruct (N a Ha Hheld) as [|[Hhas Hu]]; [by left|right]. exists i. split; [done|]. split; [|done].
      rewrite Hp in Hhas. by eapply principal_has.
Qed.

Lemma run_sound w l : fieldwork_sound w -> fieldwork_sound (run_work w l).
Proof. intros Hs. induction l as [|rq l IH] using rev_ind; [done|]. rewrite run_work_snoc. by apply request_sound. Qed.

(** C30: cases and who held them are never lost.  Through any sequence of
    requests, people's included, every case has at most one team and one
    person, a person only under a team; a project has a key once; a case keeps
    its identifier, sample, key and priority; and every assignment ever made
    is there, as it was or released. *)
Theorem cases_keep_their_history w l (Hsound : fieldwork_sound w) :
  fieldwork_sound (run_work w l) /\
  (forall c, c ∈ cw_cases w -> exists d, d ∈ cw_cases (run_work w l) /\ same_case c d) /\
  (forall a, a ∈ cw_assignments w -> kept a (cw_assignments (run_work w l))).
Proof.
  induction l as [|rq l IH] using rev_ind; [split_and!; [done|intros c Hc; by exists c|by left]|]. rewrite run_work_snoc.
  destruct IH as (Hs & Hc & Ha). destruct (request_sound (run_work w l) rq Hs) as (Hs' & Hc' & Ha' & _). split_and!; [done| |].
  - intros c (d & Hd & Hcd)%Hc. destruct (Hc' d Hd) as (e & He & Hde). exists e. split; [done|]. unfold same_case in *. naive_solver congruence.
  - intros a Hin. eapply kept_on; [by apply Ha|done].
Qed.

(** C17: only those who may assign put anyone on a case, and only someone who
    can work it.  Whoever holds a case after any requests held it at the start,
    or was put there by a request acted on for someone who could assign the
    sample then; and a person so put was then an active member of the
    organisation and of a team the case had been given to. *)
Theorem only_assigners_assign w l a (Hsound : fieldwork_sound w)
    (Ha : a ∈ cw_assignments (run_work w l)) (Hheld : held a = true) :
  a ∈ cw_assignments w \/
  exists before rq after i, l = before ++ rq :: after /\ worker (run_work w before) rq = Some i /\
    lit "sample.assign" ∈ held_permissions (cw_people (run_work w before)) (ie_user i) /\
    forall u, an_user a = Some u -> placed (ie_principal i) (run_work w (before ++ [rq])) (an_case a) u.
Proof.
  induction l as [|rq l IH] using rev_ind; [by left|]. rewrite run_work_snoc in Ha.
  destruct (request_sound (run_work w l) rq (run_sound w l Hsound)) as (_ & _ & _ & Hn). destruct (Hn a Ha Hheld) as [Hin|(i & Hi & Hx & Hu)].
  - destruct (IH Hin) as [|(before & rq' & after & i & -> & H)]; [by left|right]. exists before, rq', (after ++ [rq]), i.
    by rewrite <- app_assoc.
  - right. exists l, rq, [], i. by rewrite run_work_snoc.
Qed.

End Serving.

(** ** At Acme *)

Section Witnesses.
Import Acme Fieldwork.

Ltac by_deciding := refine (bool_decide_unpack _ _); by_compute.

Abbreviation works_on w l :=
  (run_work str_cmp ulids spoken spoken spoken (fun t => lit "=" ++ t) hashes hashed 3600 w l) (only parsing).

Lemma nothing_yet_sound : fieldwork_sound nothing_yet.
Proof.
  split; [exact taken_on_lawful| |by constructor]. split; [by intros a ?%elem_of_nil|intros c; cbn; lia|intros c; cbn; lia|done].
Qed.

Lemma split_up_run : works_on nothing_yet splitting = split_up.
Proof. by_compute. Qed.
Lemma sent_out_run : works_on split_up sending = sent_out.
Proof. by_compute. Qed.

Lemma split_up_sound : fieldwork_sound split_up.
Proof. rewrite <- split_up_run. apply run_sound, nothing_yet_sound. Qed.

(** Sam puts Noor on a household of the north. *)
Lemma assigning_moves_the_holder_witness :
  exists w' t row, transaction (assign ulids sam 12 "u103" None (Some (lit "u1"))) split_up = (w', inl tt) /\
    holding "u103" (cw_assignments w') = [t; row] /\ an_team t = Some (lit "north") /\ an_user row = Some (lit "u1").
Proof.
  destruct (transaction (assign ulids sam 12 "u103" None (Some (lit "u1"))) split_up) as [w' r] eqn:E.
  pose proof (assigning_moves_the_holder ulids sam 12 "u103" None (Some (lit "u1")) split_up w' r
    (fs_holders _ split_up_sound) E) as H.
  assert (r = inl tt) as -> by (change r with (w', r).2; rewrite <- E; by_compute). destruct H as [(row & _ & _ & Hu & _ & _ & t & m & Ht & Hh & _) _].
  exists w', t, row. split_and!; [done|exact Hh| |exact Hu]. vm_compute in Ht. injection Ht as <-. done.
Defined.

(** The third household's case is withdrawn and its tombstone left. *)
Lemma upload_makes_the_cases_witness :
  exists w' rep, upload_sample ulids spoken spoken spoken ann 13 sample_of_two split_up = (w', inl rep) /\
    su_created rep = O /\ su_withdrawn rep = 1%nat /\
    (exists c, c ∈ cw_cases w' /\ ca_key c = Some (lit "oak|1") /\ ca_status c <> CaseWithdrawn).
Proof.
  destruct (upload_sample ulids spoken spoken spoken ann 13 sample_of_two split_up) as [w' [rep|e]] eqn:E; [|exfalso].
  2:{ assert (is_ok (match (upload_sample ulids spoken spoken spoken ann 13 sample_of_two split_up).2 with inl _ => Ok tt | inr _ => Raise KeyError end) = true)
        as H by by_compute. by rewrite E in H. }
  destruct (upload_makes_the_cases ulids spoken spoken spoken ann 13 sample_of_two split_up w' rep) as (_ & _ & Hkeys & Hstand & _).
  - left. by_compute.
  - apply split_up_sound.
  - exact E.
  - destruct (Hkeys (lit "oak|1")) as (c & Hc & Hp & Hk & _); [by_deciding|]. exists w', rep. split; [done|].
    split; [|split].
    + change rep with (default rep (match (w', inl rep : upload_report + refusal).2 with inl r => Some r | inr _ => None end)). rewrite <- E. by_compute.
    + change rep with (default rep (match (w', inl rep : upload_report + refusal).2 with inl r => Some r | inr _ => None end)). rewrite <- E. by_compute.
    + exists c. split; [exact Hc|]. split; [exact Hk|]. apply Hstand; [exact Hc| |].
      * vm_compute in E. injection E as <- <-. repeat (apply elem_of_cons in Hc as [->|Hc]; [by_compute|]). by apply elem_of_nil in Hc.
      * exists (lit "oak|1"). split; [exact Hk|by_deciding].
Defined.

Lemma cases_keep_their_history_witness :
  fieldwork_sound (works_on (works_on nothing_yet splitting) sending) /\
  kept noors_row (cw_assignments (works_on (works_on nothing_yet splitting) sending)).
Proof.
  rewrite split_up_run. split.
  - exact (proj1 (cases_keep_their_history str_cmp ulids spoken spoken spoken (fun t => lit "=" ++ t) hashes hashed 3600
      split_up sending split_up_sound)).
  - left. by_deciding.
Defined.

Lemma only_assigners_assign_witness :
  noors_row ∉ cw_assignments split_up /\
  exists before rq after i, sending = before ++ rq :: after /\
    worker (fun t => lit "=" ++ t) 3600 (works_on split_up before) rq = Some i /\
    placed (ie_principal i) (works_on split_up (before ++ [rq])) "u103" "u1".
Proof.
  assert (noors_row ∉ cw_assignments split_up) as Hn by by_deciding. split; [exact Hn|].
  destruct (only_assigners_assign str_cmp ulids spoken spoken spoken (fun t => lit "=" ++ t) hashes hashed 3600 split_up sending noors_row
    split_up_sound) as [Hold|(before & rq & after & i & Hl & Hi & _ & Hp)].
  - by_deciding.
  - by_compute.
  - destruct (Hn Hold).
  - exists before, rq, after, i. split; [exact Hl|]. split; [exact Hi|]. by apply (Hp (lit "u1")).
Defined.

End Witnesses.
