(* ===== verification/Findings.v ===== *)
(** * What modelling the code showed

    Each lemma evaluates the model at an input where the code departs from
    what a comment, a specification or the code around it says. *)

From S2P Require Import Prelude PyStr PyNum PyDate Value Expr Expression ExpressionFacts Datasets.
From S2P Require Import Document Topo Compile Runtime Fold CaseKey Samples.
From S2P Require Import PyJson Status Server Media Quality Identity Cases Push Pull SyncSamples ServerTheorems.
From S2P Require Import Surface Grammar Printer PrinterFacts SurfaceTheorems.

(** ** What is decided at publication *)

Definition born : value := call_expr "age_years" [lit_expr (text "2010-05-05")].
Definition later_ctx : eval_ctx := EvalCtx [] (Date 2026 9 14) [] None [] None [] None.

(** [age_years] with one argument reads the clock, and [is_static] calls it
    static: the publish gate decides it as of 2000-01-01. *)
Lemma age_years_is_not_static :
  is_static (expr_of born) = true /\ static_value (expr_of born) = Ok (VInt (-11)) /\
  evaluate later_ctx (expr_of born) = Ok (VInt 16).
Proof. vm_compute. auto. Qed.

(** [pulldata] of literals is called static, and the gate decides it without
    the dataset. *)
Lemma pulldata_is_not_static :
  let e := expr_of (call_expr "pulldata" [lit_expr (text "d"); lit_expr (text "v"); lit_expr (text "k"); lit_expr (text "x")]) in
  let ctx := EvalCtx [] (Date 2026 9 14) [] None [] None []
               (Some (in_memory [(lit "d", [[(lit "k", text "x"); (lit "v", text "found")]])])) in
  is_static e = true /\ static_value e = Ok VNone /\ evaluate ctx e = Ok (VStr (lit "found")).
Proof. vm_compute. auto. Qed.

(** ** Casts and rounding *)

Definition cast_of (v : value) : res value := evaluate later_ctx (expr_of (call_expr "int" [lit_expr v])).

(** The cast raises where the evaluator is said to raise on integer overflow
    alone. *)
Lemma int_of_infinity_raises :
  cast_of (text "inf") = Raise OverflowError /\ cast_of (text "nan") = Raise ValueError.
Proof. vm_compute. auto. Qed.

(** Text becomes an integer through a float: an exact number loses digits. *)
Lemma int_loses_digits : cast_of (text "9007199254740993") = Ok (VInt 9007199254740992).
Proof. vm_compute. auto. Qed.

(** A negative number of digits is not scaled back. *)
Lemma round_to_hundreds :
  evaluate later_ctx (expr_of (call_expr "round" [lit_expr (VInt 1234); lit_expr (VInt (-2))])) = Ok (VInt 12).
Proof. vm_compute. auto. Qed.

(** The sum of a group leaves the 64-bit range where an addition is refused. *)
Lemma sum_leaves_int64 :
  fn_sum [VList [VInt INT_MAX; VInt 1]] = Ok (VInt (INT_MAX + 1)) /\
  eval_binary OpAdd (VInt INT_MAX) (VInt 1) = Raise (EvaluationError "integer overflow").
Proof. vm_compute. auto. Qed.

(** ** Filters *)

(** A number against a text column: the expression says no, the selector the
    filter compiles to says yes. *)
Lemma selector_matches_number_as_text :
  equal_ (VStr (lit "1")) (VInt 1) = Some false /\ same (VStr (lit "1")) (VInt 1) = true.
Proof. vm_compute. auto. Qed.

(** ** Identifiers *)

(** An id with a newline at its end is accepted. *)
Lemma newline_id_accepted : id_pattern (lit "age" ++ [10%N]) = true.
Proof. vm_compute. auto. Qed.

(** ** Recalculation *)

(** A roster sized by a calculate. *)
Definition sized : value := document
  [ question "asked" "integer" []; question "other" "integer" [];
    question "wanted" "integer" [("calculate"%string, op_expr "add" [ref_expr "asked"; lit_expr (VInt 1)])];
    container "repeat" "rows" [("countExpr"%string, ref_expr "wanted")] [question "cell" "text" []] ].

Definition sized_world : world := world_of (compiled_or_empty sized).
Definition answered (w : world) (l : list (string * value)) : inst :=
  fold_left (fun s kv => after (set_answer w (lit kv.1) kv.2) s) l (construct w).1.

(** [countExpr] is applied before the calculate it reads is computed: the same
    answers, given in another order, leave another number of instances. *)
Lemma count_lags_its_calculate :
  let asked := ("asked"%string, VInt 2) in
  let other := ("other"%string, VInt 0) in
  instance_count (lit "rows") (answered sized_world [asked; other]) = 3%nat /\
  instance_count (lit "rows") (answered sized_world [other; asked]) = 0%nat.
Proof. vm_compute. auto. Qed.

(** A calculate that reads its own field is no cycle to the compiler, and
    every recalculation moves its value on. *)
Definition counting : value := document
  [ question "n" "integer" [("calculate"%string,
      op_expr "add" [call_expr "coalesce" [ref_expr "n"; lit_expr (VInt 0)]; lit_expr (VInt 1)])] ].

Lemma self_reading_calculate_never_settles :
  let w := world_of (compiled_or_empty counting) in
  let s := (construct w).1 in
  is_ok (compile counting) = true /\ vget (i_values s) (lit "n") = VInt 1 /\
  vget (i_values (recalculate w s).1) (lit "n") = VInt 2 /\
  vget (i_values (recalculate w (recalculate w s).1).1) (lit "n") = VInt 3.
Proof. vm_compute. auto. Qed.

(** A calculate behind a gate, and one that reads it. *)
Definition gated : value := document
  [ question "gate" "text" []; question "amount" "integer" [];
    question "tax" "integer" [("relevant"%string, op_expr "eq" [ref_expr "gate"; lit_expr (text "yes")]);
                              ("calculate"%string, op_expr "add" [ref_expr "amount"; lit_expr (VInt 1)])];
    question "due" "integer" [("calculate"%string, op_expr "add" [ref_expr "tax"; lit_expr (VInt 1)])] ].

Definition gated_world : world := world_of (compiled_or_empty gated).

(** A calculate that is no longer relevant keeps its last value, and what reads
    it keeps using it: the same final answers give different results. *)
Lemma irrelevant_calculate_is_read :
  vget (i_values (answered gated_world [("amount"%string, VInt 5); ("gate"%string, text "no")])) (lit "due") = VInt 7 /\
  vget (i_values (answered gated_world [("gate"%string, text "no"); ("amount"%string, VInt 5)])) (lit "due") = VNone.
Proof. vm_compute. auto. Qed.

(** A roster whose ages may be irrelevant. *)
Definition aged : value := document
  [ question "gate" "text" [];
    container "repeat" "members" [("minInstances"%string, VInt 1)]
      [question "age" "integer" [("relevant"%string, op_expr "eq" [ref_expr "gate"; lit_expr (text "yes")])]];
    question "total" "integer" [("calculate"%string, call_expr "sum" [ref_expr "members[].age"])] ].

Definition aged_world : world := world_of (compiled_or_empty aged).

(** Aggregates include the values of questions that are not relevant. *)
Lemma aggregate_includes_irrelevant :
  let s := answered aged_world [("gate"%string, text "yes"); ("members[0].age"%string, VInt 40); ("gate"%string, text "no")] in
  option_map fs_relevant (dget (i_states s) (lit "members[i1].age")) = Some false /\
  vget (i_values s) (lit "total") = VInt 40.
Proof. vm_compute. auto. Qed.

(** ** Keys and the fold *)

(** The empty list of parts does not read back. *)
Lemma no_parts_do_not_read_back : split (compose []) = [[]].
Proof. vm_compute. auto. Qed.

(** Deleting a field's path removes the whole instance from its repeat, and
    leaves the answers of its other fields. *)
Lemma deleting_a_field_drops_its_instance :
  let ops := [FoldOp (lit "set") (Some (lit "m[i1].a")) (VInt 1) false None [] 1;
              FoldOp (lit "set") (Some (lit "m[i1].b")) (VInt 2) false None [] 2;
              FoldOp (lit "repeat_delete") (Some (lit "m[i1].a")) VNone false None [] 3] in
  fo_instances (fold_ops ops) = [(lit "m", [])] /\ fo_data (fold_ops ops) = [(lit "m[i1].b", VInt 2)].
Proof. vm_compute. auto. Qed.

(** ** Push *)

(** Ops relayed for Bob's handset are filed under Ann, whose op came last. *)
Definition relayed_batch : list (odict value) :=
  [ wire "b1" "sb" "set" "d2" 1 [("path"%string, text "name"); ("value"%string, text "Bob")];
    wire "a1" "sa" "set" "d1" 1 [("path"%string, text "name"); ("value"%string, text "Ann")] ].

Lemma relayed_op_filed_under_another :
  map (fun r => (ro_device r, ro_actor r))
    (sv_ops (sample_push sample_clocks (lit "d1") relayed_batch [] fresh_server).1) =
    [(lit "d2", Some (lit "ann")); (lit "d1", Some (lit "ann"))] /\
  map (fun isb => sb_created_by isb.2)
    (sv_submissions (sample_push sample_clocks (lit "d1") relayed_batch [] fresh_server).1) = [Some (lit "bob"); Some (lit "ann")].
Proof. vm_compute. auto. Qed.

(** A decision that lands between a push's read and its fold is overwritten:
    the status machine is asked about the status the push had read. *)
Lemma push_undoes_a_decision :
  let run := push str_cmp sample_ulid decode_wire open_all sample_clocks (approve (lit "s1")) (lit "d1") reopen_batch []
               (Some (lit "ann")) None after_first in
  sb_status (s1_of (approve (lit "s1") after_first)) = lit "approved" /\
  next_status (lit "approved") (lit "reopen") = None /\ sb_status (s1_of run.1) = lit "draft".
Proof. vm_compute. auto. Qed.

(** A duplicate of an op that is then rejected is answered accepted too. *)
Lemma duplicate_of_rejected_is_accepted :
  let x := wire "x1" "s2" "set" "lost" 1 [("path"%string, text "name"); ("value"%string, text "Eve")] in
  (sample_push sample_clocks (lit "d1") [x; x] [] fresh_server).2 =
    inl (Response [lit "x1"] [Rejected (Some (lit "x1")) not_authorized] 0).
Proof. vm_compute. reflexivity. Qed.

(** One op with a counter beyond the column fails every op of its batch. *)
Lemma wide_counter_fails_the_batch :
  (sample_push sample_clocks (lit "d1")
     (first_batch ++ [wire "w1" "s1" "set" "d1" (2 ^ 63) [("path"%string, text "age"); ("value"%string, VInt 1)]])
     first_keys fresh_server).2 = inr DataError.
Proof. vm_compute. reflexivity. Qed.

(** So does a content key id already stored under another submission. *)
Lemma key_id_taken_fails_the_batch :
  (sample_push sample_clocks (lit "d1")
     [wire "k1" "s9" "set" "d1" 30 [("path"%string, text "age"); ("value"%string, VInt 1)]]
     [KeyIn (lit "ck") (lit "s9") (lit "d1") [WrappedKey [] (lit "rk") [1%N] [2%N] [3%N]]] after_first).2 = inr IntegrityError.
Proof. vm_compute. reflexivity. Qed.

(** So does a rule that casts infinity to an integer. *)
Definition infinite_rule : rule_row :=
  RuleRow (lit "r2") (lit "p") None (lit "cast") (call_expr "int" [ref_expr "name"]) (lit "warning") true.

Lemma rule_fails_the_batch :
  (sample_push sample_clocks (lit "d1") [wire "i1" "si" "set" "d1" 40 [("path"%string, text "name"); ("value"%string, text "inf")]] []
     (with_rules [infinite_rule] fresh_server)).2 = inr (RuleError OverflowError).
Proof. vm_compute. reflexivity. Qed.

(** Once no rule is enabled the open flags stay open, whatever is pushed. *)
Lemma stale_flags_stay_open :
  let s := with_rules [] after_first in
  let age := [wire "g1" "s1" "set" "d1" 50 [("path"%string, text "age"); ("value"%string, VInt 40)]] in
  map fl_rule (open_flags s (lit "s1")) = [lit "r1"] /\
  map fl_rule (open_flags (sample_push sample_clocks (lit "d1") age [] s).1 (lit "s1")) = [lit "r1"].
Proof. vm_compute. auto. Qed.

(** A rule over a repeat's answers is reported as reading an unknown path. *)
Lemma repeat_paths_are_unknown :
  judge (rule_context [(lit "members[i1].age_m", VInt 3)] [lit "age_m"] (Date 2026 9 14) []) []
    (Rule (lit "r3") [] (call_expr "max" [ref_expr "members[].age_m"]) [] None) =
  Ok (Some (Outcome (Rule (lit "r3") [] (call_expr "max" [ref_expr "members[].age_m"]) [] None) false
              (UnknownPath [lit "members[].age_m"]))).
Proof. vm_compute. reflexivity. Qed.

(** ** Pull *)

(** An op whose number was drawn before another's but which commits after a
    client pulled that one is behind the client's cursor. *)
Lemma late_commit_is_never_pulled :
  let row i n := OpRow (lit i) (lit "s1") (lit "finalize") None None None None None (lit "d1") None n [] n in
  let early := with_ops [row "late"%string 2] after_first in
  let before := with_tombstones [] (with_ops [row "first"%string 1; row "third"%string 3] after_first) in
  let after := with_ops (sv_ops before ++ sv_ops early) before in
  next_cursor 0 (pull_batch org_admin nobodys_cases before 0 10) = 3 /\ pull_batch org_admin nobodys_cases after 3 10 = [].
Proof. vm_compute. auto. Qed.

(** ** Media *)

(** Re-sending a chunk of a complete file, byte for byte, makes it incomplete. *)
Lemma resent_chunk_unseals :
  m_status (photo_row sealed_server) = Complete /\
  m_status (photo_row (put_chunk sample_root tohex 13 (sample_ulid 3) 0 [1; 2; 3]%N sealed_server).1) = Uploading.
Proof. vm_compute. auto. Qed.

(** The status a mismatched hash sets is rolled back with the refusal. *)
Lemma failed_status_is_rolled_back :
  m_status (photo_row (complete sample_root tohex 12 (sample_ulid 3) (lit "ffff") sent_server).1) = Failed /\
  m_status (photo_row (transact (complete sample_root tohex 12 (sample_ulid 3) (lit "ffff")) sent_server).1) = Uploading.
Proof. vm_compute. auto. Qed.

(** Two file ids, one object. *)
Lemma file_id_climbs :
  store_path sample_root (chunk_storage_key (lit "x/../m1") 0) = store_path sample_root (chunk_storage_key (lit "m1") 0).
Proof. vm_compute. reflexivity. Qed.

(** ** The expression surface *)

Section ExpressionSurface.
#[local] Existing Instance ascii_env.
#[local] Existing Instance ascii_unicode.

Definition typed (text : pystr) : expression_request := ExpressionRequest (Some text) None None false.

(** [isdigit] holds of a superscript two and [\d] does not match it: the
    number branch's assertion fails, and no [ExpressionError] is raised. *)
Lemma superscript_crashes :
  parse [178%N] None false = Halted (Crashed AssertionError) /\
  expressions (typed (lit "${a} * " ++ [178%N])) = Raise AssertionError.
Proof. vm_compute. auto. Qed.

(** An integer of more digits than [int] converts leaves as a [ValueError]. *)
Lemma long_integer_crashes :
  expressions (typed (replicate 4301 49%N)) = Raise ValueError.
Proof. vm_compute. reflexivity. Qed.

(** A node without the arguments its operator indexes is an [IndexError],
    which the endpoint does not catch. *)
Lemma short_arguments_crash :
  expressions (ExpressionRequest None (Some [(lit "op", text "not")]) None false) = Raise IndexError.
Proof. vm_compute. reflexivity. Qed.

(** A [${...}] around a row's column is read anywhere, printed as a bare name,
    and the bare name is not read outside a choice filter: the canonical
    text the endpoint answers is refused when it is sent back. *)
Lemma row_reference_is_lost :
  let p := lit "$row.x" in
  expressions (typed "${$row.x}") =
    Ok (ExpressionResponse (Some (node_of (ERef p))) (Some (lit "x")) None None) /\
  expressions (typed "x") =
    Ok (ExpressionResponse None None (Some (NotParsed (BareName "x"))) (Some 0%nat)).
Proof. vm_compute. auto. Qed.

(** The test for [true(] looks at the next token's text and not its kind. *)
Lemma quoted_parenthesis_is_one :
  parse "true'(')" None false = Done (ELit (VBool true)).
Proof. vm_compute. reflexivity. Qed.

(** The arity of [not], [if] and [selected] is checked by the parser and not
    by the printer: a second argument of [not] is dropped from the text, and
    an [if] of one argument is printed as text that is refused. *)
Lemma printer_ignores_arity :
  render (node_of (EOp OpNot [ERef "a"; ERef "b"])) = Ok (lit "not(${a})") /\
  render (node_of (EOp OpIf [ERef "a"])) = Ok (lit "if(${a})") /\
  parse "if(${a})" None false =
    Halted (Refused (ExpressionError (Arity "if") None (Some 0%nat))).
Proof. vm_compute. auto. Qed.

(** Curly quotes let a string hold both straight ones, which the printer
    cannot write: text the endpoint reads and answers no text for. *)
Lemma curly_string_has_no_text :
  let s := lit "it's " ++ [34%N] ++ lit "x" ++ [34%N] in
  let node := node_of (ELit (VStr s)) in
  expressions (typed ([8220%N] ++ s ++ [8221%N])) = Ok (ExpressionResponse (Some node) None None None).
Proof. vm_compute. reflexivity. Qed.

(** A number too large for a float is read as an infinity, a literal no form
    can hold. *)
Lemma huge_decimal_is_infinite :
  parse (replicate 400 57%N ++ lit ".0") None false = Done (ELit (VFloat (S754_infinity false))).
Proof. vm_compute. reflexivity. Qed.

End ExpressionSurface.

(** ** Publishing and delivery *)

From S2P Require Import PublishGate Catalog Forms Entities CatalogFacts CatalogSound DeltaFacts.
From S2P Require Import CatalogSamples CatalogTheorems DeliveryTheorems.

Section Publishing.

(** A save that names no revision is meant to start a draft; where one exists
    it replaces it, and the author who held it is not told. *)
Lemma unnamed_revision_overwrites :
  (atomically (save_draft 10 (lit "u2") (SaveDraftRequest (register 9) None (Some (lit "bob")) None)) sample_catalog).2 =
    inl (Draft (register 9) 2 10 (Some (lit "bob")) []).
Proof. vm_compute. reflexivity. Qed.

Definition deployed_twice : catalog := Eval vm_compute in
  (insert_deployment (Deployment (lit "u99") (lit "e1") (lit "u3") 9 false) sample_catalog).1.

(** Nothing in the tables keeps a version from being deployed twice to an
    environment (two publications at once do), and then every publication of
    it that deploys fails. *)
Lemma second_deployment_fails_publishing :
  (insert_deployment (Deployment (lit "u99") (lit "e1") (lit "u3") 9 false) sample_catalog).2 = inl tt /\
  (atomically (sample_publish 10 (publish_request_of 1 "u1")) deployed_twice).2 = inr MultipleResultsFound.
Proof. vm_compute. auto. Qed.

Definition with_field (k : string) (v : value) (ir : value) : value := VDict (dset (vdict ir) (lit k) v).
Definition publishing (ir : value) : publish_request :=
  PublishVersionRequest (lit "p") ir None None None None [] None [].
Definition one_question : value := document [question "name" "text" []].

(** A title that is text and not a table of translations passes the gate and
    ends the request in an exception nobody catches. *)
Lemma text_title_crashes :
  is_ok (compile (with_field "title" (text "Census") one_question)) = true /\
  (atomically (sample_publish 10 (publishing (with_field "title" (text "Census") one_question))) empty_catalog).2 =
    inr (Escapes AttributeError).
Proof. vm_compute. auto. Qed.

(** A version number wider than its column passes the gate and fails in the
    driver. *)
Lemma wide_version_fails :
  (atomically (sample_publish 10 (publishing (with_field "version" (VInt (2 ^ 31)) one_question))) empty_catalog).2 =
    inr DataError.
Proof. vm_compute. reflexivity. Qed.

(** A second form over the same list that shows its notes. *)
Definition audit : value :=
  with_field "formId" (text "audit") (document
    [ question "where" "select_one"
        [("choices"%string, obj [("kind"%string, text "dataset"); ("dataset"%string, text "villages");
           ("valueColumn"%string, text "name"); ("labelColumn"%string, obj [("en"%string, text "note")])])] ]).

Definition two_forms : catalog := Eval vm_compute in
  (atomically (sample_publish 10 (PublishVersionRequest (lit "p") audit None None None (Some (lit "audit1")) [] None
     [DatasetPin (lit "villages") (lit "u5")])) sample_catalog).1.

Definition copy_of_register : odict (odict value) := Eval vm_compute in
  fold_left (apply_page (lit "name"))
    (default [] (follow 7 (fetch_delta_for same_bytes same_bytes two_forms (lit "u6") (lit "villages") (lit "u1") 9) None))
    (held_rows (records_of two_forms (lit "u1"))).

(** A device keeps one copy of a dataset version for all its forms, but a
    delta holds only the changes the asking form reads: the copy one form's
    delta completes shows another form the old note. *)
Lemma delta_of_one_form_is_stale_for_another :
  pinned_version two_forms (lit "u6") (lit "villages") = pinned_version two_forms (lit "audit1") (lit "villages") /\
  lit "note" ∈ columns_for two_forms (lit "audit1") (lit "villages") /\
  (fun row => vget row "note") <$> dget copy_of_register (lit "v1") = Some (text "x") /\
  (fun r => vget (xr_data r) "note") <$>
    List.find (fun r => str_eqb (xr_key r) "v1") (records_of two_forms (lit "u5")) = Some (text "y").
Proof.
  split; [vm_compute; reflexivity|]. split; [apply (bool_decide_unpack _); vm_compute; exact I|].
  split; vm_compute; reflexivity.
Qed.

(** A form that also looks the village's note up with [pulldata], which the
    specification resolves through the version's pin. *)
Definition note_of_village : value := call_expr "pulldata" (map lit_expr [text "villages"; text "note"; text "name"] ++ [ref_expr "where"]).
Definition notes : value :=
  with_field "formId" (text "notes") (document
    [ question "where" "select_one"
        [("choices"%string, obj [("kind"%string, text "dataset"); ("dataset"%string, text "villages");
           ("valueColumn"%string, text "name"); ("labelColumn"%string, obj [("en"%string, text "label")])])];
      question "note" "text" [("calculate"%string, note_of_village)] ]).

Definition with_notes : catalog := Eval vm_compute in
  (atomically (sample_publish 10 (PublishVersionRequest (lit "p") notes None None None (Some (lit "notes1")) [] None
     [DatasetPin (lit "villages") (lit "u5")])) sample_catalog).1.

Definition note_in (rows : list (odict value)) : res value :=
  evaluate (EvalCtx [(lit "where", text "v1")] (Date 2026 9 14) [] None [] None [] (Some (in_memory [(lit "villages", rows)])))
    (expr_of note_of_village).

(** The delta compares the columns [choices] read, so a row whose note alone
    changed is not sent, and the calculate goes on reading the old note. *)
Lemma pulldata_column_stays_stale :
  let copy := fold_left (apply_page (lit "name"))
    (default [] (follow 7 (fetch_delta_for same_bytes same_bytes with_notes (lit "notes1")
       (lit "villages") (lit "u1") 9) None)) (held_rows (records_of with_notes (lit "u1"))) in
  pinned_version with_notes (lit "notes1") (lit "villages") = Some (lit "u5") /\
  lit "note" ∉ columns_read_by notes (lit "villages") /\ length copy = 3%nat /\
  note_in (dvalues copy) = Ok (text "x") /\ note_in (map xr_data (records_of with_notes (lit "u5"))) = Ok (text "y").
Proof.
  cbv zeta. split; [vm_compute; reflexivity|]. split; [apply (bool_decide_unpack _); vm_compute; exact I|].
  split_and!; vm_compute; reflexivity.
Qed.

(** A dataset only [pulldata] names is not among those a version pins. *)
Definition lookup_only : value :=
  document [ question "where" "text" []; question "note" "text" [("calculate"%string, note_of_village)] ].

Lemma pulldata_dataset_is_not_pinned :
  match check_publishable sample_registry lookup_only with inl compiled => dataset_keys compiled = [] | inr _ => False end /\
  (fun c => ct_pins c) (atomically (sample_publish 10 (publishing lookup_only)) empty_catalog).1 = [].
Proof. split; vm_compute; reflexivity. Qed.

(** A cursor that is no number starts a page of rows over, as its comment
    says; in a delta it is an exception. *)
Lemma garbled_delta_cursor_crashes :
  dataset_delta_for same_bytes same_bytes sample_catalog (lit "u6") (lit "villages") (lit "u1") (Some (lit "c:x")) 5 =
    inr (Escapes ValueError) /\
  is_Some (fetch_rows sample_catalog (lit "u1") 5 (Some (lit "x"))).
Proof. split; [vm_compute; reflexivity|]. vm_compute. by eexists. Qed.

End Publishing.

(** ** Exports *)

From S2P Require Import Projection Cells ExportPlan ExportManifest ExportService.

Section Exporting.

(** A form whose question takes the name of a key column, and its one
    submission. *)
Definition keyed : cform := compiled_or_empty (document [question "submission_id" "text" []; question "name" "text" []]).
Definition keyed_record : submission_record :=
  SubmissionRecord "s1" "census" 1 "received" None None None None None
    (ExportProjection [(lit "name", text "Ann")] [] [] [] []) [].

Definition tables_of (forms : list cform) (records : list submission_record) : list table :=
  match build_tables (build_plan forms None) records Long "census" with Ok ts => ts | Raise _ => [] end.
Definition bundle_read (forms : list cform) (records : list submission_record) : option (list pystr) :=
  let ts := tables_of forms records in
  match read_bundle (build_manifest (build_plan forms None) ts records "census" None None Long [] None) (csv_files ts) with
  | inl found => Some (dkeys found)
  | inr _ => None
  end.

(** The key column moves to another name, which the manifest does not tie to
    the key it holds: reading the bundle back drops every row. *)
Lemma key_column_taken_loses_rows :
  map cl_name (pl_parent (build_plan [keyed] None)) =
    map lit ["submission_id_2"; "form_id"; "form_version"; "submission_status"; "device_id"; "created_by"; "started_at";
             "finalized_at"; "received_at"; "submission_id"; "name"]%string /\
  bundle_read [keyed] [keyed_record] = Some [].
Proof. split; by_compute. Qed.

(** A field that is an integer in one version and text in the next has the
    integer's column, and the text makes the export raise. *)
Definition retyped_1 : cform := compiled_or_empty (document [question "age" "integer" []]).
Definition retyped_2 : cform := compiled_or_empty (with_field "version" (VInt 2) (document [question "age" "text" []])).
Definition retyped_record : submission_record :=
  SubmissionRecord "s1" "census" 2 "received" None None None None None
    (ExportProjection [(lit "age", text "ten")] [] [] [] []) [].

Lemma retyped_field_fails_the_export :
  build_tables (build_plan [retyped_1; retyped_2] None) [retyped_record] Long "census" = Raise ValueError.
Proof. by_compute. Qed.

(** An integer too long for a float does not read back. *)
Lemma long_integer_reads_back_another :
  (c ← render (VInt 9007199254740993) "integer" None; parse c "integer" None) = Ok (VInt 9007199254740992).
Proof. by_compute. Qed.

(** A structured answer with no part is, by [canonical_value], a value of
    nulls; what is read back is no answer. *)
Lemma no_parts_read_back_as_nothing :
  canonical_value (VDict []) "image" = Ok (VDict (map (fun part => (lit part, VNone)) ["filename"; "id"; "hash"; "size"]%string)) /\
  whole_of (map (fun part => (lit part, VNone)) ["filename"; "id"; "hash"; "size"]%string) = VNone.
Proof. split; by_compute. Qed.

(** With nothing collected the plan has no version, so the file has the
    metadata columns alone. *)
Lemma empty_export_has_no_questions :
  (match export_form str_cmp (Date 2026 9 14) [] (fun _ => []) sample_catalog
     (ExportRequest (lit "register") None None None None Long 10) with
   | inl (Some b) => map (fun t => length (tb_columns t)) (bn_tables b)
   | _ => []
   end) = [length META_COLUMNS].
Proof. by_compute. Qed.

(** Two projects may use one form key; an export that names no project then
    escapes with the driver's exception. *)
Lemma shared_form_key_escapes :
  export_form str_cmp (Date 2026 9 14) [] (fun _ => [])
    (with_forms (map (fun f => Form (lit "other") (lit "q") (fm_key f) (fm_title f) (fm_archived f)) (ct_forms sample_catalog) ++
                 ct_forms sample_catalog) sample_catalog)
    (ExportRequest (lit "register") None None None None Long 10) = inr SeveralForms.
Proof. by_compute. Qed.

End Exporting.

(** ** People and authority *)

From S2P Require Import Identity People.

Module Authority.
Import Acme.

Definition answered (d : directory) (now : Z) (rq : request) : answer + refusal :=
  (handle ulids (fun t => lit "=" ++ t) hashes hashed str_cmp 3600 now rq d).2.

Definition team_of (d : directory) (user : string) : list (option pystr * bool) :=
  map (fun m => (pm_team m, pm_active m)) (List.filter (fun m => str_eqb (pm_user m) user) (di_members d)).

(** A supervisor may add a person to their team and may never take one out:
    the row that leaves names no team, so it is outside their teams. *)
Lemma supervisor_removes_nobody :
  team_of taken_on "u1" = [(Some (lit "north"), true)] /\
  answered taken_on 10 (asks_as "sam" (RemoveMember "north" "u1")) = inr Outside /\
  team_of (serves taken_on [(10, asks_as "sam" (AddMember "valley" "u1"))]) "u1" = [(Some (lit "valley"), true)] /\
  team_of (serves taken_on [(10, asks_as "ann" (RemoveMember "north" "u1"))]) "u1" = [(None, false)].
Proof. split_and!; by_compute. Qed.

(** A grant of a project's role with no project, or made twice, raises the
    driver's exception, which the routes do not turn into an answer. *)
Lemma grant_without_project_escapes :
  answered taken_on 10 (asks_as "ann" (Grant "u1" (GrantRequest "acme_pm" None None))) = inr Integrity /\
  answered taken_on 10 (asks_as "sam" (Grant "u1" (GrantRequest "acme_enumerator" None (Some (lit "north"))))) = inr Integrity.
Proof. split; by_compute. Qed.

(** A supervisor of one team that has another inside it is given no team. *)
Lemma one_team_with_another_inside :
  omap ur_team (grants_of taken_on "sam") = [lit "north"] /\
  answered taken_on 10 (asks_as "sam" (CreatePerson (CreatePersonRequest "lena" "Lena" "lena-secret" "acme_enumerator" None None Temporary))) =
    inr Outside.
Proof. split; by_compute. Qed.

(** Signing in binds a handset of another organisation's project. *)
Definition with_another_organization : directory :=
  with_handsets (di_handsets taken_on ++ [Handset "h9" "survey" (Some (lit "zoe")) false])
    (Directory (di_orgs taken_on ++ [PlatformOrganization "zenith" "zenith.org"]) (di_people taken_on)
      (di_memberships taken_on) (di_roles taken_on) (di_permissions taken_on) (di_grants taken_on)
      (di_projects taken_on ++ [(lit "survey", lit "zenith")]) (di_teams taken_on) (di_members taken_on)
      (di_sessions taken_on) (di_handsets taken_on) (di_issued taken_on)).

Lemma sign_in_takes_a_handset_of_another_organization :
  map ha_user (di_handsets (serves with_another_organization [(10, sign_in "noor" App (Some (lit "h9")))])) =
  [None; Some (lit "u1")].
Proof. by_compute. Qed.

(** An organisation-wide administrator's grant may name any project or team:
    Ann, of Acme, makes Noor a programme manager of Zenith's project and a
    supervisor of its team. *)
Definition with_their_team : directory := with_teams (di_teams taken_on ++ [TeamRow "crew" "survey" "Crew" None]) with_another_organization.

Lemma administrator_grants_on_another_organization :
  let d := serves with_their_team
    [(10, asks_as "ann" (Grant "u1" (GrantRequest "acme_pm" (Some (lit "survey")) None)));
     (11, asks_as "ann" (Grant "u1" (GrantRequest "acme_supervisor" None (Some (lit "crew")))))] in
  project_seen (principal_for d "ann" "acme" "acme.org") d "survey" = false /\
  granted_projects d "u1" = [lit "survey"] /\ lit "crew" ∈ granted_teams d "u1".
Proof. cbv zeta. split_and!; [by_compute..|]. apply (bool_decide_eq_true_1 (_ ∈ _)). by_compute. Qed.

End Authority.

(** ** Cases *)

From S2P Require Import CaseTheorems Cases.

Module Casework.
Import Acme Fieldwork.

Definition answered_work (w : casework) (now : Z) (rq : work_request) : unit + refusal :=
  (handle_work str_cmp ulids spoken spoken spoken (fun t => lit "=" ++ t) hashes hashed 3600 now rq w).2.

(** A case held by someone who may no longer work it, deactivated or moved to
    another team, can be given to nobody else, by the team's supervisor or by
    an administrator: the released row is held to the rule for making one. *)
Lemma case_of_a_deactivated_person_is_stuck :
  let gone := works sent_out [(20, OfPeople (asks_as "ann" (Deactivate "u1")))] in
  map mb_status (List.filter (fun m => str_eqb (mb_user m) "u1") (di_memberships (cw_people gone))) = [Deactivated] /\
  answered_work gone 21 (work_as "sam" (AssignCase "u103" None (Some (lit "sam")))) = inr Outside /\
  answered_work gone 21 (work_as "ann" (AssignCase "u103" (Some (lit "valley")) None)) = inr Outside.
Proof. cbv zeta. split_and!; by_compute. Qed.

Lemma case_of_a_moved_person_is_stuck :
  let moved := works sent_out [(20, OfPeople (asks_as "sam" (AddMember "valley" "u1")))] in
  Authority.team_of (cw_people moved) "u1" = [(Some (lit "valley"), true)] /\
  answered_work moved 21 (work_as "ann" (AssignCase "u103" (Some (lit "valley")) None)) = inr Outside.
Proof. cbv zeta. split; by_compute. Qed.

(** Zoe administers another organisation, Zenith, and sees nothing of Acme's
    project; [dcp_case_in_scope] asks for the organisation nowhere, so she
    lists its cases and gives one to a team of her own. *)
Definition two_organizations : directory :=
  install "zenith" (Directory (di_orgs taken_on ++ [PlatformOrganization "zenith" "zenith.org"])
    (di_people taken_on ++ [PlatformUser "zoe" "zenith" (Some (lit "zoe")) "zoe" None None None])
    (di_memberships taken_on ++ [PlatformOrgMembership "zenith" "zoe" Active Permanent None None None None])
    (di_roles taken_on) (di_permissions taken_on)
    (di_grants taken_on ++ [UserRole "g9" "zoe" "zenith_admin" OrganizationScope None None None None])
    (di_projects taken_on ++ [(lit "survey", lit "zenith")]) (di_teams taken_on ++ [TeamRow "crew" "survey" "Crew" None])
    (di_members taken_on) (di_sessions taken_on) (di_handsets taken_on) (di_issued taken_on)).

Lemma administrator_of_another_organization_holds_the_cases :
  let w := with_people_of two_organizations sent_out in
  let zoe := principal_for two_organizations "zoe" "zenith" "zenith.org" in
  project_seen zoe two_organizations "census" = false /\
  map (fun v => ca_id (cv_case v)) (list_cases str_cmp zoe w "census") = map lit ["u104"; "u102"; "u103"]%string /\
  (transaction (assign ulids zoe 30 "u102" (Some (lit "crew")) None) w).2 = inl tt.
Proof. cbv zeta. split_and!; by_compute. Qed.

(** A role of a team may be given sample.upload and sample.assign.  Sam, who
    sees the two cases of the north, uploads a sample of those two: the upload
    goes through, and the third case, whose key is not in it, stays open. *)
Definition uploading_supervisor : directory :=
  Directory (di_orgs taken_on) (di_people taken_on) (di_memberships taken_on)
    (di_roles taken_on ++ [RoleRow "lister" "acme" "Lister" TeamScope false])
    (di_permissions taken_on ++ [(lit "lister", lit "sample.upload"); (lit "lister", lit "sample.assign")])
    (di_grants taken_on ++ [UserRole "g8" "sam" "lister" TeamScope None (Some (lit "north")) (Some (lit "ann")) None])
    (di_projects taken_on) (di_teams taken_on) (di_members taken_on) (di_sessions taken_on) (di_handsets taken_on)
    (di_issued taken_on).

Lemma upload_leaves_an_unseen_case_open :
  let w := with_people_of uploading_supervisor split_up in
  let sam := principal_for uploading_supervisor "sam" "acme" "acme.org" in
  let rq := households [("oak", "2"); ("elm", "1")]%string in
  let run := upload_sample ulids spoken spoken spoken sam 40 rq w in
  match run.2 with inl _ => True | inr _ => False end /\
  map (fun c => (ca_key c, ca_status c)) (List.filter (fun c => negb (keyed_among (map (sample_key (sm_columns rq)) (sm_rows rq)) c)) (cw_cases run.1)) =
    [(Some (lit "oak|1"), CaseOpen)].
Proof. cbv zeta. split; by_compute. Qed.

End Casework.
